(* ===== verification/_CoqProject ===== *)
-Q . S2P
Prelude.v
Float64.v
Float64Round.v
Errors.v
ModelName.v
RouterTypes.v
StatsStore.v
BaseRouter.v
Strategies.v
Factory.v
FailureWindow.v
PickTheorems.v
Cooldown.v
RouterInvariants.v
RoundRobinProofs.v
CircuitBreaker.v
TokenBucket.v
Semaphore.v
AdaptiveLimiter.v
ResilienceManager.v
Heap.v
MemoryCache.v
RedisCache.v
DualCache.v
AuthTypes.v
AuthStore.v
AuthStoreProofs.v
KeyUtils.v
KeyManagement.v
ModelAccess.v
AuthMiddleware.v
AuthTheorems.v
RedisLimiter.v
TenantLimiter.v
Jobs.v
Governance.v
PluginPipeline.v
Utf8.v
Url.v
ClientTypes.v
BuiltinPlugins.v
CacheHandler.v
Client.v
Stream.v
ClientProofs.v
ClientDemo.v
ClientTheorems.v
ClientBehaviour.v
RoutedClient.v
StreamTheorems.v
StreamBalance.v
ClientSwap.v
ApiTypes.v
ApiPayload.v
Gateway.v
GatewayTheorems.v
GatewayDemo.v
GatewayStreams.v
RedisStats.v
Directory.v
AuditLog.v
UserTeamSync.v
Sso.v
ServerStack.v
ServerTheorems.v
Config.v
Mcp.v
ClientSetup.v
ProviderBase.v
OpenAILike.v
OpenAI.v
Anthropic.v
ProviderTheorems.v
BuiltinProviders.v
ImageSize.v
TokenCount.v
Prober.v
Control.v
Invitation.v
TenantManagement.v
