(* ===== verification/Prelude.v ===== *)
(** * LLMux: a verification development of the gateway

    LLMux is a gateway that sends requests for language models to one of several
    deployments of them.  A request is authenticated by its key, checked against
    the models, budgets and rates of the key and of the team, user and organization
    behind it ([internal/auth/], [internal/governance/]), and handed to the client
    ([client.go], [stream.go]).  The client runs the plug-ins ([internal/plugin/]),
    looks into the cache ([internal/cache/]), asks the router for a deployment
    ([routers/]: seven strategies over statistics of earlier outcomes), takes a
    permit from the resilience layer ([internal/resilience/]), sends the request,
    reports the outcome, and retries on the same or on another deployment; streams
    that break are resumed.  This library models these layers from their Go sources
    and proves what makes them correct.

    ** Files

    - [Prelude]: 64-bit integers with their wrap-around, instants and durations,
      outcomes (a value, an error or a panic), generic lemmas on lists, sorting and
      minimum scans, hint databases and tactics.
    - [Float64], [Float64Round]: Go's [float64] as IEEE binary64, executable
      ([SpecFloat] of the Standard Library), its order, and the enclosure of every
      rounded result between its neighbours.
    - [Errors] ([pkg/errors]), [ModelName] ([pkg/types/model.go]), [RouterTypes]
      ([pkg/router], [pkg/provider], [routers/types.go]): the data model.
    - [StatsStore] ([pkg/router/stats_store.go], [routers/memory_stats_store.go]):
      the store interface as a class of operations and a class of laws; the
      in-memory store, [Module MemoryStore], is an instance of both.
    - [BaseRouter] ([routers/base.go]): registry, statistics (local or in a store),
      failure window, cooldown rules, health, tag and limit filters, reports.
    - [Strategies] ([routers/shuffle.go], [tagbased.go], [leastbusy.go],
      [latency.go], [cost.go], [tpmrpm.go], [round_robin.go] and the round-robin
      store): [PickWithContext] of each strategy.
    - [Factory] ([routers/factory.go]): construction by name; the [Router] type, a
      sum over the strategies, with the operations the embedding promotes.
    - [FailureWindow], [PickTheorems], [Cooldown],
      [RouterInvariants], [RoundRobinProofs]: the theorems of the routing layer.
    - [CircuitBreaker], [TokenBucket], [Semaphore], [AdaptiveLimiter],
      [ResilienceManager] ([internal/resilience/circuitbreaker.go],
      [ratelimiter.go], [semaphore.go], [adaptive_limiter.go], [manager.go]): the
      resilience layer, each with its theorems.
    - [Heap] ([container/heap] of the Go library, which the cache uses),
      [MemoryCache], [RedisCache], [DualCache] ([internal/cache/memory.go],
      [redis.go], [dual.go]): the caching layer, each with its theorems.
    - [AuthTypes] ([internal/auth/types.go], [budget.go]): keys, teams, users,
      organizations, budgets.  [AuthStore] ([store.go], [memory.go]): the storage
      interface as a class and the in-memory store; [AuthStoreProofs]: the store
      refines a directory of keys.
    - [KeyUtils] ([hasher.go], [key_utils.go]), [KeyManagement]
      ([internal/api/management.go]), [ModelAccess] ([model_access.go],
      [casbin.go]), [AuthMiddleware] ([middleware.go]); [AuthTheorems]: the theorems
      about authentication, the life of keys and access to models.
    - [RedisLimiter] ([internal/resilience/redis_limiter.go],
      [distributed_limiter.go]), [TenantLimiter] ([internal/auth/ratelimiter.go]),
      [Jobs] ([jobs.go]), each with its theorems.
    - [Governance] ([internal/governance/]), with its theorems.
    - [PluginPipeline] ([internal/plugin/]): registry and hooks, with theorems.
    - [Utf8]: decoding of runes and quoting as Go does them.  [ClientTypes] ([pkg/types/],
      [options.go]): requests, responses, configuration, and the interfaces of the
      client as classes.  [Client] ([client.go]): a state and panic monad over the
      world (the client and its environment) and every request path in it.
      [Stream] ([stream.go] and the opening of streams): the reader and its
      recovery.
    - [ClientProofs], [ClientTheorems], [ClientBehaviour], [StreamTheorems],
      [StreamBalance]: the theorems about the client, with a recording router and
      scripted network ([ClientDemo]) for the witnesses.  [RoutedClient]: the client
      over the routers of this library.
    - [ClientSwap] ([internal/api/client_swap.go]): the client of the handlers is
      replaced while requests run; a step relation over atomic operations.
    - [ApiTypes] ([pkg/types/request.go], [embedding.go],
      [completions.go], [responses.go]): the data of the HTTP interface, its JSON
      forms and the translations between the interfaces.
    - [ApiPayload], [Gateway] ([internal/api/client_handler.go],
      [responses_handler.go], [internal/mcp/executor.go],
      [internal/observability/requestid.go]): the handlers, which compose
      governance, client, tools and accounting; [GatewayTheorems] (with a
      weakest precondition for handlers), [GatewayStreams], and a small gateway in
      [GatewayDemo].
    - [RedisStats] ([routers/redis_stats_store.go],
      [redis_scripts.go], [round_robin_store.go]): statistics and counters kept by
      scripts in Redis, an instance of the store interface.
    - [Directory] ([internal/auth/store.go]): teams, users, organizations and
      memberships as an interface.  [UserTeamSync]
      ([user_team_sync.go]): reconciliation on login.
    - [Sso] ([oidc.go], [oidc_identity.go], [session.go],
      [session_middleware.go]), [ServerStack] ([cmd/server/middleware.go],
      [cors.go]): identities, sessions, and the middlewares in their order;
      [ServerTheorems], with a small server.
    - [Invitation] ([invitation.go],
      [internal/api/invitation_endpoints.go]): invitations and their limits.
    - [TenantManagement] ([internal/api/team_endpoints.go],
      [user_endpoints.go], [organization_endpoints.go]): the endpoints on tenants.
    - [AuditLog] ([internal/auth/audit.go], [audit_memory.go],
      [internal/api/audit_endpoints.go]): the audit log.
    - [BuiltinPlugins] ([internal/plugin/builtin/cache.go], [rate_limit.go]): the
      response cache and the rate limiter as plug-ins of the pipeline.
    - [CacheHandler] ([internal/cache/handler.go], [keygen.go]): keys of requests and
      cached answers, over the caches.
    - [Url] ([net/url], [net/netip], [path]): what the sources use of the Go library
      on URLs and addresses.
    - [Config] ([internal/config/]), [ClientSetup] ([options.go], the constructor of
      [client.go], and the functions of [cmd/server/] that turn a configuration into
      options, with the theorems on both).
    - [Mcp] ([internal/mcp/]): the tool manager, an instance of what
      the gateway asks of one.
    - [ProviderBase] ([pkg/provider/base_url_validation.go] and what the providers
      share), [OpenAILike], [OpenAI], [Anthropic] ([providers/openailike],
      [providers/openai], [providers/anthropic]), [BuiltinProviders]
      ([providers/registry.go], [litellm_compat.go] and the packages that only name a
      vendor); [ProviderTheorems].
    - [ImageSize], [TokenCount] ([internal/tokenizer]): the
      estimates of tokens, the size of pictures included.
    - [Prober] ([internal/healthcheck/prober.go]): the health checks.  [Control]
      ([internal/api/control_endpoints.go]): cooldowns by hand and reloading, with
      their entries in the audit log.

    ** Conventions

    State is explicit: a method is a function from the record of its receiver (and
    the instants it reads from the clock) to the new record and its results.  A
    method that holds its lock throughout is one step.  Where a method releases its
    lock in between, the model has the pieces: the semaphore is a step relation over
    the phases of its goroutines, and [MemoryCache.Get] and [UpdateKey] are split for
    the theorems about their gaps.  Objects shared by reference are shared: the key
    objects of the in-memory store live in a heap that its two maps point into.  A
    Go map is a finite map; where its iteration order could matter the order is an
    argument.  The random generator is a stream of draws.  Metrics and callbacks are
    events recorded in the state.

    What the program imports is a parameter: the Redis client ([RedisClient], with
    the documented behaviour of its read commands as [RedisReads]; [RedisDB] for the
    commands of the limiter script), the random source and the hash ([Crypto]), the
    policy library ([CasbinEngine]), the network library ([NetLib]), the token bucket
    of the Go extension library ([RateLimiter]), time formats ([RFC3339]), the
    decoding of a price file and the file system, the library of the tool protocol
    ([McpLib]), the tables of the tokenizer, YAML, and the JSON of the vendors.  The interfaces of the program are
    classes too ([AuthStore], [IdempotencyStore], [RouterI], [CacheI],
    [DistributedLimiter]), so that the client is proved against what it calls, and
    the implementations of this library are instances.  Network, tokenizer and JSON
    encoding are the classes [Network], [Tokenizer] and [Codec].  Each law class has
    an instance in this library, used by the witnesses.

    Fuel appears where a loop is not structural, and it is always enough: the
    eviction loops of the cache take the length of the heap (each turn pops an
    entry), sifting in [Heap] takes the length of the slice, trimming takes the
    length of the string, the bisection of the plug-in registry its width; the retry
    loops of the client take the number of attempts, which is how the source bounds
    them; the reader of a stream takes the number of bytes left, of which every line
    uses one; the recovery of a stream takes the retries left, and
    [recovery_fuel_enough] shows that more fuel changes nothing ([recovery_terminates]
    bounds the requests that it sends).  The
    loop over the tools of a model takes the number of iterations the source allows;
    the loop that forwards a stream takes fuel of which [chat_stream_served] shows
    that some is enough.  The expansion of variables takes the length of the text, the
    groups of an IPv6 address are eight, the headers of a JPEG take one turn for each
    byte, and the formatting of a schema takes its depth; [estimates_made] shows that no
    estimate runs out.  The theorems
    are about the results, not conditional on termination.

    ** What is shown

    - Routing: every deployment any strategy returns is registered and in service,
      allowed by the tags of a request that has some and within its limits for one that
      has an estimate; a pick succeeds exactly when a
      deployment is in service; no pick panics; each strategy optimises what it
      says; round robin is fair.  The failure window and the statistics refine logs
      of outcomes; failures put a deployment out of service for the cooldown;
      with local statistics tenants do not see each other's reports; counters stay sound along every
      sequence of reports; registration and removal are inverse.
    - Resilience: the invariant, opening and recovery of the breaker; the bounds of
      the token bucket and of the adaptive limit, in floating-point arithmetic; the
      safety of the semaphore under every interleaving; the order of admission and
      the independence of keys in the manager; the fixed windows of the distributed
      limiter admit at most their limit, under one clock.
    - Caching: the heap-based cache is bounded and refines a map with expirations;
      the cleanup is exact; the two-tier cache, for values that fit, serves none older than its
      local time-to-live and its batch read is exact.
    - Authentication: while updates keep the hashes of keys the store refines a directory; a request gets through exactly
      with the secret of a live key; the life of a generated key; access to a model
      needs every level; the key of an anonymous caller cannot be spoofed; budget
      resets and key rotation are due when they should be.
    - Governance: an evaluation passes exactly within access, budgets and rates; an
      accounting charges every level once and nothing else.
    - Plug-ins: the registry stays ordered; hooks nest.
    - The client: whatever happens, every request started at the router is judged
      and ended and every permit comes back, for completions and for streams with
      their recoveries; backoff is bounded; a broken rate limiter follows its
      failure mode; a resumed stream delivers every rune once; reading
      and recovering end, within the configured number of requests.
    - The gateway (without tools and plug-ins): a chat request is refused, fails or is answered, and exactly the
      answers are accounted for, once, also when they are streamed; a stream is
      forwarded chunk by chunk and gives back what it took; a spent budget closes the
      gateway to its key as long as it is over it; a replaced client, and only a
      replaced one or the last at the shutdown, is closed once, when it is idle.
    - Redis statistics: the buckets refine the log of outcomes, and the script decides
      on cooldowns as the router does.
    - Management: who gets through the stack to the management endpoints; sessions
      survive their cookies until they expire; a login reconciles memberships with
      the teams that are claimed; how often an invitation can be used under concurrency; updates of
      tenants keep what they have spent; paging through the audit log shows every
      entry once, most recent first.
    - Set-up: the client of a configuration that the validation accepts has every
      deployment and answers every request; reloading keeps a valid configuration in
      place; a round of probes ends only the cooldowns that probes began; every cooldown set by hand is set
      as asked and recorded.
    - Providers: an accepted base URL is public; a conversation with Anthropic goes on
      from where it was; a streamed answer is the answer; every built-in type of the
      registry makes providers that answer.
    - Tools: the tools that are offered can be called, and every call of a model is
      answered once, in order, however the goroutines run.
    - Cached answers are found again under their key while nothing overwrites, evicts or
      invalidates them; estimates of tokens are always
      made and never negative.
    - Behaviours of the code a maintainer would not expect, each as a theorem, listed
      as findings: permits lost and wake-ups missed by the semaphore, half-open
      breakers that never close or lose their probes, usage that never expires,
      counters shared between models, cache values that outlive their time-to-live,
      secrets that survive their regeneration, spend lost by updates, budgets that
      are never charged, completions whose outcomes the router does not see, cached
      responses refused for their price, streams reported broken after they ended,
      and more.

    ** What is not modelled

    The storage in Postgres (SQL), the verification of tokens and the login redirects,
    the translations for Azure, Gemini, Bedrock, Vertex AI and Zhipu (their factories
    are parameters), the tables of the tokenizer, the semantic cache (a vector
    database), the start of the process, metrics, tracing and the callbacks that report
    to other services, secret stores, the endpoints that only report spend, the
    forwarder of [internal/streaming], which nothing uses, and the packages under
    [caches/], which are copies of the internal caches.
*)
From stdpp Require Export prelude gmap strings list sorting.
From coqutil Require Datatypes.RecordSettersUsingExistingGetters.
Export RecordSettersUsingExistingGetters.RecordSetNotations1.

#[global] Arguments RecordSettersUsingExistingGetters.const {_} _ _ /.

#[global] Set Default Goal Selector "!".
#[global] Open Scope Z_scope.

Declare Scope go_scope.
Delimit Scope go_scope with go.

(** ** Machine integers

    Go's [int] and [int64] are 64-bit two's complement on the platforms the
    gateway targets; arithmetic wraps silently.  They are modelled as [Z] with
    the wrap-around written out at every operation that can overflow. *)

Definition two63 : Z := 9223372036854775808.
Definition two64 : Z := 18446744073709551616.

Definition wrap64 (z : Z) : Z := (z + two63) mod two64 - two63.
Definition wrapu64 (z : Z) : Z := z mod two64.

Definition in_i64 (z : Z) : Prop := - two63 <= z < two63.

Notation "a +! b" := (wrap64 (a + b)) (at level 50, left associativity) : go_scope.
Notation "a -! b" := (wrap64 (a - b)) (at level 50, left associativity) : go_scope.
#[global] Open Scope go_scope.

(** Go's integer [/] and [%] truncate towards zero. *)
Notation "a /! b" := (Z.quot a b) (at level 40, left associativity) : go_scope.
Notation "a %! b" := (Z.rem a b) (at level 40, left associativity) : go_scope.

Create HintDb llmux discriminated.
Create HintDb llmux_i64 discriminated.
Create Rewrite HintDb llmux_i64.

Section MachineInt.
Implicit Types a b z : Z.

Lemma wrap64_range z : in_i64 (wrap64 z).
Proof.
  unfold in_i64, wrap64, two63, two64.
  pose proof (Z.mod_pos_bound (z + 9223372036854775808) 18446744073709551616).
  lia.
Qed.

Lemma wrap64_id z : in_i64 z -> wrap64 z = z.
Proof.
  unfold in_i64, wrap64, two63, two64. intros Hz. rewrite Z.mod_small; lia.
Qed.

Lemma wrap64_add_l a b : wrap64 (wrap64 a + b) = wrap64 (a + b).
Proof.
  unfold wrap64. f_equal.
  replace ((a + two63) mod two64 - two63 + b + two63)
    with ((a + two63) mod two64 + b) by lia.
  rewrite Zplus_mod_idemp_l. f_equal. lia.
Qed.

Lemma wrap64_add_r a b : wrap64 (a + wrap64 b) = wrap64 (a + b).
Proof. rewrite (Z.add_comm a), wrap64_add_l. f_equal. lia. Qed.

Lemma wrap64_add_cong a a' b b' :
  wrap64 a = wrap64 a' -> wrap64 b = wrap64 b' -> wrap64 (a + b) = wrap64 (a' + b').
Proof. intros Ha Hb. by rewrite <- wrap64_add_l, Ha, wrap64_add_l, <- wrap64_add_r, Hb, wrap64_add_r. Qed.

Lemma wrap64_idem z : wrap64 (wrap64 z) = wrap64 z.
Proof. apply wrap64_id, wrap64_range. Qed.

Lemma wrapu64_range z : 0 <= wrapu64 z < two64.
Proof. unfold wrapu64. apply Z.mod_pos_bound. done. Qed.

Lemma wrapu64_id z : 0 <= z < two64 -> wrapu64 z = z.
Proof. apply Z.mod_small. Qed.
End MachineInt.

#[export] Hint Resolve wrap64_range wrapu64_range : llmux_i64.
#[export] Hint Rewrite wrap64_add_l wrap64_add_r : llmux_i64.

(** Removes the wrap-arounds that the hypotheses show to be in range. *)
Ltac wrap_lia :=
  unfold in_i64 in *;
  repeat (rewrite wrap64_id in * by (unfold in_i64, two63, two64 in *; lia));
  unfold two63, two64 in *; lia.

(** ** Time

    A [time.Time] is its instant, in nanoseconds since the Unix epoch; the zero
    [time.Time] is 1 January of year 1.  A [time.Duration] is an [int64] number
    of nanoseconds.  Every call to [time.Now] of the source is an explicit
    argument of the definition that makes it. *)

Definition time := Z.
Definition duration := Z.

Definition Second : duration := 1000000000.
Definition Millisecond : duration := 1000000.
Definition Minute : duration := 60 * Second.
Definition Hour : duration := 60 * Minute.

Definition zero_time : time := -62135596800 * Second.
Definition is_zero (t : time) : bool := t =? zero_time.
Definition before (t u : time) : bool := t <? u.
Definition after (t u : time) : bool := u <? t.
Definition time_add (t : time) (d : duration) : time := t + d.

(** [Time.Sub] saturates at the bounds of [Duration]. *)
Definition time_sub (t u : time) : duration :=
  Z.max (- two63) (Z.min (two63 - 1) (t - u)).

(** [Time.Unix]: whole seconds since the epoch, rounded down. *)
Definition unix (t : time) : Z := t / Second.

(** [Duration.Milliseconds] *)
Definition milliseconds (d : duration) : Z := d /! Millisecond.

(** ** Outcomes

    A Go call either returns a value, returns an error, or panics (an index out
    of range, a nil dereference, [rand.Intn] of a non-positive bound). *)

Inductive outcome (E A : Type) : Type :=
| Ok (a : A)
| Err (e : E)
| Panic.
Arguments Ok {E A} a.
Arguments Err {E A} e.
Arguments Panic {E A}.

Definition outcome_bind {E A B : Type} (m : outcome E A) (k : A -> outcome E B) : outcome E B :=
  match m with
  | Ok a => k a
  | Err e => Err e
  | Panic => Panic
  end.

Notation "'let!' x := m 'in' k" :=
  (outcome_bind m (fun x => k))
  (at level 10, x pattern, m at level 100, k at level 200) : go_scope.

(** Slice indexing: a panic out of range. *)
Definition index {E A : Type} (l : list A) (i : nat) : outcome E A :=
  match l !! i with
  | Some a => Ok a
  | None => Panic
  end.

(** ** Lists *)

(** The loop that keeps the elements satisfying a test, in order. *)
Definition keep {A : Type} (f : A -> bool) (l : list A) : list A :=
  List.filter f l.

(** The first element satisfying the test is removed, the others stay. *)
Fixpoint remove_first {A : Type} (f : A -> bool) (l : list A) : list A :=
  match l with
  | [] => []
  | x :: l' => if f x then l' else x :: remove_first f l'
  end.

Section Lists.
Context {A : Type}.
Implicit Types (f : A -> bool) (l : list A) (x : A).

Lemma elem_of_keep f l x : x ∈ keep f l <-> x ∈ l /\ f x = true.
Proof. unfold keep. rewrite !list_elem_of_In, filter_In. done. Qed.

Lemma keep_incl f l : keep f l ⊆ l.
Proof. intros x. rewrite elem_of_keep. tauto. Qed.

Lemma keep_nil f l : keep f l = [] <-> forall x, x ∈ l -> f x = false.
Proof.
  split.
  - intros E x Hx. destruct (f x) eqn:Ef; [|done].
    exfalso. apply (not_elem_of_nil x). rewrite <- E. by apply elem_of_keep.
  - intros H. destruct (keep f l) as [|y t] eqn:E; [done|].
    assert (Hy : y ∈ keep f l) by (rewrite E; left).
    apply elem_of_keep in Hy as [Hy1 Hy2]. specialize (H _ Hy1). congruence.
Qed.

#[global] Instance keep_perm f : Proper ((≡ₚ) ==> (≡ₚ)) (keep f).
Proof.
  induction 1; unfold keep in *; cbn; repeat case_match; [done|by constructor|done|by constructor|done..|].
  etrans; eassumption.
Qed.

Lemma elem_of_remove_first f l x : x ∈ remove_first f l -> x ∈ l.
Proof.
  induction l as [|y l IH]; cbn; [done|].
  destruct (f y); rewrite ?elem_of_cons; tauto.
Qed.

Lemma elem_of_remove_first_ne f l x :
  f x = false -> x ∈ l -> x ∈ remove_first f l.
Proof.
  intros Hf. induction l as [|y l IH]; cbn; [done|].
  rewrite elem_of_cons. intros [->|Hx].
  - rewrite Hf. left.
  - destruct (f y); [done|]. right. by apply IH.
Qed.
End Lists.

#[export] Hint Resolve keep_incl : llmux.

(** *** [rand.Shuffle]

    The Fisher-Yates loop: for [i] from [n-1] down to [1], position [i] is
    exchanged with a position drawn below [i+1].  The generator is an oracle
    [draw], one natural number per [i], reduced modulo [i+1]. *)

Definition swap {A : Type} (l : list A) (i j : nat) : list A :=
  match l !! i, l !! j with
  | Some x, Some y => <[j := x]> (<[i := y]> l)
  | _, _ => l
  end.

Fixpoint shuffle_from {A : Type} (draw : nat -> nat) (i : nat) (l : list A) : list A :=
  match i with
  | O => l
  | S i' => shuffle_from draw i' (swap l i (draw i mod S i)%nat)
  end.

Definition rand_shuffle {A : Type} (draw : nat -> nat) (l : list A) : list A :=
  shuffle_from draw (pred (length l)) l.

Section Shuffle.
Context {A : Type}.
Implicit Types l : list A.

Lemma swap_perm l i j : swap l i j ≡ₚ l.
Proof.
  unfold swap. destruct (l !! i) as [x|] eqn:Hi; [|done].
  destruct (l !! j) as [y|] eqn:Hj; [|done].
  apply Permutation_sym, (Permutation_inj l).
  rewrite !length_insert. split; [done|].
  exists (fun k => if decide (k = i) then j else if decide (k = j) then i else k).
  pose proof (lookup_lt_Some _ _ _ Hi). pose proof (lookup_lt_Some _ _ _ Hj).
  split.
  - intros a b. repeat case_decide; congruence.
  - intros k. rewrite !list_lookup_insert, !length_insert.
    repeat case_decide; subst; try naive_solver lia; congruence.
Qed.

Lemma shuffle_from_perm draw i l : shuffle_from draw i l ≡ₚ l.
Proof.
  revert l. induction i as [|i IH]; intros l; cbn [shuffle_from]; [done|].
  rewrite IH. apply swap_perm.
Qed.

Lemma rand_shuffle_perm draw l : rand_shuffle draw l ≡ₚ l.
Proof. apply shuffle_from_perm. Qed.

Lemma elem_of_rand_shuffle draw l x : x ∈ rand_shuffle draw l <-> x ∈ l.
Proof. by rewrite (rand_shuffle_perm draw l). Qed.

Lemma rand_shuffle_nil draw l : rand_shuffle draw l = [] <-> l = [].
Proof.
  split; intros E.
  - pose proof (rand_shuffle_perm draw l) as P. rewrite E in P.
    by apply Permutation_nil_l in P.
  - by rewrite E.
Qed.
End Shuffle.

(** *** [sort.SliceStable]

    The insertion sort of the Go library: each element in turn moves left past
    the elements it is less than.  The sorted prefix is kept reversed, so that
    its last element is the head of the list.  The library uses this loop as is
    up to 20 elements and merges such blocks beyond, with the same result when
    [less] is a strict weak order. *)

Section Sort.
Context {A : Type} (less : A -> A -> bool).

Fixpoint sift (x : A) (prefix : list A) : list A :=
  match prefix with
  | [] => [x]
  | y :: prefix' => if less x y then y :: sift x prefix' else x :: prefix
  end.

Fixpoint insertion_sort (prefix : list A) (l : list A) : list A :=
  match l with
  | [] => prefix
  | x :: l' => insertion_sort (sift x prefix) l'
  end.

Definition sort_slice_stable (l : list A) : list A :=
  reverse (insertion_sort [] l).

Lemma sift_perm x p : sift x p ≡ₚ x :: p.
Proof.
  induction p as [|y p IH]; cbn; [done|].
  destruct (less x y); [|done]. rewrite IH. apply Permutation_swap.
Qed.

Lemma insertion_sort_perm p l : insertion_sort p l ≡ₚ p ++ l.
Proof.
  revert p. induction l as [|x l IH]; intros p; cbn; [by rewrite app_nil_r|].
  rewrite IH, sift_perm. cbn. by rewrite Permutation_middle.
Qed.

Lemma sort_slice_stable_perm l : sort_slice_stable l ≡ₚ l.
Proof. unfold sort_slice_stable. by rewrite reverse_Permutation, insertion_sort_perm. Qed.

Lemma elem_of_sort l x : x ∈ sort_slice_stable l <-> x ∈ l.
Proof. by rewrite (sort_slice_stable_perm l). Qed.

Lemma sort_nil l : sort_slice_stable l = [] -> l = [].
Proof.
  intros E. pose proof (sort_slice_stable_perm l) as P. rewrite E in P.
  by apply Permutation_nil_l in P.
Qed.

(** A strict weak order on the elements satisfying [P]: "not less than"
    composes and "less than" is asymmetric. *)
Class StrictWeakOn (P : A -> Prop) : Prop := {
  less_asym x y : P x -> P y -> less x y = true -> less y x = false;
  nless_trans x y z : P x -> P y -> P z ->
    less x y = false -> less y z = false -> less x z = false;
}.

Context (P : A -> Prop) `{!StrictWeakOn P}.

Definition descending : list A -> Prop := StronglySorted (fun x y => less x y = false).

Lemma sift_descending x p :
  P x -> Forall P p -> descending p -> descending (sift x p).
Proof.
  unfold descending. intros Px Pp D. revert Pp.
  induction D as [|y p Hp IH Hy]; intros Pp; cbn; [repeat constructor|].
  apply Forall_cons in Pp as [Py Pp]. destruct (less x y) eqn:E.
  - constructor; [by apply IH|]. rewrite sift_perm. constructor; [by apply less_asym|done].
  - constructor; [by constructor|]. constructor; [done|].
    apply Forall_forall. intros z Hz. rewrite Forall_forall in Hy, Pp.
    eapply nless_trans; [..|by apply Hy]; eauto.
Qed.

Lemma insertion_sort_descending p l :
  Forall P p -> Forall P l -> descending p -> descending (insertion_sort p l).
Proof.
  revert p. induction l as [|x l IH]; intros p Pp Pl Hp; cbn; [done|].
  apply Forall_cons in Pl as [Px Pl].
  apply IH; [rewrite sift_perm; by constructor|done|by apply sift_descending].
Qed.

(** The head of the sorted slice is below nothing: it is a minimum. *)
Lemma sort_head_min l x t :
  Forall P l -> sort_slice_stable l = x :: t -> forall y, y ∈ l -> less y x = false.
Proof.
  intros Pl E y Hy.
  assert (D : descending (insertion_sort [] l))
    by (apply insertion_sort_descending; [constructor|done|constructor]).
  assert (R : insertion_sort [] l = reverse t ++ [x]).
  { rewrite <- reverse_cons, <- E. unfold sort_slice_stable. by rewrite reverse_involutive. }
  rewrite R in D.
  assert (Hin : y ∈ reverse t ++ [x]).
  { rewrite <- R. by rewrite (insertion_sort_perm [] l). }
  apply elem_of_app in Hin as [Hin|Hin].
  - clear R E Hy. induction (reverse t) as [|z r IH]; [by apply elem_of_nil in Hin|].
    cbn in D. inversion D as [|? ? D' F]; subst.
    apply elem_of_cons in Hin as [->|Hin]; [|by apply IH].
    rewrite Forall_app in F. destruct F as [_ F]. by inversion F.
  - apply list_elem_of_singleton in Hin as ->.
    assert (Px : P x).
    { rewrite Forall_forall in Pl. apply Pl. rewrite <- elem_of_sort, E. left. }
    destruct (less x x) eqn:X; [|done]. by rewrite (less_asym _ _ Px Px X) in X.
Qed.
End Sort.

(** *** The minimum-scan loop

    [best := nil; lowest := -1; for c { if lowest < 0 || key c < lowest { ... } }] *)

Section MinScan.
Context {A : Type} (key : A -> Z).

Definition min_step (st : option A * Z) (c : A) : option A * Z :=
  if (st.2 <? 0) || (key c <? st.2) then (Some c, key c) else st.

Definition min_scan (l : list A) : option A :=
  (foldl min_step (None, -1) l).1.

Lemma min_scan_from l best :
  0 <= key best -> (forall c, c ∈ l -> 0 <= key c) ->
  exists m, foldl min_step (Some best, key best) l = (Some m, key m)
    /\ m ∈ best :: l /\ forall c, c ∈ best :: l -> key m <= key c.
Proof.
  revert best. induction l as [|c l IH]; intros best Hb Hl; cbn [foldl].
  - exists best. repeat split; [set_solver|]. intros c Hc.
    apply list_elem_of_singleton in Hc as ->. lia.
  - unfold min_step at 2. cbn [fst snd].
    replace (key best <? 0) with false by lia. cbn [orb].
    destruct (Z.ltb_spec (key c) (key best)).
    + destruct (IH c) as (m & E & Hm & Hmin); [apply Hl; set_solver..|intros; apply Hl; set_solver|].
      exists m. split; [done|]. split; [set_solver|].
      intros d. rewrite elem_of_cons. intros [->|Hd]; [|by apply Hmin].
      specialize (Hmin c). rewrite elem_of_cons in Hmin. specialize (Hmin (or_introl eq_refl)). lia.
    + destruct (IH best) as (m & E & Hm & Hmin); [done|intros; apply Hl; set_solver|].
      exists m. split; [done|]. split; [set_solver|].
      intros d. rewrite !elem_of_cons. intros [->|[->|Hd]].
      * apply Hmin. set_solver.
      * specialize (Hmin best). rewrite elem_of_cons in Hmin. specialize (Hmin (or_introl eq_refl)). lia.
      * apply Hmin. set_solver.
Qed.

(** With non-negative keys the sentinel [-1] is never mistaken for a key: the
    scan returns a minimum. *)
Lemma min_scan_spec l :
  l <> [] -> (forall c, c ∈ l -> 0 <= key c) ->
  exists m, min_scan l = Some m /\ m ∈ l /\ forall c, c ∈ l -> key m <= key c.
Proof.
  intros Hne Hl. destruct l as [|c l]; [done|].
  destruct (min_scan_from l c) as (m & E & Hm & Hmin); [apply Hl; set_solver..|intros; apply Hl; set_solver|].
  exists m. unfold min_scan. cbn [foldl]. unfold min_step at 2. cbn. by rewrite E.
Qed.

(** Whatever the keys, a scan of a non-empty list finds an element of it. *)
Lemma min_scan_elem l : l <> [] -> exists m, min_scan l = Some m /\ m ∈ l.
Proof.
  intros Hne. unfold min_scan.
  assert (G : forall l' b k, exists m, (foldl min_step (Some b, k) l').1 = Some m /\ m ∈ b :: l').
  { intros l'. induction l' as [|c l' IH]; intros b k; cbn [foldl]; [exists b; set_solver|].
    unfold min_step at 2. cbn [fst snd]. case_match.
    - destruct (IH c (key c)) as (m & E & Hm). exists m. split; [done|set_solver].
    - destruct (IH b k) as (m & E & Hm). exists m. split; [done|set_solver]. }
  destruct l as [|c l]; [done|]. cbn [foldl]. unfold min_step at 2. cbn. apply G.
Qed.
End MinScan.

(** ** Step relations *)

(** What every step preserves holds in every reachable state. *)
Lemma rtc_invariant {A : Type} (R : A -> A -> Prop) (I : A -> Prop) x y :
  (forall a b, R a b -> I a -> I b) -> I x -> rtc R x y -> I y.
Proof. intros Hstep Hx. induction 1; eauto. Qed.

(** ** Counting the elements that satisfy a test *)

Definition count_if {A : Type} (f : A -> bool) (l : list A) : Z := Z.of_nat (length (keep f l)).
Definition Z_of_bool (b : bool) : Z := if b then 1 else 0.

Section CountIf.
Context {A : Type}.
Implicit Types (f g : A -> bool) (l : list A) (x y : A).

Lemma count_if_nonneg f l : 0 <= count_if f l.
Proof. unfold count_if. lia. Qed.

Lemma count_if_insert f l i x y :
  l !! i = Some x -> count_if f (<[i := y]> l) = count_if f l - Z_of_bool (f x) + Z_of_bool (f y).
Proof.
  intros Hx. unfold count_if. rewrite insert_take_drop by (by eapply lookup_lt_Some).
  rewrite <- (take_drop_middle l i x Hx) at 3. unfold keep. rewrite !List.filter_app, !length_app.
  cbn [List.filter]. destruct (f x), (f y); cbn [length Z_of_bool]; lia.
Qed.

Lemma count_if_pos f l i x : l !! i = Some x -> f x = true -> 1 <= count_if f l.
Proof.
  intros Hx Hf. unfold count_if. destruct (keep f l) as [|y k] eqn:Ek; [|cbn; lia].
  exfalso. apply (not_elem_of_nil x). rewrite <- Ek. apply elem_of_keep.
  split; [by eapply list_elem_of_lookup_2|done].
Qed.

Lemma count_if_mono f g l : (forall x, f x = true -> g x = true) -> count_if f l <= count_if g l.
Proof.
  intros H. unfold count_if, keep. induction l as [|x l IH]; cbn [List.filter]; [lia|].
  destruct (f x) eqn:Ef; [rewrite (H x Ef); cbn [length]; lia|].
  destruct (g x); cbn [length]; lia.
Qed.
End CountIf.

(** ** Strings *)

Lemma length_string_app a b : String.length (a +:+ b) = (String.length a + String.length b)%nat.
Proof. induction a as [|c a IH]; [done|]. change (S (String.length (a +:+ b)) = S (String.length a + String.length b)). by rewrite IH. Qed.

Lemma append_assoc a b c : (a +:+ b) +:+ c = a +:+ (b +:+ c).
Proof. induction a as [|x a IH]; [done|]. change (String x ((a +:+ b) +:+ c) = String x (a +:+ (b +:+ c))). by rewrite IH. Qed.

Lemma append_nil_r s : s +:+ "" = s.
Proof. induction s as [|x s IH]; [done|]. change (String x (s +:+ "") = String x s). by rewrite IH. Qed.
