(* ===== verification/Float64.v ===== *)
(** * IEEE 754 binary64 arithmetic

    Go's [float64].  Latencies, prices, weights, token balances and limits of
    the gateway are [float64] values; they are modelled bit for bit by the
    executable specification of the Standard Library ([SpecFloat]) at precision
    53 and maximal exponent 1024, never by an idealised number.

    The file gives the operations the source uses, then the order theory of the
    comparisons.  [Float64Round] adds the rounding lemmas. *)
From Stdlib Require Import SpecFloat.
From S2P Require Import Prelude.

Abbreviation f64 := spec_float.

Definition fadd (x y : f64) : f64 := SFadd 53 1024 x y.
Definition fsub (x y : f64) : f64 := SFsub 53 1024 x y.
Definition fmul (x y : f64) : f64 := SFmul 53 1024 x y.
Definition fdiv (x y : f64) : f64 := SFdiv 53 1024 x y.
Definition fsqrt (x : f64) : f64 := SFsqrt 53 1024 x.

#[global] Arguments fadd : simpl never.
#[global] Arguments fsub : simpl never.
#[global] Arguments fmul : simpl never.
#[global] Arguments fdiv : simpl never.
#[global] Arguments fsqrt : simpl never.

Declare Scope f64_scope.
Delimit Scope f64_scope with f64.
Notation "x ⊞ y" := (fadd x y) (at level 50, left associativity) : f64_scope.
Notation "x ⊟ y" := (fsub x y) (at level 50, left associativity) : f64_scope.
Notation "x ⊠ y" := (fmul x y) (at level 40, left associativity) : f64_scope.
Notation "x ⊘ y" := (fdiv x y) (at level 40, left associativity) : f64_scope.
Notation "x <.? y" := (SFltb x y) (at level 70, no associativity) : f64_scope.
Notation "x <=.? y" := (SFleb x y) (at level 70, no associativity) : f64_scope.
Notation "x =.? y" := (SFeqb x y) (at level 70, no associativity) : f64_scope.
#[global] Open Scope f64_scope.

Definition fzero : f64 := S754_zero false.

(** [float64(z)] for an integer [z]. *)
Definition f64_of_Z (z : Z) : f64 := binary_normalize 53 1024 z 0 false.

#[global] Arguments f64_of_Z : simpl never.

Definition fone : f64 := f64_of_Z 1.

(** The constant [num/den] of the source, correctly rounded; [num] and [den]
    are exact in binary64. *)
Definition f64_lit (num den : Z) : f64 := f64_of_Z num ⊘ f64_of_Z den.

(** [Duration.Seconds] *)
Definition seconds (d : duration) : f64 :=
  f64_of_Z (d /! Second) ⊞ f64_of_Z (d %! Second) ⊘ f64_of_Z Second.

(** The integer [ceil] of a finite value, [None] for infinities and NaN. *)
Definition fceil_Z (x : f64) : option Z :=
  match x with
  | S754_zero _ => Some 0
  | S754_finite s m e =>
      let v := if s then Z.neg m else Z.pos m in
      if 0 <=? e then Some (v * 2 ^ e) else Some (- ((- v) / 2 ^ (- e)))
  | _ => None
  end.

(** [math.Ceil]: the float holding that integer; special values are kept, and
    a negative value above -1 gives a negative zero. *)
Definition fceil (x : f64) : f64 :=
  match x with
  | S754_finite s m e =>
      if 0 <=? e then x
      else
        let v := if s then Z.neg m else Z.pos m in
        binary_normalize 53 1024 (- ((- v) / 2 ^ (- e))) 0 s
  | _ => x
  end.

(** [int(v)] of a [float64]: truncation towards zero; a value out of range gives
    the smallest integer, as on amd64. *)
Definition int_of_f64 (x : f64) : Z :=
  let z := match x with
           | S754_zero _ => 0
           | S754_finite s m e =>
               let v := if 0 <=? e then Z.pos m * 2 ^ e else Z.pos m / 2 ^ (- e) in if s then - v else v
           | _ => two63
           end in
  if (- two63 <=? z) && (z <? two63) then z else - two63.

Definition is_nan (x : f64) : bool :=
  match x with S754_nan => true | _ => false end.

(** A value that a program can hold: the mantissa is canonical. *)
Definition valid (x : f64) : Prop := valid_binary 53 1024 x = true.

#[export] Instance f64_eq_dec : EqDecision f64.
Proof. solve_decision. Defined.

(** ** Order

    [rank] lists the values from minus infinity to plus infinity, the two zeros
    sharing a place; on values other than NaN the comparisons of the language
    are comparisons of ranks. *)

Definition rank (x : f64) : Z * Z * Z :=
  match x with
  | S754_infinity true => (-2, 0, 0)
  | S754_finite true m e => (-1, - e, Z.neg m)
  | S754_zero _ => (0, 0, 0)
  | S754_finite false m e => (1, e, Z.pos m)
  | S754_infinity false => (2, 0, 0)
  | S754_nan => (3, 0, 0)
  end.

Definition lex_lt (p q : Z * Z * Z) : Prop :=
  p.1.1 < q.1.1 \/ p.1.1 = q.1.1 /\ (p.1.2 < q.1.2 \/ p.1.2 = q.1.2 /\ p.2 < q.2).

Definition flt (x y : f64) : Prop := (x <.? y) = true.
Definition fle (x y : f64) : Prop := (x <=.? y) = true.

Lemma lex_trich p q : lex_lt p q \/ p = q \/ lex_lt q p.
Proof. destruct p as [[a b] c], q as [[a' b'] c']; unfold lex_lt; cbn.
  destruct (Z.lt_trichotomy a a') as [?|[?|?]]; [lia| |lia].
  destruct (Z.lt_trichotomy b b') as [?|[?|?]]; [lia| |lia].
  destruct (Z.lt_trichotomy c c') as [?|[?|?]]; [lia| |lia]. subst. auto.
Qed.

Lemma lex_irrefl p : ~ lex_lt p p.
Proof. unfold lex_lt. lia. Qed.

Lemma lex_trans p q r : lex_lt p q -> lex_lt q r -> lex_lt p r.
Proof. unfold lex_lt. lia. Qed.

Lemma compare_rank x y :
  match SFcompare x y with
  | None => x = S754_nan \/ y = S754_nan
  | Some c => is_nan x = false /\ is_nan y = false /\
      match c with
      | Lt => lex_lt (rank x) (rank y)
      | Eq => rank x = rank y
      | Gt => lex_lt (rank y) (rank x)
      end
  end.
Proof.
  destruct x as [[]|[]| |[] m e], y as [[]|[]| |[] m' e'];
    cbn; unfold lex_lt; cbn; try (intuition lia);
    destruct (Z.compare_spec e e'); cbn; try (intuition lia);
    unfold Pos.compare; change (Pos.compare_cont Eq m m') with (Pos.compare m m');
    destruct (Pos.compare_spec m m'); cbn; intuition (subst; lia || congruence).
Qed.

(** "Less than" and "at most" through ranks. *)
Lemma flt_rank x y :
  flt x y <-> is_nan x = false /\ is_nan y = false /\ lex_lt (rank x) (rank y).
Proof.
  unfold flt, SFltb. pose proof (compare_rank x y) as H.
  destruct (SFcompare x y) as [[]|].
  - destruct H as (?&?&->). split; [done|]. intros (_&_&L). by apply lex_irrefl in L.
  - tauto.
  - destruct H as (?&?&G). split; [done|]. intros (_&_&L).
    exfalso. eapply lex_irrefl, lex_trans; eauto.
  - split; [done|]. destruct H as [->| ->]; cbn; intuition done.
Qed.

Lemma fle_rank x y :
  fle x y <-> is_nan x = false /\ is_nan y = false /\ ~ lex_lt (rank y) (rank x).
Proof.
  unfold fle, SFleb. pose proof (compare_rank x y) as H.
  destruct (SFcompare x y) as [[]|].
  - destruct H as (?&?&->). split; [|done]. intros _. split_and!; [done..|apply lex_irrefl].
  - destruct H as (?&?&G). split; [|done]. intros _. split_and!; [done..|].
    intros L. eapply lex_irrefl, lex_trans; eauto.
  - split; [done|]. tauto.
  - split; [done|]. destruct H as [->| ->]; cbn; intuition done.
Qed.

Lemma fle_refl x : is_nan x = false -> fle x x.
Proof. intros. apply fle_rank. split_and!; [done..|apply lex_irrefl]. Qed.

Lemma fle_trans x y z : fle x y -> fle y z -> fle x z.
Proof.
  rewrite !fle_rank. intros (?&?&A) (?&?&B). split_and!; [done..|].
  unfold lex_lt in *. lia.
Qed.

Lemma flt_fle x y : flt x y -> fle x y.
Proof.
  rewrite flt_rank, fle_rank. intros (?&?&A). split_and!; [done..|].
  unfold lex_lt in *. lia.
Qed.

Lemma flt_le_trans x y z : flt x y -> fle y z -> flt x z.
Proof.
  rewrite !flt_rank, fle_rank. intros (?&?&A) (?&?&B). split_and!; [done..|].
  unfold lex_lt in *. lia.
Qed.

Lemma fle_lt_trans x y z : fle x y -> flt y z -> flt x z.
Proof.
  rewrite !flt_rank, fle_rank. intros (?&?&A) (?&?&B). split_and!; [done..|].
  unfold lex_lt in *. lia.
Qed.

Lemma flt_irrefl x : ~ flt x x.
Proof. rewrite flt_rank. intros (_&_&H). by apply lex_irrefl in H. Qed.

(** On numbers, "not less than" is "at least". *)
Lemma not_flt_fle x y :
  is_nan x = false -> is_nan y = false -> (x <.? y) = false <-> fle y x.
Proof.
  intros Hx Hy. rewrite fle_rank. pose proof (flt_rank x y) as H. unfold flt in H.
  destruct (x <.? y).
  { split; [done|]. intros (_&_&N). destruct H as [H _]. by destruct (H eq_refl) as (_&_&?). }
  split; [|done]. intros _. split_and!; [done..|].
  intros L. destruct H as [_ H]. by specialize (H (conj Hx (conj Hy L))).
Qed.

Lemma not_fle_flt x y :
  is_nan x = false -> is_nan y = false -> (x <=.? y) = false <-> flt y x.
Proof.
  intros Hx Hy. rewrite flt_rank. pose proof (fle_rank x y) as H. unfold fle in H.
  destruct (x <=.? y).
  { split; [done|]. intros (_&_&N). destruct H as [H _]. by destruct (H eq_refl) as (_&_&?). }
  split; [|done]. intros _. split_and!; [done..|].
  destruct (lex_trich (rank y) (rank x)) as [?|[E|L]]; [done| |];
    exfalso; destruct H as [_ H]; assert (false = true) as [=]; apply H; split_and!; try done.
  - rewrite E. apply lex_irrefl.
  - intros L'. eapply lex_irrefl, lex_trans; eauto.
Qed.

Lemma fle_num x y : fle x y -> is_nan x = false /\ is_nan y = false.
Proof. rewrite fle_rank. tauto. Qed.

Lemma flt_num x y : flt x y -> is_nan x = false /\ is_nan y = false.
Proof. rewrite flt_rank. tauto. Qed.

(** Comparing by a float key is a strict weak order where the key is not NaN. *)
#[export] Instance flt_key_strict_weak {A : Type} (key : A -> f64) :
  StrictWeakOn (fun a b => key a <.? key b) (fun a => is_nan (key a) = false).
Proof.
  constructor.
  - intros x y Hx Hy H. apply not_flt_fle; [done..|]. by apply flt_fle.
  - intros x y z Hx Hy Hz Hxy Hyz. apply not_flt_fle in Hxy, Hyz; [|done..].
    apply not_flt_fle; [done..|]. by eapply fle_trans.
Qed.

#[export] Hint Resolve fle_refl flt_fle : llmux.

Example lit_tenth : f64_lit 1 10 = S754_finite false 7205759403792794 (-56).
Proof. reflexivity. Qed.
