(* ===== verification/Float64Round.v ===== *)
(** * Rounding of binary64 arithmetic

    A result of [+], [-], [*] or [/] is the exact result rounded to one of its
    two neighbours, so it never crosses a representable number: a float below
    the exact result is below the rounded one, and symmetrically above.  This
    enclosure is what the bounds of token balances, success rates, failure
    rates and limits rest on.

    Exact magnitudes are compared as integers: [scaled m e] is [m * 2^e] in
    units of [2^-4000], far below every product or quotient of binary64 values. *)
From Stdlib Require Import SpecFloat.
From S2P Require Import Prelude Float64.


#[local] Abbreviation fexp := (SpecFloat.fexp 53 1024).
#[local] Abbreviation shr_fexp := (SpecFloat.shr_fexp 53 1024).

Lemma fexp_eq e : fexp e = Z.max (e - 53) (-1074).
Proof. reflexivity. Qed.

(** ** Digits *)

Lemma digits2_pos_bounds m :
  2 ^ (Z.pos (digits2_pos m) - 1) <= Z.pos m < 2 ^ Z.pos (digits2_pos m).
Proof.
  induction m as [m IH|m IH|]; cbn [digits2_pos]; [| |done].
  all: rewrite Pos2Z.inj_succ; replace (Z.succ (Z.pos (digits2_pos m)) - 1) with (Z.pos (digits2_pos m)) by lia.
  all: rewrite Z.pow_succ_r by lia.
  all: rewrite <- (Z.succ_pred (Z.pos (digits2_pos m))) at 1; rewrite Z.pow_succ_r by lia.
  all: unfold Z.pred; change (Z.pos (digits2_pos m) + -1) with (Z.pos (digits2_pos m) - 1); lia.
Qed.

Lemma Zdigits2_bounds m : 0 < m -> 2 ^ (Zdigits2 m - 1) <= m < 2 ^ Zdigits2 m.
Proof. destruct m as [|m|m]; [lia| |lia]. intros _. apply digits2_pos_bounds. Qed.

Lemma Zdigits2_pos m : 0 < m -> 0 < Zdigits2 m.
Proof. by destruct m. Qed.

Lemma Zdigits2_nonneg m : 0 <= Zdigits2 m.
Proof. by destruct m. Qed.

(** Bounds on the number determine the number of digits. *)
Lemma Zdigits2_le m d : 0 <= d -> 0 <= m < 2 ^ d -> Zdigits2 m <= d.
Proof.
  intros Hd Hm. destruct (Z.eq_dec m 0) as [->|]; [done|].
  destruct (Zdigits2_bounds m) as [L _]; [lia|].
  apply Z.nlt_ge. intros C.
  assert (2 ^ d <= 2 ^ (Zdigits2 m - 1)) by (apply Z.pow_le_mono_r; lia). lia.
Qed.

Lemma Zdigits2_ge m d : 0 < d -> 2 ^ (d - 1) <= m -> d <= Zdigits2 m.
Proof.
  intros Hd Hm. assert (0 < 2 ^ (d - 1)) by (apply Z.pow_pos_nonneg; lia).
  destruct (Zdigits2_bounds m) as [_ U]; [lia|].
  apply Z.nlt_ge. intros C.
  assert (2 ^ Zdigits2 m <= 2 ^ (d - 1)) by (apply Z.pow_le_mono_r; [lia|]; lia). lia.
Qed.

(** ** Right shifts with a round and a sticky bit *)

Definition inexact (mrs : shr_record) : bool := shr_r mrs || shr_s mrs.

Lemma shr_1_spec mrs :
  0 <= shr_m mrs ->
  shr_m (shr_1 mrs) = shr_m mrs / 2
  /\ inexact (shr_1 mrs) = Z.odd (shr_m mrs) || inexact mrs.
Proof.
  destruct mrs as [m r s]; unfold inexact; cbn. intros Hm.
  destruct m as [|[p|p|]|p]; cbn; try lia; split; try done;
    try (destruct r, s; reflexivity).
  - rewrite Pos2Z.inj_xI. rewrite Z.add_comm, Z.mul_comm, Z.div_add by lia. done.
  - rewrite Pos2Z.inj_xO. rewrite Z.mul_comm, Z.div_mul by lia. done.
Qed.

Lemma iter_pos_nat {A} (f : A -> A) n x : SpecFloat.iter_pos f n x = Nat.iter (Pos.to_nat n) f x.
Proof.
  revert x. induction n as [n IH|n IH|]; intros x; cbn [SpecFloat.iter_pos]; [| |done].
  - rewrite !IH, <- Nat.iter_add, Pos2Nat.inj_xI.
    replace (S (2 * Pos.to_nat n)) with ((Pos.to_nat n + Pos.to_nat n) + 1)%nat by lia.
    rewrite (Nat.iter_add _ 1). done.
  - rewrite !IH, <- Nat.iter_add. f_equal. lia.
Qed.

Lemma iter_shr_spec n mrs :
  0 <= shr_m mrs ->
  shr_m (Nat.iter n shr_1 mrs) = shr_m mrs / 2 ^ Z.of_nat n
  /\ (inexact (Nat.iter n shr_1 mrs) = false <->
      inexact mrs = false /\ shr_m mrs mod 2 ^ Z.of_nat n = 0).
Proof.
  intros Hm. induction n as [|n [IHm IHi]]; cbn [Nat.iter nat_rect].
  { cbn. rewrite Z.div_1_r, Z.mod_1_r. tauto. }
  change (nat_rect _ mrs _ n) with (Nat.iter n shr_1 mrs).
  assert (Hp : 0 < 2 ^ Z.of_nat n) by (apply Z.pow_pos_nonneg; lia).
  destruct (shr_1_spec (Nat.iter n shr_1 mrs)) as [E1 E2].
  { rewrite IHm. apply Z.div_pos; lia. }
  rewrite Nat2Z.inj_succ, Z.pow_succ_r, (Z.mul_comm 2) by lia. split.
  - rewrite E1, IHm, Z.div_div by lia. done.
  - rewrite E2, orb_false_iff, IHi, IHm.
    rewrite Z.rem_mul_r, Zodd_mod by lia. rewrite Z.eqb_neq.
    pose proof (Z.mod_pos_bound (shr_m mrs) (2 ^ Z.of_nat n) Hp).
    pose proof (Z.mod_pos_bound (shr_m mrs / 2 ^ Z.of_nat n) 2 ltac:(lia)).
    set (q := (shr_m mrs / 2 ^ Z.of_nat n) mod 2) in *.
    assert (q = 0 \/ q = 1) as [-> | ->] by lia; intuition lia.
Qed.

Lemma shr_spec mrs e n :
  0 <= shr_m mrs -> 0 <= n ->
  shr_m (shr mrs e n).1 = shr_m mrs / 2 ^ n
  /\ (shr mrs e n).2 = e + n
  /\ (inexact (shr mrs e n).1 = false <-> inexact mrs = false /\ shr_m mrs mod 2 ^ n = 0).
Proof.
  intros Hm Hn. destruct n as [|p|p]; [| |lia]; cbn [shr fst snd].
  - rewrite Z.div_1_r, Z.mod_1_r. split_and!; [done|lia|tauto].
  - rewrite iter_pos_nat. destruct (iter_shr_spec (Pos.to_nat p) mrs Hm) as [A B].
    rewrite positive_nat_Z in A, B. done.
Qed.

Lemma shr_nonpos mrs e n : n <= 0 -> shr mrs e n = (mrs, e).
Proof. by destruct n. Qed.

Definition loc_inexact (l : location) : bool :=
  match l with loc_Exact => false | _ => true end.

Lemma shr_record_of_loc_m m l : shr_m (shr_record_of_loc m l) = m.
Proof. by destruct l as [|[]]. Qed.

Lemma shr_record_of_loc_inexact m l : inexact (shr_record_of_loc m l) = loc_inexact l.
Proof. by destruct l as [|[]]. Qed.

(** Rounding keeps the truncated mantissa or adds one, and adds one only to an
    inexact mantissa. *)
Lemma round_nearest_even_cases mrs :
  let m := round_nearest_even (shr_m mrs) (loc_of_shr_record mrs) in
  m = shr_m mrs \/ m = shr_m mrs + 1 /\ inexact mrs = true.
Proof.
  destruct mrs as [m [] []]; unfold inexact; cbn; try (by auto).
  destruct (Z.even m); auto.
Qed.

(** ** The grid of representable magnitudes *)

Definition scaled (m e : Z) : Z := m * 2 ^ (e + 4000).

(** [m * 2^e] in canonical form, exponents unbounded above. *)
Definition grid (m e : Z) : Prop :=
  0 <= m < 2 ^ 53 /\ -1074 <= e /\ (-1074 < e -> 2 ^ 52 <= m).

Lemma bounded_grid m e : bounded 53 1024 m e = true <-> grid (Z.pos m) e /\ e <= 971.
Proof.
  unfold bounded, canonical_mantissa, grid. rewrite andb_true_iff, Z.eqb_eq, Z.leb_le, fexp_eq.
  change (Z.pos (digits2_pos m)) with (Zdigits2 (Z.pos m)).
  pose proof (Zdigits2_bounds (Z.pos m) eq_refl) as B.
  pose proof (Zdigits2_pos (Z.pos m) eq_refl) as P.
  split.
  - intros [E U]. split; [|lia].
    assert (2 ^ Zdigits2 (Z.pos m) <= 2 ^ 53) by (apply Z.pow_le_mono_r; lia).
    split_and!; [lia..|]. intros L.
    assert (2 ^ 52 <= 2 ^ (Zdigits2 (Z.pos m) - 1)) by (apply Z.pow_le_mono_r; lia). lia.
  - intros [(M & L & N) U]. split; [|lia].
    pose proof (Zdigits2_le (Z.pos m) 53 ltac:(lia) M).
    destruct (Z.eq_dec e (-1074)); [lia|].
    pose proof (Zdigits2_ge (Z.pos m) 53 ltac:(lia) ltac:(cbn; lia)). lia.
Qed.

Lemma pow2_pos e : 0 <= e -> 0 < 2 ^ e.
Proof. intros. apply Z.pow_pos_nonneg; lia. Qed.

Lemma scaled_shift m e n : 0 <= n -> -4000 <= e -> scaled m (e + n) = scaled (m * 2 ^ n) e.
Proof.
  intros Hn He. unfold scaled. rewrite <- Z.mul_assoc, <- Z.pow_add_r by lia.
  do 2 f_equal. lia.
Qed.

Lemma scaled_le m1 m2 e : -4000 <= e -> scaled m1 e <= scaled m2 e <-> m1 <= m2.
Proof.
  intros He. unfold scaled. pose proof (pow2_pos (e + 4000) ltac:(lia)). nia.
Qed.

(** A point with a smaller exponent is below every normal point above it. *)
Lemma scaled_exp_lt m1 e1 m2 e2 :
  m1 < 2 ^ 53 -> 2 ^ 52 <= m2 -> -4000 <= e1 -> e1 < e2 -> scaled m1 e1 < scaled m2 e2.
Proof.
  intros H1 H2 He Hlt. replace e2 with (e1 + (e2 - e1)) by lia.
  rewrite scaled_shift by lia.
  enough (m1 < m2 * 2 ^ (e2 - e1)).
  { apply Z.nle_gt. rewrite scaled_le by lia. lia. }
  assert (2 ^ 1 <= 2 ^ (e2 - e1)) by (apply Z.pow_le_mono_r; lia).
  assert (2 ^ 53 = 2 * 2 ^ 52) by reflexivity. nia.
Qed.

(** On the grid the lexicographic order of the comparison is the order of the
    magnitudes. *)
Lemma grid_order m1 e1 m2 e2 :
  grid m1 e1 -> grid m2 e2 ->
  scaled m1 e1 <= scaled m2 e2 <-> e1 < e2 \/ e1 = e2 /\ m1 <= m2.
Proof.
  intros (A1 & B1 & C1) (A2 & B2 & C2).
  destruct (Z.lt_trichotomy e1 e2) as [H|[->|H]].
  - pose proof (scaled_exp_lt m1 e1 m2 e2 ltac:(lia) ltac:(lia) ltac:(lia) H). lia.
  - rewrite scaled_le by lia. lia.
  - pose proof (scaled_exp_lt m2 e2 m1 e1 ltac:(lia) ltac:(lia) ltac:(lia) H). lia.
Qed.

(** ** Truncation to the grid *)

Section Truncate.
Context (mx ex : Z) (Hmx : 0 <= mx) (Hex : -4000 <= ex).
Context (Hfexp : ex <= fexp (Zdigits2 mx + ex)).

Let e' := fexp (Zdigits2 mx + ex).
Let n := e' - ex.
Let m1 := mx / 2 ^ n.

Lemma trunc_grid : grid m1 e'.
Proof.
  unfold grid. assert (Hn : 0 <= n) by (unfold n; lia).
  pose proof (pow2_pos n Hn). pose proof (Zdigits2_nonneg mx).
  assert (E : e' = Z.max (Zdigits2 mx + ex - 53) (-1074)) by reflexivity.
  destruct (Z.eq_dec mx 0) as [Hz|Hz].
  { unfold m1. subst mx. cbn in *. split_and!; [done..|lia|]. lia. }
  pose proof (Zdigits2_bounds mx ltac:(lia)) as [L U].
  split_and!.
  - apply Z.div_pos; lia.
  - apply Z.div_lt_upper_bound; [lia|]. rewrite <- Z.pow_add_r by lia.
    assert (2 ^ Zdigits2 mx <= 2 ^ (n + 53)) by (apply Z.pow_le_mono_r; unfold n; lia). lia.
  - lia.
  - intros Hlt. apply Z.div_le_lower_bound; [lia|].
    rewrite <- Z.pow_add_r by lia.
    replace (n + 52) with (Zdigits2 mx - 1) by (unfold n; lia). lia.
Qed.

(** The exponent of the truncation is low enough for every representable
    number at or above the exact value. *)
Lemma trunc_le : scaled m1 e' <= scaled mx ex.
Proof.
  assert (Hn : 0 <= n) by (unfold n; lia).
  replace e' with (ex + n) by (unfold n; lia).
  rewrite scaled_shift, scaled_le by lia.
  rewrite Z.mul_comm. apply Z.mul_div_le. by apply pow2_pos.
Qed.

Lemma trunc_lo mf ef : grid mf ef -> scaled mf ef <= scaled mx ex -> scaled mf ef <= scaled m1 e'.
Proof.
  intros G H. destruct trunc_grid as (A & B & C). destruct G as (A' & B' & C').
  destruct (Z.le_gt_cases e' ef) as [Hle|Hlt].
  - assert (Hn : 0 <= n) by (unfold n; lia).
    replace ef with (e' + (ef - e')) in H |- * by lia.
    rewrite scaled_shift in H |- * by lia.
    replace e' with (ex + n) in H by (unfold n; lia).
    rewrite scaled_shift, scaled_le in H by lia.
    rewrite scaled_le by lia. replace (ex + n - e') with 0 in H by (unfold n; lia).
    apply Z.div_le_lower_bound; [by apply pow2_pos|].
    replace (ex + n) with e' in H by (unfold n; lia). lia.
  - pose proof (scaled_exp_lt mf ef m1 e' ltac:(lia) ltac:(lia) ltac:(lia) Hlt). lia.
Qed.

Lemma trunc_hi mf ef :
  grid mf ef -> scaled mx ex <= scaled mf ef ->
  (mx mod 2 ^ n <> 0 \/ scaled (mx + 1) ex <= scaled mf ef) ->
  scaled (m1 + 1) e' <= scaled mf ef.
Proof.
  intros G H Hin. destruct trunc_grid as (A & B & C). pose proof trunc_le as T.
  assert (Hn : 0 <= n) by (unfold n; lia). pose proof (pow2_pos n Hn) as Pn.
  destruct (Z.le_gt_cases e' ef) as [Hle|Hlt].
  2:{ destruct G as (A' & B' & C').
      pose proof (scaled_exp_lt mf ef m1 e' ltac:(lia) ltac:(lia) ltac:(lia) Hlt). lia. }
  assert (Es : scaled mf ef = scaled (mf * 2 ^ (ef - e')) e').
  { rewrite <- scaled_shift by lia. f_equal. lia. }
  rewrite Es, scaled_le by lia. rewrite Es in H, Hin. clear Es.
  set (q := mf * 2 ^ (ef - e')) in *.
  replace e' with (ex + n) in H, Hin by (unfold n; lia).
  rewrite scaled_shift, scaled_le in H, Hin by lia.
  pose proof (Z.div_mod mx (2 ^ n) ltac:(lia)) as D.
  pose proof (Z.mod_pos_bound mx (2 ^ n) Pn).
  fold m1 in D. apply Z.nlt_ge. intros Hq. assert (q <= m1) by lia. nia.
Qed.
End Truncate.

(** ** Rounding to the grid *)

(** The float with a given sign and grid magnitude, infinite past the largest
    exponent. *)
Definition to_float (s : bool) (m e : Z) : f64 :=
  match m with
  | Z0 => S754_zero s
  | Zpos p => if e <=? 971 then S754_finite s p e else S754_infinity s
  | Zneg _ => S754_nan
  end.

(** Renormalising after the rounding increment keeps the magnitude. *)
Lemma renormalise m e :
  0 <= m <= 2 ^ 53 -> -1074 <= e -> (-1074 < e -> 2 ^ 52 <= m) ->
  exists m3 e3,
    shr_m (shr_fexp m e loc_Exact).1 = m3 /\ (shr_fexp m e loc_Exact).2 = e3
    /\ grid m3 e3 /\ scaled m3 e3 = scaled m e.
Proof.
  intros Hm He Hn. unfold SpecFloat.shr_fexp.
  destruct (Z.eq_dec m (2 ^ 53)) as [->|Hne].
  - change (Zdigits2 (2 ^ 53)) with 54.
    replace (fexp (54 + e) - e) with 1 by (rewrite fexp_eq; lia).
    exists (2 ^ 52), (e + 1). cbn. split_and!; [done..| |].
    + unfold grid. split_and!; lia.
    + unfold scaled. replace (e + 1 + 4000) with (Z.succ (e + 4000)) by lia.
      rewrite Z.pow_succ_r by lia. lia.
  - pose proof (Zdigits2_le m 53 ltac:(lia) ltac:(lia)).
    rewrite shr_nonpos by (rewrite fexp_eq; lia).
    exists m, e. cbn. split_and!; [done..| |done]. unfold grid. split_and!; lia || done.
Qed.

Lemma round_aux_enclosure s mx ex lx :
  0 <= mx -> -4000 <= ex -> ex <= fexp (Zdigits2 mx + ex) ->
  exists m e,
    binary_round_aux 53 1024 s mx ex lx = to_float s m e /\ grid m e
    /\ (forall mf ef, grid mf ef -> scaled mf ef <= scaled mx ex -> scaled mf ef <= scaled m e)
    /\ (forall mf ef, grid mf ef -> scaled mx ex <= scaled mf ef ->
          (loc_inexact lx = true -> scaled (mx + 1) ex <= scaled mf ef) ->
          scaled m e <= scaled mf ef).
Proof.
  intros Hmx Hex Hf. unfold binary_round_aux.
  unfold SpecFloat.shr_fexp at 1.
  set (n := fexp (Zdigits2 mx + ex) - ex).
  assert (Hn : 0 <= n) by (unfold n; lia).
  destruct (shr_spec (shr_record_of_loc mx lx) ex n) as (Em & Ee & Ei);
    [by rewrite shr_record_of_loc_m|done|].
  rewrite shr_record_of_loc_m in Em, Ei. rewrite shr_record_of_loc_inexact in Ei.
  destruct (shr (shr_record_of_loc mx lx) ex n) as [mrs e'] eqn:Es. cbn [fst snd] in *.
  replace (ex + n) with (fexp (Zdigits2 mx + ex)) in Ee by (unfold n; lia).
  destruct (trunc_grid mx ex Hmx Hf) as (A & B & C).
  fold n in A, C. rewrite <- Em in A, C. rewrite <- Ee in B, C.
  pose proof (round_nearest_even_cases mrs) as Hr. cbn in Hr.
  set (m2 := round_nearest_even _ _) in *.
  destruct (renormalise m2 e') as (m3 & e3 & E3 & E3' & G & S3); [lia|lia|intros; lia|].
  exists m3, e3.
  destruct (SpecFloat.shr_fexp 53 1024 m2 e' loc_Exact) as [mrs3 e3'].
  cbn [fst snd] in *. subst e3' . rewrite E3. split_and!; [done|done| |].
  - intros mf ef Gf H. rewrite S3.
    pose proof (trunc_lo mx ex Hmx Hex Hf mf ef Gf H) as T. fold n in T.
    rewrite <- Em, <- Ee in T. etrans; [exact T|]. apply scaled_le; [lia|]. lia.
  - intros mf ef Gf H Hl. rewrite S3.
    destruct Hr as [->|[-> Hi]].
    + pose proof (trunc_le mx ex Hex Hf) as T. fold n in T. rewrite <- Em, <- Ee in T. lia.
    + rewrite Em, Ee. apply trunc_hi; [done..|]. fold n.
      destruct (Z.eq_dec (mx mod 2 ^ n) 0) as [Hz|]; [right|by left].
      apply Hl. destruct (loc_inexact lx) eqn:El; [done|].
      rewrite (proj2 Ei) in Hi; done.
Qed.

Lemma to_float_valid s m e : grid m e -> valid (to_float s m e).
Proof.
  intros G. unfold valid, to_float. destruct m as [|p|p]; [done| |done].
  destruct (Z.leb_spec e 971); [|done]. cbn [valid_binary]. by apply bounded_grid.
Qed.

Lemma to_float_num s m e : grid m e -> is_nan (to_float s m e) = false.
Proof.
  intros ((A & _) & _). unfold to_float. destruct m as [|p|p]; [done|by destruct (e <=? 971)|lia].
Qed.

(** ** Signed values

    [value x] is the exact value of a finite float in units of [2^-4000]. *)

Definition is_fin (x : f64) : bool :=
  match x with S754_zero _ | S754_finite _ _ _ => true | _ => false end.

Definition value (x : f64) : Z :=
  match x with
  | S754_finite false m e => scaled (Z.pos m) e
  | S754_finite true m e => - scaled (Z.pos m) e
  | _ => 0
  end.

Lemma scaled_pos m e : -4000 <= e -> 0 < m -> 0 < scaled m e.
Proof. intros. unfold scaled. pose proof (pow2_pos (e + 4000) ltac:(lia)). nia. Qed.

(** Finite floats compare as their exact values. *)
Lemma fle_value x y :
  valid x -> valid y -> is_fin x = true -> is_fin y = true -> fle x y <-> value x <= value y.
Proof.
  intros Vx Vy Fx Fy. rewrite fle_rank. unfold lex_lt.
  destruct x as [sx|sx| |sx m e], y as [sy|sy| |sy m' e']; try done; cbn in *.
  all: try (apply bounded_grid in Vx as [Gx _]; pose proof (scaled_pos (Z.pos m) e ltac:(unfold grid in Gx; lia) eq_refl)).
  all: try (apply bounded_grid in Vy as [Gy _]; pose proof (scaled_pos (Z.pos m') e' ltac:(unfold grid in Gy; lia) eq_refl)).
  all: repeat match goal with b : bool |- _ => destruct b end; cbn; try (intuition lia).
  - rewrite <- Z.opp_le_mono. rewrite (grid_order _ _ _ _ Gy Gx). intuition lia.
  - rewrite (grid_order _ _ _ _ Gx Gy). intuition lia.
Qed.

(** ** Enclosure

    [rounds r lo hi]: [r] is a number the language can hold that lies above
    every float at or below [lo] and below every float at or above [hi].  An
    exact result is both bounds; a quotient lies strictly between them. *)

Record rounds (r : f64) (lo hi : Z) : Prop := {
  rounds_valid : valid r;
  rounds_num : is_nan r = false;
  rounds_lo f : valid f -> is_fin f = true -> value f <= lo -> fle f r;
  rounds_hi f : valid f -> is_fin f = true -> hi <= value f -> fle r f;
}.

Lemma fle_opp x y : fle (SFopp x) (SFopp y) <-> fle y x.
Proof.
  rewrite !fle_rank. unfold lex_lt.
  destruct x as [[]|[]| |[] m e], y as [[]|[]| |[] m' e']; cbn; intuition (try done; lia).
Qed.

Lemma SFopp_involutive x : SFopp (SFopp x) = x.
Proof. by destruct x as [[]|[]| |[] m e]. Qed.

Lemma rounds_opp r lo hi : rounds r lo hi -> rounds (SFopp r) (- hi) (- lo).
Proof.
  assert (Vo : forall f, valid f -> valid (SFopp f)) by (intros f; by destruct f as [[]|[]| |[] m e]).
  assert (Fo : forall f, is_fin (SFopp f) = is_fin f) by (intros f; by destruct f as [[]|[]| |[] m e]).
  assert (Xo : forall f, value (SFopp f) = - value f) by (intros f; destruct f as [[]|[]| |[] m e]; cbn; lia).
  intros [V N L H]. constructor.
  - by apply Vo.
  - by destruct r as [[]|[]| |[] m e].
  - intros f Vf Ff Hf. rewrite <- (SFopp_involutive f). apply fle_opp, H; [by apply Vo|by rewrite Fo|rewrite Xo; lia].
  - intros f Vf Ff Hf. rewrite <- (SFopp_involutive f). apply fle_opp, L; [by apply Vo|by rewrite Fo|rewrite Xo; lia].
Qed.

Lemma fle_zero_to_float m e : grid m e -> fle (S754_zero false) (to_float false m e).
Proof.
  intros ((A & _) & _). unfold to_float. destruct m as [|p|p]; [done| |lia]. by destruct (e <=? 971).
Qed.

(** A magnitude that encloses the positive exact bounds on the grid encloses
    them among the signed floats. *)
Lemma to_float_rounds m e lo hi :
  grid m e -> 0 <= lo -> 0 < hi \/ hi = 0 /\ m = 0 ->
  (forall mf ef, grid mf ef -> scaled mf ef <= lo -> scaled mf ef <= scaled m e) ->
  (forall mf ef, grid mf ef -> hi <= scaled mf ef -> scaled m e <= scaled mf ef) ->
  rounds (to_float false m e) lo hi.
Proof.
  intros G Hlo Hhi HL HH. constructor; [by apply to_float_valid|by apply to_float_num|..].
  - intros f Vf Ff Hf.
    destruct f as [s|s| |[] mf ef]; try done;
      try (eapply fle_trans; [|by apply fle_zero_to_float]; done).
    cbn in Hf. apply bounded_grid in Vf as Gf. destruct Gf as [Gf Bf].
    specialize (HL _ _ Gf Hf). pose proof (scaled_pos (Z.pos mf) ef ltac:(unfold grid in Gf; lia) eq_refl).
    destruct m as [|p|p]; [change (scaled 0 e) with 0 in HL; lia| |unfold grid in G; lia].
    unfold to_float. destruct (Z.leb_spec e 971); [|done].
    apply fle_value; [done|by apply bounded_grid|done..].
  - intros f Vf Ff Hf. destruct Hhi as [Hhi|[-> ->]].
    + destruct f as [s|s| |[] mf ef]; try done; cbn in Hf; try lia;
        apply bounded_grid in Vf as Gf; destruct Gf as [Gf Bf];
        pose proof (scaled_pos (Z.pos mf) ef ltac:(unfold grid in Gf; lia) eq_refl); [lia|].
      specialize (HH _ _ Gf Hf). pose proof HH as HH'. rewrite (grid_order _ _ _ _ G Gf) in HH'.
      destruct m as [|p|p]; [done| |unfold grid in G; lia].
      unfold to_float. destruct (Z.leb_spec e 971); [|lia].
      apply fle_value; [by apply bounded_grid|done..].
    + cbn [to_float]. apply fle_value; done.
Qed.

Lemma pos_iter_xO p d : Z.pos (Pos.iter xO p d) = Z.pos p * 2 ^ Z.pos d.
Proof.
  induction d as [|d IH] using Pos.peano_ind; [cbn; lia|].
  rewrite Pos.iter_succ, Pos2Z.inj_xO, IH, Pos2Z.inj_succ, Z.pow_succ_r; lia.
Qed.

Lemma shl_align_spec m e e' :
  Z.pos (shl_align m e e').1 = Z.pos m * 2 ^ Z.max 0 (e - e')
  /\ (shl_align m e e').2 = Z.min e e'.
Proof.
  unfold shl_align. destruct (e' - e) as [|d|d] eqn:E; cbn [fst snd].
  - replace (Z.max 0 (e - e')) with 0 by lia. lia.
  - replace (Z.max 0 (e - e')) with 0 by lia. lia.
  - rewrite pos_iter_xO. replace (Z.max 0 (e - e')) with (Z.pos d) by lia. lia.
Qed.

Lemma Zdigits2_mul_pow2 m n : 0 < m -> 0 <= n -> Zdigits2 (m * 2 ^ n) = Zdigits2 m + n.
Proof.
  intros Hm Hn. pose proof (Zdigits2_bounds m Hm) as [L U]. pose proof (Zdigits2_pos m Hm).
  pose proof (pow2_pos n Hn). apply Z.le_antisymm.
  - apply Zdigits2_le; [lia|]. rewrite Z.pow_add_r by lia. nia.
  - apply Zdigits2_ge; [lia|]. replace (Zdigits2 m + n - 1) with (Zdigits2 m - 1 + n) by lia.
    rewrite Z.pow_add_r by lia. nia.
Qed.

Lemma binary_round_rounds p e :
  -4000 <= e -> rounds (binary_round 53 1024 false p e) (scaled (Z.pos p) e) (scaled (Z.pos p) e).
Proof.
  intros He. unfold binary_round.
  set (e1 := fexp (Z.pos (digits2_pos p) + e)).
  destruct (shl_align_spec p e e1) as [Em Ee].
  destruct (shl_align p e e1) as [mz ez]. cbn [fst snd] in *.
  assert (Hd : Zdigits2 (Z.pos mz) = Zdigits2 (Z.pos p) + Z.max 0 (e - e1))
    by (rewrite Em; apply Zdigits2_mul_pow2; lia).
  assert (E1 : e1 = Z.max (Zdigits2 (Z.pos p) + e - 53) (-1074)) by reflexivity.
  destruct (round_aux_enclosure false (Z.pos mz) ez loc_Exact) as (m & e3 & -> & G & L & H);
    [lia|lia|rewrite fexp_eq, Hd; lia|].
  assert (Es : scaled (Z.pos mz) ez = scaled (Z.pos p) e).
  { rewrite Em, Ee, <- scaled_shift by lia. f_equal. lia. }
  rewrite Es in L, H. pose proof (scaled_pos (Z.pos p) e He eq_refl).
  apply to_float_rounds; [done|lia|lia|done|]. intros. by apply H.
Qed.

Lemma round_aux_sign mx ex lx :
  binary_round_aux 53 1024 true mx ex lx = SFopp (binary_round_aux 53 1024 false mx ex lx).
Proof.
  unfold binary_round_aux. destruct (shr_fexp mx ex lx) as [mrs e'].
  destruct (shr_fexp _ _ _) as [mrs' e'']. destruct (shr_m mrs') as [|p|p]; [done| |done].
  by destruct (e'' <=? 1024 - 53).
Qed.

(** The normalisation of a signed exact value encloses it. *)
Lemma normalize_rounds z e s :
  -4000 <= e -> rounds (binary_normalize 53 1024 z e s) (scaled z e) (scaled z e).
Proof.
  intros He. destruct z as [|p|p]; cbn [binary_normalize].
  - constructor; [done..| |]; intros f Vf Ff Hf; cbn in Hf; apply fle_value; done.
  - by apply binary_round_rounds.
  - pose proof (rounds_opp _ _ _ (binary_round_rounds p e He)) as R.
    replace (scaled (Z.neg p) e) with (- scaled (Z.pos p) e) by (unfold scaled; lia).
    unfold binary_round in *. destruct (shl_align p e _) as [mz ez].
    by rewrite round_aux_sign.
Qed.

(** ** The operations *)

Lemma valid_exp s m e : valid (S754_finite s m e) -> -1074 <= e <= 971.
Proof. intros V. apply bounded_grid in V as [(_ & ? & _) ?]. lia. Qed.

Lemma rounds_self x : valid x -> is_fin x = true -> rounds x (value x) (value x).
Proof.
  intros V F. constructor; [done|by destruct x|..]; intros f Vf Ff Hf; by apply fle_value.
Qed.

(** Aligned mantissas have the exact values. *)
Lemma align_value s m e ez :
  -1074 <= e -> ez <= e -> -4000 <= ez ->
  scaled (cond_Zopp s (Z.pos (shl_align m e ez).1)) ez = value (S754_finite s m e).
Proof.
  intros He Hle Hez. destruct (shl_align_spec m e ez) as [-> _].
  replace (Z.max 0 (e - ez)) with (e - ez) by lia.
  assert (E : scaled (Z.pos m * 2 ^ (e - ez)) ez = scaled (Z.pos m) e).
  { rewrite <- scaled_shift by lia. f_equal. lia. }
  destruct s; cbn [cond_Zopp value]; rewrite <- E; unfold scaled; lia.
Qed.

Lemma fadd_rounds x y :
  valid x -> valid y -> is_fin x = true -> is_fin y = true ->
  rounds (x ⊞ y) (value x + value y) (value x + value y).
Proof.
  intros Vx Vy Fx Fy. unfold fadd.
  destruct x as [sx|sx| |sx mx ex], y as [sy|sy| |sy my ey]; try done; cbn [SFadd].
  - destruct sx, sy; by apply rounds_self.
  - by apply (rounds_self (S754_finite sy my ey)).
  - replace (value _ + value (S754_zero sy)) with (value (S754_finite sx mx ex)) by (cbn; lia).
    by apply rounds_self.
  - apply valid_exp in Vx, Vy. set (ez := Z.min ex ey).
    rewrite <- (align_value sx mx ex ez), <- (align_value sy my ey ez) by lia.
    assert (Es : forall a b, scaled a ez + scaled b ez = scaled (a + b) ez) by (unfold scaled; lia).
    rewrite Es. apply normalize_rounds. lia.
Qed.

Lemma fsub_rounds x y :
  valid x -> valid y -> is_fin x = true -> is_fin y = true ->
  rounds (x ⊟ y) (value x - value y) (value x - value y).
Proof.
  intros Vx Vy Fx Fy. unfold fsub.
  destruct x as [sx|sx| |sx mx ex], y as [sy|sy| |sy my ey]; try done; cbn [SFsub].
  - destruct sx, sy; by apply rounds_self.
  - replace (value (S754_zero sx) - value _) with (value (S754_finite (negb sy) my ey))
      by (destruct sy; cbn; lia).
    by apply rounds_self.
  - replace (value _ - value (S754_zero sy)) with (value (S754_finite sx mx ex)) by (cbn; lia).
    by apply rounds_self.
  - apply valid_exp in Vx, Vy. set (ez := Z.min ex ey).
    rewrite <- (align_value sx mx ex ez), <- (align_value sy my ey ez) by lia.
    assert (Es : forall a b, scaled a ez - scaled b ez = scaled (a - b) ez) by (unfold scaled; lia).
    rewrite Es. apply normalize_rounds. lia.
Qed.

Lemma fmul_rounds_pos mx ex my ey :
  valid (S754_finite false mx ex) -> valid (S754_finite false my ey) ->
  rounds (S754_finite false mx ex ⊠ S754_finite false my ey)
    (scaled (Z.pos (mx * my)) (ex + ey)) (scaled (Z.pos (mx * my)) (ex + ey)).
Proof.
  intros Vx Vy. unfold fmul. cbn [SFmul xorb].
  apply bounded_grid in Vx as [(Ax & Bx & Cx) Ux], Vy as [(Ay & By & Cy) Uy].
  destruct (round_aux_enclosure false (Z.pos (mx * my)) (ex + ey) loc_Exact)
    as (m & e & -> & G & L & H); [lia|lia| |].
  { rewrite fexp_eq. destruct (Z.le_gt_cases (ex + ey) (-1074)); [lia|].
    assert (53 <= Zdigits2 (Z.pos (mx * my))); [|lia]. apply Zdigits2_ge; [lia|].
    cbn [Z.sub]. assert (2 ^ 52 <= Z.pos mx \/ 2 ^ 52 <= Z.pos my) by lia. nia. }
  pose proof (scaled_pos (Z.pos (mx * my)) (ex + ey) ltac:(lia) eq_refl).
  apply to_float_rounds; [done|lia|lia|done|]. intros. by apply H.
Qed.

(** The quotient of positive floats lies between two consecutive multiples of
    the unit of the result. *)
Lemma fdiv_rounds_pos mx ex my ey :
  valid (S754_finite false mx ex) -> valid (S754_finite false my ey) ->
  exists q e s r,
    rounds (S754_finite false mx ex ⊘ S754_finite false my ey)
      (scaled q e) (scaled (if r =? 0 then q else q + 1) e)
    /\ Z.pos mx * 2 ^ s = Z.pos my * q + r /\ 0 <= r < Z.pos my
    /\ 0 <= q /\ 0 <= s /\ e + s = ex - ey /\ -2100 <= e
    /\ e <= fexp (Zdigits2 (Z.pos mx) + ex - (Zdigits2 (Z.pos my) + ey)).
Proof.
  intros Vx Vy. unfold fdiv. cbn [SFdiv xorb]. unfold SFdiv_core_binary.
  apply valid_exp in Vx as Ex, Vy as Ey.
  set (e1 := Z.min (fexp (Zdigits2 (Z.pos mx) + ex - (Zdigits2 (Z.pos my) + ey))) (ex - ey)).
  set (s := ex - ey - e1).
  assert (Hf : fexp (Zdigits2 (Z.pos mx) + ex - (Zdigits2 (Z.pos my) + ey)) >= -1074)
    by (rewrite fexp_eq; lia).
  replace (match s with Z0 => Z.pos mx | Z.pos _ => Z.shiftl (Z.pos mx) s | Z.neg _ => 0 end)
    with (Z.pos mx * 2 ^ s).
  2:{ destruct s eqn:Es; [lia|by rewrite Z.shiftl_mul_pow2|lia]. }
  pose proof (Z_div_mod (Z.pos mx * 2 ^ s) (Z.pos my) ltac:(lia)) as D.
  destruct (Z.div_eucl (Z.pos mx * 2 ^ s) (Z.pos my)) as [q r]. destruct D as [D Hr].
  assert (Hs : 0 <= s) by lia. pose proof (pow2_pos s Hs) as Ps.
  assert (Hq : 0 <= q) by nia.
  assert (Hl : loc_inexact (new_location (Z.pos my) r) = negb (r =? 0)).
  { unfold new_location, new_location_even, new_location_odd.
    destruct (Z.even (Z.pos my)), (r =? 0); done. }
  destruct (round_aux_enclosure false q e1 (new_location (Z.pos my) r)) as (m & e & -> & G & L & HH);
    [done|lia| |].
  { pose proof (Zdigits2_bounds (Z.pos mx) eq_refl) as [Lx _].
    pose proof (Zdigits2_bounds (Z.pos my) eq_refl) as [_ Uy].
    pose proof (Zdigits2_pos (Z.pos mx) eq_refl). pose proof (Zdigits2_pos (Z.pos my) eq_refl).
    pose proof (Zdigits2_nonneg q).
    set (dx := Zdigits2 (Z.pos mx)) in *. set (dy := Zdigits2 (Z.pos my)) in *.
    assert (He1 : e1 <= Z.max (dx + ex - (dy + ey) - 53) (-1074)) by (rewrite <- fexp_eq; lia).
    assert (dx + s - dy <= Zdigits2 q); [|rewrite fexp_eq; lia].
    destruct (Z.le_gt_cases (dx + s - dy) 0); [lia|]. apply Zdigits2_ge; [lia|].
    assert (P : 2 ^ (dx - 1 + s) = 2 ^ (dx + s - dy - 1) * 2 ^ dy)
      by (rewrite <- Z.pow_add_r by lia; f_equal; lia).
    rewrite Z.pow_add_r in P by lia. pose proof (pow2_pos (dx + s - dy - 1) ltac:(lia)).
    apply Z.nlt_ge. intros C. assert (q + 1 <= 2 ^ (dx + s - dy - 1)) by lia. nia. }
  exists q, e1, s, r. split_and!; try lia.
  assert (Hsc : forall a b, a <= b -> scaled a e1 <= scaled b e1) by (intros; apply scaled_le; lia).
  apply to_float_rounds; [done| | |done|].
  - rewrite <- (Hsc 0 q Hq). done.
  - left. apply scaled_pos; [lia|]. destruct (Z.eqb_spec r 0); nia.
  - intros mf ef Gf Hi. apply HH; [done| |].
    + etrans; [|exact Hi]. apply Hsc. case_match; lia.
    + rewrite Hl. by destruct (r =? 0).
Qed.

(** ** Consequences used by the components *)

Definition nonneg (x : f64) : Prop := fle fzero x.

Lemma nonneg_cases x :
  nonneg x <-> (exists s, x = S754_zero s) \/ x = S754_infinity false
            \/ exists m e, x = S754_finite false m e.
Proof.
  unfold nonneg. rewrite fle_rank. unfold lex_lt.
  destruct x as [s|[]| |[] m e]; cbn; split; try naive_solver lia.
Qed.

Lemma f64_of_Z_rounds z : rounds (f64_of_Z z) (scaled z 0) (scaled z 0).
Proof. apply normalize_rounds. lia. Qed.

Lemma f64_of_Z_valid z : valid (f64_of_Z z).
Proof. apply (rounds_valid _ _ _ (f64_of_Z_rounds z)). Qed.

Lemma f64_of_Z_num z : is_nan (f64_of_Z z) = false.
Proof. apply (rounds_num _ _ _ (f64_of_Z_rounds z)). Qed.

Lemma f64_of_Z_nonneg z : 0 <= z -> nonneg (f64_of_Z z).
Proof.
  intros Hz. apply (rounds_lo _ _ _ (f64_of_Z_rounds z)); [done..|].
  change (value fzero) with (scaled 0 0). by apply scaled_le.
Qed.

(** Integers up to [2^53] convert exactly. *)
Lemma f64_of_Z_exact z :
  0 <= z < 2 ^ 53 -> is_fin (f64_of_Z z) = true /\ value (f64_of_Z z) = scaled z 0.
Proof.
  intros Hz. destruct (Z.eq_dec z 0) as [->|Hne]; [done|].
  pose proof (Zdigits2_bounds z ltac:(lia)) as [Lz Uz].
  pose proof (Zdigits2_pos z ltac:(lia)). pose proof (Zdigits2_le z 53 ltac:(lia) ltac:(lia)).
  set (d := Zdigits2 z) in *. set (m := z * 2 ^ (53 - d)).
  assert (Pm : 0 < 2 ^ (53 - d)) by (apply pow2_pos; lia).
  destruct m as [|p|p] eqn:Em; [unfold m in Em; nia| |unfold m in Em; nia].
  assert (G : grid (Z.pos p) (d - 53)).
  { unfold grid. rewrite <- Em. unfold m.
    assert (2 ^ 53 = 2 ^ d * 2 ^ (53 - d)) by (rewrite <- Z.pow_add_r by lia; f_equal; lia).
    assert (2 ^ 52 = 2 ^ (d - 1) * 2 ^ (53 - d)) by (rewrite <- Z.pow_add_r by lia; f_equal; lia).
    split_and!; nia. }
  assert (V : valid (S754_finite false p (d - 53))) by (apply bounded_grid; split; [done|lia]).
  assert (Ev : value (S754_finite false p (d - 53)) = scaled z 0).
  { cbn [value]. rewrite <- Em. unfold m. rewrite <- scaled_shift by lia. f_equal. lia. }
  pose proof (f64_of_Z_rounds z) as [Vr Nr L HH].
  specialize (L _ V eq_refl ltac:(lia)). specialize (HH _ V eq_refl ltac:(lia)).
  assert (F : is_fin (f64_of_Z z) = true).
  { apply fle_rank in L as (_&_&L), HH as (_&_&HH). unfold lex_lt in *.
    destruct (f64_of_Z z) as [s|[]| |[] ? ?]; cbn in *; done || lia. }
  split; [done|]. apply fle_value in L, HH; [|done..]. lia.
Qed.

Lemma fadd_ge x y :
  valid x -> valid y -> is_nan x = false -> x <> S754_infinity true -> nonneg y -> fle x (x ⊞ y).
Proof.
  intros Vx Vy Nx Ix Hy. apply nonneg_cases in Hy as Cy.
  destruct (is_fin x) eqn:Fx.
  - destruct (is_fin y) eqn:Fy.
    + apply (rounds_lo _ _ _ (fadd_rounds x y Vx Vy Fx Fy)); [done..|].
      apply (fle_value fzero) in Hy; [|done..]. cbn in Hy. lia.
    + destruct Cy as [[? ->]|[->|(?&?&->)]]; try done. by destruct x as [| | |[]].
  - destruct x as [|[]| |]; try done. destruct Cy as [[? ->]|[->|(?&?&->)]]; done.
Qed.

Lemma fsub_le x y :
  valid x -> valid y -> is_nan x = false -> is_fin y = true -> nonneg y -> fle (x ⊟ y) x.
Proof.
  intros Vx Vy Nx Fy Hy. destruct (is_fin x) eqn:Fx.
  - apply (rounds_hi _ _ _ (fsub_rounds x y Vx Vy Fx Fy)); [done..|].
    apply (fle_value fzero) in Hy; [|done..]. cbn in Hy. lia.
  - by destruct x as [|[]| |], y.
Qed.

Lemma fsub_nonneg x y :
  valid x -> valid y -> is_fin y = true -> fle y x -> nonneg (x ⊟ y).
Proof.
  intros Vx Vy Fy H. destruct (is_fin x) eqn:Fx.
  - apply (rounds_lo _ _ _ (fsub_rounds x y Vx Vy Fx Fy)); [done..|].
    apply fle_value in H; [|done..]. cbn. lia.
  - apply fle_num in H as N. apply fle_rank in H. unfold lex_lt in H.
    destruct x as [|[]| |], y as [| | |[]]; cbn in *; naive_solver lia.
Qed.

Lemma fadd_valid x y : valid x -> valid y -> valid (x ⊞ y).
Proof.
  intros Vx Vy. destruct (is_fin x) eqn:Fx, (is_fin y) eqn:Fy.
  - apply (rounds_valid _ _ _ (fadd_rounds x y Vx Vy Fx Fy)).
  - by destruct x as [|[]| |], y as [|[]| |].
  - by destruct x as [|[]| |], y as [|[]| |].
  - by destruct x as [|[]| |], y as [|[]| |].
Qed.

Lemma fsub_valid x y : valid x -> valid y -> valid (x ⊟ y).
Proof.
  intros Vx Vy. destruct (is_fin x) eqn:Fx, (is_fin y) eqn:Fy.
  - apply (rounds_valid _ _ _ (fsub_rounds x y Vx Vy Fx Fy)).
  - by destruct x as [|[]| |], y as [|[]| |].
  - by destruct x as [|[]| |], y as [|[]| |].
  - by destruct x as [|[]| |], y as [|[]| |].
Qed.

(** Products of finite non-negative numbers. *)
Lemma fmul_nonneg_num x y :
  valid x -> valid y -> is_fin x = true -> is_fin y = true -> nonneg x -> nonneg y ->
  valid (x ⊠ y) /\ nonneg (x ⊠ y).
Proof.
  intros Vx Vy Fx Fy Hx Hy. apply nonneg_cases in Hx, Hy.
  destruct Hx as [[? ->]|[->|(mx&ex&->)]], Hy as [[? ->]|[->|(my&ey&->)]]; try done.
  pose proof (fmul_rounds_pos mx ex my ey Vx Vy) as R. split; [apply (rounds_valid _ _ _ R)|].
  apply (rounds_lo _ _ _ R); [done..|]. apply valid_exp in Vx, Vy.
  pose proof (scaled_pos (Z.pos (mx * my)) (ex + ey) ltac:(lia) eq_refl). cbn [value fzero]. lia.
Qed.

Lemma value_one : value fone = scaled 1 0.
Proof. apply f64_of_Z_exact. lia. Qed.

(** A ratio of a part to a whole is at most one. *)
Lemma fdiv_le_one x y :
  valid x -> valid y -> is_fin y = true -> nonneg x -> flt fzero y -> fle x y -> fle (x ⊘ y) fone.
Proof.
  intros Vx Vy Fy Hx Hy Hle. apply nonneg_cases in Hx.
  destruct y as [sy|sy| |[] my ey]; try done.
  destruct Hx as [[? ->]|[->|(mx&ex&->)]]; [done|done|].
  destruct (fdiv_rounds_pos mx ex my ey Vx Vy) as (q & e & s & r & R & D & Hr & Hq & Hs & Es & He & Hf).
  apply (rounds_hi _ _ _ R); [done..|]. rewrite value_one.
  pose proof (Zdigits2_bounds (Z.pos mx) eq_refl) as [Lx Ux].
  pose proof (Zdigits2_bounds (Z.pos my) eq_refl) as [Ly Uy].
  pose proof (Zdigits2_pos (Z.pos mx) eq_refl). pose proof (Zdigits2_pos (Z.pos my) eq_refl).
  apply bounded_grid in Vx as Gx, Vy as Gy. destruct Gx as [Gx _], Gy as [Gy _].
  apply fle_value in Hle; [|done..]. cbn [value] in Hle.
  assert (Hneg : e <= 0).
  { apply (grid_order _ _ _ _ Gx Gy) in Hle as Ho. rewrite fexp_eq in Hf.
    destruct Gx as (A & B & C), Gy as (A' & B' & C').
    pose proof (Zdigits2_le (Z.pos mx) 53 ltac:(lia) A).
    destruct (Z.le_gt_cases ey (-1074)); [|pose proof (Zdigits2_ge (Z.pos my) 53 ltac:(lia) ltac:(cbn; lia)); lia].
    pose proof (Zdigits2_le (Z.pos my) 53 ltac:(lia) A'). lia. }
  replace (scaled 1 0) with (scaled (1 * 2 ^ (- e)) e)
    by (rewrite <- scaled_shift by lia; f_equal; lia).
  apply scaled_le; [lia|].
  assert (Z.pos mx * 2 ^ s <= Z.pos my * 2 ^ (- e)).
  { unfold grid in Gx, Gy.
    replace ex with (ey + e + s) in Hle by lia.
    assert (P : scaled (Z.pos mx) (ey + e + s) = scaled (Z.pos mx * 2 ^ s) (ey + e)) by (apply scaled_shift; lia).
    assert (Q : scaled (Z.pos my) ey = scaled (Z.pos my * 2 ^ (- e)) (ey + e))
      by (rewrite <- scaled_shift by lia; f_equal; lia).
    rewrite P, Q, scaled_le in Hle by lia. done. }
  destruct (Z.eqb_spec r 0); nia.
Qed.

(** A ratio of counts is at most one. *)
Lemma count_ratio_le_one f n :
  0 <= f <= n -> 0 < n < 2 ^ 53 -> fle (f64_of_Z f ⊘ f64_of_Z n) fone.
Proof.
  intros Hf Hn. destruct (f64_of_Z_exact n) as [Fn Vn]; [lia|]. destruct (f64_of_Z_exact f) as [Ff Vf]; [lia|].
  assert (Hle : scaled f 0 <= scaled n 0) by (apply scaled_le; lia).
  apply fdiv_le_one; auto using f64_of_Z_valid.
  - apply f64_of_Z_nonneg. lia.
  - apply not_fle_flt; [apply f64_of_Z_num|done|].
    apply not_true_iff_false. intros H%fle_value; auto using f64_of_Z_valid; [|done].
    rewrite Vn in H. change (value fzero) with 0 in H.
    assert (0 < scaled n 0) by (apply scaled_pos; lia). lia.
  - apply fle_value; auto using f64_of_Z_valid. rewrite Vf, Vn. exact Hle.
Qed.

(** Quotients of non-negative numbers. *)
Lemma fdiv_nonneg x y :
  valid x -> valid y -> is_fin x = true -> is_fin y = true -> nonneg x -> flt fzero y ->
  valid (x ⊘ y) /\ nonneg (x ⊘ y).
Proof.
  intros Vx Vy Fx Fy Hx Hy. apply nonneg_cases in Hx.
  destruct y as [sy|sy| |[] my ey]; try done.
  destruct Hx as [[? ->]|[->|(mx&ex&->)]]; [by split|done|].
  destruct (fdiv_rounds_pos mx ex my ey Vx Vy) as (q & e & s & r & R & _ & _ & Hq & _ & _ & He & _).
  split; [apply (rounds_valid _ _ _ R)|]. apply (rounds_lo _ _ _ R); [done..|].
  change (value fzero) with 0. unfold scaled. pose proof (pow2_pos (e + 4000) ltac:(lia)). nia.
Qed.

(** A float that is a finite number, not negative. *)
Definition good (x : f64) : Prop := valid x /\ is_fin x = true /\ nonneg x.

Lemma good_zero : good fzero.
Proof. by split_and!. Qed.

Lemma good_nat z : 0 <= z < 2 ^ 53 -> good (f64_of_Z z).
Proof.
  intros Hz. split_and!; [apply f64_of_Z_valid|by apply f64_of_Z_exact|apply f64_of_Z_nonneg; lia].
Qed.

(** A number between zero and a finite number is finite. *)
Lemma good_below x y : valid x -> nonneg x -> fle x y -> is_fin y = true -> good x.
Proof.
  intros Vx Hx Hy Fy. split_and!; [done| |done].
  apply nonneg_cases in Hx as [[? ->]|[->|(? & ? & ->)]]; [done| |done]. by destruct y as [|[]| |[]].
Qed.

Lemma good_value x : good x -> 0 <= value x.
Proof. intros (V & F & N). by apply (fle_value fzero) in N. Qed.

(** A result that is representable is exact. *)
Lemma rounds_exact r x :
  rounds r (value x) (value x) -> valid x -> is_fin x = true -> is_fin r = true /\ value r = value x.
Proof.
  intros R V F. pose proof (rounds_lo _ _ _ R x V F ltac:(lia)) as L.
  pose proof (rounds_hi _ _ _ R x V F ltac:(lia)) as H.
  assert (Fr : is_fin r = true).
  { apply fle_rank in L as (_&_&L), H as (_&_&H). unfold lex_lt in *.
    destruct r as [s|[]| |[] ? ?], x as [|[]| |[]]; cbn in *; done || lia. }
  split; [done|]. apply fle_value in L, H; try done; try apply (rounds_valid _ _ _ R). lia.
Qed.

(** Sums of numbers within the exact integers stay finite. *)
Lemma fadd_good x y z :
  good x -> good y -> 0 <= z < 2 ^ 53 -> value x + value y <= scaled z 0 -> good (x ⊞ y).
Proof.
  intros Gx Gy Hz Hle. pose proof Gx as (Vx & Fx & Nx). pose proof Gy as (Vy & Fy & Ny).
  pose proof (fadd_rounds x y Vx Vy Fx Fy) as R. destruct (f64_of_Z_exact z Hz) as [Fz Vz].
  apply (good_below _ (f64_of_Z z)); [apply (rounds_valid _ _ _ R)| | |done].
  - apply (rounds_lo _ _ _ R); [done..|]. change (value fzero) with 0.
    pose proof (good_value x Gx). pose proof (good_value y Gy). lia.
  - apply (rounds_hi _ _ _ R); [apply f64_of_Z_valid|done|]. by rewrite Vz.
Qed.

(** [Duration.Seconds] of an elapsed time. *)
Lemma seconds_good d : 0 <= d < two63 -> good (seconds d).
Proof.
  intros Hd. unfold seconds, two63 in *.
  rewrite Z.quot_div_nonneg, Z.rem_mod_nonneg by (unfold Second; lia).
  pose proof (Z.mod_pos_bound d Second ltac:(by vm_compute)) as Hm.
  assert (Hq : 0 <= d / Second < 2 ^ 40) by (unfold Second in *; Z.to_euclidean_division_equations; lia).
  assert (HS : Second < 2 ^ 53) by (by vm_compute).
  assert (Hpos : flt fzero (f64_of_Z Second)) by (by vm_compute).
  destruct (good_nat (d mod Second)) as (V1 & F1 & N1); [lia|].
  destruct (good_nat Second) as (V2 & F2 & N2); [unfold Second in *; lia|].
  destruct (fdiv_nonneg _ _ V1 V2 F1 F2 N1 Hpos) as [Vd Nd].
  assert (L1 : fle (f64_of_Z (d mod Second) ⊘ f64_of_Z Second) fone)
    by (apply count_ratio_le_one; unfold Second in *; lia).
  assert (Gd : good (f64_of_Z (d mod Second) ⊘ f64_of_Z Second)) by (by apply (good_below _ fone)).
  apply (fadd_good _ _ (2 ^ 41)); [apply good_nat; lia|done|lia|].
  apply fle_value in L1; [|apply Gd|done|apply Gd|done]. rewrite value_one in L1.
  rewrite (proj2 (f64_of_Z_exact (d / Second) ltac:(lia))).
  unfold scaled in *. pose proof (pow2_pos (0 + 4000) ltac:(lia)). nia.
Qed.

(** A positive number times a non-negative one, which may be infinite. *)
Lemma fmul_pos_nonneg x y :
  good x -> flt fzero x -> valid y -> nonneg y -> valid (x ⊠ y) /\ nonneg (x ⊠ y).
Proof.
  intros (Vx & Fx & Nx) Px Vy Ny. destruct (is_fin y) eqn:Fy; [by apply fmul_nonneg_num|].
  destruct x as [|[]| |[] mx ex]; try done. by destruct y as [|[]| |].
Qed.

Lemma fmul_nonneg_pos x y :
  good y -> flt fzero y -> valid x -> nonneg x -> valid (x ⊠ y) /\ nonneg (x ⊠ y).
Proof.
  intros (Vy & Fy & Ny) Py Vx Nx. destruct (is_fin x) eqn:Fx; [by apply fmul_nonneg_num|].
  destruct y as [|[]| |[] my ey]; try done. by destruct x as [|[]| |].
Qed.

Lemma fadd_nonneg x y : valid x -> valid y -> nonneg x -> nonneg y -> valid (x ⊞ y) /\ nonneg (x ⊞ y).
Proof.
  intros Vx Vy Nx Ny. split; [by apply fadd_valid|].
  eapply fle_trans; [exact Nx|]. apply fadd_ge; try done; by destruct x as [|[]| |].
Qed.

(** The square root of a non-negative number. *)
Lemma fsqrt_nonneg x : good x -> valid (fsqrt x) /\ nonneg (fsqrt x).
Proof.
  intros (V & F & N). apply nonneg_cases in N as [[s ->]|[->|(m & e & ->)]]; [by destruct s|done|].
  unfold fsqrt. cbn [SFsqrt]. unfold SFsqrt_core_binary. apply valid_exp in V as Ee.
  set (d := Zdigits2 (Z.pos m)). pose proof (Zdigits2_pos (Z.pos m) eq_refl) as Hd. fold d in Hd.
  set (e' := Z.min (fexp (Z.div2 (d + e + 1))) (Z.div2 e)). set (s := e - 2 * e').
  assert (He2 : 2 * Z.div2 e <= e) by (rewrite Z.div2_div; Z.to_euclidean_division_equations; lia).
  assert (Hs : 0 <= s) by (unfold s; lia).
  replace (match s with Z0 => Z.pos m | Z.pos _ => Z.shiftl (Z.pos m) s | Z.neg _ => 0 end)
    with (Z.pos m * 2 ^ s).
  2:{ destruct s eqn:Es; [lia|by rewrite Z.shiftl_mul_pow2|lia]. }
  pose proof (Zdigits2_bounds (Z.pos m) eq_refl) as [L _]. fold d in L.
  assert (Hp : 0 <= Z.pos m * 2 ^ s) by (pose proof (pow2_pos s Hs); lia).
  pose proof (Z.sqrtrem_sqrt (Z.pos m * 2 ^ s)) as Hq.
  destruct (Z.sqrtrem (Z.pos m * 2 ^ s)) as [q r]. cbn in Hq. subst q.
  set (q := Z.sqrt (Z.pos m * 2 ^ s)).
  assert (Hdig : Z.div2 (d + e + 1) <= Zdigits2 q + e').
  { rewrite Z.div2_div. set (k := (d + s + 1) / 2).
    assert (Hk : (d + e + 1) / 2 = k + e')
      by (unfold k, s; Z.to_euclidean_division_equations; lia).
    assert (Hk1 : 1 <= k) by (unfold k; Z.to_euclidean_division_equations; lia).
    assert (k <= Zdigits2 q); [|lia]. apply Zdigits2_ge; [lia|].
    apply Z.sqrt_le_square; [done|lia|]. rewrite <- Z.pow_add_r by lia.
    transitivity (2 ^ (d - 1 + s)); [apply Z.pow_le_mono_r; [lia|]|].
    - unfold k. Z.to_euclidean_division_equations; lia.
    - rewrite Z.pow_add_r by lia. pose proof (pow2_pos s Hs). nia. }
  destruct (round_aux_enclosure false q e' (if r =? 0 then loc_Exact else loc_Inexact (if r <=? q then Lt else Gt)))
    as (m' & e'' & -> & G & _ & _).
  - apply Z.sqrt_nonneg.
  - unfold e'. rewrite fexp_eq, !Z.div2_div. Z.to_euclidean_division_equations; lia.
  - transitivity (fexp (Z.div2 (d + e + 1))); [lia|]. rewrite !fexp_eq. lia.
  - split; [by apply to_float_valid|by apply fle_zero_to_float].
Qed.

(** Conversions of 64-bit counts are finite. *)
Lemma f64_of_Z_good z : 0 <= z <= two63 -> good (f64_of_Z z).
Proof.
  intros Hz. pose proof (f64_of_Z_rounds z) as R.
  apply (good_below _ (f64_of_Z two63)); [apply f64_of_Z_valid|apply f64_of_Z_nonneg; lia| |done].
  apply (rounds_hi _ _ _ R); [done..|].
  assert (E : value (f64_of_Z two63) = scaled two63 0) by (by vm_compute).
  rewrite E. apply scaled_le; lia.
Qed.

Lemma f64_of_Z_pos z : 0 < z -> flt fzero (f64_of_Z z).
Proof.
  intros Hz. apply (flt_le_trans _ fone); [done|].
  apply (rounds_lo _ _ _ (f64_of_Z_rounds z)); [done..|]. rewrite value_one. apply scaled_le; lia.
Qed.

(** Order of exact integers. *)
Lemma f64_of_Z_lt i j :
  0 <= i < 2 ^ 53 -> 0 <= j < 2 ^ 53 -> (f64_of_Z i <=.? f64_of_Z j) = (i <=? j).
Proof.
  intros Hi Hj. destruct (f64_of_Z_exact i Hi) as [Fi Ei], (f64_of_Z_exact j Hj) as [Fj Ej].
  apply eq_iff_eq_true. change (fle (f64_of_Z i) (f64_of_Z j) <-> (i <=? j) = true).
  rewrite fle_value by auto using f64_of_Z_valid. rewrite Ei, Ej, Z.leb_le. apply scaled_le. lia.
Qed.
