(* ===== verification/Errors.v ===== *)
(** * Unified provider errors ([pkg/errors/errors.go])

    [LLMError] with its constructors, and Go error values as the routers see
    them: an [LLMError], another error, or an error wrapping one of these. *)
From stdpp Require Import pretty.
From S2P Require Import Prelude.

Record LLMError := {
  StatusCode : Z;
  Message : string;
  EType : string;
  EProvider : string;
  EModel : string;
  Retryable : bool;
}.

Definition TypeAuthentication := "authentication_error".
Definition TypeRateLimit := "rate_limit_error".
Definition TypeInvalidRequest := "invalid_request_error".
Definition TypeNotFound := "not_found_error".
Definition TypeTimeout := "timeout_error".
Definition TypeServiceUnavailable := "service_unavailable_error".
Definition TypeInternalError := "internal_error".
Definition TypePermissionDenied := "permission_error".
Definition TypeInsufficientQuota := "insufficient_quota".

(** The error's text, [fmt.Sprintf] of its fields. *)
Definition LLMError_Error (e : LLMError) : string :=
  "[" +:+ e.(EType) +:+ "] " +:+ e.(Message) +:+ " (provider=" +:+ e.(EProvider)
  +:+ ", model=" +:+ e.(EModel) +:+ ", code=" +:+ pretty e.(StatusCode) +:+ ")".

Definition HTTPStatusCode (e : LLMError) : Z :=
  if 0 <? e.(StatusCode) then e.(StatusCode) else 500.

Definition mk_error (code : Z) (ty : string) (retry : bool) (provider model message : string) : LLMError :=
  {| StatusCode := code; Message := message; EType := ty;
     EProvider := provider; EModel := model; Retryable := retry |}.

Definition NewAuthenticationError := mk_error 401 TypeAuthentication false.
Definition NewPermissionError := mk_error 403 TypePermissionDenied false.
Definition NewRateLimitError := mk_error 429 TypeRateLimit true.
Definition NewInsufficientQuotaError := mk_error 402 TypeInsufficientQuota false.
Definition NewInvalidRequestError := mk_error 400 TypeInvalidRequest false.
Definition NewNotFoundError := mk_error 404 TypeNotFound false.
Definition NewTimeoutError := mk_error 408 TypeTimeout true.
Definition NewServiceUnavailableError := mk_error 503 TypeServiceUnavailable true.
Definition NewInternalError := mk_error 500 TypeInternalError false.

Definition IsCooldownRequired (statusCode : Z) : bool :=
  if (400 <=? statusCode) && (statusCode <? 500) then
    (statusCode =? 429) || (statusCode =? 401) || (statusCode =? 408) || (statusCode =? 404)
  else 500 <=? statusCode.

(** ** Go error values *)

Inductive go_error :=
| ELLM (e : LLMError)
| EText (msg : string)
| EWrap (msg : string) (inner : go_error).

(** [err.Error()]; wrapping is [fmt.Errorf("msg: %w", inner)]. *)
Fixpoint error_text (err : go_error) : string :=
  match err with
  | ELLM e => LLMError_Error e
  | EText msg => msg
  | EWrap msg inner => msg +:+ ": " +:+ error_text inner
  end.

(** [errors.As(err, &llmErr)]: the first [LLMError] of the chain. *)
Fixpoint errors_As (err : go_error) : option LLMError :=
  match err with
  | ELLM e => Some e
  | EText _ => None
  | EWrap _ inner => errors_As inner
  end.

(** [err.( *LLMError)]: only the outermost value counts. *)
Definition type_assert (err : go_error) : option LLMError :=
  match err with ELLM e => Some e | _ => None end.

Lemma type_assert_As err e : type_assert err = Some e -> errors_As err = Some e.
Proof. by destruct err. Qed.

Lemma IsCooldownRequired_spec c :
  IsCooldownRequired c = true <-> c = 401 \/ c = 404 \/ c = 408 \/ c = 429 \/ 500 <= c.
Proof.
  unfold IsCooldownRequired.
  destruct (Z.leb_spec 400 c), (Z.ltb_spec c 500); cbn [andb];
    rewrite ?orb_true_iff, ?Z.eqb_eq, ?Z.leb_le; lia.
Qed.
