(* ===== verification/ModelName.v ===== *)
(** * Model names ([pkg/types/model.go])

    Strings are byte strings, as in Go. *)
From Stdlib Require Import Ascii.
From S2P Require Import Prelude.

Definition MaxModelNameLength : Z := 256.

(** [ValidateModelName] returns an error exactly when this is false. *)
Definition ValidateModelName (model : string) : bool :=
  Z.of_nat (String.length model) <=? MaxModelNameLength.

(** ** [strings.TrimSpace]

    The UTF-8 encodings of the runes for which [unicode.IsSpace] holds. *)

Definition bytes (l : list N) : list ascii := map ascii_of_N l.

Definition spaces : list (list ascii) :=
  map (fun c => bytes [c]) [9; 10; 11; 12; 13; 32]%N
  ++ [bytes [0xC2; 0x85]%N; bytes [0xC2; 0xA0]%N; bytes [0xE1; 0x9A; 0x80]%N]
  ++ map (fun c => bytes [0xE2; 0x80; c]%N)
       [0x80; 0x81; 0x82; 0x83; 0x84; 0x85; 0x86; 0x87; 0x88; 0x89; 0x8A; 0xA8; 0xA9; 0xAF]%N
  ++ [bytes [0xE2; 0x81; 0x9F]%N; bytes [0xE3; 0x80; 0x80]%N].

Fixpoint strip_prefix (p l : list ascii) : option (list ascii) :=
  match p, l with
  | [], _ => Some l
  | a :: p', b :: l' => if Ascii.eqb a b then strip_prefix p' l' else None
  | _ :: _, [] => None
  end.

Fixpoint strip_any (ps : list (list ascii)) (l : list ascii) : option (list ascii) :=
  match ps with
  | [] => None
  | p :: ps' => match strip_prefix p l with Some l' => Some l' | None => strip_any ps' l end
  end.

(** Each step removes at least one byte, so the length of the input is enough
    fuel. *)
Fixpoint trim_left (ps : list (list ascii)) (fuel : nat) (l : list ascii) : list ascii :=
  match fuel with
  | O => l
  | S fuel' => match strip_any ps l with Some l' => trim_left ps fuel' l' | None => l end
  end.

Definition TrimSpace (s : string) : string :=
  let l := String.list_ascii_of_string s in
  let l1 := trim_left spaces (length l) l in
  String.string_of_list_ascii (reverse (trim_left (map reverse spaces) (length l1) (reverse l1))).

(** ** [SplitProviderModel] *)

(** [strings.Index(s, "/")] with the two halves around it. *)
Fixpoint cut_slash (l : list ascii) : option (list ascii * list ascii) :=
  match l with
  | [] => None
  | c :: l' =>
      if Ascii.eqb c "/" then Some ([], l')
      else match cut_slash l' with Some (a, b) => Some (c :: a, b) | None => None end
  end.

Definition SplitProviderModel (model : string) : string * string :=
  let model := TrimSpace model in
  match cut_slash (String.list_ascii_of_string model) with
  | Some ((_ :: _) as provider, (_ :: _) as name) =>
      (String.string_of_list_ascii provider, String.string_of_list_ascii name)
  | _ => ("", model)
  end.

(** ** Correctness *)

#[local] Abbreviation explode := String.list_ascii_of_string.
#[local] Abbreviation implode := String.string_of_list_ascii.

Lemma explode_app s t : explode (s +:+ t) = explode s ++ explode t.
Proof. induction s as [|c s IH]; [done|].
  change (c :: explode (s +:+ t) = c :: explode s ++ explode t). by rewrite IH.
Qed.

Lemma implode_explode s : implode (explode s) = s.
Proof. apply String.string_of_list_ascii_of_string. Qed.

Lemma explode_implode l : explode (implode l) = l.
Proof. apply String.list_ascii_of_string_of_list_ascii. Qed.

Lemma implode_app l k : implode (l ++ k) = implode l +:+ implode k.
Proof. induction l as [|c l IH]; [done|].
  change (String c (implode (l ++ k)) = String c (implode l +:+ implode k)). by rewrite IH.
Qed.

Lemma strip_prefix_Some p l l' : strip_prefix p l = Some l' <-> l = p ++ l'.
Proof.
  revert l. induction p as [|a p IH]; intros l; cbn; [naive_solver|].
  destruct l as [|b l]; cbn; [naive_solver|].
  destruct (Ascii.eqb_spec a b) as [->|]; [rewrite IH|]; naive_solver.
Qed.

Lemma strip_any_Some ps l l' : strip_any ps l = Some l' -> exists p, p ∈ ps /\ l = p ++ l'.
Proof.
  induction ps as [|p ps IH]; cbn; [done|].
  destruct (strip_prefix p l) as [k|] eqn:E.
  - intros [= <-]. apply strip_prefix_Some in E. exists p. set_solver.
  - intros H. destruct (IH H) as (q & ? & ?). exists q. set_solver.
Qed.

Lemma strip_any_None ps l : strip_any ps l = None <-> forall p k, p ∈ ps -> l <> p ++ k.
Proof.
  induction ps as [|p ps IH]; cbn; [set_solver|].
  destruct (strip_prefix p l) as [k|] eqn:E.
  - apply strip_prefix_Some in E. split; [done|]. intros H. by destruct (H p k ltac:(set_solver)).
  - rewrite IH. split; intros H q k.
    + rewrite elem_of_cons. intros [->|Hq]; [|by apply H].
      intros F. apply strip_prefix_Some in F. congruence.
    + intros Hq. apply H. set_solver.
Qed.

Section Trim.
Context (ps : list (list ascii)) (Hps : [] ∉ ps).

(** What is left is a suffix, and with fuel for every byte no space is left. *)
Lemma trim_left_suffix fuel l : exists k, l = k ++ trim_left ps fuel l.
Proof.
  revert l. induction fuel as [|fuel IH]; intros l; cbn; [by exists []|].
  destruct (strip_any ps l) as [l'|] eqn:E; [|by exists []].
  apply strip_any_Some in E as (p & _ & ->). destruct (IH l') as [k Hk].
  exists (p ++ k). rewrite <- app_assoc. by rewrite <- Hk.
Qed.

Lemma trim_left_done fuel l : (length l <= fuel)%nat -> strip_any ps (trim_left ps fuel l) = None.
Proof.
  revert l. induction fuel as [|fuel IH]; intros l Hl; cbn.
  - destruct l; [|cbn in Hl; lia]. apply strip_any_None. intros p k Hp F.
    symmetry in F. apply app_eq_nil in F as [-> _]. done.
  - destruct (strip_any ps l) as [l'|] eqn:E; [|done]. apply IH.
    apply strip_any_Some in E as (p & Hp & ->). rewrite length_app in Hl.
    destruct p; [done|cbn in Hl; lia].
Qed.
End Trim.

Lemma spaces_nonempty : [] ∉ spaces.
Proof. vm_compute. set_solver. Qed.

Lemma spaces_rev_nonempty : [] ∉ map reverse spaces.
Proof. vm_compute. set_solver. Qed.

(** A string that begins and ends with no space. *)
Definition trimmed (l : list ascii) : Prop :=
  strip_any spaces l = None /\ strip_any (map reverse spaces) (reverse l) = None.

Lemma TrimSpace_trimmed_eq s : trimmed (explode s) -> TrimSpace s = s.
Proof.
  intros [L R]. unfold TrimSpace.
  assert (E : forall ps fuel l, strip_any ps l = None -> trim_left ps fuel l = l)
    by (intros ps [|fuel] l H; cbn; by rewrite ?H).
  cbv zeta. rewrite (E spaces) by done. rewrite E by done. by rewrite reverse_involutive, implode_explode.
Qed.

Lemma TrimSpace_trimmed s : trimmed (explode (TrimSpace s)).
Proof.
  unfold TrimSpace, trimmed. rewrite explode_implode.
  set (l := explode s). set (l1 := trim_left spaces (length l) l).
  assert (L1 : strip_any spaces l1 = None) by (apply trim_left_done; [apply spaces_nonempty|done]).
  set (l2 := trim_left (map reverse spaces) (length l1) (reverse l1)).
  assert (L2 : strip_any (map reverse spaces) l2 = None)
    by (apply trim_left_done; [apply spaces_rev_nonempty|by rewrite length_reverse]).
  destruct (trim_left_suffix (map reverse spaces) (length l1) (reverse l1)) as [k Hk].
  fold l2 in Hk. split; [|by rewrite reverse_involutive].
  apply strip_any_None. intros p q Hp F. apply strip_any_None with (p := p) (k := q ++ reverse k) in L1; [|done].
  apply L1. rewrite <- (reverse_involutive l1), Hk, reverse_app, F. by rewrite app_assoc.
Qed.

Lemma cut_slash_spec l a b : cut_slash l = Some (a, b) <-> l = a ++ "/"%char :: b /\ "/"%char ∉ a.
Proof.
  revert a b. induction l as [|c l IH]; intros a b; cbn; [destruct a; naive_solver|].
  destruct (Ascii.eqb_spec c "/") as [->|Hc].
  - split.
    + intros E. injection E as <- <-. split; [done|apply not_elem_of_nil].
    + intros [E Ha]. destruct a as [|c a]; [by injection E as ->|].
      injection E as <- _. by apply not_elem_of_cons in Ha as [? _].
  - destruct (cut_slash l) as [[a' b']|] eqn:E.
    + destruct (proj1 (IH a' b') eq_refl) as [-> Ha']. split.
      * intros F. injection F as <- <-. split; [done|]. by apply not_elem_of_cons.
      * intros [F Ha]. destruct a as [|c0 a]; [by injection F as -> _|]. injection F as -> F.
        apply not_elem_of_cons in Ha as [_ Ha].
        assert (Hc' : Some (a', b') = Some (a, b)) by (by apply IH). congruence.
    + split; [done|]. intros [F Ha]. destruct a as [|c0 a]; [by injection F as -> _|].
      injection F as -> F. apply not_elem_of_cons in Ha as [_ Ha].
      assert (Hc' : None = Some (a, b)) by (by apply IH). done.
Qed.

Lemma split_inv s p m :
  SplitProviderModel s = (p, m) -> p <> "" ->
  (TrimSpace s = p +:+ ("/" +:+ m)) /\ ("/"%char ∉ explode p) /\ m <> "".
Proof.
  unfold SplitProviderModel. intros E Hp.
  destruct (cut_slash (explode (TrimSpace s))) as [[[|c a] [|d b]]|] eqn:C; try naive_solver.
  apply cut_slash_spec in C as [C Ha]. injection E as <- <-. split_and!.
  - rewrite <- (implode_explode (TrimSpace s)), C, implode_app. done.
  - change (String c (implode a)) with (implode (c :: a)). by rewrite explode_implode.
  - done.
Qed.

Lemma split_join p m :
  p <> "" -> m <> "" -> "/"%char ∉ explode p -> trimmed (explode (p +:+ ("/" +:+ m))) ->
  SplitProviderModel (p +:+ ("/" +:+ m)) = (p, m).
Proof.
  intros Hp Hm Hs Ht. unfold SplitProviderModel. rewrite TrimSpace_trimmed_eq by done.
  assert (C : cut_slash (explode (p +:+ ("/" +:+ m))) = Some (explode p, explode m)).
  { apply cut_slash_spec. split; [|done]. by rewrite !explode_app. }
  rewrite C. destruct p as [|c p]; [done|]. destruct m as [|d m]; [done|].
  cbn. by rewrite !implode_explode.
Qed.

(** A trimmed name in the form provider, slash, model. *)
Definition prefixed (t p m : string) : Prop :=
  p <> "" /\ m <> "" /\ ("/"%char ∉ explode p) /\ (t = p +:+ ("/" +:+ m)).

Lemma split_prefixed s p m : prefixed (TrimSpace s) p m -> SplitProviderModel s = (p, m).
Proof.
  intros (Hp & Hm & Hs & E). pose proof (TrimSpace_trimmed s) as Ht. rewrite E in Ht.
  rewrite <- (split_join p m) by done.
  unfold SplitProviderModel. by rewrite (TrimSpace_trimmed_eq (p +:+ ("/" +:+ m))), E by done.
Qed.

Lemma split_no_provider s m : SplitProviderModel s = ("", m) -> m = TrimSpace s.
Proof.
  unfold SplitProviderModel. destruct (cut_slash _) as [[[|c a] [|d b]]|]; by intros [= <-].
Qed.

(** [SplitProviderModel] splits at the first slash, and splitting inverts
    joining: a provider and a model are reported exactly when the trimmed input is
    that provider, which is not empty and has no slash, a slash, and that model,
    which is not empty; and no provider is reported, and the trimmed input is the
    model, exactly when it has no such form. *)
Theorem split_provider_model_roundtrip s p m :
  SplitProviderModel s = (p, m) <->
  prefixed (TrimSpace s) p m \/
  (p = "" /\ m = TrimSpace s /\ ~ exists q n, prefixed (TrimSpace s) q n).
Proof.
  split.
  - intros E. destruct (decide (p = "")) as [->|Hp].
    + right. split_and!; [done|by apply split_no_provider|]. intros (q & n & Hq).
      pose proof (split_prefixed s q n Hq). destruct Hq as (Hq & _). congruence.
    + left. by apply split_inv in E as (? & ? & ?).
  - intros [H|(-> & -> & Hno)]; [by apply split_prefixed|].
    destruct (SplitProviderModel s) as [q n] eqn:E. destruct (decide (q = "")) as [->|Hq].
    + by rewrite (split_no_provider s n E).
    + destruct Hno. exists q, n. apply split_inv in E as (? & ? & ?); done.
Qed.

Example split_examples :
  map SplitProviderModel ["openai/gpt-4o"; " gpt-4o "; "/x"; "x/"; "a/b/c"]
  = [("openai", "gpt-4o"); ("", "gpt-4o"); ("", "/x"); ("", "x/"); ("a", "b/c")].
Proof. vm_compute. reflexivity. Qed.
