(* ===== verification/RouterTypes.v ===== *)
(** * Router data model ([pkg/router], [pkg/provider], [routers/types.go])

    The records the routing strategies share, the routing configuration with its
    defaults, and the tenant scope carried by a request context. *)
From stdpp Require Import pretty.
From S2P Require Import Prelude Float64.

(** A strategy is its name in the configuration. *)
Definition Strategy := string.

Definition StrategyRoundRobin : Strategy := "round-robin".
Definition StrategySimpleShuffle : Strategy := "simple-shuffle".
Definition StrategyLowestLatency : Strategy := "lowest-latency".
Definition StrategyLeastBusy : Strategy := "least-busy".
Definition StrategyLowestTPMRPM : Strategy := "lowest-tpm-rpm".
Definition StrategyLowestCost : Strategy := "lowest-cost".
Definition StrategyTagBased : Strategy := "tag-based".

(** The fields of [provider.Deployment] that routing and the client read. *)
Record Deployment := {
  ID : string;
  ProviderName : string;
  ModelName : string;
  ModelAlias : string;
  BaseURL : string;
  MaxConcurrent : Z;
}.

Record DeploymentConfig := {
  Weight : f64;
  TPMLimit : Z;
  RPMLimit : Z;
  InputCostPerToken : f64;
  OutputCostPerToken : f64;
  Tags : list string;
}.

(** [router.DeploymentConfig{}] *)
Definition zeroDeploymentConfig : DeploymentConfig :=
  {| Weight := fzero; TPMLimit := 0; RPMLimit := 0;
     InputCostPerToken := fzero; OutputCostPerToken := fzero; Tags := [] |}.

Record ExtendedDeployment := {
  Dep : Deployment;
  DConfig : DeploymentConfig;
}.

#[export] Instance Deployment_eq_dec : EqDecision Deployment.
Proof. solve_decision. Defined.
#[export] Instance DeploymentConfig_eq_dec : EqDecision DeploymentConfig.
Proof. solve_decision. Defined.
#[export] Instance ExtendedDeployment_eq_dec : EqDecision ExtendedDeployment.
Proof. solve_decision. Defined.

Record RequestContext := {
  Model : string;
  IsStreaming : bool;
  ReqTags : list string;
  EstimatedInputTokens : Z;
}.

(** [&router.RequestContext{Model: model}] *)
Definition modelContext (model : string) : RequestContext :=
  {| Model := model; IsStreaming := false; ReqTags := []; EstimatedInputTokens := 0 |}.

Record ResponseMetrics := {
  Latency : duration;
  TimeToFirstToken : duration;
  TotalTokens : Z;
  InputTokens : Z;
  OutputTokens : Z;
  MetricsCost : f64;
}.

Record DeploymentStats := {
  TotalRequests : Z;
  SuccessCount : Z;
  FailureCount : Z;
  ActiveRequests : Z;
  LatencyHistory : list f64;
  TTFTHistory : list f64;
  AvgLatencyMs : f64;
  AvgTTFTMs : f64;
  EWMALatencyMs : f64;
  EWMAAvgTTFTMs : f64;
  EWMASuccessRate : f64;
  MaxLatencyListSize : Z;
  CurrentMinuteTPM : Z;
  CurrentMinuteRPM : Z;
  CurrentMinuteKey : string;
  LastRequestTime : time;
  CooldownUntil : time;
}.

(** [router.DeploymentStats{}] *)
Definition zeroStats : DeploymentStats :=
  {| TotalRequests := 0; SuccessCount := 0; FailureCount := 0; ActiveRequests := 0;
     LatencyHistory := []; TTFTHistory := []; AvgLatencyMs := fzero; AvgTTFTMs := fzero;
     EWMALatencyMs := fzero; EWMAAvgTTFTMs := fzero; EWMASuccessRate := fzero;
     MaxLatencyListSize := 0; CurrentMinuteTPM := 0; CurrentMinuteRPM := 0;
     CurrentMinuteKey := ""; LastRequestTime := zero_time; CooldownUntil := zero_time |}.

Record Config := {
  CStrategy : Strategy;
  CooldownPeriod : duration;
  LatencyBuffer : f64;
  CMaxLatencyListSize : Z;
  MetricsTTL : duration;
  EnableTagFiltering : bool;
  DefaultProvider : string;
  PricingFile : string;
  FailureThresholdPercent : f64;
  MinRequestsForThreshold : Z;
  ImmediateCooldownOn429 : bool;
  EWMAAlpha : f64;
}.

Definition DefaultConfig : Config :=
  {| CStrategy := StrategySimpleShuffle;
     CooldownPeriod := 60 * Second;
     LatencyBuffer := f64_lit 1 10;
     CMaxLatencyListSize := 10;
     MetricsTTL := Hour;
     EnableTagFiltering := false;
     DefaultProvider := "";
     PricingFile := "";
     FailureThresholdPercent := f64_lit 1 2;
     MinRequestsForThreshold := 5;
     ImmediateCooldownOn429 := true;
     EWMAAlpha := f64_lit 1 10 |}.

(** ** Tenant scope

    A [context.Context] is the list of its values, innermost first; only the
    tenant scope is read here. *)

Definition context := list string.
Definition Background : context := [].

Definition WithTenantScope (ctx : context) (scope : string) : context :=
  if String.eqb scope "" then ctx else scope :: ctx.

Definition TenantScopeFromContext (ctx : context) : string :=
  match ctx with
  | [] => ""
  | scope :: _ => scope
  end.

(** [minuteKey]: the UTC Unix minute in decimal. *)
Definition minuteKey (t : time) : string := pretty (unix t /! 60).

(** ** Rolling histories and per-minute usage

    The same two helpers appear in the in-process router statistics and in the
    in-memory statistics store. *)

(** Adds a sample to a rolling history: it grows up to [maxSize] samples, then
    the samples shift left and the last one is overwritten. *)
Definition append_history (maxSize : Z) (history : list f64) (value : f64) : list f64 :=
  let maxSize := if maxSize <=? 0 then 10 else maxSize in
  if Z.of_nat (length history) <? maxSize then history ++ [value]
  else tail history ++ [value].

(** Counts a request and its tokens in the current minute; the first request of
    a new minute restarts the counters. *)
Definition roll_usage (now : time) (tokens : Z) (stats : DeploymentStats) : DeploymentStats :=
  let currentMinute := minuteKey now in
  let stats :=
    if String.eqb stats.(CurrentMinuteKey) currentMinute then stats
    else stats<|CurrentMinuteKey := currentMinute|><|CurrentMinuteTPM := 0|><|CurrentMinuteRPM := 0|> in
  stats<|CurrentMinuteTPM ::= fun t => t +! tokens|><|CurrentMinuteRPM ::= fun n => n +! 1|>.

(** [history_cap maxSize] is the number of samples a history keeps. *)
Definition history_cap (maxSize : Z) : nat :=
  Z.to_nat (if maxSize <=? 0 then 10 else maxSize).

(** The last [n] elements of a list. *)
Definition last_n {A : Type} (n : nat) (l : list A) : list A := drop (length l - n) l.

Lemma tail_drop {A : Type} n (l : list A) : drop (S n) l = tail (drop n l).
Proof. revert n. induction l as [|x l IH]; intros [|n]; try done. apply IH. Qed.

Lemma history_cap_pos k : (0 < history_cap k)%nat.
Proof. unfold history_cap. destruct (Z.leb_spec k 0); lia. Qed.

Lemma append_history_last_n k samples v :
  append_history k (last_n (history_cap k) samples) v = last_n (history_cap k) (samples ++ [v]).
Proof.
  pose proof (history_cap_pos k) as Hc. unfold append_history, last_n.
  rewrite length_drop, length_app. cbn [length].
  set (c := history_cap k) in *.
  assert (Ec : (if k <=? 0 then 10 else k) = Z.of_nat c)
    by (unfold c, history_cap; destruct (Z.leb_spec k 0); lia).
  rewrite Ec.
  replace (Z.of_nat (length samples - (length samples - c))%nat <? Z.of_nat c)
    with (length samples <? c)%nat
    by (destruct (Nat.ltb_spec (length samples) c), (Z.ltb_spec (Z.of_nat (length samples - (length samples - c))%nat) (Z.of_nat c)); lia).
  destruct (Nat.ltb_spec (length samples) c).
  - replace (length samples - c)%nat with O by lia.
    replace (length samples + 1 - c)%nat with O by lia. by rewrite !drop_0.
  - rewrite drop_app_le by lia. f_equal.
    replace (length samples + 1 - c)%nat with (S (length samples - c)) by lia.
    symmetry. apply tail_drop.
Qed.

(** A history fed sample by sample holds the most recent samples, oldest
    first. *)
Lemma append_history_foldl k samples :
  foldl (append_history k) [] samples = last_n (history_cap k) samples.
Proof.
  induction samples as [|v samples IH] using rev_ind; [done|].
  rewrite foldl_snoc, IH. apply append_history_last_n.
Qed.

Lemma last_n_length {A} n (l : list A) : (length (last_n n l) <= n)%nat.
Proof. unfold last_n. rewrite length_drop. lia. Qed.
