(* ===== verification/StatsStore.v ===== *)
(** * Statistics stores ([pkg/router/stats_store.go], [routers/memory_stats_store.go])

    [StatsStore] is the interface between the routers and a statistics store:
    the operations as a class, and the laws a router relies on as a second
    class.  [MemoryStatsStore] implements both. *)
From S2P Require Import Prelude Float64 Errors RouterTypes.

Inductive store_err :=
| ErrStatsNotFound
| ErrStoreNotAvailable
| ErrStoreOther (msg : string).

#[export] Instance store_err_eq_dec : EqDecision store_err.
Proof. solve_decision. Defined.

(** ** The interface

    An operation takes the store to its next state and may return an error; the
    reading operations leave it as it is.  [now] is the instant an operation
    reads.  [RecordFailureWithOptions] is the optional extension the router
    looks for with a type assertion; its boolean is [isSingleDeployment]. *)
Class StatsStore (S : Type) := {
  GetStats : context -> string -> S -> store_err + DeploymentStats;
  IncrementActiveRequests : context -> string -> S -> S * option store_err;
  DecrementActiveRequests : context -> string -> S -> S * option store_err;
  RecordSuccess : time -> context -> string -> ResponseMetrics -> S -> S * option store_err;
  RecordFailure : time -> context -> string -> go_error -> S -> S * option store_err;
  SetCooldown : context -> string -> time -> S -> S * option store_err;
  GetCooldownUntil : context -> string -> S -> store_err + time;
  ListDeployments : context -> S -> store_err + list string;
  DeleteStats : context -> string -> S -> S * option store_err;
  CloseStore : S -> S * option store_err;
  RecordFailureWithOptions :
    option (time -> context -> string -> go_error -> bool -> S -> S * option store_err);
}.

(** What a router relies on: the cooldown it reads is the one in the
    statistics, the one it sets is the one it reads, and setting it leaves the
    other deployments alone. *)
Class StatsStoreLaws (S : Type) `{StatsStore S} : Prop := {
  cooldown_in_stats ctx id s st :
    GetStats ctx id s = inr st -> GetCooldownUntil ctx id s = inr st.(CooldownUntil);
  cooldown_not_found ctx id s :
    GetStats ctx id s = inl ErrStatsNotFound -> GetCooldownUntil ctx id s = inr zero_time;
  set_cooldown_get ctx id until s s' :
    SetCooldown ctx id until s = (s', None) ->
    exists st, GetStats ctx id s' = inr st /\ st.(CooldownUntil) = until;
  set_cooldown_frame ctx id id' until s s' :
    SetCooldown ctx id until s = (s', None) -> id' <> id ->
    GetStats ctx id' s' = GetStats ctx id' s;
}.

(** ** The in-memory store *)
Module MemoryStore.

Record MemoryStatsStore := {
  mstats : gmap string DeploymentStats;
  maxLatencyListSize : Z;
}.

Definition NewMemoryStatsStore : MemoryStatsStore :=
  {| mstats := ∅; maxLatencyListSize := 10 |}.

Definition NewMemoryStatsStoreWithConfig (n : Z) : MemoryStatsStore :=
  {| mstats := ∅; maxLatencyListSize := n |}.

(** The histories are made with the capacity [maxLatencyListSize]; [make] panics for a
    negative one, which is not modelled. *)
Definition getOrCreateStatsLocked (m : MemoryStatsStore) (id : string) : DeploymentStats :=
  match m.(mstats) !! id with
  | Some stats => stats
  | None => zeroStats<|MaxLatencyListSize := m.(maxLatencyListSize)|>
  end.

Definition appendToHistoryLocked (m : MemoryStatsStore) (history : list f64) (value : f64) : list f64 :=
  append_history m.(maxLatencyListSize) history value.

Definition updateUsageStatsLocked (now : time) (stats : DeploymentStats) (tokens : Z) : DeploymentStats :=
  roll_usage now tokens stats.

(** A write lock around an update of one entry, created on first use. *)
Definition with_stats (m : MemoryStatsStore) (id : string)
  (f : DeploymentStats -> DeploymentStats) : MemoryStatsStore :=
  m<|mstats ::= <[id := f (getOrCreateStatsLocked m id)]>|>.

Definition mem_GetStats (ctx : context) (id : string) (m : MemoryStatsStore) :
  store_err + DeploymentStats :=
  match m.(mstats) !! id with
  | None => inl ErrStatsNotFound
  | Some stats => inr stats
  end.

Definition mem_IncrementActiveRequests (ctx : context) (id : string) (m : MemoryStatsStore) :
  MemoryStatsStore * option store_err :=
  (with_stats m id (fun s => s<|ActiveRequests ::= fun n => n +! 1|>), None).

Definition mem_DecrementActiveRequests (ctx : context) (id : string) (m : MemoryStatsStore) :
  MemoryStatsStore * option store_err :=
  (with_stats m id (fun s =>
     if 0 <? s.(ActiveRequests) then s<|ActiveRequests ::= fun n => n -! 1|> else s), None).

(** An average: the first sample, then nine tenths of the old average and one
    tenth of the new sample. *)
Definition smooth (avg sample : f64) : f64 :=
  if avg =.? fzero then sample else avg ⊠ f64_lit 9 10 ⊞ sample ⊠ f64_lit 1 10.

(** The body of [RecordSuccess] on the deployment's entry. *)
Definition success_entry (m : MemoryStatsStore) (now : time) (metrics : ResponseMetrics)
  (s : DeploymentStats) : DeploymentStats :=
  let s := s<|TotalRequests ::= fun n => n +! 1|>
            <|SuccessCount ::= fun n => n +! 1|>
            <|LastRequestTime := now|> in
  let latencyMs := f64_of_Z (milliseconds metrics.(Latency)) in
  let s := s<|LatencyHistory ::= fun h => appendToHistoryLocked m h latencyMs|> in
  let ttftMs := f64_of_Z (milliseconds metrics.(TimeToFirstToken)) in
  let s := if 0 <? metrics.(TimeToFirstToken)
           then s<|TTFTHistory ::= fun h => appendToHistoryLocked m h ttftMs|> else s in
  let s := s<|AvgLatencyMs ::= fun a => smooth a latencyMs|> in
  let s := if 0 <? metrics.(TimeToFirstToken)
           then s<|AvgTTFTMs ::= fun a => smooth a ttftMs|> else s in
  updateUsageStatsLocked now s metrics.(TotalTokens).

Definition mem_RecordSuccess (now : time) (ctx : context) (id : string)
  (metrics : ResponseMetrics) (m : MemoryStatsStore) : MemoryStatsStore * option store_err :=
  (with_stats m id (success_entry m now metrics), None).

Definition penaltyLatency : f64 := f64_of_Z 1000000.

(** The body of [RecordFailure] on the deployment's entry. *)
Definition failure_entry (m : MemoryStatsStore) (now : time) (err : go_error)
  (s : DeploymentStats) : DeploymentStats :=
  let s := s<|TotalRequests ::= fun n => n +! 1|>
            <|FailureCount ::= fun n => n +! 1|>
            <|LastRequestTime := now|> in
  match type_assert err with
  | Some e =>
      if (e.(StatusCode) =? 408) || (e.(StatusCode) =? 504)
      then s<|LatencyHistory ::= fun h => appendToHistoryLocked m h penaltyLatency|>
      else s
  | None => s
  end.

Definition mem_RecordFailure (now : time) (ctx : context) (id : string)
  (err : go_error) (m : MemoryStatsStore) : MemoryStatsStore * option store_err :=
  (with_stats m id (failure_entry m now err), None).

Definition mem_RecordFailureWithOptions (now : time) (ctx : context) (id : string)
  (err : go_error) (isSingleDeployment : bool) (m : MemoryStatsStore) :
  MemoryStatsStore * option store_err :=
  mem_RecordFailure now ctx id err m.

Definition mem_SetCooldown (ctx : context) (id : string) (until : time) (m : MemoryStatsStore) :
  MemoryStatsStore * option store_err :=
  (with_stats m id (fun s => s<|CooldownUntil := until|>), None).

Definition mem_GetCooldownUntil (ctx : context) (id : string) (m : MemoryStatsStore) :
  store_err + time :=
  match m.(mstats) !! id with
  | None => inr zero_time
  | Some stats => inr stats.(CooldownUntil)
  end.

Definition mem_ListDeployments (ctx : context) (m : MemoryStatsStore) : store_err + list string :=
  inr (map_to_list m.(mstats)).*1.

Definition mem_DeleteStats (ctx : context) (id : string) (m : MemoryStatsStore) :
  MemoryStatsStore * option store_err :=
  (m<|mstats ::= delete id|>, None).

Definition mem_Close (m : MemoryStatsStore) : MemoryStatsStore * option store_err :=
  (m<|mstats := ∅|>, None).

#[export] Instance memory_store : StatsStore MemoryStatsStore := {
  GetStats := mem_GetStats;
  IncrementActiveRequests := mem_IncrementActiveRequests;
  DecrementActiveRequests := mem_DecrementActiveRequests;
  RecordSuccess := mem_RecordSuccess;
  RecordFailure := mem_RecordFailure;
  SetCooldown := mem_SetCooldown;
  GetCooldownUntil := mem_GetCooldownUntil;
  ListDeployments := mem_ListDeployments;
  DeleteStats := mem_DeleteStats;
  CloseStore := mem_Close;
  RecordFailureWithOptions := Some mem_RecordFailureWithOptions;
}.

(** ** Laws *)

Lemma with_stats_lookup m id f :
  (with_stats m id f).(mstats) !! id = Some (f (getOrCreateStatsLocked m id)).
Proof. apply lookup_insert_eq. Qed.

Lemma with_stats_lookup_ne m id id' f :
  id' <> id -> (with_stats m id f).(mstats) !! id' = m.(mstats) !! id'.
Proof. intros H. by apply lookup_insert_ne. Qed.

#[export] Instance memory_store_laws : StatsStoreLaws MemoryStatsStore.
Proof.
  constructor; cbn; unfold mem_GetStats, mem_GetCooldownUntil, mem_SetCooldown.
  - intros ctx id s st. by destruct (mstats s !! id); intros [= ->].
  - intros ctx id s. by destruct (mstats s !! id).
  - intros ctx id until s s' [= <-]. rewrite with_stats_lookup. eauto.
  - intros ctx id id' until s s' [= <-] Hne. by rewrite with_stats_lookup_ne.
Qed.

(** ** Refinement: an entry is a summary of the deployment's event log

    The router drives the store with five kinds of events.  The abstract store
    is the log of those events; the concrete entry of a deployment is
    determined by the events of that deployment alone. *)

Inductive event :=
| EvStart
| EvEnd
| EvSuccess (now : time) (metrics : ResponseMetrics)
| EvFailure (now : time) (err : go_error)
| EvCooldown (until : time).

Definition apply_event (m : MemoryStatsStore) (ctx : context) (ev : string * event) : MemoryStatsStore :=
  match ev.2 with
  | EvStart => (mem_IncrementActiveRequests ctx ev.1 m).1
  | EvEnd => (mem_DecrementActiveRequests ctx ev.1 m).1
  | EvSuccess now metrics => (mem_RecordSuccess now ctx ev.1 metrics m).1
  | EvFailure now err => (mem_RecordFailure now ctx ev.1 err m).1
  | EvCooldown until => (mem_SetCooldown ctx ev.1 until m).1
  end.

Definition is_success (e : event) : bool := match e with EvSuccess _ _ => true | _ => false end.
Definition is_failure (e : event) : bool := match e with EvFailure _ _ => true | _ => false end.

Definition count (f : event -> bool) (log : list event) : Z := Z.of_nat (length (keep f log)).

(** The latency samples of a log: successes give their latency, timeouts the
    penalty. *)
Definition sample (e : event) : list f64 :=
  match e with
  | EvSuccess _ metrics => [f64_of_Z (milliseconds metrics.(Latency))]
  | EvFailure _ (ELLM e) =>
      if (e.(StatusCode) =? 408) || (e.(StatusCode) =? 504) then [penaltyLatency] else []
  | _ => []
  end.

Definition samples (log : list event) : list f64 := concat (map sample log).

(** The times to the first token, of the successes that have one. *)
Definition ttft_sample (e : event) : list f64 :=
  match e with
  | EvSuccess _ metrics =>
      if 0 <? metrics.(TimeToFirstToken) then [f64_of_Z (milliseconds metrics.(TimeToFirstToken))] else []
  | _ => []
  end.

Definition ttft_samples (log : list event) : list f64 := concat (map ttft_sample log).

(** Requests in flight: ends without a start are ignored. *)
Definition in_flight_step (n : Z) (e : event) : Z :=
  match e with EvStart => n + 1 | EvEnd => Z.max 0 (n - 1) | _ => n end.
Definition in_flight (log : list event) : Z := foldl in_flight_step 0 log.

(** The last cooldown set by hand; failures set none. *)
Definition cooldown_step (t : time) (e : event) : time :=
  match e with EvCooldown until => until | _ => t end.
Definition cooldown (log : list event) : time := foldl cooldown_step zero_time log.

Record summarises (k : Z) (log : list event) (st : DeploymentStats) : Prop := {
  sum_success : st.(SuccessCount) = wrap64 (count is_success log);
  sum_failure : st.(FailureCount) = wrap64 (count is_failure log);
  sum_total : st.(TotalRequests) = wrap64 (count is_success log + count is_failure log);
  sum_latency : st.(LatencyHistory) = last_n (history_cap k) (samples log);
  sum_ttft : st.(TTFTHistory) = last_n (history_cap k) (ttft_samples log);
  sum_cooldown : st.(CooldownUntil) = cooldown log;
  sum_active : Z.of_nat (length log) < two63 -> st.(ActiveRequests) = in_flight log;
}.

Lemma count_snoc f log e : count f (log ++ [e]) = count f log + (if f e then 1 else 0).
Proof.
  unfold count, keep. rewrite List.filter_app, length_app. cbn. destruct (f e); cbn; lia.
Qed.

Lemma samples_snoc log e : samples (log ++ [e]) = samples log ++ sample e.
Proof. unfold samples. rewrite map_app, concat_app. cbn. by rewrite app_nil_r. Qed.

Lemma ttft_samples_snoc log e : ttft_samples (log ++ [e]) = ttft_samples log ++ ttft_sample e.
Proof. unfold ttft_samples. rewrite map_app, concat_app. cbn. by rewrite app_nil_r. Qed.

Lemma in_flight_range log : 0 <= in_flight log <= Z.of_nat (length log).
Proof.
  induction log as [|e log IH] using rev_ind; [done|].
  unfold in_flight in *. rewrite foldl_snoc, length_app. cbn. destruct e; cbn; lia.
Qed.

Lemma apply_event_frame m ctx id id' e :
  id' <> id -> (apply_event m ctx (id, e)).(mstats) !! id' = m.(mstats) !! id'.
Proof. intros H. destruct e; by apply with_stats_lookup_ne. Qed.

Lemma apply_event_size m ctx ev : (apply_event m ctx ev).(maxLatencyListSize) = m.(maxLatencyListSize).
Proof. destruct ev as [id []]; done. Qed.

Lemma in_flight_snoc log e : in_flight (log ++ [e]) = in_flight_step (in_flight log) e.
Proof. apply foldl_snoc. Qed.

Lemma cooldown_snoc log e : cooldown (log ++ [e]) = cooldown_step (cooldown log) e.
Proof. apply foldl_snoc. Qed.

Lemma zero_summarises k n : summarises k [] (zeroStats<|MaxLatencyListSize := n|>).
Proof. by constructor. Qed.

Lemma start_summarises k log s :
  summarises k log s -> summarises k (log ++ [EvStart]) (s<|ActiveRequests ::= fun n => n +! 1|>).
Proof.
  intros [S F T L P C A]. pose proof (in_flight_range log).
  constructor; rewrite ?count_snoc, ?samples_snoc, ?ttft_samples_snoc, ?in_flight_snoc, ?cooldown_snoc, ?length_app;
    cbn; rewrite ?app_nil_r, ?Z.add_0_r; try done.
  intros HL. rewrite A by lia. apply wrap64_id. unfold in_i64, two63 in *. lia.
Qed.

Lemma end_summarises k log s :
  summarises k log s ->
  summarises k (log ++ [EvEnd])
    (if 0 <? s.(ActiveRequests) then s<|ActiveRequests ::= fun n => n -! 1|> else s).
Proof.
  intros [S F T L P C A]. pose proof (in_flight_range log).
  constructor; rewrite ?count_snoc, ?samples_snoc, ?ttft_samples_snoc, ?in_flight_snoc, ?cooldown_snoc, ?length_app;
    cbn [sample ttft_sample is_success is_failure length cooldown_step in_flight_step];
    rewrite ?app_nil_r, ?Z.add_0_r; try by destruct (0 <? _).
  intros HL. destruct (Z.ltb_spec 0 s.(ActiveRequests)) as [H0|H0]; cbn.
  - rewrite A in H0 |- * by lia. rewrite wrap64_id; [lia|]. unfold in_i64, two63 in *. lia.
  - rewrite A in H0 |- * by lia. lia.
Qed.

Lemma success_summarises m now metrics log s :
  summarises m.(maxLatencyListSize) log s ->
  summarises m.(maxLatencyListSize) (log ++ [EvSuccess now metrics]) (success_entry m now metrics s).
Proof.
  intros [S F T L P C A].
  constructor; rewrite ?count_snoc, ?samples_snoc, ?ttft_samples_snoc, ?in_flight_snoc, ?cooldown_snoc, ?length_app;
    unfold success_entry, updateUsageStatsLocked, roll_usage;
    cbn; destruct (0 <? metrics.(TimeToFirstToken)), (String.eqb _ _); cbn; rewrite ?app_nil_r, ?Z.add_0_r; try done.
  all: try (rewrite ?S, ?T, wrap64_add_l; f_equal; lia).
  all: try (rewrite ?L, ?P; apply append_history_last_n).
  all: intros HL; apply A; lia.
Qed.

Lemma failure_summarises m now err log s :
  summarises m.(maxLatencyListSize) log s ->
  summarises m.(maxLatencyListSize) (log ++ [EvFailure now err]) (failure_entry m now err s).
Proof.
  intros [S F T L P C A].
  constructor; rewrite ?count_snoc, ?samples_snoc, ?ttft_samples_snoc, ?in_flight_snoc, ?cooldown_snoc, ?length_app;
    unfold failure_entry; cbn; destruct err as [e|msg|msg inner]; cbn;
    try destruct ((_ =? _) || _); cbn; rewrite ?app_nil_r, ?Z.add_0_r; try done.
  all: try (rewrite ?F, ?T, wrap64_add_l; f_equal; lia).
  all: try (rewrite ?L, ?P; apply append_history_last_n).
  all: intros HL; apply A; lia.
Qed.

Lemma cooldown_summarises k log s until :
  summarises k log s -> summarises k (log ++ [EvCooldown until]) (s<|CooldownUntil := until|>).
Proof.
  intros [S F T L P C A].
  constructor; rewrite ?count_snoc, ?samples_snoc, ?ttft_samples_snoc, ?in_flight_snoc, ?cooldown_snoc, ?length_app;
    cbn; rewrite ?app_nil_r, ?Z.add_0_r; try done.
  intros HL; apply A; lia.
Qed.

Lemma apply_event_summarises m ctx id e log :
  summarises m.(maxLatencyListSize) log (getOrCreateStatsLocked m id) ->
  exists st, (apply_event m ctx (id, e)).(mstats) !! id = Some st
    /\ summarises m.(maxLatencyListSize) (log ++ [e]) st.
Proof.
  intros H. destruct e; (eexists; split; [apply with_stats_lookup|]).
  - by apply start_summarises.
  - by apply end_summarises.
  - by apply success_summarises.
  - by apply failure_summarises.
  - by apply cooldown_summarises.
Qed.

(** The calls on the store that change it: an event of a deployment, in some context,
    the removal of its statistics, and the closing of the store. *)
Inductive action :=
| On (ctx : context) (id : string) (e : event)
| Forget (ctx : context) (id : string)
| Shut.

Definition act (m : MemoryStatsStore) (a : action) : MemoryStatsStore :=
  match a with
  | On ctx id e => apply_event m ctx (id, e)
  | Forget ctx id => (mem_DeleteStats ctx id m).1
  | Shut => (mem_Close m).1
  end.

Definition run (k : Z) (acts : list action) : MemoryStatsStore :=
  foldl act (NewMemoryStatsStoreWithConfig k) acts.

(** The events of one deployment since its statistics were last removed, in order. *)
Definition log_step (id : string) (log : list event) (a : action) : list event :=
  match a with
  | On _ id' e => if String.eqb id' id then log ++ [e] else log
  | Forget _ id' => if String.eqb id' id then [] else log
  | Shut => []
  end.
Definition log_of (id : string) (acts : list action) : list event := foldl (log_step id) [] acts.

Lemma act_size m a : (act m a).(maxLatencyListSize) = m.(maxLatencyListSize).
Proof. destruct a; [apply apply_event_size|done|done]. Qed.

Lemma run_size k acts : (run k acts).(maxLatencyListSize) = k.
Proof.
  unfold run. induction acts as [|a acts IH] using rev_ind; [done|].
  by rewrite foldl_snoc, act_size.
Qed.

(** An entry and the log that it sums up. *)
Definition entry_of (k : Z) (log : list event) (o : option DeploymentStats) : Prop :=
  match o with
  | Some st => log <> [] /\ summarises k log st
  | None => log = []
  end.

Lemma act_entry m a id log :
  entry_of m.(maxLatencyListSize) log (m.(mstats) !! id) ->
  entry_of m.(maxLatencyListSize) (log_step id log a) ((act m a).(mstats) !! id).
Proof.
  intros IH. destruct a as [ctx id' e|ctx id'|]; cbn [act log_step]; [| |done].
  - destruct (String.eqb_spec id' id) as [->|Hne].
    + destruct (apply_event_summarises m ctx id e log) as (st & -> & Hs).
      * unfold getOrCreateStatsLocked. destruct (mstats m !! id) eqn:E; cbn in IH; [by destruct IH|].
        rewrite IH. apply zero_summarises.
      * split; [by destruct log|done].
    + by rewrite apply_event_frame by done.
  - cbn. destruct (String.eqb_spec id' id) as [->|Hne]; [by rewrite lookup_delete_eq|].
    by rewrite lookup_delete_ne.
Qed.

Lemma run_entry k acts id : entry_of k (log_of id acts) ((run k acts).(mstats) !! id).
Proof.
  unfold log_of. induction acts as [|a acts IH] using rev_ind; [done|].
  unfold run. rewrite !foldl_snoc. fold (run k acts).
  pose proof (act_entry (run k acts) a id (foldl (log_step id) [] acts)) as H. rewrite run_size in H. by apply H.
Qed.



(** a failure recorded in the in-memory store never starts a cooldown,
    whatever the error: the cooldown read after it is the one read before. *)
Theorem memory_store_failure_no_cooldown now ctx id err single m :
  mem_GetCooldownUntil ctx id (mem_RecordFailureWithOptions now ctx id err single m).1
  = mem_GetCooldownUntil ctx id m.
Proof.
  unfold mem_GetCooldownUntil, mem_RecordFailureWithOptions, mem_RecordFailure.
  cbn [fst]. rewrite with_stats_lookup. unfold getOrCreateStatsLocked, failure_entry.
  destruct (mstats m !! id), err as [e| |]; cbn; try destruct ((_ =? _) || _); done.
Qed.
End MemoryStore.
