(* ===== verification/BaseRouter.v ===== *)
(** * The base router ([routers/base.go])

    The state every routing strategy embeds, in its two modes: in local mode the
    statistics are kept in the router, in distributed mode every report goes to
    a [StatsStore].  The methods run under the router's mutexes, so each is one
    step of the model.  Every reading of the clock is an argument; [emitted] is
    the trace of deployment metrics. *)
From S2P Require Import Prelude Float64 Errors ModelName RouterTypes StatsStore.

Inductive route_err :=
| ErrNoAvailableDeployment
| ErrNoDeploymentsWithTag.

#[export] Instance route_err_eq_dec : EqDecision route_err.
Proof. solve_decision. Defined.

Record failureBucket := {
  minute : Z;
  success : Z;
  failure : Z;
}.

(** [statsEntry] has the fields of [DeploymentStats] and the ring of buckets. *)
Record statsEntry := {
  entry : DeploymentStats;
  FailureBuckets : list failureBucket;
}.

Definition defaultFailureWindowMinutes : Z := 5.
Definition defaultFailureBucketSeconds : Z := 60.
Definition defaultSingleDeploymentFailureMinReq : Z := 1000.

Inductive metric_event :=
| RecordActiveRequest (id model provider : string) (delta : Z)
| RecordDeploymentCooldown (id model alias provider baseURL : string).

Record BaseRouter (S : Type) := {
  deployments : gmap string (list ExtendedDeployment);
  stats : gmap string statsEntry;
  config : Config;
  strategy : Strategy;
  statsStore : option S;
  emitted : list metric_event;
}.
Arguments deployments {S}.
Arguments stats {S}.
Arguments config {S}.
Arguments strategy {S}.
Arguments statsStore {S}.
Arguments emitted {S}.

Definition NewBaseRouter {S : Type} (cfg : Config) : BaseRouter S :=
  {| deployments := ∅; stats := ∅; config := cfg; strategy := cfg.(CStrategy);
     statsStore := None; emitted := [] |}.

Definition NewBaseRouterWithStore {S : Type} (cfg : Config) (store : S) : BaseRouter S :=
  (NewBaseRouter cfg)<|statsStore := Some store|>.

Definition GetStrategy {S : Type} (r : BaseRouter S) : Strategy := r.(strategy).

(** ** Statistics entries *)

(** The histories are made with the capacity [MaxLatencyListSize]; [make] panics for a
    negative one, which is not modelled: the size is 10 by default, and a configuration
    is taken to have none below zero. *)
Definition newStatsEntry (cfg : Config) : statsEntry :=
  {| entry := zeroStats<|MaxLatencyListSize := cfg.(CMaxLatencyListSize)|>
                       <|EWMASuccessRate := fone|>;
     FailureBuckets :=
       replicate (Z.to_nat defaultFailureWindowMinutes) {| minute := 0; success := 0; failure := 0 |} |}.

Definition appendToHistory (history : list f64) (value : f64) (maxSize : Z) : list f64 :=
  append_history maxSize history value.

Definition updateUsageStats (now : time) (tokens : Z) (st : statsEntry) : statsEntry :=
  st<|entry ::= roll_usage now tokens|>.

(** *** The failure window: a ring of one-minute buckets *)

Definition bucketMinute (now : time) : Z := unix now /! defaultFailureBucketSeconds.

Definition bump (ok : bool) (b : failureBucket) : failureBucket :=
  if ok then b<|success ::= fun n => n +! 1|> else b<|failure ::= fun n => n +! 1|>.

(** A clock reading before 1970 gives a negative index, with which Go panics; the panic is
    not modelled, and the entry is then left unchanged.  The theorems on the window are
    for readings from 1970 on, which never give one. *)
Definition recordWindow (st : statsEntry) (now : time) (ok : bool) : statsEntry :=
  if (length st.(FailureBuckets) =? 0)%nat then st
  else
    let m := bucketMinute now in
    let idx := m %! Z.of_nat (length st.(FailureBuckets)) in
    if idx <? 0 then st
    else
      match st.(FailureBuckets) !! Z.to_nat idx with
      | None => st
      | Some bucket =>
          let bucket := if bucket.(minute) =? m then bucket
                        else {| minute := m; success := 0; failure := 0 |} in
          st<|FailureBuckets ::= <[Z.to_nat idx := bump ok bucket]>|>
      end.

Definition recordWindowSuccess (st : statsEntry) (now : time) : statsEntry := recordWindow st now true.
Definition recordWindowFailure (st : statsEntry) (now : time) : statsEntry := recordWindow st now false.

(** The totals over the buckets of the last five minutes. *)
Definition add_bucket (cutoff : Z) (acc : Z * Z) (b : failureBucket) : Z * Z :=
  if cutoff <=? b.(minute) then (acc.1 +! b.(success), acc.2 +! b.(failure)) else acc.

Definition windowTotals (st : statsEntry) (now : time) : Z * Z :=
  let cutoff := bucketMinute now - (defaultFailureWindowMinutes - 1) in
  foldl (add_bucket cutoff) (0, 0) st.(FailureBuckets).

Definition shouldCooldownByFailureRate (cfg : Config) (st : statsEntry) (now : time)
  (isSingleDeployment : bool) : bool :=
  let '(successTotal, failureTotal) := windowTotals st now in
  let total := successTotal +! failureTotal in
  if total =? 0 then false
  else if isSingleDeployment then
    (defaultSingleDeploymentFailureMinReq <=? total) && (failureTotal =? total)
  else if total <? cfg.(MinRequestsForThreshold) then false
  else
    let failureRate := f64_of_Z failureTotal ⊘ f64_of_Z total in
    cfg.(FailureThresholdPercent) <.? failureRate.

(** *** The exponentially weighted averages *)

Definition ewmaAlpha (cfg : Config) : f64 :=
  if cfg.(EWMAAlpha) <=.? fzero then f64_lit 1 10 else cfg.(EWMAAlpha).

Definition ewma (alpha old sample : f64) : f64 :=
  if old =.? fzero then sample else alpha ⊠ sample ⊞ (fone ⊟ alpha) ⊠ old.

Definition ewmaRate (alpha outcome old : f64) : f64 :=
  alpha ⊠ outcome ⊞ (fone ⊟ alpha) ⊠ old.

Definition avgLatency (old sample : f64) : f64 :=
  if old =.? fzero then sample else old ⊠ f64_lit 9 10 ⊞ sample ⊠ f64_lit 1 10.

Definition calculateAverageLatency (history : list f64) : f64 :=
  match history with
  | [] => fzero
  | _ => foldl fadd fzero history ⊘ f64_of_Z (Z.of_nat (length history))
  end.

(** *** A success on an entry ([ReportSuccess], local mode) *)
Definition successEntry (cfg : Config) (now nowUsage : time) (metrics : ResponseMetrics)
  (st : statsEntry) : statsEntry :=
  let latencyMs := f64_of_Z (milliseconds metrics.(Latency)) in
  let ttftMs := f64_of_Z (milliseconds metrics.(TimeToFirstToken)) in
  let streaming := 0 <? metrics.(TimeToFirstToken) in
  let alpha := ewmaAlpha cfg in
  let st := st<|entry ::= fun e => e<|TotalRequests ::= fun n => n +! 1|>
                                    <|SuccessCount ::= fun n => n +! 1|>
                                    <|LastRequestTime := now|>|> in
  let st := recordWindowSuccess st now in
  let st := st<|entry ::= fun e =>
    let e := e<|LatencyHistory ::= fun h => appendToHistory h latencyMs e.(MaxLatencyListSize)|> in
    let e := if streaming
             then e<|TTFTHistory ::= fun h => appendToHistory h ttftMs e.(MaxLatencyListSize)|>
             else e in
    let e := e<|AvgLatencyMs ::= fun a => avgLatency a latencyMs|> in
    let e := e<|EWMALatencyMs ::= fun a => ewma alpha a latencyMs|> in
    let e := if streaming then e<|EWMAAvgTTFTMs ::= fun a => ewma alpha a ttftMs|> else e in
    e<|EWMASuccessRate ::= fun a => ewmaRate alpha fone a|>|> in
  updateUsageStats nowUsage metrics.(TotalTokens) st.

(** *** A failure on an entry ([ReportFailure], local mode)

    [nowCool] is read when the cooldown is set. *)
Definition startCooldown (cfg : Config) (nowCool : time) (st : statsEntry) : statsEntry :=
  st<|entry ::= fun e => e<|CooldownUntil := time_add nowCool cfg.(CooldownPeriod)|>|>.

Definition countFailure (now : time) (st : statsEntry) : statsEntry :=
  recordWindowFailure
    (st<|entry ::= fun e => e<|TotalRequests ::= fun n => n +! 1|>
                             <|FailureCount ::= fun n => n +! 1|>
                             <|LastRequestTime := now|>|>) now.

(** The statuses that put a deployment in cooldown at once. *)
Definition immediateCooldown (cfg : Config) (single : bool) (e : LLMError) : bool :=
  (cfg.(ImmediateCooldownOn429) && (e.(StatusCode) =? 429) && negb single)
  || (e.(StatusCode) =? 401) || (e.(StatusCode) =? 404) || (e.(StatusCode) =? 408).

Definition penalise (e : LLMError) (st : statsEntry) : statsEntry :=
  if (e.(StatusCode) =? 408) || (e.(StatusCode) =? 504)
  then st<|entry ::= fun en =>
         en<|LatencyHistory ::= fun h => appendToHistory h (f64_of_Z 1000000) en.(MaxLatencyListSize)|>|>
  else st.

(** The entry after the failure, and whether the failure started a cooldown. *)
Definition failureEntry (cfg : Config) (single : bool) (now nowCool : time) (err : go_error)
  (st : statsEntry) : statsEntry * bool :=
  let st := countFailure now st in
  let llmErr := errors_As err in
  if default false (immediateCooldown cfg single <$> llmErr) then (startCooldown cfg nowCool st, true)
  else
    let st := match llmErr with Some e => penalise e st | None => st end in
    let cool := shouldCooldownByFailureRate cfg st now single in
    let st := if cool then startCooldown cfg nowCool st else st in
    (st<|entry ::= fun en => en<|EWMASuccessRate ::= ewmaRate (ewmaAlpha cfg) fzero|>|>, cool).

(** ** Router operations *)

Section Operations.
Context {S : Type} `{!StatsStore S}.
Implicit Types r : BaseRouter S.

(** The name a deployment is registered under. *)
Definition routeModel (d : Deployment) : string :=
  if String.eqb d.(ModelAlias) "" then d.(ModelName) else d.(ModelAlias).

Definition append_at {A : Type} (k : string) (x : A) (m : gmap string (list A)) : gmap string (list A) :=
  <[k := default [] (m !! k) ++ [x]]> m.

Definition AddDeploymentWithConfig (r : BaseRouter S) (d : Deployment) (c : DeploymentConfig) : BaseRouter S :=
  let model := routeModel d in
  let extended := {| Dep := d; DConfig := c |} in
  let r := r<|deployments ::= append_at model extended|> in
  let r := if negb (String.eqb d.(ProviderName) "") && negb (String.eqb model "")
           then r<|deployments ::= append_at (d.(ProviderName) +:+ "/" +:+ model) extended|>
           else r in
  r<|stats ::= <[d.(ID) := newStatsEntry r.(config)]>|>.

Definition AddDeployment (r : BaseRouter S) (d : Deployment) : BaseRouter S :=
  AddDeploymentWithConfig r d zeroDeploymentConfig.

Definition has_id (id : string) (d : ExtendedDeployment) : bool := String.eqb d.(Dep).(ID) id.

Definition RemoveDeployment (r : BaseRouter S) (id : string) : BaseRouter S :=
  r<|deployments ::= fmap (remove_first (has_id id))|><|stats ::= delete id|>.

(** The deployments of a model, under its full name or else without its
    provider prefix. *)
Definition lookupDeployments (r : BaseRouter S) (model : string) : list ExtendedDeployment :=
  match default [] (r.(deployments) !! model) with
  | [] =>
      let stripped := (SplitProviderModel model).2 in
      if negb (String.eqb stripped "") && negb (String.eqb stripped model)
      then default [] (r.(deployments) !! stripped) else []
  | deps => deps
  end.

Definition GetDeployments (r : BaseRouter S) (model : string) : list Deployment :=
  Dep <$> lookupDeployments r model.

Definition snapshotDeployments (r : BaseRouter S) (model : string) : list ExtendedDeployment :=
  lookupDeployments r model.

Definition isSingleDeployment (r : BaseRouter S) (d : Deployment) : bool :=
  (length (default [] (r.(deployments) !! routeModel d)) =? 1)%nat.

(** *** Statistics *)

Definition localStatsKey (ctx : context) (id : string) : string :=
  let scope := TenantScopeFromContext ctx in
  if String.eqb scope "" then id else scope +:+ ":" +:+ id.

Definition getOrCreateStats (r : BaseRouter S) (key : string) : statsEntry :=
  default (newStatsEntry r.(config)) (r.(stats) !! key).

Definition localStatsSnapshot (r : BaseRouter S) (id : string) : option DeploymentStats :=
  entry <$> r.(stats) !! id.

Definition GetRouterStats (r : BaseRouter S) (id : string) : option DeploymentStats :=
  match r.(statsStore) with
  | Some store =>
      match GetStats Background id store with
      | inr st => Some st
      | inl ErrStatsNotFound => None
      | inl _ => localStatsSnapshot r id
      end
  | None => localStatsSnapshot r id
  end.

(** The statistics a pick uses for one deployment, if any. *)
Definition statsFor (r : BaseRouter S) (ctx : context) (id : string) : option DeploymentStats :=
  match r.(statsStore) with
  | Some store =>
      match GetStats ctx id store with
      | inr st => Some st
      | inl ErrStatsNotFound => None
      | inl _ => localStatsSnapshot r id
      end
  | None => entry <$> r.(stats) !! localStatsKey ctx id
  end.

Definition statsSnapshot (r : BaseRouter S) (ctx : context) (deps : list ExtendedDeployment) :
  gmap string DeploymentStats :=
  foldl (fun m d => match statsFor r ctx d.(Dep).(ID) with
                    | Some st => <[d.(Dep).(ID) := st]> m
                    | None => m
                    end) ∅ deps.

(** *** Cooldowns *)

Definition IsCircuitOpen (now : time) (r : BaseRouter S) (d : Deployment) : bool :=
  match r.(statsStore) with
  | Some store =>
      match GetCooldownUntil Background d.(ID) store with
      | inl _ => false
      | inr until => before now until
      end
  | None =>
      match r.(stats) !! d.(ID) with
      | None => false
      | Some st => before now st.(entry).(CooldownUntil)
      end
  end.

(** Emits the cooldown metric when a new cooldown starts. *)
Definition recordCooldownMetric (now : time) (d : option Deployment) (bef aft : time)
  (r : BaseRouter S) : BaseRouter S :=
  match d with
  | None => r
  | Some d =>
      if is_zero aft then r
      else if after now aft then r
      else if negb (is_zero bef) && before now bef then r
      else r<|emitted ::= fun l => l ++ [RecordDeploymentCooldown d.(ID) d.(ModelName)
                                           d.(ModelAlias) d.(ProviderName) d.(BaseURL)]|>
  end.

(** The scan visits the map in an order the language leaves open: [order] is
    the keys in the order of the visit. *)
Definition findDeploymentByID (order : list string) (r : BaseRouter S) (id : string) : option Deployment :=
  Dep <$> head (keep (has_id id) (order ≫= fun k => default [] (r.(deployments) !! k))).

Definition zero_on_error (x : store_err + time) : time :=
  match x with inr t => t | inl _ => zero_time end.

Definition SetRouterCooldown (order : list string) (now : time) (r : BaseRouter S)
  (id : string) (until : time) : BaseRouter S * option store_err :=
  match r.(statsStore) with
  | Some store =>
      let bef := zero_on_error (GetCooldownUntil Background id store) in
      let '(store, err) := SetCooldown Background id until store in
      let r := r<|statsStore := Some store|> in
      match err with
      | Some e => (r, Some e)
      | None => (recordCooldownMetric now (findDeploymentByID order r id) bef until r, None)
      end
  | None =>
      let st := getOrCreateStats r id in
      let r' := r<|stats ::= <[id := st<|entry ::= fun e => e<|CooldownUntil := until|>|>]>|> in
      (recordCooldownMetric now (findDeploymentByID order r' id) st.(entry).(CooldownUntil) until r', None)
  end.

(** *** Reports *)

Definition emit (ev : metric_event) (r : BaseRouter S) : BaseRouter S :=
  r<|emitted ::= fun l => l ++ [ev]|>.

(** A lock around an update of one local entry, created on first use. *)
Definition with_entry (r : BaseRouter S) (key : string) (f : statsEntry -> statsEntry) : BaseRouter S :=
  r<|stats ::= <[key := f (getOrCreateStats r key)]>|>.

Definition ReportRequestStart (r : BaseRouter S) (ctx : context) (d : Deployment) : BaseRouter S :=
  let r := emit (RecordActiveRequest d.(ID) d.(ModelName) d.(ProviderName) 1) r in
  match r.(statsStore) with
  | Some store => r<|statsStore := Some (IncrementActiveRequests ctx d.(ID) store).1|>
  | None =>
      with_entry r (localStatsKey ctx d.(ID)) (fun st =>
        st<|entry ::= fun e => e<|ActiveRequests ::= fun n => n +! 1|>|>)
  end.

Definition ReportRequestEnd (r : BaseRouter S) (ctx : context) (d : Deployment) : BaseRouter S :=
  let r := emit (RecordActiveRequest d.(ID) d.(ModelName) d.(ProviderName) (-1)) r in
  match r.(statsStore) with
  | Some store => r<|statsStore := Some (DecrementActiveRequests ctx d.(ID) store).1|>
  | None =>
      with_entry r (localStatsKey ctx d.(ID)) (fun st =>
        st<|entry ::= fun e => if 0 <? e.(ActiveRequests)
                               then e<|ActiveRequests ::= fun n => n -! 1|> else e|>)
  end.

Definition ReportSuccess (now nowUsage : time) (r : BaseRouter S) (ctx : context) (d : Deployment)
  (metrics : ResponseMetrics) : BaseRouter S :=
  match r.(statsStore) with
  | Some store => r<|statsStore := Some (RecordSuccess now ctx d.(ID) metrics store).1|>
  | None => with_entry r (localStatsKey ctx d.(ID)) (successEntry r.(config) now nowUsage metrics)
  end.

Definition ReportFailure (now nowCool nowMetric : time) (r : BaseRouter S) (ctx : context)
  (d : Deployment) (err : go_error) : BaseRouter S :=
  let single := isSingleDeployment r d in
  match r.(statsStore) with
  | Some store =>
      let bef := zero_on_error (GetCooldownUntil ctx d.(ID) store) in
      let store := match RecordFailureWithOptions with
                   | Some record => (record now ctx d.(ID) err single store).1
                   | None => (RecordFailure now ctx d.(ID) err store).1
                   end in
      let aft := zero_on_error (GetCooldownUntil ctx d.(ID) store) in
      recordCooldownMetric nowMetric (Some d) bef aft (r<|statsStore := Some store|>)
  | None =>
      let key := localStatsKey ctx d.(ID) in
      let st := getOrCreateStats r key in
      let '(st', cooled) := failureEntry r.(config) single now nowCool err st in
      let r := r<|stats ::= <[key := st']>|> in
      if cooled
      then recordCooldownMetric nowMetric (Some d) st.(entry).(CooldownUntil) st'.(entry).(CooldownUntil) r
      else r
  end.

(** ** Candidate filters *)

Definition getHealthyDeployments (now : time) (deps : list ExtendedDeployment)
  (statsByID : gmap string DeploymentStats) : list ExtendedDeployment :=
  keep (fun d => match statsByID !! d.(Dep).(ID) with
                 | None => true
                 | Some st => after now st.(CooldownUntil)
                 end) deps.

Definition containsTag (tags : list string) (tag : string) : bool := existsb (String.eqb tag) tags.

Definition hasMatchingTag (deploymentTags requestTags : list string) : bool :=
  existsb (fun dt => existsb (String.eqb dt) requestTags) deploymentTags.

(** The first non-empty list. *)
Definition or_else {A : Type} (l l' : list A) : list A := match l with [] => l' | _ => l end.

Definition filterByTags (deps : list ExtendedDeployment) (tags : list string) : list ExtendedDeployment :=
  match tags with
  | [] => or_else (keep (fun d => containsTag d.(DConfig).(Tags) "default") deps) deps
  | _ =>
      let tagged := keep (fun d => negb (length d.(DConfig).(Tags) =? 0)%nat) deps in
      or_else (keep (fun d => hasMatchingTag d.(DConfig).(Tags) tags) tagged)
        (keep (fun d => containsTag d.(DConfig).(Tags) "default") tagged)
  end.

Definition filterByDefaultProvider (cfg : Config) (deps : list ExtendedDeployment) : list ExtendedDeployment :=
  if String.eqb cfg.(DefaultProvider) "" then deps
  else or_else (keep (fun d => String.eqb d.(Dep).(ProviderName) cfg.(DefaultProvider)) deps) deps.

Definition withinLimits (statsByID : gmap string DeploymentStats) (inputTokens : Z)
  (d : ExtendedDeployment) : bool :=
  match statsByID !! d.(Dep).(ID) with
  | None => true
  | Some st =>
      if (0 <? d.(DConfig).(TPMLimit)) && (d.(DConfig).(TPMLimit) <? st.(CurrentMinuteTPM) +! inputTokens)
      then false
      else if (0 <? d.(DConfig).(RPMLimit)) && (d.(DConfig).(RPMLimit) <? st.(CurrentMinuteRPM) +! 1)
      then false
      else true
  end.

Definition filterByTPMRPM (deps : list ExtendedDeployment) (statsByID : gmap string DeploymentStats)
  (inputTokens : Z) : list ExtendedDeployment :=
  keep (withinLimits statsByID inputTokens) deps.
End Operations.
