(* ===== verification/Strategies.v ===== *)
(** * Routing strategies ([routers/*.go])

    [PickWithContext] of each strategy, written over the filters of
    [BaseRouter].  The random generator is an oracle of draws. *)
From S2P Require Import Prelude Float64 Errors ModelName RouterTypes StatsStore BaseRouter.

(** ** Randomness

    [draw_intn] is the raw draw behind [Intn(n)], reduced modulo [n];
    [draw_float] is the result of [Float64]; [draw_shuffle] gives the draw of
    each step of [Shuffle]. *)
Record Rand := {
  draw_intn : nat;
  draw_float : f64;
  draw_shuffle : nat -> nat;
}.

(** [l[rng.Intn(len(l))]]: [Intn(0)] panics. *)
Definition pick_random {E A : Type} (g : Rand) (l : list A) : outcome E A :=
  match l with
  | [] => Panic
  | _ => index l (g.(draw_intn) mod length l)%nat
  end.

Definition ok_or {A : Type} (e : route_err) (l : list A) : outcome route_err (list A) :=
  match l with [] => Err e | _ => Ok l end.

(** ** Model prices ([pkg/pricing/registry.go]) *)

Record ModelPrice := {
  PInputCostPerToken : f64;
  POutputCostPerToken : f64;
}.

Definition Registry := gmap string ModelPrice.

(** [loadBytes]: [decode] is the JSON decoding of a price table; the decoded
    entries replace those of the registry. *)
Definition loadBytes (decode : string -> option Registry) (data : string) (r : Registry) : option Registry :=
  match decode data with
  | None => None
  | Some prices => Some (prices ∪ r)
  end.

Definition GetPrice (r : Registry) (model provider : string) : option ModelPrice :=
  match r !! (provider +:+ "/" +:+ model) with
  | Some p => Some p
  | None => r !! model
  end.

Section Strategies.
Context {S : Type} `{!StatsStore S}.
Implicit Types r : BaseRouter S.

(** ** Shared steps of the picks *)

(** The registered deployments of the model that are not in cooldown, with
    the statistics read for them. *)
Definition healthyFor (now : time) (r : BaseRouter S) (ctx : context) (model : string) :
  outcome route_err (list ExtendedDeployment * gmap string DeploymentStats) :=
  let! deps := ok_or ErrNoAvailableDeployment (snapshotDeployments r model) in
  let statsByID := statsSnapshot r ctx deps in
  let! healthy := ok_or ErrNoAvailableDeployment (getHealthyDeployments now deps statsByID) in
  Ok (healthy, statsByID).

Definition tagStep (cfg : Config) (req : RequestContext) (l : list ExtendedDeployment) :
  outcome route_err (list ExtendedDeployment) :=
  if cfg.(EnableTagFiltering) && negb (length req.(ReqTags) =? 0)%nat
  then ok_or ErrNoDeploymentsWithTag (filterByTags l req.(ReqTags))
  else Ok l.

Definition limitStep (statsByID : gmap string DeploymentStats) (req : RequestContext)
  (l : list ExtendedDeployment) : outcome route_err (list ExtendedDeployment) :=
  if 0 <? req.(EstimatedInputTokens)
  then ok_or ErrNoAvailableDeployment (filterByTPMRPM l statsByID req.(EstimatedInputTokens))
  else Ok l.

(** Healthy, tag-filtered and within limits: the common prefix of the
    strategies. *)
Definition eligible (now : time) (r : BaseRouter S) (ctx : context) (req : RequestContext) :
  outcome route_err (list ExtendedDeployment * gmap string DeploymentStats) :=
  let! (healthy, statsByID) := healthyFor now r ctx req.(Model) in
  let! healthy := tagStep r.(config) req healthy in
  let! healthy := limitStep statsByID req healthy in
  Ok (healthy, statsByID).

Definition deployment_of {E : Type} (m : outcome E ExtendedDeployment) : outcome E Deployment :=
  let! d := m in Ok d.(Dep).

(** ** BaseRouter and TagBasedRouter: uniform choice *)

Definition Base_PickWithContext (now : time) (g : Rand) (r : BaseRouter S) (ctx : context)
  (req : RequestContext) : outcome route_err Deployment :=
  let! (healthy, _) := healthyFor now r ctx req.(Model) in
  let! healthy := tagStep r.(config) req healthy in
  deployment_of (pick_random g (filterByDefaultProvider r.(config) healthy)).

Definition TagBased_PickWithContext (now : time) (g : Rand) (r : BaseRouter S) (ctx : context)
  (req : RequestContext) : outcome route_err Deployment :=
  let! (healthy, statsByID) := healthyFor now r ctx req.(Model) in
  let! filtered := ok_or ErrNoDeploymentsWithTag (filterByTags healthy req.(ReqTags)) in
  let! filtered := limitStep statsByID req filtered in
  deployment_of (pick_random g (filterByDefaultProvider r.(config) filtered)).

(** ** LeastBusyRouter *)

Definition activeRequests (statsByID : gmap string DeploymentStats) (d : ExtendedDeployment) : Z :=
  match statsByID !! d.(Dep).(ID) with Some st => st.(ActiveRequests) | None => 0 end.

Definition LeastBusy_PickWithContext (now : time) (g : Rand) (r : BaseRouter S) (ctx : context)
  (req : RequestContext) : outcome route_err Deployment :=
  let! (healthy, statsByID) := eligible now r ctx req in
  let healthy := filterByDefaultProvider r.(config) healthy in
  let candidates := rand_shuffle g.(draw_shuffle)
    ((fun d => (d, activeRequests statsByID d)) <$> healthy) in
  match min_scan snd candidates with
  | Some (d, _) => Ok d.(Dep)
  | None => let! (d, _) := pick_random g candidates in Ok d.(Dep)
  end.

(** ** TPMRPMRouter *)

Definition currentUsage (statsByID : gmap string DeploymentStats) (d : ExtendedDeployment) : Z * Z :=
  match statsByID !! d.(Dep).(ID) with
  | Some st => (st.(CurrentMinuteTPM), st.(CurrentMinuteRPM))
  | None => (0, 0)
  end.

(** A candidate stays when the request would keep it within its limits. *)
Definition tpmrpmEligible (estimated : Z) (c : ExtendedDeployment * (Z * Z)) : bool :=
  let '(d, (tpm, rpm)) := c in
  if (0 <? d.(DConfig).(TPMLimit)) && (d.(DConfig).(TPMLimit) <? tpm +! estimated) then false
  else if (0 <? d.(DConfig).(RPMLimit)) && (d.(DConfig).(RPMLimit) <=? rpm +! 1) then false
  else true.

(** The candidates the default-provider preference leaves in the scan: all of
    them, or those with the ID of a preferred deployment. *)
Definition allowedCandidates (cfg : Config) (el : list (ExtendedDeployment * (Z * Z))) :
  list (ExtendedDeployment * (Z * Z)) :=
  let preferred := filterByDefaultProvider cfg el.*1 in
  if (length preferred <? length el)%nat
  then keep (fun c => existsb (fun p => String.eqb p.(Dep).(ID) c.1.(Dep).(ID)) preferred) el
  else el.

Definition TPMRPM_PickWithContext (now : time) (g : Rand) (r : BaseRouter S) (ctx : context)
  (req : RequestContext) : outcome route_err Deployment :=
  let! (healthy, statsByID) := healthyFor now r ctx req.(Model) in
  let! healthy := tagStep r.(config) req healthy in
  let candidates := rand_shuffle g.(draw_shuffle)
    ((fun d => (d, currentUsage statsByID d)) <$> healthy) in
  let estimated := if req.(EstimatedInputTokens) =? 0 then 100 else req.(EstimatedInputTokens) in
  let! el := ok_or ErrNoAvailableDeployment (keep (tpmrpmEligible estimated) candidates) in
  match min_scan (fun c => c.2.1) (allowedCandidates r.(config) el) with
  | Some (d, _) => Ok d.(Dep)
  | None => Err ErrNoAvailableDeployment
  end.

(** ** CostRouter *)

Definition UnknownModelCost : f64 := fone.

Definition deploymentCost (reg : Registry) (d : ExtendedDeployment) : f64 :=
  let inputCost := d.(DConfig).(InputCostPerToken) in
  let outputCost := d.(DConfig).(OutputCostPerToken) in
  let '(inputCost, outputCost) :=
    if (inputCost =.? fzero) && (outputCost =.? fzero) then
      match GetPrice reg d.(Dep).(ModelName) d.(Dep).(ProviderName) with
      | Some p => (p.(PInputCostPerToken), p.(POutputCostPerToken))
      | None => (inputCost, outputCost)
      end
    else (inputCost, outputCost) in
  let inputCost := if inputCost =.? fzero then UnknownModelCost else inputCost in
  let outputCost := if outputCost =.? fzero then UnknownModelCost else outputCost in
  inputCost ⊞ outputCost.

Definition Cost_PickWithContext (now : time) (g : Rand) (reg : Registry) (r : BaseRouter S)
  (ctx : context) (req : RequestContext) : outcome route_err Deployment :=
  let! (healthy, statsByID) := eligible now r ctx req in
  let healthy := filterByDefaultProvider r.(config) healthy in
  let candidates := rand_shuffle g.(draw_shuffle) ((fun d => (d, deploymentCost reg d)) <$> healthy) in
  let! (d, _) := index (sort_slice_stable (fun a b => a.2 <.? b.2) candidates) 0 in
  Ok d.(Dep).

(** ** ShuffleRouter: weighted choice *)

Inductive weightType := ByWeight | ByRPM | ByTPM.

Definition weightOf (w : weightType) (d : ExtendedDeployment) : f64 :=
  match w with
  | ByWeight => d.(DConfig).(Weight)
  | ByRPM => f64_of_Z d.(DConfig).(RPMLimit)
  | ByTPM => f64_of_Z d.(DConfig).(TPMLimit)
  end.

(** The first position whose cumulative weight reaches the draw. *)
Fixpoint cumulativePick (x acc : f64) (l : list (ExtendedDeployment * f64)) : option ExtendedDeployment :=
  match l with
  | [] => None
  | (d, w) :: l' =>
      let acc := acc ⊞ w in
      if x <=.? acc then Some d else cumulativePick x acc l'
  end.

(** [Ok None] is the nil result: the caller tries the next weight. *)
Definition weightedPick (g : Rand) (deps : list ExtendedDeployment) (w : weightType) :
  outcome route_err (option Deployment) :=
  let weights := weightOf w <$> deps in
  if negb (existsb (fun x => fzero <.? x) weights) then Ok None
  else
    let total := foldl fadd fzero weights in
    if total =.? fzero then Ok None
    else
      let weighted := (fun d => (d, weightOf w d ⊘ total)) <$> deps in
      match cumulativePick g.(draw_float) fzero weighted with
      | Some d => Ok (Some d.(Dep))
      | None => let! d := index deps (length deps - 1) in Ok (Some d.(Dep))
      end.

Definition Shuffle_PickWithContext (now : time) (g : Rand) (r : BaseRouter S) (ctx : context)
  (req : RequestContext) : outcome route_err Deployment :=
  let! (healthy, statsByID) := eligible now r ctx req in
  let healthy := filterByDefaultProvider r.(config) healthy in
  let! byWeight := weightedPick g healthy ByWeight in
  match byWeight with
  | Some d => Ok d
  | None =>
      let! byRPM := weightedPick g healthy ByRPM in
      match byRPM with
      | Some d => Ok d
      | None =>
          let! byTPM := weightedPick g healthy ByTPM in
          match byTPM with
          | Some d => Ok d
          | None => deployment_of (pick_random g healthy)
          end
      end
  end.

(** ** LatencyRouter *)

Definition latencyOf (statsByID : gmap string DeploymentStats) (streaming : bool)
  (d : ExtendedDeployment) : f64 :=
  match statsByID !! d.(Dep).(ID) with
  | None => fzero
  | Some st =>
      if streaming && (fzero <.? st.(EWMAAvgTTFTMs)) then st.(EWMAAvgTTFTMs)
      else if negb streaming && (fzero <.? st.(EWMALatencyMs)) then st.(EWMALatencyMs)
      else if streaming && negb (length st.(TTFTHistory) =? 0)%nat
      then calculateAverageLatency st.(TTFTHistory)
      else if negb (length st.(LatencyHistory) =? 0)%nat
      then calculateAverageLatency st.(LatencyHistory)
      else fzero
  end.

Definition latencyWeight (statsByID : gmap string DeploymentStats) (custom : bool)
  (c : ExtendedDeployment * f64) : f64 :=
  let successRate := match statsByID !! c.1.(Dep).(ID) with
                     | Some st => st.(EWMASuccessRate) | None => fone end in
  let latency := if c.2 <=.? fzero then fone else c.2 in
  let baseWeight := if custom then c.1.(DConfig).(Weight) else fone in
  (baseWeight ⊠ (successRate ⊠ successRate)) ⊘ latency.

(** The first candidate whose running weight passes the target. *)
Fixpoint runningPick (target acc : f64) (l : list (ExtendedDeployment * f64)) : option ExtendedDeployment :=
  match l with
  | [] => None
  | (d, w) :: l' =>
      let acc := acc ⊞ w in
      if target <.? acc then Some d else runningPick target acc l'
  end.

Definition Latency_PickWithContext (now : time) (g : Rand) (r : BaseRouter S) (ctx : context)
  (req : RequestContext) : outcome route_err Deployment :=
  let! (healthy, statsByID) := eligible now r ctx req in
  let healthy := filterByDefaultProvider r.(config) healthy in
  let candidates := rand_shuffle g.(draw_shuffle)
    ((fun d => (d, latencyOf statsByID req.(IsStreaming) d)) <$> healthy) in
  let candidates := sort_slice_stable (fun a b => a.2 <.? b.2) candidates in
  let! (_, lowestLatency) := index candidates 0 in
  if lowestLatency =.? fzero then
    let! (d, _) := pick_random g candidates in Ok d.(Dep)
  else
    let threshold := lowestLatency ⊞ r.(config).(LatencyBuffer) ⊠ lowestLatency in
    let validCandidates := keep (fun c => c.2 <=.? threshold) candidates in
    let custom := existsb (fun c => fzero <.? c.1.(DConfig).(Weight)) validCandidates in
    let weighted := (fun c => (c.1, latencyWeight statsByID custom c)) <$> validCandidates in
    let totalWeight := foldl fadd fzero weighted.*2 in
    let choice := if fzero <.? totalWeight
                  then runningPick (g.(draw_float) ⊠ totalWeight) fzero weighted else None in
    match choice with
    | Some d => Ok d.(Dep)
    | None => let! (d, _) := pick_random g validCandidates in Ok d.(Dep)
    end.
End Strategies.

(** ** RoundRobinRouter and its shared counters ([round_robin.go], [round_robin_store.go]) *)

(** A store of round-robin counters: the next index, or an error. *)
Class RoundRobinStore (R : Type) := {
  NextIndex : string -> Z -> R -> R * option Z;
}.

Module MemoryRR.
Definition MemoryRoundRobinStore := gmap string Z.
Definition NewMemoryRoundRobinStore : MemoryRoundRobinStore := ∅.

Definition mem_NextIndex (key : string) (modulo : Z) (m : MemoryRoundRobinStore) :
  MemoryRoundRobinStore * option Z :=
  if modulo <=? 0 then (m, None)
  else
    let next := default 0 (m !! key) in
    (<[key := wrapu64 (next + 1)]> m, Some (next mod modulo)).

Definition Reset (key : string) (m : MemoryRoundRobinStore) : MemoryRoundRobinStore := delete key m.

#[export] Instance memory_rr_store : RoundRobinStore MemoryRoundRobinStore :=
  { NextIndex := mem_NextIndex }.
End MemoryRR.

Record RoundRobinRouter (S R : Type) := {
  base : BaseRouter S;
  counters : gmap string Z;
  rrStore : option R;
}.
Arguments base {S R}.
Arguments counters {S R}.
Arguments rrStore {S R}.

Section RoundRobin.
Context {S R : Type} `{!StatsStore S} `{!RoundRobinStore R}.

Definition canonicalModelKey (model : string) : string := (SplitProviderModel model).2.

(** The local counter: an atomic 64-bit counter per model. *)
Definition localNext (r : RoundRobinRouter S R) (model : string) (count : Z) : RoundRobinRouter S R * Z :=
  let next := default 0 (r.(counters) !! model) in
  (r<|counters ::= <[model := wrapu64 (next + 1)]>|>, next mod count).

Definition nextIndex (r : RoundRobinRouter S R) (model : string) (count : Z) : RoundRobinRouter S R * Z :=
  if count <=? 0 then (r, 0)
  else
    match r.(rrStore) with
    | Some store =>
        let '(store, res) := NextIndex model count store in
        let r := r<|rrStore := Some store|> in
        match res with
        | Some idx => if (0 <=? idx) && (idx <? count) then (r, idx) else localNext r model count
        | None => localNext r model count
        end
    | None => localNext r model count
    end.

Definition RoundRobin_PickWithContext (now : time) (r : RoundRobinRouter S R) (ctx : context)
  (req : RequestContext) : RoundRobinRouter S R * outcome route_err Deployment :=
  match eligible now r.(base) ctx req with
  | Ok (healthy, _) =>
      let '(r, idx) := nextIndex r (canonicalModelKey req.(Model)) (Z.of_nat (length healthy)) in
      (r, deployment_of (index healthy (Z.to_nat idx)))
  | Err e => (r, Err e)
  | Panic => (r, Panic)
  end.
End RoundRobin.
