(* ===== verification/Factory.v ===== *)
(** * Building a router ([routers/factory.go]) and the [Router] interface

    A router is one of the seven strategies over the base router it embeds.  The
    operations a strategy does not override are the base router's, promoted by
    the embedding: [promote] is that promotion. *)
From S2P Require Import Prelude Float64 Errors ModelName RouterTypes StatsStore BaseRouter Strategies.

Inductive Router (S R : Type) :=
| RoundRobin (r : RoundRobinRouter S R)
| Shuffle (b : BaseRouter S)
| Lowest_Latency (b : BaseRouter S)
| Least_Busy (b : BaseRouter S)
| TPMRPM (b : BaseRouter S)
| Cost (b : BaseRouter S) (registry : Registry)
| TagBased (b : BaseRouter S).
Arguments RoundRobin {S R} r.
Arguments Shuffle {S R} b.
Arguments Lowest_Latency {S R} b.
Arguments Least_Busy {S R} b.
Arguments TPMRPM {S R} b.
Arguments Cost {S R} b registry.
Arguments TagBased {S R} b.

Inductive factory_err :=
| ErrLoadPricing (file : string)
| ErrUnknownStrategy (s : string).

Section Factory.
Context {S R : Type} `{!StatsStore S} `{!RoundRobinStore R}.

(** The embedded price table, the file system ([None] is a read error), and the
    JSON decoding of a price table. *)
Context (defaultPrices : string) (readFile : string -> option string) (decode : string -> option Registry).

Definition NewRegistry : Registry :=
  match loadBytes decode defaultPrices ∅ with
  | Some r => r
  | None => ∅
  end.

Definition Load (path : string) (reg : Registry) : option Registry :=
  match readFile path with
  | None => None
  | Some data => loadBytes decode data reg
  end.

(** The prices of a file that can be read and decoded. *)
Definition readPrices (path : string) : option Registry := readFile path ≫= decode.

Definition newBase (config : Config) (store : option S) : BaseRouter S :=
  match store with
  | Some s => NewBaseRouterWithStore config s
  | None => NewBaseRouter config
  end.

Definition newRoundRobinRouterWithStores (config : Config) (store : option S) (rr : option R) :
  RoundRobinRouter S R :=
  {| base := newBase (config<|CStrategy := StrategyRoundRobin|>) store; counters := ∅; rrStore := rr |}.

Definition newShuffleRouterWithStore (config : Config) (store : option S) : BaseRouter S :=
  newBase (config<|CStrategy := StrategySimpleShuffle|>) store.

Definition newLatencyRouterWithStore (config : Config) (store : option S) : BaseRouter S :=
  newBase (config<|CStrategy := StrategyLowestLatency|>) store.

Definition newLeastBusyRouterWithStore (config : Config) (store : option S) : BaseRouter S :=
  newBase (config<|CStrategy := StrategyLeastBusy|>) store.

Definition newTPMRPMRouterWithStore (config : Config) (store : option S) : BaseRouter S :=
  newBase (config<|CStrategy := StrategyLowestTPMRPM|>) store.

(** A price file that cannot be loaded leaves the default prices. *)
Definition newCostRouterWithStore (config : Config) (store : option S) : BaseRouter S * Registry :=
  (newBase (config<|CStrategy := StrategyLowestCost|>) store,
   if String.eqb config.(PricingFile) "" then NewRegistry
   else default NewRegistry (Load config.(PricingFile) NewRegistry)).

Definition newTagBasedRouterWithStore (config : Config) (store : option S) : BaseRouter S :=
  newBase (config<|CStrategy := StrategyTagBased|><|EnableTagFiltering := true|>) store.

Definition NewWithStores (config : Config) (store : option S) (rr : option R) :
  factory_err + Router S R :=
  let s := config.(CStrategy) in
  if String.eqb s StrategyRoundRobin then inr (RoundRobin (newRoundRobinRouterWithStores config store rr))
  else if String.eqb s StrategySimpleShuffle || String.eqb s ""
  then inr (Shuffle (newShuffleRouterWithStore config store))
  else if String.eqb s StrategyLowestLatency then inr (Lowest_Latency (newLatencyRouterWithStore config store))
  else if String.eqb s StrategyLeastBusy then inr (Least_Busy (newLeastBusyRouterWithStore config store))
  else if String.eqb s StrategyLowestTPMRPM then inr (TPMRPM (newTPMRPMRouterWithStore config store))
  else if String.eqb s StrategyLowestCost then
    if negb (String.eqb config.(PricingFile) "") && negb (bool_decide (is_Some (Load config.(PricingFile) NewRegistry)))
    then inl (ErrLoadPricing config.(PricingFile))
    else let '(b, reg) := newCostRouterWithStore config store in inr (Cost b reg)
  else if String.eqb s StrategyTagBased then inr (TagBased (newTagBasedRouterWithStore config store))
  else inl (ErrUnknownStrategy s).

Definition NewWithStore (config : Config) (store : option S) : factory_err + Router S R :=
  NewWithStores config store None.

Definition New (config : Config) : factory_err + Router S R := NewWithStore config None.

(** [None] would be a nil router. *)
Definition MustNew (config : Config) : option (Router S R) :=
  match New config with
  | inr r => Some r
  | inl _ => match New (config<|CStrategy := StrategySimpleShuffle|>) with
             | inr r => Some r
             | inl _ => None
             end
  end.

Definition AvailableStrategies : list Strategy :=
  [StrategyRoundRobin; StrategySimpleShuffle; StrategyLowestLatency; StrategyLeastBusy;
   StrategyLowestTPMRPM; StrategyLowestCost; StrategyTagBased].

Definition IsValidStrategy (s : string) : bool := existsb (String.eqb s) AvailableStrategies.

(** ** The interface *)

Definition baseOf (rt : Router S R) : BaseRouter S :=
  match rt with
  | RoundRobin r => r.(base)
  | Shuffle b | Lowest_Latency b | Least_Busy b | TPMRPM b | Cost b _ | TagBased b => b
  end.

Definition promote (f : BaseRouter S -> BaseRouter S) (rt : Router S R) : Router S R :=
  match rt with
  | RoundRobin r => RoundRobin (r<|base ::= f|>)
  | Shuffle b => Shuffle (f b)
  | Lowest_Latency b => Lowest_Latency (f b)
  | Least_Busy b => Least_Busy (f b)
  | TPMRPM b => TPMRPM (f b)
  | Cost b reg => Cost (f b) reg
  | TagBased b => TagBased (f b)
  end.

Definition PickWithContext (now : time) (g : Rand) (rt : Router S R) (ctx : context) (req : RequestContext) :
  Router S R * outcome route_err Deployment :=
  match rt with
  | RoundRobin r => let '(r, res) := RoundRobin_PickWithContext now r ctx req in (RoundRobin r, res)
  | Shuffle b => (rt, Shuffle_PickWithContext now g b ctx req)
  | Lowest_Latency b => (rt, Latency_PickWithContext now g b ctx req)
  | Least_Busy b => (rt, LeastBusy_PickWithContext now g b ctx req)
  | TPMRPM b => (rt, TPMRPM_PickWithContext now g b ctx req)
  | Cost b reg => (rt, Cost_PickWithContext now g reg b ctx req)
  | TagBased b => (rt, TagBased_PickWithContext now g b ctx req)
  end.

Definition Pick (now : time) (g : Rand) (rt : Router S R) (ctx : context) (model : string) :
  Router S R * outcome route_err Deployment :=
  PickWithContext now g rt ctx (modelContext model).

Lemma baseOf_promote f rt : baseOf (promote f rt) = f (baseOf rt).
Proof. by destruct rt. Qed.

(** The strategies of the configuration that name a router. *)
Definition names_router (config : Config) : Prop :=
  (IsValidStrategy config.(CStrategy) = true \/ config.(CStrategy) = "") /\
  (config.(CStrategy) = StrategyLowestCost -> config.(PricingFile) = "" \/ is_Some (readPrices config.(PricingFile))).

Lemma IsValidStrategy_spec s : IsValidStrategy s = true <-> s ∈ AvailableStrategies.
Proof.
  unfold IsValidStrategy. rewrite existsb_exists. split.
  - intros (x & Hx & E%String.eqb_eq). subst. by apply list_elem_of_In.
  - intros Hs. exists s. split; [by apply list_elem_of_In|apply String.eqb_refl].
Qed.

Lemma newBase_spec config store :
  (newBase config store).(statsStore) = store /\ (newBase config store).(deployments) = ∅ /\
  GetStrategy (newBase config store) = config.(CStrategy).
Proof. by destruct store. Qed.

Lemma price_file_loads config :
  negb (String.eqb config.(PricingFile) "")
    && negb (bool_decide (is_Some (Load config.(PricingFile) NewRegistry))) = false
  <-> config.(PricingFile) = "" \/ is_Some (readPrices config.(PricingFile)).
Proof.
  unfold Load, readPrices, loadBytes. rewrite andb_false_iff, !negb_false_iff, String.eqb_eq, bool_decide_eq_true.
  destruct (readFile (PricingFile config)) as [data|]; [|done]. cbn.
  destruct (decode data); [|done]. split; (intros [?|_]; [by left|right; eauto]).
Qed.

(** One case of the factory's switch at a time. *)
Ltac next_case config :=
  match goal with |- context [String.eqb config.(CStrategy) ?s] =>
    destruct (String.eqb_spec config.(CStrategy) s) as [E|]; cbn [orb]
  end.

Lemma NewWithStores_spec config store rr :
  match NewWithStores config store rr with
  | inr rt => names_router config /\ (baseOf rt).(statsStore) = store /\ (baseOf rt).(deployments) = ∅ /\
              IsValidStrategy (GetStrategy (baseOf rt)) = true
  | inl _ => ~ names_router config
  end.
Proof.
  unfold names_router, NewWithStores. pose proof (price_file_loads config) as P.
  repeat next_case config.
  all: try (rewrite E; cbn [baseOf]; unfold newShuffleRouterWithStore, newLatencyRouterWithStore,
    newLeastBusyRouterWithStore, newTPMRPMRouterWithStore, newTagBasedRouterWithStore; cbn [base newRoundRobinRouterWithStores];
    match goal with |- context [newBase ?c ?st] => destruct (newBase_spec c st) as (-> & -> & ->) end;
    split; [split; [by (left + right)|by intros ?]|done]).
  - destruct (_ && _).
    + intros [_ H]. by destruct P as [_ P]; specialize (P (H E)).
    + cbn [newCostRouterWithStore baseOf]. destruct (newBase_spec (config<|CStrategy := StrategyLowestCost|>) store)
        as (-> & -> & ->). split; [|done]. split; [left; by rewrite E|]. intros _. by apply P.
  - intros [[H%IsValidStrategy_spec|H] _]; [|done].
    unfold AvailableStrategies in H. rewrite !elem_of_cons, elem_of_nil in H. naive_solver.
Qed.

(** The factory builds a router exactly for the advertised strategies and for
    the empty name (and, for the lowest-cost strategy with a price file, exactly
    when the file loads); the router has no deployments yet, the given statistics
    store and one of the advertised strategies; and [MustNew], which falls back
    to the shuffle strategy, never returns nil. *)
Theorem factory_total config store rr :
  ((exists rt, NewWithStores config store rr = inr rt) <-> names_router config) /\
  (forall rt, NewWithStores config store rr = inr rt ->
     (baseOf rt).(statsStore) = store /\ (baseOf rt).(deployments) = ∅ /\
     IsValidStrategy (GetStrategy (baseOf rt)) = true) /\
  is_Some (MustNew config).
Proof.
  pose proof (NewWithStores_spec config store rr) as H. split_and!.
  - destruct (NewWithStores config store rr) as [err|rt]; [|naive_solver]. split; [by intros [? [=]]|done].
  - intros rt E. rewrite E in H. apply H.
  - unfold MustNew. destruct (New config); [|eauto]. eauto.
Qed.
End Factory.
