(* ===== verification/FailureWindow.v ===== *)
(** * The failure window refines a sliding log

    [recordWindow] keeps five one-minute buckets in a ring and [windowTotals]
    adds up the recent ones.  The abstract window is the log of all outcomes;
    the totals are the numbers of successes and failures whose minute is one of
    the last five. *)
From S2P Require Import Prelude Float64 Float64Round Errors RouterTypes StatsStore BaseRouter.

(** An outcome: the instant it is recorded at and whether it is a success. *)
Definition outcome_event : Type := time * bool.
Definition ev_minute (e : outcome_event) : Z := bucketMinute e.1.

Definition record_all (st : statsEntry) (evs : list outcome_event) : statsEntry :=
  foldl (fun st e => recordWindow st e.1 e.2) st evs.

(** The number of outcomes of one kind whose minute satisfies a test. *)
Definition tally (ok : bool) (P : Z -> bool) (evs : list outcome_event) : Z :=
  Z.of_nat (length (keep (fun e => Bool.eqb e.2 ok && P (ev_minute e)) evs)).

(** The abstract window at [now]. *)
Definition in_window (now : time) (m : Z) : bool :=
  bucketMinute now - (defaultFailureWindowMinutes - 1) <=? m.

Definition sliding_totals (evs : list outcome_event) (now : time) : Z * Z :=
  (tally true (in_window now) evs, tally false (in_window now) evs).

(** Outcomes are recorded in the order of the clock, after the epoch. *)
Definition chronological (evs : list outcome_event) : Prop :=
  StronglySorted (fun a b => ev_minute a <= ev_minute b) evs /\ Forall (fun e => 0 <= ev_minute e) evs.

(** ** Tallies *)

Lemma tally_snoc ok P evs e :
  tally ok P (evs ++ [e]) = tally ok P evs + (if Bool.eqb e.2 ok && P (ev_minute e) then 1 else 0).
Proof.
  unfold tally, keep. rewrite List.filter_app, length_app. cbn [List.filter].
  destruct (Bool.eqb e.2 ok && P (ev_minute e)); cbn [length]; by rewrite Nat2Z.inj_add.
Qed.

Lemma tally_ext ok P Q evs :
  (forall e, e ∈ evs -> P (ev_minute e) = Q (ev_minute e)) -> tally ok P evs = tally ok Q evs.
Proof.
  intros H. unfold tally, keep. do 2 f_equal. apply List.filter_ext_in.
  intros e He. rewrite H; [done|]. by apply list_elem_of_In.
Qed.

Lemma tally_none ok P evs : (forall e, e ∈ evs -> P (ev_minute e) = false) -> tally ok P evs = 0.
Proof.
  intros H. unfold tally. rewrite (proj2 (keep_nil _ _)); [done|].
  intros e He. by rewrite H, andb_false_r.
Qed.

Lemma tally_split ok P Q evs :
  tally ok P evs = tally ok (fun m => P m && Q m) evs + tally ok (fun m => P m && negb (Q m)) evs.
Proof.
  induction evs as [|e evs IH] using rev_ind; [done|].
  rewrite !tally_snoc, IH. destruct (Bool.eqb e.2 ok), (P (ev_minute e)), (Q (ev_minute e)); cbn; lia.
Qed.

(** ** The ring

    Bucket [i] holds the counts of the latest minute congruent to [i]. *)

Definition slot_at (i m k : Z) : bool := (k mod 5 =? i) && (k =? m).

Record bucket_holds (evs : list outcome_event) (i : Z) (b : failureBucket) : Prop := {
  holds_success : b.(success) = wrap64 (tally true (slot_at i b.(minute)) evs);
  holds_failure : b.(failure) = wrap64 (tally false (slot_at i b.(minute)) evs);
  holds_latest : forall e, e ∈ evs -> ev_minute e mod 5 = i -> ev_minute e <= b.(minute);
  holds_past : b.(minute) = 0 \/ exists e, e ∈ evs /\ ev_minute e = b.(minute) /\ ev_minute e mod 5 = i;
}.

Definition ring_holds (evs : list outcome_event) (st : statsEntry) : Prop :=
  length st.(FailureBuckets) = 5%nat /\
  forall i b, st.(FailureBuckets) !! i = Some b -> bucket_holds evs (Z.of_nat i) b.

Lemma slot_at_true i m k : slot_at i m k = true <-> k mod 5 = i /\ k = m.
Proof. unfold slot_at. rewrite andb_true_iff, !Z.eqb_eq. done. Qed.

Lemma slot_at_false i m k : slot_at i m k = false <-> (k mod 5 = i -> k <> m).
Proof. rewrite <- not_true_iff_false, slot_at_true. naive_solver. Qed.

(** An outcome of another slot changes nothing. *)
Lemma bucket_holds_other evs e i b :
  ev_minute e mod 5 <> i -> bucket_holds evs i b -> bucket_holds (evs ++ [e]) i b.
Proof.
  intros Hne [Hs Hf Hl Hp].
  assert (Hz : slot_at i (minute b) (ev_minute e) = false) by (apply slot_at_false; tauto).
  split.
  1,2: rewrite tally_snoc, Hz, andb_false_r, Z.add_0_r; done.
  - intros e' [He' | ->%list_elem_of_singleton]%elem_of_app; [by apply Hl|done].
  - destruct Hp as [?|(e' & He' & ?)]; [by left|right; exists e'; set_solver].
Qed.

(** The latest minute of a slot is not later than the outcome being recorded. *)
Lemma bucket_minute_le evs e i b :
  0 <= ev_minute e -> Forall (fun a => ev_minute a <= ev_minute e) evs ->
  bucket_holds evs i b -> b.(minute) <= ev_minute e.
Proof.
  intros H0 Hle H. destruct (holds_past _ _ _ H) as [->|(e' & He' & <- & _)]; [done|].
  rewrite Forall_forall in Hle. by apply Hle.
Qed.

(** The bucket that receives the outcome. *)
Definition refresh (m : Z) (b : failureBucket) : failureBucket :=
  if b.(minute) =? m then b else {| minute := m; success := 0; failure := 0 |}.

Lemma refresh_minute m b : (refresh m b).(minute) = m.
Proof. unfold refresh. by destruct (Z.eqb_spec (minute b) m). Qed.

Lemma refresh_counts evs e b (i := ev_minute e mod 5) :
  0 <= ev_minute e -> Forall (fun a => ev_minute a <= ev_minute e) evs -> bucket_holds evs i b ->
  (refresh (ev_minute e) b).(success) = wrap64 (tally true (slot_at i (ev_minute e)) evs) /\
  (refresh (ev_minute e) b).(failure) = wrap64 (tally false (slot_at i (ev_minute e)) evs).
Proof.
  intros H0 Hle H. pose proof (bucket_minute_le evs e _ b H0 Hle H) as Hb.
  destruct H as [Hs Hf Hl _]. unfold refresh.
  destruct (Z.eqb_spec (minute b) (ev_minute e)) as [E|E]; [by rewrite <- E|].
  assert (N : forall e', e' ∈ evs -> slot_at i (ev_minute e) (ev_minute e') = false).
  { intros e' He'. apply slot_at_false. intros Hi. specialize (Hl _ He' Hi). lia. }
  cbn. by rewrite !tally_none.
Qed.

Lemma bump_minute ok b : (bump ok b).(minute) = b.(minute).
Proof. by destruct ok. Qed.

Lemma bucket_holds_record evs e b (i := ev_minute e mod 5) :
  0 <= ev_minute e -> Forall (fun a => ev_minute a <= ev_minute e) evs ->
  bucket_holds evs i b -> bucket_holds (evs ++ [e]) i (bump e.2 (refresh (ev_minute e) b)).
Proof.
  intros H0 Hle H. destruct (refresh_counts evs e b H0 Hle H) as [Es Ef].
  assert (T : slot_at i (ev_minute e) (ev_minute e) = true) by (by apply slot_at_true).
  split; rewrite bump_minute, refresh_minute.
  - rewrite tally_snoc, T, andb_true_r. fold i in Es.
    destruct e.2; cbn; rewrite Es, ?wrap64_add_l, ?Z.add_0_r; done.
  - rewrite tally_snoc, T, andb_true_r. fold i in Ef.
    destruct e.2; cbn; rewrite Ef, ?wrap64_add_l, ?Z.add_0_r; done.
  - intros e' [He' | ->%list_elem_of_singleton]%elem_of_app Hi; [|done].
    rewrite Forall_forall in Hle. by apply Hle.
  - right. exists e. set_solver.
Qed.

Lemma record_window_ring evs e st :
  0 <= ev_minute e -> Forall (fun a => ev_minute a <= ev_minute e) evs ->
  ring_holds evs st -> ring_holds (evs ++ [e]) (recordWindow st e.1 e.2).
Proof.
  intros H0 Hle [Hlen H]. unfold recordWindow. rewrite Hlen. cbn [Nat.eqb].
  change (bucketMinute e.1) with (ev_minute e).
  change (Z.of_nat 5) with 5. rewrite Z.rem_mod_nonneg by lia.
  pose proof (Z.mod_pos_bound (ev_minute e) 5 ltac:(lia)) as Hm.
  rewrite (proj2 (Z.ltb_ge _ 0)) by lia.
  destruct (lookup_lt_is_Some_2 (FailureBuckets st) (Z.to_nat (ev_minute e mod 5))) as [b Hb]; [lia|].
  rewrite Hb. fold (refresh (ev_minute e) b). split; cbn.
  - by rewrite length_insert.
  - intros i b' Hi. apply list_lookup_insert_Some in Hi as [(<- & <- & _)|[Hne Hi]].
    + rewrite Z2Nat.id by lia. apply bucket_holds_record; [done..|].
      specialize (H _ _ Hb). by rewrite Z2Nat.id in H by lia.
    + apply bucket_holds_other; [lia|]. by apply H.
Qed.

Lemma record_all_ring cfg evs :
  chronological evs -> ring_holds evs (record_all (newStatsEntry cfg) evs).
Proof.
  unfold record_all. induction evs as [|e evs IH] using rev_ind; intros [Hs Hp].
  - split; [done|]. intros i b Hb. cbn in Hb.
    assert (Eb : b = {| minute := 0; success := 0; failure := 0 |}).
    { do 5 (destruct i as [|i]; [by inversion Hb|]). done. }
    subst b. split; [done..|by intros e He%elem_of_nil|by left].
  - apply StronglySorted_app in Hs as (Hle & Hs & _). rewrite Forall_app in Hp.
    destruct Hp as [Hp He]. rewrite foldl_snoc. apply record_window_ring.
    + by inversion He.
    + apply Forall_forall. intros a Ha. apply Hle; [done|left].
    + by apply IH.
Qed.

(** ** Totals *)

Lemma bucket_window evs i b now ok :
  Forall (fun e => 0 <= ev_minute e <= bucketMinute now) evs -> 0 <= bucketMinute now ->
  bucket_holds evs i b ->
  wrap64 (if bucketMinute now - 4 <=? b.(minute) then tally ok (slot_at i b.(minute)) evs else 0)
  = wrap64 (tally ok (fun k => in_window now k && (k mod 5 =? i)) evs).
Proof.
  intros Hev Hnow H. f_equal. rewrite Forall_forall in Hev.
  assert (Hb : b.(minute) <= bucketMinute now).
  { destruct (holds_past _ _ _ H) as [->|(e & He & <- & _)]; [done|by apply Hev]. }
  destruct (Z.leb_spec (bucketMinute now - 4) (minute b)) as [Hc|Hc].
  - apply tally_ext. intros e He. unfold slot_at. rewrite andb_comm.
    destruct (Z.eqb_spec (ev_minute e mod 5) i) as [Ei|Ei]; [|by rewrite !andb_false_r].
    rewrite !andb_true_r. unfold in_window. cbn [defaultFailureWindowMinutes].
    pose proof (holds_latest _ _ _ H e He Ei) as Hl. specialize (Hev e He).
    apply eq_iff_eq_true. rewrite Z.eqb_eq, Z.leb_le. unfold defaultFailureWindowMinutes.
    split; intros Hk; [lia|].
    destruct (holds_past _ _ _ H) as [Hz|(e' & _ & Em & Ei')]; [lia|].
    rewrite Em in Ei'. Z.to_euclidean_division_equations. lia.
  - symmetry. apply tally_none. intros e He.
    destruct (Z.eqb_spec (ev_minute e mod 5) i) as [Ei|Ei]; [|by rewrite andb_false_r].
    pose proof (holds_latest _ _ _ H e He Ei).
    apply andb_false_iff. left. apply Z.leb_gt. unfold defaultFailureWindowMinutes. lia.
Qed.

(** The five slots partition the log. *)
Lemma tally_slots ok P evs :
  tally ok P evs =
    tally ok (fun k => P k && (k mod 5 =? 0)) evs + tally ok (fun k => P k && (k mod 5 =? 1)) evs
    + tally ok (fun k => P k && (k mod 5 =? 2)) evs + tally ok (fun k => P k && (k mod 5 =? 3)) evs
    + tally ok (fun k => P k && (k mod 5 =? 4)) evs.
Proof.
  induction evs as [|e evs IH] using rev_ind; [done|].
  rewrite !tally_snoc, IH.
  pose proof (Z.mod_pos_bound (ev_minute e) 5 ltac:(lia)).
  destruct (Bool.eqb e.2 ok), (P (ev_minute e)); cbn; [|lia..].
  destruct (Z.eqb_spec (ev_minute e mod 5) 0), (Z.eqb_spec (ev_minute e mod 5) 1),
    (Z.eqb_spec (ev_minute e mod 5) 2), (Z.eqb_spec (ev_minute e mod 5) 3),
    (Z.eqb_spec (ev_minute e mod 5) 4); lia.
Qed.

(** The fold of [windowTotals] is the wrapped sum of the contributions. *)
Definition total_of (count : failureBucket -> Z) (cutoff : Z) (l : list failureBucket) : Z :=
  foldr (fun b n => (if cutoff <=? b.(minute) then count b else 0) + n) 0 l.

Lemma add_bucket_totals cutoff l s f :
  in_i64 s -> in_i64 f ->
  foldl (add_bucket cutoff) (s, f) l
  = (wrap64 (s + total_of success cutoff l), wrap64 (f + total_of failure cutoff l)).
Proof.
  revert s f. induction l as [|b l IH]; intros s f Hs Hf; cbn [foldl total_of foldr].
  - by rewrite !Z.add_0_r, !wrap64_id.
  - unfold add_bucket at 2. fold (total_of success cutoff l) (total_of failure cutoff l).
    cbn [fst snd]. destruct (cutoff <=? minute b); [|by apply IH].
    rewrite IH by auto with llmux_i64. by rewrite !wrap64_add_l, !Z.add_assoc.
Qed.

Lemma ring_total evs st now (ok : bool) (count := if ok then success else failure) :
  Forall (fun e => 0 <= ev_minute e <= bucketMinute now) evs -> 0 <= bucketMinute now ->
  ring_holds evs st ->
  wrap64 (total_of count (bucketMinute now - 4) st.(FailureBuckets)) = wrap64 (tally ok (in_window now) evs).
Proof.
  intros Hev Hnow [Hlen H]. rewrite tally_slots, <- !Z.add_assoc.
  destruct (FailureBuckets st) as [|b0 [|b1 [|b2 [|b3 [|b4 [|]]]]]]; try done. clear Hlen.
  cbn [total_of foldr]. rewrite Z.add_0_r.
  assert (G : forall i b, [b0; b1; b2; b3; b4] !! i = Some b ->
    wrap64 (if bucketMinute now - 4 <=? minute b then count b else 0)
    = wrap64 (tally ok (fun k => in_window now k && (k mod 5 =? Z.of_nat i)) evs)).
  { intros i b Hb. rewrite <- (bucket_window evs (Z.of_nat i) b now ok) by auto.
    destruct (H i b Hb) as [Hs Hf _ _]. unfold count.
    case_match; [|done]. destruct ok; rewrite ?Hs, ?Hf; apply wrap64_idem. }
  apply wrap64_add_cong; [by apply (G 0%nat)|]. apply wrap64_add_cong; [by apply (G 1%nat)|].
  apply wrap64_add_cong; [by apply (G 2%nat)|].
  apply wrap64_add_cong; [by apply (G 3%nat)|by apply (G 4%nat)].
Qed.

Lemma window_totals_log cfg evs now :
  chronological evs -> Forall (fun e => ev_minute e <= bucketMinute now) evs -> 0 <= bucketMinute now ->
  windowTotals (record_all (newStatsEntry cfg) evs) now
  = (wrap64 (sliding_totals evs now).1, wrap64 (sliding_totals evs now).2).
Proof.
  intros Hc Hle Hnow. pose proof (record_all_ring cfg evs Hc) as H. destruct Hc as [_ Hpos].
  assert (Hev : Forall (fun e => 0 <= ev_minute e <= bucketMinute now) evs)
    by (apply Forall_and; split; done).
  unfold windowTotals, sliding_totals. change (defaultFailureWindowMinutes - 1) with 4.
  rewrite add_bucket_totals by done. rewrite !Z.add_0_l. cbn [fst snd]. f_equal.
  - by apply (ring_total _ _ _ true).
  - by apply (ring_total _ _ _ false).
Qed.

(** The failure window refines the log of outcomes.  When outcomes are
    recorded in the order of the clock and none is later than [now], the totals
    [windowTotals] returns are the numbers of successes and of failures whose
    minute is one of the last five, as 64-bit integers: no outcome of the window
    is lost and no older one is counted, although only five buckets are kept. *)
Theorem window_totals_refine_log cfg evs now :
  chronological evs -> Forall (fun e => ev_minute e <= bucketMinute now) evs -> 0 <= bucketMinute now ->
  windowTotals (record_all (newStatsEntry cfg) evs) now
  = (wrap64 (sliding_totals evs now).1, wrap64 (sliding_totals evs now).2).
Proof. apply window_totals_log. Qed.

Lemma window_totals_refine_log_witness :
  windowTotals (record_all (newStatsEntry DefaultConfig)
    [(10 * Minute, true); (11 * Minute, false); (14 * Minute, false); (15 * Minute, true)]) (15 * Minute)
  = (1, 2).
Proof.
  rewrite window_totals_refine_log; [vm_compute; reflexivity|..].
  - split; [repeat constructor; vm_compute; discriminate|repeat constructor; vm_compute; discriminate].
  - repeat constructor; vm_compute; discriminate.
  - vm_compute. discriminate.
Defined.
