(* ===== verification/PickTheorems.v ===== *)
(** * What a pick promises

    The lemmas of this file follow the pipeline of a pick: the statistics
    snapshot, the health filter, the tag and limit filters, the choice.  They end
    in the theorems every strategy satisfies: the deployment returned is a
    registered one, out of cooldown, with a matching tag and within its limits;
    and a pick returns a deployment whenever one can be returned. *)
From S2P Require Import Prelude Float64 Float64Round Errors ModelName RouterTypes StatsStore BaseRouter Strategies Factory.

Section Picks.
Context {S R : Type} `{!StatsStore S} `{!RoundRobinStore R}.
Implicit Types (r : BaseRouter S) (rt : Router S R) (e : ExtendedDeployment) (ctx : context).

(** ** The specification *)

(** A deployment is in service when the statistics a request of this context
    reads for it, if any, have a cooldown that is over. *)
Definition in_service (now : time) (r : BaseRouter S) (ctx : context) (id : string) : bool :=
  match statsFor r ctx id with
  | None => true
  | Some st => st.(CooldownUntil) <? now
  end.

(** The limits of a deployment leave room for the request. *)
Definition has_room (r : BaseRouter S) (ctx : context) (tokens : Z) (e : ExtendedDeployment) : Prop :=
  match statsFor r ctx e.(Dep).(ID) with
  | None => True
  | Some st =>
      (0 < e.(DConfig).(TPMLimit) -> st.(CurrentMinuteTPM) +! tokens <= e.(DConfig).(TPMLimit)) /\
      (0 < e.(DConfig).(RPMLimit) -> st.(CurrentMinuteRPM) +! 1 <= e.(DConfig).(RPMLimit))
  end.

(** A tagged request is served by a deployment with one of its tags, or by a
    default one. *)
Definition tag_allows (tags : list string) (e : ExtendedDeployment) : Prop :=
  (exists t, t ∈ tags /\ t ∈ e.(DConfig).(Tags)) \/ "default" ∈ e.(DConfig).(Tags).

Record admissible (now : time) (r : BaseRouter S) (ctx : context) (req : RequestContext)
  (e : ExtendedDeployment) : Prop := {
  adm_registered : e ∈ lookupDeployments r req.(Model);
  adm_in_service : in_service now r ctx e.(Dep).(ID) = true;
  adm_tags : r.(config).(EnableTagFiltering) = true -> req.(ReqTags) <> [] -> tag_allows req.(ReqTags) e;
  adm_room : 0 < req.(EstimatedInputTokens) -> has_room r ctx req.(EstimatedInputTokens) e;
}.

(** ** The snapshot of the statistics *)

Lemma statsSnapshot_snoc r ctx deps e :
  statsSnapshot r ctx (deps ++ [e])
  = match statsFor r ctx e.(Dep).(ID) with
    | Some st => <[e.(Dep).(ID) := st]> (statsSnapshot r ctx deps)
    | None => statsSnapshot r ctx deps
    end.
Proof. unfold statsSnapshot. by rewrite foldl_snoc. Qed.

(** Every entry of the snapshot is the statistics of its deployment, and the
    deployments listed have theirs in it. *)
Lemma statsSnapshot_sound r ctx deps id st :
  statsSnapshot r ctx deps !! id = Some st -> statsFor r ctx id = Some st.
Proof.
  induction deps as [|e deps IH] using rev_ind; [done|].
  rewrite statsSnapshot_snoc. destruct (statsFor r ctx (ID (Dep e))) eqn:E; [|done].
  destruct (decide (e.(Dep).(ID) = id)) as [<-|Hne].
  - by rewrite lookup_insert_eq, E.
  - by rewrite lookup_insert_ne.
Qed.

Lemma statsSnapshot_complete r ctx deps id st :
  Exists (fun e => e.(Dep).(ID) = id) deps -> statsFor r ctx id = Some st ->
  statsSnapshot r ctx deps !! id = Some st.
Proof.
  intros Hex Hst. induction deps as [|e deps IH] using rev_ind; [by inversion Hex|].
  rewrite statsSnapshot_snoc. destruct (decide (e.(Dep).(ID) = id)) as [<-|Hne].
  - by rewrite Hst, lookup_insert_eq.
  - apply Exists_app in Hex as [Hex|Hex]; [|by inversion Hex as [? ? X|? ? X]; inversion X].
    case_match; [rewrite lookup_insert_ne by done|]; by apply IH.
Qed.

Lemma snapshot_of_elem r ctx deps e :
  e ∈ deps -> statsSnapshot r ctx deps !! e.(Dep).(ID) = statsFor r ctx e.(Dep).(ID).
Proof.
  intros He. destruct (statsFor r ctx (ID (Dep e))) as [st|] eqn:E.
  - apply statsSnapshot_complete; [apply Exists_exists; eauto|done].
  - destruct (statsSnapshot r ctx deps !! ID (Dep e)) eqn:E'; [|done].
    apply statsSnapshot_sound in E'. congruence.
Qed.

(** ** The filters *)

Lemma elem_of_healthy now r ctx deps e :
  e ∈ getHealthyDeployments now deps (statsSnapshot r ctx deps)
  <-> e ∈ deps /\ in_service now r ctx e.(Dep).(ID) = true.
Proof.
  unfold getHealthyDeployments. rewrite elem_of_keep. unfold in_service, after.
  split; intros [He H]; (split; [done|]); by rewrite (snapshot_of_elem r ctx deps e He) in *.
Qed.

Lemma ok_or_Ok {A : Type} err (l l' : list A) : ok_or err l = Ok l' <-> l = l' /\ l <> [].
Proof. destruct l; cbn; split; [done|naive_solver|naive_solver|naive_solver]. Qed.

Lemma or_else_incl {A : Type} (l l' : list A) x : x ∈ or_else l l' -> x ∈ l \/ x ∈ l'.
Proof. destruct l; cbn; tauto. Qed.

Lemma or_else_nil {A : Type} (l l' : list A) : or_else l l' = [] <-> l = [] /\ l' = [].
Proof. destruct l; cbn; naive_solver. Qed.

Lemma healthyFor_Ok now r ctx model l snap :
  healthyFor now r ctx model = Ok (l, snap) ->
  snap = statsSnapshot r ctx (lookupDeployments r model) /\ l <> [] /\
  forall e, e ∈ l <-> e ∈ lookupDeployments r model /\ in_service now r ctx e.(Dep).(ID) = true.
Proof.
  unfold healthyFor, snapshotDeployments, outcome_bind.
  destruct (ok_or _ _) as [deps| |] eqn:E; [|done..]. apply ok_or_Ok in E as [-> _].
  destruct (ok_or _ _) as [h| |] eqn:E; [|done..]. apply ok_or_Ok in E as [<- Hne].
  intros [= <- <-]. split_and!; [done..|]. intros e. apply elem_of_healthy.
Qed.

(** With no deployment in service a pick has nothing to choose from. *)
Lemma healthyFor_cases now r ctx model :
  (exists l snap, healthyFor now r ctx model = Ok (l, snap))
  \/ healthyFor now r ctx model = Err ErrNoAvailableDeployment /\
     forall e, e ∈ lookupDeployments r model -> in_service now r ctx e.(Dep).(ID) = false.
Proof.
  unfold healthyFor, snapshotDeployments, outcome_bind.
  destruct (lookupDeployments r model) as [|d deps] eqn:Ed; cbn [ok_or].
  { right. split; [done|]. by intros e He%elem_of_nil. }
  destruct (getHealthyDeployments _ _ _) as [|h t] eqn:Eh; [|left; cbn; eauto].
  right. split; [done|]. intros e He. apply not_true_is_false. intros Hs.
  apply (not_elem_of_nil e). rewrite <- Eh. by apply elem_of_healthy.
Qed.

Lemma containsTag_spec tags t : containsTag tags t = true <-> t ∈ tags.
Proof.
  unfold containsTag. rewrite existsb_exists. split.
  - intros (t' & Hin & E). apply String.eqb_eq in E as ->. by apply list_elem_of_In.
  - intros Hin. exists t. rewrite String.eqb_refl. by rewrite <- list_elem_of_In.
Qed.

Lemma hasMatchingTag_spec dtags rtags :
  hasMatchingTag dtags rtags = true <-> exists t, t ∈ rtags /\ t ∈ dtags.
Proof.
  unfold hasMatchingTag. rewrite existsb_exists. split.
  - intros (t & Hd & H%containsTag_spec). exists t. split; [done|by apply list_elem_of_In].
  - intros (t & Hr & Hd). exists t. split; [by apply list_elem_of_In|by apply containsTag_spec].
Qed.

Lemma filterByTags_sound deps tags e :
  e ∈ filterByTags deps tags -> e ∈ deps /\ (tags <> [] -> tag_allows tags e).
Proof.
  unfold filterByTags, tag_allows. destruct tags as [|t tags].
  - intros [He%elem_of_keep|He]%or_else_incl; naive_solver.
  - intros [He|He]%or_else_incl.
    + apply elem_of_keep in He as [He Hm%hasMatchingTag_spec]. apply keep_incl in He. auto.
    + apply elem_of_keep in He as [He Hm%containsTag_spec]. apply keep_incl in He. auto.
Qed.

Lemma filterByDefaultProvider_incl cfg deps e : e ∈ filterByDefaultProvider cfg deps -> e ∈ deps.
Proof.
  unfold filterByDefaultProvider. case_match; [done|].
  intros [He|He]%or_else_incl; [by apply keep_incl in He|done].
Qed.

Lemma filterByDefaultProvider_nil cfg deps : filterByDefaultProvider cfg deps = [] -> deps = [].
Proof. unfold filterByDefaultProvider. case_match; [done|]. by intros [_ ?]%or_else_nil. Qed.

Lemma withinLimits_room r ctx deps tokens e :
  e ∈ deps -> withinLimits (statsSnapshot r ctx deps) tokens e = true -> has_room r ctx tokens e.
Proof.
  intros He. unfold withinLimits, has_room. rewrite (snapshot_of_elem r ctx deps e He).
  destruct (statsFor r ctx _) as [st|]; [|done].
  destruct (Z.ltb_spec 0 (TPMLimit (DConfig e))), (Z.ltb_spec (TPMLimit (DConfig e)) (CurrentMinuteTPM st +! tokens));
    destruct (Z.ltb_spec 0 (RPMLimit (DConfig e))), (Z.ltb_spec (RPMLimit (DConfig e)) (CurrentMinuteRPM st +! 1));
    cbn; intros; lia || done.
Qed.

Lemma tagStep_Ok cfg req l l' :
  tagStep cfg req l = Ok l' -> l <> [] ->
  l' <> [] /\ forall e, e ∈ l' ->
    e ∈ l /\ (cfg.(EnableTagFiltering) = true -> req.(ReqTags) <> [] -> tag_allows req.(ReqTags) e).
Proof.
  unfold tagStep. intros H Hne. destruct (EnableTagFiltering cfg && _) eqn:Ec.
  - apply ok_or_Ok in H as [<- Hne']. split; [done|].
    intros e [He Ht]%filterByTags_sound. auto.
  - injection H as <-. split; [done|]. intros e He. split; [done|]. intros Ef Hreq.
    rewrite Ef in Ec. by destruct (ReqTags req).
Qed.

Lemma limitStep_Ok snap req l l' :
  limitStep snap req l = Ok l' -> l <> [] ->
  l' <> [] /\ forall e, e ∈ l' ->
    e ∈ l /\ (0 < req.(EstimatedInputTokens) -> withinLimits snap req.(EstimatedInputTokens) e = true).
Proof.
  unfold limitStep. intros H Hne. destruct (Z.ltb_spec 0 (EstimatedInputTokens req)).
  - apply ok_or_Ok in H as [<- Hne']. split; [done|].
    intros e [He Ht]%elem_of_keep. auto.
  - injection H as <-. split; [done|]. intros e He. split; [done|lia].
Qed.

(** The prefix shared by the strategies leaves admissible deployments only. *)
Lemma eligible_Ok now r ctx req l snap :
  eligible now r ctx req = Ok (l, snap) -> l <> [] /\ Forall (admissible now r ctx req) l.
Proof.
  unfold eligible, outcome_bind.
  destruct (healthyFor _ _ _ _) as [[h snap']| |] eqn:Eh; [|done..].
  apply healthyFor_Ok in Eh as (-> & Hne & Hh).
  destruct (tagStep _ _ _) as [t| |] eqn:Et; [|done..].
  apply tagStep_Ok in Et as [Hne' Ht]; [|done].
  destruct (limitStep _ _ _) as [l'| |] eqn:El; [|done..].
  apply limitStep_Ok in El as [Hne'' Hl]; [|done].
  intros [= <- <-]. split; [done|]. apply Forall_forall. intros e He.
  destruct (Hl e He) as [He' Hroom]. destruct (Ht e He') as [He'' Htag].
  apply Hh in He'' as [Hreg Hserv]. split; [done..|].
  intros Hpos. eapply withinLimits_room; eauto.
Qed.

(** ** The choices

    Each choice over a non-empty list returns an element of it. *)

Lemma pick_random_elem {E A : Type} g (l : list A) :
  l <> [] -> exists x, x ∈ l /\ @pick_random E A g l = Ok x.
Proof.
  intros Hne. unfold pick_random, index. destruct l as [|y l]; [done|].
  destruct (lookup_lt_is_Some_2 (y :: l) (draw_intn g mod length (y :: l))%nat) as [x Hx].
  { apply Nat.mod_upper_bound. done. }
  rewrite Hx. exists x. split; [by eapply list_elem_of_lookup_2|done].
Qed.

Lemma index_head_elem {E A : Type} (l : list A) :
  l <> [] -> exists x, x ∈ l /\ @index E A l 0 = Ok x.
Proof. destruct l as [|x l]; [done|]. intros _. exists x. split; [left|done]. Qed.

Lemma cumulativePick_elem x acc l e : cumulativePick x acc l = Some e -> e ∈ l.*1.
Proof.
  revert acc. induction l as [|[d w] l IH]; intros acc; cbn; [done|].
  case_match; [intros [= ->]; left|]. intros ?. right. eauto.
Qed.

Lemma runningPick_elem x acc l e : runningPick x acc l = Some e -> e ∈ l.*1.
Proof.
  revert acc. induction l as [|[d w] l IH]; intros acc; cbn; [done|].
  case_match; [intros [= ->]; left|]. intros ?. right. eauto.
Qed.

Lemma fmap_fst_tag {A B : Type} (f : A -> B) (l : list A) : ((fun a => (a, f a)) <$> l).*1 = l.
Proof. rewrite <- list_fmap_compose. apply list_fmap_id. Qed.

Lemma elem_of_tagged {A B : Type} (f : A -> B) (l : list A) (c : A * B) :
  c ∈ (fun a => (a, f a)) <$> l <-> c.1 ∈ l /\ c.2 = f c.1.
Proof.
  rewrite list_elem_of_fmap. split.
  - by intros (a & -> & Ha).
  - intros [Ha E]. exists c.1. rewrite <- E. by destruct c.
Qed.

Lemma weightedPick_elem g l w :
  l <> [] -> weightedPick g l w = Ok None \/ exists e, e ∈ l /\ weightedPick g l w = Ok (Some e.(Dep)).
Proof.
  intros Hne. unfold weightedPick. case_match; [by left|]. case_match; [by left|]. right.
  destruct (cumulativePick _ _ _) as [e|] eqn:E.
  - apply cumulativePick_elem in E. rewrite fmap_fst_tag in E. eauto.
  - unfold index, outcome_bind.
    destruct (lookup_lt_is_Some_2 l (length l - 1)) as [e He].
    { destruct l; cbn; [done|lia]. }
    rewrite He. exists e. split; [by eapply list_elem_of_lookup_2|done].
Qed.

Lemma eligible_snapshot now r ctx req l snap :
  eligible now r ctx req = Ok (l, snap) -> snap = statsSnapshot r ctx (lookupDeployments r req.(Model)).
Proof.
  unfold eligible, outcome_bind. destruct (healthyFor _ _ _ _) as [[h s]| |] eqn:E; [|done..].
  apply healthyFor_Ok in E as (-> & _ & _). repeat case_match; congruence.
Qed.

Definition sane_latencies (st : DeploymentStats) : Prop :=
  good st.(EWMAAvgTTFTMs) /\ good st.(EWMALatencyMs) /\
  good (calculateAverageLatency st.(TTFTHistory)) /\ good (calculateAverageLatency st.(LatencyHistory)).

(** ** The strategies over an eligible list *)
Section Over.
Context (now : time) (g : Rand) (r : BaseRouter S) (ctx : context) (req : RequestContext)
  (l : list ExtendedDeployment) (snap : gmap string DeploymentStats)
  (Hel : eligible now r ctx req = Ok (l, snap)).

Let preferred := filterByDefaultProvider r.(config) l.

Lemma preferred_ne : preferred <> [].
Proof. intros E%filterByDefaultProvider_nil. by apply eligible_Ok in Hel as []. Qed.

Lemma preferred_incl e : e ∈ preferred -> e ∈ l.
Proof. apply filterByDefaultProvider_incl. Qed.

Lemma tagged_shuffle_ne {B : Type} (f : ExtendedDeployment -> B) :
  rand_shuffle g.(draw_shuffle) ((fun d => (d, f d)) <$> preferred) <> [].
Proof. intros E%rand_shuffle_nil%fmap_nil_inv. by apply preferred_ne. Qed.

Lemma tagged_shuffle_elem {B : Type} (f : ExtendedDeployment -> B) c :
  c ∈ rand_shuffle g.(draw_shuffle) ((fun d => (d, f d)) <$> preferred) ->
  c.1 ∈ preferred /\ c.2 = f c.1.
Proof. by rewrite elem_of_rand_shuffle, elem_of_tagged. Qed.

Lemma LeastBusy_picks : exists e, e ∈ l /\ LeastBusy_PickWithContext now g r ctx req = Ok e.(Dep).
Proof.
  unfold LeastBusy_PickWithContext, outcome_bind. rewrite Hel. fold preferred.
  destruct (min_scan_elem snd _ (tagged_shuffle_ne (activeRequests snap))) as ([e n] & -> & He).
  apply tagged_shuffle_elem in He as [He _]. exists e. split; [by apply preferred_incl|done].
Qed.

Lemma Cost_picks reg : exists e, e ∈ l /\ Cost_PickWithContext now g reg r ctx req = Ok e.(Dep).
Proof.
  unfold Cost_PickWithContext, outcome_bind. rewrite Hel. fold preferred.
  destruct (@index_head_elem route_err _
    (sort_slice_stable (fun a b => a.2 <.? b.2) (rand_shuffle g.(draw_shuffle)
      ((fun d => (d, deploymentCost reg d)) <$> preferred)))) as ([e n] & He & ->).
  { intros E%sort_nil. by apply tagged_shuffle_ne in E. }
  rewrite elem_of_sort in He. apply tagged_shuffle_elem in He as [He _].
  exists e. split; [by apply preferred_incl|done].
Qed.

Lemma Shuffle_picks : exists e, e ∈ l /\ Shuffle_PickWithContext now g r ctx req = Ok e.(Dep).
Proof.
  unfold Shuffle_PickWithContext, deployment_of, outcome_bind. rewrite Hel. fold preferred.
  destruct (weightedPick_elem g preferred ByWeight preferred_ne) as [->|(e & He & ->)];
    [|exists e; split; [by apply preferred_incl|done]].
  destruct (weightedPick_elem g preferred ByRPM preferred_ne) as [->|(e & He & ->)];
    [|exists e; split; [by apply preferred_incl|done]].
  destruct (weightedPick_elem g preferred ByTPM preferred_ne) as [->|(e & He & ->)];
    [|exists e; split; [by apply preferred_incl|done]].
  destruct (@pick_random_elem route_err _ g preferred preferred_ne) as (e & He & ->).
  exists e. split; [by apply preferred_incl|done].
Qed.

(** The latency pick compares with a threshold computed from the lowest
    latency; the buffer and the latencies have to be finite and not negative
    for the lowest one to pass it. *)
Context (Hbuf : good r.(config).(LatencyBuffer))
  (Hlat : forall e st, e ∈ lookupDeployments r req.(Model) ->
    statsFor r ctx e.(Dep).(ID) = Some st -> sane_latencies st).

Lemma latencyOf_good e : e ∈ l -> good (latencyOf snap req.(IsStreaming) e).
Proof.
  intros He. pose proof (eligible_snapshot _ _ _ _ _ _ Hel) as Hs. unfold latencyOf.
  destruct (snap !! _) as [st|] eqn:E; [|apply good_zero].
  rewrite Hs in E. apply statsSnapshot_sound in E.
  pose proof (eligible_Ok _ _ _ _ _ _ Hel) as [_ Ha]. rewrite Forall_forall in Ha.
  destruct (Hlat e st (adm_registered _ _ _ _ _ (Ha e He)) E) as (? & ? & ? & ?). repeat case_match; auto using good_zero.
Qed.

Lemma threshold_admits x : good x -> (x <=.? x ⊞ r.(config).(LatencyBuffer) ⊠ x) = true.
Proof.
  intros (Vx & Fx & Nx). destruct Hbuf as (Vb & Fb & Nb).
  destruct (fmul_nonneg_num _ _ Vb Vx Fb Fx Nb Nx) as [Vp Np].
  apply fadd_ge; try done; by destruct x.
Qed.

Lemma Latency_picks : exists e, e ∈ l /\ Latency_PickWithContext now g r ctx req = Ok e.(Dep).
Proof.
  unfold Latency_PickWithContext, outcome_bind. rewrite Hel. fold preferred.
  set (cands := sort_slice_stable _ _).
  assert (Hin : forall c, c ∈ cands -> c.1 ∈ l /\ good c.2).
  { intros c Hc. unfold cands in Hc. rewrite elem_of_sort in Hc.
    apply tagged_shuffle_elem in Hc as [Hc ->]. apply preferred_incl in Hc.
    split; [done|by apply latencyOf_good]. }
  assert (Hne : cands <> []) by (intros E%sort_nil; by apply tagged_shuffle_ne in E).
  destruct (@index_head_elem route_err _ cands Hne) as ([e0 low] & H0 & ->).
  case_match.
  { destruct (@pick_random_elem route_err _ g cands Hne) as ([e x] & He & ->).
    exists e. split; [by apply Hin in He as []|done]. }
  set (valids := keep _ cands).
  assert (Hv : valids <> []).
  { intros E. apply (not_elem_of_nil (e0, low)). rewrite <- E. apply elem_of_keep.
    split; [done|]. by apply threshold_admits, (Hin (e0, low)). }
  assert (Hvl : forall c, c ∈ valids -> c.1 ∈ l) by (intros c Hc%keep_incl; by apply Hin in Hc as []).
  destruct (if _ <.? _ then _ else None) as [e|] eqn:Ec.
  - exists e. split; [|done]. destruct (_ <.? _); [|done]. apply runningPick_elem in Ec.
    rewrite <- list_fmap_compose in Ec. apply list_elem_of_fmap in Ec as (c & -> & Hc). exact (Hvl c Hc).
  - destruct (@pick_random_elem route_err _ g valids Hv) as ([e x] & He & ->).
    exists e. split; [exact (Hvl _ He)|done].
Qed.
End Over.

(** Without assumptions on the floats, a latency pick that returns a deployment
    returns an eligible one. *)
Lemma pick_random_sound {E A : Type} g (l : list A) x : @pick_random E A g l = Ok x -> x ∈ l.
Proof.
  unfold pick_random, index. destruct l as [|y l]; [done|].
  case_match eqn:H; [|done]. intros [= <-]. by eapply list_elem_of_lookup_2.
Qed.

Lemma Latency_sound now g r ctx req l snap d :
  eligible now r ctx req = Ok (l, snap) -> Latency_PickWithContext now g r ctx req = Ok d ->
  exists e, e ∈ l /\ d = e.(Dep).
Proof.
  intros Hel. unfold Latency_PickWithContext, outcome_bind. rewrite Hel.
  set (cands := sort_slice_stable _ _).
  assert (Hin : forall c, c ∈ cands -> c.1 ∈ l).
  { intros c Hc. unfold cands in Hc. rewrite elem_of_sort, elem_of_rand_shuffle, elem_of_tagged in Hc.
    destruct Hc as [Hc _]. by apply filterByDefaultProvider_incl in Hc. }
  destruct (index cands 0) as [[e0 low]| |]; [|done..]. case_match.
  { destruct (pick_random g cands) as [[e x]| |] eqn:E; [|done..]. intros [= <-].
    apply pick_random_sound, Hin in E. by exists e. }
  set (valids := keep _ cands).
  assert (Hvl : forall c, c ∈ valids -> c.1 ∈ l) by (intros c Hc%keep_incl; by apply Hin).
  destruct (if _ <.? _ then _ else None) as [e|] eqn:Ec.
  - intros [= <-]. exists e. split; [|done]. destruct (_ <.? _); [|done]. apply runningPick_elem in Ec.
    rewrite <- list_fmap_compose in Ec. apply list_elem_of_fmap in Ec as (c & -> & Hc). exact (Hvl c Hc).
  - destruct (pick_random g valids) as [[e x]| |] eqn:E; [|done..]. intros [= <-].
    apply pick_random_sound, Hvl in E. by exists e.
Qed.

(** ** Round robin *)

Lemma localNext_bounds (rr : RoundRobinRouter S R) model count :
  0 < count -> 0 <= (localNext rr model count).2 < count.
Proof. intros H. cbn. by apply Z.mod_pos_bound. Qed.

Lemma nextIndex_bounds (rr : RoundRobinRouter S R) model count :
  0 < count -> 0 <= (nextIndex rr model count).2 < count.
Proof.
  intros H. unfold nextIndex. rewrite (proj2 (Z.leb_gt _ _)) by lia.
  destruct (rrStore rr) as [store|]; [|by apply localNext_bounds].
  destruct (NextIndex model count store) as [store' [idx|]]; [|by apply localNext_bounds].
  destruct (Z.leb_spec 0 idx), (Z.ltb_spec idx count); cbn [andb]; try by apply localNext_bounds.
  done.
Qed.

Lemma RoundRobin_picks now (rr : RoundRobinRouter S R) ctx req l snap :
  eligible now rr.(base) ctx req = Ok (l, snap) ->
  exists e, e ∈ l /\ (RoundRobin_PickWithContext now rr ctx req).2 = Ok e.(Dep).
Proof.
  intros Hel. unfold RoundRobin_PickWithContext, deployment_of, outcome_bind, index. rewrite Hel.
  apply eligible_Ok in Hel as [Hne _].
  pose proof (nextIndex_bounds rr (canonicalModelKey (Model req)) (Z.of_nat (length l))) as B.
  destruct (nextIndex _ _ _) as [rr' idx]. cbn in B.
  destruct (lookup_lt_is_Some_2 l (Z.to_nat idx)) as [e He].
  { destruct l; [done|]. cbn [length] in *. lia. }
  cbn. rewrite He. exists e. split; [by eapply list_elem_of_lookup_2|done].
Qed.

(** ** Lowest TPM/RPM *)

Lemma allowed_incl cfg el c : c ∈ allowedCandidates cfg el -> c ∈ el.
Proof. unfold allowedCandidates. case_match; [apply keep_incl|done]. Qed.

Lemma allowed_ne cfg el : el <> [] -> allowedCandidates cfg el <> [].
Proof.
  intros Hne. unfold allowedCandidates. case_match; [|done].
  destruct (filterByDefaultProvider cfg el.*1) as [|p ps] eqn:E.
  { apply filterByDefaultProvider_nil, fmap_nil_inv in E. done. }
  assert (Hp : p ∈ el.*1) by (apply (filterByDefaultProvider_incl cfg); rewrite E; left).
  apply list_elem_of_fmap in Hp as (c & -> & Hc). intros Hk.
  apply (not_elem_of_nil c). rewrite <- Hk. apply elem_of_keep. split; [done|].
  cbn [existsb]. by rewrite String.eqb_refl.
Qed.

(** The estimate used when the request carries none. *)
Definition estimate_of (req : RequestContext) : Z :=
  if req.(EstimatedInputTokens) =? 0 then 100 else req.(EstimatedInputTokens).

(** The candidates the TPM/RPM pick chooses the lowest of. *)
Definition tpmrpmCandidates (now : time) (g : Rand) (r : BaseRouter S) (ctx : context)
  (req : RequestContext) : outcome route_err (list (ExtendedDeployment * (Z * Z))) :=
  let! (healthy, snap) := healthyFor now r ctx req.(Model) in
  let! healthy := tagStep r.(config) req healthy in
  let! el := ok_or ErrNoAvailableDeployment (keep (tpmrpmEligible (estimate_of req))
    (rand_shuffle g.(draw_shuffle) ((fun d => (d, currentUsage snap d)) <$> healthy))) in
  Ok (allowedCandidates r.(config) el).

Lemma TPMRPM_unfold now g r ctx req :
  TPMRPM_PickWithContext now g r ctx req
  = let! el := tpmrpmCandidates now g r ctx req in
    match min_scan (fun c => c.2.1) el with
    | Some (d, _) => Ok d.(Dep)
    | None => Err ErrNoAvailableDeployment
    end.
Proof.
  unfold TPMRPM_PickWithContext, tpmrpmCandidates, estimate_of, outcome_bind.
  destruct (healthyFor _ _ _ _) as [[h s]| |]; [|done..].
  destruct (tagStep _ _ _); [|done..]. by destruct (ok_or _ _).
Qed.

(** The usage of a deployment, as the statistics report it. *)
Definition usageFor (r : BaseRouter S) (ctx : context) (id : string) : Z * Z :=
  match statsFor r ctx id with
  | Some st => (st.(CurrentMinuteTPM), st.(CurrentMinuteRPM))
  | None => (0, 0)
  end.

Lemma tpmrpmEligible_room r ctx req e :
  tpmrpmEligible (estimate_of req) (e, usageFor r ctx e.(Dep).(ID)) = true ->
  0 < req.(EstimatedInputTokens) -> has_room r ctx req.(EstimatedInputTokens) e.
Proof.
  unfold tpmrpmEligible, usageFor, has_room, estimate_of. intros H Hpos.
  rewrite (proj2 (Z.eqb_neq _ _)) in H by lia.
  destruct (statsFor r ctx _) as [st|]; [|done].
  destruct (Z.ltb_spec 0 (TPMLimit (DConfig e))),
    (Z.ltb_spec (TPMLimit (DConfig e)) (CurrentMinuteTPM st +! EstimatedInputTokens req));
    destruct (Z.ltb_spec 0 (RPMLimit (DConfig e))),
    (Z.leb_spec (RPMLimit (DConfig e)) (CurrentMinuteRPM st +! 1)); cbn in H; lia || done.
Qed.

Lemma tpmrpmCandidates_Ok now g r ctx req el :
  tpmrpmCandidates now g r ctx req = Ok el ->
  el <> [] /\ forall c, c ∈ el -> admissible now r ctx req c.1 /\ c.2 = usageFor r ctx c.1.(Dep).(ID)
                             /\ tpmrpmEligible (estimate_of req) c = true.
Proof.
  unfold tpmrpmCandidates, outcome_bind.
  destruct (healthyFor _ _ _ _) as [[h s]| |] eqn:Eh; [|done..].
  apply healthyFor_Ok in Eh as (-> & Hne & Hh).
  destruct (tagStep _ _ _) as [t| |] eqn:Et; [|done..]. apply tagStep_Ok in Et as [Hne' Ht]; [|done].
  destruct (ok_or _ _) as [k| |] eqn:Ek; [|done..]. apply ok_or_Ok in Ek as [<- Hk].
  intros [= <-]. split; [by apply allowed_ne|].
  intros [e u] Hc%allowed_incl. apply elem_of_keep in Hc as [Hc Hel].
  rewrite elem_of_rand_shuffle, elem_of_tagged in Hc. cbn [fst snd] in *. destruct Hc as [Hc ->].
  destruct (Ht e Hc) as [Hc' Htag]. apply Hh in Hc' as [Hreg Hserv].
  assert (U : currentUsage (statsSnapshot r ctx (lookupDeployments r (Model req))) e
              = usageFor r ctx (ID (Dep e)))
    by (unfold currentUsage, usageFor; by rewrite (snapshot_of_elem r ctx _ e Hreg)).
  rewrite U in *. split; [|done]. split; [done..|]. by apply tpmrpmEligible_room.
Qed.
End Picks.

(** * The theorems of routing

    What a pick of any strategy returns, that it returns something, and what
    each strategy optimises. *)

Section Theorems.
Context {S R : Type} `{!StatsStore S} `{!RoundRobinStore R}.
Implicit Types (r : BaseRouter S) (rt : Router S R) (e : ExtendedDeployment) (ctx : context).

(** ** Every strategy *)

Lemma tagStep_cases cfg req l :
  (exists err, tagStep cfg req l = Err err) \/ exists l', tagStep cfg req l = Ok l'.
Proof. unfold tagStep. case_match; [destruct (filterByTags _ _); cbn|]; eauto. Qed.

Lemma limitStep_cases snap req l :
  (exists err, limitStep snap req l = Err err) \/ exists l', limitStep snap req l = Ok l'.
Proof. unfold limitStep. case_match; [destruct (filterByTPMRPM _ _ _); cbn|]; eauto. Qed.

Lemma TagBased_cases now g r ctx req :
  (exists err, TagBased_PickWithContext now g r ctx req = Err err) \/
  exists e, admissible now r ctx req e /\ TagBased_PickWithContext now g r ctx req = Ok e.(Dep).
Proof.
  unfold TagBased_PickWithContext, deployment_of, outcome_bind.
  destruct (healthyFor_cases now r ctx (Model req)) as [(h & s & E)|[-> _]]; [|eauto].
  rewrite E. apply healthyFor_Ok in E as (-> & Hne & Hh).
  destruct (filterByTags h _) as [|t ts] eqn:Et; cbn [ok_or]; [eauto|].
  rewrite <- Et.
  match goal with |- context [limitStep ?s req ?l] =>
    destruct (limitStep_cases s req l) as [(? & ->)|(l' & El)] end; [eauto|].
  rewrite El. apply limitStep_Ok in El as [Hne' Hl]; [|by rewrite Et]. right.
  destruct (@pick_random_elem route_err _ g (filterByDefaultProvider (config r) l')) as (e & He & ->).
  { intros X%filterByDefaultProvider_nil. done. }
  exists e. split; [|done]. apply filterByDefaultProvider_incl in He.
  destruct (Hl e He) as [He' Hroom]. apply filterByTags_sound in He' as [He' Htag].
  apply Hh in He' as [Hreg Hserv]. split; [done..|].
  intros Hpos. eapply withinLimits_room; eauto.
Qed.

Lemma TPMRPM_cases now g r ctx req :
  (exists err, TPMRPM_PickWithContext now g r ctx req = Err err) \/
  exists e, admissible now r ctx req e /\ TPMRPM_PickWithContext now g r ctx req = Ok e.(Dep).
Proof.
  rewrite TPMRPM_unfold. unfold outcome_bind.
  destruct (tpmrpmCandidates _ _ _ _ _) as [el|err|] eqn:E; [|eauto|].
  - apply tpmrpmCandidates_Ok in E as [Hne Hel]. right.
    destruct (min_scan_elem (fun c : ExtendedDeployment * (Z * Z) => c.2.1) el Hne) as ([e u] & -> & He).
    exists e. split; [by apply (Hel (e, u))|done].
  - unfold tpmrpmCandidates, outcome_bind in E.
    destruct (healthyFor_cases now r ctx (Model req)) as [(h & s & Eh)|[Eh _]]; rewrite Eh in E; [|done].
    destruct (tagStep_cases (config r) req h) as [(? & X)|(? & X)]; rewrite X in E; [done|].
    by destruct (keep _ _).
Qed.

Lemma eligible_cases now r ctx req :
  (exists err, eligible now r ctx req = Err err) \/ exists l snap, eligible now r ctx req = Ok (l, snap).
Proof.
  unfold eligible, outcome_bind.
  destruct (healthyFor_cases now r ctx (Model req)) as [(h & s & ->)|[-> _]]; [|eauto].
  destruct (tagStep_cases (config r) req h) as [(? & ->)|(h' & ->)]; [eauto|].
  destruct (limitStep_cases s req h') as [(? & ->)|(? & ->)]; eauto.
Qed.

Lemma eligible_admissible now r ctx req l snap e :
  eligible now r ctx req = Ok (l, snap) -> e ∈ l -> admissible now r ctx req e.
Proof. intros [_ H]%eligible_Ok He. rewrite Forall_forall in H. by apply H. Qed.

Lemma pick_returns_admissible now g rt rt' ctx req d :
  PickWithContext now g rt ctx req = (rt', Ok d) ->
  exists e, admissible now (baseOf rt) ctx req e /\ d = e.(Dep).
Proof.
  intros H. destruct (eligible_cases now (baseOf rt) ctx req) as [(err & E)|(l & snap & E)].
  - destruct rt as [rr|b|b|b|b|b reg|b]; cbn [PickWithContext baseOf] in *.
    + unfold RoundRobin_PickWithContext in H. by rewrite E in H.
    + unfold Shuffle_PickWithContext, outcome_bind in H. by rewrite E in H.
    + unfold Latency_PickWithContext, outcome_bind in H. by rewrite E in H.
    + unfold LeastBusy_PickWithContext, outcome_bind in H. by rewrite E in H.
    + destruct (TPMRPM_cases now g b ctx req) as [[? X]|(e & He & X)]; rewrite X in H; naive_solver.
    + unfold Cost_PickWithContext, outcome_bind in H. by rewrite E in H.
    + destruct (TagBased_cases now g b ctx req) as [[? X]|(e & He & X)]; rewrite X in H; naive_solver.
  - destruct rt as [rr|b|b|b|b|b reg|b]; cbn [PickWithContext baseOf] in *.
    + destruct (RoundRobin_picks now rr ctx req l snap E) as (e & He & X).
      destruct (RoundRobin_PickWithContext _ _ _ _); cbn in *. naive_solver eauto using eligible_admissible.
    + destruct (Shuffle_picks now g b ctx req l snap E) as (e & He & X). rewrite X in H.
      naive_solver eauto using eligible_admissible.
    + injection H as _ H. destruct (Latency_sound _ _ _ _ _ _ _ _ E H) as (e & He & ->).
      eauto using eligible_admissible.
    + destruct (LeastBusy_picks now g b ctx req l snap E) as (e & He & X). rewrite X in H.
      naive_solver eauto using eligible_admissible.
    + destruct (TPMRPM_cases now g b ctx req) as [[? X]|(e & He & X)]; rewrite X in H; naive_solver.
    + destruct (Cost_picks now g b ctx req l snap E reg) as (e & He & X). rewrite X in H.
      naive_solver eauto using eligible_admissible.
    + destruct (TagBased_cases now g b ctx req) as [[? X]|(e & He & X)]; rewrite X in H; naive_solver.
Qed.


(** What the latency strategy needs of its configuration and statistics. *)
Definition latency_ready (rt : Router S R) (ctx : context) (model : string) : Prop :=
  match rt with
  | Lowest_Latency b => good b.(config).(LatencyBuffer) /\
                        forall e st, e ∈ lookupDeployments b model ->
                          statsFor b ctx e.(Dep).(ID) = Some st -> sane_latencies st
  | _ => True
  end.

(** Strategies that choose over [eligible]. *)
Definition chooses_eligible (rt : Router S R) : bool :=
  match rt with TPMRPM _ | TagBased _ => false | _ => true end.

Lemma pick_eligible now g rt ctx req l snap :
  latency_ready rt ctx req.(Model) -> chooses_eligible rt = true ->
  eligible now (baseOf rt) ctx req = Ok (l, snap) ->
  exists e, e ∈ l /\ (PickWithContext now g rt ctx req).2 = Ok e.(Dep).
Proof.
  intros Hlat Hc E. destruct rt as [rr|b|b|b|b|b reg|b]; try done; cbn [PickWithContext baseOf snd] in *.
  - destruct (RoundRobin_picks now rr ctx req l snap E) as (e & He & X).
    destruct (RoundRobin_PickWithContext _ _ _ _). eauto.
  - by apply Shuffle_picks with snap.
  - destruct Hlat. by apply Latency_picks with snap.
  - by apply LeastBusy_picks with snap.
  - by apply Cost_picks with snap.
Qed.

Lemma pick_eligible_err now g rt ctx req err :
  chooses_eligible rt = true -> eligible now (baseOf rt) ctx req = Err err ->
  (PickWithContext now g rt ctx req).2 = Err err.
Proof.
  intros Hc E. destruct rt as [rr|b|b|b|b|b reg|b]; try done; cbn [PickWithContext baseOf snd] in *.
  - unfold RoundRobin_PickWithContext. by rewrite E.
  - unfold Shuffle_PickWithContext, outcome_bind. by rewrite E.
  - unfold Latency_PickWithContext, outcome_bind. by rewrite E.
  - unfold LeastBusy_PickWithContext, outcome_bind. by rewrite E.
  - unfold Cost_PickWithContext, outcome_bind. by rewrite E.
Qed.

(** No pick panics: whatever the request, the draws and the contents of the
    stores, every strategy returns a deployment or an error.  For the latency
    strategy this needs a finite, non-negative latency buffer and finite,
    non-negative latencies, without which no candidate passes the threshold and
    the random choice among none panics. *)
Theorem pick_never_panics now g rt ctx req :
  latency_ready rt ctx req.(Model) -> (PickWithContext now g rt ctx req).2 <> Panic.
Proof.
  intros Hlat. destruct (chooses_eligible rt) eqn:Hc.
  - destruct (eligible_cases now (baseOf rt) ctx req) as [(err & E)|(l & snap & E)].
    + by rewrite (pick_eligible_err now g rt ctx req err Hc E).
    + by destruct (pick_eligible now g rt ctx req l snap Hlat Hc E) as (e & _ & ->).
  - destruct rt as [| | | |b| |b]; try done; cbn [PickWithContext snd].
    + by destruct (TPMRPM_cases now g b ctx req) as [(? & ->)|(? & _ & ->)].
    + by destruct (TagBased_cases now g b ctx req) as [(? & ->)|(? & _ & ->)].
Qed.

Lemma eligible_plain now r ctx model :
  eligible now r ctx (modelContext model)
  = let! (l, snap) := healthyFor now r ctx model in Ok (l, snap).
Proof.
  unfold eligible, tagStep, limitStep, outcome_bind. cbn.
  rewrite andb_false_r. by destruct (healthyFor _ _ _ _) as [[]| |].
Qed.

Lemma filterByTags_untagged deps : filterByTags deps [] = [] -> deps = [].
Proof. unfold filterByTags. by intros [_ ?]%or_else_nil. Qed.

Lemma TagBased_plain now g r ctx model l snap :
  healthyFor now r ctx model = Ok (l, snap) ->
  exists d, TagBased_PickWithContext now g r ctx (modelContext model) = Ok d.
Proof.
  intros E. unfold TagBased_PickWithContext, deployment_of, outcome_bind. cbn [Model modelContext ReqTags].
  rewrite E. apply healthyFor_Ok in E as (_ & Hne & _).
  destruct (ok_or _ _) as [t|err|] eqn:Et.
  - apply ok_or_Ok in Et as [<- Hne'].
    change (limitStep snap (modelContext model) (filterByTags l [])) with
      (@Ok route_err _ (filterByTags l [])).
    destruct (@pick_random_elem route_err _ g (filterByDefaultProvider (config r) (filterByTags l [])))
      as (e & _ & ->); [|eauto]. by intros X%filterByDefaultProvider_nil.
  - destruct (filterByTags l []) eqn:X; [by apply filterByTags_untagged in X|done].
  - by destruct (filterByTags l []).
Qed.

(** Availability.  A pick by model name finds a deployment exactly when one
    registered for the model is out of cooldown, for every strategy but the
    TPM/RPM one (which also refuses deployments at their limits); when there is
    none, the error is [ErrNoAvailableDeployment]. *)
Theorem pick_available now g rt ctx model :
  latency_ready rt ctx model -> (forall b, rt <> TPMRPM b) ->
  if bool_decide (Exists (fun e => in_service now (baseOf rt) ctx e.(Dep).(ID) = true)
       (lookupDeployments (baseOf rt) model))
  then exists d, (Pick now g rt ctx model).2 = Ok d
  else (Pick now g rt ctx model).2 = Err ErrNoAvailableDeployment.
Proof.
  intros Hlat Hn. unfold Pick. pose proof (eligible_plain now (baseOf rt) ctx model) as P.
  destruct (healthyFor_cases now (baseOf rt) ctx model) as [(l & snap & E)|[E Hno]].
  - pose proof (healthyFor_Ok _ _ _ _ _ _ E) as (_ & Hne & Hl). rewrite bool_decide_true.
    2: { apply Exists_exists. destruct l as [|e l]; [done|]. exists e. apply Hl. left. }
    destruct (chooses_eligible rt) eqn:Hc.
    + rewrite E in P. destruct (pick_eligible now g rt ctx (modelContext model) l snap Hlat Hc P) as (e & _ & ->). eauto.
    + destruct rt as [| | | |b| |b]; try done; [by destruct (Hn b)|].
      by apply (TagBased_plain now g b ctx model l snap).
  - rewrite bool_decide_false.
    2: { rewrite Exists_exists. intros (e & He & Hs). by rewrite (Hno e He) in Hs. }
    destruct (chooses_eligible rt) eqn:Hc.
    + rewrite E in P. by apply pick_eligible_err.
    + destruct rt as [| | | |b| |b]; try done; [by destruct (Hn b)|]. cbn [PickWithContext snd baseOf] in *.
      unfold TagBased_PickWithContext, outcome_bind. cbn [Model modelContext]. by rewrite E.
Qed.

(** ** What each strategy optimises *)

(** The least-busy pick returns a deployment whose number of active requests
    is the smallest among the eligible deployments of the preferred provider. *)
Theorem least_busy_minimal now g r ctx req l snap :
  eligible now r ctx req = Ok (l, snap) ->
  (forall e, e ∈ l -> 0 <= activeRequests snap e) ->
  exists e, LeastBusy_PickWithContext now g r ctx req = Ok e.(Dep) /\
    e ∈ filterByDefaultProvider r.(config) l /\
    forall e', e' ∈ filterByDefaultProvider r.(config) l -> activeRequests snap e <= activeRequests snap e'.
Proof.
  intros E Hpos. pose proof (tagged_shuffle_ne now g r ctx req l snap E (activeRequests snap)) as Hne.
  unfold LeastBusy_PickWithContext, outcome_bind. rewrite E.
  destruct (min_scan_spec snd _ Hne) as ([e n] & -> & He & Hmin).
  { intros c Hc. apply tagged_shuffle_elem in Hc as [Hc ->].
    by apply Hpos, (filterByDefaultProvider_incl r.(config)). }
  apply tagged_shuffle_elem in He as [He En]. cbn in He, En. subst n.
  exists e. split_and!; [done..|]. intros e' He'.
  apply (Hmin (e', activeRequests snap e')). by rewrite elem_of_rand_shuffle, elem_of_tagged.
Qed.

(** The cost pick returns a deployment no eligible deployment of the preferred
    provider is cheaper than, costs being the configured prices, else the
    registry's, else one dollar a token. *)
Theorem cost_minimal now g reg r ctx req l snap :
  eligible now r ctx req = Ok (l, snap) ->
  (forall e, e ∈ l -> is_nan (deploymentCost reg e) = false) ->
  exists e, Cost_PickWithContext now g reg r ctx req = Ok e.(Dep) /\
    e ∈ filterByDefaultProvider r.(config) l /\
    forall e', e' ∈ filterByDefaultProvider r.(config) l -> fle (deploymentCost reg e) (deploymentCost reg e').
Proof.
  intros E Hnum. pose proof (tagged_shuffle_ne now g r ctx req l snap E (deploymentCost reg)) as Hne.
  unfold Cost_PickWithContext, outcome_bind. rewrite E.
  set (cands := rand_shuffle _ _) in *.
  assert (Hin : forall c, c ∈ cands -> c.1 ∈ filterByDefaultProvider (config r) l /\ c.2 = deploymentCost reg c.1)
    by (intros c; apply tagged_shuffle_elem).
  assert (Hn : forall e, e ∈ filterByDefaultProvider (config r) l -> is_nan (deploymentCost reg e) = false)
    by (intros e He; by apply Hnum, (filterByDefaultProvider_incl r.(config))).
  destruct (sort_slice_stable _ cands) as [|[e c] t] eqn:Es; [by apply sort_nil in Es|].
  assert (He : (e, c) ∈ cands) by (rewrite <- (elem_of_sort (fun a b => a.2 <.? b.2)), Es; left).
  apply Hin in He as [He Ec]. cbn in He, Ec. subst c.
  exists e. split_and!; [done..|]. intros e' He'. apply not_flt_fle; [by apply Hn..|].
  refine (sort_head_min (fun a b => a.2 <.? b.2) (fun a => is_nan a.2 = false) cands
    (e, deploymentCost reg e) t _ Es (e', deploymentCost reg e') _).
  - apply Forall_forall. intros x Hx. apply Hin in Hx as [Hx ->]. by apply Hn.
  - unfold cands. by rewrite elem_of_rand_shuffle, elem_of_tagged.
Qed.

(** The TPM/RPM pick returns an admissible deployment with the smallest token
    usage of the current minute among its candidates, all of them within their
    limits for the estimated tokens. *)
Theorem tpmrpm_minimal now g r ctx req el :
  tpmrpmCandidates now g r ctx req = Ok el ->
  (forall e, e ∈ lookupDeployments r req.(Model) -> 0 <= (usageFor r ctx e.(Dep).(ID)).1) ->
  exists e u, TPMRPM_PickWithContext now g r ctx req = Ok e.(Dep) /\ (e, u) ∈ el /\
    admissible now r ctx req e /\
    forall e' u', (e', u') ∈ el -> (usageFor r ctx e.(Dep).(ID)).1 <= (usageFor r ctx e'.(Dep).(ID)).1.
Proof.
  intros E Hpos. rewrite TPMRPM_unfold, E. cbn [outcome_bind].
  apply tpmrpmCandidates_Ok in E as [Hne Hel].
  destruct (min_scan_spec (fun c : ExtendedDeployment * (Z * Z) => c.2.1) el Hne) as ([e u] & -> & He & Hmin).
  { intros c Hc. destruct (Hel c Hc) as (Ha & -> & _). apply Hpos, Ha. }
  exists e, u. destruct (Hel _ He) as (Ha & Eu & _). cbn [fst snd] in *. split_and!; [done..|].
  intros e' u' He'. destruct (Hel _ He') as (_ & Eu' & _). cbn [fst snd] in *.
  rewrite <- Eu, <- Eu'. by apply (Hmin _ He').
Qed.

(** The TPM/RPM strategy leaves the last request of a minute unused: it
    never picks a deployment whose usage is one request below its RPM limit,
    although the limit filter of the other strategies admits it.  In particular
    a deployment limited to one request a minute is never picked. *)
Theorem tpmrpm_last_request_unused now g r ctx req d :
  TPMRPM_PickWithContext now g r ctx req = Ok d ->
  exists e, e ∈ lookupDeployments r req.(Model) /\ d = e.(Dep) /\
    (0 < e.(DConfig).(RPMLimit) -> (usageFor r ctx e.(Dep).(ID)).2 +! 1 < e.(DConfig).(RPMLimit)).
Proof.
  rewrite TPMRPM_unfold. destruct (tpmrpmCandidates _ _ _ _ _) as [el| |] eqn:E; cbn [outcome_bind]; [|done..].
  apply tpmrpmCandidates_Ok in E as [Hne Hel].
  destruct (min_scan_elem (fun c : ExtendedDeployment * (Z * Z) => c.2.1) el Hne) as ([e u] & -> & He).
  intros [= <-]. destruct (Hel _ He) as (Ha & Eu & Hlim). cbn [fst snd] in *. subst u.
  exists e. split_and!; [apply Ha|done|]. intros Hl. unfold tpmrpmEligible in Hlim.
  destruct (usageFor r ctx _) as [tpm rpm]. cbn [snd] in *.
  destruct (Z.ltb_spec 0 (RPMLimit (DConfig e))), (Z.leb_spec (RPMLimit (DConfig e)) (rpm +! 1)); try lia.
  cbn in Hlim. by case_match.
Qed.

(** Usage never expires on reading.  When the statistics of every deployment
    of a model are at the RPM limit, the TPM/RPM strategy refuses every request
    for the model at every later instant, in the same minute or in any later
    one: only a reported success starts a new minute, and none can happen. *)
Theorem tpmrpm_usage_sticks r ctx model :
  (forall e, e ∈ lookupDeployments r model ->
     0 < e.(DConfig).(RPMLimit) <= (usageFor r ctx e.(Dep).(ID)).2 +! 1) ->
  forall now g req, req.(Model) = model -> exists err, TPMRPM_PickWithContext now g r ctx req = Err err.
Proof.
  intros Hfull now g req <-. destruct (TPMRPM_cases now g r ctx req) as [?|(e & He & X)]; [done|].
  rewrite TPMRPM_unfold in X |- *.
  destruct (tpmrpmCandidates now g r ctx req) as [el|err|] eqn:E; cbn [outcome_bind] in *; [|eauto|done].
  apply tpmrpmCandidates_Ok in E as [Hne Hel]. destruct el as [|[e' u] el]; [done|].
  destruct (Hel (e', u)) as (Ha & Eu & Hlim); [left|]. cbn [fst snd] in *. subst u.
  specialize (Hfull e' (adm_registered _ _ _ _ _ Ha)). unfold tpmrpmEligible in Hlim.
  destruct (usageFor r ctx _) as [tpm rpm]. cbn [snd] in *.
  rewrite (proj2 (Z.ltb_lt 0 (RPMLimit (DConfig e')))), (proj2 (Z.leb_le _ (rpm +! 1))) in Hlim by lia.
  cbn in Hlim. by case_match.
Qed.
End Theorems.

(** ** A concrete fleet

    Two deployments of one model: one idle, expensive and limited, one with two
    requests in flight; the theorems at work on it. *)
Module Fleet.
Export MemoryStore MemoryRR.
Abbreviation store := MemoryStore.MemoryStatsStore.
Abbreviation rr := MemoryRR.MemoryRoundRobinStore.

Definition east : Deployment :=
  {| ID := "east"; ProviderName := "openai"; ModelName := "gpt-4o"; ModelAlias := ""; BaseURL := ""; MaxConcurrent := 0 |}.
Definition west : Deployment :=
  {| ID := "west"; ProviderName := "openai"; ModelName := "gpt-4o"; ModelAlias := ""; BaseURL := ""; MaxConcurrent := 0 |}.
Definition west_config : DeploymentConfig :=
  {| Weight := fone; TPMLimit := 1000; RPMLimit := 10; InputCostPerToken := f64_lit 1 1000;
     OutputCostPerToken := f64_lit 2 1000; Tags := ["default"] |}.

Definition noon : time := 1700000000 * Second.

Definition fresh : BaseRouter store :=
  AddDeploymentWithConfig (AddDeployment (NewBaseRouter DefaultConfig) east) west west_config.

(** Two requests in flight on [east], one of 40 tokens done on [west]. *)
Definition busy : BaseRouter store :=
  let r := ReportRequestStart (ReportRequestStart fresh Background east) Background east in
  ReportSuccess noon noon r Background west
    {| Latency := 200 * Millisecond; TimeToFirstToken := 0; TotalTokens := 40; InputTokens := 30; OutputTokens := 10; MetricsCost := fzero |}.

Definition draws : Rand := {| draw_intn := 1; draw_float := f64_lit 1 2; draw_shuffle := fun i => i |}.
Definition request : RequestContext :=
  {| Model := "openai/gpt-4o"; IsStreaming := false; ReqTags := ["default"]; EstimatedInputTokens := 50 |}.

Definition fleet : list ExtendedDeployment := lookupDeployments busy "gpt-4o".
Definition known : gmap string DeploymentStats := statsSnapshot busy Background fleet.

Definition router (b : BaseRouter store) : Router store rr := Lowest_Latency b.

Lemma busy_sane b ctx model :
  b = busy -> ctx = Background -> model = "gpt-4o" -> latency_ready (R := rr) (Lowest_Latency b) ctx model.
Proof.
  intros -> -> ->. split; [by vm_compute|]. intros e st He Hst.
  assert (He' : e ∈ [ {| Dep := east; DConfig := zeroDeploymentConfig |}; {| Dep := west; DConfig := west_config |} ])
    by exact He.
  rewrite !elem_of_cons, elem_of_nil in He'. destruct He' as [->|[->|[]]];
    vm_compute in Hst; injection Hst as <-; by vm_compute.
Qed.
End Fleet.
Import Fleet.


Lemma pick_never_panics_witness :
  (PickWithContext noon draws (router busy) Background (modelContext "gpt-4o")).2 <> Panic.
Proof. apply pick_never_panics. apply busy_sane; reflexivity. Defined.

Lemma pick_available_witness :
  exists d, (Pick noon draws (router busy) Background "gpt-4o").2 = Ok d.
Proof.
  refine (pick_available noon draws (router busy) Background "gpt-4o" _ _).
  - apply busy_sane; reflexivity.
  - intros b. discriminate.
Defined.

Lemma least_busy_minimal_witness :
  exists e, LeastBusy_PickWithContext noon draws busy Background (modelContext "gpt-4o") = Ok e.(Dep)
    /\ e.(Dep) = west.
Proof.
  destruct (least_busy_minimal noon draws busy Background (modelContext "gpt-4o") fleet known) as (e & E & _ & _).
  { vm_compute. reflexivity. }
  { intros e He. apply Forall_forall with (P := fun e => 0 <= activeRequests known e) (x := e) in He; [exact He|].
    repeat constructor; vm_compute; discriminate. }
  exists e. split; [exact E|]. vm_compute in E. injection E as E. symmetry. exact E.
Defined.

Lemma cost_minimal_witness :
  exists e, Cost_PickWithContext noon draws ∅ busy Background (modelContext "gpt-4o") = Ok e.(Dep)
    /\ e.(Dep) = west.
Proof.
  destruct (cost_minimal noon draws ∅ busy Background (modelContext "gpt-4o") fleet known) as (e & E & _ & _).
  { vm_compute. reflexivity. }
  { intros e He. apply Forall_forall with (P := fun e => is_nan (deploymentCost ∅ e) = false) (x := e) in He; [exact He|].
    repeat constructor. }
  exists e. split; [exact E|]. vm_compute in E. injection E as E. symmetry. exact E.
Defined.

Lemma tpmrpm_minimal_witness :
  exists e, TPMRPM_PickWithContext noon draws busy Background request = Ok e.(Dep) /\ e.(Dep) = east.
Proof.
  destruct (tpmrpm_minimal noon draws busy Background request
    [({| Dep := east; DConfig := zeroDeploymentConfig |}, (0, 0)); ({| Dep := west; DConfig := west_config |}, (40, 1))])
    as (e & u & E & _).
  { vm_compute. reflexivity. }
  { intros e He. apply Forall_forall with (P := fun e => 0 <= (usageFor busy Background e.(Dep).(ID)).1) (x := e) in He;
      [exact He|]. repeat constructor; vm_compute; discriminate. }
  exists e. split; [exact E|]. vm_compute in E. injection E as E. symmetry. exact E.
Defined.

Lemma tpmrpm_last_request_unused_witness :
  exists e, e ∈ lookupDeployments busy "openai/gpt-4o" /\ e.(Dep) = east.
Proof.
  destruct (tpmrpm_last_request_unused noon draws busy Background request east) as (e & He & E & _);
    [vm_compute; reflexivity|].
  exists e. split; [exact He|symmetry; exact E].
Defined.

(** One deployment, limited to one request a minute: refused from the start. *)
Lemma tpmrpm_usage_sticks_witness :
  let r := AddDeploymentWithConfig (NewBaseRouter DefaultConfig : BaseRouter store) west
             (west_config<|RPMLimit := 1|>) in
  exists err, TPMRPM_PickWithContext (noon + Hour) draws r Background (modelContext "gpt-4o") = Err err.
Proof.
  intros r. apply (tpmrpm_usage_sticks r Background "gpt-4o"); [|reflexivity].
  intros e He.
  apply Forall_forall with (x := e)
    (P := fun e => 0 < e.(DConfig).(RPMLimit) <= (usageFor r Background e.(Dep).(ID)).2 +! 1) in He; [exact He|].
  repeat constructor; vm_compute; discriminate.
Defined.
