(* ===== verification/Cooldown.v ===== *)
(** * Cooldowns, isolation of tenants, registration

    How the reports of a request change what later picks may return. *)
From Stdlib Require Import Ascii.
From S2P Require Import Prelude Float64 Float64Round Errors ModelName RouterTypes StatsStore BaseRouter FailureWindow Strategies Factory PickTheorems.

(** ** Keys of the local statistics *)

Fixpoint no_colon (s : string) : Prop :=
  match s with
  | EmptyString => True
  | String c s' => c <> ":"%char /\ no_colon s'
  end.

#[export] Instance no_colon_dec s : Decision (no_colon s).
Proof. induction s; cbn; apply _. Defined.

Lemma separator_inj s1 s2 i1 i2 :
  no_colon s1 -> no_colon s2 -> s1 +:+ ":" +:+ i1 = s2 +:+ ":" +:+ i2 -> s1 = s2 /\ i1 = i2.
Proof.
  revert s2. induction s1 as [|c s1 IH]; intros [|c' s2]; cbn; intros H1 H2 E.
  - by injection E.
  - injection E as <- _. by destruct H2 as [[] _].
  - injection E as -> _. by destruct H1 as [[] _].
  - destruct H1 as [_ H1], H2 as [_ H2]. injection E as -> E.
    destruct (IH s2 H1 H2 E) as [-> ->]. done.
Qed.

Lemma separator_not_plain s i j : no_colon j -> s +:+ ":" +:+ i <> j.
Proof.
  revert j. induction s as [|c s IH]; intros [|c' j]; cbn; intros Hj E; try done.
  - injection E as <- _. by destruct Hj as [[] _].
  - injection E as -> E. destruct Hj as [_ Hj]. by apply (IH j).
Qed.

(** Without colons in scopes and identifiers the key determines both. *)
Lemma localStatsKey_inj ctx ctx' id id' :
  no_colon (TenantScopeFromContext ctx) -> no_colon (TenantScopeFromContext ctx') ->
  no_colon id -> no_colon id' ->
  localStatsKey ctx id = localStatsKey ctx' id' ->
  TenantScopeFromContext ctx = TenantScopeFromContext ctx' /\ id = id'.
Proof.
  intros Hs Hs' Hi Hi'. unfold localStatsKey.
  destruct (String.eqb_spec (TenantScopeFromContext ctx) "") as [->|],
    (String.eqb_spec (TenantScopeFromContext ctx') "") as [->|]; intros E.
  - done.
  - symmetry in E. by apply separator_not_plain in E.
  - by apply separator_not_plain in E.
  - by apply separator_inj.
Qed.

Section Reports.
Context {S R : Type} `{!StatsStore S} `{!RoundRobinStore R}.
Implicit Types (r : BaseRouter S) (d : Deployment).

Lemma emitted_frame_stats r ev : (emit ev r).(stats) = r.(stats) /\ (emit ev r).(statsStore) = r.(statsStore)
  /\ (emit ev r).(config) = r.(config) /\ (emit ev r).(deployments) = r.(deployments).
Proof. done. Qed.

Lemma recordCooldownMetric_frame now od bef aft r :
  (recordCooldownMetric now od bef aft r).(stats) = r.(stats) /\
  (recordCooldownMetric now od bef aft r).(statsStore) = r.(statsStore) /\
  (recordCooldownMetric now od bef aft r).(config) = r.(config) /\
  (recordCooldownMetric now od bef aft r).(deployments) = r.(deployments).
Proof. unfold recordCooldownMetric. by repeat case_match. Qed.

(** *** The entry a failure report leaves (local mode) *)

Lemma ReportFailure_local now nowCool nowMetric r ctx d err :
  r.(statsStore) = None ->
  let r' := ReportFailure now nowCool nowMetric r ctx d err in
  r'.(statsStore) = None /\ r'.(deployments) = r.(deployments) /\ r'.(config) = r.(config) /\
  r'.(stats) = <[localStatsKey ctx d.(ID) :=
    (failureEntry r.(config) (isSingleDeployment r d) now nowCool err
      (getOrCreateStats r (localStatsKey ctx d.(ID)))).1]> r.(stats).
Proof.
  intros Hs r'. unfold r', ReportFailure. rewrite Hs.
  destruct (failureEntry _ _ _ _ _ _) as [st' cooled]. destruct cooled; [|done].
  match goal with |- context [recordCooldownMetric ?a ?b ?c ?d ?e] =>
    destruct (recordCooldownMetric_frame a b c d e) as (-> & -> & -> & ->) end. done.
Qed.

(** A failure with one of the immediate statuses sets the cooldown. *)
Lemma failureEntry_immediate cfg single now nowCool err e st :
  errors_As err = Some e -> immediateCooldown cfg single e = true ->
  ((failureEntry cfg single now nowCool err st).1).(entry).(CooldownUntil)
    = time_add nowCool cfg.(CooldownPeriod).
Proof. intros E H. unfold failureEntry. rewrite E. cbn [fmap option_fmap option_map default]. by rewrite H. Qed.

Lemma statsFor_after_failure now nowCool nowMetric r ctx d err :
  r.(statsStore) = None ->
  statsFor (ReportFailure now nowCool nowMetric r ctx d err) ctx d.(ID)
  = Some ((failureEntry r.(config) (isSingleDeployment r d) now nowCool err
           (getOrCreateStats r (localStatsKey ctx d.(ID)))).1).(entry).
Proof.
  intros Hs. destruct (ReportFailure_local now nowCool nowMetric r ctx d err Hs) as (E1 & _ & _ & E2).
  unfold statsFor. rewrite E1, E2. by rewrite lookup_insert_eq.
Qed.

(** C8: Cooldown.  In local mode, once a failure with status 401, 404 or 408 (or
    429 when enabled and the model has several deployments) is reported for a
    deployment, no strategy returns it to a request of the same tenant until the
    cooldown period has passed; after that it is in service again. *)
Theorem failure_cools_down now nowCool nowMetric (rt : Router S R) ctx d err e :
  (baseOf rt).(statsStore) = None -> errors_As err = Some e ->
  immediateCooldown (baseOf rt).(config) (isSingleDeployment (baseOf rt) d) e = true ->
  let rt' := promote (fun b => ReportFailure now nowCool nowMetric b ctx d err) rt in
  let until := time_add nowCool (baseOf rt).(config).(CooldownPeriod) in
  (forall t g req rt'' d', PickWithContext t g rt' ctx req = (rt'', Ok d') -> d'.(ID) = d.(ID) -> until < t)
  /\ forall t, in_service t (baseOf rt') ctx d.(ID) = (until <? t).
Proof.
  intros Hs E Hc rt' until.
  assert (G : forall t, in_service t (baseOf rt') ctx d.(ID) = (until <? t)).
  { intros t. unfold rt', in_service. rewrite baseOf_promote, statsFor_after_failure by done.
    by rewrite (failureEntry_immediate _ _ _ _ _ e). }
  split; [|exact G]. intros t g req rt'' d' Hp Hid.
  destruct (pick_returns_admissible t g rt' rt'' ctx req d' Hp) as (x & Hx & ->).
  pose proof (adm_in_service _ _ _ _ _ Hx) as H. rewrite Hid, G in H. by apply Z.ltb_lt.
Qed.

(** ** Tenants *)

Lemma with_entry_frame r key f ctx id :
  r.(statsStore) = None -> localStatsKey ctx id <> key ->
  statsFor (with_entry r key f) ctx id = statsFor r ctx id.
Proof. intros Hs Hne. unfold statsFor. cbn. rewrite Hs. by rewrite lookup_insert_ne. Qed.

(** A report about one deployment of one tenant. *)
Inductive report :=
| RStart | REnd
| RSuccess (now nowUsage : time) (metrics : ResponseMetrics)
| RFailure (now nowCool nowMetric : time) (err : go_error).

Definition apply_report (rp : report) (r : BaseRouter S) (ctx : context) (d : Deployment) : BaseRouter S :=
  match rp with
  | RStart => ReportRequestStart r ctx d
  | REnd => ReportRequestEnd r ctx d
  | RSuccess now nowUsage metrics => ReportSuccess now nowUsage r ctx d metrics
  | RFailure now nowCool nowMetric err => ReportFailure now nowCool nowMetric r ctx d err
  end.

Lemma report_frame rp r ctx d ctx' id' :
  r.(statsStore) = None -> localStatsKey ctx' id' <> localStatsKey ctx d.(ID) ->
  statsFor (apply_report rp r ctx d) ctx' id' = statsFor r ctx' id'.
Proof.
  intros Hs Hne. destruct rp; cbn [apply_report].
  - unfold ReportRequestStart. cbn. rewrite Hs. by rewrite with_entry_frame.
  - unfold ReportRequestEnd. cbn. rewrite Hs. by rewrite with_entry_frame.
  - unfold ReportSuccess. rewrite Hs. by rewrite with_entry_frame.
  - destruct (ReportFailure_local now nowCool nowMetric r ctx d err Hs) as (E1 & _ & _ & E2).
    unfold statsFor. rewrite E1, E2, Hs. by rewrite lookup_insert_ne.
Qed.

(** C36: Tenant isolation in local mode.  For a router that keeps its statistics itself
    (with no statistics store: the in-memory store ignores the tenant), reports made in
    one tenant's context, for any deployments, leave the statistics every other tenant
    reads as they were, cooldowns included, as long as neither the two tenant scopes nor
    the deployment identifiers contain a colon. *)
Theorem tenant_isolation rps r ctx ctx' id' :
  r.(statsStore) = None ->
  TenantScopeFromContext ctx <> TenantScopeFromContext ctx' ->
  no_colon (TenantScopeFromContext ctx) -> no_colon (TenantScopeFromContext ctx') -> no_colon id' ->
  Forall (fun p : report * Deployment => no_colon p.2.(ID)) rps ->
  statsFor (foldl (fun r p => apply_report p.1 r ctx p.2) r rps) ctx' id' = statsFor r ctx' id'.
Proof.
  intros Hs Hne H1 H2 H3 Hall. revert r Hs.
  induction Hall as [|[rp d] rps Hd _ IH]; intros r Hs; cbn [foldl]; [done|].
  cbn [fst snd] in *. rewrite IH.
  - apply report_frame; [done|]. intros E%localStatsKey_inj; [|done..]. by destruct E as [E _].
  - destruct rp; cbn [apply_report].
    + unfold ReportRequestStart. cbn. by rewrite Hs.
    + unfold ReportRequestEnd. cbn. by rewrite Hs.
    + unfold ReportSuccess. by rewrite Hs.
    + by apply ReportFailure_local.
Qed.

(** ** Manual cooldowns *)
Context `{!StatsStoreLaws S}.

(** [SetCooldown] and [IsCircuitOpen] agree, in local mode and over any store
    that satisfies the interface's laws: after a cooldown until some instant is
    set without error, the circuit of the deployment is open exactly before that
    instant, and requests outside any tenant are not served by it until it has
    passed. *)
Theorem set_cooldown_opens_circuit order now r r' d until :
  SetRouterCooldown order now r d.(ID) until = (r', None) ->
  forall t, IsCircuitOpen t r' d = (t <? until) /\ in_service t r' Background d.(ID) = (until <? t).
Proof.
  unfold SetRouterCooldown. destruct (statsStore r) as [store|] eqn:Hs.
  - destruct (SetCooldown Background (ID d) until store) as [store' err] eqn:Ec.
    destruct err; [done|]. intros [= <-] t.
    destruct (set_cooldown_get _ _ _ _ _ Ec) as (st & Eg & Eu).
    unfold IsCircuitOpen, in_service, statsFor.
    match goal with |- context [recordCooldownMetric ?a ?b ?c ?d ?e] =>
      destruct (recordCooldownMetric_frame a b c d e) as (_ & -> & _ & _) end.
    cbn. rewrite Eg, (cooldown_in_stats _ _ _ _ Eg), Eu. done.
  - intros [= <-] t. unfold IsCircuitOpen, in_service, statsFor, localStatsKey.
    match goal with |- context [recordCooldownMetric ?a ?b ?c ?d ?e] =>
      destruct (recordCooldownMetric_frame a b c d e) as (-> & -> & _ & _) end.
    cbn. rewrite Hs. cbn. by rewrite lookup_insert_eq.
Qed.
End Reports.

(** ** The failure-rate rule over the log of outcomes *)

Lemma tally_bounds ok P evs : 0 <= tally ok P evs <= Z.of_nat (length evs).
Proof.
  unfold tally, keep. split; [lia|]. apply Nat2Z.inj_le, List.filter_length_le.
Qed.

Lemma tally_both P evs : tally true P evs + tally false P evs <= Z.of_nat (length evs).
Proof.
  induction evs as [|e evs IH] using rev_ind; [done|].
  rewrite !tally_snoc, length_app. cbn [length]. destruct e.2, (P (ev_minute e)); cbn; lia.
Qed.

(** The failure-rate rule, over the log of outcomes of a deployment.  A single
    deployment is put in cooldown exactly when the last five minutes hold at
    least 1000 outcomes, all of them failures.  Among several deployments none is
    while the window holds fewer outcomes than the minimum, and a threshold of
    100% or more never starts a cooldown, since the rate cannot exceed it. *)
Theorem failure_rate_rule cfg evs now :
  chronological evs -> Forall (fun e => ev_minute e <= bucketMinute now) evs -> 0 <= bucketMinute now ->
  Z.of_nat (length evs) < 2 ^ 53 ->
  let st := record_all (newStatsEntry cfg) evs in
  let successes := tally true (in_window now) evs in
  let failures := tally false (in_window now) evs in
  (shouldCooldownByFailureRate cfg st now true = true <-> 1000 <= failures /\ successes = 0) /\
  (successes + failures < cfg.(MinRequestsForThreshold) -> shouldCooldownByFailureRate cfg st now false = false) /\
  (fle fone cfg.(FailureThresholdPercent) -> shouldCooldownByFailureRate cfg st now false = false).
Proof.
  intros Hc Hle Hnow Hlen st s f.
  pose proof (tally_bounds true (in_window now) evs) as Bs. pose proof (tally_bounds false (in_window now) evs) as Bf.
  pose proof (tally_both (in_window now) evs) as Bsf. fold s in Bs, Bsf. fold f in Bf, Bsf.
  unfold shouldCooldownByFailureRate, st. rewrite window_totals_log by done.
  unfold sliding_totals. cbn [fst snd]. fold s f.
  rewrite (wrap64_id s), (wrap64_id f), (wrap64_id (s + f)) by (unfold in_i64, two63; lia).
  destruct (Z.eqb_spec (s + f) 0) as [E0|E0]; [split_and!; [|done..]; split; [done|lia]|].
  split_and!.
  - unfold defaultSingleDeploymentFailureMinReq. rewrite andb_true_iff, Z.leb_le, Z.eqb_eq. lia.
  - intros Hmin. by rewrite (proj2 (Z.ltb_lt _ _)).
  - intros Ht. case_match; [done|].
    assert (Hr : fle (f64_of_Z f ⊘ f64_of_Z (s + f)) fone) by (apply count_ratio_le_one; lia).
    apply not_flt_fle; [by apply fle_num in Ht as []|by apply fle_num in Hr as []|]. by eapply fle_trans.
Qed.

(** ** Registration *)
Section Registration.
Context {S : Type} `{!StatsStore S}.
Implicit Types (r : BaseRouter S) (d : Deployment).

(** No deployment is registered under the identifier. *)
Definition unregistered (id : string) (r : BaseRouter S) : Prop :=
  map_Forall (fun _ deps => Forall (fun e => e.(Dep).(ID) <> id) deps) r.(deployments).

Lemma remove_first_absent id deps :
  Forall (fun e => e.(Dep).(ID) <> id) deps -> remove_first (has_id id) deps = deps.
Proof.
  induction 1 as [|e deps He _ IH]; cbn; [done|].
  unfold has_id. rewrite (proj2 (String.eqb_neq _ _)) by done. by f_equal.
Qed.

Lemma remove_first_appended id deps e :
  e.(Dep).(ID) = id -> Forall (fun e => e.(Dep).(ID) <> id) deps -> remove_first (has_id id) (deps ++ [e]) = deps.
Proof.
  intros He. induction 1 as [|e' deps He' _ IH]; cbn; unfold has_id at 1.
  - by rewrite (proj2 (String.eqb_eq _ _)).
  - rewrite (proj2 (String.eqb_neq _ _)) by done. by f_equal.
Qed.

Lemma unregistered_lookup id r k :
  unregistered id r -> Forall (fun e => e.(Dep).(ID) <> id) (default [] (r.(deployments) !! k)).
Proof. intros H. destruct (deployments r !! k) as [l|] eqn:E; [by apply (H k)|constructor]. Qed.

(** Two routers that list the same deployments under every name. *)
Definition same_listing (m m' : gmap string (list ExtendedDeployment)) : Prop :=
  forall k, default [] (m !! k) = default [] (m' !! k).

Lemma lookup_append_at {A : Type} (k k' : string) (x : A) (m : gmap string (list A)) :
  default [] (append_at k x m !! k') = default [] (m !! k') ++ (if decide (k = k') then [x] else []).
Proof.
  unfold append_at. destruct (decide (k = k')) as [<-|Hne].
  - by rewrite lookup_insert_eq.
  - by rewrite lookup_insert_ne, app_nil_r.
Qed.

Lemma prefixed_ne p m : p <> "" -> p +:+ "/" +:+ m <> m.
Proof.
  intros Hp E. apply (f_equal String.length) in E. rewrite !length_string_app in E. cbn in E.
  lia.
Qed.

(** A new deployment is listed once under each of its names. *)
Lemma add_listing r d c k :
  exists l, default [] ((AddDeploymentWithConfig r d c).(deployments) !! k)
            = default [] (r.(deployments) !! k) ++ l
    /\ (l = [] \/ l = [{| Dep := d; DConfig := c |}]).
Proof.
  unfold AddDeploymentWithConfig. set (x := {| Dep := d; DConfig := c |}).
  destruct (negb (String.eqb (ProviderName d) "") && negb (String.eqb (routeModel d) "")) eqn:Ec; cbn.
  - rewrite !lookup_append_at, <- app_assoc.
    apply andb_true_iff in Ec as [Ep%negb_true_iff _]. apply String.eqb_neq in Ep.
    pose proof (prefixed_ne _ (routeModel d) Ep).
    destruct (decide (routeModel d = k)), (decide (ProviderName d +:+ "/" +:+ routeModel d = k));
      cbn; eauto. congruence.
  - rewrite lookup_append_at. destruct (decide (routeModel d = k)); eauto.
Qed.

(** Registering a deployment under a fresh identifier and removing it again
    restores the router: every model lists the deployments it listed before, in
    the same order, and no statistics of the deployment are left. *)
Theorem add_remove_roundtrip r d c :
  unregistered d.(ID) r ->
  let r' := RemoveDeployment (AddDeploymentWithConfig r d c) d.(ID) in
  (forall model, lookupDeployments r' model = lookupDeployments r model) /\
  r'.(stats) = delete d.(ID) r.(stats).
Proof.
  intros Hfresh r'.
  assert (L : forall k, default [] (r'.(deployments) !! k) = default [] (r.(deployments) !! k)).
  { intros k. pose proof (unregistered_lookup _ _ k Hfresh) as Hk.
    destruct (add_listing r d c k) as (l & E & Hl).
    assert (G : default [] (r'.(deployments) !! k)
              = remove_first (has_id (ID d)) (default [] ((AddDeploymentWithConfig r d c).(deployments) !! k))).
    { change (deployments r') with
        (remove_first (has_id (ID d)) <$> (AddDeploymentWithConfig r d c).(deployments)).
      rewrite lookup_fmap.
      by destruct (deployments (AddDeploymentWithConfig r d c) !! k). }
    rewrite G, E. destruct Hl as [->| ->].
    - rewrite app_nil_r. by apply remove_first_absent.
    - by apply remove_first_appended. }
  split.
  - intros model. unfold lookupDeployments. by rewrite !L.
  - unfold r', RemoveDeployment, AddDeploymentWithConfig. cbn. case_match; cbn; by rewrite delete_insert_eq.
Qed.
End Registration.

(** ** The theorems on the fleet *)
Import Fleet.

Definition key_rejected : go_error :=
  EWrap "upstream" (ELLM (NewAuthenticationError "openai" "gpt-4o" "invalid api key")).

Definition acme : context := WithTenantScope Background "acme".

Lemma failure_cools_down_witness :
  in_service (noon + 59 * Second)
    (baseOf (promote (fun b => ReportFailure noon noon noon b acme east key_rejected) (Shuffle busy : Router store rr)))
    acme east.(ID) = false.
Proof.
  destruct (failure_cools_down noon noon noon (Shuffle busy : Router store rr) acme east key_rejected
    (NewAuthenticationError "openai" "gpt-4o" "invalid api key")) as [_ H]; [vm_compute; reflexivity..|].
  rewrite H. vm_compute. reflexivity.
Defined.

Lemma tenant_isolation_witness :
  statsFor (foldl (fun r p => apply_report p.1 r (WithTenantScope Background "acme") p.2) busy
              [(RStart, east); (RFailure noon noon noon key_rejected, west)])
    (WithTenantScope Background "globex") "west"
  = statsFor busy (WithTenantScope Background "globex") "west".
Proof.
  apply tenant_isolation; [reflexivity|discriminate|..].
  - vm_compute. repeat split; discriminate.
  - vm_compute. repeat split; discriminate.
  - vm_compute. repeat split; discriminate.
  - repeat constructor; discriminate.
Defined.

(** The distributed mode, over the in-memory store. *)
Definition shared : BaseRouter store := fresh<|statsStore := Some NewMemoryStatsStore|>.

Lemma set_cooldown_opens_circuit_witness :
  IsCircuitOpen (noon - 1) (SetRouterCooldown [] noon shared "east" noon).1 east = true.
Proof.
  destruct (set_cooldown_opens_circuit [] noon shared (SetRouterCooldown [] noon shared "east" noon).1 east noon)
    with (t := noon - 1) as [H _]; [vm_compute; reflexivity|].
  etransitivity; [exact H|]. vm_compute. reflexivity.
Defined.

Lemma failure_rate_rule_witness :
  shouldCooldownByFailureRate (DefaultConfig<|FailureThresholdPercent := fone|>)
    (record_all (newStatsEntry (DefaultConfig<|FailureThresholdPercent := fone|>))
      (replicate 6 (10 * Minute, false))) (10 * Minute) false = false.
Proof.
  apply (failure_rate_rule (DefaultConfig<|FailureThresholdPercent := fone|>) (replicate 6 (10 * Minute, false))
    (10 * Minute)).
  - split; repeat constructor; vm_compute; discriminate.
  - repeat constructor; vm_compute; discriminate.
  - vm_compute. discriminate.
  - vm_compute. reflexivity.
  - vm_compute. reflexivity.
Defined.

Definition north : Deployment := west<|ID := "north"|>.

Lemma add_remove_roundtrip_witness :
  unregistered north.(ID) busy /\
  lookupDeployments (RemoveDeployment (AddDeploymentWithConfig busy north zeroDeploymentConfig) north.(ID)) "gpt-4o"
  = lookupDeployments busy "gpt-4o".
Proof.
  assert (U : unregistered north.(ID) busy).
  { apply (bool_decide_unpack _). vm_compute. exact I. }
  split; [exact U|].
  destruct (add_remove_roundtrip busy north zeroDeploymentConfig U) as [H _].
  exact (H "gpt-4o").
Defined.

(** The default rule at work: four failures of five in a minute. *)
Example default_rate_trips :
  shouldCooldownByFailureRate DefaultConfig
    (record_all (newStatsEntry DefaultConfig)
      [(0, true); (1, false); (2, false); (3, false); (4, false)]) 5 false = true.
Proof. vm_compute. reflexivity. Qed.
