(* ===== verification/RouterInvariants.v ===== *)
(** * Invariants of the local statistics

    The counters a pick compares stay in range along every sequence of reports,
    which discharges what the optimality theorems ask of them. *)
From S2P Require Import Prelude Float64 Errors ModelName RouterTypes StatsStore BaseRouter Strategies Factory PickTheorems Cooldown.
Import Fleet.

Section Invariant.
Context {S : Type} `{!StatsStore S}.
Implicit Types r : BaseRouter S.

(** Counters of an entry after [n] reports of [tokens] tokens in all. *)
Record counters_ok (n tokens : Z) (st : DeploymentStats) : Prop := {
  active_ok : 0 <= st.(ActiveRequests) <= n;
  rpm_ok : 0 <= st.(CurrentMinuteRPM) <= n;
  tpm_ok : 0 <= st.(CurrentMinuteTPM) <= tokens;
  total_ok : 0 <= st.(TotalRequests) <= n;
  split_ok : st.(SuccessCount) + st.(FailureCount) = st.(TotalRequests)
             /\ 0 <= st.(SuccessCount) /\ 0 <= st.(FailureCount);
}.

Definition stats_ok (n tokens : Z) (r : BaseRouter S) : Prop :=
  r.(statsStore) = None /\ map_Forall (fun _ st => counters_ok n tokens st.(entry)) r.(stats).

Lemma counters_ok_mono n n' t t' st :
  n <= n' -> t <= t' -> counters_ok n t st -> counters_ok n' t' st.
Proof. intros Hn Ht [A B C D E]. split; [lia..|done]. Qed.

Lemma counters_ok_zero cfg : counters_ok 0 0 (newStatsEntry cfg).(entry).
Proof. split; cbn; lia. Qed.

Lemma recordWindow_entry st now ok : (recordWindow st now ok).(entry) = st.(entry).
Proof. unfold recordWindow. by repeat case_match. Qed.

(** *** One entry *)

Lemma successEntry_ok cfg now nowUsage m n t st :
  0 <= m.(TotalTokens) -> n + 1 < two63 -> t + m.(TotalTokens) < two63 ->
  counters_ok n t st.(entry) ->
  counters_ok (n + 1) (t + m.(TotalTokens)) (successEntry cfg now nowUsage m st).(entry).
Proof.
  intros Hm Hn Ht [A B C D E]. unfold successEntry, recordWindowSuccess, updateUsageStats, roll_usage.
  cbn. rewrite !recordWindow_entry. cbn.
  destruct (0 <? TimeToFirstToken m); cbn; destruct (String.eqb _ _); split; cbn;
    unfold RecordSettersUsingExistingGetters.const;
    rewrite ?wrap64_id by (unfold in_i64; unfold two63 in *; lia); lia.
Qed.

Lemma failureEntry_ok cfg single now nowCool err n t st :
  n + 1 < two63 -> counters_ok n t st.(entry) ->
  counters_ok (n + 1) t (failureEntry cfg single now nowCool err st).1.(entry).
Proof.
  intros Hn [A B C D E]. unfold failureEntry, countFailure, recordWindowFailure, startCooldown, penalise.
  destruct (errors_As err) as [e|]; cbn [fmap option_fmap option_map default]; repeat case_match;
    cbn; rewrite !recordWindow_entry; split; cbn;
    unfold RecordSettersUsingExistingGetters.const;
    rewrite ?wrap64_id by (unfold in_i64; unfold two63 in *; lia); lia.
Qed.

(** *** Sequences of reports *)

(** A report, its context and its deployment. *)
Definition reported : Type := report * context * Deployment.

Definition apply_reported (r : BaseRouter S) (p : reported) : BaseRouter S :=
  apply_report p.1.1 r p.1.2 p.2.

Definition tokens_of (p : reported) : Z :=
  match p.1.1 with RSuccess _ _ m => m.(TotalTokens) | _ => 0 end.

Definition tokens_total (ps : list reported) : Z := foldr (fun p n => tokens_of p + n) 0 ps.

Lemma with_entry_ok n t n' t' r key f :
  n <= n' -> t <= t' -> 0 <= n -> 0 <= t ->
  (forall st, counters_ok n t st.(entry) -> counters_ok n' t' (f st).(entry)) ->
  stats_ok n t r -> stats_ok n' t' (with_entry r key f).
Proof.
  intros Hn Ht Hn0 Ht0 Hf [Hs H]. split; [done|]. apply map_Forall_insert_2.
  - apply Hf. unfold getOrCreateStats. destruct (stats r !! key) eqn:E; [by apply (H key)|].
    apply (counters_ok_mono 0 n 0 t); [done..|apply counters_ok_zero].
  - intros k st Hk. apply (counters_ok_mono n n' t t'); [done..|]. by apply (H k).
Qed.

Lemma apply_reported_ok n t r p :
  0 <= n -> 0 <= t -> n + 1 < two63 -> 0 <= tokens_of p -> t + tokens_of p < two63 ->
  stats_ok n t r -> stats_ok (n + 1) (t + tokens_of p) (apply_reported r p).
Proof.
  intros Hn Ht Hn' Hp Ht' H. pose proof H as [Hs _].
  destruct p as [[rp ctx] d]. unfold apply_reported. cbn [fst snd]. destruct rp; cbn [apply_report tokens_of fst] in *.
  - unfold ReportRequestStart. cbn. rewrite Hs. apply (with_entry_ok n t); try lia; [|done].
    intros st [A B C D E]. split; cbn; rewrite ?wrap64_id by (unfold in_i64; unfold two63 in *; lia); lia.
  - unfold ReportRequestEnd. cbn. rewrite Hs. apply (with_entry_ok n t); try lia; [|done].
    intros st [A B C D E]. cbn. destruct (Z.ltb_spec 0 (ActiveRequests (entry st)));
      split; cbn; rewrite ?wrap64_id by (unfold in_i64; unfold two63 in *; lia); lia.
  - unfold ReportSuccess. rewrite Hs. apply (with_entry_ok n t); try lia; [|done].
    intros st. by apply successEntry_ok.
  - destruct (ReportFailure_local now nowCool nowMetric r ctx d err Hs) as (E1 & _ & _ & E2).
    assert (W : stats_ok (n + 1) (t + 0) (with_entry r (localStatsKey ctx (ID d)) (fun st =>
      (failureEntry r.(config) (isSingleDeployment r d) now nowCool err st).1))).
    { apply (with_entry_ok n t); try lia; [|done]. intros st Hst. rewrite Z.add_0_r. by apply failureEntry_ok. }
    destruct W as [_ W]. split; [done|]. rewrite E2. exact W.
Qed.

Lemma reports_ok ps r n t :
  0 <= n -> 0 <= t -> Forall (fun p => 0 <= tokens_of p) ps ->
  n + Z.of_nat (length ps) < two63 -> t + tokens_total ps < two63 ->
  stats_ok n t r ->
  stats_ok (n + Z.of_nat (length ps)) (t + tokens_total ps) (foldl apply_reported r ps).
Proof.
  intros Hn Ht Hps. revert r n t Hn Ht. induction Hps as [|p ps Hp Hps IH]; intros r n t Hn Ht Hlen Htok H.
  - cbn. by rewrite !Z.add_0_r.
  - cbn [length tokens_total foldr foldl] in *. fold (tokens_total ps) in *.
    assert (0 <= tokens_total ps) by (clear -Hps; induction Hps; cbn in *; [done|unfold tokens_total in *; lia]).
    replace (n + Z.of_nat (Datatypes.S (length ps))) with (n + 1 + Z.of_nat (length ps)) by lia.
    rewrite Z.add_assoc. apply IH; try lia. apply apply_reported_ok; try done; lia.
Qed.

(** A router with its deployments registered, before the first request. *)
Definition with_deployments (cfg : Config) (ds : list (Deployment * DeploymentConfig)) : BaseRouter S :=
  foldl (fun r p => AddDeploymentWithConfig r p.1 p.2) (NewBaseRouter cfg) ds.

Lemma AddDeploymentWithConfig_stats (r : BaseRouter S) d c :
  (AddDeploymentWithConfig r d c).(stats) = <[d.(ID) := newStatsEntry r.(config)]> r.(stats) /\
  (AddDeploymentWithConfig r d c).(statsStore) = r.(statsStore).
Proof. unfold AddDeploymentWithConfig. cbn. by case_match. Qed.

Lemma with_deployments_ok cfg ds : stats_ok 0 0 (with_deployments cfg ds).
Proof.
  unfold with_deployments. induction ds as [|[d c] ds IH] using rev_ind; [by split|].
  rewrite foldl_snoc. destruct IH as [Hs H]. cbn [fst snd].
  set (r := foldl _ _ ds) in *. destruct (AddDeploymentWithConfig_stats r d c) as [E1 E2].
  split; [by rewrite E2|]. rewrite E1. apply map_Forall_insert_2; [apply counters_ok_zero|done].
Qed.

(** The counters the strategies compare stay sound.  After any sequence of
    reports on a router with its deployments just registered, in any order and
    by any tenants, every entry has non-negative active requests, tokens and
    requests of the minute, none exceeds what was reported, and each finished
    request is counted once, as a success or as a failure.  An end without a
    start never drives the active count below zero. *)
Theorem reports_keep_counters cfg ds ps key st :
  Forall (fun p => 0 <= tokens_of p) ps ->
  Z.of_nat (length ps) < two63 -> tokens_total ps < two63 ->
  (foldl apply_reported (with_deployments cfg ds) ps).(stats) !! key = Some st ->
  counters_ok (Z.of_nat (length ps)) (tokens_total ps) st.(entry).
Proof.
  intros Hps Hl Ht Hk. destruct (reports_ok ps (with_deployments cfg ds) 0 0) as [_ H]; try done; try lia.
  - apply with_deployments_ok.
  - by apply (H key).
Qed.
End Invariant.

Lemma reports_keep_counters_witness :
  counters_ok 2 10 {|
    TotalRequests := 1; SuccessCount := 1; FailureCount := 0; ActiveRequests := 0;
    LatencyHistory := [f64_of_Z 7]; TTFTHistory := []; AvgLatencyMs := f64_of_Z 7; AvgTTFTMs := fzero;
    EWMALatencyMs := f64_of_Z 7; EWMAAvgTTFTMs := fzero; EWMASuccessRate := fone;
    MaxLatencyListSize := 10; CurrentMinuteTPM := 10; CurrentMinuteRPM := 1;
    CurrentMinuteKey := "0"; LastRequestTime := 0; CooldownUntil := zero_time |}.
Proof.
  refine (reports_keep_counters (S := store) DefaultConfig [(east, zeroDeploymentConfig)]
    [(REnd, Background, east);
     (RSuccess 0 0 {| Latency := 7 * Millisecond; TimeToFirstToken := 0; TotalTokens := 10; InputTokens := 7; OutputTokens := 3; MetricsCost := fzero |}, Background, east)]
    "east" {| entry := _; FailureBuckets := _ |} _ _ _ _).
  - repeat constructor; discriminate.
  - reflexivity.
  - reflexivity.
  - vm_compute. reflexivity.
Defined.

