(* ===== verification/RoundRobinProofs.v ===== *)
(** * Fairness of round robin ([routers/round_robin.go]) *)
From S2P Require Import Prelude Float64 Errors ModelName RouterTypes StatsStore BaseRouter Strategies Factory PickTheorems.

(** What the router expects of a counter store: the index returned is the counter
    modulo the number of candidates, and the counter advances by one.  Other keys
    are not touched. *)
Class RoundRobinLaws (R : Type) `{RoundRobinStore R} := {
  rr_count : R -> string -> Z;
  next_index_count key n s s' res :
    0 < n -> NextIndex key n s = (s', res) ->
    res = Some (rr_count s key mod n) /\ rr_count s' key = wrapu64 (rr_count s key + 1);
}.

#[export] Instance memory_rr_laws : RoundRobinLaws MemoryRR.MemoryRoundRobinStore (H := MemoryRR.memory_rr_store).
Proof.
  exists (fun (m : gmap string Z) key => default 0 (m !! key)).
  intros key n s s' res Hn. cbn. unfold MemoryRR.mem_NextIndex.
  rewrite (proj2 (Z.leb_gt _ _)) by lia. intros [= <- <-]. split; [done|].
  exact (f_equal (default 0) (lookup_insert_eq (M := gmap string) s key _)).
Defined.

Section Fairness.
Context {S R : Type} `{!StatsStore S} `{!RoundRobinStore R} `{!RoundRobinLaws R}.
Implicit Types (rr : RoundRobinRouter S R) (ctx : context).

(** The counter a pick of the model uses. *)
Definition counter (rr : RoundRobinRouter S R) (key : string) : Z :=
  match rr.(rrStore) with
  | Some s => rr_count s key
  | None => default 0 (rr.(counters) !! key)
  end.

Lemma nextIndex_counts rr key n :
  0 < n -> (nextIndex rr key n).2 = counter rr key mod n /\
           counter (nextIndex rr key n).1 key = wrapu64 (counter rr key + 1) /\
           (nextIndex rr key n).1.(base) = rr.(base).
Proof.
  intros Hn. unfold nextIndex, counter. rewrite (proj2 (Z.leb_gt _ _)) by lia.
  destruct (rrStore rr) as [s|] eqn:Es.
  - destruct (NextIndex key n s) as [s' res] eqn:E.
    apply next_index_count in E as [-> Hc]; [|done].
    pose proof (Z.mod_pos_bound (rr_count s key) n Hn).
    rewrite (proj2 (Z.leb_le 0 _)), (proj2 (Z.ltb_lt _ n)) by lia. done.
  - cbn. rewrite Es. by rewrite lookup_insert_eq.
Qed.

(** One pick: the candidate at the counter's place. *)
Lemma round_robin_step t rr ctx req l snap :
  eligible t rr.(base) ctx req = Ok (l, snap) ->
  let key := canonicalModelKey req.(Model) in
  0 <= counter rr key -> counter rr key + 1 < two64 ->
  exists rr' e, RoundRobin_PickWithContext t rr ctx req = (rr', Ok e.(Dep)) /\
    l !! (Z.to_nat (counter rr key mod Z.of_nat (length l))) = Some e /\
    counter rr' key = counter rr key + 1 /\ rr'.(base) = rr.(base).
Proof.
  intros E key H0 Hb. pose proof (eligible_Ok _ _ _ _ _ _ E) as [Hne _].
  assert (Hn : 0 < Z.of_nat (length l)) by (destruct l; [done|cbn; lia]).
  destruct (nextIndex_counts rr key _ Hn) as (Ei & Ec & Eb).
  unfold RoundRobin_PickWithContext. rewrite E. fold key.
  destruct (nextIndex rr key _) as [rr' idx]. cbn [fst snd] in *. subst idx.
  pose proof (Z.mod_pos_bound (counter rr key) _ Hn).
  destruct (lookup_lt_is_Some_2 l (Z.to_nat (counter rr key mod Z.of_nat (length l)))) as [e He]; [lia|].
  exists rr', e. unfold index. rewrite He, Ec. split_and!; [done..| |done].
  apply wrapu64_id. lia.
Qed.

(** Picks in sequence, at given instants, for given requests. *)
Fixpoint picks (rr : RoundRobinRouter S R) (ctx : context) (ts : list (time * RequestContext)) :
  RoundRobinRouter S R * list (outcome route_err Deployment) :=
  match ts with
  | [] => (rr, [])
  | (t, req) :: ts' =>
      let '(rr, d) := RoundRobin_PickWithContext t rr ctx req in
      let '(rr, ds) := picks rr ctx ts' in
      (rr, d :: ds)
  end.

Definition returns (l : list ExtendedDeployment) (i : Z) (o : outcome route_err Deployment) : Prop :=
  exists e, l !! Z.to_nat (i mod Z.of_nat (length l)) = Some e /\ o = Ok e.(Dep).

Lemma picks_follow_counter ts rr ctx key l snap :
  Forall (fun p => eligible p.1 rr.(base) ctx p.2 = Ok (l, snap) /\ canonicalModelKey p.2.(Model) = key) ts ->
  0 <= counter rr key -> counter rr key + Z.of_nat (length ts) < two64 ->
  length (picks rr ctx ts).2 = length ts /\
  forall i o, (picks rr ctx ts).2 !! i = Some o -> returns l (counter rr key + Z.of_nat i) o.
Proof.
  revert rr. induction ts as [|[t req] ts IH]; intros rr Hts H0 Hb; [done|].
  apply Forall_cons in Hts as [[E Ek] Hts]. cbn [fst snd length] in *.
  destruct (round_robin_step t rr ctx req l snap E) as (rr' & e & Ep & He & Ec & Eb);
    [rewrite Ek; lia..|]. rewrite Ek in *.
  destruct (IH rr') as [Hlen Hi]; [by rewrite Eb|lia..|].
  cbn [picks]. rewrite Ep. destruct (picks rr' ctx ts) as [rr'' ds]. cbn [snd length] in *.
  split; [by rewrite Hlen|]. intros [|i] o; cbn.
  - intros [= <-]. exists e. by rewrite Z.add_0_r.
  - intros Ho. specialize (Hi i o Ho). rewrite Ec in Hi.
    replace (counter rr key + Z.of_nat (Datatypes.S i)) with (counter rr key + 1 + Z.of_nat i) by lia. done.
Qed.

(** C33: Round robin is fair.  Over as many consecutive picks as there are eligible
    deployments, while these stay the same, each deployment is returned exactly
    once, in the cyclic order that starts at the counter; with the router's own
    counters and with any counter store that satisfies the interface. *)
Theorem round_robin_fair ts rr ctx key l snap :
  Forall (fun p => eligible p.1 rr.(base) ctx p.2 = Ok (l, snap) /\ canonicalModelKey p.2.(Model) = key) ts ->
  length ts = length l ->
  0 <= counter rr key -> counter rr key + Z.of_nat (length l) < two64 ->
  (picks rr ctx ts).2 = (fun e => Ok e.(Dep)) <$> rotate (Z.to_nat (counter rr key)) l.
Proof.
  intros Hts Hlen H0 Hb.
  destruct (picks_follow_counter ts rr ctx key l snap Hts H0) as [Hl Hi]; [by rewrite Hlen|].
  apply list_eq_same_length with (n := length l).
  - by rewrite length_fmap, length_rotate.
  - by rewrite Hl.
  - intros i o o' Hlt Ho Ho'. apply Hi in Ho as (e & He & ->).
    rewrite list_lookup_fmap, lookup_rotate_r in Ho' by done.
    unfold rotate_nat_add in Ho'. rewrite Z2Nat.id in Ho' by done.
    rewrite He in Ho'. by injection Ho'.
Qed.

(** The counter is kept per model name without its provider, so two models
    that share the name after the provider share the counter.  When requests
    for two such models alternate and each has two deployments, each model is
    always answered by the same one of its two deployments. *)
Theorem round_robin_alternation k t rr ctx reqA reqB lA lB snapA snapB :
  canonicalModelKey reqA.(Model) = canonicalModelKey reqB.(Model) ->
  eligible t rr.(base) ctx reqA = Ok (lA, snapA) -> eligible t rr.(base) ctx reqB = Ok (lB, snapB) ->
  length lA = 2%nat -> length lB = 2%nat ->
  let key := canonicalModelKey reqA.(Model) in
  0 <= counter rr key -> counter rr key + 2 * Z.of_nat k < two64 ->
  exists eA eB, lA !! Z.to_nat (counter rr key mod 2) = Some eA /\
    lB !! Z.to_nat ((counter rr key + 1) mod 2) = Some eB /\
    (picks rr ctx (concat (replicate k [(t, reqA); (t, reqB)]))).2
    = concat (replicate k [Ok eA.(Dep); Ok eB.(Dep)]).
Proof.
  intros Ek EA EB LA LB key H0 Hb.
  assert (B2 : forall c, (Z.to_nat (c mod 2) < 2)%nat)
    by (intros c; pose proof (Z.mod_pos_bound c 2 ltac:(lia)); lia).
  destruct (lookup_lt_is_Some_2 lA (Z.to_nat (counter rr key mod 2))) as [eA HA]; [rewrite LA; apply B2|].
  destruct (lookup_lt_is_Some_2 lB (Z.to_nat ((counter rr key + 1) mod 2))) as [eB HB]; [rewrite LB; apply B2|].
  exists eA, eB. split_and!; [done..|].
  clear B2. revert rr EA EB HA HB H0 Hb.
  induction k as [|k IH]; intros rr EA EB HA HB H0 Hb; [done|].
  cbn [replicate concat app picks].
  destruct (round_robin_step t rr ctx reqA lA snapA EA) as (rr1 & e1 & P1 & X1 & C1 & B1);
    [fold key; lia..|].
  fold key in P1, X1, C1. rewrite P1, LA in *. change (Z.of_nat 2) with 2 in X1.
  rewrite <- B1 in EB.
  destruct (round_robin_step t rr1 ctx reqB lB snapB EB) as (rr2 & e2 & P2 & X2 & C2 & B2);
    [rewrite <- Ek; fold key; lia..|].
  rewrite <- Ek in X2, C2. fold key in X2, C2. rewrite P2, LB, C1 in *. change (Z.of_nat 2) with 2 in X2.
  assert (e1 = eA) as -> by congruence. assert (e2 = eB) as -> by congruence.
  specialize (IH rr2). rewrite C2, B2, B1 in IH.
  replace ((counter rr key + 1 + 1) mod 2) with (counter rr key mod 2) in IH
    by (Z.to_euclidean_division_equations; lia).
  replace ((counter rr key + 1 + 1 + 1) mod 2) with ((counter rr key + 1) mod 2) in IH
    by (Z.to_euclidean_division_equations; lia).
  rewrite B1 in EB. specialize (IH EA EB HA HB).
  destruct (picks rr2 ctx _) as [rr3 ds]. cbn [snd] in *. rewrite IH by lia. done.
Qed.
End Fairness.

(** ** On the fleet *)
Import Fleet.

Definition wheel (b : BaseRouter store) (n : Z) : RoundRobinRouter store rr :=
  {| base := b; counters := {[ "gpt-4o" := n ]}; rrStore := None |}.

Lemma round_robin_fair_witness :
  (picks (wheel busy 5) Background (replicate 2 (noon, modelContext "gpt-4o"))).2 = [Ok west; Ok east].
Proof.
  rewrite (round_robin_fair _ (wheel busy 5) Background "gpt-4o" fleet known).
  - vm_compute. reflexivity.
  - apply Forall_replicate. split; vm_compute; reflexivity.
  - vm_compute. reflexivity.
  - vm_compute. discriminate.
  - vm_compute. reflexivity.
Defined.

(** Two providers with two deployments each of a model of the same name. *)
Definition place (id provider : string) : Deployment :=
  {| ID := id; ProviderName := provider; ModelName := "gpt-4o"; ModelAlias := ""; BaseURL := ""; MaxConcurrent := 0 |}.

Definition twins : BaseRouter store :=
  foldl AddDeployment (NewBaseRouter DefaultConfig)
    [place "o1" "openai"; place "o2" "openai"; place "a1" "azure"; place "a2" "azure"].

Definition twins_of (model : string) : list ExtendedDeployment := lookupDeployments twins model.

Lemma round_robin_alternation_witness :
  (picks (wheel twins 0) Background
     (concat (replicate 3 [(noon, modelContext "openai/gpt-4o"); (noon, modelContext "azure/gpt-4o")]))).2
  = concat (replicate 3 [Ok (place "o1" "openai"); Ok (place "a2" "azure")]).
Proof.
  destruct (round_robin_alternation 3 noon (wheel twins 0) Background
    (modelContext "openai/gpt-4o") (modelContext "azure/gpt-4o")
    (twins_of "openai/gpt-4o") (twins_of "azure/gpt-4o")
    (statsSnapshot twins Background (twins_of "openai/gpt-4o"))
    (statsSnapshot twins Background (twins_of "azure/gpt-4o"))) as (eA & eB & HA & HB & H);
    [vm_compute; (reflexivity || discriminate)..|].
  rewrite H. vm_compute in HA, HB. injection HA as <-. injection HB as <-. reflexivity.
Defined.
