(* ===== verification/CircuitBreaker.v ===== *)
(** * Circuit breaker ([internal/resilience/circuitbreaker.go])

    A three-state machine.  Every method holds the breaker's mutex, so each is one
    step; the callbacks it starts are recorded in [fired]. *)
From S2P Require Import Prelude.

Inductive CircuitState := StateClosed | StateOpen | StateHalfOpen.

#[export] Instance CircuitState_eq_dec : EqDecision CircuitState.
Proof. solve_decision. Defined.

Definition CircuitState_String (s : CircuitState) : string :=
  match s with StateClosed => "closed" | StateOpen => "open" | StateHalfOpen => "half-open" end.

Record CircuitBreakerConfig := {
  FailureThreshold : Z;
  SuccessThreshold : Z;
  Timeout : duration;
  HalfOpenMaxRequests : Z;
}.

Definition DefaultCircuitBreakerConfig : CircuitBreakerConfig :=
  {| FailureThreshold := 5; SuccessThreshold := 2; Timeout := 30 * Second; HalfOpenMaxRequests := 3 |}.

Record CircuitBreaker := {
  cbName : string;
  state : CircuitState;
  failureCount : Z;
  successCount : Z;
  halfOpenCount : Z;
  lastFailureTime : time;
  cbConfig : CircuitBreakerConfig;
  onStateChange : bool;
  fired : list (string * CircuitState * CircuitState);
}.

Definition NewCircuitBreaker (name : string) (cfg : CircuitBreakerConfig) : CircuitBreaker :=
  {| cbName := name; state := StateClosed; failureCount := 0; successCount := 0; halfOpenCount := 0;
     lastFailureTime := zero_time; cbConfig := cfg; onStateChange := false; fired := [] |}.

(** A callback is set; only its calls matter here. *)
Definition OnStateChange (cb : CircuitBreaker) : CircuitBreaker := cb<|onStateChange := true|>.

Definition transitionTo (newState : CircuitState) (cb : CircuitBreaker) : CircuitBreaker :=
  if bool_decide (cb.(state) = newState) then cb
  else
    let oldState := cb.(state) in
    let cb := cb<|state := newState|> in
    if cb.(onStateChange) then cb<|fired ::= fun l => l ++ [(cb.(cbName), oldState, newState)]|> else cb.

Definition Allow (now : time) (cb : CircuitBreaker) : CircuitBreaker * bool :=
  match cb.(state) with
  | StateClosed => (cb, true)
  | StateOpen =>
      if cb.(cbConfig).(Timeout) <=? time_sub now cb.(lastFailureTime)
      then ((transitionTo StateHalfOpen cb)<|halfOpenCount := 1|>, true)
      else (cb, false)
  | StateHalfOpen =>
      if cb.(halfOpenCount) <? cb.(cbConfig).(HalfOpenMaxRequests)
      then (cb<|halfOpenCount ::= fun n => n +! 1|>, true)
      else (cb, false)
  end.

Definition cbRecordSuccess (cb : CircuitBreaker) : CircuitBreaker :=
  match cb.(state) with
  | StateClosed => cb<|failureCount := 0|>
  | StateHalfOpen =>
      let cb := cb<|successCount ::= fun n => n +! 1|> in
      if cb.(cbConfig).(SuccessThreshold) <=? cb.(successCount)
      then (transitionTo StateClosed cb)<|failureCount := 0|><|successCount := 0|>
      else cb
  | StateOpen => cb
  end.

Definition cbRecordFailure (now : time) (cb : CircuitBreaker) : CircuitBreaker :=
  let cb := cb<|lastFailureTime := now|> in
  match cb.(state) with
  | StateClosed =>
      let cb := cb<|failureCount ::= fun n => n +! 1|> in
      if cb.(cbConfig).(FailureThreshold) <=? cb.(failureCount) then transitionTo StateOpen cb else cb
  | StateHalfOpen => (transitionTo StateOpen cb)<|successCount := 0|>
  | StateOpen => cb
  end.

Definition cbReset (cb : CircuitBreaker) : CircuitBreaker :=
  (transitionTo StateClosed cb)<|failureCount := 0|><|successCount := 0|><|halfOpenCount := 0|>.

Definition State (cb : CircuitBreaker) : CircuitState := cb.(state).
Definition Name (cb : CircuitBreaker) : string := cb.(cbName).

(** ** The machine as a step relation *)

Inductive cb_step : CircuitBreaker -> CircuitBreaker -> Prop :=
| step_allow now cb : cb_step cb (Allow now cb).1
| step_success cb : cb_step cb (cbRecordSuccess cb)
| step_failure now cb : cb_step cb (cbRecordFailure now cb)
| step_reset cb : cb_step cb (cbReset cb)
| step_callback cb : cb_step cb (OnStateChange cb).

(** The counters a state allows.  A breaker with positive thresholds is closed
    with fewer failures than the threshold, half-open with fewer successes than
    the threshold and at least one probe admitted, at most the maximum. *)
Record cb_inv (cb : CircuitBreaker) : Prop := {
  inv_closed : state cb = StateClosed -> 0 <= failureCount cb < FailureThreshold (cbConfig cb);
  inv_success : state cb <> StateHalfOpen -> successCount cb = 0;
  inv_half : state cb = StateHalfOpen ->
    0 <= successCount cb < SuccessThreshold (cbConfig cb) /\
    1 <= halfOpenCount cb <= Z.max 1 (HalfOpenMaxRequests (cbConfig cb));
}.

Definition cfg_ok (cfg : CircuitBreakerConfig) : Prop :=
  0 < cfg.(FailureThreshold) < two63 /\ 0 < cfg.(SuccessThreshold) < two63
  /\ cfg.(HalfOpenMaxRequests) < two63.

(** Only the state and the recorded callbacks change. *)
Lemma transitionTo_eq s cb : exists l, transitionTo s cb = cb<|state := s|><|fired := l|>.
Proof.
  unfold transitionTo. case_bool_decide as E.
  - exists (fired cb). destruct cb; cbn in *. by subst.
  - destruct cb as [? ? ? ? ? ? ? [] ?]; eexists; cbn; done.
Qed.

(** Replaces every [transitionTo] of the goal by the update it performs, and
    removes the wrap-arounds that are in range. *)
Ltac cb_simpl :=
  repeat match goal with
  | |- context [transitionTo ?s ?cb] => destruct (transitionTo_eq s cb) as [? ->]
  end; cbn.

Ltac cb_wrap := rewrite ?wrap64_id by (unfold in_i64; unfold two63 in *; lia).

Ltac cb_cases := split; cbn; cb_wrap; intros; try congruence; try lia.

Section Invariant.
Context (cb : CircuitBreaker) (Hcfg : cfg_ok (cbConfig cb)) (Hinv : cb_inv cb).

Lemma Allow_inv now : cb_inv (Allow now cb).1.
Proof.
  destruct Hcfg as (Hf & Hs & Hm), Hinv as [Hc Hsu Hh]. unfold Allow.
  destruct (state cb) eqn:E; cbn [fst]; [done| |].
  - specialize (Hsu ltac:(done)). case_match; [|done]. cb_simpl. cb_cases.
  - destruct (Hh eq_refl) as [Hs1 Hh1].
    destruct (Z.ltb_spec (halfOpenCount cb) (HalfOpenMaxRequests (cbConfig cb))); [|done].
    cb_simpl. cb_cases.
Qed.

Lemma cbRecordSuccess_inv : cb_inv (cbRecordSuccess cb).
Proof.
  destruct Hcfg as (Hf & Hs & Hm), Hinv as [Hc Hsu Hh]. unfold cbRecordSuccess.
  destruct (state cb) eqn:E; [|done|].
  - specialize (Hsu ltac:(done)). cb_cases.
  - destruct (Hh eq_refl) as [Hs1 Hh1]. cbn. cb_wrap.
    destruct (Z.leb_spec (SuccessThreshold (cbConfig cb)) (successCount cb + 1)); cb_simpl; cb_cases.
Qed.

Lemma cbRecordFailure_inv now : cb_inv (cbRecordFailure now cb).
Proof.
  destruct Hcfg as (Hf & Hs & Hm), Hinv as [Hc Hsu Hh]. unfold cbRecordFailure. cbn.
  destruct (state cb) eqn:E.
  - specialize (Hsu ltac:(done)). destruct (Hc eq_refl). cb_wrap.
    destruct (Z.leb_spec (FailureThreshold (cbConfig cb)) (failureCount cb + 1)); cb_simpl; cb_cases.
  - specialize (Hsu ltac:(done)). cb_cases.
  - cb_simpl. cb_cases.
Qed.

Lemma cbReset_inv : cb_inv (cbReset cb).
Proof. destruct Hcfg as (Hf & Hs & Hm). unfold cbReset. cb_simpl. cb_cases. Qed.
End Invariant.

Lemma cb_step_config cb cb' : cb_step cb cb' -> cbConfig cb' = cbConfig cb.
Proof.
  destruct 1; unfold Allow, cbRecordSuccess, cbRecordFailure, cbReset; cbn; repeat case_match; cb_simpl; done.
Qed.

Lemma cb_step_inv cb cb' : cfg_ok (cbConfig cb) -> cb_step cb cb' -> cb_inv cb -> cb_inv cb'.
Proof.
  intros Hcfg Hst Hinv. destruct Hst;
    auto using Allow_inv, cbRecordSuccess_inv, cbRecordFailure_inv, cbReset_inv.
  destruct Hinv. by split.
Qed.

(** The state machine of the breaker.  In every state reachable from a new
    breaker with positive thresholds, by calls in any order at any instants, a
    closed breaker has counted fewer consecutive failures than the threshold, a
    half-open one has admitted at least one probe and at most the maximum and has
    fewer successes than the threshold, and successes are counted in no other
    state. *)
Theorem breaker_invariant name cfg cb :
  cfg_ok cfg -> rtc cb_step (NewCircuitBreaker name cfg) cb -> cb_inv cb.
Proof.
  intros Hcfg Hr.
  apply (rtc_invariant cb_step (fun cb => cbConfig cb = cfg /\ cb_inv cb)) in Hr; [apply Hr|..].
  - intros a b Hst [E Hinv]. rewrite (cb_step_config _ _ Hst). split; [done|].
    by apply (cb_step_inv a); [rewrite E|..].
  - split; [done|]. destruct Hcfg as (? & ? & ?). split; cbn; try done. lia.
Qed.

(** ** When the breaker opens *)

(** The failures since the last success. *)
Fixpoint streak (outcomes : list bool) : Z :=
  match outcomes with
  | [] => 0
  | ok :: older => if ok then 0 else 1 + streak older
  end.

(** Outcomes recorded one after the other, the last one first in the list. *)
Fixpoint record_outcomes (now : time) (cb : CircuitBreaker) (outcomes : list bool) : CircuitBreaker :=
  match outcomes with
  | [] => cb
  | ok :: older =>
      let cb := record_outcomes now cb older in
      if ok then cbRecordSuccess cb else cbRecordFailure now cb
  end.

(** The longest run of failures reaches [n]. *)
Fixpoint has_run (n : Z) (outcomes : list bool) : bool :=
  match outcomes with
  | [] => false
  | _ :: older => (n <=? streak outcomes) || has_run n older
  end.

Lemma streak_nonneg l : 0 <= streak l.
Proof. induction l as [|[] l IH]; cbn; lia. Qed.

Lemma streak_below n l : 0 < n -> has_run n l = false -> streak l < n.
Proof. destruct l as [|ok l]; cbn; [lia|]. intros Hn [H _]%orb_false_iff. destruct ok; lia. Qed.

Lemma record_outcomes_spec now name cfg l :
  cfg_ok cfg ->
  let cb := record_outcomes now (NewCircuitBreaker name cfg) l in
  cb.(cbConfig) = cfg /\
  if has_run cfg.(FailureThreshold) l then cb.(state) = StateOpen
  else cb.(state) = StateClosed /\ cb.(failureCount) = streak l.
Proof.
  intros (Hf & _ & _). induction l as [|ok l IH]; cbn [record_outcomes has_run streak]; [done|].
  set (cb := record_outcomes now _ l) in *. destruct IH as [Ec IH].
  destruct (has_run (FailureThreshold cfg) l) eqn:Er.
  - rewrite orb_true_r. destruct ok; [unfold cbRecordSuccess|unfold cbRecordFailure; cbn]; by rewrite IH.
  - pose proof (streak_below (FailureThreshold cfg) l ltac:(lia) Er). pose proof (streak_nonneg l).
    destruct IH as [Es En]. rewrite orb_false_r. destruct ok.
    + rewrite (proj2 (Z.leb_gt (FailureThreshold cfg) 0)) by lia. unfold cbRecordSuccess. rewrite Es. by cbn.
    + unfold cbRecordFailure. cbn. rewrite Es, En, Ec.
      rewrite wrap64_id by (unfold in_i64; unfold two63 in *; lia). rewrite (Z.add_comm (streak l)).
      destruct (Z.leb_spec (FailureThreshold cfg) (1 + streak l)); cb_simpl; [done|].
      rewrite En, wrap64_id by (unfold in_i64; unfold two63 in *; lia). split; [done|split; [done|lia]].
Qed.

(** The breaker opens exactly on a run of [FailureThreshold] consecutive
    failures: after any sequence of outcomes recorded on a new breaker it is open
    if some run of consecutive failures reached the threshold, and closed
    otherwise, whatever the successes in between. *)
Theorem breaker_opens_on_run now name cfg outcomes :
  cfg_ok cfg ->
  (record_outcomes now (NewCircuitBreaker name cfg) outcomes).(state)
  = if has_run cfg.(FailureThreshold) outcomes then StateOpen else StateClosed.
Proof.
  intros Hcfg. destruct (record_outcomes_spec now name cfg outcomes Hcfg) as [_ H].
  by destruct (has_run _ _); [|destruct H].
Qed.

(** ** Recovery *)

(** A client that asks and, when admitted, succeeds. *)
Definition probe (cb : CircuitBreaker) (now : time) : CircuitBreaker :=
  let '(cb, admitted) := Allow now cb in if admitted then cbRecordSuccess cb else cb.

Definition probe_limit (cfg : CircuitBreakerConfig) : Z := Z.max 1 cfg.(HalfOpenMaxRequests).

(** Half-open after [n] probes, all of them successful. *)
Definition probed (n : Z) (cb : CircuitBreaker) : Prop :=
  cb.(state) = StateHalfOpen /\ cb.(successCount) = n /\ cb.(halfOpenCount) = n.

Lemma success_half_open n cb :
  cfg_ok cb.(cbConfig) -> 0 <= n < cb.(cbConfig).(SuccessThreshold) ->
  cb.(state) = StateHalfOpen -> cb.(successCount) = n ->
  let cb' := cbRecordSuccess cb in
  cbConfig cb' = cbConfig cb /\
  if cb.(cbConfig).(SuccessThreshold) <=? n + 1 then cb'.(state) = StateClosed
  else cb'.(state) = StateHalfOpen /\ cb'.(successCount) = n + 1 /\ cb'.(halfOpenCount) = cb.(halfOpenCount).
Proof.
  intros (? & ? & ?) Hn Es En. unfold cbRecordSuccess. rewrite Es. cbn. rewrite En.
  rewrite wrap64_id by (unfold in_i64; unfold two63 in *; lia).
  case_match; cb_simpl; [done|]. rewrite En, wrap64_id by (unfold in_i64; unfold two63 in *; lia). done.
Qed.

(** The first probe after the timeout. *)
Lemma probe_open now cb :
  cfg_ok cb.(cbConfig) -> cb_inv cb -> cb.(state) = StateOpen ->
  cb.(cbConfig).(Timeout) <= time_sub now cb.(lastFailureTime) ->
  cbConfig (probe cb now) = cbConfig cb /\
  if cb.(cbConfig).(SuccessThreshold) <=? 1 then (probe cb now).(state) = StateClosed else probed 1 (probe cb now).
Proof.
  intros Hcfg Hinv Es Ht. unfold probe, Allow. rewrite Es, (proj2 (Z.leb_le _ _)) by done.
  destruct (transitionTo_eq StateHalfOpen cb) as [l ->].
  match goal with |- context [cbRecordSuccess ?c] => destruct (success_half_open 0 c) as [Ec H] end;
    [done|destruct Hcfg as (_ & ? & _); cbn; lia|done|cbn; apply (inv_success _ Hinv); by rewrite Es|].
  split; [by rewrite Ec|]. unfold probed. exact H.
Qed.

(** Later probes, while there is room. *)
Lemma probe_half_open now n cb :
  cfg_ok cb.(cbConfig) -> probed n cb -> 1 <= n < cb.(cbConfig).(SuccessThreshold) ->
  cbConfig (probe cb now) = cbConfig cb /\
  if n <? cb.(cbConfig).(HalfOpenMaxRequests) then
    if cb.(cbConfig).(SuccessThreshold) <=? n + 1 then (probe cb now).(state) = StateClosed
    else probed (n + 1) (probe cb now)
  else probed n (probe cb now) /\ (Allow now cb).2 = false.
Proof.
  intros Hcfg (Es & En & Eh) Hn. pose proof Hcfg as (_ & ? & ?). unfold probe, Allow. rewrite Es, Eh.
  destruct (Z.ltb_spec n (HalfOpenMaxRequests (cbConfig cb))); [|done].
  match goal with |- context [cbRecordSuccess ?c] => destruct (success_half_open n c) as [Ec Hp] end;
    [done|cbn; lia|done|done|].
  split; [by rewrite Ec|]. cbn in Hp |- *. unfold probed. rewrite Eh in Hp.
  rewrite wrap64_id in Hp by (unfold in_i64; unfold two63 in *; lia). by destruct (_ <=? n + 1).
Qed.

(** A sequence of probes from half-open: enough room closes the breaker, too
    little leaves it half-open with every slot used. *)
Lemma probes_close ts n cb :
  cfg_ok cb.(cbConfig) -> probed n cb -> 1 <= n < cb.(cbConfig).(SuccessThreshold) ->
  cb.(cbConfig).(SuccessThreshold) <= probe_limit cb.(cbConfig) ->
  n + Z.of_nat (length ts) = cb.(cbConfig).(SuccessThreshold) ->
  (foldl probe cb ts).(state) = StateClosed.
Proof.
  unfold probe_limit. revert n cb. induction ts as [|t ts IH]; intros n cb Hcfg Hp Hn Hle Hlen; cbn in *; [lia|].
  destruct (probe_half_open t n cb Hcfg Hp Hn) as [Ec H].
  rewrite (proj2 (Z.ltb_lt _ _)) in H by lia.
  destruct (Z.leb_spec (SuccessThreshold (cbConfig cb)) (n + 1)).
  - assert (ts = []) as -> by (destruct ts; [done|cbn in *; lia]). done.
  - apply (IH (n + 1)); rewrite ?Ec; try done; lia.
Qed.

Lemma probes_stuck ts n cb :
  cfg_ok cb.(cbConfig) -> probed n cb -> 1 <= n <= probe_limit cb.(cbConfig) ->
  probe_limit cb.(cbConfig) < cb.(cbConfig).(SuccessThreshold) ->
  let n' := Z.min (n + Z.of_nat (length ts)) (probe_limit cb.(cbConfig)) in
  probed n' (foldl probe cb ts) /\ cbConfig (foldl probe cb ts) = cbConfig cb.
Proof.
  revert n cb. induction ts as [|t ts IH]; intros n cb Hcfg Hp Hn Hlt; cbn [foldl length].
  - by rewrite Z.add_0_r, Z.min_l by lia.
  - destruct (probe_half_open t n cb Hcfg Hp) as [Ec H]; [lia|]. unfold probe_limit in *.
    destruct (Z.ltb_spec n (HalfOpenMaxRequests (cbConfig cb))).
    + rewrite (proj2 (Z.leb_gt _ _)) in H by lia.
      destruct (IH (n + 1) (probe cb t)) as [Hp' Hc']; rewrite ?Ec; try done; [lia|].
      rewrite Ec in Hp', Hc'. split; [|done].
      by replace (n + Z.of_nat (S (length ts))) with (n + 1 + Z.of_nat (length ts)) by lia.
    + destruct H as [H _].
      destruct (IH n (probe cb t)) as [Hp' Hc']; rewrite ?Ec; try done.
      rewrite Ec in Hp', Hc'. split; [|done]. rewrite Z.min_r in * by lia. done.
Qed.

(** C12: Recovery of an open breaker whose timeout has passed, when every admitted
    probe succeeds.  If the success threshold is within the number of probes a
    half-open breaker admits, it closes after exactly that many probes.  If not,
    it never closes: it stays half-open, and once the probes are used up it
    refuses every request, at every later instant. *)
Theorem breaker_recovery cb now ts :
  cfg_ok cb.(cbConfig) -> cb_inv cb -> cb.(state) = StateOpen ->
  cb.(cbConfig).(Timeout) <= time_sub now cb.(lastFailureTime) ->
  (cb.(cbConfig).(SuccessThreshold) <= probe_limit cb.(cbConfig) ->
   Z.of_nat (length (now :: ts)) = cb.(cbConfig).(SuccessThreshold) ->
   (foldl probe cb (now :: ts)).(state) = StateClosed) /\
  (probe_limit cb.(cbConfig) < cb.(cbConfig).(SuccessThreshold) ->
   (foldl probe cb (now :: ts)).(state) = StateHalfOpen /\
   (probe_limit cb.(cbConfig) <= Z.of_nat (length (now :: ts)) ->
    forall t, (Allow t (foldl probe cb (now :: ts))).2 = false)).
Proof.
  intros Hcfg Hinv Es Ht. destruct (probe_open now cb Hcfg Hinv Es Ht) as [Ec Hp]. pose proof Hcfg as (_ & ? & _).
  cbn [foldl length]. split.
  - intros Hle Hlen. destruct (Z.leb_spec (SuccessThreshold (cbConfig cb)) 1).
    + assert (ts = []) as -> by (destruct ts; [done|cbn in *; lia]). done.
    + apply (probes_close ts 1); rewrite ?Ec; try done; lia.
  - intros Hlt. rewrite (proj2 (Z.leb_gt _ _)) in Hp by (unfold probe_limit in *; lia).
    destruct (probes_stuck ts 1 (probe cb now)) as [(Es' & _ & Eh) Ec']; rewrite ?Ec; try done;
      [unfold probe_limit; lia|].
    split; [done|]. intros Hlen t. unfold Allow. rewrite Es', Eh, Ec', Ec.
    rewrite (proj2 (Z.ltb_ge _ _)); [done|]. unfold probe_limit in *. lia.
Qed.

Lemma breaker_invariant_witness :
  cb_inv (Allow (40 * Second) (record_outcomes 0 (NewCircuitBreaker "openai" DefaultCircuitBreakerConfig)
            (replicate 5 false))).1.
Proof.
  apply (breaker_invariant "openai" DefaultCircuitBreakerConfig).
  - vm_compute. repeat split; discriminate.
  - eapply rtc_r; [|apply step_allow]. cbn [replicate record_outcomes].
    do 5 (eapply rtc_r; [|apply step_failure]). apply rtc_refl.
Defined.

Lemma breaker_opens_on_run_witness :
  (record_outcomes 0 (NewCircuitBreaker "openai" DefaultCircuitBreakerConfig)
     [false; false; false; false; true; false; false; false; false]).(state) = StateClosed.
Proof.
  rewrite breaker_opens_on_run; [reflexivity|]. vm_compute. repeat split; discriminate.
Defined.

Lemma breaker_recovery_witness :
  let cfg := DefaultCircuitBreakerConfig<|HalfOpenMaxRequests := 1|> in
  let cb := record_outcomes 0 (NewCircuitBreaker "openai" cfg) (replicate 5 false) in
  (Allow (1000 * Hour) (foldl probe cb [30 * Second; 60 * Second])).2 = false.
Proof.
  intros cfg cb. refine (proj2 (proj2 (breaker_recovery cb (30 * Second) [60 * Second] _ _ _ _) _) _ (1000 * Hour)).
  - vm_compute. repeat split; discriminate.
  - split; vm_compute; [discriminate|reflexivity|discriminate].
  - reflexivity.
  - vm_compute. discriminate.
  - vm_compute. reflexivity.
  - vm_compute. discriminate.
Defined.
