(* ===== verification/TokenBucket.v ===== *)
(** * Token bucket ([internal/resilience/ratelimiter.go])

    A bucket of at most [burst] tokens, refilled with the time elapsed since the
    last call, in the arithmetic of the source: binary64 floats.  Each method
    holds the limiter's mutex and reads the clock once. *)
From Stdlib Require Import SpecFloat.
From S2P Require Import Prelude Float64 Float64Round.

Record RateLimiter := {
  rate : f64;
  burst : Z;
  tokens : f64;
  lastRefill : time;
}.

Definition NewRateLimiter (now : time) (rate : f64) (burst : Z) : RateLimiter :=
  {| rate := rate; burst := burst; tokens := f64_of_Z burst; lastRefill := now |}.

(** [if rl.tokens > float64(burst) { rl.tokens = float64(burst) }] *)
Definition capTokens (rl : RateLimiter) : RateLimiter :=
  if f64_of_Z rl.(burst) <.? rl.(tokens) then rl<|tokens := f64_of_Z rl.(burst)|> else rl.

Definition refill (now : time) (rl : RateLimiter) : RateLimiter :=
  let elapsed := seconds (time_sub now rl.(lastRefill)) in
  let rl := rl<|lastRefill := now|> in
  capTokens (rl<|tokens ::= fun t => t ⊞ elapsed ⊠ rl.(rate)|>).

Definition AllowN (now : time) (n : Z) (rl : RateLimiter) : RateLimiter * bool :=
  let rl := refill now rl in
  if f64_of_Z n <=.? rl.(tokens) then (rl<|tokens ::= fun t => t ⊟ f64_of_Z n|>, true) else (rl, false).

Definition rlAllow (now : time) (rl : RateLimiter) : RateLimiter * bool := AllowN now 1 rl.

Definition Tokens (now : time) (rl : RateLimiter) : RateLimiter * f64 :=
  let rl := refill now rl in (rl, rl.(tokens)).

Definition Rate (rl : RateLimiter) : f64 := rl.(rate).
Definition Burst (rl : RateLimiter) : Z := rl.(burst).
Definition SetRate (r : f64) (rl : RateLimiter) : RateLimiter := rl<|rate := r|>.
Definition SetBurst (b : Z) (rl : RateLimiter) : RateLimiter := capTokens (rl<|burst := b|>).

(** ** The invariant *)

(** The bucket holds a finite number of tokens, not negative and not above the
    burst size. *)
Record bucket_ok (rl : RateLimiter) : Prop := {
  ok_rate : good rl.(rate);
  ok_burst : 0 <= rl.(burst) < 2 ^ 53;
  ok_tokens : good rl.(tokens);
  ok_cap : fle rl.(tokens) (f64_of_Z rl.(burst));
}.

Lemma time_sub_elapsed now last : last <= now -> 0 <= time_sub now last < two63.
Proof. unfold time_sub, two63. lia. Qed.

Lemma capTokens_ok rl :
  good rl.(rate) -> 0 <= rl.(burst) < 2 ^ 53 -> valid rl.(tokens) -> nonneg rl.(tokens) ->
  bucket_ok (capTokens rl).
Proof.
  intros Hr Hb Vt Nt. pose proof (good_nat _ Hb) as Gb. unfold capTokens.
  destruct (f64_of_Z (burst rl) <.? tokens rl) eqn:E.
  - split; cbn; try done. apply fle_refl, f64_of_Z_num.
  - apply not_flt_fle in E; [|apply f64_of_Z_num|by apply fle_num in Nt as []].
    split; try done. apply (good_below _ (f64_of_Z (burst rl))); try done. apply Gb.
Qed.

Lemma refill_ok now rl : rl.(lastRefill) <= now -> bucket_ok rl -> bucket_ok (refill now rl).
Proof.
  intros Ht [Hr Hb (Vt & Ft & Nt) _]. unfold refill.
  destruct (seconds_good _ (time_sub_elapsed _ _ Ht)) as (Ve & Fe & Ne). destruct Hr as (Vr & Fr & Nr).
  destruct (fmul_nonneg_num _ _ Ve Vr Fe Fr Ne Nr) as [Vp Np].
  apply capTokens_ok; cbn; try done.
  - by apply fadd_valid.
  - eapply fle_trans; [exact Nt|]. apply fadd_ge; try done; by destruct (tokens rl).
Qed.

Lemma refill_frame now rl :
  (refill now rl).(lastRefill) = now /\ (refill now rl).(burst) = rl.(burst) /\ (refill now rl).(rate) = rl.(rate).
Proof. unfold refill, capTokens. cbn. by case_match. Qed.

Lemma AllowN_ok now n rl :
  rl.(lastRefill) <= now -> 0 <= n < 2 ^ 53 -> bucket_ok rl -> bucket_ok (AllowN now n rl).1.
Proof.
  intros Ht Hn Hok. unfold AllowN. pose proof (refill_ok _ _ Ht Hok) as H.
  destruct (f64_of_Z n <=.? _) eqn:E; [|done]. destruct H as [Hr Hb (Vt & Ft & Nt) Hc]. cbn in *.
  destruct (good_nat n Hn) as (Vn & Fn & Nn).
  assert (Hs : fle (tokens (refill now rl) ⊟ f64_of_Z n) (tokens (refill now rl)))
    by (apply fsub_le; try done; by destruct (tokens _)).
  split; cbn; try done.
  - apply (good_below _ (tokens (refill now rl))); try done; [by apply fsub_valid|].
    by apply fsub_nonneg.
  - by eapply fle_trans.
Qed.

(** Calls on a limiter, each at its instant. *)
Inductive rl_call :=
| CallAllowN (now : time) (n : Z)
| CallTokens (now : time)
| CallSetRate (r : f64)
| CallSetBurst (b : Z).

Definition rl_run (c : rl_call) (rl : RateLimiter) : RateLimiter :=
  match c with
  | CallAllowN now n => (AllowN now n rl).1
  | CallTokens now => (Tokens now rl).1
  | CallSetRate r => SetRate r rl
  | CallSetBurst b => SetBurst b rl
  end.

(** Calls a caller may make: the clock does not run backwards, counts and burst
    sizes are natural numbers, rates are finite and not negative. *)
Definition rl_allowed (c : rl_call) (rl : RateLimiter) : Prop :=
  match c with
  | CallAllowN now n => rl.(lastRefill) <= now /\ 0 <= n < 2 ^ 53
  | CallTokens now => rl.(lastRefill) <= now
  | CallSetRate r => good r
  | CallSetBurst b => 0 <= b < 2 ^ 53
  end.

Definition rl_step (rl rl' : RateLimiter) : Prop := exists c, rl_allowed c rl /\ rl' = rl_run c rl.

Lemma rl_step_ok rl rl' : rl_step rl rl' -> bucket_ok rl -> bucket_ok rl'.
Proof.
  intros (c & Hc & ->) H. destruct c; cbn in *.
  - destruct Hc. by apply AllowN_ok.
  - by apply refill_ok.
  - by destruct H.
  - destruct H as [Hr Hb (Vt & _ & Nt) Hcap]. by apply capTokens_ok.
Qed.

(** The token bucket never holds a negative number of tokens, never more than
    its burst size, and never an infinity or NaN, along any sequence of calls at
    non-decreasing instants, the rate and the burst size being changed at will:
    no rounding error of the floating-point refill breaks the bound. *)
Theorem token_bucket_bounds now r b rl :
  good r -> 0 <= b < 2 ^ 53 -> rtc rl_step (NewRateLimiter now r b) rl -> bucket_ok rl.
Proof.
  intros Hr Hb. apply rtc_invariant; [exact rl_step_ok|].
  split; cbn; try done; [by apply good_nat|apply fle_refl, f64_of_Z_num].
Qed.

(** ** A burst *)

(** The bucket holds exactly [j] tokens. *)
Definition holds (j : Z) (rl : RateLimiter) : Prop :=
  good rl.(tokens) /\ value rl.(tokens) = scaled j 0.

Lemma holds_le n j rl : holds j rl -> 0 <= n < 2 ^ 53 -> (f64_of_Z n <=.? rl.(tokens)) = (n <=? j).
Proof.
  intros ((V & F & N) & E) Hn. destruct (good_nat n Hn) as (Vn & Fn & _).
  apply eq_iff_eq_true. change (fle (f64_of_Z n) (tokens rl) <-> (n <=? j) = true).
  rewrite (fle_value _ _ Vn V Fn F), E, (proj2 (f64_of_Z_exact n Hn)), Z.leb_le. apply scaled_le. lia.
Qed.

(** No time has passed: the refill adds nothing. *)
Lemma refill_idle j rl :
  good rl.(rate) -> 0 <= j <= rl.(burst) -> rl.(burst) < 2 ^ 53 -> holds j rl ->
  holds j (refill rl.(lastRefill) rl).
Proof.
  intros (Vr & Fr & Nr) Hj Hb Hh. pose proof Hh as ((V & F & N) & E). unfold refill, time_sub.
  rewrite Z.sub_diag. change (seconds (Z.max (- two63) (Z.min (two63 - 1) 0))) with fzero.
  assert (Z0 : exists s, fzero ⊠ rate rl = S754_zero s)
    by (destruct (rate rl) as [| | |]; try done; eexists; reflexivity).
  destruct Z0 as [s Z0].
  pose proof (fadd_rounds (tokens rl) (S754_zero s) V eq_refl F eq_refl) as R. cbn [value] in R. rewrite Z.add_0_r in R.
  destruct (rounds_exact _ _ R V F) as [Fa Ea].
  assert (Ha : holds j (rl<|lastRefill := lastRefill rl|><|tokens := tokens rl ⊞ S754_zero s|>)).
  { split; cbn; [|by rewrite Ea]. split_and!; [apply (rounds_valid _ _ _ R)|done|].
    apply (rounds_lo _ _ _ R); [done..|]. apply good_value. by split_and!. }
  unfold capTokens. cbn. rewrite Z0.
  assert (C : (f64_of_Z (burst rl) <.? tokens rl ⊞ S754_zero s) = false).
  { apply not_flt_fle; [apply f64_of_Z_num|apply (rounds_num _ _ _ R)|].
    apply fle_value; [apply (rounds_valid _ _ _ R)|apply f64_of_Z_valid|done|apply f64_of_Z_exact; lia|].
    rewrite Ea, E, (proj2 (f64_of_Z_exact (burst rl) ltac:(lia))). apply scaled_le; lia. }
  rewrite C. exact Ha.
Qed.

Lemma allow_idle j rl :
  good rl.(rate) -> 0 <= j <= rl.(burst) -> rl.(burst) < 2 ^ 53 -> holds j rl ->
  let '(rl', ok) := rlAllow rl.(lastRefill) rl in
  ok = (1 <=? j) /\ holds (if 1 <=? j then j - 1 else j) rl' /\
  rl'.(lastRefill) = rl.(lastRefill) /\ rl'.(burst) = rl.(burst) /\ rl'.(rate) = rl.(rate).
Proof.
  intros Hr Hj Hb Hh. unfold rlAllow, AllowN. pose proof (refill_idle j rl Hr Hj Hb Hh) as H.
  destruct (refill_frame (lastRefill rl) rl) as (E1 & E2 & E3).
  set (rl0 := refill (lastRefill rl) rl) in *. rewrite (holds_le 1 j rl0 H) by lia.
  destruct (Z.leb_spec 1 j); [|done]. split_and!; [done| |done..].
  destruct H as ((V & F & N) & E). destruct (good_nat 1) as (V1 & F1 & N1); [lia|].
  destruct (f64_of_Z_exact (j - 1)) as [Fj Ej]; [lia|].
  pose proof (fsub_rounds _ _ V V1 F F1) as R. rewrite E, (proj2 (f64_of_Z_exact 1 ltac:(lia))) in R.
  replace (scaled j 0 - scaled 1 0) with (value (f64_of_Z (j - 1))) in R by (rewrite Ej; unfold scaled; lia).
  destruct (rounds_exact _ _ R (f64_of_Z_valid _) Fj) as [Fs Es].
  split; cbn; [|by rewrite Es, Ej]. split_and!; [apply (rounds_valid _ _ _ R)|done|].
  apply fsub_nonneg; try done. apply fle_value; try done.
  rewrite E, (proj2 (f64_of_Z_exact 1 ltac:(lia))). apply scaled_le; lia.
Qed.

(** The answers to [k] requests at one instant. *)
Fixpoint answers (now : time) (k : nat) (rl : RateLimiter) : list bool :=
  match k with
  | O => []
  | S k' => let '(rl, ok) := rlAllow now rl in ok :: answers now k' rl
  end.

Lemma answers_idle k j rl :
  good rl.(rate) -> 0 <= j <= rl.(burst) -> rl.(burst) < 2 ^ 53 -> holds j rl ->
  answers rl.(lastRefill) k rl
  = replicate (Nat.min k (Z.to_nat j)) true ++ replicate (k - Z.to_nat j) false.
Proof.
  revert j rl. induction k as [|k IH]; intros j rl Hr Hj Hb Hh; cbn [answers]; [done|].
  pose proof (allow_idle j rl Hr Hj Hb Hh) as H.
  destruct (rlAllow (lastRefill rl) rl) as [rl' ok]. destruct H as (-> & Hh' & E1 & E2 & E3).
  rewrite <- E1. destruct (Z.leb_spec 1 j).
  - rewrite (IH (j - 1)); rewrite ?E2, ?E3; try done; [|lia].
    replace (Z.to_nat j) with (S (Z.to_nat (j - 1))) by lia. done.
  - rewrite (IH j); rewrite ?E2, ?E3; try done.
    replace (Z.to_nat j) with O by lia. rewrite Nat.min_0_r, Nat.sub_0_r. by rewrite Nat.min_0_r.
Qed.

(** A burst.  Of any number of requests that arrive at the instant a limiter is
    created, it admits exactly the first [burst] and refuses the others. *)
Theorem burst_is_exact now r b k :
  good r -> 0 <= b < 2 ^ 53 ->
  answers now k (NewRateLimiter now r b)
  = replicate (Nat.min k (Z.to_nat b)) true ++ replicate (k - Z.to_nat b) false.
Proof.
  intros Hr Hb. apply (answers_idle k b (NewRateLimiter now r b)); cbn; try done; [lia..|].
  split; cbn; [by apply good_nat|by apply f64_of_Z_exact].
Qed.

Lemma token_bucket_bounds_witness :
  bucket_ok (AllowN (3 * Second) 7 (SetBurst 5 (NewRateLimiter 0 (f64_lit 7 10) 9))).1.
Proof.
  apply (token_bucket_bounds 0 (f64_lit 7 10) 9).
  - vm_compute. repeat split.
  - lia.
  - eapply rtc_l; [exists (CallSetBurst 5); split; [cbn; lia|reflexivity]|].
    eapply rtc_l; [exists (CallAllowN (3 * Second) 7); split; [vm_compute; split; [|split]; (discriminate || reflexivity)|reflexivity]|].
    apply rtc_refl.
Defined.

Lemma burst_is_exact_witness :
  answers 0 5 (NewRateLimiter 0 (f64_of_Z 100) 3) = [true; true; true; false; false].
Proof. apply (burst_is_exact 0 (f64_of_Z 100) 3 5); [vm_compute; repeat split|lia]. Defined.
