(* ===== verification/Semaphore.v ===== *)
(** * Counting semaphore ([internal/resilience/semaphore.go])

    The operations under the mutex are functions on the semaphore; [Acquire] takes
    the mutex several times, so a goroutine moves through phases between which
    others run.  The interleavings are a step relation on the semaphore and the
    phases of its goroutines.  A waiter's channel is named by its goroutine. *)
From S2P Require Import Prelude.

Record Semaphore := {
  capacity : Z;
  current : Z;
  waiters : list nat;
}.

Definition NewSemaphore (capacity : Z) : Semaphore :=
  {| capacity := if capacity <=? 0 then 1 else capacity; current := 0; waiters := [] |}.

Definition semTryAcquire (s : Semaphore) : Semaphore * bool :=
  if s.(current) <? s.(capacity) then (s<|current ::= fun n => n +! 1|>, true) else (s, false).

(** [Acquire], second critical section: a new channel joins the queue. *)
Definition enqueue (w : nat) (s : Semaphore) : Semaphore := s<|waiters ::= fun l => l ++ [w]|>.

(** [Acquire], on cancellation: the channel leaves the queue if it is in it. *)
Definition dequeue (w : nat) (s : Semaphore) : Semaphore := s<|waiters ::= remove_first (Nat.eqb w)|>.

(** [Release] returns the channel it closes, if any. *)
Definition semRelease (s : Semaphore) : Semaphore * option nat :=
  if s.(current) <=? 0 then (s, None)
  else
    match s.(waiters) with
    | w :: ws => (s<|waiters := ws|>, Some w)
    | [] => (s<|current ::= fun n => n -! 1|>, None)
    end.

Definition Current (s : Semaphore) : Z := s.(current).
Definition Capacity (s : Semaphore) : Z := s.(capacity).
Definition Available (s : Semaphore) : Z := s.(capacity) -! s.(current).

(** ** Goroutines *)

(** Where a goroutine is: outside, after a failed [TryAcquire] of [Acquire],
    in the [select] (with its channel closed or not), holding a permit. *)
Inductive phase := Idle | Missed | Waiting (closed : bool) | Holding.

#[export] Instance phase_eq_dec : EqDecision phase.
Proof. solve_decision. Defined.

Record system := {
  sem : Semaphore;
  threads : list phase;
}.

Definition init (cap : Z) (n : nat) : system :=
  {| sem := NewSemaphore cap; threads := replicate n Idle |}.

Definition goto (t : nat) (p : phase) (st : system) : system := st<|threads ::= <[t := p]>|>.
Definition close_channel (w : option nat) (st : system) : system :=
  match w with Some w => goto w (Waiting true) st | None => st end.

Inductive step : system -> system -> Prop :=
| acquire_fast t st s :
    st.(threads) !! t = Some Idle -> semTryAcquire st.(sem) = (s, true) ->
    step st (goto t Holding (st<|sem := s|>))
| acquire_miss t st s :
    st.(threads) !! t = Some Idle -> semTryAcquire st.(sem) = (s, false) ->
    step st (goto t Missed (st<|sem := s|>))
| acquire_enqueue t st :
    st.(threads) !! t = Some Missed ->
    step st (goto t (Waiting false) (st<|sem ::= enqueue t|>))
| acquire_woken t st :
    st.(threads) !! t = Some (Waiting true) -> step st (goto t Holding st)
| acquire_cancelled t st closed :
    (* select chooses freely among the ready cases *)
    st.(threads) !! t = Some (Waiting closed) -> step st (goto t Idle (st<|sem ::= dequeue t|>))
| release t st s w :
    st.(threads) !! t = Some Holding -> semRelease st.(sem) = (s, w) ->
    step st (close_channel w (goto t Idle (st<|sem := s|>))).

(** ** Accounting of permits *)

Definition count : (phase -> bool) -> list phase -> Z := count_if.
Definition is_holding (p : phase) : bool := match p with Holding => true | _ => false end.
(** A goroutine that owns a permit: it holds one or has been handed one. *)
Definition owns (p : phase) : bool := match p with Holding | Waiting true => true | _ => false end.

Lemma count_insert f l t p p' :
  l !! t = Some p -> count f (<[t := p']> l) = count f l - Z_of_bool (f p) + Z_of_bool (f p').
Proof. apply count_if_insert. Qed.

Lemma count_nonneg f l : 0 <= count f l.
Proof. apply count_if_nonneg. Qed.

Lemma count_pos f l t p : l !! t = Some p -> f p = true -> 1 <= count f l.
Proof. apply count_if_pos. Qed.

Lemma count_mono f g l : (forall p, f p = true -> g p = true) -> count f l <= count g l.
Proof. apply count_if_mono. Qed.

(** ** Safety *)

(** Permits in use never exceed [current], [current] never exceeds the capacity,
    and the queue holds exactly the channels that are waited on and open. *)
Record sem_inv (cap : Z) (st : system) : Prop := {
  inv_capacity : capacity st.(sem) = cap;
  inv_owned : count owns st.(threads) <= current st.(sem) <= cap;
  inv_nodup : NoDup (waiters st.(sem));
  inv_queue : forall w, w ∈ waiters st.(sem) <-> st.(threads) !! w = Some (Waiting false);
}.

Lemma semTryAcquire_spec s s' ok :
  current s < two63 - 1 -> - two63 <= current s -> semTryAcquire s = (s', ok) ->
  waiters s' = waiters s /\ capacity s' = capacity s /\
  if ok then current s < capacity s /\ current s' = current s + 1
  else capacity s <= current s /\ s' = s.
Proof.
  unfold semTryAcquire. intros H1 H2. destruct (Z.ltb_spec (current s) (capacity s)); intros [= <- <-]; [|done].
  split_and!; [done..|]. cbn. apply wrap64_id. unfold in_i64. lia.
Qed.

(** Moving a goroutine that is not queued, to a phase that is not queued. *)
Lemma queue_frame (l : list phase) (ws : list nat) t p p' :
  l !! t = Some p -> p <> Waiting false -> p' <> Waiting false ->
  (forall w, w ∈ ws <-> l !! w = Some (Waiting false)) ->
  forall w, w ∈ ws <-> <[t := p']> l !! w = Some (Waiting false).
Proof.
  intros Hp Hn Hn' H w. rewrite H. destruct (decide (w = t)) as [->|Hne].
  - rewrite Hp, list_lookup_insert_eq by (by eapply lookup_lt_Some). split; congruence.
  - by rewrite list_lookup_insert_ne.
Qed.

Lemma elem_of_dequeue w (ws : list nat) :
  NoDup ws -> NoDup (remove_first (Nat.eqb w) ws) /\ forall v, v ∈ remove_first (Nat.eqb w) ws <-> v ∈ ws /\ v <> w.
Proof.
  induction 1 as [|x ws Hx Hws [IHn IH]]; cbn; [split; [constructor|set_solver]|].
  destruct (Nat.eqb_spec w x) as [->|Hne].
  - split; [done|]. intros v. set_solver.
  - split; [constructor; [rewrite IH; tauto|done]|]. intros v. rewrite !elem_of_cons, IH. naive_solver.
Qed.

Section Steps.
Context (cap : Z) (Hcap : 1 <= cap < two63 - 1) (st : system) (Hinv : sem_inv cap st).

Lemma owned_bounds : 0 <= current st.(sem) < two63 - 1.
Proof. destruct Hinv as [_ H _ _]. pose proof (count_nonneg owns st.(threads)). lia. Qed.

(** A goroutine moves and the queue stays. *)
Lemma move_inv t p p' s' :
  st.(threads) !! t = Some p -> p <> Waiting false -> p' <> Waiting false ->
  waiters s' = waiters st.(sem) -> capacity s' = cap ->
  count owns st.(threads) - Z_of_bool (owns p) + Z_of_bool (owns p') <= current s' <= cap ->
  sem_inv cap (goto t p' (st<|sem := s'|>)).
Proof.
  destruct Hinv as [_ _ Hnd Hq]. intros Hp Hn Hn' Ew Ec Hcnt. split; cbn; try done.
  - by rewrite (count_insert owns _ t p).
  - by rewrite Ew.
  - rewrite Ew. by apply (queue_frame _ _ t p).
Qed.

Lemma fast_inv t s :
  st.(threads) !! t = Some Idle -> semTryAcquire st.(sem) = (s, true) ->
  sem_inv cap (goto t Holding (st<|sem := s|>)).
Proof.
  intros Hp Ha. pose proof owned_bounds. destruct Hinv as [Hc Ho _ _].
  apply semTryAcquire_spec in Ha as (Ew & Ec & Hlt & Ecur); [|unfold two63 in *; lia..].
  apply (move_inv t Idle); try done; cbn; [congruence|lia].
Qed.

Lemma miss_inv t s :
  st.(threads) !! t = Some Idle -> semTryAcquire st.(sem) = (s, false) ->
  sem_inv cap (goto t Missed (st<|sem := s|>)).
Proof.
  intros Hp Ha. pose proof owned_bounds. destruct Hinv as [Hc Ho _ _].
  apply semTryAcquire_spec in Ha as (_ & _ & _ & ->); [|unfold two63 in *; lia..].
  apply (move_inv t Idle); try done. cbn. lia.
Qed.

Lemma enqueue_inv t :
  st.(threads) !! t = Some Missed -> sem_inv cap (goto t (Waiting false) (st<|sem ::= enqueue t|>)).
Proof.
  intros Hp. destruct Hinv as [Hc Ho Hnd Hq]. split; cbn; try done.
  - rewrite (count_insert owns _ t Missed) by done. cbn. lia.
  - apply NoDup_app. split_and!; [done| |apply NoDup_singleton].
    intros w Hw ->%list_elem_of_singleton. apply Hq in Hw. congruence.
  - intros w. rewrite elem_of_app, list_elem_of_singleton, Hq. destruct (decide (w = t)) as [->|Hne].
    + rewrite list_lookup_insert_eq by (by eapply lookup_lt_Some). naive_solver.
    + rewrite list_lookup_insert_ne by done. naive_solver.
Qed.

Lemma woken_inv t : st.(threads) !! t = Some (Waiting true) -> sem_inv cap (goto t Holding st).
Proof.
  intros Hp. destruct Hinv as [Hc Ho Hnd Hq]. split; cbn; try done.
  - rewrite (count_insert owns _ t (Waiting true)) by done. cbn. lia.
  - by apply (queue_frame _ _ t (Waiting true)).
Qed.

Lemma cancelled_inv t closed :
  st.(threads) !! t = Some (Waiting closed) -> sem_inv cap (goto t Idle (st<|sem ::= dequeue t|>)).
Proof.
  intros Hp. destruct Hinv as [Hc Ho Hnd Hq]. destruct (elem_of_dequeue t _ Hnd) as [Hnd' Hd].
  split; cbn; try done.
  - rewrite (count_insert owns _ t (Waiting closed)) by done. destruct closed; cbn; lia.
  - intros w. rewrite Hd, Hq. destruct (decide (w = t)) as [->|Hne].
    + rewrite list_lookup_insert_eq by (by eapply lookup_lt_Some). naive_solver.
    + rewrite list_lookup_insert_ne by done. naive_solver.
Qed.

Lemma release_inv t s w :
  st.(threads) !! t = Some Holding -> semRelease st.(sem) = (s, w) ->
  sem_inv cap (close_channel w (goto t Idle (st<|sem := s|>))).
Proof.
  intros Hp. pose proof owned_bounds. pose proof (count_pos owns _ t Holding Hp eq_refl).
  pose proof Hinv as [Hc Ho Hnd Hq]. unfold semRelease. rewrite (proj2 (Z.leb_gt _ _)) by lia.
  destruct (waiters (sem st)) as [|x ws] eqn:Ew; intros [= <- <-]; cbn [close_channel].
  - apply (move_inv t Holding); try done; cbn.
    rewrite wrap64_id by (unfold in_i64; unfold two63 in *; lia). lia.
  - assert (Hx : st.(threads) !! x = Some (Waiting false)) by (apply Hq; left).
    assert (Hxt : x <> t) by congruence. apply NoDup_cons in Hnd as [Hni Hnd].
    assert (Hx' : <[t := Idle]> st.(threads) !! x = Some (Waiting false)) by (by rewrite list_lookup_insert_ne).
    split; cbn; try done.
    + rewrite (count_insert owns _ x (Waiting false)), (count_insert owns _ t Holding) by done. cbn. lia.
    + intros v. destruct (decide (v = x)) as [->|Hvx].
      * rewrite list_lookup_insert_eq by (by eapply lookup_lt_Some). split; [done|congruence].
      * rewrite list_lookup_insert_ne by done.
        pose proof (queue_frame st.(threads) (x :: ws) t Holding Idle Hp ltac:(done) ltac:(done) Hq v) as <-.
        set_solver.
Qed.
End Steps.

Lemma step_inv cap st st' : 1 <= cap < two63 - 1 -> step st st' -> sem_inv cap st -> sem_inv cap st'.
Proof.
  intros Hcap Hst Hinv. destruct Hst;
    eauto using fast_inv, miss_inv, enqueue_inv, woken_inv, cancelled_inv, release_inv.
Qed.

Lemma count_replicate_idle f n : f Idle = false -> count f (replicate n Idle) = 0.
Proof.
  intros H. unfold count, count_if. rewrite (proj2 (keep_nil f _)); [done|].
  intros p [-> _]%elem_of_replicate. done.
Qed.

Lemma init_inv cap n : 1 <= cap -> sem_inv cap (init cap n).
Proof.
  intros Hcap. split; cbn.
  - by rewrite (proj2 (Z.leb_gt _ _)) by lia.
  - rewrite count_replicate_idle by done. lia.
  - constructor.
  - intros w. split; [by intros ?%elem_of_nil|]. by intros [[=] _]%lookup_replicate_1.
Qed.

(** C30: The semaphore is safe under every interleaving of its goroutines,
    cancellations included: the number of goroutines that hold a permit, together
    with those that have been handed one and have not run yet, never exceeds the
    capacity. *)
Theorem semaphore_safe cap n st :
  1 <= cap < two63 - 1 -> rtc step (init cap n) st ->
  count is_holding st.(threads) <= count owns st.(threads) <= cap.
Proof.
  intros Hcap Hr. apply (rtc_invariant step (sem_inv cap)) in Hr.
  - destruct Hr as [_ [H1 H2] _ _]. split; [|lia]. apply count_mono. by intros [].
  - intros a b. by apply step_inv.
  - apply init_inv. lia.
Qed.

(** ** What cancellation and the gap before queueing cost *)

(** A permit is gone when nobody owns it and it is still counted. *)
Definition exhausted (st : system) : Prop :=
  count owns st.(threads) = 0 /\ capacity st.(sem) <= current st.(sem).

Lemma exhausted_step st st' : step st st' -> exhausted st -> exhausted st'.
Proof.
  intros Hst [H0 Hc]. unfold exhausted. destruct Hst as [t st s Ht Ha|t st s Ht Ha|t st Ht|t st Ht|t st closed Ht|t st s w Ht Hr];
    cbn in *.
  - unfold semTryAcquire in Ha. by rewrite (proj2 (Z.ltb_ge _ _)) in Ha.
  - unfold semTryAcquire in Ha. rewrite (proj2 (Z.ltb_ge _ _)) in Ha by done. injection Ha as <-.
    rewrite (count_insert owns _ t Idle) by done. cbn. lia.
  - rewrite (count_insert owns _ t Missed) by done. cbn. lia.
  - pose proof (count_pos owns _ t _ Ht eq_refl). lia.
  - rewrite (count_insert owns _ t (Waiting closed)) by done.
    destruct closed; [pose proof (count_pos owns _ t _ Ht eq_refl); lia|]. cbn. lia.
  - pose proof (count_pos owns _ t _ Ht eq_refl). lia.
Qed.

(** A cancelled [Acquire] can lose a permit for good.  When a waiter's context
    is cancelled after its channel was closed and the [select] takes the
    cancellation, nobody returns the permit it was handed: with capacity one this
    leads to a state with every goroutine outside and no queue, in which no
    goroutine ever holds a permit again. *)
Theorem semaphore_permit_leak :
  exists st, rtc step (init 1 2) st /\ st.(threads) = [Idle; Idle] /\ waiters st.(sem) = [] /\
    forall st', rtc step st st' -> count is_holding st'.(threads) = 0.
Proof.
  exists {| sem := {| capacity := 1; current := 1; waiters := [] |}; threads := [Idle; Idle] |}.
  split_and!; [|done..|].
  - eapply rtc_l; [by apply (acquire_fast 0)|].
    eapply rtc_l; [by apply (acquire_miss 1)|].
    eapply rtc_l; [by apply (acquire_enqueue 1)|].
    eapply rtc_l; [by apply (release 0)|].
    eapply rtc_l; [by apply (acquire_cancelled 1 _ true)|]. apply rtc_refl.
  - intros st' Hr. apply (rtc_invariant step exhausted) in Hr; [|exact exhausted_step|by split].
    destruct Hr as [H _]. pose proof (count_nonneg is_holding st'.(threads)).
    pose proof (count_mono is_holding owns st'.(threads) ltac:(by intros [])). lia.
Qed.

(** A wake-up can be missed.  Between the failed [TryAcquire] of [Acquire] and
    its registration as a waiter the lock is free: a release in this gap wakes
    nobody, and the goroutine then waits although a permit is available and no
    goroutine owns one, so nobody is left to wake it. *)
Theorem semaphore_missed_wakeup :
  exists st, rtc step (init 1 2) st /\ st.(threads) = [Idle; Waiting false] /\
    count owns st.(threads) = 0 /\ Available st.(sem) = 1.
Proof.
  exists {| sem := {| capacity := 1; current := 0; waiters := [1%nat] |}; threads := [Idle; Waiting false] |}.
  split_and!; [|done..].
  eapply rtc_l; [by apply (acquire_fast 0)|].
  eapply rtc_l; [by apply (acquire_miss 1)|].
  eapply rtc_l; [by apply (release 0)|].
  eapply rtc_l; [by apply (acquire_enqueue 1)|]. apply rtc_refl.
Qed.

(** ** Without that cancellation *)

(** Steps that do not cancel a waiter whose channel is closed. *)
Inductive kept_step : system -> system -> Prop :=
| kept st st' :
    step st st' -> (forall t, st.(threads) !! t = Some (Waiting true) -> st'.(threads) !! t <> Some Idle) ->
    kept_step st st'.

Definition conserved (cap : Z) (st : system) : Prop :=
  sem_inv cap st /\ current st.(sem) = count owns st.(threads).

Lemma kept_step_conserved cap st st' :
  1 <= cap < two63 - 1 -> kept_step st st' -> conserved cap st -> conserved cap st'.
Proof.
  intros Hcap Hks [Hinv Hcur]. destruct Hks as [st st' Hst Hk]. split; [by apply (step_inv cap st)|].
  pose proof (owned_bounds cap Hcap st Hinv) as B. pose proof Hinv as [_ _ _ Hq].
  destruct Hst as [t u s Ht Ha|t u s Ht Ha|t u Ht|t u Ht|t u closed Ht|t u s w Ht Hr]; cbn in *.
  - apply semTryAcquire_spec in Ha as (_ & _ & _ & Ecur); [|unfold two63 in *; lia..].
    rewrite (count_insert owns _ t Idle) by done. cbn. lia.
  - apply semTryAcquire_spec in Ha as (_ & _ & _ & ->); [|unfold two63 in *; lia..].
    rewrite (count_insert owns _ t Idle) by done. cbn. lia.
  - rewrite (count_insert owns _ t Missed) by done. cbn. lia.
  - rewrite (count_insert owns _ t (Waiting true)) by done. cbn. lia.
  - destruct closed.
    + exfalso. apply (Hk t Ht). cbn. by rewrite list_lookup_insert_eq by (by eapply lookup_lt_Some).
    + rewrite (count_insert owns _ t (Waiting false)) by done. cbn. lia.
  - pose proof (count_pos owns _ t Holding Ht eq_refl). unfold semRelease in Hr.
    rewrite (proj2 (Z.leb_gt _ _)) in Hr by lia.
    destruct (waiters (sem u)) as [|x ws] eqn:Ew; injection Hr as <- <-; cbn.
    + rewrite (count_insert owns _ t Holding) by done. cbn.
      rewrite wrap64_id by (unfold in_i64; unfold two63 in *; lia). lia.
    + assert (Hx : u.(threads) !! x = Some (Waiting false)) by (apply Hq; left).
      rewrite (count_insert owns _ x (Waiting false)) by (rewrite list_lookup_insert_ne; congruence).
      rewrite (count_insert owns _ t Holding) by done. cbn. lia.
Qed.

(** Permits are conserved as long as no cancellation takes a waiter whose
    channel is already closed: the count the semaphore keeps is exactly the number
    of permits that are owned, so a permit released is a permit that can be
    acquired again. *)
Theorem semaphore_conserves_permits cap n st :
  1 <= cap < two63 - 1 -> rtc kept_step (init cap n) st ->
  current st.(sem) = count owns st.(threads).
Proof.
  intros Hcap Hr. apply (rtc_invariant kept_step (conserved cap)) in Hr; [apply Hr|..].
  - intros a b. by apply kept_step_conserved.
  - split; [apply init_inv; lia|]. cbn. by rewrite count_replicate_idle.
Qed.

(** ** A run *)

Definition handed_over : system :=
  {| sem := {| capacity := 1; current := 1; waiters := [] |}; threads := [Idle; Holding] |}.

Lemma semaphore_safe_witness : count is_holding handed_over.(threads) <= count owns handed_over.(threads) <= 1.
Proof.
  apply (semaphore_safe 1 2); [vm_compute; split; [discriminate|reflexivity]|].
  eapply rtc_l; [apply (acquire_fast 0); reflexivity|].
  eapply rtc_l; [apply (acquire_miss 1); reflexivity|].
  eapply rtc_l; [apply (acquire_enqueue 1); reflexivity|].
  eapply rtc_l; [apply (release 0); reflexivity|].
  eapply rtc_l; [apply (acquire_woken 1); reflexivity|]. apply rtc_refl.
Defined.

Ltac kept_now := let t := fresh in intros t; destruct t as [|[|t]]; cbn; discriminate.

Lemma semaphore_conserves_permits_witness :
  current handed_over.(sem) = count owns handed_over.(threads).
Proof.
  apply (semaphore_conserves_permits 1 2); [vm_compute; split; [discriminate|reflexivity]|].
  eapply rtc_l; [constructor; [apply (acquire_fast 0); reflexivity|kept_now]|].
  eapply rtc_l; [constructor; [apply (acquire_miss 1); reflexivity|kept_now]|].
  eapply rtc_l; [constructor; [apply (acquire_enqueue 1); reflexivity|kept_now]|].
  eapply rtc_l; [constructor; [apply (release 0); reflexivity|kept_now]|].
  eapply rtc_l; [constructor; [apply (acquire_woken 1); reflexivity|kept_now]|]. apply rtc_refl.
Defined.
