(* ===== verification/AdaptiveLimiter.v ===== *)
(** * Adaptive concurrency limit ([internal/resilience/adaptive_limiter.go])

    A limit between two bounds that follows the gradient of the round-trip times.
    The limit is a binary64 float, the times are durations. *)
From Stdlib Require Import SpecFloat.
From S2P Require Import Prelude Float64 Float64Round.

Record AdaptiveLimiter := {
  minLimit : f64;
  maxLimit : f64;
  alpha : f64;
  limit : f64;
  minRTT : duration;
  inflight : Z;
  lastReset : time;
  rttSamples : list duration;
  maxSamples : Z;
  resetInterval : duration;
}.

Definition NewAdaptiveLimiter (now : time) (minL maxL : f64) : AdaptiveLimiter :=
  let minL := if minL <.? fone then fone else minL in
  let maxL := if maxL <.? minL then minL else maxL in
  {| minLimit := minL; maxLimit := maxL; limit := minL; alpha := f64_lit 1 10; maxSamples := 10;
     rttSamples := []; lastReset := now; resetInterval := 5 * Minute; minRTT := 0; inflight := 0 |}.

Definition alTryAcquire (l : AdaptiveLimiter) : AdaptiveLimiter * bool :=
  if fceil l.(limit) <=.? f64_of_Z l.(inflight) then (l, false)
  else (l<|inflight ::= fun n => n +! 1|>, true).

(** The blocking [Acquire] polls; [done] tells at each poll whether the context
    has been cancelled by then.  [None]: still polling when [done] runs out. *)
Fixpoint alAcquire (done : list bool) (l : AdaptiveLimiter) : AdaptiveLimiter * option bool :=
  let '(l, ok) := alTryAcquire l in
  if ok then (l, Some true)
  else
    match done with
    | [] => (l, None)
    | true :: _ => (l, Some false)
    | false :: done' => alAcquire done' l
    end.

Definition sumDurations (ds : list duration) : duration := foldl (fun s d => s +! d) 0 ds.

(** [if l.limit < l.minLimit {...}; if l.limit > l.maxLimit {...}] *)
Definition clamp (lo hi x : f64) : f64 :=
  let x := if x <.? lo then lo else x in if hi <.? x then hi else x.

Definition newLimit (l : AdaptiveLimiter) : f64 :=
  let avgRTT := sumDurations l.(rttSamples) /! Z.of_nat (length l.(rttSamples)) in
  let gradient := f64_of_Z l.(minRTT) ⊘ f64_of_Z avgRTT in
  let buffer := fsqrt l.(limit) in
  let newLimit := l.(limit) ⊠ gradient ⊞ buffer in
  l.(limit) ⊠ (fone ⊟ l.(alpha)) ⊞ newLimit ⊠ l.(alpha).

Definition updateLimit (l : AdaptiveLimiter) : AdaptiveLimiter :=
  if (length l.(rttSamples) =? 0)%nat || (l.(minRTT) <=? 0) then l
  else l<|limit := clamp l.(minLimit) l.(maxLimit) (newLimit l)|>.

(** [now] is read for the age of the window, [now2] when it is reset. *)
Definition alRelease (now now2 : time) (rtt : duration) (l : AdaptiveLimiter) : AdaptiveLimiter :=
  let l := l<|inflight ::= fun n => n -! 1|> in
  let l := if l.(inflight) <? 0 then l<|inflight := 0|> else l in
  if rtt <=? 0 then l
  else
    let l := if l.(resetInterval) <? time_sub now l.(lastReset)
             then l<|minRTT := rtt|><|lastReset := now2|>
             else if (l.(minRTT) <=? 0) || (rtt <? l.(minRTT)) then l<|minRTT := rtt|> else l in
    let l := l<|rttSamples ::= fun s => s ++ [rtt]|> in
    if l.(maxSamples) <=? Z.of_nat (length l.(rttSamples))
    then (updateLimit l)<|rttSamples := []|> else l.

Definition Limit (l : AdaptiveLimiter) : option Z := fceil_Z l.(limit).
Definition Inflight (l : AdaptiveLimiter) : Z := l.(inflight).

(** ** The invariant *)

(** The limit is between its bounds, the permits are counted, and at most [n]
    round-trip times, each below nine years, wait for the next update. *)
Record limiter_ok (n : Z) (l : AdaptiveLimiter) : Prop := {
  ok_min : valid l.(minLimit) /\ fle fone l.(minLimit);
  ok_max : valid l.(maxLimit) /\ is_fin l.(maxLimit) = true;
  ok_limit : valid l.(limit) /\ fle l.(minLimit) l.(limit) /\ fle l.(limit) l.(maxLimit);
  ok_alpha : l.(alpha) = f64_lit 1 10;
  ok_inflight : 0 <= l.(inflight) < 2 ^ 53;
  ok_rtt : l.(minRTT) <= 2 ^ 58;
  ok_samples : Forall (fun d => 0 < d <= 2 ^ 58) l.(rttSamples) /\
               Z.of_nat (length l.(rttSamples)) <= n /\ l.(maxSamples) = 10;
}.

Lemma fle_one_good x y : valid x -> fle fone x -> fle x y -> is_fin y = true -> good x /\ flt fzero x.
Proof.
  intros V H1 Hy Fy.
  assert (P : flt fzero x) by (by apply (flt_le_trans _ fone)).
  split; [|done]. apply (good_below _ y); try done. by apply flt_fle.
Qed.

Lemma clamp_spec lo hi x :
  valid lo -> valid hi -> valid x -> is_nan x = false -> fle lo hi ->
  valid (clamp lo hi x) /\ fle lo (clamp lo hi x) /\ fle (clamp lo hi x) hi.
Proof.
  intros Vl Vh Vx Nx H. destruct (fle_num _ _ H) as [Nl Nh]. unfold clamp.
  destruct (x <.? lo) eqn:E1.
  - destruct (hi <.? lo) eqn:E2; [by auto using fle_refl|]. by auto using fle_refl.
  - apply not_flt_fle in E1; [|done..]. destruct (hi <.? x) eqn:E2; [by auto using fle_refl|].
    apply not_flt_fle in E2; done.
Qed.

Lemma sumDurations_spec (ds : list duration) :
  Forall (fun d => 0 < d <= 2 ^ 58) ds -> Z.of_nat (length ds) <= 16 ->
  Z.of_nat (length ds) <= sumDurations ds <= Z.of_nat (length ds) * 2 ^ 58.
Proof.
  induction ds as [|d ds IH] using rev_ind; intros H Hl; [done|].
  unfold sumDurations. rewrite foldl_snoc. fold (sumDurations ds). rewrite length_app in Hl |- *. cbn [length] in Hl |- *.
  apply Forall_app in H as [H Hd]. rewrite Forall_singleton in Hd. specialize (IH H ltac:(lia)).
  rewrite wrap64_id by (unfold in_i64, two63; lia). lia.
Qed.

(** The limit before clamping is a number. *)
Lemma newLimit_num l :
  good l.(limit) -> flt fzero l.(limit) -> l.(alpha) = f64_lit 1 10 -> 0 < l.(minRTT) <= 2 ^ 58 ->
  Forall (fun d => 0 < d <= 2 ^ 58) l.(rttSamples) -> 1 <= Z.of_nat (length l.(rttSamples)) <= 16 ->
  valid (newLimit l) /\ nonneg (newLimit l).
Proof.
  intros Gl Pl Ea Hm Hs Hn. unfold newLimit.
  pose proof (sumDurations_spec (rttSamples l) Hs ltac:(lia)) as Hsum.
  set (n := Z.of_nat (length (rttSamples l))) in *. set (sum := sumDurations (rttSamples l)) in *.
  assert (Hq : 0 < sum /! n <= two63).
  { rewrite Z.quot_div_nonneg by lia. unfold two63. Z.to_euclidean_division_equations; nia. }
  set (avg := sum /! n) in *. clearbody avg.
  destruct (f64_of_Z_good (minRTT l)) as (V1 & F1 & N1); [unfold two63; lia|].
  destruct (f64_of_Z_good avg) as (V2 & F2 & N2); [lia|].
  destruct (fdiv_nonneg _ _ V1 V2 F1 F2 N1 (f64_of_Z_pos avg ltac:(lia))) as [Vg Ng].
  destruct (fmul_pos_nonneg _ _ Gl Pl Vg Ng) as [Vp Np].
  destruct (fsqrt_nonneg _ Gl) as [Vb Nb]. destruct (fadd_nonneg _ _ Vp Vb Np Nb) as [Vn Nn].
  rewrite Ea.
  assert (Ga : good (f64_lit 1 10)) by (by vm_compute).
  assert (G9 : good (fone ⊟ f64_lit 1 10)) by (by vm_compute).
  destruct (fmul_nonneg_pos _ _ Ga ltac:(by vm_compute) Vn Nn) as [Vx Nx].
  destruct Gl as (Vl & Fl & Nl). destruct G9 as (V9 & F9 & N9).
  destruct (fmul_nonneg_num _ _ Vl V9 Fl F9 Nl N9) as [Vy Ny].
  by apply fadd_nonneg.
Qed.

Lemma updateLimit_ok n l : n <= 16 -> limiter_ok n l -> limiter_ok n (updateLimit l).
Proof.
  intros Hle H. unfold updateLimit. destruct (_ || _) eqn:E; [done|].
  apply orb_false_iff in E as [El%Nat.eqb_neq Em%Z.leb_gt].
  destruct H as [[Vm Hm] [VM FM] (Vl & Hl1 & Hl2) Ea Hi Hr (Hs & Hn & Hx)].
  destruct (fle_one_good _ _ Vl (fle_trans _ _ _ Hm Hl1) Hl2 FM) as [Gl Pl].
  destruct (newLimit_num l Gl Pl Ea) as [Vn Nn]; [lia|done|lia|].
  pose proof (fle_trans _ _ _ Hl1 Hl2). destruct (fle_num _ _ Nn) as [_ Nx].
  split; cbn; auto using clamp_spec.
Qed.

(** The window after a sample. *)
Definition observe (now now2 : time) (rtt : duration) (l : AdaptiveLimiter) : AdaptiveLimiter :=
  let l := if l.(resetInterval) <? time_sub now l.(lastReset)
           then l<|minRTT := rtt|><|lastReset := now2|>
           else if (l.(minRTT) <=? 0) || (rtt <? l.(minRTT)) then l<|minRTT := rtt|> else l in
  l<|rttSamples ::= fun s => s ++ [rtt]|>.

Lemma observe_ok now now2 rtt n l :
  0 < rtt <= 2 ^ 58 -> limiter_ok n l -> limiter_ok (n + 1) (observe now now2 rtt l).
Proof.
  intros Hr [? ? ? ? ? ? (Hs & Hn & Hx)]. unfold observe.
  assert (Hs' : Forall (fun d => 0 < d <= 2 ^ 58) (rttSamples l ++ [rtt]) /\
    Z.of_nat (length (rttSamples l ++ [rtt])) <= n + 1 /\ maxSamples l = 10).
  { rewrite length_app. cbn [length]. split_and!; [|lia|assumption].
    apply Forall_app; split; [assumption|by constructor]. }
  assert (rtt <= 2 ^ 58) by lia. repeat case_match; split; cbn; assumption.
Qed.

Lemma alRelease_ok now now2 rtt l :
  rtt <= 2 ^ 58 -> limiter_ok 9 l -> limiter_ok 9 (alRelease now now2 rtt l).
Proof.
  intros Hr H. unfold alRelease.
  set (l1 := l<|inflight ::= fun n => n -! 1|>). set (l2 := if inflight l1 <? 0 then l1<|inflight := 0|> else l1).
  assert (H2 : limiter_ok 9 l2).
  { destruct H as [? ? ? ? Hi ? ?]. unfold l2, l1. cbn.
    rewrite wrap64_id by (unfold in_i64, two63; lia).
    assert (0 <= 0 < 2 ^ 53) by lia.
    destruct (Z.ltb_spec (inflight l - 1) 0); split; cbn; try assumption.
    rewrite wrap64_id by (unfold in_i64, two63; lia). lia. }
  destruct (Z.leb_spec rtt 0); [done|]. fold (observe now now2 rtt l2).
  pose proof (observe_ok now now2 rtt 9 l2 ltac:(lia) H2) as H3. cbv zeta.
  destruct (Z.leb_spec (maxSamples (observe now now2 rtt l2)) (Z.of_nat (length (rttSamples (observe now now2 rtt l2))))).
  - pose proof (updateLimit_ok 10 _ ltac:(lia) H3) as [? ? ? ? ? ? (? & ? & ?)].
    split; cbn; try assumption. split_and!; [constructor|lia|assumption].
  - destruct H3 as [? ? ? ? ? ? (? & ? & ?)]. split; try assumption. split_and!; [assumption|lia|assumption].
Qed.

(** *** Integers below the limit *)

(** The ceiling of a limit below [2^52] is an integer the comparison sees
    exactly. *)
Lemma fceil_exact x :
  valid x -> nonneg x -> flt x (f64_of_Z (2 ^ 52)) ->
  exists c, fceil_Z x = Some c /\ 0 <= c < 2 ^ 53 /\ (fceil x = f64_of_Z c \/ fceil x = x /\ x = fzero \/ fceil x = S754_zero true /\ c = 0).
Proof.
  intros V N H. apply nonneg_cases in N as [[s ->]|[->|(m & e & ->)]].
  - exists 0. destruct s; cbn; split_and!; try done; auto.
  - by vm_compute in H.
  - assert (He : e < 0).
    { apply Z.nle_gt. intros He. apply bounded_grid in V as G. destruct G as [(G1 & G2 & G3) G4].
      assert (L : fle (f64_of_Z (2 ^ 52)) (S754_finite false m e)).
      { apply fle_value; [apply f64_of_Z_valid|done|by vm_compute|done|].
        rewrite (proj2 (f64_of_Z_exact (2 ^ 52) ltac:(lia))). cbn [value].
        replace e with (0 + e) by lia. rewrite scaled_shift by lia. apply scaled_le; [lia|].
        pose proof (pow2_pos e He). nia. }
      pose proof (fle_lt_trans _ _ _ L H) as X. by apply flt_irrefl in X. }
    unfold fceil, fceil_Z. rewrite (proj2 (Z.leb_gt 0 e)) by lia.
    exists (- (- Z.pos m / 2 ^ (- e))). split_and!; [done| | |by left].
    + pose proof (pow2_pos (- e) ltac:(lia)). Z.to_euclidean_division_equations; nia.
    + apply bounded_grid in V as [(G1 & _ & _) _].
      pose proof (pow2_pos (- e) ltac:(lia)). Z.to_euclidean_division_equations; nia.
Qed.

Lemma alTryAcquire_ok l :
  fle l.(maxLimit) (f64_of_Z (2 ^ 52 - 1)) -> limiter_ok 9 l ->
  exists c, Limit l = Some c /\ 0 <= c < 2 ^ 53 /\
    if (alTryAcquire l).2 then inflight (alTryAcquire l).1 = l.(inflight) + 1 /\ l.(inflight) + 1 <= c
    else (alTryAcquire l).1 = l /\ c <= l.(inflight).
Proof.
  intros Hmax [[Vm Hm] _ (Vl & Hl1 & Hl2) _ Hi _ _].
  assert (P : flt fzero (limit l)).
  { apply (flt_le_trans _ fone); [done|]. by eapply fle_trans. }
  destruct (fceil_exact (limit l)) as (c & Ec & Hc & Hf); [done|by apply flt_fle| |].
  { eapply fle_lt_trans; [by eapply fle_trans|]. by vm_compute. }
  exists c. split_and!; [done|lia|lia|]. unfold alTryAcquire.
  assert (E : (fceil (limit l) <=.? f64_of_Z (inflight l)) = (c <=? inflight l)).
  { destruct Hf as [->|[[_ E]|[E ->]]].
    - by apply f64_of_Z_lt.
    - rewrite E in P. by apply flt_irrefl in P.
    - rewrite E. replace (0 <=? inflight l) with true by lia.
      destruct (f64_of_Z_good (inflight l)) as (_ & _ & Ng); [unfold two63; lia|]. exact Ng. }
  rewrite E. destruct (Z.leb_spec c (inflight l)); [done|]. cbn.
  rewrite wrap64_id by (unfold in_i64, two63; lia). lia.
Qed.

(** ** Reachable limiters *)

Inductive al_step : AdaptiveLimiter -> AdaptiveLimiter -> Prop :=
| al_try l : al_step l (alTryAcquire l).1
| al_release now now2 rtt l : rtt <= 2 ^ 58 -> al_step l (alRelease now now2 rtt l).

Definition bound_ok (x : f64) : Prop := valid x /\ is_fin x = true /\ fle x (f64_of_Z (2 ^ 52 - 1)).

Lemma alRelease_max now now2 rtt l : maxLimit (alRelease now now2 rtt l) = maxLimit l.
Proof. unfold alRelease, updateLimit. repeat case_match; done. Qed.

Lemma alTryAcquire_inv l :
  fle l.(maxLimit) (f64_of_Z (2 ^ 52 - 1)) -> limiter_ok 9 l -> limiter_ok 9 (alTryAcquire l).1.
Proof.
  intros Hmax H. destruct (alTryAcquire_ok l Hmax H) as (c & _ & Hc & Hi).
  unfold alTryAcquire in *. destruct (_ <=.? _); [done|]. cbn in *. destruct H. split; cbn; try assumption. lia.
Qed.

Definition reach_ok (l : AdaptiveLimiter) : Prop :=
  fle l.(maxLimit) (f64_of_Z (2 ^ 52 - 1)) /\ limiter_ok 9 l.

Lemma al_step_ok l l' : al_step l l' -> reach_ok l -> reach_ok l'.
Proof.
  intros Hst [Hmax H]. destruct Hst as [l|now now2 rtt l Hr].
  - split; [|by apply alTryAcquire_inv]. unfold alTryAcquire. by case_match.
  - split; [by rewrite alRelease_max|by apply alRelease_ok].
Qed.

Lemma NewAdaptiveLimiter_ok now lo hi : bound_ok lo -> bound_ok hi -> reach_ok (NewAdaptiveLimiter now lo hi).
Proof.
  intros (Vl & Fl & Hl) (Vh & Fh & Hh). unfold NewAdaptiveLimiter.
  destruct (fle_num _ _ Hl) as [Nl _]. destruct (fle_num _ _ Hh) as [Nh _].
  set (mn := if lo <.? fone then fone else lo).
  assert (M : valid mn /\ is_fin mn = true /\ fle mn (f64_of_Z (2 ^ 52 - 1)) /\ fle fone mn).
  { unfold mn. destruct (lo <.? fone) eqn:E; [by vm_compute|]. apply not_flt_fle in E; done. }
  destruct M as (Vm & Fm & Hm & H1). destruct (fle_num _ _ H1) as [_ Nm].
  set (mx := if hi <.? mn then mn else hi).
  assert (X : valid mx /\ is_fin mx = true /\ fle mx (f64_of_Z (2 ^ 52 - 1)) /\ fle mn mx).
  { unfold mx. destruct (hi <.? mn) eqn:E; [auto using fle_refl|]. apply not_flt_fle in E; done. }
  destruct X as (Vx & Fx & Hx & H2). split; [done|]. split; cbn; auto using fle_refl; [lia..|].
  split_and!; [constructor|lia|done].
Qed.

(** C34: The adaptive limit stays between its bounds, at every reachable state and
    whatever the round-trip times (below nine years): it is a finite number, at
    least one, at least the minimum and at most the maximum, so the gradient, the
    square root and the smoothing never produce NaN or an infinity that is kept;
    in-flight requests are never negative; and an acquisition succeeds exactly
    when the number of requests in flight is below the limit. *)
Theorem adaptive_limit_bounds now lo hi l :
  bound_ok lo -> bound_ok hi -> rtc al_step (NewAdaptiveLimiter now lo hi) l ->
  (fle fone l.(limit) /\ fle l.(minLimit) l.(limit) /\ fle l.(limit) l.(maxLimit) /\ is_fin l.(limit) = true) /\
  0 <= Inflight l /\
  exists c, Limit l = Some c /\ (alTryAcquire l).2 = (Inflight l <? c).
Proof.
  intros Hlo Hhi Hr. apply (rtc_invariant al_step reach_ok) in Hr;
    [|exact al_step_ok|by apply NewAdaptiveLimiter_ok].
  destruct Hr as [Hmax H]. destruct (alTryAcquire_ok l Hmax H) as (c & Ec & _ & Ht).
  destruct H as [[Vm Hm] [VM FM] (Vl & Hl1 & Hl2) _ Hi _ _].
  assert (H1 : fle fone (limit l)) by (by eapply fle_trans).
  destruct (fle_one_good _ _ Vl H1 Hl2 FM) as [(_ & Fl & _) _].
  split_and!; try done; [unfold Inflight; lia|]. exists c. split; [done|]. unfold Inflight.
  destruct (alTryAcquire l).2; symmetry; [apply Z.ltb_lt|apply Z.ltb_ge]; lia.
Qed.

Lemma adaptive_limit_bounds_witness :
  let l := (alTryAcquire (NewAdaptiveLimiter 0 (f64_of_Z 2) (f64_of_Z 100))).1 in
  (fle fone l.(limit) /\ fle l.(minLimit) l.(limit) /\ fle l.(limit) l.(maxLimit) /\ is_fin l.(limit) = true) /\
  0 <= Inflight l /\
  exists c, Limit l = Some c /\ (alTryAcquire l).2 = (Inflight l <? c).
Proof.
  intros l. apply (adaptive_limit_bounds 0 (f64_of_Z 2) (f64_of_Z 100)).
  - vm_compute. repeat split.
  - vm_compute. repeat split.
  - eapply rtc_l; [apply al_try|apply rtc_refl].
Defined.
