(* ===== verification/ResilienceManager.v ===== *)
(** * Resilience manager ([internal/resilience/manager.go])

    One breaker, one limiter and one semaphore per key, created on first use.
    The components are shared objects behind the maps: an operation on one is an
    update of its entry.  Instants read by the calls are arguments. *)
From S2P Require Import Prelude Float64 Float64Round CircuitBreaker TokenBucket Semaphore.

Record Manager := {
  circuitBreakers : gmap string CircuitBreaker;
  rateLimiters : gmap string RateLimiter;
  semaphores : gmap string Semaphore;
  mCbConfig : CircuitBreakerConfig;
  defaultRate : f64;
  defaultBurst : Z;
}.

Record ManagerConfig := {
  MCircuitBreaker : CircuitBreakerConfig;
  DefaultRate : f64;
  DefaultBurst : Z;
}.

Definition DefaultManagerConfig : ManagerConfig :=
  {| MCircuitBreaker := DefaultCircuitBreakerConfig; DefaultRate := f64_of_Z 100; DefaultBurst := 50 |}.

Definition NewManager (cfg : ManagerConfig) : Manager :=
  {| circuitBreakers := ∅; rateLimiters := ∅; semaphores := ∅;
     mCbConfig := cfg.(MCircuitBreaker); defaultRate := cfg.(DefaultRate); defaultBurst := cfg.(DefaultBurst) |}.

(** The getters return the entry, creating it when it is missing. *)
Definition GetCircuitBreaker (key : string) (m : Manager) : Manager * CircuitBreaker :=
  match m.(circuitBreakers) !! key with
  | Some cb => (m, cb)
  | None => let cb := NewCircuitBreaker key m.(mCbConfig) in
            (m<|circuitBreakers ::= <[key := cb]>|>, cb)
  end.

Definition GetRateLimiter (now : time) (key : string) (m : Manager) : Manager * RateLimiter :=
  match m.(rateLimiters) !! key with
  | Some rl => (m, rl)
  | None => let rl := NewRateLimiter now m.(defaultRate) m.(defaultBurst) in
            (m<|rateLimiters ::= <[key := rl]>|>, rl)
  end.

Definition GetSemaphore (key : string) (cap : Z) (m : Manager) : Manager * Semaphore :=
  match m.(semaphores) !! key with
  | Some s => (m, s)
  | None => let s := NewSemaphore cap in (m<|semaphores ::= <[key := s]>|>, s)
  end.

Definition SetRateLimiter (now : time) (key : string) (rate : f64) (burst : Z) (m : Manager) : Manager :=
  m<|rateLimiters ::= <[key := NewRateLimiter now rate burst]>|>.

Definition SetSemaphore (key : string) (cap : Z) (m : Manager) : Manager :=
  m<|semaphores ::= <[key := NewSemaphore cap]>|>.

(** How [CheckAndAcquire] ends, or that it waits for a permit, queued in the
    semaphore under the channel [w]. *)
Inductive acquired := Granted | ErrCircuitOpen | ErrRateLimited | WaitsForPermit.

#[export] Instance acquired_eq_dec : EqDecision acquired.
Proof. solve_decision. Defined.

Definition CheckAndAcquire (now : time) (w : nat) (key : string) (maxConcurrent : Z) (m : Manager) :
  Manager * acquired :=
  let '(m, cb) := GetCircuitBreaker key m in
  let '(cb, allowed) := Allow now cb in
  let m := m<|circuitBreakers ::= <[key := cb]>|> in
  if negb allowed then (m, ErrCircuitOpen)
  else
    let '(m, rl) := GetRateLimiter now key m in
    let '(rl, ok) := rlAllow now rl in
    let m := m<|rateLimiters ::= <[key := rl]>|> in
    if negb ok then (m, ErrRateLimited)
    else if 0 <? maxConcurrent then
      let '(m, s) := GetSemaphore key maxConcurrent m in
      let '(s, got) := semTryAcquire s in
      if got then (m<|semaphores ::= <[key := s]>|>, Granted)
      else (m<|semaphores ::= <[key := enqueue w s]>|>, WaitsForPermit)
    else (m, Granted).

(** [Release] also returns the waiter it wakes. *)
Definition Release (key : string) (maxConcurrent : Z) (m : Manager) : Manager * option nat :=
  if 0 <? maxConcurrent then
    match m.(semaphores) !! key with
    | Some s => let '(s, woken) := semRelease s in (m<|semaphores ::= <[key := s]>|>, woken)
    | None => (m, None)
    end
  else (m, None).

Definition mRecordSuccess (key : string) (m : Manager) : Manager :=
  let '(m, cb) := GetCircuitBreaker key m in m<|circuitBreakers ::= <[key := cbRecordSuccess cb]>|>.

Definition mRecordFailure (now : time) (key : string) (m : Manager) : Manager :=
  let '(m, cb) := GetCircuitBreaker key m in m<|circuitBreakers ::= <[key := cbRecordFailure now cb]>|>.

Record ResilienceStats := {
  Key : string;
  SCircuitState : string;
  RateLimitTokens : f64;
  ConcurrentCurrent : Z;
  ConcurrentCapacity : Z;
}.

(** Reading the tokens refills the bucket. *)
Definition Stats (now : time) (key : string) (m : Manager) : Manager * ResilienceStats :=
  let circuit := match m.(circuitBreakers) !! key with
                 | Some cb => CircuitState_String (State cb) | None => "" end in
  let '(m, toks) := match m.(rateLimiters) !! key with
                    | Some rl => let '(rl, t) := Tokens now rl in (m<|rateLimiters ::= <[key := rl]>|>, t)
                    | None => (m, fzero)
                    end in
  let '(cur, cap) := match m.(semaphores) !! key with
                     | Some s => (Current s, Capacity s) | None => (0, 0) end in
  (m, {| Key := key; SCircuitState := circuit; RateLimitTokens := toks;
         ConcurrentCurrent := cur; ConcurrentCapacity := cap |}).

(** ** Calls on a manager *)

Inductive m_call :=
| CallCheck (now : time) (w : nat) (key : string) (maxConcurrent : Z)
| CallRelease (key : string) (maxConcurrent : Z)
| CallSuccess (key : string)
| CallFailure (now : time) (key : string)
| CallSetRateLimiter (now : time) (key : string) (rate : f64) (burst : Z)
| CallSetSemaphore (key : string) (cap : Z)
| CallStats (now : time) (key : string).

Definition call_key (c : m_call) : string :=
  match c with
  | CallCheck _ _ k _ | CallRelease k _ | CallSuccess k | CallFailure _ k
  | CallSetRateLimiter _ k _ _ | CallSetSemaphore k _ | CallStats _ k => k
  end.

Definition m_run (m : Manager) (c : m_call) : Manager :=
  match c with
  | CallCheck now w k n => (CheckAndAcquire now w k n m).1
  | CallRelease k n => (Release k n m).1
  | CallSuccess k => mRecordSuccess k m
  | CallFailure now k => mRecordFailure now k m
  | CallSetRateLimiter now k r b => SetRateLimiter now k r b m
  | CallSetSemaphore k n => SetSemaphore k n m
  | CallStats now k => (Stats now k m).1
  end.

(** The three components of a key. *)
Definition view (key : string) (m : Manager) :
  option CircuitBreaker * option RateLimiter * option Semaphore :=
  (m.(circuitBreakers) !! key, m.(rateLimiters) !! key, m.(semaphores) !! key).

Lemma m_run_view m c key : key <> call_key c -> view key (m_run m c) = view key m.
Proof.
  intros Hne. unfold view. destruct c; cbn in *;
    unfold CheckAndAcquire, Release, mRecordSuccess, mRecordFailure, SetRateLimiter, SetSemaphore, Stats,
      GetCircuitBreaker, GetRateLimiter, GetSemaphore;
    repeat (case_match; simplify_eq/=); rewrite ?lookup_insert_ne by congruence; done.
Qed.

(** Keys are independent: any sequence of calls that does not name a key leaves
    its breaker, its limiter and its semaphore as they were, so the failures, the
    rate and the concurrency of one provider never affect another. *)
Theorem manager_keys_independent cs m key :
  Forall (fun c => key <> call_key c) cs -> view key (foldl m_run m cs) = view key m.
Proof.
  intros H. revert m. induction H as [|c cs Hc _ IH]; intros m; cbn [foldl]; [done|].
  rewrite IH. by apply m_run_view.
Qed.

(** ** The components of a key, created on demand *)

Definition breakerOf (key : string) (m : Manager) : CircuitBreaker := (GetCircuitBreaker key m).2.
Definition limiterOf (now : time) (key : string) (m : Manager) : RateLimiter := (GetRateLimiter now key m).2.
Definition semaphoreOf (key : string) (cap : Z) (m : Manager) : Semaphore := (GetSemaphore key cap m).2.

Lemma GetCircuitBreaker_frame key m :
  rateLimiters (GetCircuitBreaker key m).1 = rateLimiters m /\ semaphores (GetCircuitBreaker key m).1 = semaphores m
  /\ defaultRate (GetCircuitBreaker key m).1 = defaultRate m /\ defaultBurst (GetCircuitBreaker key m).1 = defaultBurst m.
Proof. unfold GetCircuitBreaker. by case_match. Qed.

Lemma GetRateLimiter_frame now key m :
  circuitBreakers (GetRateLimiter now key m).1 = circuitBreakers m /\ semaphores (GetRateLimiter now key m).1 = semaphores m.
Proof. unfold GetRateLimiter. by case_match. Qed.

#[local] Arguments Allow : simpl never.
#[local] Arguments rlAllow : simpl never.
#[local] Arguments semTryAcquire : simpl never.

(** The call in one step, over the three components. *)
Lemma CheckAndAcquire_spec now w key n m :
  let '(cb, allowed) := Allow now (breakerOf key m) in
  let '(rl, ok) := rlAllow now (limiterOf now key m) in
  let '(sm, got) := semTryAcquire (semaphoreOf key n m) in
  let '(m', res) := CheckAndAcquire now w key n m in
  m'.(circuitBreakers) !! key = Some cb /\
  if negb allowed then
    res = ErrCircuitOpen /\ m'.(rateLimiters) = m.(rateLimiters) /\ m'.(semaphores) = m.(semaphores)
  else
    m'.(rateLimiters) !! key = Some rl /\
    if negb ok then res = ErrRateLimited /\ m'.(semaphores) = m.(semaphores)
    else if 0 <? n then
      if got then res = Granted /\ m'.(semaphores) !! key = Some sm
      else res = WaitsForPermit /\ m'.(semaphores) !! key = Some (enqueue w sm)
    else res = Granted /\ m'.(semaphores) = m.(semaphores).
Proof.
  unfold CheckAndAcquire, breakerOf, limiterOf, semaphoreOf, GetCircuitBreaker, GetRateLimiter, GetSemaphore.
  destruct (circuitBreakers m !! key) as [cb0|] eqn:Ecb; cbn;
  (destruct (Allow now _) as [cb allowed]; destruct (rateLimiters m !! key) as [rl0|] eqn:Erl; cbn;
   destruct (rlAllow now _) as [rl ok]; destruct (semaphores m !! key) as [s0|] eqn:Es; cbn;
   destruct (semTryAcquire _) as [sm got];
   destruct allowed; cbn; rewrite ?Erl; cbn; destruct ok; cbn; destruct (0 <? n); cbn; rewrite ?Es; cbn;
   destruct got; cbn; rewrite ?lookup_insert_eq; done).
Qed.

(** Admission.  A request is refused by the first component that refuses it, in
    the order breaker, limiter, semaphore, and a refusal takes nothing from the
    components after it: an open circuit takes no token and no permit, an empty
    bucket takes no permit.  It is granted exactly when the breaker allows it, a
    token is available and, if concurrency is limited, a permit is free; when only
    the permit is missing it waits. *)
Theorem check_and_acquire_order now w key n m m' res :
  CheckAndAcquire now w key n m = (m', res) ->
  let allowed := (Allow now (breakerOf key m)).2 in
  let ok := (rlAllow now (limiterOf now key m)).2 in
  let full := (0 <? n) && (capacity (semaphoreOf key n m) <=? current (semaphoreOf key n m)) in
  (res = ErrCircuitOpen <-> allowed = false) /\
  (res = ErrRateLimited <-> allowed = true /\ ok = false) /\
  (res = WaitsForPermit <-> allowed = true /\ ok = true /\ full = true) /\
  (res = Granted <-> allowed = true /\ ok = true /\ full = false) /\
  (res = ErrCircuitOpen -> m'.(rateLimiters) = m.(rateLimiters)) /\
  (res = ErrCircuitOpen \/ res = ErrRateLimited -> m'.(semaphores) = m.(semaphores)).
Proof.
  intros E. pose proof (CheckAndAcquire_spec now w key n m) as H.
  destruct (Allow now (breakerOf key m)) as [cb allowed], (rlAllow now (limiterOf now key m)) as [rl ok].
  set (s := semaphoreOf key n m) in *.
  assert (T : (semTryAcquire s).2 = negb (capacity s <=? current s))
    by (rewrite <- Z.ltb_antisym; unfold semTryAcquire; by destruct (current s <? capacity s)).
  destruct (semTryAcquire s) as [sm got]. cbn in T. subst got. rewrite E in H. cbn [snd].
  destruct H as [_ H], allowed, ok, (0 <? n), (capacity s <=? current s); cbn in *; naive_solver.
Qed.

(** Calls for one key that are all refused by the limiter. *)
Fixpoint calls (ts : list time) (w : nat) (key : string) (n : Z) (m : Manager) : Manager * list acquired :=
  match ts with
  | [] => (m, [])
  | t :: ts' =>
      let '(m, r) := CheckAndAcquire t w key n m in
      let '(m, rs) := calls ts' w key n m in
      (m, r :: rs)
  end.

Lemma breakerOf_lookup key m cb : m.(circuitBreakers) !! key = Some cb -> breakerOf key m = cb.
Proof. intros E. unfold breakerOf, GetCircuitBreaker. by rewrite E. Qed.

Lemma rate_limited_probe t w key n m m' :
  let cb := breakerOf key m in
  cfg_ok cb.(cbConfig) -> cb_inv cb -> cb.(state) = StateHalfOpen ->
  CheckAndAcquire t w key n m = (m', ErrRateLimited) ->
  let cb' := breakerOf key m' in
  cb'.(state) = StateHalfOpen /\ cb'.(cbConfig) = cb.(cbConfig) /\ cb_inv cb' /\
  cb'.(halfOpenCount) = cb.(halfOpenCount) + 1 /\ cb.(halfOpenCount) < cb.(cbConfig).(HalfOpenMaxRequests) /\
  cb'.(successCount) = cb.(successCount).
Proof.
  intros cb Hcfg Hinv Hst E cb'. pose proof (CheckAndAcquire_spec t w key n m) as H.
  pose proof (Allow_inv cb Hcfg Hinv t) as Hinv'. pose proof (inv_half _ Hinv Hst) as [_ Hh].
  pose proof Hcfg as (_ & _ & Hmax).
  fold cb in H. destruct (Allow t cb) as [cb1 allowed] eqn:Ea. destruct (rlAllow _ _), (semTryAcquire _).
  rewrite E in H. destruct H as [Hl H]. apply breakerOf_lookup in Hl. unfold cb'. rewrite Hl.
  unfold Allow in Ea. rewrite Hst in Ea.
  destruct (Z.ltb_spec (halfOpenCount cb) (HalfOpenMaxRequests (cbConfig cb))); injection Ea as <- <-; [|naive_solver].
  cbn in *. split_and!; try done. apply wrap64_id. unfold in_i64, two63 in *. lia.
Qed.

(** Probes lost to the rate limiter.  The breaker is asked before the limiter,
    so a half-open breaker counts a probe for every request the limiter then
    refuses: after as many such refusals as it had probes left it refuses every
    request with [ErrCircuitOpen], at every later instant, although no request
    was sent and no outcome will be recorded. *)
Theorem rate_limited_probes_lost ts w key n m m' rs :
  let cb := breakerOf key m in
  cfg_ok cb.(cbConfig) -> cb_inv cb -> cb.(state) = StateHalfOpen ->
  calls ts w key n m = (m', rs) -> Forall (fun r => r = ErrRateLimited) rs ->
  cb.(halfOpenCount) + Z.of_nat (length ts) = cb.(cbConfig).(HalfOpenMaxRequests) ->
  forall t, (CheckAndAcquire t w key n m').2 = ErrCircuitOpen.
Proof.
  intros cb Hcfg Hinv Hst Hc Hrs Hlen t.
  assert (G : let cb' := breakerOf key m' in cb'.(state) = StateHalfOpen /\
    cb'.(cbConfig) = cb.(cbConfig) /\ cb'.(halfOpenCount) = cb.(halfOpenCount) + Z.of_nat (length ts)).
  { unfold cb in *. clear cb Hlen. revert m rs Hcfg Hinv Hst Hc Hrs.
    induction ts as [|t0 ts IH]; intros m rs Hcfg Hinv Hst Hc Hrs; cbn [calls length] in *.
    - injection Hc as <- <-. by rewrite Z.add_0_r.
    - destruct (CheckAndAcquire t0 w key n m) as [m1 r1] eqn:E. destruct (calls ts w key n m1) as [m2 rs'] eqn:Ec.
      injection Hc as <- <-. apply Forall_cons in Hrs as [-> Hrs].
      destruct (rate_limited_probe t0 w key n m m1 Hcfg Hinv Hst E) as (S1 & C1 & I1 & N1 & _ & _).
      destruct (IH m1 rs') as (S2 & C2 & N2); try done; [by rewrite C1|].
      split_and!; [done|congruence|lia]. }
  destruct G as (Hs & Hcf & Hn). pose proof (CheckAndAcquire_spec t w key n m') as H.
  assert (Ha : Allow t (breakerOf key m') = (breakerOf key m', false)).
  { unfold Allow. rewrite Hs, Hcf, Hn. by rewrite (proj2 (Z.ltb_ge _ _)) by lia. }
  rewrite Ha in H. destruct (rlAllow _ _), (semTryAcquire _), (CheckAndAcquire t w key n m'). naive_solver.
Qed.

Lemma CheckAndAcquire_granted now w key n m m' :
  0 < n -> CheckAndAcquire now w key n m = (m', Granted) ->
  exists sm, semTryAcquire (semaphoreOf key n m) = (sm, true) /\ m'.(semaphores) !! key = Some sm.
Proof.
  intros Hn E. pose proof (CheckAndAcquire_spec now w key n m) as H.
  destruct (Allow _ _) as [? allowed], (rlAllow _ _) as [? ok], (semTryAcquire _) as [sm got].
  rewrite E, (proj2 (Z.ltb_lt _ _)) in H by done. destruct allowed, ok, got; cbn in H; naive_solver.
Qed.

(** Release undoes acquisition: when a granted request releases its permit and
    nobody waits for it, the semaphore of the key is as before the request, for
    every key and capacity, and no waiter is woken. *)
Theorem acquire_release_roundtrip now w key n m m' :
  let s := semaphoreOf key n m in
  0 < n -> 0 <= current s < two63 - 1 -> waiters s = [] ->
  CheckAndAcquire now w key n m = (m', Granted) ->
  exists m'', Release key n m' = (m'', None) /\ m''.(semaphores) !! key = Some s.
Proof.
  intros s Hn Hb Hw E. destruct (CheckAndAcquire_granted _ _ _ _ _ _ Hn E) as (sm & Et & Es).
  fold s in Et. unfold semTryAcquire in Et. destruct (current s <? capacity s); [|done]. injection Et as <-.
  unfold Release. rewrite (proj2 (Z.ltb_lt _ _)), Es by done. unfold semRelease. cbn. rewrite Hw.
  rewrite wrap64_id by (unfold in_i64, two63 in *; lia).
  rewrite (proj2 (Z.leb_gt _ _)) by lia. eexists. split; [done|]. cbn. rewrite lookup_insert_eq. f_equal.
  destruct s as [cap cur ws]; cbn in *. subst ws.
  change ({| capacity := cap; current := (cur +! 1) -! 1; waiters := [] |}
    = {| capacity := cap; current := cur; waiters := [] |}).
  rewrite (wrap64_id (cur + 1)) by (unfold in_i64, two63 in *; lia).
  rewrite wrap64_id by (unfold in_i64, two63 in *; lia).
  f_equal. lia.
Qed.

(** ** A provider in trouble *)

Definition tripped : Manager :=
  let m := NewManager (DefaultManagerConfig<|DefaultRate := fzero|><|DefaultBurst := 1|>) in
  foldl m_run m (replicate 5 (CallFailure 0 "openai") ++ [CallCheck (30 * Second) 0 "openai" 4; CallRelease "openai" 4]).

Lemma manager_keys_independent_witness :
  view "azure" (foldl m_run tripped [CallFailure 0 "openai"; CallSetSemaphore "openai" 9]) = view "azure" tripped.
Proof. apply manager_keys_independent. repeat constructor; discriminate. Defined.

Lemma check_and_acquire_order_witness :
  (CheckAndAcquire (31 * Second) 0 "openai" 4 tripped).2 = ErrRateLimited.
Proof.
  destruct (check_and_acquire_order (31 * Second) 0 "openai" 4 tripped
    (CheckAndAcquire (31 * Second) 0 "openai" 4 tripped).1 (CheckAndAcquire (31 * Second) 0 "openai" 4 tripped).2)
    as (_ & H & _).
  - apply surjective_pairing.
  - apply H. vm_compute. split; reflexivity.
Defined.

Lemma rate_limited_probes_lost_witness :
  (CheckAndAcquire (1000 * Hour) 0 "openai" 4 (calls [31 * Second; 32 * Second] 0 "openai" 4 tripped).1).2 = ErrCircuitOpen.
Proof.
  apply (rate_limited_probes_lost [31 * Second; 32 * Second] 0 "openai" 4 tripped
    (calls [31 * Second; 32 * Second] 0 "openai" 4 tripped).1 (calls [31 * Second; 32 * Second] 0 "openai" 4 tripped).2).
  - vm_compute. repeat split; discriminate.
  - split; vm_compute; [discriminate|reflexivity|repeat split; discriminate].
  - vm_compute. reflexivity.
  - apply surjective_pairing.
  - vm_compute. repeat constructor.
  - vm_compute. reflexivity.
Defined.

Lemma acquire_release_roundtrip_witness :
  exists m'', Release "azure" 2 (CheckAndAcquire 0 7 "azure" 2 tripped).1 = (m'', None) /\
    m''.(semaphores) !! "azure" = Some (NewSemaphore 2).
Proof.
  apply (acquire_release_roundtrip 0 7 "azure" 2 tripped (CheckAndAcquire 0 7 "azure" 2 tripped).1).
  - reflexivity.
  - vm_compute. split; [discriminate|reflexivity].
  - vm_compute. reflexivity.
  - vm_compute. reflexivity.
Defined.
