(* ===== verification/Heap.v ===== *)
(** * Binary heaps ([container/heap])

    The algorithms of the Go library the memory cache uses, on a slice ordered by
    an integer key: [up], [down], [Push] and [Pop], over the methods the slice
    provides ([Less], [Swap], [Push] and [Pop] of [expirationHeap] in
    [internal/cache/memory.go]).  A heap keeps the elements it is given and has a
    least one at its root. *)
From S2P Require Import Prelude.

Section Heap.
Context {A : Type} (key : A -> Z).
Implicit Types l : list A.

(** The key at a position, zero outside. *)
Definition at_ (l : list A) (i : nat) : Z := match l !! i with Some x => key x | None => 0 end.

Definition heap_less (l : list A) (i j : nat) : bool := at_ l i <? at_ l j.

Definition parent (j : nat) : nat := ((j - 1) / 2)%nat.

Lemma parent_spec j : (0 < j)%nat -> j = (2 * parent j + 1)%nat \/ j = (2 * parent j + 2)%nat.
Proof.
  intros Hj. unfold parent. pose proof (Nat.div_mod_eq (j - 1) 2).
  pose proof (Nat.mod_upper_bound (j - 1) 2). lia.
Qed.

(** [fuel] bounds the height: an index is at least halved at each turn. *)
Fixpoint up (fuel : nat) (l : list A) (j : nat) : list A :=
  match fuel with
  | O => l
  | S fuel' =>
      let i := parent j in
      if (i =? j)%nat || negb (heap_less l j i) then l
      else up fuel' (swap l i j) i
  end.

Fixpoint down (fuel : nat) (l : list A) (i n : nat) : list A :=
  match fuel with
  | O => l
  | S fuel' =>
      let j1 := (2 * i + 1)%nat in
      if (n <=? j1)%nat then l
      else
        let j2 := (j1 + 1)%nat in
        let j := if (j2 <? n)%nat && heap_less l j2 j1 then j2 else j1 in
        if negb (heap_less l j i) then l else down fuel' (swap l i j) j n
  end.

(** The methods [Push] and [Pop] of the slice: at its end. *)
Definition slice_Push (x : A) (l : list A) : list A := l ++ [x].

Definition slice_Pop (l : list A) : list A * option A :=
  let n := length l in (take (n - 1) l, l !! (n - 1)%nat).

Definition heap_Push (x : A) (l : list A) : list A :=
  let l := slice_Push x l in up (length l) l (length l - 1).

(** The root goes to the last position, the new root sinks, the last element is
    returned. *)
Definition heap_Pop (l : list A) : list A * option A :=
  let n := (length l - 1)%nat in
  slice_Pop (down (length l) (swap l 0 n) 0 n).

(** ** Permutation *)

Lemma up_perm fuel l j : up fuel l j ≡ₚ l.
Proof.
  revert l j. induction fuel as [|fuel IH]; intros l j; cbn [up]; [done|].
  case_match; [done|]. rewrite IH. apply swap_perm.
Qed.

Lemma down_perm fuel l i n : down fuel l i n ≡ₚ l.
Proof.
  revert l i. induction fuel as [|fuel IH]; intros l i; cbn [down]; [done|].
  repeat case_match; try done; rewrite IH; apply swap_perm.
Qed.

Lemma down_length fuel l i n : length (down fuel l i n) = length l.
Proof. by rewrite (down_perm fuel l i n). Qed.

Lemma swap_length l i j : length (swap l i j) = length l.
Proof. by rewrite (swap_perm l i j). Qed.

Lemma lookup_swap l i j k :
  (i < length l)%nat -> (j < length l)%nat ->
  swap l i j !! k = if decide (k = j) then l !! i else if decide (k = i) then l !! j else l !! k.
Proof.
  intros Hi Hj. unfold swap.
  destruct (lookup_lt_is_Some_2 l i Hi) as [x Ex], (lookup_lt_is_Some_2 l j Hj) as [y Ey]. rewrite Ex, Ey.
  rewrite !list_lookup_insert, !length_insert.
  repeat case_decide; subst; try naive_solver lia; congruence.
Qed.

(** Positions from [n] on do not move. *)
Lemma down_beyond fuel l i n k :
  (n <= k)%nat -> (n <= length l)%nat -> down fuel l i n !! k = l !! k.
Proof.
  intros Hk. revert l i. induction fuel as [|fuel IH]; intros l i Hn; cbn [down]; [done|].
  destruct (Nat.leb_spec n (2 * i + 1)); [done|].
  set (j := if _ && _ then _ else _).
  assert (Hj : (j < n)%nat) by (unfold j; destruct (Nat.ltb_spec (2 * i + 1 + 1) n), (heap_less _ _ _); cbn; lia).
  clearbody j. case_match; [done|]. rewrite IH by (by rewrite swap_length).
  rewrite lookup_swap by lia. repeat case_decide; lia || done.
Qed.

Lemma at_swap l i j k :
  (i < length l)%nat -> (j < length l)%nat ->
  at_ (swap l i j) k = if decide (k = j) then at_ l i else if decide (k = i) then at_ l j else at_ l k.
Proof. intros Hi Hj. unfold at_. rewrite lookup_swap by done. by repeat case_decide. Qed.

(** ** The heap order *)

(** The first [n] positions are in heap order. *)
Definition heap_ok (n : nat) (l : list A) : Prop :=
  forall k, (0 < k < n)%nat -> at_ l (parent k) <= at_ l k.

(** Heap order but for position [j], which may be below its parent. *)
Definition rising (n : nat) (l : list A) (j : nat) : Prop :=
  (forall k, (0 < k < n)%nat -> k <> j -> at_ l (parent k) <= at_ l k) /\
  (forall k, (0 < k < n)%nat -> parent k = j -> (0 < j)%nat -> at_ l (parent j) <= at_ l k).

(** Heap order but for position [i], which may be above its children. *)
Definition sinking (n : nat) (l : list A) (i : nat) : Prop :=
  (forall k, (0 < k < n)%nat -> parent k <> i -> at_ l (parent k) <= at_ l k) /\
  (forall k, (0 < k < n)%nat -> parent k = i -> (0 < i)%nat -> at_ l (parent i) <= at_ l k).

Lemma rising_step n l j :
  (n <= length l)%nat -> (0 < j < n)%nat -> at_ l j < at_ l (parent j) ->
  rising n l j -> rising n (swap l (parent j) j) (parent j).
Proof.
  intros Hn Hj Hlt [Ha Hb]. pose proof (parent_spec j ltac:(lia)) as Pj.
  remember (parent j) as i eqn:Ei. split; intros k Hk.
  - intros Hki. pose proof (parent_spec k ltac:(lia)) as Pk. rewrite !at_swap by lia.
    destruct (decide (k = j)) as [->|Hkj]; [rewrite <- Ei; repeat case_decide; lia|].
    destruct (decide (k = i)); [done|]. specialize (Ha k Hk Hkj).
    destruct (decide (parent k = j)) as [E|]; [by apply Hb; [|done|lia]|].
    destruct (decide (parent k = i)) as [E|]; [rewrite E in Ha; lia|done].
  - intros Hp Hi0. pose proof (parent_spec i Hi0) as Pi. rewrite !at_swap by lia.
    pose proof (Ha i ltac:(lia) ltac:(lia)) as Hai.
    destruct (decide (parent i = j)); [lia|]. destruct (decide (parent i = i)); [lia|].
    destruct (decide (k = j)); [done|]. destruct (decide (k = i)); [congruence|].
    specialize (Ha k Hk ltac:(done)). rewrite Hp in Ha. lia.
Qed.

Lemma up_ok fuel n l j :
  (n <= length l)%nat -> (j < n)%nat -> (j < fuel)%nat -> rising n l j -> heap_ok n (up fuel l j).
Proof.
  revert l j. induction fuel as [|fuel IH]; intros l j Hn Hj Hf Hr; [lia|]. cbn [up].
  destruct (Nat.eqb_spec (parent j) j) as [E|E]; cbn [orb].
  { assert (j = 0)%nat as -> by (destruct (decide (0 < j)%nat) as [H|]; [pose proof (parent_spec j H)|]; lia).
    intros k Hk. apply Hr; [done|lia]. }
  assert (H0 : (0 < j)%nat) by (destruct j; [done|lia]). pose proof (parent_spec j H0).
  unfold heap_less. destruct (Z.ltb_spec (at_ l j) (at_ l (parent j))); cbn [negb].
  - apply IH; rewrite ?swap_length; [done|lia..|]. by apply rising_step.
  - intros k Hk. destruct (decide (k = j)) as [->|]; [done|]. by apply Hr.
Qed.

Lemma sinking_step n l i j :
  (n <= length l)%nat -> (0 < j < n)%nat -> parent j = i -> at_ l j < at_ l i ->
  (forall k, (0 < k < n)%nat -> parent k = i -> at_ l j <= at_ l k) ->
  sinking n l i -> sinking n (swap l i j) j.
Proof.
  intros Hn Hj Hp Hlt Hmin [Ha Hb]. pose proof (parent_spec j ltac:(lia)) as Pj. rewrite Hp in Pj.
  split; intros k Hk.
  - intros Hkj. pose proof (parent_spec k ltac:(lia)) as Pk. rewrite !at_swap by lia.
    destruct (decide (parent k = j)); [done|].
    destruct (decide (parent k = i)) as [E|E].
    + destruct (decide (k = j)); [lia|]. destruct (decide (k = i)); [lia|]. by apply Hmin.
    + destruct (decide (k = j)) as [->|]; [done|]. destruct (decide (k = i)) as [->|]; [|by apply Ha].
      apply Hb; [done|done|lia].
  - intros Hpk Hj0. pose proof (parent_spec k ltac:(lia)) as Pk. rewrite Hpk in Pk. rewrite !at_swap by lia.
    rewrite Hp. destruct (decide (i = j)); [lia|]. destruct (decide (i = i)); [|done].
    destruct (decide (k = j)); [lia|]. destruct (decide (k = i)); [lia|].
    specialize (Ha k Hk). rewrite Hpk in Ha. apply Ha. lia.
Qed.

Lemma down_ok fuel n l i :
  (n <= length l)%nat -> (n <= i + fuel)%nat -> sinking n l i -> heap_ok n (down fuel l i n).
Proof.
  revert l i. induction fuel as [|fuel IH]; intros l i Hn Hf Hs; cbn [down].
  { intros k Hk. pose proof (parent_spec k ltac:(lia)). apply Hs; [done|lia]. }
  destruct (Nat.leb_spec n (2 * i + 1)).
  { intros k Hk. pose proof (parent_spec k ltac:(lia)). apply Hs; [done|lia]. }
  unfold heap_less. set (j1 := (2 * i + 1)%nat) in *. set (j2 := (j1 + 1)%nat).
  set (j := if (j2 <? n)%nat && (at_ l j2 <? at_ l j1) then j2 else j1).
  assert (Hj : (0 < j < n)%nat /\ parent j = i /\
    forall k, (0 < k < n)%nat -> parent k = i -> at_ l j <= at_ l k).
  { assert (C : forall k, (0 < k)%nat -> parent k = i -> k = j1 \/ k = j2)
      by (intros k Hk Hp; pose proof (parent_spec k Hk); lia).
    assert (P1 : parent j1 = i) by (pose proof (parent_spec j1 ltac:(lia)); lia).
    assert (P2 : parent j2 = i) by (pose proof (parent_spec j2 ltac:(lia)); lia).
    unfold j. destruct (Nat.ltb_spec j2 n), (Z.ltb_spec (at_ l j2) (at_ l j1)); cbn [andb];
      (split; [lia|split; [done|]]); intros k Hk Hp; destruct (C k ltac:(lia) Hp) as [->| ->]; lia. }
  clearbody j. destruct Hj as (Hj & Hp & Hmin).
  destruct (Z.ltb_spec (at_ l j) (at_ l i)); cbn [negb].
  - pose proof (parent_spec j ltac:(lia)). apply IH; rewrite ?swap_length; [done|lia|].
    by apply sinking_step.
  - intros k Hk. destruct (decide (parent k = i)) as [E|E]; [|by apply Hs].
    rewrite E. specialize (Hmin k Hk E). lia.
Qed.

(** *** The root is a least element *)

Lemma heap_root_min n l k : heap_ok n l -> (k < n)%nat -> at_ l 0 <= at_ l k.
Proof.
  intros H. induction k as [k IH] using (well_founded_induction lt_wf). intros Hk.
  destruct (decide (k = 0)%nat) as [->|Hne]; [lia|].
  pose proof (parent_spec k ltac:(lia)). specialize (H k ltac:(lia)).
  specialize (IH (parent k) ltac:(lia) ltac:(lia)). lia.
Qed.

Definition is_heap (l : list A) : Prop := heap_ok (length l) l.

Lemma is_heap_nil : is_heap [].
Proof. intros k Hk. cbn in Hk. lia. Qed.

Lemma heap_Push_ok x l : is_heap l -> is_heap (heap_Push x l) /\ heap_Push x l ≡ₚ x :: l.
Proof.
  intros H. unfold heap_Push, slice_Push, is_heap. split; [|by rewrite up_perm, Permutation_app_comm].
  rewrite (Permutation_length (up_perm _ _ _)), length_app. cbn [length]. apply up_ok; rewrite ?length_app; cbn [length]; try lia.
  assert (E : forall k, (k < length l)%nat -> at_ (l ++ [x]) k = at_ l k)
    by (intros k Hk; unfold at_; by rewrite lookup_app_l).
  split; intros k Hk.
  - intros Hne. pose proof (parent_spec k ltac:(lia)). rewrite !E by lia. apply H. lia.
  - intros Hp Hj. pose proof (parent_spec k ltac:(lia)). lia.
Qed.

Lemma heap_Pop_ok x l :
  is_heap (x :: l) ->
  exists l', heap_Pop (x :: l) = (l', Some x) /\ is_heap l' /\ l' ≡ₚ l /\
    forall y, y ∈ x :: l -> key x <= key y.
Proof.
  intros H. unfold heap_Pop. set (n := (length (x :: l) - 1)%nat). set (l0 := swap (x :: l) 0 n).
  assert (Hn : (n < length (x :: l))%nat) by (unfold n; cbn; lia).
  assert (L0 : length l0 = length (x :: l)) by apply swap_length.
  set (l1 := down (length (x :: l)) l0 0 n).
  assert (L1 : length l1 = length (x :: l)) by (unfold l1; by rewrite down_length).
  assert (Hs : sinking n l0 0).
  { split; intros k Hk; [|lia]. intros Hp. pose proof (parent_spec k ltac:(lia)).
    unfold l0. rewrite !at_swap by (cbn; lia). repeat case_decide; try lia. apply H. unfold n in Hk. lia. }
  assert (Hok : heap_ok n l1) by (apply down_ok; try done; rewrite ?L0; lia).
  assert (Hlast : l1 !! n = Some x).
  { unfold l1. rewrite down_beyond by (rewrite ?L0; lia). unfold l0. rewrite lookup_swap by (cbn; lia). by case_decide. }
  exists (take n l1). unfold slice_Pop. rewrite L1. fold n. rewrite Hlast. split_and!; [done|..].
  - unfold is_heap. rewrite length_take, Nat.min_l by lia. intros k Hk.
    pose proof (parent_spec k ltac:(lia)). unfold at_. rewrite !lookup_take by lia.
    rewrite !decide_True by lia. by apply Hok.
  - apply (Permutation_cons_inv (a := x)). rewrite <- (swap_perm (x :: l) 0 n). fold l0.
    rewrite <- (down_perm (length (x :: l)) l0 0 n). fold l1.
    rewrite <- (take_drop_middle l1 n x Hlast) at 2. rewrite drop_ge by (rewrite L1; unfold n; cbn; lia).
    by rewrite Permutation_app_comm.
  - intros y [k Hk]%list_elem_of_lookup_1.
    pose proof (heap_root_min _ _ k H (lookup_lt_Some _ _ _ Hk)) as Hm.
    unfold at_ in Hm. by rewrite Hk in Hm.
Qed.
End Heap.

#[global] Arguments heap_Push : simpl never.
#[global] Arguments heap_Pop : simpl never.
