(* ===== verification/MemoryCache.v ===== *)
(** * In-memory cache ([internal/cache/memory.go])

    A map with per-entry expirations, a heap of expirations, and a bound on the
    number of entries.  Values are byte strings.  [UnixNano] is the 64-bit number
    of nanoseconds since the epoch.  The position an entry keeps of itself in the
    heap is written and never read, and is left out. *)
From S2P Require Import Prelude Float64 Heap.

Record memoryCacheEntry := {
  value : string;
  expiration : Z;
}.

Record expirationEntry := {
  hkey : string;
  hexp : Z;
}.

#[export] Instance expirationEntry_eq_dec : EqDecision expirationEntry.
Proof. solve_decision. Defined.

Record MemoryCache := {
  data : gmap string memoryCacheEntry;
  ttls : gmap string Z;
  expirationHeap : list expirationEntry;
  maxSize : Z;
  defaultTTL : duration;
  maxItemSize : Z;
  stopCleanup : bool;  (* whether the channel is closed *)
  hits : Z;
  misses : Z;
  sets : Z;
}.

Record MemoryCacheConfig := {
  MaxSize : Z;
  DefaultTTL : duration;
  MaxItemSize : Z;
  CleanupInterval : duration;
}.

Definition DefaultMemoryCacheConfig : MemoryCacheConfig :=
  {| MaxSize := 1000; DefaultTTL := 10 * Minute; MaxItemSize := 1024 * 1024; CleanupInterval := Minute |}.

Definition or_default (n d : Z) : Z := if n <=? 0 then d else n.

Definition NewMemoryCache (cfg : MemoryCacheConfig) : MemoryCache :=
  {| data := ∅; ttls := ∅; expirationHeap := [];
     maxSize := or_default cfg.(MaxSize) 1000;
     defaultTTL := or_default cfg.(DefaultTTL) (10 * Minute);
     maxItemSize := or_default cfg.(MaxItemSize) (1024 * 1024);
     stopCleanup := false; hits := 0; misses := 0; sets := 0 |}.

Definition unixNano (t : time) : Z := wrap64 t.

(** [if storedExp, ok := c.ttls[entry.key]; !ok || storedExp != entry.expiration] *)
Definition outdated (c : MemoryCache) (e : expirationEntry) : bool :=
  match c.(ttls) !! e.(hkey) with
  | Some storedExp => negb (storedExp =? e.(hexp))
  | None => true
  end.

Definition popHeap (c : MemoryCache) : MemoryCache :=
  c<|expirationHeap ::= fun h => (heap_Pop hexp h).1|>.

Definition dropKey (key : string) (c : MemoryCache) : MemoryCache :=
  c<|data ::= delete key|><|ttls ::= delete key|>.

(** Each turn pops an entry of the heap: its length is enough fuel. *)
Fixpoint evictExpired_loop (fuel : nat) (now : Z) (c : MemoryCache) : MemoryCache :=
  match fuel, c.(expirationHeap) with
  | S fuel', entry :: _ =>
      if outdated c entry then evictExpired_loop fuel' now (popHeap c)
      else if entry.(hexp) <=? now then evictExpired_loop fuel' now (dropKey entry.(hkey) (popHeap c))
      else c
  | _, _ => c
  end.

Definition evictExpired (now : time) (c : MemoryCache) : MemoryCache :=
  evictExpired_loop (length c.(expirationHeap)) (unixNano now) c.

Definition full (c : MemoryCache) : bool := c.(maxSize) <=? Z.of_nat (size c.(data)).

Fixpoint evictIfNeeded_loop (fuel : nat) (now : Z) (c : MemoryCache) : MemoryCache :=
  match fuel, c.(expirationHeap) with
  | S fuel', entry :: _ =>
      if full c then
        if outdated c entry then evictIfNeeded_loop fuel' now (popHeap c)
        else if (entry.(hexp) <=? now) || full c
        then evictIfNeeded_loop fuel' now (dropKey entry.(hkey) (popHeap c))
        else c
      else c
  | _, _ => c
  end.

Definition evictIfNeeded (now : time) (c : MemoryCache) : MemoryCache :=
  evictIfNeeded_loop (length c.(expirationHeap)) (unixNano now) c.

(** [Get] releases the lock between looking the entry up and deleting it. *)
Definition getLookup (key : string) (c : MemoryCache) : option memoryCacheEntry := c.(data) !! key.

Definition expiredAt (now : time) (e : memoryCacheEntry) : bool :=
  (0 <? e.(expiration)) && (e.(expiration) <=? unixNano now).

Definition Get (now : time) (key : string) (c : MemoryCache) : MemoryCache * option string :=
  match getLookup key c with
  | None => (c<|misses ::= fun n => n +! 1|>, None)
  | Some entry =>
      if expiredAt now entry then (dropKey key (c<|misses ::= fun n => n +! 1|>), None)
      else (c<|hits ::= fun n => n +! 1|>, Some entry.(value))
  end.

(** [now] gives the expiration; [nowEvict] is read by the eviction. *)
Definition Set_ (now nowEvict : time) (key : string) (v : string) (ttl : duration) (c : MemoryCache) : MemoryCache :=
  if c.(maxItemSize) <? Z.of_nat (String.length v) then c
  else
    let ttl := if ttl <=? 0 then c.(defaultTTL) else ttl in
    let exp := unixNano (time_add now ttl) in
    let c := if full c then evictIfNeeded nowEvict c else c in
    c<|data ::= <[key := {| value := v; expiration := exp |}]>|>
     <|ttls ::= <[key := exp]>|>
     <|expirationHeap ::= heap_Push hexp {| hkey := key; hexp := exp |}|>
     <|sets ::= fun n => n +! 1|>.

Definition Delete (key : string) (c : MemoryCache) : MemoryCache := dropKey key c.

Record CacheEntry := { Key : string; Value : string; TTL : duration }.

(** Each [Set] of the batch reads the clock. *)
Definition SetPipeline (entries : list (time * CacheEntry)) (c : MemoryCache) : MemoryCache :=
  foldl (fun c p => Set_ p.1 p.1 p.2.(Key) p.2.(Value) p.2.(TTL) c) c entries.

Definition getMultiStep (now : time) (acc : MemoryCache * gmap string string) (key : string) :
  MemoryCache * gmap string string :=
  let '(c, result) := acc in
  match c.(data) !! key with
  | Some entry =>
      if (entry.(expiration) =? 0) || (unixNano now <? entry.(expiration))
      then (c<|hits ::= fun n => n +! 1|>, <[key := entry.(value)]> result)
      else (c<|misses ::= fun n => n +! 1|>, result)
  | None => (c<|misses ::= fun n => n +! 1|>, result)
  end.

Definition GetMulti (now : time) (keys : list string) (c : MemoryCache) : MemoryCache * gmap string string :=
  foldl (getMultiStep now) (c, ∅) keys.

Record CacheStats := {
  Hits : Z;
  Misses : Z;
  Sets : Z;
  Deletes : Z;
  Errors : Z;
  HitRate : f64;
  AvgLatency : duration;
}.

(** [var hitRate float64; if total > 0 { hitRate = float64(hits) / float64(total) }] *)
Definition rate_of (hits total : Z) : f64 :=
  if 0 <? total then f64_of_Z hits ⊘ f64_of_Z total else fzero.

Definition CacheStatsOf (c : MemoryCache) : CacheStats :=
  {| Hits := c.(hits); Misses := c.(misses); Sets := c.(sets); Deletes := 0; Errors := 0;
     HitRate := rate_of c.(hits) (c.(hits) +! c.(misses)); AvgLatency := 0 |}.

(** Closing the channel a second time panics. *)
Definition Close (c : MemoryCache) : outcome Empty_set MemoryCache :=
  if c.(stopCleanup) then Panic else Ok (c<|stopCleanup := true|>).

Definition Len (c : MemoryCache) : Z := Z.of_nat (size c.(data)).

Definition Flush (c : MemoryCache) : MemoryCache :=
  c<|data := ∅|><|ttls := ∅|><|expirationHeap := []|>.

(** ** The invariant *)

Definition heap_entry (key : string) (e : memoryCacheEntry) : expirationEntry :=
  {| hkey := key; hexp := e.(expiration) |}.

(** The heap is ordered; the two maps agree; every entry is in the heap with its
    expiration. *)
Record cache_wf (c : MemoryCache) : Prop := {
  wf_heap : is_heap hexp c.(expirationHeap);
  wf_ttls : c.(ttls) = expiration <$> c.(data);
  wf_in_heap : map_Forall (fun k e => heap_entry k e ∈ c.(expirationHeap)) c.(data);
  wf_size : 1 <= c.(maxSize);
}.

Lemma outdated_spec c x :
  cache_wf c -> outdated c x = true <-> forall e, c.(data) !! x.(hkey) = Some e -> e.(expiration) <> x.(hexp).
Proof.
  intros [_ Ht _ _]. unfold outdated. rewrite Ht, lookup_fmap. destruct (data c !! hkey x) as [e|]; cbn.
  - rewrite negb_true_iff, Z.eqb_neq. naive_solver.
  - naive_solver.
Qed.

(** Popping the root of the heap. *)
Lemma popHeap_spec c x h :
  cache_wf c -> c.(expirationHeap) = x :: h ->
  is_heap hexp (popHeap c).(expirationHeap) /\ (popHeap c).(expirationHeap) ≡ₚ h /\
  (popHeap c).(data) = c.(data) /\ (popHeap c).(ttls) = c.(ttls) /\ (popHeap c).(maxSize) = c.(maxSize) /\
  forall y, y ∈ c.(expirationHeap) -> x.(hexp) <= y.(hexp).
Proof.
  intros [Hh _ _ _] E. rewrite E in Hh. destruct (heap_Pop_ok hexp x h Hh) as (h' & Ep & Hh' & Hp & Hmin).
  assert (Ep' : (popHeap c).(expirationHeap) = h') by (unfold popHeap; cbn; by rewrite E, Ep).
  rewrite Ep'. split_and!; try done. by rewrite E.
Qed.

Lemma popHeap_outdated c x h :
  cache_wf c -> c.(expirationHeap) = x :: h -> outdated c x = true -> cache_wf (popHeap c).
Proof.
  intros Hwf E Ho. destruct (popHeap_spec c x h Hwf E) as (Hh & Hp & Ed & Et & Em & _).
  pose proof Hwf as [_ Ht Hi Hs]. split; rewrite ?Ed, ?Et, ?Em; try done.
  intros k e Hk. rewrite Hp. specialize (Hi k e Hk). rewrite E in Hi.
  apply elem_of_cons in Hi as [Hx|Hi]; [|done]. exfalso.
  apply (proj1 (outdated_spec c x Hwf) Ho e); subst x; done.
Qed.

Lemma popHeap_drop c x h :
  cache_wf c -> c.(expirationHeap) = x :: h -> cache_wf (dropKey x.(hkey) (popHeap c)).
Proof.
  intros Hwf E. destruct (popHeap_spec c x h Hwf E) as (Hh & Hp & Ed & Et & Em & _).
  pose proof Hwf as [_ Ht Hi Hs]. split; cbn [dropKey data ttls expirationHeap maxSize]; cbn.
  - exact Hh.
  - change (delete (hkey x) (ttls c) = expiration <$> delete (hkey x) (data c)). by rewrite Ht, fmap_delete.
  - intros k e Hk. cbn in Hk. change ((delete (hkey x) (data c)) !! k = Some e) in Hk.
    apply lookup_delete_Some in Hk as [Hne Hk].
    change (heap_entry k e ∈ (popHeap c).(expirationHeap)). rewrite Hp.
    specialize (Hi k e Hk). rewrite E in Hi. apply elem_of_cons in Hi as [Hx|Hi]; [|done].
    by subst x.
  - exact Hs.
Qed.

(** ** Eviction *)

Lemma heap_empty_data c : cache_wf c -> c.(expirationHeap) = [] -> c.(data) = ∅.
Proof.
  intros [_ _ Hi _] E. apply map_empty. intros k. destruct (data c !! k) as [e|] eqn:Hk; [|done].
  specialize (Hi k e Hk). rewrite E in Hi. by apply elem_of_nil in Hi.
Qed.

Lemma popHeap_length c x h :
  cache_wf c -> c.(expirationHeap) = x :: h -> length (popHeap c).(expirationHeap) = length h.
Proof. intros Hwf E. destruct (popHeap_spec c x h Hwf E) as (_ & Hp & _). by rewrite Hp. Qed.

(** The entry of the root, when it is not outdated. *)
Lemma current_entry c x :
  cache_wf c -> outdated c x = false -> exists e, c.(data) !! x.(hkey) = Some e /\ e.(expiration) = x.(hexp).
Proof.
  intros [_ Ht _ _]. unfold outdated. rewrite Ht, lookup_fmap. destruct (data c !! hkey x) as [e|]; cbn; [|done].
  intros H%negb_false_iff%Z.eqb_eq. eauto.
Qed.

(** The loop of [evictExpired] leaves the live entries. *)
Definition live (now : Z) (m : gmap string memoryCacheEntry) : gmap string memoryCacheEntry :=
  filter (fun p => now < p.2.(expiration)) m.

Lemma lookup_live now m k :
  live now m !! k = match m !! k with Some e => if now <? e.(expiration) then Some e else None | None => None end.
Proof.
  unfold live. rewrite map_lookup_filter. destruct (m !! k) as [e|]; [|done]. cbn.
  destruct (Z.ltb_spec now (expiration e)); [by rewrite option_guard_True|by rewrite option_guard_False by (cbn; lia)].
Qed.

Lemma live_delete now m k e : m !! k = Some e -> e.(expiration) <= now -> live now (delete k m) = live now m.
Proof.
  intros Hk He. apply map_eq. intros i. rewrite !lookup_live. destruct (decide (i = k)) as [->|Hne].
  - rewrite lookup_delete_eq, Hk. by rewrite (proj2 (Z.ltb_ge _ _)).
  - by rewrite lookup_delete_ne.
Qed.

Lemma evictExpired_loop_spec fuel now c :
  (length c.(expirationHeap) <= fuel)%nat -> cache_wf c ->
  cache_wf (evictExpired_loop fuel now c) /\ (evictExpired_loop fuel now c).(data) = live now c.(data) /\
  (evictExpired_loop fuel now c).(maxSize) = c.(maxSize).
Proof.
  revert c. induction fuel as [|fuel IH]; intros c Hf Hwf; cbn [evictExpired_loop].
  - destruct (expirationHeap c) eqn:E; [|cbn in Hf; lia]. rewrite (heap_empty_data c Hwf E). split_and!; try done.
  - destruct (expirationHeap c) as [|x h] eqn:E.
    { rewrite (heap_empty_data c Hwf E). split_and!; try done. }
    pose proof (popHeap_length c x h Hwf E) as Hl. destruct (popHeap_spec c x h Hwf E) as (_ & _ & Ed & _ & Em & Hmin).
    cbn [length] in Hf. destruct (outdated c x) eqn:Ho.
    { destruct (IH (popHeap c)) as (H1 & H2 & H3); [lia|by eapply popHeap_outdated|].
      split_and!; [done| |]; congruence. }
    destruct (current_entry c x Hwf Ho) as (e & He & Ee). destruct (Z.leb_spec (hexp x) now).
    + destruct (IH (dropKey (hkey x) (popHeap c))) as (H1 & H2 & H3); [change (length (expirationHeap (popHeap c)) <= fuel)%nat; lia|by eapply popHeap_drop|].
      split_and!; [done| |].
      * rewrite H2. change (data (dropKey (hkey x) (popHeap c))) with (delete (hkey x) (data c)).
        apply (live_delete _ _ _ e); [done|lia].
      * by rewrite H3.
    + split_and!; try done. apply map_eq. intros k. rewrite lookup_live.
      destruct (data c !! k) as [e'|] eqn:Hk; [|done]. rewrite (proj2 (Z.ltb_lt _ _)); [done|].
      pose proof (wf_in_heap c Hwf k e' Hk) as Hin. specialize (Hmin _ Hin). cbn in Hmin. lia.
Qed.

Lemma empty_not_full c : cache_wf c -> c.(expirationHeap) = [] -> full c = false.
Proof.
  intros Hwf E. unfold full. rewrite (heap_empty_data c Hwf E). apply Z.leb_gt.
  rewrite map_size_empty. pose proof (wf_size c Hwf). lia.
Qed.

Lemma evictIfNeeded_loop_spec fuel now c :
  (length c.(expirationHeap) <= fuel)%nat -> cache_wf c ->
  cache_wf (evictIfNeeded_loop fuel now c) /\ (evictIfNeeded_loop fuel now c).(data) ⊆ c.(data) /\
  (evictIfNeeded_loop fuel now c).(maxSize) = c.(maxSize) /\ full (evictIfNeeded_loop fuel now c) = false.
Proof.
  revert c. induction fuel as [|fuel IH]; intros c Hf Hwf; cbn [evictIfNeeded_loop].
  - destruct (expirationHeap c) eqn:E; [|cbn in Hf; lia]. split_and!; try done.
    by apply empty_not_full.
  - destruct (expirationHeap c) as [|x h] eqn:E.
    { split_and!; try done. by apply empty_not_full. }
    pose proof (popHeap_length c x h Hwf E) as Hl. destruct (popHeap_spec c x h Hwf E) as (_ & _ & Ed & _ & Em & _).
    cbn [length] in Hf. destruct (full c) eqn:Efull; [|done]. rewrite orb_true_r.
    destruct (outdated c x) eqn:Ho.
    + destruct (IH (popHeap c)) as (H1 & H2 & H3 & H4); [lia|by eapply popHeap_outdated|].
      split_and!; [done| |congruence|done]. by rewrite <- Ed.
    + destruct (IH (dropKey (hkey x) (popHeap c))) as (H1 & H2 & H3 & H4); [change (length (expirationHeap (popHeap c)) <= fuel)%nat; lia|by eapply popHeap_drop|].
      split_and!; [done| |done|done]. etrans; [exact H2|].
      change (data (dropKey (hkey x) (popHeap c))) with (delete (hkey x) (data c)). apply delete_subseteq.
Qed.

(** The cleanup removes exactly the expired entries: after it the cache holds
    the entries whose expiration is later than the instant of the cleanup, with
    their values, and no others, although it looks at the heap only until its
    first live entry. *)
Theorem evict_expired_exact now c :
  cache_wf c -> (evictExpired now c).(data) = live (unixNano now) c.(data).
Proof. intros H. by apply evictExpired_loop_spec. Qed.

Lemma Set_wf now nowEvict key v ttl c :
  cache_wf c -> Z.of_nat (size c.(data)) <= c.(maxSize) ->
  let c' := Set_ now nowEvict key v ttl c in
  cache_wf c' /\ Z.of_nat (size c'.(data)) <= c'.(maxSize) /\ c'.(maxSize) = c.(maxSize).
Proof.
  intros Hwf Hsz c'. unfold c', Set_. case_match; [done|]. clear c'.
  set (c1 := if full c then evictIfNeeded nowEvict c else c).
  assert (H1 : cache_wf c1 /\ full c1 = false /\ maxSize c1 = maxSize c).
  { unfold c1. destruct (full c) eqn:Ef; [|done].
    destruct (evictIfNeeded_loop_spec (length (expirationHeap c)) (unixNano nowEvict) c) as (A & _ & B & C); done. }
  destruct H1 as ([Hh Ht Hi Hs] & Hf & Em). unfold full in Hf. apply Z.leb_gt in Hf.
  set (exp := unixNano _). cbn.
  destruct (heap_Push_ok hexp {| hkey := key; hexp := exp |} _ Hh) as [Hh' Hp].
  split_and!; [|rewrite map_size_insert; destruct (data c1 !! key); cbn; lia|done].
  split; cbn; try done.
  - by rewrite Ht, fmap_insert.
  - apply map_Forall_insert_2; [rewrite Hp; left|].
    intros k e Hk. rewrite Hp. right. by apply Hi.
Qed.

(** ** Calls on a cache *)

Inductive cache_op :=
| CSet (key v : string) (ttl : duration)
| CGet (key : string)
| CDelete (key : string)
| CFlush
| CCleanup.

(** A call at an instant, with the result of a [Get]. *)
Definition c_run (now : time) (op : cache_op) (c : MemoryCache) : MemoryCache * option string :=
  match op with
  | CSet key v ttl => (Set_ now now key v ttl c, None)
  | CGet key => Get now key c
  | CDelete key => (Delete key c, None)
  | CFlush => (Flush c, None)
  | CCleanup => (evictExpired now c, None)
  end.

Definition c_step (c c' : MemoryCache) : Prop := exists now op, c' = (c_run now op c).1.

Definition bounded (c : MemoryCache) : Prop := cache_wf c /\ Z.of_nat (size c.(data)) <= c.(maxSize).

Lemma dropKey_wf key c : bounded c -> bounded (dropKey key c).
Proof.
  intros [[Hh Ht Hi Hs] Hb]. split.
  - split; cbn; try done; [by rewrite Ht, fmap_delete|].
    intros k e [Hne Hk]%lookup_delete_Some. by apply Hi.
  - cbn. rewrite map_size_delete. destruct (data c !! key); cbn; lia.
Qed.

Lemma Get_wf now key c : bounded c -> bounded (Get now key c).1.
Proof.
  intros H. unfold Get. destruct (getLookup key c) as [e|]; [|by destruct H as [[] ?]].
  destruct (expiredAt now e); [|by destruct H as [[] ?]]. apply dropKey_wf. by destruct H as [[] ?].
Qed.

Lemma live_size now m : (size (live now m) <= size m)%nat.
Proof. apply map_subseteq_size, map_filter_subseteq. Qed.

Lemma c_step_bounded c c' : c_step c c' -> bounded c -> bounded c'.
Proof.
  intros (now & op & ->) H. pose proof H as [Hwf Hb]. destruct op; cbn [c_run fst].
  - by destruct (Set_wf now now key v ttl c Hwf Hb) as (? & ? & _).
  - by apply Get_wf.
  - by apply dropKey_wf.
  - destruct Hwf as [_ _ _ Hs]. split; [split; try done; apply is_heap_nil|].
    change (Z.of_nat (size (∅ : gmap string memoryCacheEntry)) <= maxSize c). rewrite map_size_empty. lia.
  - destruct (evictExpired_loop_spec (length (expirationHeap c)) (unixNano now) c) as (A & B & C); try done.
    split; [done|]. unfold evictExpired. rewrite B, C. pose proof (live_size (unixNano now) (data c)). lia.
Qed.

Lemma NewMemoryCache_bounded cfg : bounded (NewMemoryCache cfg).
Proof.
  assert (1 <= maxSize (NewMemoryCache cfg)) by (cbn; unfold or_default; destruct (Z.leb_spec (MaxSize cfg) 0); lia).
  split; [split; try done; apply is_heap_nil|]. cbn in *. rewrite map_size_empty. lia.
Qed.

(** The cache never holds more entries than its maximum, whatever the calls, at
    whatever instants, cleanups and evictions included; and the heap keeps its
    order and an entry for every cached key, so an eviction always finds one to
    remove. *)
Theorem cache_bounded cfg c :
  rtc c_step (NewMemoryCache cfg) c ->
  Len c <= c.(maxSize) /\ is_heap hexp c.(expirationHeap) /\
  map_Forall (fun k e => heap_entry k e ∈ c.(expirationHeap)) c.(data).
Proof.
  intros Hr. apply (rtc_invariant c_step bounded) in Hr; [|exact c_step_bounded|apply NewMemoryCache_bounded].
  destruct Hr as [[] ?]. done.
Qed.

(** ** Refinement of a map with expirations *)

(** The abstract cache: no bound, no heap, entries that are never removed but
    stop being found when they expire. *)
Abbreviation ttl_map := (gmap string memoryCacheEntry).

Section Spec.
Context (ttl0 : duration) (maxItem : Z).

Definition s_run (now : time) (op : cache_op) (m : ttl_map) : ttl_map * option string :=
  match op with
  | CSet key v ttl =>
      if maxItem <? Z.of_nat (String.length v) then (m, None)
      else (<[key := {| value := v; expiration := now + (if ttl <=? 0 then ttl0 else ttl) |}]> m, None)
  | CGet key =>
      (m, match m !! key with Some e => if now <? e.(expiration) then Some e.(value) else None | None => None end)
  | CDelete key => (delete key m, None)
  | CFlush => (∅, None)
  | CCleanup => (m, None)
  end.
End Spec.

Fixpoint c_trace (ops : list (time * cache_op)) (c : MemoryCache) : list (option string) :=
  match ops with
  | [] => []
  | (now, op) :: ops' => let '(c, r) := c_run now op c in r :: c_trace ops' c
  end.

Fixpoint s_trace (ttl0 : duration) (maxItem : Z) (ops : list (time * cache_op)) (m : ttl_map) : list (option string) :=
  match ops with
  | [] => []
  | (now, op) :: ops' => let '(m, r) := s_run ttl0 maxItem now op m in r :: s_trace ttl0 maxItem ops' m
  end.

(** An entry is missing from the cache only when it has expired. *)
Definition agrees (now : Z) (o s : option memoryCacheEntry) : Prop :=
  match s with
  | None => o = None
  | Some e => 0 < e.(expiration) /\ (o = Some e \/ o = None /\ e.(expiration) <= now)
  end.

Definition simulates (now : Z) (c : MemoryCache) (m : ttl_map) : Prop :=
  forall k, agrees now (c.(data) !! k) (m !! k).

(** The clock is after the epoch and far from its end. *)
Definition instant_ok (ttl0 : duration) (now : time) (op : cache_op) : Prop :=
  0 <= now /\ now < two63 /\
  match op with CSet _ _ ttl => now + ttl0 < two63 /\ now + ttl < two63 | _ => True end.

Definition op_keys (op : cache_op) : list string :=
  match op with CSet k _ _ | CGet k | CDelete k => [k] | _ => [] end.

Lemma agrees_later now now' o s : now <= now' -> agrees now o s -> agrees now' o s.
Proof. intros Hle. destruct s; cbn; [|done]. intros (? & [?|[? ?]]); split; auto. right. split; [done|lia]. Qed.

Lemma simulates_step K now op c m :
  0 < c.(defaultTTL) -> instant_ok c.(defaultTTL) now op ->
  cache_wf c -> dom c.(data) ⊆ K -> list_to_set (op_keys op) ⊆ K -> Z.of_nat (size K) < c.(maxSize) ->
  simulates now c m ->
  let '(c', r) := c_run now op c in
  let '(m', r') := s_run c.(defaultTTL) c.(maxItemSize) now op m in
  r = r' /\ simulates now c' m' /\ dom c'.(data) ⊆ K.
Proof.
  intros Httl (Hn0 & Hn1 & Hop) Hwf Hdom Hkeys HK Hsim.
  assert (En : unixNano now = now) by (apply wrap64_id; unfold in_i64; unfold two63 in *; lia).
  destruct op as [key v ttl|key|key| |]; cbn [c_run s_run].
  - unfold Set_. destruct (_ <? _); [done|].
    assert (Hf : full c = false).
    { unfold full. apply Z.leb_gt. rewrite <- size_dom. pose proof (subseteq_size _ _ Hdom). lia. }
    rewrite Hf. set (t := if ttl <=? 0 then defaultTTL c else ttl).
    assert (Ht : 0 < t /\ now + t < two63) by (unfold t; destruct (Z.leb_spec ttl 0); lia).
    assert (Ex : unixNano (time_add now t) = now + t)
      by (apply wrap64_id; unfold in_i64, time_add; unfold two63 in *; lia).
    rewrite Ex.
    split_and!; [done| |].
    + intros k. cbn. destruct (decide (k = key)) as [->|Hne].
      * rewrite !lookup_insert_eq. unfold agrees. cbn [expiration].
        split; [destruct (Z.leb_spec ttl 0); lia|by left].
      * rewrite !lookup_insert_ne by done. apply Hsim.
    + cbn. rewrite dom_insert. set_solver.
  - unfold Get, getLookup, expiredAt. specialize (Hsim key) as Hk. unfold agrees in Hk. rewrite En.
    destruct (data c !! key) as [e|] eqn:Ed.
    + destruct (m !! key) as [e'|] eqn:Em; [|done]. destruct Hk as (Hp & [[= <-]|[[=] _]]).
      rewrite (proj2 (Z.ltb_lt 0 _)) by done. cbn [andb]. rewrite Z.ltb_antisym.
      destruct (Z.leb_spec (expiration e) now); cbn [negb].
      * split_and!; [done| |cbn; set_solver]. intros k. cbn. destruct (decide (k = key)) as [->|Hne].
        -- rewrite lookup_delete_eq, Em. cbn. auto.
        -- rewrite lookup_delete_ne by done. apply Hsim.
      * done.
    + destruct (m !! key) as [e'|]; [|done]. destruct Hk as (_ & [?|[_ He]]); [done|].
      by rewrite (proj2 (Z.ltb_ge _ _)).
  - split_and!; [done| |cbn; set_solver]. intros k. cbn. destruct (decide (k = key)) as [->|Hne].
    + by rewrite !lookup_delete_eq.
    + rewrite !lookup_delete_ne by done. apply Hsim.
  - split_and!; [done|by intros k|cbn; set_solver].
  - destruct (evictExpired_loop_spec (length (expirationHeap c)) (unixNano now) c) as (_ & B & _); try done.
    unfold evictExpired. split_and!; [done| |].
    + intros k. rewrite B, lookup_live, En. specialize (Hsim k). unfold agrees in Hsim |- *. destruct (data c !! k) as [e|] eqn:Ed.
      * destruct (m !! k) as [e'|]; [|done]. destruct Hsim as (Hp & [[= <-]|[[=] _]]). cbn. split; [done|].
        destruct (Z.ltb_spec now (expiration e)); [by left|right; split; [done|lia]].
      * done.
    + rewrite B. unfold live. etrans; [apply dom_filter_subseteq|done].
Qed.

Lemma c_run_config now op c :
  let c' := (c_run now op c).1 in
  c'.(defaultTTL) = c.(defaultTTL) /\ c'.(maxItemSize) = c.(maxItemSize) /\ c'.(maxSize) = c.(maxSize).
Proof.
  assert (L : forall fuel n c, let c' := evictExpired_loop fuel n c in
    c'.(defaultTTL) = c.(defaultTTL) /\ c'.(maxItemSize) = c.(maxItemSize) /\ c'.(maxSize) = c.(maxSize)).
  { clear. induction fuel as [|fuel IH]; intros n c; cbn [evictExpired_loop]; [done|].
    repeat case_match; try done; [exact (IH n (popHeap c))|exact (IH n (dropKey _ (popHeap c)))]. }
  assert (L' : forall fuel n c, let c' := evictIfNeeded_loop fuel n c in
    c'.(defaultTTL) = c.(defaultTTL) /\ c'.(maxItemSize) = c.(maxItemSize) /\ c'.(maxSize) = c.(maxSize)).
  { clear. induction fuel as [|fuel IH]; intros n c; cbn [evictIfNeeded_loop]; [done|].
    repeat case_match; try done; [exact (IH n (popHeap c))|exact (IH n (dropKey _ (popHeap c)))]. }
  destruct op; cbn [c_run fst].
  - unfold Set_. destruct (_ <? _); [done|]. cbn. destruct (full c); [apply L'|done].
  - unfold Get. by repeat case_match.
  - done.
  - done.
  - apply L.
Qed.

(** Calls in the order of the clock. *)
Definition in_order (ops : list (time * cache_op)) : Prop := StronglySorted (fun a b => a.1 <= b.1) ops.

Lemma traces_agree (K : gset string) ops t0 c m :
  0 < c.(defaultTTL) -> Z.of_nat (size K) < c.(maxSize) ->
  in_order ops -> Forall (fun p => t0 <= p.1) ops ->
  Forall (fun p => instant_ok c.(defaultTTL) p.1 p.2 /\ list_to_set (op_keys p.2) ⊆ K) ops ->
  bounded c -> dom c.(data) ⊆ K -> simulates t0 c m ->
  c_trace ops c = s_trace c.(defaultTTL) c.(maxItemSize) ops m.
Proof.
  intros Httl HK Hord. revert t0 c m Httl HK.
  induction Hord as [|[now op] ops _ IH Hle]; intros t0 c m Httl HK Ht0 Hops Hb Hdom Hsim; [done|].
  apply Forall_cons in Hops as [[Hi Hk] Hops]. apply Forall_cons in Ht0 as [Ht0 _]. cbn [fst snd] in *.
  pose proof (simulates_step K now op c m Httl Hi (proj1 Hb) Hdom Hk HK) as Hs.
  pose proof (c_run_config now op c) as (E1 & E2 & E3).
  pose proof (c_step_bounded c (c_run now op c).1 (ex_intro _ now (ex_intro _ op eq_refl)) Hb) as Hb'.
  cbn [c_trace s_trace]. destruct (c_run now op c) as [c' r], (s_run _ _ now op m) as [m' r'].
  cbn [fst] in *. destruct Hs as (-> & Hsim' & Hdom').
  { intros k. eapply agrees_later; [exact Ht0|apply Hsim]. }
  f_equal. rewrite <- E1, <- E2. apply (IH now); rewrite ?E1, ?E3; try done.
Qed.


(** ** At capacity *)

Definition small : MemoryCache :=
  NewMemoryCache {| MaxSize := 2; DefaultTTL := Minute; MaxItemSize := 10; CleanupInterval := Minute |}.

Definition two_entries : MemoryCache := Set_ 1 1 "b" "y" Hour (Set_ 0 0 "a" "x" Minute small).

(** Overwriting a key of a full cache evicts another one.  The eviction looks
    at the number of entries only, not at whether the key is already cached: the
    soonest-expiring entry is removed although the number of entries would not
    grow, here a live entry under another key. *)
Theorem overwrite_evicts_other :
  let c := Set_ 2 2 "b" "z" Hour two_entries in
  (Get 3 "a" two_entries).2 = Some "x" /\ (Get 3 "a" c).2 = None /\ Len c = 1.
Proof. vm_compute. done. Qed.

(** Expiry in [Get] can delete a fresh value.  [Get] releases the lock between
    finding the entry expired and deleting the key; a [Set] of the key in between
    is lost: the value it stored, not yet expired, is deleted by the [Get]. *)
Theorem get_deletes_fresh_value :
  let c := Set_ 0 0 "a" "old" Second small in
  let t := 2 * Second in
  (* Get: the entry is found, and found expired, under the read lock *)
  option_map (expiredAt t) (getLookup "a" c) = Some true /\
  (* another goroutine stores a new value *)
  let c := Set_ t t "a" "new" Hour c in
  (Get t "a" c).2 = Some "new" /\
  (* Get: the key is deleted under the write lock *)
  (Get t "a" (dropKey "a" c)).2 = None.
Proof. vm_compute. done. Qed.

Lemma evict_expired_exact_witness :
  (evictExpired (2 * Minute) two_entries).(data) !! "b" = Some {| value := "y"; expiration := Hour + 1 |} /\
  (evictExpired (2 * Minute) two_entries).(data) !! "a" = None.
Proof.
  assert (W : cache_wf two_entries).
  { split.
    - intros k Hk. vm_compute in Hk. assert (k = 1%nat) as -> by lia. vm_compute. discriminate.
    - vm_compute. reflexivity.
    - apply (bool_decide_unpack _). vm_compute. exact I.
    - vm_compute. discriminate. }
  rewrite (evict_expired_exact (2 * Minute) two_entries W). vm_compute. split; reflexivity.
Defined.

Lemma cache_bounded_witness : Len two_entries <= maxSize two_entries.
Proof.
  apply (cache_bounded {| MaxSize := 2; DefaultTTL := Minute; MaxItemSize := 10; CleanupInterval := Minute |}).
  eapply rtc_l; [exists 0, (CSet "a" "x" Minute); reflexivity|].
  eapply rtc_l; [exists 1, (CSet "b" "y" Hour); reflexivity|]. apply rtc_refl.
Defined.

