(* ===== verification/RedisCache.v ===== *)
(** * Redis cache ([internal/cache/redis.go])

    The wrapper over the Redis client: key prefixing, default expirations, error
    wrapping and statistics.  The client is third-party code: it is the class
    [RedisClient], whose state carries the server with its clock.  A call returns
    the new state of the server and the reply. *)
From S2P Require Import Prelude Float64 MemoryCache.

Inductive redis_error :=
| RedisNil
| RedisErr (msg : string).

#[export] Instance redis_error_eq_dec : EqDecision redis_error.
Proof. solve_decision. Defined.

(** [fmt.Errorf("redis get: %w", err)]; a JSON error carries its message. *)
Inductive cache_error :=
| Wrapped (op : string) (cause : redis_error)
| Bare (cause : redis_error)
| JSONError (msg : string).

(** An element of the reply to [MGet], of type [any]: nil, a string, bytes, or a
    value of another type. *)
Inductive reply :=
| RNil
| RString (s : string)
| RBytes (b : string)
| ROther.

(** A bytes reply of [None] is the nil slice. *)
Class RedisClient (R : Type) := {
  rc_Get : string -> R -> R * (redis_error + option string);
  rc_Set : string -> string -> duration -> R -> R * option redis_error;
  rc_Del : string -> R -> R * option redis_error;
  rc_ExecSets : list (string * string * duration) -> R -> R * option redis_error;
  rc_MGet : list string -> R -> R * (redis_error + list reply);
  rc_Ping : R -> R * option redis_error;
  rc_Close : R -> R * option redis_error;
  rc_IncrBy : string -> Z -> R -> R * (redis_error + Z);
  rc_TTL : string -> R -> R * (redis_error + duration);
  rc_Expire : string -> duration -> R -> R;
  rc_SetNX : string -> string -> duration -> R -> R * (redis_error + bool);
  (** the pipeline of [Get] and [TTL]: the error of [Exec] and both replies *)
  rc_ExecGetTTL : string -> R -> R * (option redis_error * (redis_error + option string) * duration);
}.

Record RedisCacheConfig := {
  Addr : string;
  Password : string;
  DB : Z;
  ClusterAddrs : list string;
  SentinelAddrs : list string;
  SentinelMaster : string;
  Namespace : string;
  RDefaultTTL : duration;
  DialTimeout : duration;
  ReadTimeout : duration;
  WriteTimeout : duration;
  PoolSize : Z;
  MinIdleConns : Z;
  MaxRetries : Z;
  TLSEnabled : bool;
  TLSSkipVerify : bool;
}.

Definition DefaultRedisCacheConfig : RedisCacheConfig :=
  {| Addr := "localhost:6379"; Password := ""; DB := 0; ClusterAddrs := []; SentinelAddrs := [];
     SentinelMaster := ""; Namespace := "llmux"; RDefaultTTL := Hour; DialTimeout := 5 * Second;
     ReadTimeout := 3 * Second; WriteTimeout := 3 * Second; PoolSize := 10; MinIdleConns := 2;
     MaxRetries := 3; TLSEnabled := false; TLSSkipVerify := false |}.

(** The options common to the three kinds of client. *)
Record CommonOptions := {
  o_Password : string;
  o_DialTimeout : duration;
  o_ReadTimeout : duration;
  o_WriteTimeout : duration;
  o_PoolSize : Z;
  o_MinIdleConns : Z;
  o_MaxRetries : Z;
}.

Inductive ClientOptions :=
| ClusterOptions (addrs : list string) (o : CommonOptions)
| FailoverOptions (master : string) (addrs : list string) (db : Z) (o : CommonOptions)
| Options (addr : string) (db : Z) (o : CommonOptions).

(** The client the configuration selects. *)
Definition client_options (cfg : RedisCacheConfig) : ClientOptions :=
  let o := {| o_Password := cfg.(Password); o_DialTimeout := cfg.(DialTimeout);
              o_ReadTimeout := cfg.(ReadTimeout); o_WriteTimeout := cfg.(WriteTimeout);
              o_PoolSize := cfg.(PoolSize); o_MinIdleConns := cfg.(MinIdleConns);
              o_MaxRetries := cfg.(MaxRetries) |} in
  match cfg.(ClusterAddrs), cfg.(SentinelAddrs) with
  | _ :: _, _ => ClusterOptions cfg.(ClusterAddrs) o
  | [], _ :: _ => FailoverOptions cfg.(SentinelMaster) cfg.(SentinelAddrs) cfg.(DB) o
  | [], [] => Options cfg.(Addr) cfg.(DB) o
  end.

Record RedisCache (R : Type) := {
  client : R;
  namespace : string;
  r_defaultTTL : duration;
  r_hits : Z;
  r_misses : Z;
  r_sets : Z;
  r_errors : Z;
}.
Arguments client {R}.
Arguments namespace {R}.
Arguments r_defaultTTL {R}.
Arguments r_hits {R}.
Arguments r_misses {R}.
Arguments r_sets {R}.
Arguments r_errors {R}.

Section Redis.
Context {R : Type} `{RedisClient R}.
Implicit Types c : RedisCache R.

Definition with_client (r : R) (c : RedisCache R) : RedisCache R :=
  {| client := r; namespace := c.(namespace); r_defaultTTL := c.(r_defaultTTL); r_hits := c.(r_hits);
     r_misses := c.(r_misses); r_sets := c.(r_sets); r_errors := c.(r_errors) |}.

Definition r_counts (h m s e : Z) (c : RedisCache R) : RedisCache R :=
  {| client := c.(client); namespace := c.(namespace); r_defaultTTL := c.(r_defaultTTL);
     r_hits := c.(r_hits) +! h; r_misses := c.(r_misses) +! m; r_sets := c.(r_sets) +! s;
     r_errors := c.(r_errors) +! e |}.

Definition r_hit (c : RedisCache R) : RedisCache R := r_counts 1 0 0 0 c.
Definition r_miss (c : RedisCache R) : RedisCache R := r_counts 0 1 0 0 c.
Definition r_stored (n : Z) (c : RedisCache R) : RedisCache R := r_counts 0 0 n 0 c.
Definition r_failed (c : RedisCache R) : RedisCache R := r_counts 0 0 0 1 c.

(** [dial] is the client constructor of the library. *)
Definition NewRedisCache (dial : ClientOptions -> R) (cfg : RedisCacheConfig) : cache_error + RedisCache R :=
  let '(r, err) := rc_Ping (dial (client_options cfg)) in
  match err with
  | Some e => inl (Wrapped "redis ping failed" e)
  | None =>
      inr {| client := r; namespace := cfg.(Namespace);
             r_defaultTTL := if cfg.(RDefaultTTL) <=? 0 then Hour else cfg.(RDefaultTTL);
             r_hits := 0; r_misses := 0; r_sets := 0; r_errors := 0 |}
  end.

Definition prefixKey (c : RedisCache R) (key : string) : string :=
  if (c.(namespace) =? "")%string then key else c.(namespace) +:+ (":" +:+ key).

Definition ttl_or_default (c : RedisCache R) (ttl : duration) : duration :=
  if ttl <=? 0 then c.(r_defaultTTL) else ttl.

Definition redisGet (key : string) (c : RedisCache R) : RedisCache R * (cache_error + option string) :=
  let '(r, reply) := rc_Get (prefixKey c key) c.(client) in
  let c := with_client r c in
  match reply with
  | inl RedisNil => (r_miss c, inr None)
  | inl err => (r_failed c, inl (Wrapped "redis get" err))
  | inr v => (r_hit c, inr v)
  end.

Definition redisSet (key v : string) (ttl : duration) (c : RedisCache R) : RedisCache R * option cache_error :=
  let ttl := ttl_or_default c ttl in
  let '(r, err) := rc_Set (prefixKey c key) v ttl c.(client) in
  let c := with_client r c in
  match err with
  | Some e => (r_failed c, Some (Wrapped "redis set" e))
  | None => (r_stored 1 c, None)
  end.

Definition redisDelete (key : string) (c : RedisCache R) : RedisCache R * option cache_error :=
  let '(r, err) := rc_Del (prefixKey c key) c.(client) in
  let c := with_client r c in
  match err with
  | Some e => (r_failed c, Some (Wrapped "redis del" e))
  | None => (c, None)
  end.

Definition redisSetPipeline (entries : list CacheEntry) (c : RedisCache R) : RedisCache R * option cache_error :=
  match entries with
  | [] => (c, None)
  | _ =>
      let pipe := map (fun e => (prefixKey c e.(Key), e.(Value), ttl_or_default c e.(TTL))) entries in
      let '(r, err) := rc_ExecSets pipe c.(client) in
      let c := with_client r c in
      match err with
      | Some e => (r_failed c, Some (Wrapped "redis pipeline exec" e))
      | None => (r_stored (Z.of_nat (length entries)) c, None)
      end
  end.

(** [for i, val := range vals]; [keys[i]] is read only for a value. *)
Fixpoint collect_replies (keys : list string) (i : nat) (vals : list reply)
    (acc : RedisCache R * gmap string string) : outcome cache_error (RedisCache R * gmap string string) :=
  match vals with
  | [] => Ok acc
  | RString v :: vals' | RBytes v :: vals' =>
      let! key := index keys i in
      collect_replies keys (S i) vals' (r_hit acc.1, <[key := v]> acc.2)
  | (RNil | ROther) :: vals' => collect_replies keys (S i) vals' (r_miss acc.1, acc.2)
  end.

Definition redisGetMulti (keys : list string) (c : RedisCache R) :
    RedisCache R * outcome cache_error (gmap string string) :=
  match keys with
  | [] => (c, Ok ∅)
  | _ =>
      let '(r, reply) := rc_MGet (map (prefixKey c) keys) c.(client) in
      let c := with_client r c in
      match reply with
      | inl e => (r_failed c, Err (Wrapped "redis mget" e))
      | inr vals =>
          match collect_replies keys 0 vals (c, ∅) with
          | Ok (c, result) => (c, Ok result)
          | Err e => (c, Err e)
          | Panic => (c, Panic)
          end
      end
  end.

Definition redisPing (c : RedisCache R) : RedisCache R * option cache_error :=
  let '(r, err) := rc_Ping c.(client) in (with_client r c, Bare <$> err).

Definition redisClose (c : RedisCache R) : RedisCache R * option cache_error :=
  let '(r, err) := rc_Close c.(client) in (with_client r c, Bare <$> err).

Definition redisStats (c : RedisCache R) : CacheStats :=
  {| Hits := c.(r_hits); Misses := c.(r_misses); Sets := c.(r_sets); Deletes := 0; Errors := c.(r_errors);
     HitRate := rate_of c.(r_hits) (c.(r_hits) +! c.(r_misses)); AvgLatency := 0 |}.

Definition Increment (key : string) (delta : Z) (ttl : duration) (c : RedisCache R) :
    RedisCache R * (cache_error + Z) :=
  let k := prefixKey c key in
  let '(r, reply) := rc_IncrBy k delta c.(client) in
  match reply with
  | inl e => (r_failed (with_client r c), inl (Wrapped "redis incrby" e))
  | inr val =>
      if 0 <? ttl then
        let '(r, reply) := rc_TTL k r in
        let r := match reply with
                 | inr currentTTL => if currentTTL <? 0 then rc_Expire k ttl r else r
                 | inl _ => r
                 end in
        (with_client r c, inr val)
      else (with_client r c, inr val)
  end.

Definition SetNX (key v : string) (ttl : duration) (c : RedisCache R) : RedisCache R * (cache_error + bool) :=
  let ttl := ttl_or_default c ttl in
  let '(r, reply) := rc_SetNX (prefixKey c key) v ttl c.(client) in
  let c := with_client r c in
  match reply with
  | inl e => (r_failed c, inl (Wrapped "redis setnx" e))
  | inr ok => (if ok then r_stored 1 c else c, inr ok)
  end.

Definition GetWithTTL (key : string) (c : RedisCache R) :
    RedisCache R * (cache_error + option string * duration) :=
  let '(r, (err, getCmd, ttlCmd)) := rc_ExecGetTTL (prefixKey c key) c.(client) in
  let c := with_client r c in
  match err with
  | Some (RedisErr m) => (r_failed c, inl (Wrapped "redis pipeline" (RedisErr m)))
  | _ =>
      match getCmd with
      | inl RedisNil => (r_miss c, inr (None, 0))
      | inl e => (c, inl (Bare e))
      | inr v => (r_hit c, inr (v, ttlCmd))
      end
  end.

Section Json.
Context {V : Type} (marshal : V -> string + string) (unmarshal : string -> V -> string + V).

Definition SetJSON (key : string) (v : V) (ttl : duration) (c : RedisCache R) :
    RedisCache R * option cache_error :=
  match marshal v with
  | inl msg => (c, Some (JSONError msg))
  | inr data => redisSet key data ttl c
  end.

(** [dest] is written through: the result is its new contents. *)
Definition GetJSON (key : string) (dest : V) (c : RedisCache R) : RedisCache R * (cache_error + V) :=
  let '(c, reply) := redisGet key c in
  match reply with
  | inl e => (c, inl e)
  | inr None => (c, inr dest)
  | inr (Some data) =>
      match unmarshal data dest with
      | inl msg => (c, inl (JSONError msg))
      | inr v => (c, inr v)
      end
  end.
End Json.

(** ** Reads of a healthy server

    The documented behaviour of the read commands on string values: [GET] replies
    with the value or nil, [MGET] with the values of the keys in order, nil for a
    missing one. *)
Class RedisReads := {
  view : R -> string -> option string;
  get_view : forall r k,
    rc_Get k r = (r, match view r k with Some v => inr (Some v) | None => inl RedisNil end);
  mget_view : forall r ks,
    rc_MGet ks r = (r, inr (map (fun k => match view r k with Some v => RString v | None => RNil end) ks));
}.

Context `{RedisReads}.

(** What the cache finds under a key of its namespace. *)
Definition stored c (key : string) : option string := view c.(client) (prefixKey c key).

Lemma redisGet_stored key c :
  (redisGet key c).2 = inr (stored c key) /\ stored (redisGet key c).1 = stored c.
Proof. unfold redisGet, stored. rewrite get_view. by destruct (view _ _). Qed.

Definition put_found (f : string -> option string) (m : gmap string string) (k : string) : gmap string string :=
  match f k with Some v => <[k := v]> m | None => m end.

Lemma lookup_put_found f ks m k :
  foldl (put_found f) m ks !! k = if decide (k ∈ ks) then match f k with Some v => Some v | None => m !! k end else m !! k.
Proof.
  induction ks as [|k' ks IH] using rev_ind; [done|]. rewrite foldl_snoc. unfold put_found at 1.
  destruct (decide (k ∈ ks ++ [k'])) as [Hin|Hin]; rewrite elem_of_app, list_elem_of_singleton in Hin.
  - destruct (decide (k = k')) as [Heq|Hne].
    + subst k'. destruct (f k) as [v|]; [by rewrite lookup_insert_eq|]. rewrite IH. by destruct (decide _).
    + assert (k ∈ ks) by tauto.
      destruct (f k'); rewrite ?lookup_insert_ne, IH by done; by rewrite decide_True.
  - destruct (f k'); rewrite ?lookup_insert_ne, IH by (intros ->; tauto); rewrite decide_False; tauto.
Qed.

Lemma collect_replies_spec f pre ks c res :
  exists c', collect_replies (pre ++ ks) (length pre)
    (map (fun k => match f k with Some v => RString v | None => RNil end) ks) (c, res)
    = Ok (c', foldl (put_found f) res ks) /\ client c' = client c.
Proof.
  revert pre c res. induction ks as [|k ks IH]; intros pre c res; cbn [map collect_replies foldl]; [by eexists|].
  specialize (IH (pre ++ [k])). rewrite <- (assoc_L app), length_app, Nat.add_1_r in IH. cbn [app] in IH.
  unfold put_found at 2. destruct (f k) as [v|] eqn:E.
  - unfold index. rewrite list_lookup_middle by done. cbn [outcome_bind fst snd].
    destruct (IH (r_hit c) (<[k := v]> res)) as (c' & -> & Ec). by exists c'.
  - cbn [fst snd]. destruct (IH (r_miss c) res) as (c' & -> & Ec). by exists c'.
Qed.

(** A batch read is the pointwise read. *)
Lemma redisGetMulti_stored keys c :
  exists m, (redisGetMulti keys c).2 = Ok m /\
    forall k, m !! k = if decide (k ∈ keys) then stored c k else None.
Proof.
  unfold redisGetMulti. destruct keys as [|k0 ks].
  { exists ∅. split; [done|]. intros k. by rewrite decide_False by apply not_elem_of_nil. }
  rewrite mget_view, map_map.
  destruct (collect_replies_spec (stored c) [] (k0 :: ks) (with_client (client c) c) ∅) as (c' & E & _).
  cbn [app length] in E. unfold stored at 1 in E. rewrite E. eexists. split; [done|].
  intros k. rewrite lookup_put_found, lookup_empty. by destruct (decide _), (stored c k).
Qed.

End Redis.
