(* ===== verification/DualCache.v ===== *)
(** * Two-tier cache ([internal/cache/dual.go])

    A local in-memory cache in front of a shared Redis.  A nil [redis] is [None].
    The clock readings of an operation are arguments, in the order of the calls;
    each [Set] of the local cache takes one, which gives the expiration (the
    reading its eviction makes has no effect on what is evicted).  The throttle
    map keeps the instant of the last batch query of each key.  A Go map is
    iterated in an unspecified order: [iter] is the order of one iteration. *)
From S2P Require Import Prelude Float64 Heap MemoryCache RedisCache.

Record DualCacheConfig := {
  LocalTTL : duration;
  RedisTTL : duration;
  BatchThrottleTime : duration;
  MaxThrottleEntries : Z;
}.

Definition DefaultDualCacheConfig : DualCacheConfig :=
  {| LocalTTL := 5 * Minute; RedisTTL := Hour; BatchThrottleTime := 10 * Second; MaxThrottleEntries := 10000 |}.

Record DualCache (R : Type) := {
  local : MemoryCache;
  redis : option (RedisCache R);
  dconfig : DualCacheConfig;
  lastRedisAccessTime : gmap string time;
  localHits : Z;
  redisHits : Z;
  dmisses : Z;
  backfills : Z;
}.
Arguments local {R}.
Arguments redis {R}.
Arguments dconfig {R}.
Arguments lastRedisAccessTime {R}.
Arguments localHits {R}.
Arguments redisHits {R}.
Arguments dmisses {R}.
Arguments backfills {R}.
Arguments Build_DualCache {R}.

Section Dual.
Context {R : Type} `{RedisClient R}.
Implicit Types d : DualCache R.

Definition with_local (l : MemoryCache) d : DualCache R :=
  Build_DualCache l d.(redis) d.(dconfig) d.(lastRedisAccessTime) d.(localHits) d.(redisHits) d.(dmisses) d.(backfills).
Definition with_redis (r : RedisCache R) d : DualCache R :=
  Build_DualCache d.(local) (Some r) d.(dconfig) d.(lastRedisAccessTime) d.(localHits) d.(redisHits) d.(dmisses) d.(backfills).
Definition with_access (m : gmap string time) d : DualCache R :=
  Build_DualCache d.(local) d.(redis) d.(dconfig) m d.(localHits) d.(redisHits) d.(dmisses) d.(backfills).
Definition d_counts (l r m b : Z) d : DualCache R :=
  Build_DualCache d.(local) d.(redis) d.(dconfig) d.(lastRedisAccessTime)
    (d.(localHits) +! l) (d.(redisHits) +! r) (d.(dmisses) +! m) (d.(backfills) +! b).

Definition NewDualCache (l : MemoryCache) (r : option (RedisCache R)) (cfg : DualCacheConfig) : DualCache R :=
  {| local := l; redis := r;
     dconfig := {| LocalTTL := or_default cfg.(LocalTTL) (5 * Minute);
                   RedisTTL := or_default cfg.(RedisTTL) Hour;
                   BatchThrottleTime := or_default cfg.(BatchThrottleTime) (10 * Second);
                   MaxThrottleEntries := or_default cfg.(MaxThrottleEntries) 10000 |};
     lastRedisAccessTime := ∅; localHits := 0; redisHits := 0; dmisses := 0; backfills := 0 |}.

Definition localSet (now : time) (key v : string) (ttl : duration) d : DualCache R :=
  with_local (Set_ now now key v ttl d.(local)) d.

(** The backfill and the counts of a value found in Redis. *)
Definition backfill (now : time) d (p : string * string) : DualCache R :=
  d_counts 0 1 0 1 (localSet now p.1 p.2 d.(dconfig).(LocalTTL) d).

(** [now] is read by the local [Get], [nowFill] by the backfill. *)
Definition dualGet (now nowFill : time) (key : string) d : DualCache R * (cache_error + option string) :=
  let '(l, val) := Get now key d.(local) in
  let d := with_local l d in
  match val with
  | Some v => (d_counts 1 0 0 0 d, inr (Some v))
  | None =>
      match d.(redis) with
      | None => (d_counts 0 0 1 0 d, inr None)
      | Some r =>
          let '(r, reply) := redisGet key r in
          let d := with_redis r d in
          match reply with
          | inl err => (d, inl err)
          | inr (Some v) => (backfill nowFill d (key, v), inr (Some v))
          | inr None => (d_counts 0 0 1 0 d, inr None)
          end
      end
  end.

Definition dualSet (now : time) (key v : string) (ttl : duration) d : DualCache R * option cache_error :=
  let redisTTL := if ttl <=? 0 then d.(dconfig).(RedisTTL) else ttl in
  let d := localSet now key v d.(dconfig).(LocalTTL) d in
  match d.(redis) with
  | None => (d, None)
  | Some r => let '(r, err) := redisSet key v redisTTL r in (with_redis r d, err)
  end.

Definition SetLocalOnly (now : time) (key v : string) (ttl : duration) d : DualCache R :=
  localSet now key v (if ttl <=? 0 then d.(dconfig).(LocalTTL) else ttl) d.

Definition dualDelete (key : string) d : DualCache R * option cache_error :=
  let d := with_local (Delete key d.(local)) d in
  match d.(redis) with
  | None => (d, None)
  | Some r => let '(r, err) := redisDelete key r in (with_redis r d, err)
  end.

Definition dualSetPipeline (entries : list (time * CacheEntry)) d : DualCache R * option cache_error :=
  let localEntries :=
    map (fun p => (p.1, {| Key := p.2.(Key); Value := p.2.(Value); TTL := d.(dconfig).(LocalTTL) |})) entries in
  let d := with_local (SetPipeline localEntries d.(local)) d in
  match d.(redis) with
  | None => (d, None)
  | Some r => let '(r, err) := redisSetPipeline (map snd entries) r in (with_redis r d, err)
  end.

Definition throttled d (now : time) (key : string) : bool :=
  match d.(lastRedisAccessTime) !! key with
  | Some lastAccess => negb (d.(dconfig).(BatchThrottleTime) <=? time_sub now lastAccess)
  | None => false
  end.

Definition filterThrottledKeys (now : time) (keys : list string) d : list string :=
  keep (fun key => negb (throttled d now key)) keys.

(** [-c.config.BatchThrottleTime * 2] wraps at 64 bits. *)
Definition cleanupThrottleMap (now : time) d : DualCache R :=
  let threshold := time_add now (wrap64 (wrap64 (- d.(dconfig).(BatchThrottleTime)) * 2)) in
  with_access (filter (fun p => before p.2 threshold = false) d.(lastRedisAccessTime)) d.

Definition noteAccess (now : time) (keys : list string) d : DualCache R :=
  let d := with_access (foldl (fun m key => <[key := now]> m) d.(lastRedisAccessTime) keys) d in
  if d.(dconfig).(MaxThrottleEntries) <? Z.of_nat (size d.(lastRedisAccessTime))
  then cleanupThrottleMap now d else d.

(** The loop over [keys] after the local lookup. *)
Definition splitLocal (localResults : gmap string string) (acc : DualCache R * gmap string string * list string)
    (key : string) : DualCache R * gmap string string * list string :=
  let '(d, result, missing) := acc in
  match localResults !! key with
  | Some val => (d_counts 1 0 0 0 d, <[key := val]> result, missing)
  | None => (d, result, missing ++ [key])
  end.

(** The first half of [GetMulti]: what the local cache answers, and the keys to
    ask Redis for (none without a Redis).  [now1] is read by the local lookup,
    [now2] by the throttle test. *)
Definition multiLocal (now1 now2 : time) (keys : list string) d : DualCache R * gmap string string * list string :=
  let '(l, localResults) := GetMulti now1 keys d.(local) in
  let '(d, result, missingKeys) := foldl (splitLocal localResults) (with_local l d, ∅, []) keys in
  match d.(redis) with
  | Some _ => (d, result, filterThrottledKeys now2 missingKeys d)
  | None => (d, result, [])
  end.

Section Batch.
Context (iter : gmap string string -> list (string * string)).

(** The reading of the clock by each backfill. *)
Context (fillClock : string -> time).

(** One turn of the loop over the results of Redis. *)
Definition absorb (acc : DualCache R * gmap string string) (p : string * string) : DualCache R * gmap string string :=
  (backfill (fillClock p.1) acc.1 p, <[p.1 := p.2]> acc.2).

Definition countMiss (redisResults : gmap string string) (d : DualCache R) (key : string) : DualCache R :=
  match redisResults !! key with Some _ => d | None => d_counts 0 0 1 0 d end.

Definition processRedis (redisResults : gmap string string) (keysToQuery : list string)
    (d : DualCache R) (result : gmap string string) : DualCache R * gmap string string :=
  let '(d, result) := foldl absorb (d, result) (iter redisResults) in
  (foldl (countMiss redisResults) d keysToQuery, result).

(** [now3] is read after the query.  An error carries the partial results. *)
Definition dualGetMulti (now1 now2 now3 : time) (keys : list string) d :
    DualCache R * gmap string string * outcome cache_error unit :=
  let '(d, result, keysToQuery) := multiLocal now1 now2 keys d in
  match d.(redis), keysToQuery with
  | Some r, _ :: _ =>
      let '(r, reply) := redisGetMulti keysToQuery r in
      let d := with_redis r d in
      match reply with
      | Ok redisResults =>
          let d := noteAccess now3 keysToQuery d in
          let '(d, result) := processRedis redisResults keysToQuery d result in
          (d, result, Ok tt)
      | Err e => (d, result, Err e)
      | Panic => (d, result, Panic)
      end
  | _, _ => (d, result, Ok tt)
  end.
End Batch.

Definition dualPing d : DualCache R * option cache_error :=
  match d.(redis) with
  | None => (d, None)
  | Some r => let '(r, err) := redisPing r in (with_redis r d, err)
  end.

Definition dualClose d : outcome Empty_set (DualCache R * option cache_error) :=
  let! l := Close d.(local) in
  let d := with_local l d in
  match d.(redis) with
  | None => Ok (d, None)
  | Some r => let '(r, err) := redisClose r in Ok (with_redis r d, err)
  end.

Definition no_stats : CacheStats :=
  {| Hits := 0; Misses := 0; Sets := 0; Deletes := 0; Errors := 0; HitRate := fzero; AvgLatency := 0 |}.

Definition redisStatsOf d : CacheStats :=
  match d.(redis) with Some r => redisStats r | None => no_stats end.

Definition dualStats d : CacheStats :=
  let localStats := CacheStatsOf d.(local) in
  let redisStats := redisStatsOf d in
  let totalHits := d.(localHits) +! d.(redisHits) in
  {| Hits := totalHits; Misses := d.(dmisses); Sets := localStats.(Sets) +! redisStats.(Sets); Deletes := 0;
     Errors := redisStats.(Errors); HitRate := rate_of totalHits (totalHits +! d.(dmisses)); AvgLatency := 0 |}.

Record DualCacheStats := {
  LocalHits : Z;
  RedisHits : Z;
  DMisses : Z;
  Backfills : Z;
  DHitRate : f64;
  LocalStats : CacheStats;
  RedisStats : CacheStats;
}.

Definition DetailedStats d : DualCacheStats :=
  let total := (d.(localHits) +! d.(redisHits)) +! d.(dmisses) in
  {| LocalHits := d.(localHits); RedisHits := d.(redisHits); DMisses := d.(dmisses); Backfills := d.(backfills);
     DHitRate := rate_of (d.(localHits) +! d.(redisHits)) total;
     LocalStats := CacheStatsOf d.(local); RedisStats := redisStatsOf d |}.

Definition dualFlush d : DualCache R := with_local (Flush d.(local)) d.

End Dual.

(** ** What a node serves *)

(** The last thing a node knows of a key: a value it wrote, or that Redis gave
    it, at an instant; or that it removed it. *)
Inductive source_event :=
| Put (at_ : time) (key v : string)
| Drop (key : string)
| Clear.

Definition note (m : gmap string (string * time)) (ev : source_event) : gmap string (string * time) :=
  match ev with
  | Put t key v => <[key := (v, t)]> m
  | Drop key => delete key m
  | Clear => ∅
  end.

(** The values Redis gives a batch read. *)
Definition puts (clk : string -> time) (ps : list (string * string)) : list source_event :=
  map (fun p => Put (clk p.1) p.1 p.2) ps.

Definition last_known (log : list source_event) : gmap string (string * time) := foldl note ∅ log.

Inductive dual_op (R : Type) :=
| DGet (now nowFill : time) (key : string)
| DGetMulti (now1 now2 now3 : time) (iter : gmap string string -> list (string * string))
    (fillClock : string -> time) (keys : list string)
| DSet (now : time) (key v : string) (ttl : duration)
| DSetPipeline (entries : list (time * CacheEntry))
| DDelete (key : string)
| DFlush
| DCleanup (now : time)
| DServer (server : R -> R).
Arguments DGet {R}.
Arguments DGetMulti {R}.
Arguments DSet {R}.
Arguments DSetPipeline {R}.
Arguments DDelete {R}.
Arguments DFlush {R}.
Arguments DCleanup {R}.
Arguments DServer {R}.

Section Staleness.
Context {R : Type} `{RedisClient R}.
Implicit Types (d : DualCache R) (op : dual_op R) (log : list source_event).

(** An operation of a node, or anything that happens to the server: other nodes,
    the passage of time.  The values a read returns are its result. *)
Definition d_run op d : DualCache R * gmap string string :=
  match op with
  | DGet now nowFill key =>
      let '(d, reply) := dualGet now nowFill key d in
      (d, match reply with inr (Some v) => {[ key := v ]} | _ => ∅ end)
  | DGetMulti now1 now2 now3 iter fillClock keys =>
      (dualGetMulti iter fillClock now1 now2 now3 keys d).1
  | DSet now key v ttl => ((dualSet now key v ttl d).1, ∅)
  | DSetPipeline entries => ((dualSetPipeline entries d).1, ∅)
  | DDelete key => ((dualDelete key d).1, ∅)
  | DFlush => (dualFlush d, ∅)
  | DCleanup now => (with_local (evictExpired now d.(local)) d, ∅)
  | DServer f =>
      (match d.(redis) with Some r => with_redis (with_client (f r.(client)) r) d | None => d end, ∅)
  end.

(** The values Redis gives a read. *)
Definition from_redis op d : list source_event :=
  match op with
  | DGet now nowFill key =>
      match (Get now key d.(local)).2, d.(redis) with
      | None, Some r =>
          match (redisGet key r).2 with inr (Some v) => [Put nowFill key v] | _ => [] end
      | _, _ => []
      end
  | DGetMulti now1 now2 now3 iter fillClock keys =>
      match multiLocal now1 now2 keys d with
      | (_, _, []) => []
      | (d, _, keysToQuery) =>
          match d.(redis) with
          | Some r =>
              match (redisGetMulti keysToQuery r).2 with
              | Ok results => puts fillClock (iter results)
              | _ => []
              end
          | None => []
          end
      end
  | _ => []
  end.

Definition events op d : list source_event :=
  match op with
  | DSet now key v _ => [Put now key v]
  | DSetPipeline entries => map (fun p => Put p.1 p.2.(Key) p.2.(Value)) entries
  | DDelete key => [Drop key]
  | DFlush => [Clear]
  | _ => from_redis op d
  end.

Fixpoint d_log (ops : list (dual_op R)) d : DualCache R * list source_event :=
  match ops with
  | [] => (d, [])
  | op :: ops' => let '(d', log) := d_log ops' (d_run op d).1 in (d', events op d ++ log)
  end.

(** Values fit the local cache, and the clock is after the epoch and far from its
    end. *)
Definition event_ok (L : duration) (M : Z) (ev : source_event) : Prop :=
  match ev with
  | Put t _ v => 0 <= t /\ t + L < two63 /\ Z.of_nat (String.length v) <= M
  | _ => True
  end.

(** Every entry of the local cache is the last thing the node knows of its key,
    and expires [L] after the node learnt it. *)
Record tracks (L : duration) (M : Z) (l : MemoryCache) (m : gmap string (string * time)) : Prop := {
  tr_item : l.(maxItemSize) = M;
  tr_data : forall k e, l.(data) !! k = Some e ->
    exists t, m !! k = Some (e.(value), t) /\ e.(expiration) = t + L /\ 0 <= t;
}.

Lemma evictIfNeeded_incl fuel now c : (evictIfNeeded_loop fuel now c).(data) ⊆ c.(data).
Proof.
  revert c. induction fuel as [|fuel IH]; intros c; cbn [evictIfNeeded_loop]; [done|].
  repeat case_match; try done.
  - exact (IH (popHeap c)).
  - etrans; [exact (IH (dropKey _ (popHeap c)))|apply delete_subseteq].
Qed.

Lemma evictExpired_incl fuel now c : (evictExpired_loop fuel now c).(data) ⊆ c.(data).
Proof.
  revert c. induction fuel as [|fuel IH]; intros c; cbn [evictExpired_loop]; [done|].
  repeat case_match; try done.
  - exact (IH (popHeap c)).
  - etrans; [exact (IH (dropKey _ (popHeap c)))|apply delete_subseteq].
Qed.

Lemma tracks_incl L M l l' m :
  l'.(maxItemSize) = l.(maxItemSize) -> l'.(data) ⊆ l.(data) -> tracks L M l m -> tracks L M l' m.
Proof.
  intros E Hincl [Hi Hd]. split; [congruence|]. intros k e Hk. apply Hd.
  by eapply lookup_weaken.
Qed.

(** A write of the local cache. *)
Lemma tracks_put L M l m now key v :
  0 < L -> event_ok L M (Put now key v) -> tracks L M l m ->
  tracks L M (Set_ now now key v L l) (note m (Put now key v)).
Proof.
  intros HL (H0 & Ht & Hv) [Hi Hd].
  destruct (c_run_config now (CSet key v L) l) as (_ & Em & _). cbn [c_run fst] in Em.
  split; [congruence|]. intros k e. unfold Set_. rewrite Hi, (proj2 (Z.ltb_ge M _)) by lia.
  rewrite (proj2 (Z.leb_gt L 0)) by lia. cbn [note].
  set (l1 := if full l then evictIfNeeded now l else l).
  assert (Hl1 : l1.(data) ⊆ l.(data)) by (unfold l1; destruct (full l); [apply evictIfNeeded_incl|done]).
  change (data _ !! k) with ((<[key := {| value := v; expiration := unixNano (time_add now L) |}]> l1.(data)) !! k).
  destruct (decide (k = key)) as [->|Hne].
  - rewrite !lookup_insert_eq. intros [= <-]. exists now. cbn. split; [done|]. split; [|done].
    apply wrap64_id. unfold in_i64, time_add, two63 in *. lia.
  - rewrite !lookup_insert_ne by done. intros Hk. apply Hd. by eapply lookup_weaken.
Qed.

Lemma tracks_drop L M l m key : tracks L M l m -> tracks L M (Delete key l) (note m (Drop key)).
Proof.
  intros [Hi Hd]. split; [done|]. intros k e Hk. cbn [note]. change (delete key (data l) !! k = Some e) in Hk.
  apply lookup_delete_Some in Hk as [Hne Hk]. rewrite lookup_delete_ne by done. by apply Hd.
Qed.

(** The local half of a read. *)
Lemma Get_spec now key l :
  (Get now key l).1.(data) ⊆ l.(data) /\ (Get now key l).1.(maxItemSize) = l.(maxItemSize) /\
  forall v, (Get now key l).2 = Some v ->
    exists e, l.(data) !! key = Some e /\ e.(value) = v /\ expiredAt now e = false.
Proof.
  unfold Get, getLookup. destruct (data l !! key) as [e|] eqn:E; [|done].
  destruct (expiredAt now e) eqn:Ex; cbn; [split; [apply delete_subseteq|done]|].
  split_and!; try done. intros v [= <-]. eauto.
Qed.

Lemma getMulti_spec now keys l :
  (GetMulti now keys l).1.(data) = l.(data) /\ (GetMulti now keys l).1.(maxItemSize) = l.(maxItemSize) /\
  forall k v, (GetMulti now keys l).2 !! k = Some v ->
    exists e, l.(data) !! k = Some e /\ e.(value) = v /\
      (e.(expiration) = 0 \/ unixNano now < e.(expiration)).
Proof.
  unfold GetMulti. induction keys as [|key keys IH] using rev_ind; [done|].
  rewrite foldl_snoc. destruct (foldl _ _ keys) as [c result]. cbn [fst snd] in IH.
  destruct IH as (Ed & Em & Hr). unfold getMultiStep. rewrite Ed.
  destruct (data l !! key) as [e|] eqn:E; [|done].
  destruct ((expiration e =? 0) || (unixNano now <? expiration e)) eqn:Ex; [|done].
  split_and!; try done. cbn [snd]. intros k v.
  destruct (decide (k = key)) as [->|Hne]; [|rewrite lookup_insert_ne by done; apply Hr].
  rewrite lookup_insert_eq. intros [= <-]. exists e. split_and!; try done.
  apply orb_true_iff in Ex as [?%Z.eqb_eq|?%Z.ltb_lt]; auto.
Qed.

(** What [GetMulti] found locally, and that it leaves the tiers alone. *)
Lemma splitLocal_spec lr keys d0 :
  let '(d, result, _) := foldl (splitLocal lr) (d0, ∅, []) keys in
  d.(local) = d0.(local) /\ d.(redis) = d0.(redis) /\ d.(dconfig) = d0.(dconfig) /\
  forall k v, result !! k = Some v -> lr !! k = Some v.
Proof.
  induction keys as [|key keys IH] using rev_ind; [done|].
  rewrite foldl_snoc. destruct (foldl _ _ keys) as [[d result] missing]. destruct IH as (El & Er & Ec & Hr).
  cbn [splitLocal]. destruct (lr !! key) as [v|] eqn:E; [|done]. split_and!; try done.
  intros k v'. destruct (decide (k = key)) as [->|Hne];
    [rewrite lookup_insert_eq; congruence|rewrite lookup_insert_ne by done; apply Hr].
Qed.

Lemma multiLocal_spec now1 now2 keys d :
  let '(d', result, _) := multiLocal now1 now2 keys d in
  d'.(local).(data) = d.(local).(data) /\ d'.(local).(maxItemSize) = d.(local).(maxItemSize) /\
  d'.(redis) = d.(redis) /\ d'.(dconfig) = d.(dconfig) /\
  forall k v, result !! k = Some v -> exists e, d.(local).(data) !! k = Some e /\ e.(value) = v /\
    (e.(expiration) = 0 \/ unixNano now1 < e.(expiration)).
Proof.
  unfold multiLocal. destruct (getMulti_spec now1 keys d.(local)) as (Ed & Em & Hr).
  destruct (GetMulti now1 keys (local d)) as [l lr]. cbn [fst snd] in *.
  pose proof (splitLocal_spec lr keys (with_local l d)) as Hs.
  destruct (foldl _ _ keys) as [[d' result] missing]. destruct Hs as (El & Er & Ec & Hs).
  destruct (redis d') eqn:E; rewrite El; split_and!; cbn in *; try congruence; eauto.
Qed.

Lemma noteAccess_frame now keys d :
  (noteAccess now keys d).(local) = d.(local) /\ (noteAccess now keys d).(redis) = d.(redis) /\
  (noteAccess now keys d).(dconfig) = d.(dconfig).
Proof. unfold noteAccess. case_match; done. Qed.

(** The backfills of a batch. *)
Lemma backfills_track L M clk (ps : list (string * string)) d0 r0 m :
  0 < L -> d0.(dconfig).(LocalTTL) = L ->
  Forall (event_ok L M) (puts clk ps) -> tracks L M d0.(local) m ->
  let '(d, result) := foldl (absorb clk) (d0, r0) ps in
  d.(dconfig) = d0.(dconfig) /\
  tracks L M d.(local) (foldl note m (puts clk ps)) /\
  forall k v, result !! k = Some v -> r0 !! k = Some v \/ Put (clk k) k v ∈ puts clk ps.
Proof.
  intros HL. revert d0 r0 m. induction ps as [|[k v] ps IH]; intros d0 r0 m EL Hok Ht; cbn [foldl puts map].
  { split_and!; auto. }
  unfold puts in Hok. cbn [map] in Hok. apply Forall_cons in Hok as [Hok1 Hok].
  specialize (IH (backfill (clk k) d0 (k, v)) (<[k := v]> r0) (note m (Put (clk k) k v)) EL Hok).
  cbn [fst snd] in *. destruct (foldl _ _ ps) as [d result]. destruct IH as (Ec & Htr & Hr).
  { unfold backfill, localSet. cbn. rewrite EL. by apply tracks_put. }
  split_and!; [done|done|]. intros k' v' Hk'. destruct (Hr k' v' Hk') as [Hk|Hin]; [|right; by right].
  destruct (decide (k' = k)) as [->|Hne]; [|left; by rewrite lookup_insert_ne in Hk].
  rewrite lookup_insert_eq in Hk. injection Hk as <-. right. left.
Qed.

Lemma processRedis_spec L M iter clk results keys d r0 m :
  0 < L -> d.(dconfig).(LocalTTL) = L ->
  Forall (event_ok L M) (puts clk (iter results)) -> tracks L M d.(local) m ->
  let '(d', result) := processRedis iter clk results keys d r0 in
  d'.(dconfig) = d.(dconfig) /\
  tracks L M d'.(local) (foldl note m (puts clk (iter results))) /\
  forall k v, result !! k = Some v ->
    r0 !! k = Some v \/ Put (clk k) k v ∈ puts clk (iter results).
Proof.
  intros HL EL Hok Ht. pose proof (backfills_track L M clk (iter results) d r0 m HL EL Hok Ht) as Hb.
  unfold processRedis. destruct (foldl _ (d, r0) (iter results)) as [d1 result]. destruct Hb as (Ec & Htr & Hr).
  assert (Hf : forall ks d2, (foldl (countMiss results) d2 ks).(local) = d2.(local) /\
    (foldl (countMiss results) d2 ks).(dconfig) = d2.(dconfig)).
  { unfold countMiss. induction ks as [|k ks IH]; intros d2; [done|]. cbn [foldl].
    destruct (results !! k); [apply IH|apply (IH (d_counts 0 0 1 0 d2))]. }
  destruct (Hf keys d1) as [-> ->]. done.
Qed.
(** The instant a read looks at the local cache. *)
Definition read_time op : time :=
  match op with
  | DGet now _ _ => now
  | DGetMulti now1 _ _ _ _ _ => now1
  | _ => 0
  end.

Definition clock_ok (t : time) : Prop := 0 <= t < two63.

(** A value served by a read: given by Redis in this read, or the last thing the
    node knows of the key, learnt less than [L] ago. *)
Definition served (L : duration) (m : gmap string (string * time)) op d (k v : string) : Prop :=
  (exists t, Put t k v ∈ from_redis op d) \/ (exists t, m !! k = Some (v, t) /\ read_time op < t + L).

Lemma fresh_local L M l m k e now :
  0 < L -> clock_ok now -> tracks L M l m -> l.(data) !! k = Some e ->
  expiredAt now e = false \/ (e.(expiration) = 0 \/ unixNano now < e.(expiration)) ->
  exists t, m !! k = Some (e.(value), t) /\ now < t + L.
Proof.
  intros HL Hn [_ Hd] Hk Hx. destruct (Hd k e Hk) as (t & Hm & Ee & Ht). exists t. split; [done|].
  assert (En : unixNano now = now) by (apply wrap64_id; unfold clock_ok in Hn; unfold in_i64, two63 in *; lia).
  unfold expiredAt in Hx. rewrite En in Hx. destruct Hx as [Hx|Hx]; [|lia].
  apply andb_false_iff in Hx as [Hx%Z.ltb_ge|Hx%Z.leb_gt]; lia.
Qed.

Lemma dualGet_spec L M now nowFill key d m :
  0 < L -> d.(dconfig).(LocalTTL) = L -> clock_ok now -> tracks L M d.(local) m ->
  let op := DGet now nowFill key in
  Forall (event_ok L M) (from_redis op d) ->
  let '(d', res) := d_run op d in
  d'.(dconfig) = d.(dconfig) /\ tracks L M d'.(local) (foldl note m (from_redis op d)) /\
  forall k v, res !! k = Some v -> served L m op d k v.
Proof.
  intros HL EL Hn Ht op. unfold served. cbn [d_run from_redis op read_time]. unfold dualGet.
  destruct (Get_spec now key d.(local)) as (Hincl & Em & Hv). destruct (Get now key (local d)) as [l [v|]]; cbn [fst snd] in *.
  - intros _. cbn. split_and!; [done|by eapply tracks_incl|].
    intros k v' [<- <-]%lookup_singleton_Some. right. destruct (Hv v eq_refl) as (e & He & <- & Hx).
    by apply (fresh_local L M (local d) m key e now); auto.
  - cbn. destruct (redis d) as [r|]; [|intros _; cbn; split_and!; [done|by eapply tracks_incl|done]].
    destruct (redisGet key r) as [r' [err|[v|]]]; cbn [snd];
      intros Hok; cbn; split_and!; try done; try (by eapply tracks_incl).
    + rewrite EL. apply tracks_put; [done|by apply Forall_inv in Hok|by eapply tracks_incl].
    + intros k v' [<- <-]%lookup_singleton_Some. left. exists nowFill. left.
Qed.

Lemma dualGetMulti_spec L M now1 now2 now3 iter clk keys d m :
  0 < L -> d.(dconfig).(LocalTTL) = L -> clock_ok now1 -> tracks L M d.(local) m ->
  let op := DGetMulti now1 now2 now3 iter clk keys in
  Forall (event_ok L M) (from_redis op d) ->
  let '(d', res) := d_run op d in
  d'.(dconfig) = d.(dconfig) /\ tracks L M d'.(local) (foldl note m (from_redis op d)) /\
  forall k v, res !! k = Some v -> served L m op d k v.
Proof.
  intros HL EL Hn Ht op. unfold served. cbn [d_run from_redis op read_time]. unfold dualGetMulti.
  pose proof (multiLocal_spec now1 now2 keys d) as Hml.
  destruct (multiLocal now1 now2 keys d) as [[d1 result] keysToQuery].
  destruct Hml as (Ed & Em & Er & Ec & Hres).
  assert (Ht1 : tracks L M d1.(local) m) by (eapply tracks_incl; [exact Em|by rewrite Ed|done]).
  assert (Hloc : forall k v, result !! k = Some v -> exists t, m !! k = Some (v, t) /\ now1 < t + L).
  { intros k v Hk. destruct (Hres k v Hk) as (e & He & <- & Hx). by apply (fresh_local L M (local d) m k e); auto. }
  destruct (redis d1) as [r|] eqn:Er1, keysToQuery as [|k0 ks]; try (intros _; cbn; split_and!; eauto; fail).
  destruct (redisGetMulti (k0 :: ks) r) as [r' [results|e|]]; cbn [snd];
    try (intros _; cbn; split_and!; eauto; fail).
  intros Hok. destruct (noteAccess_frame now3 (k0 :: ks) (with_redis r' d1)) as (El & _ & Ec').
  pose proof (processRedis_spec L M iter clk results (k0 :: ks) (noteAccess now3 (k0 :: ks) (with_redis r' d1)) result m HL) as Hp.
  rewrite Ec', El in Hp. cbn [local dconfig with_redis] in Hp. rewrite Ec in Hp. specialize (Hp EL Hok Ht1).
  destruct (processRedis _ _ _ _ _ _) as [d' res]. destruct Hp as (Ec2 & Htr & Hr). cbn [fst].
  split_and!; [done|done|]. intros k v Hk. destruct (Hr k v Hk) as [Hl|Hin]; [right; eauto|left; eauto].
Qed.

Lemma setPipeline_tracks L M entries l m :
  0 < L -> Forall (event_ok L M) (map (fun p => Put p.1 p.2.(Key) p.2.(Value)) entries) -> tracks L M l m ->
  tracks L M (SetPipeline (map (fun p => (p.1, {| Key := p.2.(Key); Value := p.2.(Value); TTL := L |})) entries) l)
    (foldl note m (map (fun p => Put p.1 p.2.(Key) p.2.(Value)) entries)).
Proof.
  intros HL. revert l m. induction entries as [|[t e] entries IH]; intros l m Hok Ht; [done|].
  apply Forall_cons in Hok as [Hok1 Hok]. apply (IH (Set_ t t e.(Key) e.(Value) L l)); [done|].
  by apply tracks_put.
Qed.

Lemma d_run_spec L M op d m :
  0 < L -> d.(dconfig).(LocalTTL) = L -> clock_ok (read_time op) -> tracks L M d.(local) m ->
  Forall (event_ok L M) (events op d) ->
  let '(d', res) := d_run op d in
  d'.(dconfig) = d.(dconfig) /\ tracks L M d'.(local) (foldl note m (events op d)) /\
  forall k v, res !! k = Some v -> served L m op d k v.
Proof.
  intros HL EL Hn Ht Hok. destruct op as [now nowFill key|now1 now2 now3 iter clk keys|now key v ttl|entries|key| |now|f].
  - by apply dualGet_spec with (M := M).
  - by apply dualGetMulti_spec with (M := M).
  - cbn [d_run events foldl]. unfold dualSet. cbn [redis localSet with_local].
    assert (tracks L M (Set_ now now key v (LocalTTL (dconfig d)) (local d)) (note m (Put now key v)))
      by (rewrite EL; apply tracks_put; [done|by apply Forall_inv in Hok|done]).
    destruct (redis d) as [r|]; [destruct (redisSet _ _ _ r)|]; done.
  - cbn [d_run events]. unfold dualSetPipeline. cbn [redis with_local].
    pose proof (setPipeline_tracks L M entries (local d) m HL Hok Ht). rewrite <- EL in * |-.
    destruct (redis d) as [r|]; [destruct (redisSetPipeline _ r)|]; split_and!; try done; by rewrite <- EL.
  - cbn [d_run events foldl]. unfold dualDelete. cbn [redis with_local].
    pose proof (tracks_drop L M _ _ key Ht).
    destruct (redis d) as [r|]; [destruct (redisDelete key r)|]; done.
  - cbn. split_and!; try done. destruct Ht as [Hi _]. split; done.
  - cbn [d_run events from_redis foldl]. split_and!; try done. cbn.
    destruct (c_run_config now CCleanup (local d)) as (_ & Em & _).
    eapply tracks_incl; [exact Em|apply evictExpired_incl|done].
  - cbn. destruct (redis d); done.
Qed.
End Staleness.

(** ** Batch reads *)

Section BatchExact.
Context {R : Type} `{RedisReads R}.
Implicit Types d : DualCache R.

(** What a batch read finds in the local cache. *)
Definition localValue (now : time) (l : MemoryCache) (k : string) : option string :=
  match l.(data) !! k with
  | Some e => if (e.(expiration) =? 0) || (unixNano now <? e.(expiration)) then Some e.(value) else None
  | None => None
  end.

Lemma getMulti_exact now keys l :
  (GetMulti now keys l).1.(data) = l.(data) /\
  (GetMulti now keys l).2 = foldl (put_found (localValue now l)) ∅ keys.
Proof.
  unfold GetMulti. induction keys as [|key keys IH] using rev_ind; [done|].
  rewrite !foldl_snoc. destruct (foldl (getMultiStep now) _ keys) as [c result]. destruct IH as [Ed Er].
  cbn [fst snd] in *. unfold getMultiStep. rewrite <- Er. unfold put_found, localValue. rewrite Ed.
  destruct (data l !! key) as [e|]; [|done]. by destruct (_ || _).
Qed.

Lemma splitLocal_exact lr keys d0 :
  let '(d, result, missing) := foldl (splitLocal lr) (d0, ∅, []) keys in
  d.(lastRedisAccessTime) = d0.(lastRedisAccessTime) /\
  result = foldl (put_found (lr !!.)) ∅ keys /\
  missing = keep (fun k => bool_decide (lr !! k = None)) keys.
Proof.
  induction keys as [|key keys IH] using rev_ind; [done|].
  rewrite !foldl_snoc. destruct (foldl (splitLocal lr) _ keys) as [[d result] missing]. destruct IH as (Ea & -> & ->).
  unfold keep. rewrite List.filter_app. cbn [splitLocal List.filter].
  generalize (foldl (put_found (lr !!.)) ∅ keys). intros found. unfold put_found.
  destruct (lr !! key); cbn; [rewrite app_nil_r|]; done.
Qed.

Lemma foldl_insert_list (ps : list (string * string)) (r0 : gmap string string) :
  NoDup ps.*1 -> foldl (fun m p => <[p.1 := p.2]> m) r0 ps = list_to_map ps ∪ r0.
Proof.
  revert r0. induction ps as [|[k v] ps IH]; intros r0 Hnd; cbn [foldl].
  { change (r0 = ∅ ∪ r0). by rewrite map_empty_union. }
  cbn in Hnd. apply NoDup_cons in Hnd as [Hk Hnd]. rewrite IH by done. cbn [fst snd].
  change (list_to_map ((k, v) :: ps)) with (<[k := v]> (list_to_map ps : gmap string string)).
  rewrite <- insert_union_l. symmetry. apply insert_union_r. by apply not_elem_of_list_to_map_1.
Qed.

Lemma processRedis_result iter clk results keys d r0 :
  iter results ≡ₚ map_to_list results ->
  (processRedis (R := R) iter clk results keys d r0).2 = results ∪ r0.
Proof.
  intros Hp. unfold processRedis. destruct (foldl (absorb clk) (d, r0) (iter results)) as [d1 result] eqn:E.
  cbn [snd]. assert (Er : result = foldl (fun m p => <[p.1 := p.2]> m) r0 (iter results)).
  { replace result with (foldl (absorb clk) (d, r0) (iter results)).2 by by rewrite E. clear.
    generalize (iter results), d, r0. induction l as [|p l IH]; intros d1 r1; [done|]. cbn [foldl].
    unfold absorb at 2. by rewrite IH. }
  rewrite Er, foldl_insert_list.
  - f_equal. rewrite (list_to_map_proper _ (map_to_list results)); [apply list_to_map_to_list| |done].
    rewrite Hp. apply NoDup_fst_map_to_list.
  - rewrite Hp. apply NoDup_fst_map_to_list.
Qed.

(** The value a batch read should return for a key. *)
Definition expected (now1 now2 : time) d (k : string) : option string :=
  match localValue now1 d.(local) k, d.(redis) with
  | Some v, _ => Some v
  | None, Some r => if throttled d now2 k then None else stored r k
  | None, None => None
  end.

Lemma elem_of_query (lr : gmap string string) d now keys k :
  k ∈ filterThrottledKeys now (keep (fun k => bool_decide (lr !! k = None)) keys) d
  <-> k ∈ keys /\ lr !! k = None /\ throttled d now k = false.
Proof.
  unfold filterThrottledKeys. rewrite !elem_of_keep, bool_decide_eq_true, negb_true_iff. tauto.
Qed.

Lemma multiLocal_exact now1 now2 keys d :
  let '(d', result, query) := multiLocal now1 now2 keys d in
  d'.(redis) = d.(redis) /\
  (forall k, result !! k = if decide (k ∈ keys) then localValue now1 d.(local) k else None) /\
  (forall r, d.(redis) = Some r -> forall k,
     k ∈ query <-> k ∈ keys /\ localValue now1 d.(local) k = None /\ throttled d now2 k = false).
Proof.
  unfold multiLocal. destruct (getMulti_exact now1 keys d.(local)) as [_ Elr].
  destruct (GetMulti now1 keys (local d)) as [l lr]. cbn [snd] in Elr.
  assert (Hlr : forall k, k ∈ keys -> lr !! k = localValue now1 d.(local) k).
  { intros k Hk. rewrite Elr, lookup_put_found, lookup_empty, decide_True by done. by destruct (localValue _ _ _). }
  pose proof (splitLocal_spec lr keys (with_local l d)) as Hs. pose proof (splitLocal_exact lr keys (with_local l d)) as He.
  destruct (foldl (splitLocal lr) _ keys) as [[d' result] missing].
  destruct Hs as (_ & Er & Ec & _), He as (Ea & -> & ->). cbn in Er, Ec, Ea.
  assert (Hq : forall k, k ∈ filterThrottledKeys now2 (keep (fun k => bool_decide (lr !! k = None)) keys) d'
     <-> k ∈ keys /\ localValue now1 d.(local) k = None /\ throttled d now2 k = false).
  { intros k. rewrite elem_of_query. unfold throttled. rewrite Ea, Ec.
    split; intros (Hk & Hn & Ht); (split; [done|]; split; [|done]); rewrite <- Hn; [symmetry|]; by apply Hlr. }
  assert (Hres : forall k, foldl (put_found (lr !!.)) ∅ keys !! k
    = if decide (k ∈ keys) then localValue now1 d.(local) k else None).
  { intros k. rewrite lookup_put_found, lookup_empty. destruct (decide (k ∈ keys)) as [Hk|]; [|done].
    rewrite Hlr by done. by destruct (localValue _ _ _). }
  destruct (redis d') as [r|] eqn:Er'; split_and!; try done; try congruence.
Qed.

(** A batch read of the two-tier cache returns, for each requested key and no
    other, the live local value if there is one; otherwise what Redis holds, unless
    the key was asked for within the throttle time, in which case it is reported
    absent without asking.  The order in which Go iterates over the replies does
    not matter. *)
Theorem dual_get_multi_exact iter clk now1 now2 now3 keys d :
  (forall m, iter m ≡ₚ map_to_list m) ->
  let '(_, result, out) := dualGetMulti iter clk now1 now2 now3 keys d in
  out = Ok tt /\ forall k, result !! k = if decide (k ∈ keys) then expected now1 now2 d k else None.
Proof.
  intros Hiter. unfold dualGetMulti, expected. pose proof (multiLocal_exact now1 now2 keys d) as Hm.
  destruct (multiLocal now1 now2 keys d) as [[d1 result] query]. destruct Hm as (Er & Hres & Hq). rewrite Er.
  destruct (redis d) as [r|]; [|split; [done|]; intros k; rewrite Hres; by destruct (decide _), (localValue now1 (local d) k)].
  specialize (Hq r eq_refl). destruct query as [|k0 ks].
  { split; [done|]. intros k. rewrite Hres. destruct (decide (k ∈ keys)) as [Hk|]; [|done].
    destruct (localValue _ _ k) eqn:El; [done|]. destruct (throttled d now2 k) eqn:Et; [done|].
    exfalso. eapply not_elem_of_nil. by apply Hq. }
  destruct (redisGetMulti_stored (k0 :: ks) r) as (results & Eres & Hst).
  destruct (redisGetMulti (k0 :: ks) r) as [r' reply]. cbn [snd] in Eres. subst reply.
  pose proof (processRedis_result iter clk results (k0 :: ks) (noteAccess now3 (k0 :: ks) (with_redis r' d1)) result (Hiter results)) as Hp.
  destruct (processRedis _ _ _ _ _ _) as [d' res]. cbn [snd] in Hp. subst res. split; [done|].
  intros k. rewrite lookup_union, Hst, Hres.
  destruct (decide (k ∈ k0 :: ks)) as [Hk|Hk]; rewrite Hq in Hk.
  - destruct Hk as (Hk & El & Et). rewrite !decide_True, El, Et by done. by destruct (stored r k).
  - rewrite (left_id_L None (∪)). destruct (decide (k ∈ keys)) as [Hin|]; [|done].
    destruct (localValue _ _ k); [done|]. destruct (throttled d now2 k); [done|]. tauto.
Qed.
End BatchExact.

(** ** Staleness *)

Section StalenessTheorems.
Context {R : Type} `{RedisClient R}.
Implicit Types (d : DualCache R) (op : dual_op R).

Lemma d_log_spec L M ops d m :
  0 < L -> d.(dconfig).(LocalTTL) = L -> tracks L M d.(local) m ->
  Forall (fun op => clock_ok (read_time op)) ops -> Forall (event_ok L M) (d_log ops d).2 ->
  (d_log ops d).1.(dconfig).(LocalTTL) = L /\
  tracks L M (d_log ops d).1.(local) (foldl note m (d_log ops d).2).
Proof.
  intros HL. revert d m. induction ops as [|op ops IH]; intros d m EL Ht Hc Hok; [done|].
  apply Forall_cons in Hc as [Hc1 Hc]. cbn [d_log] in Hok |- *.
  specialize (IH (d_run op d).1). pose proof (d_run_spec L M op d m HL EL Hc1 Ht) as Hr.
  destruct (d_log ops (d_run op d).1) as [d' log]. cbn [fst snd] in *.
  apply Forall_app in Hok as [Hok1 Hok]. specialize (Hr Hok1).
  destruct (d_run op d) as [d1 res]. destruct Hr as (Ec & Htr & _). rewrite foldl_app.
  apply IH; try done. cbn. by rewrite Ec.
Qed.


Lemma Set_overwrites now key v ttl l :
  Z.of_nat (String.length v) <= l.(maxItemSize) ->
  (Set_ now now key v ttl l).(data) !! key
  = Some {| value := v; expiration := unixNano (time_add now (if ttl <=? 0 then l.(defaultTTL) else ttl)) |}.
Proof. intros Hv. unfold Set_. rewrite (proj2 (Z.ltb_ge _ _)) by done. apply lookup_insert_eq. Qed.

Lemma dualGet_local now nowFill key e d :
  d.(local).(data) !! key = Some e -> expiredAt now e = false ->
  (dualGet now nowFill key d).2 = inr (Some e.(value)).
Proof. intros He Hx. unfold dualGet, Get, getLookup. by rewrite He, Hx. Qed.

Lemma dualSet_local now key v ttl d :
  (dualSet now key v ttl d).1.(local) = Set_ now now key v d.(dconfig).(LocalTTL) d.(local).
Proof. unfold dualSet. cbn. destruct (redis d) as [r|]; [destruct (redisSet _ _ _ r)|]; done. Qed.

(** The requested time-to-live does not bound what the cache serves.  A value
    stored with a time-to-live shorter than the local one is still served, from
    the local tier, after it has expired in Redis, until the local time-to-live
    has passed. *)
Theorem dual_outlives_ttl now now' nowFill key v ttl d :
  0 <= now -> ttl < d.(dconfig).(LocalTTL) -> now + ttl <= now' < now + d.(dconfig).(LocalTTL) ->
  0 <= now' -> now + d.(dconfig).(LocalTTL) < two63 -> 0 < d.(dconfig).(LocalTTL) ->
  Z.of_nat (String.length v) <= d.(local).(maxItemSize) ->
  (dualGet now' nowFill key (dualSet now key v ttl d).1).2 = inr (Some v).
Proof.
  intros H0 Hlt Hn Hn0 Hb HL Hv. apply (dualGet_local now' nowFill key
    {| value := v; expiration := unixNano (time_add now (if d.(dconfig).(LocalTTL) <=? 0 then d.(local).(defaultTTL) else d.(dconfig).(LocalTTL))) |}).
  - rewrite dualSet_local. by apply Set_overwrites.
  - unfold expiredAt. cbn [expiration]. rewrite (proj2 (Z.leb_gt (LocalTTL (dconfig d)) 0)) by lia.
    unfold unixNano, time_add. rewrite !wrap64_id by (unfold in_i64, two63 in *; lia).
    apply andb_false_iff. right. apply Z.leb_gt. lia.
Qed.

(** A value too large for the local tier does not replace the one it holds:
    after a successful write of it, reads of this node still return the previous
    value, until that one expires. *)
Theorem dual_oversized_stale now now' nowFill key v ttl e d :
  d.(local).(maxItemSize) < Z.of_nat (String.length v) ->
  d.(local).(data) !! key = Some e -> expiredAt now' e = false ->
  (dualGet now' nowFill key (dualSet now key v ttl d).1).2 = inr (Some e.(value)).
Proof.
  intros Hv He Hx. apply dualGet_local; [|done]. rewrite dualSet_local. unfold Set_.
  by rewrite (proj2 (Z.ltb_lt _ _)).
Qed.
End StalenessTheorems.

(** ** A concrete server *)

Module Server.
Record server := { clock : time; store : gmap string (string * time) }.

Definition live_value (s : server) (k : string) : option string :=
  match s.(store) !! k with
  | Some (v, deadline) => if s.(clock) <? deadline then Some v else None
  | None => None
  end.

Definition set (k v : string) (ttl : duration) (s : server) : server :=
  {| clock := s.(clock); store := <[k := (v, s.(clock) + ttl)]> s.(store) |}.

Definition del (k : string) (s : server) : server := {| clock := s.(clock); store := delete k s.(store) |}.

Definition tick (t : time) (s : server) : server := {| clock := t; store := s.(store) |}.

#[global] Instance server_client : RedisClient server := {
  rc_Get k s := (s, match live_value s k with Some v => inr (Some v) | None => inl RedisNil end);
  rc_Set k v ttl s := (set k v ttl s, None);
  rc_Del k s := (del k s, None);
  rc_ExecSets ps s := (foldl (fun s p => set p.1.1 p.1.2 p.2 s) s ps, None);
  rc_MGet ks s := (s, inr (map (fun k => match live_value s k with Some v => RString v | None => RNil end) ks));
  rc_Ping s := (s, None);
  rc_Close s := (s, None);
  rc_IncrBy _ _ s := (s, inl (RedisErr "ERR"));
  rc_TTL _ s := (s, inl (RedisErr "ERR"));
  rc_Expire _ _ s := s;
  rc_SetNX k v ttl s :=
    match live_value s k with Some _ => (s, inr false) | None => (set k v ttl s, inr true) end;
  rc_ExecGetTTL _ s := (s, (Some (RedisErr "ERR"), inl (RedisErr "ERR"), 0));
}.

#[global] Instance server_reads : RedisReads :=
  { view := live_value; get_view _ _ := eq_refl; mget_view _ _ := eq_refl }.

Definition cache : RedisCache server :=
  {| client := {| clock := 0; store := ∅ |}; namespace := "llmux"; r_defaultTTL := Hour;
     r_hits := 0; r_misses := 0; r_sets := 0; r_errors := 0 |}.

Definition node : DualCache server :=
  NewDualCache (NewMemoryCache DefaultMemoryCacheConfig) (Some cache) DefaultDualCacheConfig.

(** Another node stores a value in Redis. *)
Definition remote (t : time) (key v : string) : dual_op server :=
  DServer (fun s => set ("llmux:" +:+ key) v Hour (tick t s)).
End Server.


Lemma dual_get_multi_exact_witness :
  let d := (d_log [Server.remote 1 "a" "x"; DSet 2 "b" "y" Hour] Server.node).1 in
  (dualGetMulti map_to_list (fun _ => 4) 3 3 4 ["a"; "b"; "c"] d).1.2 = {[ "a" := "x"; "b" := "y" ]} /\
  (dualGetMulti map_to_list (fun _ => 4) 3 3 4 ["a"; "b"; "c"] d).1.2 !! "c" = None.
Proof.
  intros d. split; [vm_compute; reflexivity|].
  pose proof (dual_get_multi_exact map_to_list (fun _ => 4) 3 3 4 ["a"; "b"; "c"] d (fun _ => reflexivity _)) as Hm.
  destruct (dualGetMulti _ _ _ _ _ _ _) as [[d' result] out]. destruct Hm as [_ Hm].
  cbn [fst snd]. rewrite (Hm "c"). vm_compute. reflexivity.
Defined.

Lemma dual_outlives_ttl_witness :
  (dualGet (2 * Minute) 0 "a" (dualSet 0 "a" "x" Second Server.node).1).2 = inr (Some "x").
Proof. apply dual_outlives_ttl; vm_compute; repeat split; (discriminate || reflexivity). Defined.

Lemma dual_oversized_stale_witness :
  let small := {| MaxSize := 2; DefaultTTL := Minute; MaxItemSize := 3; CleanupInterval := Minute |} in
  let node := NewDualCache (NewMemoryCache small) (Some Server.cache) DefaultDualCacheConfig in
  let d := (dualSet 0 "a" "old" 0 node).1 in
  (dualGet 2 0 "a" (dualSet 1 "a" "newer" 0 d).1).2 = inr (Some "old").
Proof.
  intros small node d.
  apply (dual_oversized_stale 1 2 0 "a" "newer" 0 {| value := "old"; expiration := 5 * Minute |} d);
    vm_compute; reflexivity.
Defined.
