(* ===== verification/AuthTypes.v ===== *)
(** * Tenancy: keys, teams, users, budgets ([internal/auth/types.go], [budget.go])

    The entities of the multi-tenant gateway and the questions asked of them.
    Amounts are binary64 floats.  A pointer is an option; a Go map, which may be
    nil, is an optional finite map.  The entities are values: a deep copy
    ([Clone] in the source) is the value itself, and the objects that are shared
    between maps are modelled in [AuthStore]. *)
From S2P Require Import Prelude Float64.

(** A map that may be nil: reading nil gives nothing. *)
Abbreviation nmap V := (option (gmap string V)).

Definition nget {V : Type} (m : nmap V) (k : string) : option V := m ≫= lookup k.

(** Values of type [any] in metadata. *)
Inductive any :=
| ABool (b : bool)
| AInt (z : Z)
| AFloat (x : f64)
| AString (s : string)
| AOther.

Abbreviation Metadata := (nmap any).

(** ** Budget periods *)

Definition BudgetDuration := string.
Definition BudgetDurationDaily : BudgetDuration := "1d".
Definition BudgetDurationWeekly : BudgetDuration := "7d".
Definition BudgetDurationMonthly : BudgetDuration := "30d".
Definition BudgetDurationNever : BudgetDuration := "".

Definition DurationSeconds (d : BudgetDuration) : Z :=
  if String.eqb d BudgetDurationDaily then 86400
  else if String.eqb d BudgetDurationWeekly then 604800
  else if String.eqb d BudgetDurationMonthly then 2592000
  else 0.

Definition NextResetTime (now : time) (d : BudgetDuration) : option time :=
  if String.eqb d BudgetDurationNever then None
  else Some (time_add now (wrap64 (DurationSeconds d * Second))).

Definition BudgetDuration_IsValid (d : BudgetDuration) : bool :=
  String.eqb d BudgetDurationDaily || String.eqb d BudgetDurationWeekly
  || String.eqb d BudgetDurationMonthly || String.eqb d BudgetDurationNever.

(** ** Reusable budgets *)

Record Budget := {
  b_ID : string;
  b_MaxBudget : option f64;
  b_SoftBudget : option f64;
  b_MaxParallelRequests : option Z;
  b_TPMLimit : option Z;
  b_RPMLimit : option Z;
  b_ModelMaxBudget : nmap f64;
  b_BudgetDuration : BudgetDuration;
  b_BudgetResetAt : option time;
  b_CreatedAt : time;
  b_CreatedBy : string;
  b_UpdatedAt : time;
  b_UpdatedBy : string;
}.

Record BudgetStatus := {
  IsOverBudget : bool;
  IsOverSoftBudget : bool;
  SpentAmount : f64;
  RemainingBudget : f64;
  UsagePercent : f64;
}.

(** [BudgetResetAt != nil && time.Now().After( *BudgetResetAt)] *)
Definition due (now : time) (at_ : option time) : bool :=
  match at_ with Some t => after now t | None => false end.

Definition Budget_NeedsReset (now : time) (b : Budget) : bool := due now b.(b_BudgetResetAt).

Definition CalculateNextReset (now : time) (b : Budget) : Budget :=
  if String.eqb b.(b_BudgetDuration) BudgetDurationNever then b<|b_BudgetResetAt := None|>
  else b<|b_BudgetResetAt := NextResetTime now b.(b_BudgetDuration)|>.

Definition CheckBudgetStatus (b : Budget) (spent : f64) : BudgetStatus :=
  let status := {| IsOverBudget := false; IsOverSoftBudget := false; SpentAmount := spent;
                   RemainingBudget := fzero; UsagePercent := fzero |} in
  let status :=
    match b.(b_MaxBudget) with
    | Some max =>
        if fzero <.? max then
          status<|RemainingBudget := max ⊟ spent|><|UsagePercent := (spent ⊘ max) ⊠ f64_of_Z 100|>
                <|IsOverBudget := max <=.? spent|>
        else status
    | None => status
    end in
  match b.(b_SoftBudget) with
  | Some soft => if fzero <.? soft then status<|IsOverSoftBudget := soft <=.? spent|> else status
  | None => status
  end.

Definition GetModelBudget (b : Budget) (model : string) : option f64 := nget b.(b_ModelMaxBudget) model.

(** [if max <= 0 { return false }; return spent >= max] *)
Definition over_budget (max spent : f64) : bool := if max <=.? fzero then false else max <=.? spent.

(** The same against an optional budget. *)
Definition over_linked_budget (b : option Budget) (spent : f64) : bool :=
  match b ≫= b_MaxBudget with Some max => over_budget max spent | None => false end.

(** The loop of [CanAccessModel]: no list is no restriction. *)
Definition can_access (models : list string) (model : string) : bool :=
  match models with
  | [] => true
  | _ => existsb (fun m => String.eqb m model || String.eqb m "*") models
  end.

(** ** API keys *)

Definition KeyType := string.
Definition KeyTypeLLMAPI : KeyType := "llm_api".
Definition KeyTypeManagement : KeyType := "management".
Definition KeyTypeReadOnly : KeyType := "read_only".
Definition KeyTypeDefault : KeyType := "default".

Record APIKey := {
  k_ID : string;
  k_KeyHash : string;
  k_KeyPrefix : string;
  k_Name : string;
  k_KeyAlias : option string;
  k_TeamID : option string;
  k_UserID : option string;
  k_OrganizationID : option string;
  k_AllowedModels : list string;
  k_KeyType : KeyType;
  k_TPMLimit : option Z;
  k_RPMLimit : option Z;
  k_MaxParallelRequests : option Z;
  k_ModelTPMLimit : nmap Z;
  k_ModelRPMLimit : nmap Z;
  k_MaxBudget : f64;
  k_SoftBudget : option f64;
  k_SpentBudget : f64;
  k_ModelMaxBudget : nmap f64;
  k_ModelSpend : nmap f64;
  k_BudgetDuration : BudgetDuration;
  k_BudgetResetAt : option time;
  k_Metadata : Metadata;
  k_IsActive : bool;
  k_Blocked : bool;
  k_CreatedAt : time;
  k_UpdatedAt : time;
  k_ExpiresAt : option time;
  k_LastUsedAt : option time;
}.

Definition Key_CanAccessModel (k : APIKey) (model : string) : bool := can_access k.(k_AllowedModels) model.
Definition Key_IsExpired (now : time) (k : APIKey) : bool := due now k.(k_ExpiresAt).
Definition Key_IsOverBudget (k : APIKey) : bool := over_budget k.(k_MaxBudget) k.(k_SpentBudget).

Definition Key_IsOverSoftBudget (k : APIKey) : bool :=
  match k.(k_SoftBudget) with Some soft => over_budget soft k.(k_SpentBudget) | None => false end.

Definition Key_IsBlocked (k : APIKey) : bool := k.(k_Blocked) || negb k.(k_IsActive).
Definition Key_NeedsBudgetReset (now : time) (k : APIKey) : bool := due now k.(k_BudgetResetAt).

Definition GetModelTPMLimit (k : APIKey) (model : string) : option Z :=
  match nget k.(k_ModelTPMLimit) model with Some limit => Some limit | None => k.(k_TPMLimit) end.

Definition GetModelRPMLimit (k : APIKey) (model : string) : option Z :=
  match nget k.(k_ModelRPMLimit) model with Some limit => Some limit | None => k.(k_RPMLimit) end.

(** ** Teams *)

Record Team := {
  t_ID : string;
  t_Alias : option string;
  t_OrganizationID : option string;
  t_Members : list string;
  t_MaxBudget : f64;
  t_SpentBudget : f64;
  t_ModelMaxBudget : nmap f64;
  t_ModelSpend : nmap f64;
  t_BudgetDuration : BudgetDuration;
  t_BudgetResetAt : option time;
  t_TPMLimit : option Z;
  t_RPMLimit : option Z;
  t_MaxParallelRequests : option Z;
  t_ModelTPMLimit : nmap Z;
  t_ModelRPMLimit : nmap Z;
  t_Models : list string;
  t_IsActive : bool;
  t_Blocked : bool;
  t_Metadata : Metadata;
  t_CreatedAt : time;
  t_UpdatedAt : time;
}.

Definition Team_IsOverBudget (t : Team) : bool := over_budget t.(t_MaxBudget) t.(t_SpentBudget).
Definition Team_IsBlocked (t : Team) : bool := t.(t_Blocked) || negb t.(t_IsActive).
Definition Team_CanAccessModel (t : Team) (model : string) : bool := can_access t.(t_Models) model.

(** ** Users *)

Definition UserRoleProxyAdmin := "proxy_admin".
Definition UserRoleOrgAdmin := "org_admin".

Record User := {
  u_ID : string;
  u_Alias : option string;
  u_Email : option string;
  u_TeamID : option string;
  u_Teams : list string;
  u_OrganizationID : option string;
  u_Role : string;
  u_MaxBudget : f64;
  u_Spend : f64;
  u_ModelMaxBudget : nmap f64;
  u_ModelSpend : nmap f64;
  u_BudgetDuration : BudgetDuration;
  u_BudgetResetAt : option time;
  u_TPMLimit : option Z;
  u_RPMLimit : option Z;
  u_MaxParallelRequests : option Z;
  u_Models : list string;
  u_IsActive : bool;
  u_Metadata : Metadata;
  u_CreatedAt : option time;
  u_UpdatedAt : option time;
}.

Definition User_CanAccessModel (u : User) (model : string) : bool := can_access u.(u_Models) model.
Definition IsProxyAdmin (u : User) : bool := String.eqb u.(u_Role) UserRoleProxyAdmin.
Definition User_IsOrgAdmin (u : User) : bool := String.eqb u.(u_Role) UserRoleOrgAdmin.
Definition User_IsOverBudget (u : User) : bool := over_budget u.(u_MaxBudget) u.(u_Spend).

(** ** Organizations, memberships, end users *)

Record Organization := {
  o_ID : string;
  o_Alias : string;
  o_BudgetID : option string;
  o_Models : list string;
  o_MaxBudget : f64;
  o_Spend : f64;
  o_ModelSpend : nmap f64;
  o_Metadata : Metadata;
  o_CreatedAt : time;
  o_UpdatedAt : time;
}.

Definition Org_IsOverBudget (o : Organization) : bool := over_budget o.(o_MaxBudget) o.(o_Spend).
Definition Org_CanAccessModel (o : Organization) (model : string) : bool := can_access o.(o_Models) model.

Record TeamMembership := {
  tm_UserID : string;
  tm_TeamID : string;
  tm_Role : string;
  tm_Spend : f64;
  tm_BudgetID : option string;
  tm_Budget : option Budget;
  tm_JoinedAt : option time;
}.

Definition TeamMember_IsOverBudget (m : TeamMembership) : bool := over_linked_budget m.(tm_Budget) m.(tm_Spend).

Record OrganizationMembership := {
  om_UserID : string;
  om_OrganizationID : string;
  om_UserRole : string;
  om_Spend : f64;
  om_BudgetID : option string;
  om_Budget : option Budget;
  om_JoinedAt : option time;
}.

Definition OrgMember_IsOverBudget (m : OrganizationMembership) : bool := over_linked_budget m.(om_Budget) m.(om_Spend).
Definition OrgMember_IsOrgAdmin (m : OrganizationMembership) : bool := String.eqb m.(om_UserRole) UserRoleOrgAdmin.

Record EndUser := {
  eu_UserID : string;
  eu_Alias : option string;
  eu_Spend : f64;
  eu_BudgetID : option string;
  eu_Budget : option Budget;
  eu_Blocked : bool;
}.

Definition EndUser_IsOverBudget (e : EndUser) : bool := over_linked_budget e.(eu_Budget) e.(eu_Spend).
Definition EndUser_IsBlocked (e : EndUser) : bool := e.(eu_Blocked).

(** ** Usage records and the context of a request *)

Record UsageLog := {
  l_ID : Z;
  l_RequestID : string;
  l_APIKeyID : string;
  l_TeamID : option string;
  l_OrganizationID : option string;
  l_UserID : option string;
  l_EndUserID : option string;
  l_Model : string;
  l_ModelGroup : option string;
  l_Provider : string;
  l_CallType : string;
  l_InputTokens : Z;
  l_OutputTokens : Z;
  l_TotalTokens : Z;
  l_Cost : f64;
  l_LatencyMs : Z;
  l_StatusCode : option Z;
  l_Status : option string;
  l_CacheHit : option string;
  l_RequestTags : list string;
  l_Metadata : Metadata;
  l_StartTime : time;
  l_EndTime : time;
}.

Record AuthContext := {
  a_APIKey : option APIKey;
  a_Team : option Team;
  a_User : option User;
  a_RequestID : string;
  a_UserRole : string;
  a_EndUserID : string;
  a_SSOUserID : string;
  a_JWTTeamIDs : list string;
  a_JWTOrgID : string;
}.

(** ** Budgets and floating-point spend *)

(** Spending a non-negative cost never takes an entity back under its budget,
    whatever the rounding. *)
Lemma over_budget_mono max spent spent' :
  fle spent spent' -> over_budget max spent = true -> over_budget max spent' = true.
Proof.
  unfold over_budget. destruct (max <=.? fzero); [done|]. intros H1 H2. exact (fle_trans _ _ _ H2 H1).
Qed.
