(* ===== verification/AuthStore.v ===== *)
(** * Auth storage: interface and in-memory store ([internal/auth/store.go], [memory.go])

    [AuthStore] is the interface between the gateway and the storage of its
    tenants.  [Module MemoryAuth] is the in-memory implementation.  An API key is
    one object reached through two maps, by the hash of its secret and by its
    identifier, so the store keeps a heap of key objects; the other entities are
    reached through one map each and are values of it.  The iteration order of a
    Go map is unspecified: an operation that ranges over a map takes the order
    [ord] in which it visits a set of keys. *)
From S2P Require Import Prelude Float64 AuthTypes.

Inductive auth_err :=
| ErrCanceled
| ErrOther (msg : string).

#[export] Instance auth_err_eq_dec : EqDecision auth_err.
Proof. solve_decision. Defined.

(** ** Filters and statistics *)

Record APIKeyFilter := {
  kf_TeamID : option string;
  kf_UserID : option string;
  kf_OrganizationID : option string;
  kf_KeyType : option KeyType;
  kf_IsActive : option bool;
  kf_Blocked : option bool;
  kf_Limit : Z;
  kf_Offset : Z;
}.

Record TeamFilter := {
  tf_OrganizationID : option string;
  tf_IsActive : option bool;
  tf_Blocked : option bool;
  tf_Limit : Z;
  tf_Offset : Z;
}.

Record UserFilter := {
  uf_TeamID : option string;
  uf_OrganizationID : option string;
  uf_Role : option string;
  uf_Search : option string;
  uf_IsActive : option bool;
  uf_Limit : Z;
  uf_Offset : Z;
}.

Record UsageFilter := {
  lf_APIKeyID : option string;
  lf_TeamID : option string;
  lf_Model : option string;
  lf_Provider : option string;
  lf_StartTime : time;
  lf_EndTime : time;
}.

Record UsageStats := {
  us_TotalRequests : Z;
  us_TotalTokens : Z;
  us_InputTokens : Z;
  us_OutputTokens : Z;
  us_TotalCost : f64;
  us_AvgLatencyMs : f64;
  us_SuccessRate : f64;
  us_UniqueModels : Z;
  us_UniqueProviders : Z;
}.

(** ** The interface

    A read returns an error or an answer; a missing entity is the answer [None],
    never an error.  A write takes the store to its next state and may return an
    error.  [now] is the instant an operation reads. *)
Class AuthStore (S : Type) := {
  GetAPIKeyByHash : string -> S -> auth_err + option APIKey;
  GetAPIKeyByID : string -> S -> auth_err + option APIKey;
  CreateAPIKey : APIKey -> S -> S * option auth_err;
  UpdateAPIKey : APIKey -> S -> S * option auth_err;
  UpdateAPIKeyLastUsed : string -> time -> S -> S * option auth_err;
  UpdateAPIKeySpent : string -> f64 -> S -> S * option auth_err;
  UpdateAPIKeyModelSpent : string -> string -> f64 -> S -> S * option auth_err;
  ResetAPIKeyBudget : time -> string -> S -> S * option auth_err;
  DeleteAPIKey : string -> S -> S * option auth_err;
  ListAPIKeys : APIKeyFilter -> S -> outcome auth_err (list APIKey * Z);
  BlockAPIKey : string -> bool -> S -> S * option auth_err;
  GetOrganization : string -> S -> auth_err + option Organization;
  UpdateOrganizationSpent : string -> f64 -> S -> S * option auth_err;
  GetTeam : string -> S -> auth_err + option Team;
  UpdateTeamSpent : string -> f64 -> S -> S * option auth_err;
  UpdateTeamModelSpent : string -> string -> f64 -> S -> S * option auth_err;
  ResetTeamBudget : time -> string -> S -> S * option auth_err;
  UpdateTeamMembershipSpent : string -> string -> f64 -> S -> S * option auth_err;
  UpdateOrganizationMembershipSpent : string -> string -> f64 -> S -> S * option auth_err;
  GetUser : string -> S -> auth_err + option User;
  UpdateUserSpent : string -> f64 -> S -> S * option auth_err;
  ResetUserBudget : time -> string -> S -> S * option auth_err;
  GetEndUser : string -> S -> auth_err + option EndUser;
  UpdateEndUserSpent : string -> f64 -> S -> S * option auth_err;
  LogUsage : UsageLog -> S -> S * option auth_err;
  GetKeysNeedingBudgetReset : time -> S -> auth_err + list APIKey;
  GetTeamsNeedingBudgetReset : time -> S -> auth_err + list Team;
  GetUsersNeedingBudgetReset : time -> S -> auth_err + list User;
}.

(** ** Pages

    [result[lo:hi]] panics unless [0 <= lo <= hi] (the upper bound is within the
    slice here). *)
Definition slice {E A : Type} (l : list A) (lo hi : Z) : outcome E (list A) :=
  if (0 <=? lo) && (lo <=? hi) then Ok (take (Z.to_nat (hi - lo)) (drop (Z.to_nat lo) l)) else Panic.

(** The end of every [List] operation. *)
Definition paginate {A : Type} (offset limit : Z) (result : list A) : outcome auth_err (list A * Z) :=
  let total := Z.of_nat (length result) in
  if total <=? offset then Ok ([], total)
  else
    let end_ := offset +! limit in
    let end_ := if (total <? end_) || (limit =? 0) then total else end_ in
    let! page := slice result offset end_ in Ok (page, total).

(** An optional filter on an optional field: [f != nil && (v == nil || *v != *f)]
    skips the entity. *)
Definition skip_opt (f v : option string) : bool :=
  match f with
  | None => false
  | Some x => match v with Some y => negb (String.eqb y x) | None => true end
  end.

(** An optional filter on a field: [f != nil && v != *f]. *)
Definition skip_str (f : option string) (v : string) : bool :=
  match f with Some x => negb (String.eqb v x) | None => false end.

Definition skip_bool (f : option bool) (v : bool) : bool :=
  match f with Some x => negb (Bool.eqb v x) | None => false end.

(** Only active entities unless the filter says otherwise. *)
Definition skip_active (f : option bool) (v : bool) : bool :=
  match f with Some x => negb (Bool.eqb v x) | None => negb v end.

(** [strings.Contains] *)
Fixpoint contains (sub s : string) : bool :=
  String.prefix sub s || match s with EmptyString => false | String _ s' => contains sub s' end.

Module MemoryAuth.

Record MemoryStore := {
  objs : list APIKey;  (* every key object ever allocated *)
  apiKeys : gmap string nat;
  apiKeysByID : gmap string nat;
  budgets : gmap string Budget;
  organizations : gmap string Organization;
  teams : gmap string Team;
  teamMemberships : gmap string TeamMembership;
  orgMemberships : gmap string OrganizationMembership;
  users : gmap string User;
  endUsers : gmap string EndUser;
  usageLogs : list UsageLog;
}.

Definition NewMemoryStore : MemoryStore :=
  {| objs := []; apiKeys := ∅; apiKeysByID := ∅; budgets := ∅; organizations := ∅; teams := ∅;
     teamMemberships := ∅; orgMemberships := ∅; users := ∅; endUsers := ∅; usageLogs := [] |}.

(** [for _, v := range m] *)
Definition range {V : Type} (ord : gset string -> list string) (m : gmap string V) : list V :=
  omap (fun k => m !! k) (ord (dom m)).

Definition deref (s : MemoryStore) (p : nat) : option APIKey := s.(objs) !! p.

(** [if key, ok := s.apiKeysByID[keyID]; ok { ... }]: the object is changed in place. *)
Definition with_key (keyID : string) (f : APIKey -> APIKey) (s : MemoryStore) : MemoryStore :=
  match s.(apiKeysByID) !! keyID with
  | Some p => s<|objs ::= alter f p|>
  | None => s
  end.

(** [m[model] += amount], the map made when it is nil. *)
Definition add_spend (m : nmap f64) (model : string) (amount : f64) : nmap f64 :=
  let m := default ∅ m in Some (<[model := default fzero (m !! model) ⊞ amount]> m).

(** *** API keys *)

Definition ms_GetAPIKeyByHash (hash : string) (s : MemoryStore) : auth_err + option APIKey :=
  inr (s.(apiKeys) !! hash ≫= deref s).

Definition ms_CreateAPIKey (key : APIKey) (s : MemoryStore) : MemoryStore * option auth_err :=
  let p := length s.(objs) in
  (s<|objs ::= fun o => o ++ [key]|><|apiKeys ::= <[key.(k_KeyHash) := p]>|>
    <|apiKeysByID ::= <[key.(k_ID) := p]>|>, None).

Definition ms_GetAPIKeyByID (keyID : string) (s : MemoryStore) : auth_err + option APIKey :=
  inr (s.(apiKeysByID) !! keyID ≫= deref s).

Definition ms_GetAPIKeyByAlias (ord : gset string -> list string) (alias : string) (s : MemoryStore) :
  auth_err + option APIKey :=
  inr (head (keep (fun k => bool_decide (k.(k_KeyAlias) = Some alias)) (omap (deref s) (range ord s.(apiKeys))))).

Definition ms_UpdateAPIKey (key : APIKey) (s : MemoryStore) : MemoryStore * option auth_err :=
  match s.(apiKeysByID) !! key.(k_ID) ≫= deref s with
  | Some existing =>
      let p := length s.(objs) in
      (s<|objs ::= fun o => o ++ [key]|><|apiKeys ::= <[existing.(k_KeyHash) := p]>|>
        <|apiKeysByID ::= <[key.(k_ID) := p]>|>, None)
  | None => (s, None)
  end.

Definition ms_UpdateAPIKeyLastUsed (keyID : string) (lastUsed : time) (s : MemoryStore) : MemoryStore * option auth_err :=
  (with_key keyID (fun k => k<|k_LastUsedAt := Some lastUsed|>) s, None).

Definition ms_UpdateAPIKeySpent (keyID : string) (amount : f64) (s : MemoryStore) : MemoryStore * option auth_err :=
  (with_key keyID (fun k => k<|k_SpentBudget ::= fun x => x ⊞ amount|>) s, None).

Definition ms_UpdateAPIKeyModelSpent (keyID model : string) (amount : f64) (s : MemoryStore) :
  MemoryStore * option auth_err :=
  (with_key keyID (fun k => k<|k_ModelSpend ::= fun m => add_spend m model amount|>) s, None).

Definition reset_key (now : time) (k : APIKey) : APIKey :=
  k<|k_SpentBudget := fzero|><|k_ModelSpend := Some ∅|><|k_BudgetResetAt := NextResetTime now k.(k_BudgetDuration)|>.

Definition ms_ResetAPIKeyBudget (now : time) (keyID : string) (s : MemoryStore) : MemoryStore * option auth_err :=
  (with_key keyID (reset_key now) s, None).

Definition ms_DeleteAPIKey (keyID : string) (s : MemoryStore) : MemoryStore * option auth_err :=
  (with_key keyID (fun k => k<|k_IsActive := false|>) s, None).

(** The filter's user, organization and key type are not read. *)
Definition listed_key (f : APIKeyFilter) (k : APIKey) : bool :=
  negb (skip_active f.(kf_IsActive) k.(k_IsActive) || skip_bool f.(kf_Blocked) k.(k_Blocked)
        || skip_opt f.(kf_TeamID) k.(k_TeamID)).

Definition ms_ListAPIKeys (ord : gset string -> list string) (f : APIKeyFilter) (s : MemoryStore) :
  outcome auth_err (list APIKey * Z) :=
  paginate f.(kf_Offset) f.(kf_Limit) (keep (listed_key f) (omap (deref s) (range ord s.(apiKeys)))).

Definition ms_BlockAPIKey (keyID : string) (blocked : bool) (s : MemoryStore) : MemoryStore * option auth_err :=
  (with_key keyID (fun k => k<|k_Blocked := blocked|>) s, None).

(** *** Teams *)

Definition ms_GetTeam (teamID : string) (s : MemoryStore) : auth_err + option Team := inr (s.(teams) !! teamID).

Definition ms_CreateTeam (team : Team) (s : MemoryStore) : MemoryStore * option auth_err :=
  (s<|teams ::= <[team.(t_ID) := team]>|>, None).

Definition ms_UpdateTeam (team : Team) (s : MemoryStore) : MemoryStore * option auth_err :=
  (s<|teams ::= <[team.(t_ID) := team]>|>, None).

Definition ms_UpdateTeamSpent (teamID : string) (amount : f64) (s : MemoryStore) : MemoryStore * option auth_err :=
  (s<|teams ::= alter (fun t => t<|t_SpentBudget ::= fun x => x ⊞ amount|>) teamID|>, None).

Definition ms_UpdateTeamModelSpent (teamID model : string) (amount : f64) (s : MemoryStore) :
  MemoryStore * option auth_err :=
  (s<|teams ::= alter (fun t => t<|t_ModelSpend ::= fun m => add_spend m model amount|>) teamID|>, None).

Definition reset_team (now : time) (t : Team) : Team :=
  t<|t_SpentBudget := fzero|><|t_ModelSpend := Some ∅|><|t_BudgetResetAt := NextResetTime now t.(t_BudgetDuration)|>.

Definition ms_ResetTeamBudget (now : time) (teamID : string) (s : MemoryStore) : MemoryStore * option auth_err :=
  (s<|teams ::= alter (reset_team now) teamID|>, None).

Definition ms_DeleteTeam (teamID : string) (s : MemoryStore) : MemoryStore * option auth_err :=
  (s<|teams ::= alter (fun t => t<|t_IsActive := false|>) teamID|>, None).

Definition listed_team (f : TeamFilter) (t : Team) : bool :=
  negb (skip_active f.(tf_IsActive) t.(t_IsActive) || skip_bool f.(tf_Blocked) t.(t_Blocked)).

Definition ms_ListTeams (ord : gset string -> list string) (f : TeamFilter) (s : MemoryStore) :
  outcome auth_err (list Team * Z) :=
  paginate f.(tf_Offset) f.(tf_Limit) (keep (listed_team f) (range ord s.(teams))).

Definition ms_BlockTeam (teamID : string) (blocked : bool) (s : MemoryStore) : MemoryStore * option auth_err :=
  (s<|teams ::= alter (fun t => t<|t_Blocked := blocked|>) teamID|>, None).

(** *** Users *)

Definition ms_GetUser (userID : string) (s : MemoryStore) : auth_err + option User := inr (s.(users) !! userID).

Definition ms_GetUserByEmail (ord : gset string -> list string) (email : string) (s : MemoryStore) :
  auth_err + option User :=
  inr (head (keep (fun u => bool_decide (u.(u_Email) = Some email) && u.(u_IsActive)) (range ord s.(users)))).

Definition ms_GetUserBySSOID (ssoID : string) (s : MemoryStore) : auth_err + option User := inr None.

Definition ms_CreateUser (user : User) (s : MemoryStore) : MemoryStore * option auth_err :=
  (s<|users ::= <[user.(u_ID) := user]>|>, None).

Definition ms_UpdateUser (user : User) (s : MemoryStore) : MemoryStore * option auth_err :=
  (s<|users ::= <[user.(u_ID) := user]>|>, None).

Definition ms_UpdateUserSpent (userID : string) (amount : f64) (s : MemoryStore) : MemoryStore * option auth_err :=
  (s<|users ::= alter (fun u => u<|u_Spend ::= fun x => x ⊞ amount|>) userID|>, None).

Definition reset_user (now : time) (u : User) : User :=
  u<|u_Spend := fzero|><|u_ModelSpend := Some ∅|><|u_BudgetResetAt := NextResetTime now u.(u_BudgetDuration)|>.

Definition ms_ResetUserBudget (now : time) (userID : string) (s : MemoryStore) : MemoryStore * option auth_err :=
  (s<|users ::= alter (reset_user now) userID|>, None).

Definition ms_DeleteUser (userID : string) (s : MemoryStore) : MemoryStore * option auth_err :=
  (s<|users ::= alter (fun u => u<|u_IsActive := false|>) userID|>, None).

(** [toLower] is [strings.ToLower]. *)
Definition listed_user (toLower : string -> string) (f : UserFilter) (u : User) : bool :=
  let matches (x : string) (search : string) := contains (toLower search) (toLower x) in
  negb (skip_bool f.(uf_IsActive) u.(u_IsActive) || skip_opt f.(uf_TeamID) u.(u_TeamID)
        || skip_opt f.(uf_OrganizationID) u.(u_OrganizationID) || skip_str f.(uf_Role) u.(u_Role)
        || match f.(uf_Search) with
           | Some search =>
               if String.eqb search "" then false
               else negb (matches u.(u_ID) search
                          || match u.(u_Alias) with Some a => matches a search | None => false end
                          || match u.(u_Email) with Some e => matches e search | None => false end)
           | None => false
           end).

Definition ms_ListUsers (ord : gset string -> list string) (toLower : string -> string) (f : UserFilter) (s : MemoryStore) :
  outcome auth_err (list User * Z) :=
  paginate f.(uf_Offset) f.(uf_Limit) (keep (listed_user toLower f) (range ord s.(users))).

(** *** Usage *)

Definition ms_LogUsage (log : UsageLog) (s : MemoryStore) : MemoryStore * option auth_err :=
  (s<|usageLogs ::= fun logs => logs ++ [log<|l_ID := Z.of_nat (length logs) + 1|>]|>, None).

Definition counted_log (f : UsageFilter) (log : UsageLog) : bool :=
  negb (before log.(l_StartTime) f.(lf_StartTime) || after log.(l_StartTime) f.(lf_EndTime)
        || skip_str f.(lf_APIKeyID) log.(l_APIKeyID) || skip_opt f.(lf_TeamID) log.(l_TeamID)
        || skip_str f.(lf_Model) log.(l_Model) || skip_str f.(lf_Provider) log.(l_Provider)).

(** The accumulators of the loop. *)
Record usage_acc := {
  acc_stats : UsageStats;
  acc_models : gset string;
  acc_providers : gset string;
  acc_success : Z;
}.

Definition zeroUsageStats : UsageStats :=
  {| us_TotalRequests := 0; us_TotalTokens := 0; us_InputTokens := 0; us_OutputTokens := 0; us_TotalCost := fzero;
     us_AvgLatencyMs := fzero; us_SuccessRate := fzero; us_UniqueModels := 0; us_UniqueProviders := 0 |}.

Definition count_log (f : UsageFilter) (acc : usage_acc) (log : UsageLog) : usage_acc :=
  if counted_log f log then
    acc<|acc_stats ::= fun st =>
          st<|us_TotalRequests ::= fun n => n +! 1|><|us_TotalTokens ::= fun n => n +! log.(l_TotalTokens)|>
            <|us_InputTokens ::= fun n => n +! log.(l_InputTokens)|>
            <|us_OutputTokens ::= fun n => n +! log.(l_OutputTokens)|>
            <|us_TotalCost ::= fun x => x ⊞ log.(l_Cost)|>
            <|us_AvgLatencyMs ::= fun x => x ⊞ f64_of_Z log.(l_LatencyMs)|>|>
       <|acc_models ::= fun m => {[log.(l_Model)]} ∪ m|>
       <|acc_providers ::= fun p => {[log.(l_Provider)]} ∪ p|>
       <|acc_success ::= fun n =>
           if match log.(l_StatusCode) with None => true | Some c => c <? 400 end then n +! 1 else n|>
  else acc.

Definition ms_GetUsageStats (f : UsageFilter) (s : MemoryStore) : auth_err + UsageStats :=
  let acc := foldl (count_log f)
    {| acc_stats := zeroUsageStats; acc_models := ∅; acc_providers := ∅; acc_success := 0 |} s.(usageLogs) in
  let stats := acc.(acc_stats) in
  let n := f64_of_Z stats.(us_TotalRequests) in
  let stats :=
    if 0 <? stats.(us_TotalRequests)
    then stats<|us_AvgLatencyMs ::= fun x => x ⊘ n|><|us_SuccessRate := f64_of_Z acc.(acc_success) ⊘ n|>
    else stats in
  inr stats<|us_UniqueModels := Z.of_nat (size acc.(acc_models))|>
           <|us_UniqueProviders := Z.of_nat (size acc.(acc_providers))|>.

(** *** Budgets and organizations *)

Definition ms_GetBudget (id : string) (s : MemoryStore) : auth_err + option Budget := inr (s.(budgets) !! id).

Definition ms_CreateBudget (b : Budget) (s : MemoryStore) : MemoryStore * option auth_err :=
  (s<|budgets ::= <[b.(b_ID) := b]>|>, None).

Definition ms_UpdateBudget (b : Budget) (s : MemoryStore) : MemoryStore * option auth_err :=
  (s<|budgets ::= <[b.(b_ID) := b]>|>, None).

Definition ms_DeleteBudget (id : string) (s : MemoryStore) : MemoryStore * option auth_err :=
  (s<|budgets ::= delete id|>, None).

Definition ms_GetOrganization (orgID : string) (s : MemoryStore) : auth_err + option Organization :=
  inr (s.(organizations) !! orgID).

Definition ms_CreateOrganization (org : Organization) (s : MemoryStore) : MemoryStore * option auth_err :=
  (s<|organizations ::= <[org.(o_ID) := org]>|>, None).

Definition ms_UpdateOrganization (org : Organization) (s : MemoryStore) : MemoryStore * option auth_err :=
  (s<|organizations ::= <[org.(o_ID) := org]>|>, None).

Definition ms_UpdateOrganizationSpent (orgID : string) (amount : f64) (s : MemoryStore) : MemoryStore * option auth_err :=
  (s<|organizations ::= alter (fun o => o<|o_Spend ::= fun x => x ⊞ amount|>) orgID|>, None).

Definition ms_DeleteOrganization (orgID : string) (s : MemoryStore) : MemoryStore * option auth_err :=
  (s<|organizations ::= delete orgID|>, None).

Definition ms_ListOrganizations (ord : gset string -> list string) (limit offset : Z) (s : MemoryStore) :
  outcome auth_err (list Organization * Z) :=
  paginate offset limit (range ord s.(organizations)).

(** *** Memberships *)

Definition membershipKey (userID teamID : string) : string := userID +:+ ":" +:+ teamID.

Definition ms_GetTeamMembership (userID teamID : string) (s : MemoryStore) : auth_err + option TeamMembership :=
  inr (s.(teamMemberships) !! membershipKey userID teamID).

Definition ms_CreateTeamMembership (m : TeamMembership) (s : MemoryStore) : MemoryStore * option auth_err :=
  (s<|teamMemberships ::= <[membershipKey m.(tm_UserID) m.(tm_TeamID) := m]>|>, None).

Definition ms_UpdateTeamMembershipSpent (userID teamID : string) (amount : f64) (s : MemoryStore) :
  MemoryStore * option auth_err :=
  (s<|teamMemberships ::= alter (fun m => m<|tm_Spend ::= fun x => x ⊞ amount|>) (membershipKey userID teamID)|>, None).

Definition ms_DeleteTeamMembership (userID teamID : string) (s : MemoryStore) : MemoryStore * option auth_err :=
  (s<|teamMemberships ::= delete (membershipKey userID teamID)|>, None).

Definition ms_ListTeamMembers (ord : gset string -> list string) (teamID : string) (s : MemoryStore) :
  auth_err + list TeamMembership :=
  inr (keep (fun m => String.eqb m.(tm_TeamID) teamID) (range ord s.(teamMemberships))).

Definition ms_UpdateTeamMembership (m : TeamMembership) (s : MemoryStore) : MemoryStore * option auth_err :=
  (s<|teamMemberships ::= <[membershipKey m.(tm_UserID) m.(tm_TeamID) := m]>|>, None).

Definition ms_ListUserTeamMemberships (ord : gset string -> list string) (userID : string) (s : MemoryStore) :
  auth_err + list TeamMembership :=
  inr (keep (fun m => String.eqb m.(tm_UserID) userID) (range ord s.(teamMemberships))).

Definition orgMembershipKey (userID orgID : string) : string := userID +:+ ":" +:+ orgID.

Definition ms_GetOrganizationMembership (userID orgID : string) (s : MemoryStore) :
  auth_err + option OrganizationMembership :=
  inr (s.(orgMemberships) !! orgMembershipKey userID orgID).

Definition ms_CreateOrganizationMembership (m : OrganizationMembership) (s : MemoryStore) :
  MemoryStore * option auth_err :=
  (s<|orgMemberships ::= <[orgMembershipKey m.(om_UserID) m.(om_OrganizationID) := m]>|>, None).

Definition ms_UpdateOrganizationMembership (m : OrganizationMembership) (s : MemoryStore) :
  MemoryStore * option auth_err :=
  (s<|orgMemberships ::= <[orgMembershipKey m.(om_UserID) m.(om_OrganizationID) := m]>|>, None).

Definition ms_UpdateOrganizationMembershipSpent (userID orgID : string) (amount : f64) (s : MemoryStore) :
  MemoryStore * option auth_err :=
  (s<|orgMemberships ::= alter (fun m => m<|om_Spend ::= fun x => x ⊞ amount|>) (orgMembershipKey userID orgID)|>, None).

Definition ms_DeleteOrganizationMembership (userID orgID : string) (s : MemoryStore) : MemoryStore * option auth_err :=
  (s<|orgMemberships ::= delete (orgMembershipKey userID orgID)|>, None).

Definition ms_ListOrganizationMembers (ord : gset string -> list string) (orgID : string) (s : MemoryStore) :
  auth_err + list OrganizationMembership :=
  inr (keep (fun m => String.eqb m.(om_OrganizationID) orgID) (range ord s.(orgMemberships))).

Definition ms_ListUserOrganizationMemberships (ord : gset string -> list string) (userID : string) (s : MemoryStore) :
  auth_err + list OrganizationMembership :=
  inr (keep (fun m => String.eqb m.(om_UserID) userID) (range ord s.(orgMemberships))).

(** *** End users *)

Definition ms_GetEndUser (userID : string) (s : MemoryStore) : auth_err + option EndUser := inr (s.(endUsers) !! userID).

Definition ms_CreateEndUser (eu : EndUser) (s : MemoryStore) : MemoryStore * option auth_err :=
  (s<|endUsers ::= <[eu.(eu_UserID) := eu]>|>, None).

Definition ms_UpdateEndUserSpent (userID : string) (amount : f64) (s : MemoryStore) : MemoryStore * option auth_err :=
  (s<|endUsers ::= alter (fun e => e<|eu_Spend ::= fun x => x ⊞ amount|>) userID|>, None).

Definition ms_BlockEndUser (userID : string) (blocked : bool) (s : MemoryStore) : MemoryStore * option auth_err :=
  (s<|endUsers ::= alter (fun e => e<|eu_Blocked := blocked|>) userID|>, None).

Definition ms_DeleteEndUser (userID : string) (s : MemoryStore) : MemoryStore * option auth_err :=
  (s<|endUsers ::= delete userID|>, None).

(** *** Budget reset queries *)

Definition ms_GetKeysNeedingBudgetReset (ord : gset string -> list string) (now : time) (s : MemoryStore) :
  auth_err + list APIKey :=
  inr (keep (fun k => k.(k_IsActive) && due now k.(k_BudgetResetAt)) (omap (deref s) (range ord s.(apiKeys)))).

Definition ms_GetTeamsNeedingBudgetReset (ord : gset string -> list string) (now : time) (s : MemoryStore) :
  auth_err + list Team :=
  inr (keep (fun t => t.(t_IsActive) && due now t.(t_BudgetResetAt)) (range ord s.(teams))).

Definition ms_GetUsersNeedingBudgetReset (ord : gset string -> list string) (now : time) (s : MemoryStore) :
  auth_err + list User :=
  inr (keep (fun u => u.(u_IsActive) && due now u.(u_BudgetResetAt)) (range ord s.(users))).

(** The in-memory store implements the interface, whatever the order in which
    the runtime visits a map. *)
Definition memory_auth_store (ord : gset string -> list string) : AuthStore MemoryStore := {|
  GetAPIKeyByHash := ms_GetAPIKeyByHash;
  GetAPIKeyByID := ms_GetAPIKeyByID;
  CreateAPIKey := ms_CreateAPIKey;
  UpdateAPIKey := ms_UpdateAPIKey;
  UpdateAPIKeyLastUsed := ms_UpdateAPIKeyLastUsed;
  UpdateAPIKeySpent := ms_UpdateAPIKeySpent;
  UpdateAPIKeyModelSpent := ms_UpdateAPIKeyModelSpent;
  ResetAPIKeyBudget := ms_ResetAPIKeyBudget;
  DeleteAPIKey := ms_DeleteAPIKey;
  ListAPIKeys := ms_ListAPIKeys ord;
  BlockAPIKey := ms_BlockAPIKey;
  GetOrganization := ms_GetOrganization;
  UpdateOrganizationSpent := ms_UpdateOrganizationSpent;
  GetTeam := ms_GetTeam;
  UpdateTeamSpent := ms_UpdateTeamSpent;
  UpdateTeamModelSpent := ms_UpdateTeamModelSpent;
  ResetTeamBudget := ms_ResetTeamBudget;
  UpdateTeamMembershipSpent := ms_UpdateTeamMembershipSpent;
  UpdateOrganizationMembershipSpent := ms_UpdateOrganizationMembershipSpent;
  GetUser := ms_GetUser;
  UpdateUserSpent := ms_UpdateUserSpent;
  ResetUserBudget := ms_ResetUserBudget;
  GetEndUser := ms_GetEndUser;
  UpdateEndUserSpent := ms_UpdateEndUserSpent;
  LogUsage := ms_LogUsage;
  GetKeysNeedingBudgetReset := ms_GetKeysNeedingBudgetReset ord;
  GetTeamsNeedingBudgetReset := ms_GetTeamsNeedingBudgetReset ord;
  GetUsersNeedingBudgetReset := ms_GetUsersNeedingBudgetReset ord;
|}.
End MemoryAuth.
