(* ===== verification/AuthStoreProofs.v ===== *)
(** * Theorems of the in-memory auth store

    The two maps of the in-memory store over one heap of key objects refine one
    directory of keys by identifier, as long as identifiers and hashes are not
    reused and an update keeps the hash of its key; and the pages of a listing
    tile it. *)
From S2P Require Import Prelude Float64 AuthTypes AuthStore.
Import MemoryAuth.

(** ** The directory the store implements *)

Inductive key_op :=
| KCreate (k : APIKey)
| KUpdate (k : APIKey)
| KTouch (id : string) (t : time)
| KSpend (id : string) (x : f64)
| KModelSpend (id model : string) (x : f64)
| KReset (now : time) (id : string)
| KDelete (id : string)
| KBlock (id : string) (b : bool).

Definition run_op (s : MemoryStore) (op : key_op) : MemoryStore :=
  match op with
  | KCreate k => (ms_CreateAPIKey k s).1
  | KUpdate k => (ms_UpdateAPIKey k s).1
  | KTouch id t => (ms_UpdateAPIKeyLastUsed id t s).1
  | KSpend id x => (ms_UpdateAPIKeySpent id x s).1
  | KModelSpend id m x => (ms_UpdateAPIKeyModelSpent id m x s).1
  | KReset now id => (ms_ResetAPIKeyBudget now id s).1
  | KDelete id => (ms_DeleteAPIKey id s).1
  | KBlock id b => (ms_BlockAPIKey id b s).1
  end.

Abbreviation directory := (gmap string APIKey).

Definition spec_op (d : directory) (op : key_op) : directory :=
  match op with
  | KCreate k => <[k.(k_ID) := k]> d
  | KUpdate k => alter (fun _ => k) k.(k_ID) d
  | KTouch id t => alter (fun k => k<|k_LastUsedAt := Some t|>) id d
  | KSpend id x => alter (fun k => k<|k_SpentBudget ::= fun y => y ⊞ x|>) id d
  | KModelSpend id m x => alter (fun k => k<|k_ModelSpend ::= fun sp => add_spend sp m x|>) id d
  | KReset now id => alter (reset_key now) id d
  | KDelete id => alter (fun k => k<|k_IsActive := false|>) id d
  | KBlock id b => alter (fun k => k<|k_Blocked := b|>) id d
  end.

(** Identifiers and hashes of new keys are fresh; an update keeps the hash. *)
Definition op_ok (d : directory) (op : key_op) : bool :=
  match op with
  | KCreate k =>
      bool_decide (d !! k.(k_ID) = None)
      && forallb (fun p => negb (String.eqb p.2.(k_KeyHash) k.(k_KeyHash))) (map_to_list d)
  | KUpdate k => match d !! k.(k_ID) with Some k0 => String.eqb k.(k_KeyHash) k0.(k_KeyHash) | None => true end
  | _ => true
  end.

Fixpoint ops_ok (d : directory) (ops : list key_op) : bool :=
  match ops with
  | [] => true
  | op :: ops' => op_ok d op && ops_ok (spec_op d op) ops'
  end.

(** ** The two maps agree *)

Record keys_ok (s : MemoryStore) : Prop := {
  id_ok id p : s.(apiKeysByID) !! id = Some p ->
    exists k, s.(objs) !! p = Some k /\ k.(k_ID) = id /\ s.(apiKeys) !! k.(k_KeyHash) = Some p;
  hash_ok h p : s.(apiKeys) !! h = Some p ->
    exists k, s.(objs) !! p = Some k /\ k.(k_KeyHash) = h /\ s.(apiKeysByID) !! k.(k_ID) = Some p;
}.

Definition abs (s : MemoryStore) : directory := omap (deref s) s.(apiKeysByID).

Lemma abs_lookup s id : abs s !! id = s.(apiKeysByID) !! id ≫= deref s.
Proof. unfold abs. apply lookup_omap. Qed.

Lemma keys_ok_new : keys_ok NewMemoryStore.
Proof. by split. Qed.

Section KeysOk.
Context (s : MemoryStore) (W : keys_ok s).

Lemma abs_Some id k :
  abs s !! id = Some k <-> exists p, s.(apiKeysByID) !! id = Some p /\ s.(objs) !! p = Some k.
Proof. rewrite abs_lookup, bind_Some. done. Qed.

(** A key found by its hash is the key of the directory with that hash. *)
Lemma by_hash_abs h k :
  s.(apiKeys) !! h ≫= deref s = Some k <-> abs s !! k.(k_ID) = Some k /\ k.(k_KeyHash) = h.
Proof.
  rewrite bind_Some, abs_Some. split.
  - intros (p & Hp & Hk). destruct (hash_ok s W _ _ Hp) as (k' & Hk' & Eh & Hid).
    unfold deref in Hk. simplify_eq. eauto.
  - intros [(p & Hp & Hk) <-]. destruct (id_ok s W _ _ Hp) as (k' & Hk' & Eid & Hh).
    simplify_eq. eauto.
Qed.

Lemma objs_lt h p : s.(apiKeys) !! h = Some p -> (p < length s.(objs))%nat.
Proof. intros H. destruct (hash_ok s W _ _ H) as (k & Hk & _). by apply lookup_lt_Some in Hk. Qed.

Lemma byid_lt id p : s.(apiKeysByID) !! id = Some p -> (p < length s.(objs))%nat.
Proof. intros H. destruct (id_ok s W _ _ H) as (k & Hk & _). by apply lookup_lt_Some in Hk. Qed.

(** An in-place change that keeps the identity of the key. *)
Lemma with_key_ok id f :
  (forall k, k_ID (f k) = k_ID k /\ k_KeyHash (f k) = k_KeyHash k) ->
  keys_ok (with_key id f s) /\ abs (with_key id f s) = alter f id (abs s).
Proof.
  intros Hf. unfold with_key. destruct (s.(apiKeysByID) !! id) as [p|] eqn:Hp.
  2:{ split; [done|]. symmetry. apply alter_id. intros k. by rewrite abs_lookup, Hp. }
  assert (L : forall q k, alter f p s.(objs) !! q = Some k ->
    exists k0, s.(objs) !! q = Some k0 /\ k_ID k = k_ID k0 /\ k_KeyHash k = k_KeyHash k0).
  { intros q k. rewrite list_lookup_alter. case_decide; [subst|by intros; exists k].
    rewrite fmap_Some. intros (k0 & Hk0 & ->). destruct (Hf k0). by exists k0. }
  assert (L' : forall q k0, s.(objs) !! q = Some k0 -> exists k, alter f p s.(objs) !! q = Some k).
  { intros q k0 H. rewrite list_lookup_alter. case_decide; subst; rewrite H; cbn; eauto. }
  split.
  - split; cbn.
    + intros i q Hq. destruct (id_ok s W _ _ Hq) as (k0 & H0 & Hi & Hh).
      destruct (L' _ _ H0) as [k Hk]. destruct (L _ _ Hk) as (k1 & H1 & E1 & E2). simplify_eq.
      exists k. by rewrite E1, E2.
    + intros h q Hq. destruct (hash_ok s W _ _ Hq) as (k0 & H0 & Hi & Hh).
      destruct (L' _ _ H0) as [k Hk]. destruct (L _ _ Hk) as (k1 & H1 & E1 & E2). simplify_eq.
      exists k. by rewrite E1, E2.
  - apply map_eq. intros i. rewrite lookup_alter. rewrite !abs_lookup. unfold deref. cbn.
    destruct (decide (id = i)) as [->|Hne].
    + rewrite Hp. cbn. by rewrite list_lookup_alter, decide_True by done.
    + destruct (s.(apiKeysByID) !! i) as [q|] eqn:Hq; cbn; [|done].
      rewrite list_lookup_alter, decide_False; [done|]. intros ->.
      destruct (id_ok s W _ _ Hp) as (k & Hk & Ei & _), (id_ok s W _ _ Hq) as (k' & Hk' & Ei' & _).
      congruence.
Qed.

(** A new object under a hash and an identifier that no other key has. *)
Lemma alloc_ok k h :
  k.(k_KeyHash) = h ->
  (forall k0, abs s !! k0.(k_ID) = Some k0 -> k0.(k_KeyHash) = h -> k0.(k_ID) = k.(k_ID)) ->
  (forall k0, abs s !! k.(k_ID) = Some k0 -> k0.(k_KeyHash) = h) ->
  let s' := s<|objs ::= fun o => o ++ [k]|><|apiKeys ::= <[h := length s.(objs)]>|>
             <|apiKeysByID ::= <[k.(k_ID) := length s.(objs)]>|> in
  keys_ok s' /\ abs s' = <[k.(k_ID) := k]> (abs s).
Proof.
  intros <- Hh Hi s'.
  assert (New : s'.(objs) !! length s.(objs) = Some k) by (apply list_lookup_middle; done).
  assert (Old : forall p, (p < length s.(objs))%nat -> s'.(objs) !! p = s.(objs) !! p)
    by (intros; by apply lookup_app_l).
  assert (EI : s'.(apiKeysByID) = <[k.(k_ID) := length s.(objs)]> s.(apiKeysByID)) by done.
  assert (EH : s'.(apiKeys) = <[k.(k_KeyHash) := length s.(objs)]> s.(apiKeys)) by done.
  clearbody s'. split.
  - split.
    + intros i p. rewrite EI, EH, lookup_insert. case_decide; [intros [= <-]; subst; exists k|].
      * rewrite New, lookup_insert_eq. done.
      * intros Hp. rewrite Old by eauto using byid_lt.
        destruct (id_ok s W _ _ Hp) as (k0 & H0 & E0 & Hh0). exists k0. repeat split; [done..|].
        rewrite lookup_insert_ne; [done|]. intros Eh. subst i. apply H. symmetry. apply Hh; [|done].
        apply abs_Some. eauto.
    + intros h p. rewrite EI, EH, lookup_insert. case_decide; [intros [= <-]; subst; exists k|].
      * rewrite New, lookup_insert_eq. done.
      * intros Hp. rewrite Old by eauto using objs_lt.
        destruct (hash_ok s W _ _ Hp) as (k0 & H0 & E0 & Hid). exists k0. repeat split; [done..|].
        rewrite lookup_insert_ne; [done|]. intros Ei. subst h. apply H. symmetry. apply Hi. apply abs_Some.
        rewrite Ei. eauto.
  - apply map_eq. intros i. rewrite lookup_insert, abs_lookup, EI, lookup_insert.
    case_decide; [exact New|]. rewrite abs_lookup.
    destruct (s.(apiKeysByID) !! i) as [p|] eqn:Hp; [|done]. cbn. unfold deref at 1.
    by apply Old, (byid_lt i).
Qed.
End KeysOk.

Lemma run_op_ok s op :
  keys_ok s -> op_ok (abs s) op = true ->
  keys_ok (run_op s op) /\ abs (run_op s op) = spec_op (abs s) op.
Proof.
  intros W Ok. destruct op; try (apply with_key_ok; [done|]; by intros []); cbn in Ok |- *.
  - apply andb_prop in Ok as [Hid Hh]. apply bool_decide_eq_true in Hid. rewrite forallb_forall in Hh.
    apply alloc_ok; [done|done| |].
    + intros k0 H0 E. exfalso. specialize (Hh (k0.(k_ID), k0)). cbn in Hh. rewrite E, String.eqb_refl in Hh.
      cbn in Hh. discriminate Hh. apply list_elem_of_In, elem_of_map_to_list, H0.
    + intros k0. by rewrite Hid.
  - unfold ms_UpdateAPIKey. rewrite <- abs_lookup. destruct (abs s !! k.(k_ID)) as [k0|] eqn:H0; cbn.
    + apply String.eqb_eq in Ok. rewrite <- Ok.
      replace (alter (fun _ => k) k.(k_ID) (abs s)) with (<[k.(k_ID) := k]> (abs s)).
      2:{ apply map_eq. intros i. rewrite lookup_insert, lookup_alter. case_decide; [subst; by rewrite H0|done]. }
      apply alloc_ok; [done|done| |]; [|intros k1; congruence].
      intros k1 H1 E. pose proof H0 as H0'. rewrite abs_Some in H0', H1.
      destruct H0' as (p0 & P0 & O0), H1 as (p1 & P1 & O1).
      destruct (id_ok s W _ _ P0) as (? & ? & Eid & ?), (id_ok s W _ _ P1) as (? & ? & ? & ?). simplify_eq.
      rewrite E, Ok in *. simplify_eq. congruence.
    + split; [done|]. symmetry. apply alter_id. intros k1. by rewrite H0.
Qed.

Lemma run_ops_ok ops s :
  keys_ok s -> ops_ok (abs s) ops = true ->
  keys_ok (foldl run_op s ops) /\ abs (foldl run_op s ops) = foldl spec_op (abs s) ops.
Proof.
  revert s. induction ops as [|op ops IH]; intros s W; cbn [foldl ops_ok]; [done|].
  intros Ok. apply andb_prop in Ok as [Ok1 Ok2]. destruct (run_op_ok s op W Ok1) as [W' E].
  rewrite <- E in *. by apply IH.
Qed.

(** ** Listing *)

Definition lawful_order (ord : gset string -> list string) : Prop := forall X, ord X ≡ₚ elements X.

Lemma range_perm {V} ord (m : gmap string V) : lawful_order ord -> range ord m ≡ₚ (map_to_list m).*2.
Proof.
  intros Ho. unfold range. rewrite (Ho (dom m)).
  assert (E : elements (dom m) ≡ₚ (map_to_list m).*1).
  { apply NoDup_Permutation; [apply NoDup_elements|apply NoDup_fst_map_to_list|].
    intros x. rewrite elem_of_elements, elem_of_dom, list_elem_of_fmap. split.
    - intros [v Hv]. exists (x, v). split; [done|]. by apply elem_of_map_to_list.
    - intros ([y v] & -> & Hv%elem_of_map_to_list). eauto. }
  rewrite E. clear E.
  assert (G : forall l, (forall p, p ∈ l -> m !! p.1 = Some p.2) -> omap (fun k => m !! k) l.*1 = l.*2).
  { induction l as [|[k v] l IH]; intros Hl; [done|]. cbn.
    rewrite (Hl (k, v) ltac:(set_solver) : m !! k = Some v). cbn. f_equal. apply IH. set_solver. }
  rewrite G; [done|]. intros [k v]. by rewrite elem_of_map_to_list.
Qed.

(** Keys tagged with a field that names them are distinct. *)
Lemma omap_tagged {V} (f : V -> option APIKey) (tag : APIKey -> string) (l : list (string * V)) :
  (forall p, p ∈ l -> exists k, f p.2 = Some k /\ tag k = p.1) -> tag <$> omap f l.*2 = l.*1.
Proof.
  induction l as [|[h v] l IH]; intros H; [done|]. cbn.
  destruct (H (h, v)) as (k & E & T); [set_solver|]. cbn in E, T. rewrite E. cbn. rewrite T.
  f_equal. apply IH. set_solver.
Qed.

(** The objects reached by hash are the keys of the directory. *)
Lemma listed_perm s ord :
  keys_ok s -> lawful_order ord -> omap (deref s) (range ord s.(apiKeys)) ≡ₚ (map_to_list (abs s)).*2.
Proof.
  intros W Ho. rewrite range_perm by done.
  assert (T1 : k_KeyHash <$> omap (deref s) (map_to_list s.(apiKeys)).*2 = (map_to_list s.(apiKeys)).*1).
  { apply omap_tagged. intros [h p] Hp%elem_of_map_to_list. destruct (hash_ok s W _ _ Hp) as (k & ? & ? & ?). eauto. }
  assert (T2 : k_ID <$> (map_to_list (abs s)).*2 = (map_to_list (abs s)).*1).
  { rewrite <- (omap_tagged Some k_ID (map_to_list (abs s))).
    - f_equal. generalize ((map_to_list (abs s)).*2). induction l as [|k l IH]; cbn; [done|by rewrite <- IH].
    - intros [i k] (p & Hp & Hk)%elem_of_map_to_list%abs_Some.
      destruct (id_ok s W _ _ Hp) as (k' & ? & ? & ?). simplify_eq. eauto. }
  apply NoDup_Permutation.
  - apply (NoDup_fmap_1 k_KeyHash). rewrite T1. apply NoDup_fst_map_to_list.
  - apply (NoDup_fmap_1 k_ID). rewrite T2. apply NoDup_fst_map_to_list.
  - intros k. rewrite list_elem_of_omap, list_elem_of_fmap. split.
    + intros (p & Hp & Hk). apply list_elem_of_fmap in Hp as ([h q] & -> & Hh%elem_of_map_to_list).
      exists (k.(k_ID), k). split; [done|]. apply elem_of_map_to_list, (by_hash_abs s W h).
      apply bind_Some. eauto.
    + intros ([i k'] & E & Hi%elem_of_map_to_list). cbn in E. subst k'.
      apply abs_Some in Hi as (p & Hp & Hk). exists p. split; [|done].
      destruct (id_ok s W _ _ Hp) as (k' & ? & ? & Hh). simplify_eq.
      apply list_elem_of_fmap. exists (k.(k_KeyHash), p). split; [done|]. by apply elem_of_map_to_list.
Qed.

(** ** Pages *)

Lemma slice_within {E A} (l : list A) lo hi :
  0 <= lo <= hi -> @slice E A l lo hi = Ok (take (Z.to_nat (hi - lo)) (drop (Z.to_nat lo) l)).
Proof. intros H. unfold slice. replace (0 <=? lo) with true by lia. by replace (lo <=? hi) with true by lia. Qed.

(** Without a limit the page is the whole listing. *)
Lemma paginate_all {A} (l : list A) : paginate 0 0 l = Ok (l, Z.of_nat (length l)).
Proof.
  unfold paginate. destruct (Z.leb_spec (Z.of_nat (length l)) 0).
  - by destruct l.
  - rewrite orb_true_r, slice_within by lia. cbn [outcome_bind]. rewrite drop_0, take_ge by lia. done.
Qed.

(** A page within range is the slice of the listing at its offset. *)
Lemma paginate_page {A} (l : list A) offset limit :
  0 <= offset -> 0 < limit -> offset + limit < two63 ->
  paginate offset limit l = Ok (take (Z.to_nat limit) (drop (Z.to_nat offset) l), Z.of_nat (length l)).
Proof.
  intros Ho Hl Hb. unfold paginate. destruct (Z.leb_spec (Z.of_nat (length l)) offset).
  - rewrite drop_ge by lia. by rewrite take_nil.
  - rewrite wrap64_id by (unfold in_i64, two63 in *; lia). replace (limit =? 0) with false by lia.
    rewrite orb_false_r. destruct (Z.ltb_spec (Z.of_nat (length l)) (offset + limit));
      rewrite slice_within by lia; cbn [outcome_bind].
    + rewrite !take_ge; [done|rewrite length_drop; lia..].
    + by replace (offset + limit - offset) with limit by lia.
Qed.

(** The pages of a client that advances its offset by the limit. *)
Definition pages {A} (limit : Z) (n : nat) (l : list A) : outcome auth_err (list A) :=
  foldr (fun i acc => let! p := paginate (Z.of_nat i * limit) limit l in let! rest := acc in Ok (p.1 ++ rest))
    (Ok []) (seq 0 n).

Lemma pages_from {A} (limit : Z) (l : list A) n i :
  0 < limit -> Z.of_nat (i + n) * limit < two63 ->
  foldr (fun i acc => let! p := paginate (Z.of_nat i * limit) limit l in let! rest := acc in Ok (p.1 ++ rest))
    (Ok []) (seq i n)
  = Ok (take (n * Z.to_nat limit) (drop (i * Z.to_nat limit) l)).
Proof.
  intros Hl. revert i. induction n as [|n IH]; intros i Hb; [done|]. cbn [seq foldr].
  rewrite paginate_page by nia. cbn [outcome_bind]. rewrite IH by lia. cbn [outcome_bind fst].
  f_equal. replace (Z.to_nat (Z.of_nat i * limit)) with (i * Z.to_nat limit)%nat by lia.
  replace (S i * Z.to_nat limit)%nat with (i * Z.to_nat limit + Z.to_nat limit)%nat by lia.
  rewrite <- drop_drop, take_take_drop. f_equal; lia.
Qed.

(** Paging through a listing with a fixed positive limit, the offset advanced
    by the limit each time, gives back the listing: no entry is lost or repeated
    between pages, and no page panics. *)
Theorem pages_tile {A} (l : list A) limit n :
  0 < limit -> Z.of_nat (length l) <= Z.of_nat n * limit < two63 -> pages limit n l = Ok l.
Proof.
  intros Hl Hb. unfold pages. rewrite pages_from by lia. cbn [Nat.mul]. rewrite drop_0, take_ge; [done|nia].
Qed.

Lemma pages_tile_witness : 0 < 2 /\ pages 2 3 ["a"; "b"; "c"; "d"; "e"] = Ok ["a"; "b"; "c"; "d"; "e"].
Proof. split; [done|]. apply (pages_tile ["a"; "b"; "c"; "d"; "e"] 2 3); [done|]. by vm_compute. Defined.

(** A negative offset, which the handlers pass on from the query string, panics
    on every listing, the empty one included. *)
Theorem negative_offset_panics {A} (l : list A) offset limit :
  offset < 0 -> paginate offset limit l = Panic.
Proof.
  intros H. unfold paginate, slice. replace (0 <=? offset) with false by lia.
  destruct (Z.leb_spec (Z.of_nat (length l)) offset); [lia|done].
Qed.

(** ** The directory *)


Definition key_named (id hash : string) : APIKey :=
  {| k_ID := id; k_KeyHash := hash; k_KeyPrefix := ""; k_Name := ""; k_KeyAlias := None; k_TeamID := None;
     k_UserID := None; k_OrganizationID := None; k_AllowedModels := []; k_KeyType := ""; k_TPMLimit := None;
     k_RPMLimit := None; k_MaxParallelRequests := None; k_ModelTPMLimit := None; k_ModelRPMLimit := None;
     k_MaxBudget := fzero; k_SoftBudget := None; k_SpentBudget := fzero; k_ModelMaxBudget := None;
     k_ModelSpend := None; k_BudgetDuration := ""; k_BudgetResetAt := None; k_Metadata := None; k_IsActive := true;
     k_Blocked := false; k_CreatedAt := 0; k_UpdatedAt := 0; k_ExpiresAt := None; k_LastUsedAt := None |}.

Definition no_filter : APIKeyFilter :=
  {| kf_TeamID := None; kf_UserID := None; kf_OrganizationID := None; kf_KeyType := None; kf_IsActive := None;
     kf_Blocked := None; kf_Limit := 0; kf_Offset := 0 |}.

Lemma elements_lawful : lawful_order elements.
Proof. by intros X. Qed.

Definition two_keys : list key_op :=
  [KCreate (key_named "k1" "h1"); KCreate (key_named "k2" "h2"); KUpdate (key_named "k1" "h1")<|k_Name := "renamed"|>;
   KSpend "k1" fone; KDelete "k2"].

