(* ===== verification/KeyUtils.v ===== *)
(** * API key credentials and durations ([internal/auth/hasher.go], [key_utils.go])

    The hash and the encodings of the Go library are the class [Crypto]; random
    bytes are an argument. *)
From Stdlib Require Import Ascii.
From stdpp Require Import pretty.
From S2P Require Import Prelude ModelName.

#[local] Abbreviation explode := String.list_ascii_of_string.
#[local] Abbreviation implode := String.string_of_list_ascii.

(** [hex.EncodeToString(sha256.Sum256(key))] and [base64.RawURLEncoding]. *)
Class Crypto := {
  sha256_hex : string -> string;
  base64url : string -> string;
}.

Definition KeyPrefixLength : nat := 8.
Definition KeyLength : nat := 32.
Definition DefaultKeyPrefix := "llmux_".

Definition HashKey `{Crypto} (key : string) : string := sha256_hex key.

(** [random] is what [rand.Read] filled the buffer with, [None] when it failed. *)
Definition GenerateAPIKey `{Crypto} (random : option string) : option (string * string) :=
  match random with
  | None => None
  | Some randomBytes =>
      let fullKey := DefaultKeyPrefix +:+ base64url randomBytes in Some (fullKey, HashKey fullKey)
  end.

Definition VerifyKey `{Crypto} (key hash : string) : bool := String.eqb (HashKey key) hash.

Definition ExtractKeyPrefix (key : string) : string :=
  if (String.length key <=? KeyPrefixLength)%nat then key else String.substring 0 KeyPrefixLength key.

Inductive header_error := HeaderEmpty | BearerEmpty.

(** [strings.HasPrefix(header, "Bearer ")] with what [strings.TrimPrefix] leaves. *)
Definition strip_bearer (header : string) : option string := implode <$> strip_prefix (explode "Bearer ") (explode header).

Definition ParseAuthHeader (header : string) : header_error + string :=
  if String.eqb header "" then inl HeaderEmpty
  else match strip_bearer header with
       | Some key => let key := TrimSpace key in if String.eqb key "" then inl BearerEmpty else inr key
       | None => inr (TrimSpace header)
       end.

Definition MaskKey (key : string) : string :=
  if (String.length key <=? 12)%nat then "***"
  else String.substring 0 8 key +:+ "..." +:+ String.substring (String.length key - 4) 4 key.

(** ** Durations *)

Definition digit (c : ascii) : option Z :=
  let n := Z.of_N (N_of_ascii c) in if (48 <=? n) && (n <=? 57) then Some (n - 48) else None.

(** The loop: the number before the first byte that is not a digit, and the rest. *)
Fixpoint scan_number (value : Z) (l : list ascii) : Z * list ascii :=
  match l with
  | [] => (value, [])
  | c :: l' =>
      match digit c with
      | Some d => scan_number (wrap64 (value * 10) +! d) l'
      | None => (value, l)
      end
  end.

Definition unit_seconds (unit : string) : Z :=
  let is_one_of := existsb (String.eqb unit) in
  if is_one_of ["s"; "sec"; "second"; "seconds"] then 1
  else if is_one_of ["m"; "min"; "minute"; "minutes"] then 60
  else if is_one_of ["h"; "hr"; "hour"; "hours"] then 3600
  else if is_one_of ["d"; "day"; "days"] then 86400
  else if is_one_of ["w"; "week"; "weeks"] then 604800
  else if is_one_of ["mo"; "month"; "months"] then 2592000
  else if is_one_of ["y"; "year"; "years"] then 31536000
  else 0.

Definition DurationInSeconds (duration : string) : Z :=
  let '(value, unit) := scan_number 0 (explode duration) in
  wrap64 (value * unit_seconds (implode unit)).

(** [time.Now().Add(time.Duration(seconds) * time.Second)] *)
Definition in_seconds (now : time) (seconds : Z) : time := time_add now (wrap64 (seconds * Second)).

Definition ParseDuration (now : time) (duration : string) : option time :=
  if String.eqb duration "" || String.eqb duration "-1" then None
  else
    let seconds := DurationInSeconds duration in
    if seconds <=? 0 then None else Some (in_seconds now seconds).

Definition CalculateRotationTime (now : time) (interval : string) : option time :=
  let seconds := DurationInSeconds interval in
  if seconds <=? 0 then None else Some (in_seconds now seconds).

(** ** Printing and parsing *)

Lemma wrap64_mul_l a b : wrap64 (wrap64 a * b) = wrap64 (a * b).
Proof.
  unfold wrap64 at 1 3. f_equal.
  assert (E : exists q, wrap64 a = a + q * two64).
  { exists (- ((a + two63) / two64)). unfold wrap64. pose proof (Z.div_mod (a + two63) two64 ltac:(done)). lia. }
  destruct E as [q ->].
  replace ((a + q * two64) * b + two63) with (a * b + two63 + (q * b) * two64) by ring.
  by rewrite Z.mod_add by done.
Qed.

Lemma digit_pretty (n : N) : (n < 10)%N -> digit (pretty_N_char n) = Some (Z.of_N n).
Proof.
  intros H. assert (n ∈ [0; 1; 2; 3; 4; 5; 6; 7; 8; 9]%N) as Hn.
  { rewrite !elem_of_cons. lia. }
  repeat (apply elem_of_cons in Hn as [->|Hn]; [done|]). by apply elem_of_nil in Hn.
Qed.

(** Scanning the digits of [x] in front of [s] is scanning [s] from [x]. *)
Lemma scan_pretty (x : N) (s : string) :
  scan_number 0 (explode (pretty_N_go x s)) = scan_number (wrap64 (Z.of_N x)) (explode s).
Proof.
  revert s. induction (N.lt_wf_0 x) as [x _ IH]; intros s.
  destruct (decide (x = 0)%N) as [->|Hx]; [by rewrite pretty_N_go_0|].
  rewrite pretty_N_go_step by lia. rewrite IH by (apply N.div_lt; lia). cbn [explode].
  cbn [scan_number]. rewrite digit_pretty by (apply N.mod_lt; lia). f_equal.
  rewrite wrap64_mul_l, wrap64_add_l. f_equal.
  rewrite N2Z.inj_div, N2Z.inj_mod. pose proof (Z.div_mod (Z.of_N x) 10). lia.
Qed.

Lemma scan_stop v l : (forall c l', l = c :: l' -> digit c = None) -> scan_number v l = (v, l).
Proof. destruct l as [|c l]; [done|]. intros H. cbn. by rewrite (H c l eq_refl). Qed.

Lemma pretty_go_app (x : N) (s t : string) : pretty_N_go x s +:+ t = pretty_N_go x (s +:+ t).
Proof.
  revert s. induction (N.lt_wf_0 x) as [x _ IH]; intros s.
  destruct (decide (x = 0)%N) as [->|Hx]; [by rewrite !pretty_N_go_0|].
  rewrite (pretty_N_go_step x s), (pretty_N_go_step x (s +:+ t)) by lia. by rewrite IH by (apply N.div_lt; lia).
Qed.

Lemma scan_pretty_unit (n : N) (unit : string) :
  scan_number 0 (explode (pretty n +:+ unit)) = scan_number (wrap64 (Z.of_N n)) (explode unit).
Proof.
  unfold pretty, pretty_N. case_decide; [by subst|]. rewrite pretty_go_app. apply scan_pretty.
Qed.

Definition unit_names : list string :=
  ["s"; "sec"; "second"; "seconds"; "m"; "min"; "minute"; "minutes"; "h"; "hr"; "hour"; "hours"; "d"; "day"; "days";
   "w"; "week"; "weeks"; "mo"; "month"; "months"; "y"; "year"; "years"].

Lemma unit_named unit : unit_seconds unit <> 0 -> unit ∈ unit_names.
Proof.
  unfold unit_seconds. intros H.
  repeat match type of H with
  | (if existsb ?f ?l then _ else _) <> _ => destruct (existsb f l) eqn:?
  end; [..|done];
  match goal with E : existsb _ _ = true |- _ =>
    apply existsb_exists in E as (x & Hx & E); apply String.eqb_eq in E; subst x;
    apply list_elem_of_In in Hx; unfold unit_names; set_solver end.
Qed.

Lemma unit_scan v unit : unit_seconds unit <> 0 -> scan_number v (explode unit) = (v, explode unit).
Proof.
  intros H%unit_named. repeat (apply elem_of_cons in H as [->|H]; [done|]). by apply elem_of_nil in H.
Qed.

(** A duration printed as a decimal number followed by a unit is read back as
    that many seconds, as long as they fit in 64 bits. *)
Theorem duration_roundtrip (n : N) (unit : string) :
  unit_seconds unit <> 0 -> Z.of_N n * unit_seconds unit < two63 ->
  DurationInSeconds (pretty n +:+ unit) = Z.of_N n * unit_seconds unit.
Proof.
  intros Hu Hn. unfold DurationInSeconds. rewrite scan_pretty_unit, unit_scan by done.
  rewrite implode_explode, wrap64_mul_l. apply wrap64_id.
  assert (0 <= unit_seconds unit) by (unfold unit_seconds; repeat case_match; lia).
  unfold in_i64, two63 in *. nia.
Qed.

Lemma duration_roundtrip_witness : DurationInSeconds (pretty 30%N +:+ "d") = 30 * 86400.
Proof. apply (duration_roundtrip 30 "d"); by vm_compute. Defined.

(** ** Headers *)

(** What a client sends is what is looked up: a key without surrounding space
    is read from "Bearer <key>" unchanged, and from a bare header unless it itself
    starts with "Bearer ". *)
Theorem auth_header_roundtrip key :
  key <> "" -> trimmed (explode key) ->
  ParseAuthHeader ("Bearer " +:+ key) = inr key
  /\ (strip_bearer key = None -> ParseAuthHeader key = inr key).
Proof.
  intros Hne Ht. unfold ParseAuthHeader. split.
  - assert (E : strip_bearer ("Bearer " +:+ key) = Some key).
    { unfold strip_bearer. rewrite explode_app.
      rewrite (proj2 (strip_prefix_Some _ _ (explode key))) by done. cbn. by rewrite implode_explode. }
    rewrite E, TrimSpace_trimmed_eq by done. destruct (String.eqb_spec key ""); done.
  - intros ->. rewrite TrimSpace_trimmed_eq by done. destruct (String.eqb_spec key ""); done.
Qed.

Lemma auth_header_roundtrip_witness :
  ParseAuthHeader "Bearer llmux_k" = inr "llmux_k" /\ ParseAuthHeader "llmux_k" = inr "llmux_k".
Proof.
  destruct (auth_header_roundtrip "llmux_k") as [H1 H2]; [done|by vm_compute|].
  split; [exact H1|by apply H2].
Defined.
