(* ===== verification/KeyManagement.v ===== *)
(** * Management of API keys ([internal/api/management.go])

    The handlers of [/key/*] over the storage interface.  A request is what the
    JSON decoder made of the body, [None] when it failed; a response is its status
    and its payload before encoding and translation.  The instants, the new
    identifier and the new credentials that a handler asks for are arguments. *)
From S2P Require Import Prelude Float64 AuthTypes AuthStore KeyUtils.

(** [Time.Format(time.RFC3339)] and [time.Parse(time.RFC3339, _)]. *)
Class RFC3339 := {
  Format : time -> string;
  Parse : string -> option time;
}.

(** The text keeps the instant down to the second, in years of four digits. *)
Definition four_digit_year (t : time) : Prop := 0 <= t < 253402300800 * Second.

Class RFC3339Laws `{RFC3339} : Prop := {
  Parse_Format t : four_digit_year t -> Parse (Format t) = Some (unix t * Second);
}.

Record GenerateKeyRequest := {
  gq_Name : string;
  gq_KeyAlias : option string;
  gq_TeamID : option string;
  gq_UserID : option string;
  gq_OrganizationID : option string;
  gq_Models : list string;
  gq_MaxBudget : option f64;
  gq_SoftBudget : option f64;
  gq_BudgetDuration : string;
  gq_TPMLimit : option Z;
  gq_RPMLimit : option Z;
  gq_MaxParallelReqs : option Z;
  gq_ModelMaxBudget : nmap f64;
  gq_ModelTPMLimit : nmap Z;
  gq_ModelRPMLimit : nmap Z;
  gq_Duration : string;
  gq_Metadata : Metadata;
  gq_KeyType : string;
  gq_AutoRotate : bool;
  gq_RotationInterval : string;
}.

Record GenerateKeyResponse := {
  gr_Key : string;
  gr_KeyID : string;
  gr_KeyPrefix : string;
  gr_Name : string;
  gr_KeyAlias : option string;
  gr_TeamID : option string;
  gr_UserID : option string;
  gr_OrganizationID : option string;
  gr_Models : list string;
  gr_MaxBudget : f64;
  gr_SoftBudget : option f64;
  gr_TPMLimit : option Z;
  gr_RPMLimit : option Z;
  gr_ExpiresAt : option time;
  gr_CreatedAt : time;
}.

(** [gk_Models] is [None] when the field is absent or null. *)
Record UpdateKeyRequest := {
  gk_Key : string;
  gk_Name : option string;
  gk_KeyAlias : option string;
  gk_Models : option (list string);
  gk_MaxBudget : option f64;
  gk_SoftBudget : option f64;
  gk_BudgetDuration : option string;
  gk_TPMLimit : option Z;
  gk_RPMLimit : option Z;
  gk_MaxParallelReqs : option Z;
  gk_ModelMaxBudget : nmap f64;
  gk_Metadata : Metadata;
  gk_Duration : option string;
  gk_AutoRotate : option bool;
  gk_RotationInterval : option string;
}.

Inductive response :=
| RError (status : Z) (message : string)
| RGenerated (r : GenerateKeyResponse)
| RKey (k : APIKey)
| RDeleted (ids : list string)
| RList (data : list APIKey) (total : Z)
| RStatus (status : string).

Definition ensureMetadata (m : Metadata) : Metadata := Some (default ∅ m).

Definition mergeMetadata (existing updated : Metadata) : Metadata :=
  match existing, updated with
  | None, _ => updated
  | Some e, Some u => Some (u ∪ e)
  | Some e, None => Some e
  end.

(** [m[k] = v] on a map that is not nil. *)
Definition set_meta (k : string) (v : any) (m : Metadata) : Metadata := <[k := v]> <$> m.

Definition get_string (m : Metadata) (k : string) : option string :=
  match nget m k with Some (AString s) => Some s | _ => None end.

Definition get_bool (m : Metadata) (k : string) : option bool :=
  match nget m k with Some (ABool b) => Some b | _ => None end.

Definition generated (rawKey : string) (k : APIKey) : GenerateKeyResponse :=
  {| gr_Key := rawKey; gr_KeyID := k.(k_ID); gr_KeyPrefix := k.(k_KeyPrefix); gr_Name := k.(k_Name);
     gr_KeyAlias := k.(k_KeyAlias); gr_TeamID := k.(k_TeamID); gr_UserID := k.(k_UserID);
     gr_OrganizationID := k.(k_OrganizationID); gr_Models := k.(k_AllowedModels); gr_MaxBudget := k.(k_MaxBudget);
     gr_SoftBudget := k.(k_SoftBudget); gr_TPMLimit := k.(k_TPMLimit); gr_RPMLimit := k.(k_RPMLimit);
     gr_ExpiresAt := k.(k_ExpiresAt); gr_CreatedAt := k.(k_CreatedAt) |}.

(** The instants a handler reads: its own, and those read by the computations of
    the budget reset, of the expiry and of the rotation. *)
Record clocks := { now : time; now_reset : time; now_expiry : time; now_rotation : time }.

Section Handlers.
Context {S : Type} `{AuthStore S} `{RFC3339}.

(** [rotationAt] of the interval, written as text when there is one. *)
Definition schedule_rotation (t : time) (interval : string) (m : Metadata) : Metadata :=
  match CalculateRotationTime t interval with
  | Some rotationAt => set_meta "key_rotation_at" (AString (Format rotationAt)) m
  | None => m
  end.

Definition new_key (c : clocks) (uuid rawKey keyHash : string) (req : GenerateKeyRequest) : APIKey :=
  let key := {| k_ID := uuid; k_KeyHash := keyHash; k_KeyPrefix := ExtractKeyPrefix rawKey; k_Name := req.(gq_Name);
     k_KeyAlias := req.(gq_KeyAlias); k_TeamID := req.(gq_TeamID); k_UserID := req.(gq_UserID);
     k_OrganizationID := req.(gq_OrganizationID); k_AllowedModels := req.(gq_Models); k_KeyType := "";
     k_TPMLimit := req.(gq_TPMLimit); k_RPMLimit := req.(gq_RPMLimit);
     k_MaxParallelRequests := req.(gq_MaxParallelReqs); k_ModelTPMLimit := req.(gq_ModelTPMLimit);
     k_ModelRPMLimit := req.(gq_ModelRPMLimit); k_MaxBudget := fzero; k_SoftBudget := None; k_SpentBudget := fzero;
     k_ModelMaxBudget := req.(gq_ModelMaxBudget); k_ModelSpend := None; k_BudgetDuration := "";
     k_BudgetResetAt := None; k_Metadata := req.(gq_Metadata); k_IsActive := true; k_Blocked := false;
     k_CreatedAt := c.(now); k_UpdatedAt := c.(now); k_ExpiresAt := None; k_LastUsedAt := None |} in
  let key := match req.(gq_MaxBudget) with Some b => key<|k_MaxBudget := b|> | None => key end in
  let key := match req.(gq_SoftBudget) with Some b => key<|k_SoftBudget := Some b|> | None => key end in
  let key :=
    if String.eqb req.(gq_BudgetDuration) "" then key
    else key<|k_BudgetDuration := req.(gq_BudgetDuration)|>
            <|k_BudgetResetAt := NextResetTime c.(now_reset) req.(gq_BudgetDuration)|> in
  let key :=
    if String.eqb req.(gq_Duration) "" then key
    else match ParseDuration c.(now_expiry) req.(gq_Duration) with
         | Some expiry => key<|k_ExpiresAt := Some expiry|>
         | None => key
         end in
  let key := if String.eqb req.(gq_KeyType) "" then key else key<|k_KeyType := req.(gq_KeyType)|> in
  if req.(gq_AutoRotate) && negb (String.eqb req.(gq_RotationInterval) "")
  then key<|k_Metadata ::= fun m =>
              schedule_rotation c.(now_rotation) req.(gq_RotationInterval)
                (set_meta "rotation_interval" (AString req.(gq_RotationInterval))
                   (set_meta "auto_rotate" (ABool true) (ensureMetadata m)))|>
  else key.

(** [creds] is the result of [GenerateAPIKey]. *)
Definition GenerateKey (c : clocks) (uuid : string) (creds : option (string * string))
  (req : option GenerateKeyRequest) (s : S) : S * response :=
  match req with
  | None => (s, RError 400 "invalid request body")
  | Some req =>
      match creds with
      | None => (s, RError 500 "failed to generate api key")
      | Some (rawKey, keyHash) =>
          let key := new_key c uuid rawKey keyHash req in
          match CreateAPIKey key s with
          | (s, Some _) => (s, RError 500 "failed to create api key")
          | (s, None) => (s, RGenerated (generated rawKey key))
          end
      end
  end.

(** [if x != nil { key.F = *x }] *)
Definition if_set {A B : Type} (x : option A) (f : A -> B -> B) (k : B) : B :=
  match x with Some a => f a k | None => k end.

(** The fields copied from the request, then the expiry, the rotation and the time of the update. *)
Definition copy_fields (c : clocks) (req : UpdateKeyRequest) (key : APIKey) : APIKey :=
  let key := if_set req.(gk_Name) (fun x k => k<|k_Name := x|>) key in
  let key := if_set req.(gk_KeyAlias) (fun x k => k<|k_KeyAlias := Some x|>) key in
  let key := if_set req.(gk_Models) (fun x k => k<|k_AllowedModels := x|>) key in
  let key := if_set req.(gk_MaxBudget) (fun x k => k<|k_MaxBudget := x|>) key in
  let key := if_set req.(gk_SoftBudget) (fun x k => k<|k_SoftBudget := Some x|>) key in
  let key := if_set req.(gk_BudgetDuration)
               (fun x k => k<|k_BudgetDuration := x|><|k_BudgetResetAt := NextResetTime c.(now_reset) x|>) key in
  let key := if_set req.(gk_TPMLimit) (fun x k => k<|k_TPMLimit := Some x|>) key in
  let key := if_set req.(gk_RPMLimit) (fun x k => k<|k_RPMLimit := Some x|>) key in
  let key := if_set req.(gk_MaxParallelReqs) (fun x k => k<|k_MaxParallelRequests := Some x|>) key in
  let key := if_set req.(gk_ModelMaxBudget) (fun x k => k<|k_ModelMaxBudget := Some x|>) key in
  if_set req.(gk_Metadata) (fun x k => k<|k_Metadata ::= fun m => mergeMetadata m (Some x)|>) key.

Definition update_fields (c : clocks) (req : UpdateKeyRequest) (key : APIKey) : APIKey :=
  let key := copy_fields c req key in
  let key := if_set req.(gk_Duration) (fun x k => k<|k_ExpiresAt := ParseDuration c.(now_expiry) x|>) key in
  let key := if_set req.(gk_AutoRotate) (fun auto k =>
               k<|k_Metadata ::= fun m =>
                    let m := set_meta "auto_rotate" (ABool auto) (ensureMetadata m) in
                    match auto, req.(gk_RotationInterval) with
                    | true, Some interval =>
                        schedule_rotation c.(now_rotation) interval (set_meta "rotation_interval" (AString interval) m)
                    | _, _ => m
                    end|>) key in
  key<|k_UpdatedAt := c.(now)|>.

(** [UpdateKey] reads the key, computes, and writes it back: two calls to the
    store with nothing held in between. *)
Definition UpdateKey_read (req : option UpdateKeyRequest) (s : S) : response + (UpdateKeyRequest * APIKey) :=
  match req with
  | None => inl (RError 400 "invalid request body")
  | Some req =>
      if String.eqb req.(gk_Key) "" then inl (RError 400 "key is required")
      else match GetAPIKeyByID req.(gk_Key) s with
           | inr (Some key) => inr (req, key)
           | _ => inl (RError 404 "key not found")
           end
  end.

Definition UpdateKey_write (c : clocks) (req : UpdateKeyRequest) (key : APIKey) (s : S) : S * response :=
  let key := update_fields c req key in
  match UpdateAPIKey key s with
  | (s, Some _) => (s, RError 500 "failed to update api key")
  | (s, None) => (s, RKey key)
  end.

Definition UpdateKey (c : clocks) (req : option UpdateKeyRequest) (s : S) : S * response :=
  match UpdateKey_read req s with
  | inl r => (s, r)
  | inr (req, key) => UpdateKey_write c req key s
  end.

Definition DeleteKey (req : option (list string)) (s : S) : S * response :=
  match req with
  | None => (s, RError 400 "invalid request body")
  | Some [] => (s, RError 400 "keys is required")
  | Some keys =>
      let '(s, deleted) := foldl (fun '(s, deleted) keyID =>
        match DeleteAPIKey keyID s with
        | (s, Some _) => (s, deleted)
        | (s, None) => (s, deleted ++ [keyID])
        end) (s, []) keys in
      (s, RDeleted deleted)
  end.

Definition GetKeyInfo (keyID : string) (s : S) : response :=
  if String.eqb keyID "" then RError 400 "key parameter is required"
  else match GetAPIKeyByID keyID s with
       | inl _ => RError 500 "failed to get key info"
       | inr None => RError 404 "key not found"
       | inr (Some key) => RKey key
       end.

(** [limit] and [offset] are the results of [strconv.Atoi], [None] on error. *)
Definition ListKeys (teamID userID : string) (limit offset : option Z) (s : S) : outcome unit response :=
  let limit := default 0 limit in
  let offset := default 0 offset in
  let limit := if limit <=? 0 then 50 else limit in
  let opt x := if String.eqb x "" then None else Some x in
  let filter := {| kf_TeamID := opt teamID; kf_UserID := opt userID; kf_OrganizationID := None; kf_KeyType := None;
                   kf_IsActive := None; kf_Blocked := None; kf_Limit := limit; kf_Offset := offset |} in
  match ListAPIKeys filter s with
  | Ok (keys, total) => Ok (RList keys total)
  | Err _ => Ok (RError 500 "failed to list keys")
  | Panic => Panic
  end.

Definition BlockKey (req : option string) (s : S) : S * response :=
  match req with
  | None => (s, RError 400 "invalid request body")
  | Some key => match BlockAPIKey key true s with
                | (s, Some _) => (s, RError 500 "failed to block key")
                | (s, None) => (s, RStatus "blocked")
                end
  end.

Definition UnblockKey (req : option string) (s : S) : S * response :=
  match req with
  | None => (s, RError 400 "invalid request body")
  | Some key => match BlockAPIKey key false s with
                | (s, Some _) => (s, RError 500 "failed to unblock key")
                | (s, None) => (s, RStatus "unblocked")
                end
  end.

(** The count of a key is read at any numeric type. *)
Definition rotation_count (m : Metadata) : Z :=
  match nget m "rotation_count" with Some (AInt n) => n | Some (AFloat x) => int_of_f64 x | _ => 0 end.

Definition regenerate (c : clocks) (rawKey keyHash : string) (key : APIKey) : APIKey :=
  key<|k_KeyHash := keyHash|><|k_KeyPrefix := ExtractKeyPrefix rawKey|><|k_UpdatedAt := c.(now)|>
     <|k_Metadata ::= fun m =>
         let m := ensureMetadata m in
         let m := set_meta "rotation_count" (AInt (rotation_count m +! 1)) m in
         let m := set_meta "last_rotation_at" (AString (Format c.(now))) m in
         match get_bool m "auto_rotate", get_string m "rotation_interval" with
         | Some true, Some interval => schedule_rotation c.(now_rotation) interval m
         | _, _ => m
         end|>.

Definition RegenerateKey (c : clocks) (creds : option (string * string)) (req : option string) (s : S) : S * response :=
  match req with
  | None => (s, RError 400 "invalid request body")
  | Some id =>
      match GetAPIKeyByID id s with
      | inr (Some oldKey) =>
          match creds with
          | None => (s, RError 500 "failed to generate api key")
          | Some (rawKey, keyHash) =>
              let key := regenerate c rawKey keyHash oldKey in
              match UpdateAPIKey key s with
              | (s, Some _) => (s, RError 500 "failed to regenerate key")
              | (s, None) => (s, RGenerated (generated rawKey key))
              end
          end
      | _ => (s, RError 404 "key not found")
      end
  end.
End Handlers.
