(* ===== verification/ModelAccess.v ===== *)
(** * Model permissions ([internal/auth/model_access.go], [casbin.go])

    The permissions of a request for a model: the lists of the key, of its team,
    its user and its organization, or the policies of a Casbin engine when one is
    configured.  The engine is a class: its operations, and what its
    documentation says of them for the policy model of [casbin.go]. *)
From Stdlib Require Import Ascii.
From S2P Require Import Prelude Float64 AuthTypes AuthStore.

(** ** Subjects, objects, actions *)

Definition KeySub (keyID : string) : string := "key:" +:+ keyID.
Definition TeamSub (teamID : string) : string := "team:" +:+ teamID.
Definition UserSub (userID : string) : string := "user:" +:+ userID.
Definition OrgSub (orgID : string) : string := "org:" +:+ orgID.
Definition RoleSub (role : string) : string := "role:" +:+ role.
Definition ModelObj (modelName : string) : string := "model:" +:+ modelName.
Definition PathObj (path : string) : string := path.
Definition ActionUse : string := "use".

(** [strings.ToUpper] of a method, which is ASCII. *)
Definition upper (c : ascii) : ascii :=
  let n := N_of_ascii c in if ((97 <=? n) && (n <=? 122))%N then ascii_of_N (n - 32) else c.

Definition ActionMethod (method : string) : string :=
  String.string_of_list_ascii (map upper (String.list_ascii_of_string method)).

(** ** The policy engine *)

Record policy := { p_sub : string; p_obj : string; p_act : string }.

#[export] Instance policy_eq_dec : EqDecision policy.
Proof. solve_decision. Defined.

(** The results of the additions are discarded by every caller. *)
Class CasbinEngine (E : Type) := {
  casbin_Enforce : string -> string -> string -> E -> option bool;  (* [None] is an error *)
  casbin_AddPolicy : policy -> E -> E;
  casbin_AddGroupingPolicy : string -> string -> E -> E;
  keyMatch : string -> string -> bool;
}.

(** The matcher of the policy model, [g] being the role relation. *)
Definition matcher (g : string -> string -> bool) (km : string -> string -> bool) (sub obj act : string) (p : policy) : bool :=
  g sub p.(p_sub)
  && (String.eqb obj p.(p_obj) || String.eqb p.(p_obj) "*" || km obj p.(p_obj))
  && (String.eqb act p.(p_act) || String.eqb p.(p_act) "*").

(** With this model a request is allowed when some policy matches it; policies
    accumulate, and a subject has itself and what it was grouped under as roles,
    transitively. *)
Class CasbinLaws (E : Type) `{CasbinEngine E} := {
  policies : E -> list policy;
  has_role : E -> string -> string -> bool;
  Enforce_spec sub obj act e :
    casbin_Enforce sub obj act e = Some (existsb (matcher (has_role e) keyMatch sub obj act) (policies e));
  AddPolicy_policies p q e : q ∈ policies (casbin_AddPolicy p e) <-> q = p \/ q ∈ policies e;
  AddPolicy_role p e : has_role (casbin_AddPolicy p e) = has_role e;
  Grouping_policies a b q e : q ∈ policies (casbin_AddGroupingPolicy a b e) <-> q ∈ policies e;
  role_refl e a : has_role e a a = true;
  role_add e a b : has_role (casbin_AddGroupingPolicy a b e) a b = true;
  role_mono e a b x y : has_role e x y = true -> has_role (casbin_AddGroupingPolicy a b e) x y = true;
  role_inv e a b x y :
    has_role (casbin_AddGroupingPolicy a b e) x y = true ->
    has_role e x y = true \/ has_role e x a = true /\ has_role e b y = true;
}.

Section Casbin.
Context {E : Type} `{CasbinEngine E}.

Definition Enforce (sub obj act : string) (e : E) : option bool := casbin_Enforce sub obj act e.

Definition AddPolicy (sub obj act : string) (e : E) : E :=
  casbin_AddPolicy {| p_sub := sub; p_obj := obj; p_act := act |} e.

Definition AddRoleForUser (user role : string) (e : E) : E := casbin_AddGroupingPolicy user role e.
Definition AddGroupingPolicy (sub group : string) (e : E) : E := casbin_AddGroupingPolicy sub group e.

Definition AddDefaultPolicies (e : E) : E :=
  let e := AddPolicy (RoleSub "proxy_admin") "*" "*" e in
  let e := AddPolicy (RoleSub "proxy_admin_viewer") "*" "GET" e in
  let e := AddPolicy (RoleSub "proxy_admin_viewer") "*" "HEAD" e in
  let e := AddPolicy (RoleSub KeyTypeManagement) "*" "*" e in
  let e := AddPolicy (RoleSub KeyTypeReadOnly) "/v1/models" "GET" e in
  let e := AddPolicy (RoleSub KeyTypeLLMAPI) "/v1/chat/completions" "POST" e in
  let e := AddPolicy (RoleSub KeyTypeLLMAPI) "/v1/completions" "POST" e in
  let e := AddPolicy (RoleSub KeyTypeLLMAPI) "/v1/embeddings" "POST" e in
  AddPolicy (RoleSub KeyTypeLLMAPI) "/embeddings" "POST" e.

(** What the middleware and the governance engine do before they ask: the key is
    given its roles, and its list of models becomes policies. *)
Definition sync_key (key : APIKey) (team : option Team) (user : option User) (e : E) : E :=
  let sub := KeySub key.(k_ID) in
  let e := AddRoleForUser sub (RoleSub key.(k_KeyType)) e in
  let e := match team with Some t => AddGroupingPolicy sub (TeamSub t.(t_ID)) e | None => e end in
  let e := match user with Some u => AddGroupingPolicy sub (UserSub u.(u_ID)) e | None => e end in
  match key.(k_AllowedModels) with
  | [] => AddPolicy sub (ModelObj "*") ActionUse e
  | models => foldl (fun e am => AddPolicy sub (ModelObj am) ActionUse e) e models
  end.
End Casbin.

(** ** Lists of models *)

Record ModelAccess := {
  ma_apiKey : option APIKey;
  ma_team : option Team;
  ma_user : option User;
  ma_organization : option Organization;
}.

Section Access.
Context {S : Type} `{AuthStore S}.

(** [store] may be nil. *)
Definition NewModelAccess (store : option S) (authCtx : option AuthContext) : auth_err + option ModelAccess :=
  match authCtx with
  | None => inr None
  | Some a =>
      let user :=
        match a.(a_User), a.(a_APIKey) ≫= k_UserID, store with
        | None, Some userID, Some s => GetUser userID s
        | u, _, _ => inr u
        end in
      match user with
      | inl err => inl err
      | inr user =>
          let orgID := default "" (a.(a_APIKey) ≫= k_OrganizationID) in
          let orgID := if String.eqb orgID "" then default "" (user ≫= u_OrganizationID) else orgID in
          let org := match store with
                     | Some s => if String.eqb orgID "" then inr None else GetOrganization orgID s
                     | None => inr None
                     end in
          match org with
          | inl err => inl err
          | inr org => inr (Some {| ma_apiKey := a.(a_APIKey); ma_team := a.(a_Team); ma_user := user;
                                    ma_organization := org |})
          end
      end
  end.

Definition Allows (a : option ModelAccess) (model : string) : bool :=
  match a with
  | None => true
  | Some a =>
      if String.eqb model "" then true
      else if match a.(ma_apiKey) with Some k => negb (Key_CanAccessModel k model) | None => false end then false
      else if match a.(ma_team) with Some t => negb (Team_CanAccessModel t model) | None => false end then false
      else if match a.(ma_user) with Some u => negb (User_CanAccessModel u model) | None => false end then false
      else if match a.(ma_organization) with Some o => negb (Org_CanAccessModel o model) | None => false end then false
      else true
  end.
End Access.

(** ** What the policies grant *)

Section Grants.
Context {E : Type} `{CasbinLaws E}.

Definition grants (e : E) (sub obj act : string) : Prop := Enforce sub obj act e = Some true.

Lemma grants_iff e sub obj act :
  grants e sub obj act <-> exists p, p ∈ policies e /\ matcher (has_role e) keyMatch sub obj act p = true.
Proof.
  unfold grants, Enforce. rewrite Enforce_spec. split.
  - intros [= (p & Hp & Hm)%existsb_exists]. exists p. by rewrite list_elem_of_In.
  - intros (p & Hp & Hm). f_equal. apply existsb_exists. exists p. by rewrite <- list_elem_of_In.
Qed.

(** Nothing that is added takes a permission away. *)
Record extends (e e' : E) : Prop := {
  ext_policies q : q ∈ policies e -> q ∈ policies e';
  ext_roles x y : has_role e x y = true -> has_role e' x y = true;
}.

#[global] Instance extends_refl : PreOrder extends.
Proof. split; [by split|]. intros a b c [] []. split; auto. Qed.

Lemma extends_policy sub obj act e : extends e (AddPolicy sub obj act e).
Proof. split; [intros; apply AddPolicy_policies; auto|intros; unfold AddPolicy; by rewrite AddPolicy_role]. Qed.

Lemma extends_group a b e : extends e (AddGroupingPolicy a b e).
Proof. split; [intros; by apply Grouping_policies|intros; by apply role_mono]. Qed.

Lemma grants_mono e e' sub obj act : extends e e' -> grants e sub obj act -> grants e' sub obj act.
Proof.
  intros [Hp Hr]. rewrite !grants_iff. intros (p & H1 & H2). exists p. split; [by apply Hp|].
  unfold matcher in *. apply andb_prop in H2 as [H2 H3]. apply andb_prop in H2 as [H2 H4].
  rewrite H3, H4. by rewrite (Hr _ _ H2).
Qed.

Lemma extends_models sub models e : extends e (foldl (fun e am => AddPolicy sub (ModelObj am) ActionUse e) e models).
Proof.
  revert e. induction models as [|m ms IH]; intros e; cbn; [done|]. etrans; [apply extends_policy|apply IH].
Qed.

Lemma extends_sync key team user e : extends e (sync_key key team user e).
Proof.
  unfold sync_key, AddRoleForUser. etrans; [apply (extends_group (KeySub key.(k_ID)) (RoleSub key.(k_KeyType)))|].
  fold (AddGroupingPolicy (E := E)). etrans; [|destruct (k_AllowedModels key); [apply extends_policy|apply extends_models]].
  destruct team, user; first [reflexivity|apply extends_group|etrans; apply extends_group].
Qed.

Lemma grants_policy sub obj act e : grants (AddPolicy sub obj act e) sub obj act.
Proof.
  apply grants_iff. exists {| p_sub := sub; p_obj := obj; p_act := act |}. split; [apply AddPolicy_policies; by left|].
  unfold matcher. cbn. by rewrite role_refl, !String.eqb_refl.
Qed.

Lemma grants_models sub models m e :
  m ∈ models -> grants (foldl (fun e am => AddPolicy sub (ModelObj am) ActionUse e) e models) sub (ModelObj m) ActionUse.
Proof.
  revert e. induction models as [|m' ms IH]; intros e; cbn; [by intros ?%elem_of_nil|].
  rewrite elem_of_cons. intros [->|Hm]; [|by apply IH].
  eapply grants_mono; [apply extends_models|apply grants_policy].
Qed.

(** A model on the list of the key is granted once the key is synchronised. *)
Lemma grants_sync key team user e m :
  m ∈ key.(k_AllowedModels) -> grants (sync_key key team user e) (KeySub key.(k_ID)) (ModelObj m) ActionUse.
Proof.
  intros Hm. unfold sync_key. destruct (k_AllowedModels key) as [|m' ms] eqn:El; [by apply elem_of_nil in Hm|].
  by apply grants_models.
Qed.
End Grants.

(** ** An engine

    A list of policies and of groupings, with roles up to ten levels deep. *)
Module ListCasbin.

Record engine := { pols : list policy; groups : list (string * string) }.

Definition empty : engine := {| pols := []; groups := [] |}.

Fixpoint linked (n : nat) (g : list (string * string)) (x y : string) : bool :=
  String.eqb x y
  || match n with
     | O => false
     | S n' => existsb (fun p => String.eqb x p.1 && linked n' g p.2 y) g
     end.

(** Up to a star, any path with the same beginning. *)
Fixpoint key_match (k p : string) : bool :=
  match p with
  | EmptyString => String.eqb k ""
  | String c p' =>
      if Ascii.eqb c "*" then true
      else match k with EmptyString => false | String d k' => Ascii.eqb c d && key_match k' p' end
  end.

#[global] Instance list_casbin : CasbinEngine engine := {
  casbin_Enforce sub obj act e :=
    Some (existsb (matcher (linked 10 e.(groups)) key_match sub obj act) e.(pols));
  casbin_AddPolicy p e := e<|pols ::= cons p|>;
  casbin_AddGroupingPolicy a b e := e<|groups ::= cons (a, b)|>;
  keyMatch := key_match;
}.

Lemma linked_iff n g x y :
  linked (S n) g x y = true <-> x = y \/ exists z, (x, z) ∈ g /\ linked n g z y = true.
Proof.
  cbn [linked]. rewrite orb_true_iff, String.eqb_eq, existsb_exists. split; (intros [->|H]; [by left|right]).
  - destruct H as ([a z] & Hin & [Ha Hz]%andb_prop). apply String.eqb_eq in Ha. cbn in Ha, Hz. subst.
    exists z. by rewrite list_elem_of_In.
  - destruct H as (z & Hin & Hz). exists (x, z). rewrite <- list_elem_of_In. cbn. by rewrite String.eqb_refl, Hz.
Qed.

Lemma linked_mono n g g' x y : g ⊆ g' -> linked n g x y = true -> linked n g' x y = true.
Proof.
  intros Hg. revert x. induction n as [|n IH]; intros x; [done|].
  rewrite !linked_iff. intros [->|(z & Hz & L)]; [by left|right]. exists z. auto.
Qed.

Lemma linked_S n g x y : linked n g x y = true -> linked (S n) g x y = true.
Proof.
  revert x. induction n as [|n IH]; intros x.
  - cbn [linked]. rewrite orb_false_r. by intros ->.
  - rewrite linked_iff, (linked_iff (S n)). intros [->|(z & Hz & L)]; [by left|right]. exists z. auto.
Qed.

Lemma linked_inv n g a b x y :
  linked n ((a, b) :: g) x y = true ->
  linked n g x y = true \/ linked n g x a = true /\ linked n g b y = true.
Proof.
  revert x. induction n as [|n IH]; intros x.
  - cbn [linked]. rewrite orb_false_r. intros ->. by left.
  - rewrite linked_iff. intros [->|(z & Hz & L)]; [left; by apply linked_iff; left|].
    apply elem_of_cons in Hz as [[= -> ->]|Hz]; destruct (IH _ L) as [Lz|[La Lb]].
    + right. split; [by apply linked_iff; left|by apply linked_S].
    + right. split; [by apply linked_iff; left|by apply linked_S].
    + left. apply linked_iff. right. eauto.
    + right. split; [apply linked_iff; right; eauto|by apply linked_S].
Qed.

#[global] Instance list_casbin_laws : CasbinLaws engine.
Proof.
  refine {| policies := pols; has_role e := linked 10 e.(groups) |}.
  - done.
  - intros p q e. apply elem_of_cons.
  - done.
  - done.
  - intros e a. by apply linked_iff; left.
  - intros e a b. apply linked_iff. right. exists b. split; [by left|by apply linked_iff; left].
  - intros e a b x y. apply linked_mono. cbn. set_solver.
  - intros e a b x y. apply linked_inv.
Defined.
End ListCasbin.
