(* ===== verification/AuthMiddleware.v ===== *)
(** * Authentication middleware ([internal/auth/middleware.go])

    The two HTTP middlewares: [Authenticate] turns the secret of a request into an
    authentication context, [ModelAccessMiddleware] checks the requested model.
    A middleware either calls the next handler with a request ([Ok]), replies
    itself ([Err]), or panics.  The storage and the policy engine are threaded. *)
From S2P Require Import Prelude Float64 AuthTypes AuthStore ModelName KeyUtils ModelAccess.

(** What the middlewares read of a request.  Reading the body gives the bytes
    [r_Body] and then fails if [r_BodyFails] and ends otherwise. *)
Record Request := {
  r_Method : string;
  r_Path : string;
  r_Authorization : string;
  r_AuthCtx : option AuthContext;
  r_Body : string;
  r_BodyFails : bool;
}.

Record reply := { rp_status : Z; rp_message : string; rp_type : string }.

Definition writeError (status : Z) (message : string) : reply :=
  {| rp_status := status; rp_message := message; rp_type := "authentication_error" |}.
Definition writeUnauthorized (message : string) : reply := writeError 401 message.
Definition writePermissionDenied (message : string) : reply :=
  {| rp_status := 403; rp_message := message; rp_type := "permission_error" |}.

Definition maxModelAccessBodyBytes : Z := 10 * 1024 * 1024.

(** [store] and [enforcer] are the state of the objects the middleware holds. *)
Record Middleware (S E : Type) := {
  m_store : S;
  m_skipPaths : gset string;
  m_enabled : bool;
  m_lastUsedUpdateInterval : duration;
  m_enforcer : option E;
}.
Arguments m_store {S E}.
Arguments m_skipPaths {S E}.
Arguments m_enabled {S E}.
Arguments m_lastUsedUpdateInterval {S E}.
Arguments m_enforcer {S E}.

Definition NewMiddleware {S E : Type} (store : S) (skipPaths : list string) (enabled : bool)
  (interval : duration) (enforcer : option E) : Middleware S E :=
  {| m_store := store; m_skipPaths := list_to_set skipPaths; m_enabled := enabled;
     m_lastUsedUpdateInterval := interval; m_enforcer := enforcer |}.

Definition with_store {S E : Type} (m : Middleware S E) (s : S) : Middleware S E :=
  {| m_store := s; m_skipPaths := m.(m_skipPaths); m_enabled := m.(m_enabled);
     m_lastUsedUpdateInterval := m.(m_lastUsedUpdateInterval); m_enforcer := m.(m_enforcer) |}.

Definition with_enforcer {S E : Type} (m : Middleware S E) (e : E) : Middleware S E :=
  {| m_store := m.(m_store); m_skipPaths := m.(m_skipPaths); m_enabled := m.(m_enabled);
     m_lastUsedUpdateInterval := m.(m_lastUsedUpdateInterval); m_enforcer := Some e |}.

Definition keyCtx (key : APIKey) (team : option Team) : AuthContext :=
  {| a_APIKey := Some key; a_Team := team; a_User := None; a_RequestID := ""; a_UserRole := "";
     a_EndUserID := ""; a_SSOUserID := ""; a_JWTTeamIDs := []; a_JWTOrgID := "" |}.

Definition isModelAccessRequest (r : Request) : bool :=
  String.eqb r.(r_Method) "POST"
  && existsb (String.eqb r.(r_Path)) ["/v1/chat/completions"; "/v1/completions"; "/v1/embeddings"; "/embeddings"].

Section Middleware.
Context {S E : Type} `{AuthStore S} `{CasbinEngine E} `{Crypto}.

Definition shouldUpdateLastUsed (m : Middleware S E) (lastUsed : option time) (now : time) : bool :=
  if m.(m_lastUsedUpdateInterval) <=? 0 then true
  else match lastUsed with
       | None => true
       | Some t => if after t now then false else m.(m_lastUsedUpdateInterval) <=? time_sub now t
       end.

(** The key behind the header: found, active, not expired, not blocked. *)
Definition lookup_key (now : time) (m : Middleware S E) (header : string) : outcome reply APIKey :=
  match ParseAuthHeader header with
  | inl _ => Err (writeUnauthorized "missing or invalid authorization header")
  | inr apiKey =>
      match GetAPIKeyByHash (HashKey apiKey) m.(m_store) with
      | inl _ => Err (writeError 500 "internal error")
      | inr None => Err (writeUnauthorized "invalid api key")
      | inr (Some key) =>
          if negb key.(k_IsActive) then Err (writeUnauthorized "api key is inactive")
          else if Key_IsExpired now key then Err (writeUnauthorized "api key has expired")
          else if key.(k_Blocked) then Err (writeUnauthorized "api key is blocked")
          else Ok key
      end
  end.

Definition lookup_team (m : Middleware S E) (key : APIKey) : outcome reply (option Team) :=
  match key.(k_TeamID) with
  | None => Ok None
  | Some teamID =>
      match GetTeam teamID m.(m_store) with
      | inl _ => Err (writeError 500 "internal error")
      | inr None => Err (writeUnauthorized "invalid team")
      | inr (Some team) => if Team_IsBlocked team then Err (writeUnauthorized "team is blocked") else Ok (Some team)
      end
  end.

(** The policy engine, or the fixed rule for read-only keys. *)
Definition check_permission (m : Middleware S E) (r : Request) (key : APIKey) : Middleware S E * outcome reply unit :=
  match m.(m_enforcer) with
  | Some e =>
      let sub := KeySub key.(k_ID) in
      let e := AddRoleForUser sub (RoleSub key.(k_KeyType)) e in
      (with_enforcer m e,
       match Enforce sub (PathObj r.(r_Path)) (ActionMethod r.(r_Method)) e with
       | None => Err (writeError 500 "internal error")
       | Some false => Err (writePermissionDenied "access denied by policy")
       | Some true => Ok tt
       end)
  | None =>
      (m, if String.eqb key.(k_KeyType) KeyTypeReadOnly then
            if negb (String.eqb r.(r_Method) "GET") && negb (String.eqb r.(r_Method) "HEAD")
            then Err (writePermissionDenied "read-only key")
            else if negb (String.eqb r.(r_Path) "/v1/models") then Err (writePermissionDenied "read-only key")
            else Ok tt
          else Ok tt)
  end.

(** [nowExpiry] is read by the expiry check, [now] by the last-used update. *)
Definition Authenticate (nowExpiry now : time) (m : Middleware S E) (r : Request) :
  Middleware S E * outcome reply Request :=
  if negb m.(m_enabled) then (m, Ok r)
  else if bool_decide (r.(r_Path) ∈ m.(m_skipPaths)) then (m, Ok r)
  else match r.(r_AuthCtx) with
  | Some _ => (m, Ok r)
  | None =>
      match (let! key := lookup_key nowExpiry m r.(r_Authorization) in
             let! team := lookup_team m key in Ok (key, team)) with
      | Err e => (m, Err e)
      | Panic => (m, Panic)
      | Ok (key, team) =>
          let '(m, perm) := check_permission m r key in
          match perm with
          | Err e => (m, Err e)
          | Panic => (m, Panic)
          | Ok _ =>
              let m := if shouldUpdateLastUsed m key.(k_LastUsedAt) now
                       then with_store m (UpdateAPIKeyLastUsed key.(k_ID) now m.(m_store)).1 else m in
              (m, Ok r<|r_AuthCtx := Some (keyCtx key team)|>)
          end
      end
  end.

(** [io.ReadAll(io.LimitReader(body, max + 1))]: the bytes read and whether reading failed. *)
Definition read_body (r : Request) : string * bool :=
  let limit := Z.to_nat (maxModelAccessBodyBytes + 1) in
  if (limit <=? String.length r.(r_Body))%nat then (String.substring 0 limit r.(r_Body), false)
  else (r.(r_Body), r.(r_BodyFails)).

(** [parseModel] is [json.Unmarshal] into a request with a model, [None] on error. *)
Definition ModelAccessMiddleware (parseModel : string -> option string) (m : Middleware S E) (r : Request) :
  Middleware S E * outcome reply Request :=
  if negb m.(m_enabled) then (m, Ok r)
  else if bool_decide (r.(r_Path) ∈ m.(m_skipPaths)) then (m, Ok r)
  else if negb (isModelAccessRequest r) then (m, Ok r)
  else match r.(r_AuthCtx) with
  | None => (m, Err (writeUnauthorized "authentication required"))
  | Some authCtx =>
      let '(body, failed) := read_body r in
      let r := r<|r_Body := body|><|r_BodyFails := false|> in
      if failed then (m, Ok r)
      else if maxModelAccessBodyBytes <? Z.of_nat (String.length body)
      then (m, Err (writeError 413 "request body too large"))
      else match default "" (parseModel body) with
      | "" => (m, Ok r)
      | model =>
          match m.(m_enforcer) with
          | Some e =>
              match authCtx.(a_APIKey) with
              | None => (m, Panic)
              | Some key =>
                  let e := sync_key key authCtx.(a_Team) authCtx.(a_User) e in
                  (with_enforcer m e,
                   match Enforce (KeySub key.(k_ID)) (ModelObj model) ActionUse e with
                   | None => Err (writeError 500 "internal error")
                   | Some false => Err (writePermissionDenied "model access denied")
                   | Some true => Ok r
                   end)
              end
          | None =>
              (m, match NewModelAccess (Some m.(m_store)) (Some authCtx) with
                  | inl _ => Err (writeError 500 "internal error")
                  | inr access =>
                      if Allows access model then Ok r else Err (writePermissionDenied "model access denied")
                  end)
          end
      end
  end.
End Middleware.
