(* ===== verification/AuthTheorems.v ===== *)
(** * Theorems of keys, authentication and model access

    The storage, the management handlers and the middlewares composed. *)
From Stdlib Require Import Ascii.
From S2P Require Import Prelude Float64 AuthTypes AuthStore AuthStoreProofs ModelName KeyUtils KeyManagement ModelAccess AuthMiddleware.
Import MemoryAuth.

(** A key that may be used at an instant. *)
Definition live (now : time) (k : APIKey) : bool := k.(k_IsActive) && negb (Key_IsExpired now k) && negb k.(k_Blocked).

(** The team of a key, if it has one, exists and is in service. *)
Definition team_ok (teams : gmap string Team) (k : APIKey) (team : option Team) : Prop :=
  match k.(k_TeamID) with
  | None => team = None
  | Some id => exists t, teams !! id = Some t /\ Team_IsBlocked t = false /\ team = Some t
  end.

(** Without a policy engine a read-only key may only list models. *)
Definition legacy_ok (r : Request) (k : APIKey) : bool :=
  negb (String.eqb k.(k_KeyType) KeyTypeReadOnly)
  || ((String.eqb r.(r_Method) "GET" || String.eqb r.(r_Method) "HEAD") && String.eqb r.(r_Path) "/v1/models").

(** The request reaches the key check. *)
Definition must_authenticate {S E} (m : Middleware S E) (r : Request) : Prop :=
  m.(m_enabled) = true /\ (r.(r_Path) ∉ m.(m_skipPaths)) /\ r.(r_AuthCtx) = None.

Section Memory.
Context {E : Type} `{CasbinEngine E} `{Crypto} (ord : gset string -> list string).
#[local] Instance mem : AuthStore MemoryStore := memory_auth_store ord.
Implicit Types (m : Middleware MemoryStore E) (r : Request) (s : MemoryStore).

Lemma lookup_key_ok t m header k :
  lookup_key t m header = Ok k <->
  exists secret, ParseAuthHeader header = inr secret
    /\ ms_GetAPIKeyByHash (HashKey secret) m.(m_store) = inr (Some k) /\ live t k = true.
Proof.
  unfold lookup_key, live. cbn [GetAPIKeyByHash mem memory_auth_store].
  destruct (ParseAuthHeader header) as [e|secret]; [split; [done|by intros (? & ? & _)]|].
  destruct (ms_GetAPIKeyByHash (HashKey secret) m.(m_store)) as [e|[k'|]] eqn:G;
    [split; [done|intros (? & [= <-] & ? & ?); congruence]| |split; [done|intros (? & [= <-] & ? & ?); congruence]].
  split.
  - intros R. exists secret. repeat (case_match; try discriminate). simplify_eq.
    by destruct (k_IsActive k), (Key_IsExpired t k), (k_Blocked k).
  - intros (s' & [= <-] & G' & L). rewrite G in G'. simplify_eq.
    by destruct (k_IsActive k), (Key_IsExpired t k), (k_Blocked k).
Qed.

Lemma lookup_team_ok m k team : lookup_team m k = Ok team <-> team_ok m.(m_store).(teams) k team.
Proof.
  unfold lookup_team, team_ok. destruct (k_TeamID k) as [id|]; [|split; [by intros [= <-]|by intros ->]].
  cbn. destruct (teams m.(m_store) !! id) as [t|]; [|split; [done|by intros (? & ? & _)]].
  destruct (Team_IsBlocked t) eqn:B; (split; [|intros (t' & Et & Bt & ->); simplify_eq; congruence]); [done|].
  intros [= <-]. eauto.
Qed.

Lemma check_permission_legacy m r k :
  m.(m_enforcer) = None ->
  check_permission m r k = (m, if legacy_ok r k then Ok tt else Err (writePermissionDenied "read-only key")).
Proof.
  intros E0. unfold check_permission, legacy_ok. rewrite E0.
  destruct (String.eqb (k_KeyType k) KeyTypeReadOnly); cbn; [|done].
  destruct (String.eqb (r_Method r) "GET"), (String.eqb (r_Method r) "HEAD"), (String.eqb (r_Path r) "/v1/models"); done.
Qed.

(** What an authenticated request leads to. *)
Lemma authenticate_iff t1 t2 m r m' r' :
  must_authenticate m r -> m.(m_enforcer) = None ->
  Authenticate t1 t2 m r = (m', Ok r') <->
  exists k team, lookup_key t1 m r.(r_Authorization) = Ok k /\ lookup_team m k = Ok team /\ legacy_ok r k = true
    /\ r' = r<|r_AuthCtx := Some (keyCtx k team)|>
    /\ m' = if shouldUpdateLastUsed m k.(k_LastUsedAt) t2
            then with_store m (ms_UpdateAPIKeyLastUsed k.(k_ID) t2 m.(m_store)).1 else m.
Proof.
  intros (En & Sk & Ctx) E0. unfold Authenticate. rewrite En, Ctx. cbn [negb].
  rewrite bool_decide_eq_false_2 by done.
  destruct (lookup_key t1 m _) as [k|e|] eqn:L; cbn [outcome_bind];
    [|split; [done|by intros (? & ? & ? & _)]..].
  destruct (lookup_team m k) as [team|e|] eqn:T; cbn [outcome_bind];
    [|split; [done|intros (? & ? & [= <-] & ? & _); congruence]..].
  rewrite check_permission_legacy by done.
  destruct (legacy_ok r k) eqn:P; [|split; [done|intros (? & ? & [= <-] & _ & ? & _); congruence]].
  split; [intros [= <- <-]; eauto 10|]. intros (k' & team' & [= <-] & T' & _ & -> & ->).
  rewrite T in T'. by injection T' as <-.
Qed.

Lemma by_hash_iff s h k :
  keys_ok s -> ms_GetAPIKeyByHash h s = inr (Some k) <-> abs s !! k.(k_ID) = Some k /\ k.(k_KeyHash) = h.
Proof.
  intros W. rewrite <- by_hash_abs by done. unfold ms_GetAPIKeyByHash. split; [by intros [= ->]|by intros ->].
Qed.

(** For a key without a team that is not read-only, being live is all it takes. *)
Lemma authenticates_live t1 t2 m r k secret :
  keys_ok m.(m_store) -> must_authenticate m r -> m.(m_enforcer) = None ->
  ParseAuthHeader r.(r_Authorization) = inr secret -> abs m.(m_store) !! k.(k_ID) = Some k ->
  k.(k_KeyHash) = HashKey secret -> k.(k_TeamID) = None -> k.(k_KeyType) <> KeyTypeReadOnly ->
  (exists m' r', Authenticate t1 t2 m r = (m', Ok r')) <-> live t1 k = true.
Proof.
  intros W Hm E0 Hp Hk Hh Ht Hty.
  assert (G : ms_GetAPIKeyByHash (HashKey secret) m.(m_store) = inr (Some k)) by by apply by_hash_iff.
  split.
  - intros (m' & r' & R). apply authenticate_iff in R as (k' & team & L & _); [|done..].
    apply lookup_key_ok in L as (secret' & Hs & G' & L). congruence.
  - intros L. do 2 eexists. apply authenticate_iff; [done..|]. exists k, None.
    split; [apply lookup_key_ok; by exists secret|]. split; [apply lookup_team_ok; unfold team_ok; by rewrite Ht|].
    split; [|done]. unfold legacy_ok. by rewrite (proj2 (String.eqb_neq _ _) Hty).
Qed.

(** A key that was deleted is refused as inactive. *)
Lemma authenticate_inactive t1 t2 m r k secret :
  keys_ok m.(m_store) -> must_authenticate m r -> ParseAuthHeader r.(r_Authorization) = inr secret ->
  abs m.(m_store) !! k.(k_ID) = Some k -> k.(k_KeyHash) = HashKey secret -> k.(k_IsActive) = false ->
  Authenticate t1 t2 m r = (m, Err (writeUnauthorized "api key is inactive")).
Proof.
  intros W (En & Sk & Ctx) Hp Hk Hh Ha. unfold Authenticate. rewrite En, Ctx. cbn [negb].
  rewrite bool_decide_eq_false_2 by done. unfold lookup_key. rewrite Hp. cbn [GetAPIKeyByHash mem memory_auth_store].
  rewrite (proj2 (by_hash_iff _ (HashKey secret) k W)) by done. by rewrite Ha.
Qed.

(** ** The life of a key *)

Section Lifecycle.
Context `{RFC3339}.

Lemma new_key_fields c uuid raw hash req :
  let k := new_key c uuid raw hash req in
  k.(k_ID) = uuid /\ k.(k_KeyHash) = hash /\ k.(k_TeamID) = req.(gq_TeamID) /\ k.(k_KeyType) = req.(gq_KeyType)
  /\ k.(k_IsActive) = true /\ k.(k_Blocked) = false
  /\ k.(k_ExpiresAt) = ParseDuration c.(now_expiry) req.(gq_Duration).
Proof.
  assert (D : (if String.eqb req.(gq_Duration) "" then None else ParseDuration c.(now_expiry) req.(gq_Duration))
    = ParseDuration c.(now_expiry) req.(gq_Duration)) by (unfold ParseDuration; by destruct (String.eqb _ "")).
  assert (T : (if String.eqb req.(gq_KeyType) "" then "" else req.(gq_KeyType)) = req.(gq_KeyType))
    by (destruct (String.eqb_spec req.(gq_KeyType) ""); congruence).
  rewrite <- D, <- T. clear D T. cbv zeta. unfold new_key.
  destruct (gq_MaxBudget req), (gq_SoftBudget req), (String.eqb (gq_BudgetDuration req) ""), (String.eqb (gq_Duration req) ""),
    (ParseDuration (now_expiry c) (gq_Duration req)), (String.eqb (gq_KeyType req) ""),
    (gq_AutoRotate req && negb (String.eqb (gq_RotationInterval req) "")); repeat split.
Qed.

Lemma GenerateKey_ok c uuid raw hash req s :
  GenerateKey c uuid (Some (raw, hash)) (Some req) s =
  (run_op s (KCreate (new_key c uuid raw hash req)), RGenerated (generated raw (new_key c uuid raw hash req))).
Proof. reflexivity. Qed.

(** A key that is not in the directory may be created. *)
Lemma create_ok s k :
  abs s !! k.(k_ID) = None -> (forall id k0, abs s !! id = Some k0 -> k0.(k_KeyHash) <> k.(k_KeyHash)) ->
  op_ok (abs s) (KCreate k) = true.
Proof.
  intros Hid Hh. cbn. rewrite bool_decide_eq_true_2 by done. apply forallb_forall. intros [id k0] Hk. cbn.
  apply list_elem_of_In, elem_of_map_to_list in Hk. apply negb_true_iff, String.eqb_neq, (Hh _ _ Hk).
Qed.

(** The life of a key.  A key generated with a fresh identifier and a fresh
    secret authenticates requests that bear the secret until the expiry computed
    from the requested duration, and after it is deleted every such request is
    refused as inactive, at whatever instant. *)
Theorem generated_key_lifecycle c uuid raw req s m r t1 t2 :
  keys_ok s -> abs s !! uuid = None -> (forall id k0, abs s !! id = Some k0 -> k0.(k_KeyHash) <> HashKey raw) ->
  req.(gq_TeamID) = None -> req.(gq_KeyType) <> KeyTypeReadOnly ->
  must_authenticate m r -> m.(m_enforcer) = None -> ParseAuthHeader r.(r_Authorization) = inr raw ->
  exists s' resp, GenerateKey c uuid (Some (raw, HashKey raw)) (Some req) s = (s', RGenerated resp)
    /\ resp.(gr_Key) = raw /\ resp.(gr_KeyID) = uuid
    /\ ((exists m' r', Authenticate t1 t2 (with_store m s') r = (m', Ok r'))
        <-> match ParseDuration c.(now_expiry) req.(gq_Duration) with Some e => t1 <= e | None => True end)
    /\ exists s'', DeleteKey (Some [uuid]) s' = (s'', RDeleted [uuid])
      /\ Authenticate t1 t2 (with_store m s'') r = (with_store m s'', Err (writeUnauthorized "api key is inactive")).
Proof.
  intros W Hid Hh Ht Hty (En & Sk & Ctx) E0 Hp. set (k := new_key c uuid raw (HashKey raw) req).
  destruct (new_key_fields c uuid raw (HashKey raw) req) as (F1 & F2 & F3 & F4 & F5 & F6 & F7). fold k in F1, F2, F3, F4, F5, F6, F7.
  destruct (run_op_ok s (KCreate k) W) as [W' A']; [apply create_ok; [by rewrite F1|rewrite F2; exact Hh]|].
  destruct (run_op_ok (run_op s (KCreate k)) (KDelete uuid) W' eq_refl) as [W'' A''].
  exists (run_op s (KCreate k)), (generated raw k). rewrite GenerateKey_ok. fold k.
  split; [done|]. split; [done|]. split; [exact F1|].
  assert (Hm : forall s', must_authenticate (with_store m s') r) by done.
  assert (Hk : abs (run_op s (KCreate k)) !! k.(k_ID) = Some k) by (rewrite A'; apply lookup_insert_eq).
  split.
  - rewrite (authenticates_live t1 t2 _ r k raw); [|done..|congruence|congruence].
    unfold live, Key_IsExpired, due. rewrite F5, F6, F7.
    destruct (ParseDuration _ _) as [e|]; [|done]. unfold after. destruct (Z.ltb_spec e t1); cbn; split; (done || lia).
  - exists (run_op (run_op s (KCreate k)) (KDelete uuid)). split; [done|].
    apply (authenticate_inactive _ _ _ _ (k<|k_IsActive := false|>) raw); [done..| |done|done].
    assert (I : k_ID (k<|k_IsActive := false|>) = uuid) by exact F1. rewrite F1 in Hk.
    cbn [m_store with_store]. rewrite A'', I. cbn [spec_op]. by rewrite lookup_alter_eq, Hk.
Qed.

(** ** Regeneration and updates *)

Lemma update_no_error k s : ms_UpdateAPIKey k s = ((ms_UpdateAPIKey k s).1, None).
Proof. unfold ms_UpdateAPIKey. by case_match. Qed.

Lemma update_rehash s old k :
  keys_ok s -> abs s !! k.(k_ID) = Some old -> k.(k_KeyHash) <> old.(k_KeyHash) ->
  let s' := (ms_UpdateAPIKey k s).1 in
  ms_GetAPIKeyByHash old.(k_KeyHash) s' = inr (Some k)
  /\ (forall h, h <> old.(k_KeyHash) -> ms_GetAPIKeyByHash h s' = ms_GetAPIKeyByHash h s).
Proof.
  intros W Hk Hne. unfold ms_UpdateAPIKey. rewrite <- abs_lookup, Hk. cbn [fst]. split.
  - unfold ms_GetAPIKeyByHash, deref. cbn -[insert]. rewrite lookup_insert_eq. cbn. f_equal. by apply list_lookup_middle.
  - intros h Hh. unfold ms_GetAPIKeyByHash, deref. cbn -[insert]. rewrite lookup_insert_ne by done. f_equal.
    destruct (s.(apiKeys) !! h) as [p|] eqn:Hp; [|done]. cbn. by apply lookup_app_l, (objs_lt s W h).
Qed.

(** Regenerating a key does not change the secret that works.  With the
    in-memory store the response reports success and a new secret, but the new
    secret is refused as an invalid key, and the old one still authenticates as
    long as the key is live. *)
Theorem regenerate_keeps_old_secret c id raw oldSecret old s m t hdrNew hdrOld :
  keys_ok s -> abs s !! id = Some old -> old.(k_KeyHash) = HashKey oldSecret ->
  (forall i k0, abs s !! i = Some k0 -> k0.(k_KeyHash) <> HashKey raw) ->
  ParseAuthHeader hdrNew = inr raw -> ParseAuthHeader hdrOld = inr oldSecret -> live t old = true ->
  exists s' resp k, RegenerateKey c (Some (raw, HashKey raw)) (Some id) s = (s', RGenerated resp)
    /\ resp.(gr_Key) = raw
    /\ lookup_key t (with_store m s') hdrNew = Err (writeUnauthorized "invalid api key")
    /\ lookup_key t (with_store m s') hdrOld = Ok k /\ k.(k_ID) = id.
Proof.
  intros W Hk Hh Hfresh Hn Ho L.
  assert (Eid : old.(k_ID) = id).
  { apply abs_Some in Hk as (p & Hp & Hk). destruct (id_ok s W _ _ Hp) as (k & ? & ? & _). congruence. }
  set (k := regenerate c raw (HashKey raw) old).
  destruct (update_rehash s old k W) as [U1 U2]; [by rewrite <- Eid in Hk|cbn; apply not_eq_sym, (Hfresh _ _ Hk)|].
  exists (ms_UpdateAPIKey k s).1, (generated raw k), k. split; [|split; [done|split; [|split; [|done]]]].
  - unfold RegenerateKey. cbn [GetAPIKeyByID UpdateAPIKey mem memory_auth_store].
    unfold ms_GetAPIKeyByID. rewrite <- abs_lookup, Hk. fold k. by rewrite update_no_error.
  - unfold lookup_key. rewrite Hn. cbn [GetAPIKeyByHash mem memory_auth_store m_store with_store].
    rewrite U2 by (apply not_eq_sym, (Hfresh _ _ Hk)).
    destruct (ms_GetAPIKeyByHash (HashKey raw) s) as [e|[k0|]] eqn:G; [done| |done].
    apply by_hash_iff in G as [G1 G2]; [|done]. by destruct (Hfresh _ _ G1).
  - apply lookup_key_ok. exists oldSecret. rewrite <- Hh. done.
Qed.

(** The fields an update never sets. *)
Lemma if_set_keep {A B C} (p : B -> C) (x : option A) f k : (forall a k, p (f a k) = p k) -> p (if_set x f k) = p k.
Proof. intros H'. destruct x; cbn; [apply H'|done]. Qed.

Lemma copy_fields_keep {C} (p : APIKey -> C) c req k :
  (forall k x, p (k<|k_Name := x|>) = p k) -> (forall k x, p (k<|k_KeyAlias := x|>) = p k) ->
  (forall k x, p (k<|k_AllowedModels := x|>) = p k) -> (forall k x, p (k<|k_MaxBudget := x|>) = p k) ->
  (forall k x, p (k<|k_SoftBudget := x|>) = p k) -> (forall k x, p (k<|k_BudgetDuration := x|>) = p k) ->
  (forall k x, p (k<|k_BudgetResetAt := x|>) = p k) -> (forall k x, p (k<|k_TPMLimit := x|>) = p k) ->
  (forall k x, p (k<|k_RPMLimit := x|>) = p k) -> (forall k x, p (k<|k_MaxParallelRequests := x|>) = p k) ->
  (forall k x, p (k<|k_ModelMaxBudget := x|>) = p k) -> (forall k f, p (k<|k_Metadata ::= f|>) = p k) ->
  p (copy_fields c req k) = p k.
Proof.
  intros ? ? ? ? ? K1 K2 ? ? ? ? ?. unfold copy_fields. rewrite !(if_set_keep p); [done|try done..].
  intros a k0. by rewrite K2, K1.
Qed.

Lemma update_fields_keep c req k :
  let k' := update_fields c req k in
  k'.(k_ID) = k.(k_ID) /\ k'.(k_KeyHash) = k.(k_KeyHash) /\ k'.(k_SpentBudget) = k.(k_SpentBudget)
  /\ k'.(k_ExpiresAt) = match req.(gk_Duration) with Some d => ParseDuration c.(now_expiry) d | None => k.(k_ExpiresAt) end.
Proof.
  rewrite <- (copy_fields_keep k_ID c req k), <- (copy_fields_keep k_KeyHash c req k),
    <- (copy_fields_keep k_SpentBudget c req k), <- (copy_fields_keep k_ExpiresAt c req k) by done.
  unfold update_fields. generalize (copy_fields c req k). intros k0.
  by destruct (gk_Duration req), (gk_AutoRotate req).
Qed.

(** Writing back a key that was read keeps the maps in agreement. *)
Lemma update_written c req k s k0 :
  keys_ok s -> abs s !! k.(k_ID) = Some k0 -> k0.(k_KeyHash) = k.(k_KeyHash) ->
  let s' := (UpdateKey_write c req k s).1 in
  keys_ok s' /\ ms_GetAPIKeyByID k.(k_ID) s' = inr (Some (update_fields c req k)).
Proof.
  intros W K0 Eh. destruct (update_fields_keep c req k) as (E1 & E2 & _).
  destruct (run_op_ok s (KUpdate (update_fields c req k)) W) as [W' A'].
  { unfold op_ok. rewrite E1, K0, E2, Eh. apply String.eqb_refl. }
  unfold UpdateKey_write. cbn [UpdateAPIKey mem memory_auth_store]. rewrite update_no_error. cbn [fst]. split; [exact W'|].
  unfold ms_GetAPIKeyByID. rewrite <- abs_lookup. f_equal. cbn [run_op] in A'. rewrite A'. cbn [spec_op].
  by rewrite E1, lookup_alter_eq, K0.
Qed.

(** An update of a key undoes the spend recorded since the handler read it.
    [UpdateKey] reads the key and writes the whole record back: a cost added in
    between is lost, whatever the update was about. *)
Theorem update_key_loses_spend c req k amount s :
  keys_ok s -> UpdateKey_read (Some req) s = inr (req, k) ->
  let s1 := (ms_UpdateAPIKeySpent k.(k_ID) amount s).1 in
  let s2 := (UpdateKey_write c req k s1).1 in
  ms_GetAPIKeyByID k.(k_ID) s1 = inr (Some k<|k_SpentBudget ::= fun x => x ⊞ amount|>)
  /\ exists k', ms_GetAPIKeyByID k.(k_ID) s2 = inr (Some k') /\ k'.(k_SpentBudget) = k.(k_SpentBudget).
Proof.
  intros W R s1 s2.
  assert (Hk : abs s !! k.(k_ID) = Some k).
  { unfold UpdateKey_read in R. cbn in R. unfold ms_GetAPIKeyByID in R. rewrite <- abs_lookup in R.
    destruct (String.eqb _ ""); [done|]. destruct (abs s !! gk_Key req) as [k0|] eqn:Hk; [|done]. injection R as ->.
    apply abs_Some in Hk as Hk'. destruct Hk' as (p & Hp & Hob). destruct (id_ok s W _ _ Hp) as (k0 & ? & ? & _). congruence. }
  destruct (run_op_ok s (KSpend k.(k_ID) amount) W eq_refl) as [W1 A1].
  change (run_op s _) with s1 in W1, A1.
  assert (K1 : abs s1 !! k.(k_ID) = Some k<|k_SpentBudget ::= fun x => x ⊞ amount|>)
    by (rewrite A1; cbn [spec_op]; by rewrite lookup_alter_eq, Hk).
  split; [unfold ms_GetAPIKeyByID; by rewrite <- abs_lookup, K1|].
  destruct (update_written c req k s1 _ W1 K1 eq_refl) as [_ G]. eexists. split; [exact G|].
  by destruct (update_fields_keep c req k) as (_ & _ & ? & _).
Qed.

(** An update with a duration that does not parse removes the expiry of the key:
    it never expires again. *)
Theorem bad_duration_never_expires c req k d t :
  req.(gk_Duration) = Some d -> DurationInSeconds d <= 0 -> Key_IsExpired t (update_fields c req k) = false.
Proof.
  intros Hd Hs. destruct (update_fields_keep c req k) as (_ & _ & _ & Ex). rewrite Hd in Ex.
  unfold Key_IsExpired. rewrite Ex. unfold ParseDuration. replace (DurationInSeconds d <=? 0) with true by lia.
  by destruct (_ || _).
Qed.
End Lifecycle.
End Memory.

(** ** Model access *)

(** The request is one whose model is checked, and [model] is what its body says. *)
Definition asks_for {S E} (parseModel : string -> option string) (m : Middleware S E) (r : Request) (model : string) : Prop :=
  m.(m_enabled) = true /\ (r.(r_Path) ∉ m.(m_skipPaths)) /\ isModelAccessRequest r = true
  /\ Z.of_nat (String.length r.(r_Body)) <= maxModelAccessBodyBytes /\ r.(r_BodyFails) = false
  /\ parseModel r.(r_Body) = Some model /\ model <> "".

Section Access.
Context {S E : Type} `{AuthStore S} `{CasbinEngine E} (parseModel : string -> option string).
Implicit Types (m : Middleware S E) (r : Request).

Lemma read_body_whole r :
  Z.of_nat (String.length r.(r_Body)) <= maxModelAccessBodyBytes -> r.(r_BodyFails) = false ->
  read_body r = (r.(r_Body), false).
Proof.
  intros Hl Hf. unfold read_body.
  destruct (Nat.leb_spec (Z.to_nat (maxModelAccessBodyBytes + 1)) (String.length r.(r_Body))) as [Hb|]; [|by rewrite Hf].
  unfold maxModelAccessBodyBytes in *. lia.
Qed.

(** The decision on a request that asks for a model. *)
Lemma access_decision m r a model :
  asks_for parseModel m r model -> r.(r_AuthCtx) = Some a ->
  ModelAccessMiddleware parseModel m r =
  match m.(m_enforcer) with
  | Some e =>
      match a.(a_APIKey) with
      | None => (m, Panic)
      | Some key =>
          let e := sync_key key a.(a_Team) a.(a_User) e in
          (with_enforcer m e,
           match Enforce (KeySub key.(k_ID)) (ModelObj model) ActionUse e with
           | None => Err (writeError 500 "internal error")
           | Some false => Err (writePermissionDenied "model access denied")
           | Some true => Ok r
           end)
      end
  | None =>
      (m, match NewModelAccess (Some m.(m_store)) (Some a) with
          | inl _ => Err (writeError 500 "internal error")
          | inr access => if Allows access model then Ok r else Err (writePermissionDenied "model access denied")
          end)
  end.
Proof.
  intros (En & Sk & Hr & Hl & Hf & Hp & Hne) Ha. unfold ModelAccessMiddleware.
  rewrite En, Hr, Ha, read_body_whole by done. cbn [negb]. rewrite bool_decide_eq_false_2 by done.
  assert (Er : r<|r_Body := r.(r_Body)|><|r_BodyFails := false|> = r) by (destruct r; cbn in *; by subst).
  rewrite Er. replace (maxModelAccessBodyBytes <? _) with false by lia.
  rewrite Hp. cbn [default]. by destruct model.
Qed.

Lemma NewModelAccess_ok (s : S) a access :
  NewModelAccess (Some s) (Some a) = inr access ->
  exists ma, access = Some ma /\ ma.(ma_apiKey) = a.(a_APIKey) /\ ma.(ma_team) = a.(a_Team)
    /\ (forall u, a.(a_User) = Some u -> ma.(ma_user) = Some u)
    /\ (forall k uid u, a.(a_User) = None -> ma.(ma_apiKey) = Some k -> k.(k_UserID) = Some uid ->
          GetUser uid s = inr (Some u) -> ma.(ma_user) = Some u)
    /\ (forall k oid o, ma.(ma_apiKey) = Some k -> k.(k_OrganizationID) = Some oid -> oid <> "" ->
          GetOrganization oid s = inr (Some o) -> ma.(ma_organization) = Some o).
Proof.
  unfold NewModelAccess. intros N.
  destruct (match a.(a_User) with Some _ => _ | None => _ end) as [err|user] eqn:U; [done|]. cbv zeta in N.
  destruct (if String.eqb _ "" then inr None else _) as [err|org] eqn:O in N; [done|]. injection N as <-.
  eexists. split; [done|]. cbn [ma_apiKey ma_team ma_user ma_organization]. repeat split.
  - intros u Hu. rewrite Hu in U. by injection U as <-.
  - intros k uid u Hu Hk Hid Hg. rewrite Hu, Hk in U. cbn in U. rewrite Hid in U. congruence.
  - intros k oid o Hk Hid Ho Hg. rewrite Hk in O. cbn in O. rewrite Hid in O. cbn in O.
    rewrite !(proj2 (String.eqb_neq _ _) Ho) in O. congruence.
Qed.

Lemma Allows_ok ma model :
  Allows (Some ma) model = true -> model <> "" ->
  (forall k, ma.(ma_apiKey) = Some k -> Key_CanAccessModel k model = true)
  /\ (forall t, ma.(ma_team) = Some t -> Team_CanAccessModel t model = true)
  /\ (forall u, ma.(ma_user) = Some u -> User_CanAccessModel u model = true)
  /\ (forall o, ma.(ma_organization) = Some o -> Org_CanAccessModel o model = true).
Proof.
  unfold Allows. intros Al Hne. rewrite (proj2 (String.eqb_neq _ _) Hne) in Al.
  repeat match type of Al with (if ?b then _ else _) = true => destruct b eqn:? in Al; [done|] end.
  repeat split; intros x Hx; rewrite Hx in *; by apply negb_false_iff.
Qed.

(** Without a policy engine, a request that reaches the handler asked for a
    model that every level allows: its key, the team of its context, its user
    (read from the storage when the context has none) and the organization of the
    key or else of that user. *)
Theorem model_access_every_level m r r' m' a model :
  asks_for parseModel m r model -> r.(r_AuthCtx) = Some a -> m.(m_enforcer) = None ->
  ModelAccessMiddleware parseModel m r = (m', Ok r') ->
  (forall k, a.(a_APIKey) = Some k -> Key_CanAccessModel k model = true)
  /\ (forall t, a.(a_Team) = Some t -> Team_CanAccessModel t model = true)
  /\ (forall u, a.(a_User) = Some u -> User_CanAccessModel u model = true)
  /\ (forall k uid u, a.(a_User) = None -> a.(a_APIKey) = Some k -> k.(k_UserID) = Some uid ->
        GetUser uid m.(m_store) = inr (Some u) -> User_CanAccessModel u model = true)
  /\ (forall k oid o, a.(a_APIKey) = Some k -> k.(k_OrganizationID) = Some oid -> oid <> "" ->
        GetOrganization oid m.(m_store) = inr (Some o) -> Org_CanAccessModel o model = true).
Proof.
  intros Hr Ha He R. rewrite (access_decision _ _ _ _ Hr Ha), He in R. destruct Hr as (_ & _ & _ & _ & _ & _ & Hne).
  destruct (NewModelAccess (Some m.(m_store)) (Some a)) as [err|access] eqn:N; [done|].
  destruct (Allows access model) eqn:Al; [|done].
  apply NewModelAccess_ok in N as (ma & -> & <- & <- & N1 & N2 & N3).
  apply Allows_ok in Al as (A1 & A2 & A3 & A4); [|done]. repeat split; [done..|intros; by eauto| |].
  - intros k uid u Hu Hk Hid Hg. apply A3, (N2 k uid); done.
  - intros k oid o Hk Hid Ho Hg. apply A4, (N3 k oid); done.
Qed.
End Access.

Section Policies.
Context {S E : Type} `{AuthStore S} `{CasbinLaws E} (parseModel : string -> option string).
Implicit Types (m : Middleware S E) (r : Request).

Lemma granted_passes m e r a key model :
  asks_for parseModel m r model -> r.(r_AuthCtx) = Some a -> a.(a_APIKey) = Some key -> m.(m_enforcer) = Some e ->
  grants (sync_key key a.(a_Team) a.(a_User) e) (KeySub key.(k_ID)) (ModelObj model) ActionUse ->
  ModelAccessMiddleware parseModel m r = (with_enforcer m (sync_key key a.(a_Team) a.(a_User) e), Ok r).
Proof.
  intros Hr Ha Hk He G. rewrite (access_decision _ _ _ _ _ Hr Ha), He, Hk. cbv zeta. unfold grants in G. by rewrite G.
Qed.

(** With a policy engine, taking a model off the list of a key has no effect.
    The middleware turns the list of a key into policies at every request and
    nothing removes them: once a request for a listed model was checked, every
    later request for that model by a key of the same identifier is let through,
    whatever its list says by then. *)
Theorem narrowed_list_ignored m e r a key model :
  asks_for parseModel m r model -> r.(r_AuthCtx) = Some a -> a.(a_APIKey) = Some key ->
  model ∈ key.(k_AllowedModels) -> m.(m_enforcer) = Some e ->
  exists m1 e1, ModelAccessMiddleware parseModel m r = (m1, Ok r) /\ m1.(m_enforcer) = Some e1
    /\ forall m2 e2 r2 a2 key2,
         m2.(m_enforcer) = Some e2 -> extends e1 e2 -> asks_for parseModel m2 r2 model ->
         r2.(r_AuthCtx) = Some a2 -> a2.(a_APIKey) = Some key2 -> key2.(k_ID) = key.(k_ID) ->
         exists m3, ModelAccessMiddleware parseModel m2 r2 = (m3, Ok r2).
Proof.
  intros Hr Ha Hk Hm He. pose proof (grants_sync key a.(a_Team) a.(a_User) e model Hm) as G.
  do 2 eexists. split; [by apply (granted_passes m e r a key model)|]. split; [done|].
  intros m2 e2 r2 a2 key2 He2 X Hr2 Ha2 Hk2 Eid. eexists. apply (granted_passes m2 e2 r2 a2 key2 model); [done..|].
  rewrite Eid. eapply grants_mono; [|exact G]. etrans; [exact X|apply extends_sync].
Qed.

(** A request authenticated by other means than a key makes the check panic when
    there is a policy engine. *)
Theorem keyless_access_panics m e r a model :
  asks_for parseModel m r model -> r.(r_AuthCtx) = Some a -> a.(a_APIKey) = None -> m.(m_enforcer) = Some e ->
  ModelAccessMiddleware parseModel m r = (m, Panic).
Proof. intros Hr Ha Hk He. by rewrite (access_decision _ _ _ _ _ Hr Ha), He, Hk. Qed.

(** The subjects of the default policies. *)
Definition default_subjects : list string :=
  [RoleSub "proxy_admin"; RoleSub "proxy_admin_viewer"; RoleSub KeyTypeManagement; RoleSub KeyTypeReadOnly; RoleSub KeyTypeLLMAPI].

Lemma default_policies e p : p ∈ policies (AddDefaultPolicies e) -> p ∈ policies e \/ p.(p_sub) ∈ default_subjects.
Proof.
  unfold AddDefaultPolicies, AddPolicy. rewrite !AddPolicy_policies.
  intros Hp. repeat (destruct Hp as [->|Hp]; [right; cbn; set_solver|]). by left.
Qed.

(** With the policy engine and its default policies, a key generated without a
    key type is refused on every path with every method: its role is named by the
    empty type and has no policy. *)
Theorem untyped_key_denied m e r key :
  key.(k_KeyType) = "" -> policies e = [] -> (forall x y, has_role e x y = true -> x = y) ->
  m.(m_enforcer) = Some (AddDefaultPolicies e) ->
  exists m', check_permission m r key = (m', Err (writePermissionDenied "access denied by policy")).
Proof.
  intros Hty Hp Hr He. unfold check_permission. rewrite He, Hty. eexists. f_equal.
  set (e' := AddRoleForUser _ _ _). destruct (Enforce _ _ _ e') as [[]|] eqn:R; [|done|].
  2:{ unfold Enforce in R. by rewrite Enforce_spec in R. }
  exfalso. apply (proj1 (grants_iff _ _ _ _)) in R as (p & Hin & M).
  unfold e', AddRoleForUser in Hin. apply Grouping_policies, default_policies in Hin as [Hin|Hin].
  { rewrite Hp in Hin. by apply elem_of_nil in Hin. }
  unfold matcher in M. apply andb_prop in M as [[Hrole _]%andb_prop _].
  assert (Q : forall x y, has_role (AddDefaultPolicies e) x y = has_role e x y)
    by (intros; unfold AddDefaultPolicies, AddPolicy; by rewrite !AddPolicy_role).
  unfold e', AddRoleForUser in Hrole. apply role_inv in Hrole. rewrite !Q in Hrole.
  destruct Hrole as [Hx%Hr|[_ Hx%Hr]]; rewrite <- Hx in Hin; unfold default_subjects in Hin;
    repeat (apply elem_of_cons in Hin as [Hin|Hin]; [discriminate Hin|]); by apply elem_of_nil in Hin.
Qed.
End Policies.

(** ** Instances *)

Definition demo_crypto : Crypto := {| sha256_hex s := "#" +:+ s; base64url s := s |}.

(** Whole seconds in binary, most significant digit last. *)
Fixpoint pos_text (p : positive) : string :=
  match p with xH => "" | xO q => String "0"%char (pos_text q) | xI q => String "1"%char (pos_text q) end.

Fixpoint text_pos (s : string) : option positive :=
  match s with
  | EmptyString => Some xH
  | String "0"%char s' => xO <$> text_pos s'
  | String "1"%char s' => xI <$> text_pos s'
  | String _ _ => None
  end.

Lemma text_pos_text p : text_pos (pos_text p) = Some p.
Proof. induction p as [p IH|p IH|]; cbn; rewrite ?IH; done. Qed.

Definition demo_rfc : RFC3339 := {|
  Format t := pos_text (Z.to_pos (unix t + 1));
  Parse s := (fun p => (Z.pos p - 1) * Second) <$> text_pos s;
|}.

Lemma demo_rfc_laws : @RFC3339Laws demo_rfc.
Proof.
  split. intros t Ht. unfold four_digit_year in Ht. cbn. rewrite text_pos_text. cbn. f_equal. f_equal.
  assert (0 <= unix t) by (unfold unix; apply Z.div_pos; [lia|done]). rewrite Z2Pos.id by lia. lia.
Qed.

Definition demo_ops : list key_op := [KCreate (key_named "k1" "#sec1")<|k_AllowedModels := ["gpt"]|>].
Definition demo_store : MemoryStore := foldl run_op NewMemoryStore demo_ops.
Definition demo_mw (e : option ListCasbin.engine) : Middleware MemoryStore ListCasbin.engine :=
  NewMiddleware demo_store [] true 0 e.
Definition demo_request (secret : string) : Request :=
  {| r_Method := "POST"; r_Path := "/v1/embeddings"; r_Authorization := "Bearer " +:+ secret; r_AuthCtx := None;
     r_Body := "gpt"; r_BodyFails := false |}.
Definition demo_key : APIKey := (key_named "k1" "#sec1")<|k_AllowedModels := ["gpt"]|>.

Lemma demo_keys_ok : keys_ok demo_store.
Proof. apply (run_ops_ok demo_ops NewMemoryStore keys_ok_new). by vm_compute. Qed.

Lemma demo_must (secret : string) : must_authenticate (demo_mw None) (demo_request secret).
Proof. split; [done|]. split; [|done]. cbn. set_solver. Qed.


Definition demo_generate : GenerateKeyRequest :=
  {| gq_Name := "n"; gq_KeyAlias := None; gq_TeamID := None; gq_UserID := None; gq_OrganizationID := None; gq_Models := [];
     gq_MaxBudget := None; gq_SoftBudget := None; gq_BudgetDuration := ""; gq_TPMLimit := None; gq_RPMLimit := None;
     gq_MaxParallelReqs := None; gq_ModelMaxBudget := None; gq_ModelTPMLimit := None; gq_ModelRPMLimit := None;
     gq_Duration := "1d"; gq_Metadata := None; gq_KeyType := ""; gq_AutoRotate := true; gq_RotationInterval := "30d" |}.

Definition demo_clocks : clocks := {| now := 0; now_reset := 0; now_expiry := 0; now_rotation := 0 |}.

Lemma demo_fresh secret : secret <> "sec1" -> forall id k0, abs demo_store !! id = Some k0 -> k0.(k_KeyHash) <> "#" +:+ secret.
Proof.
  intros Hne id k0. replace (abs demo_store) with ({["k1" := demo_key]} : directory) by (by vm_compute).
  rewrite lookup_singleton_Some. intros [_ <-]. intros E. change (String "#"%char "sec1" = String "#"%char secret) in E. injection E. congruence.
Qed.

Lemma generated_key_lifecycle_witness :
  exists s' resp, @GenerateKey _ (memory_auth_store elements) demo_rfc demo_clocks "k2" (Some ("sec2", "#sec2")) (Some demo_generate) demo_store
    = (s', RGenerated resp) /\ resp.(gr_Key) = "sec2".
Proof.
  destruct (@generated_key_lifecycle _ _ demo_crypto elements demo_rfc demo_clocks "k2" "sec2" demo_generate demo_store
    (demo_mw None) (demo_request "sec2") 5 5) as (s' & resp & G & K & _);
    [apply demo_keys_ok|by vm_compute|by apply demo_fresh|done|done|apply demo_must|done|by vm_compute|].
  exists s', resp. split; [exact G|exact K].
Defined.

Lemma regenerate_keeps_old_secret_witness :
  exists s' resp k, @RegenerateKey _ (memory_auth_store elements) demo_rfc demo_clocks (Some ("sec2", "#sec2")) (Some "k1") demo_store
      = (s', RGenerated resp)
    /\ @lookup_key _ ListCasbin.engine (memory_auth_store elements) demo_crypto 5 (with_store (demo_mw None) s') "Bearer sec2"
      = Err (writeUnauthorized "invalid api key")
    /\ @lookup_key _ ListCasbin.engine (memory_auth_store elements) demo_crypto 5 (with_store (demo_mw None) s') "Bearer sec1" = Ok k.
Proof.
  destruct (@regenerate_keeps_old_secret ListCasbin.engine demo_crypto elements demo_rfc demo_clocks "k1" "sec2" "sec1" demo_key
    demo_store (demo_mw None) 5 "Bearer sec2" "Bearer sec1") as (s' & resp & k & R & _ & Hn & Ho & _);
    [apply demo_keys_ok|by vm_compute|done|by apply demo_fresh|by vm_compute|by vm_compute|done|].
  exists s', resp, k. split; [exact R|]. split; [exact Hn|exact Ho].
Defined.

Definition demo_update : UpdateKeyRequest :=
  {| gk_Key := "k1"; gk_Name := Some "renamed"; gk_KeyAlias := None; gk_Models := None; gk_MaxBudget := None;
     gk_SoftBudget := None; gk_BudgetDuration := None; gk_TPMLimit := None; gk_RPMLimit := None; gk_MaxParallelReqs := None;
     gk_ModelMaxBudget := None; gk_Metadata := None; gk_Duration := None; gk_AutoRotate := None; gk_RotationInterval := None |}.

Lemma update_key_loses_spend_witness :
  ms_GetAPIKeyByID "k1" (ms_UpdateAPIKeySpent "k1" fone demo_store).1
    = inr (Some demo_key<|k_SpentBudget ::= fun x => x ⊞ fone|>).
Proof.
  destruct (@update_key_loses_spend elements demo_rfc demo_clocks demo_update demo_key fone demo_store) as [S1 _];
    [apply demo_keys_ok|by vm_compute|]. exact S1.
Defined.

Lemma demo_asks e r : r = (demo_request "sec1")<|r_AuthCtx := Some (keyCtx demo_key None)|> -> asks_for Some (demo_mw e) r "gpt".
Proof. intros ->. split; [done|]. split; [cbn; set_solver|]. repeat split; done. Qed.

Lemma model_access_every_level_witness : Key_CanAccessModel demo_key "gpt" = true.
Proof.
  destruct (@model_access_every_level _ _ (memory_auth_store elements) _ Some (demo_mw None)
    (demo_request "sec1")<|r_AuthCtx := Some (keyCtx demo_key None)|>
    (demo_request "sec1")<|r_AuthCtx := Some (keyCtx demo_key None)|> (demo_mw None) (keyCtx demo_key None) "gpt") as [A _];
    [by apply demo_asks|done|done|by vm_compute|]. by apply A.
Defined.

Lemma narrowed_list_ignored_witness :
  exists m1, @ModelAccessMiddleware _ _ (memory_auth_store elements) _ Some (demo_mw (Some ListCasbin.empty))
      (demo_request "sec1")<|r_AuthCtx := Some (keyCtx demo_key None)|>
    = (m1, Ok (demo_request "sec1")<|r_AuthCtx := Some (keyCtx demo_key None)|>).
Proof.
  destruct (@narrowed_list_ignored _ _ (memory_auth_store elements) _ _ Some (demo_mw (Some ListCasbin.empty)) ListCasbin.empty
    (demo_request "sec1")<|r_AuthCtx := Some (keyCtx demo_key None)|> (keyCtx demo_key None) demo_key "gpt") as (m1 & e1 & R & _);
    [by apply demo_asks|done|done|by left|done|]. exists m1. exact R.
Defined.

Lemma untyped_key_denied_witness :
  exists m', @check_permission MemoryStore ListCasbin.engine _ (demo_mw (Some (AddDefaultPolicies ListCasbin.empty)))
    (demo_request "sec1") demo_key = (m', Err (writePermissionDenied "access denied by policy")).
Proof.
  apply (@untyped_key_denied MemoryStore ListCasbin.engine _ _ (demo_mw (Some (AddDefaultPolicies ListCasbin.empty)))
    ListCasbin.empty (demo_request "sec1") demo_key); [done|done| |done].
  intros x y. cbn. destruct (String.eqb_spec x y); done.
Defined.
