(* ===== verification/RedisLimiter.v ===== *)
(** * Distributed rate limiter ([internal/resilience/distributed_limiter.go], [redis_limiter.go])

    A fixed-window counter kept in Redis by a script that the server runs as one
    step.  Redis is a parameter: the class [RedisDB] has the commands the script
    calls, each at the instant of the server's clock, and [RedisDBLaws] says what
    their documentation says.  The keys hold numbers only. *)
From S2P Require Import Prelude Float64.
From Stdlib Require Import Sorted.

Definition LimitType := string.
Definition LimitTypeRequests : LimitType := "requests".
Definition LimitTypeTokens : LimitType := "tokens".

Record Descriptor := {
  d_Key : string;
  d_Value : string;
  d_Limit : Z;
  d_Type : LimitType;
  d_Increment : Z;
  d_Window : duration;
}.

Record LimitResult := {
  Allowed : bool;
  Current : Z;
  Remaining : Z;
  ResetAt : Z;
}.

(** The interface: the state of the backend, and an error or one result per
    descriptor.  The instant is that of the caller's clock; a backend with a clock of its
    own is seen through an instance in which the two agree. *)
Class DistributedLimiter (L : Type) := {
  dl_CheckAllow : time -> list Descriptor -> L -> L * (string + list LimitResult);
}.

(** ** Redis *)

(** [EXPIRE] takes seconds; [TTL] is -1 for a key without expiration. *)
Class RedisDB (R : Type) := {
  db_GET : time -> string -> R -> option Z;
  db_SET : time -> string -> Z -> R -> R;
  db_EXPIRE : time -> string -> Z -> R -> R;
  db_INCRBY : time -> string -> Z -> R -> R * Z;
  db_TTL : time -> string -> R -> Z;
}.

(** A key with its value and its deadline, as stored. *)
Definition stored := option (Z * option time).

Definition alive (t : time) (e : stored) : option (Z * option time) :=
  match e with
  | Some (v, Some dl) => if t <? dl then e else None
  | _ => e
  end.

Class RedisDBLaws (R : Type) `{RedisDB R} := {
  entry : R -> string -> stored;
  GET_spec t k r : db_GET t k r = fst <$> alive t (entry r k);
  SET_spec t k v r k' : entry (db_SET t k v r) k' = if decide (k' = k) then Some (v, None) else entry r k';
  EXPIRE_spec t k s r v dl :
    alive t (entry r k) = Some (v, dl) -> entry (db_EXPIRE t k s r) k = Some (v, Some (t + s * Second));
  EXPIRE_other t k s r k' : k' <> k -> entry (db_EXPIRE t k s r) k' = entry r k';
  INCRBY_spec t k n r v dl :
    alive t (entry r k) = Some (v, dl) ->
    (db_INCRBY t k n r).2 = v + n /\ entry (db_INCRBY t k n r).1 k = Some (v + n, dl);
  INCRBY_other t k n r k' : k' <> k -> entry (db_INCRBY t k n r).1 k' = entry r k';
  TTL_spec t k r v dl : alive t (entry r k) = Some (v, Some dl) -> db_TTL t k r <> -1;
}.

(** ** The limiter *)

Section Limiter.
Context {R : Type} `{RedisDB R}.

(** One turn of the script's loop at the server's instant [t]. *)
Definition script_pair (t : time) (now window_size : Z) (window_key counter_key : string) (increment : Z) (db : R) :
  R * (Z * Z) :=
  let window_start := db_GET t window_key db in
  let reset :=
    let db := db_SET t window_key now db in
    let db := db_SET t counter_key increment db in
    let db := db_EXPIRE t window_key window_size db in
    let db := db_EXPIRE t counter_key window_size db in
    (db, (now, increment)) in
  match window_start with
  | None => reset
  | Some ws =>
      if window_size <=? now - ws then reset
      else
        let '(db, counter) := db_INCRBY t counter_key increment db in
        let db := if db_TTL t counter_key db =? -1 then db_EXPIRE t counter_key window_size db else db in
        (db, (ws, counter))
  end.

Fixpoint script (t : time) (now window_size : Z) (pairs : list (string * string * Z)) (db : R) : R * list (Z * Z) :=
  match pairs with
  | [] => (db, [])
  | (wk, ck, inc) :: pairs' =>
      let '(db, r) := script_pair t now window_size wk ck inc db in
      let '(db, rs) := script t now window_size pairs' db in
      (db, r :: rs)
  end.

Definition baseKey (d : Descriptor) : string :=
  "{" +:+ d.(d_Key) +:+ ":" +:+ d.(d_Value) +:+ "}" +:+ ":" +:+ d.(d_Type).
Definition windowKey (d : Descriptor) : string := baseKey d +:+ ":window".
Definition counterKey (d : Descriptor) : string := baseKey d +:+ ":count".

Definition increment_of (d : Descriptor) : Z := if d.(d_Increment) <=? 0 then 1 else d.(d_Increment).

Definition limit_result (windowSize : Z) (d : Descriptor) (r : Z * Z) : LimitResult :=
  let '(windowStart, current) := r in
  let remaining := d.(d_Limit) -! current in
  {| Allowed := current <=? d.(d_Limit); Current := current;
     Remaining := if remaining <? 0 then 0 else remaining; ResetAt := windowStart +! windowSize |}.

(** [now] is the client's clock, [t] the server's; [failed] is the error of the
    call, if any, and whether the script had run by then. *)
Definition CheckAllow (now t : time) (failed : option (string * bool)) (descriptors : list Descriptor) (db : R) :
  R * (string + list LimitResult) :=
  match descriptors with
  | [] => (db, inr [])
  | d :: _ =>
      let windowSize := int_of_f64 (seconds d.(d_Window)) in
      let pairs := map (fun d => (windowKey d, counterKey d, increment_of d)) descriptors in
      let '(db', results) := script t (unix now) windowSize pairs db in
      match failed with
      | Some (err, ran) => (if ran then db' else db, inl err)
      | None => (db', inr (zip_with (limit_result windowSize) descriptors results))
      end
  end.
End Limiter.

(** With clocks that agree and no failures, the Redis limiter is a distributed
    limiter.  ([CheckAllow] itself has the clock of the node and that of the server apart,
    and the errors of a call.) *)
#[export] Instance redis_limiter {R} `{RedisDB R} : DistributedLimiter R := {
  dl_CheckAllow t ds db := CheckAllow t t None ds db;
}.

(** ** The script is a fixed-window counter

    The window in force and its count, without keys, deadlines or expiry. *)
Definition window_step (W : Z) (st : option (Z * Z)) (now increment : Z) : Z * Z :=
  match st with
  | Some (ws, c) => if W <=? now - ws then (now, increment) else (ws, c + increment)
  | None => (now, increment)
  end.

Section Refinement.
Context {R : Type} `{RedisDBLaws R} (wk ck : string) (W : Z).
Hypothesis keys_distinct : wk <> ck.

(** What the two keys hold when the window was opened at the instant [ts]. *)
Definition window_rel (db : R) (st : option (Z * Z)) (t : time) : Prop :=
  match st with
  | None => entry db wk = None
  | Some (ws, c) =>
      exists ts, ts <= t /\ ws = unix ts /\ entry db wk = Some (ws, Some (ts + W * Second))
        /\ entry db ck = Some (c, Some (ts + W * Second))
  end.

Lemma reset_rel t inc db :
  let db1 := db_SET t ck inc (db_SET t wk (unix t) db) in
  window_rel (db_EXPIRE t ck W (db_EXPIRE t wk W db1)) (Some (unix t, inc)) t.
Proof.
  intros db1. exists t. split; [lia|]. split; [done|].
  assert (E1 : entry db1 wk = Some (unix t, None)).
  { unfold db1. rewrite SET_spec, decide_False by done. by rewrite SET_spec, decide_True. }
  assert (E2 : entry db1 ck = Some (inc, None)) by (unfold db1; by rewrite SET_spec, decide_True).
  split.
  - rewrite EXPIRE_other by done. eapply EXPIRE_spec. by rewrite E1.
  - eapply EXPIRE_spec. rewrite EXPIRE_other by (by apply not_eq_sym). by rewrite E2.
Qed.

(** Whole seconds have passed when the deadline has. *)
Lemma deadline_passed ts t : ts + W * Second <= t -> W <= unix t - unix ts.
Proof.
  intros Hd. unfold unix. assert (ts / Second + W <= t / Second); [|lia].
  rewrite <- Z.div_add by done. apply Z.div_le_mono; [done|lia].
Qed.

(** One run of the script is one step of the counter. *)
Lemma script_refines db st t0 t inc :
  window_rel db st t0 -> t0 <= t ->
  (script_pair t (unix t) W wk ck inc db).2 = window_step W st (unix t) inc
  /\ window_rel (script_pair t (unix t) W wk ck inc db).1 (Some (window_step W st (unix t) inc)) t.
Proof.
  intros Rel Ht. unfold script_pair. rewrite GET_spec. destruct st as [[ws c]|]; cbn [window_step].
  - destruct Rel as (ts & Hts & -> & Ew & Ec). rewrite Ew. cbn [alive].
    destruct (Z.ltb_spec t (ts + W * Second)) as [Hl|Hl]; cbn [fmap option_fmap option_map fst].
    + destruct (Z.leb_spec W (unix t - unix ts)); [split; [done|apply reset_rel]|].
      assert (Al : alive t (entry db ck) = Some (c, Some (ts + W * Second)))
        by (rewrite Ec; cbn; by replace (t <? _) with true by lia).
      destruct (INCRBY_spec t ck inc db _ _ Al) as [Iv Ie].
      pose proof (INCRBY_other t ck inc db wk keys_distinct) as Io.
      destruct (db_INCRBY t ck inc db) as [db' v]. cbn [fst snd] in Iv, Ie, Io. subst v.
      assert (T : db_TTL t ck db' <> -1) by (eapply TTL_spec; rewrite Ie; cbn; by replace (t <? _) with true by lia).
      replace (db_TTL t ck db' =? -1) with false by lia. cbn [fst snd]. split; [done|].
      exists ts. split; [lia|]. split; [done|]. by rewrite Io, Ie.
    + pose proof (deadline_passed ts t Hl). replace (W <=? _) with true by lia. split; [done|apply reset_rel].
  - cbn [window_rel] in Rel. rewrite Rel. cbn. split; [done|apply reset_rel].
Qed.
End Refinement.

(** ** Admission *)

Section Admission.
Context {R : Type} `{RedisDBLaws R} (d : Descriptor).

(** Calls for one descriptor, at these instants, whichever node makes them. *)
Fixpoint check_run (ts : list time) (db : R) : list LimitResult :=
  match ts with
  | [] => []
  | t :: ts' =>
      let '(db', r) := dl_CheckAllow t [d] db in
      match r with inr rs => rs ++ check_run ts' db' | inl _ => check_run ts' db' end
  end.

Definition windowSize : Z := int_of_f64 (seconds d.(d_Window)).

Fixpoint window_run (st : option (Z * Z)) (ts : list time) : list (Z * Z) :=
  match ts with
  | [] => []
  | t :: ts' => let r := window_step windowSize st (unix t) (increment_of d) in r :: window_run (Some r) ts'
  end.

Lemma keys_differ : windowKey d <> counterKey d.
Proof.
  unfold windowKey, counterKey. intros E. by apply (inj (String.append (baseKey d))) in E.
Qed.

Lemma check_run_refines ts db st t0 :
  Sorted Z.le (t0 :: ts) -> window_rel (windowKey d) (counterKey d) windowSize db st t0 ->
  check_run ts db = map (limit_result windowSize d) (window_run st ts).
Proof.
  revert t0 db st. induction ts as [|t ts IH]; intros t0 db st Hs Rel; [done|].
  inversion Hs as [|? ? Hs' Hh]; subst. inversion Hh as [|? ? Ht]; subst.
  destruct (script_refines _ _ _ keys_differ db st t0 t (increment_of d) Rel Ht) as [E Rel'].
  cbn [check_run window_run map dl_CheckAllow redis_limiter CheckAllow script]. fold windowSize.
  destruct (script_pair t (unix t) windowSize (windowKey d) (counterKey d) (increment_of d) db) as [db' r].
  cbn [fst snd] in E, Rel'. subst r. cbn. f_equal. by apply (IH t).
Qed.

(** Results of one window have growing counts; windows are apart. *)
Definition later (r1 r2 : Z * Z) : Prop := r1.1 = r2.1 /\ r1.2 < r2.2 \/ r1.1 + windowSize <= r2.1.

Lemma increment_pos : 0 < increment_of d.
Proof. unfold increment_of. destruct (Z.leb_spec (d_Increment d) 0); lia. Qed.

Lemma later_trans r1 r2 r3 : 0 < windowSize -> later r1 r2 -> later r2 r3 -> later r1 r3.
Proof. unfold later. lia. Qed.

Lemma step_later s now : now - s.1 < windowSize \/ windowSize <= now - s.1 ->
  later s (window_step windowSize (Some s) now (increment_of d)).
Proof.
  destruct s as [ws c]. cbn. pose proof increment_pos. unfold later.
  destruct (Z.leb_spec windowSize (now - ws)); cbn; lia.
Qed.

Lemma window_run_later ts st :
  0 < windowSize -> (forall s, st = Some s -> 0 <= s.2) ->
  StronglySorted later (window_run st ts) /\ Forall (fun r => 0 < r.2) (window_run st ts)
  /\ (forall s, st = Some s -> Forall (later s) (window_run st ts)).
Proof.
  intros HW. pose proof increment_pos as HI. revert st. induction ts as [|t ts IH]; intros st Hst.
  { repeat split; constructor. }
  cbn [window_run]. set (r := window_step windowSize st (unix t) (increment_of d)).
  assert (Hr : 0 < r.2).
  { unfold r, window_step. destruct st as [[ws c]|]; [|cbn; lia].
    specialize (Hst _ eq_refl). cbn in Hst. case_match; cbn; lia. }
  destruct (IH (Some r)) as (S1 & S2 & S3); [intros s [= <-]; lia|].
  split; [constructor; [done|by apply S3]|]. split; [by constructor|].
  intros s ->. assert (Hl : later s r) by (apply step_later; lia). constructor; [done|].
  eapply Forall_impl; [by apply S3|]. intros r' Hr'. by eapply later_trans.
Qed.

(** In one window at most [n] results have a count of at most [n]. *)
Lemma window_count rs w n :
  0 < windowSize -> StronglySorted later rs -> Forall (fun r => 0 < r.2) rs ->
  Z.of_nat (length (keep (fun r => (r.1 =? w) && (r.2 <=? n)) rs)) <= Z.max 0 n.
Proof.
  intros HW Hs Hp.
  assert (G : forall lo, 0 <= lo -> Forall (fun r => r.1 = w -> lo < r.2) rs ->
    Z.of_nat (length (keep (fun r => (r.1 =? w) && (r.2 <=? n)) rs)) <= Z.max 0 (n - lo)).
  { clear Hp. induction Hs as [|r rs Hs IH Hr]; intros lo Hlo HF; [cbn; lia|]. inversion HF as [|? ? Hlo' HF']; subst.
    cbn [keep List.filter]. destruct (Z.eqb_spec r.1 w) as [Ew|]; cbn [andb]; [|by apply IH].
    specialize (Hlo' Ew). destruct (Z.leb_spec r.2 n); [|by apply IH]. cbn [length]. fold (keep (fun r => (r.1 =? w) && (r.2 <=? n)) rs).
    specialize (IH r.2). enough (Z.of_nat (length (keep (fun r => (r.1 =? w) && (r.2 <=? n)) rs)) <= Z.max 0 (n - r.2)) by lia.
    apply IH; [lia|]. eapply Forall_impl; [exact Hr|]. unfold later. cbn. intros x. lia. }
  specialize (G 0). rewrite Z.sub_0_r in G. apply G; [lia|]. eapply Forall_impl; [exact Hp|]. done.
Qed.

Lemma window_run_bounds ts st :
  (forall s, st = Some s -> 0 <= s.1 < 2 ^ 62) -> Forall (fun t => 0 <= t < two63) ts ->
  Forall (fun r => 0 <= r.1 < 2 ^ 62) (window_run st ts).
Proof.
  intros Hst Ht. revert st Hst. induction Ht as [|t ts Ht _ IH]; intros st Hst; cbn [window_run]; [constructor|].
  assert (Hu : 0 <= unix t < 2 ^ 62).
  { unfold unix. split; [apply Z.div_pos; [lia|done]|]. apply Z.div_lt_upper_bound; [done|]. unfold two63, Second in *. lia. }
  assert (Hr : 0 <= (window_step windowSize st (unix t) (increment_of d)).1 < 2 ^ 62).
  { unfold window_step. destruct st as [[ws c]|]; [|done]. specialize (Hst _ eq_refl). by case_match. }
  constructor; [done|]. apply IH. by intros s [= <-].
Qed.

(** C7: A fixed window admits at most the limit.  For calls of any nodes, all with the same
    single descriptor, whose window is at least a second (and less than 2^62 seconds) long
    and which has no window in Redis before the first call, with clocks of the nodes and of
    the Redis server that agree, do not go back and are between 1970 and the end of 64-bit
    nanoseconds, and no failing call: however the calls of the nodes interleave, of those
    that fall in one window (that report the same reset time) at most the limit are
    allowed, and each call is answered as by a counter without keys and deadlines: the
    expiration of the Redis keys never loses or revives a window. *)
Theorem redis_limit_per_window ts db t0 reset :
  0 < windowSize < 2 ^ 62 -> Sorted Z.le (t0 :: ts) -> Forall (fun t => 0 <= t < two63) ts ->
  entry db (windowKey d) = None ->
  check_run ts db = map (limit_result windowSize d) (window_run None ts)
  /\ Z.of_nat (length (keep (fun r => (r.(ResetAt) =? reset) && r.(Allowed)) (check_run ts db))) <= Z.max 0 d.(d_Limit).
Proof.
  intros HW Hs Hr He. assert (E : check_run ts db = map (limit_result windowSize d) (window_run None ts))
    by (eapply check_run_refines; [exact Hs|exact He]).
  split; [exact E|]. rewrite E.
  destruct (window_run_later ts None ltac:(lia)) as (S1 & S2 & _); [done|].
  etrans; [|apply (window_count _ (reset - windowSize) d.(d_Limit) ltac:(lia) S1 S2)].
  assert (B : Forall (fun r => 0 <= r.1 < 2 ^ 62) (window_run None ts)) by by apply window_run_bounds.
  apply Nat2Z.inj_le. clear - B HW. induction B as [|[ws c] rs Hb B IH]; [done|].
  cbn [map keep List.filter limit_result ResetAt Allowed fst snd]. rewrite wrap64_id by (unfold in_i64, two63; cbn in Hb; lia).
  replace (ws + windowSize =? reset) with (ws =? reset - windowSize) by lia.
  destruct (_ && _); cbn [length]; unfold keep in IH; lia.
Qed.

Lemma window_run_zero ts st t0 :
  windowSize = 0 -> Sorted Z.le (t0 :: ts) -> (forall s, st = Some s -> s.1 <= unix t0) ->
  Forall (fun r => r.2 = increment_of d) (window_run st ts).
Proof.
  intros HW. revert st t0. induction ts as [|t ts IH]; intros st t0 Hs Hst; cbn [window_run]; [constructor|].
  inversion Hs as [|? ? Hs' Hh]; subst. inversion Hh as [|? ? Ht]; subst.
  assert (unix t0 <= unix t) by (apply Z.div_le_mono; [done|lia]).
  assert (E : window_step windowSize st (unix t) (increment_of d) = (unix t, increment_of d)).
  { unfold window_step. rewrite HW. destruct st as [[ws c]|]; [|done]. specialize (Hst _ eq_refl). cbn in Hst.
    by replace (0 <=? unix t - ws) with true by lia. }
  rewrite E. constructor; [done|]. apply (IH _ t); [done|]. by intros s [= <-].
Qed.

(** A descriptor without a window is never limited.  The window is documented
    to default to one minute, but the zero value is passed on: every call opens a
    window of no length and is counted alone. *)
Theorem zero_window_never_limits ts db t0 :
  d.(d_Window) = 0 -> increment_of d <= d.(d_Limit) -> Sorted Z.le (t0 :: ts) -> entry db (windowKey d) = None ->
  Forall (fun r => r.(Allowed) = true) (check_run ts db).
Proof.
  intros H0' Hl Hs He. assert (HW : windowSize = 0) by (unfold windowSize; by rewrite H0').
  rewrite (check_run_refines ts db None t0 Hs He). apply Forall_map.
  eapply Forall_impl; [apply (window_run_zero ts None t0); done|].
  intros [ws c] Hc. cbn in *. lia.
Qed.
End Admission.

(** ** A Redis *)
Module MapRedis.

Abbreviation db := (gmap string (Z * option time)).

#[global] Instance map_redis : RedisDB db := {
  db_GET t k r := fst <$> alive t (r !! k);
  db_SET t k v r := <[k := (v, None)]> r;
  db_EXPIRE t k s r := match alive t (r !! k) with Some (v, _) => <[k := (v, Some (t + s * Second))]> r | None => r end;
  db_INCRBY t k n r :=
    match alive t (r !! k) with
    | Some (v, dl) => (<[k := (v + n, dl)]> r, v + n)
    | None => (<[k := (n, None)]> r, n)
    end;
  db_TTL t k r :=
    match alive t (r !! k) with Some (_, Some dl) => (dl - t) / Second | Some (_, None) => -1 | None => -2 end;
}.

#[global] Instance map_redis_laws : RedisDBLaws db.
Proof.
  refine {| entry := fun (r : db) k => r !! k : stored |}.
  - done.
  - intros t k v r k'. cbn. rewrite lookup_insert. repeat case_decide; congruence.
  - intros t k s r v dl E. cbn. rewrite E. apply lookup_insert_eq.
  - intros t k s r k' Hne. cbn. repeat case_match; [by apply lookup_insert_ne, not_eq_sym|done].
  - intros t k n r v dl E. cbn. rewrite E. split; [done|]. apply lookup_insert_eq.
  - intros t k n r k' Hne. cbn. repeat case_match; by apply lookup_insert_ne, not_eq_sym.
  - intros t k r v dl E. cbn. rewrite E. cbn in E. unfold alive in E. repeat case_match; simplify_eq.
    assert (0 <= (dl - t) / Second); [apply Z.div_pos; [lia|done]|lia].
Defined.
End MapRedis.

Definition demo_descriptor (w : duration) : Descriptor :=
  {| d_Key := "k"; d_Value := "request"; d_Limit := 2; d_Type := LimitTypeRequests; d_Increment := 0; d_Window := w |}.

Lemma redis_limit_per_window_witness :
  map Allowed (check_run (demo_descriptor Minute) [0; Second; 2 * Second; 70 * Second] (∅ : MapRedis.db))
  = [true; true; false; true].
Proof.
  destruct (redis_limit_per_window (demo_descriptor Minute) [0; Second; 2 * Second; 70 * Second] (∅ : MapRedis.db) 0 60) as [E _];
    [by vm_compute|repeat constructor; by vm_compute|repeat constructor; by vm_compute|done|].
  rewrite E. by vm_compute.
Defined.

Lemma zero_window_never_limits_witness :
  Forall (fun r => r.(Allowed) = true)
    (check_run (demo_descriptor 0) [0; 0; 0; 0; Second] (∅ : MapRedis.db)).
Proof.
  apply (zero_window_never_limits (demo_descriptor 0) [0; 0; 0; 0; Second] (∅ : MapRedis.db) 0);
    [done|by vm_compute|repeat constructor; by vm_compute|done].
Defined.
