(* ===== verification/TenantLimiter.v ===== *)
(** * Per-tenant rate limiter ([internal/auth/ratelimiter.go])

    One limiter per tenant, created on first use, or a distributed limiter shared
    by the nodes; and the identity of an anonymous caller, taken from the address
    of the connection or from the headers of trusted proxies.  The token bucket of
    [golang.org/x/time/rate] is the class [RateLimiter], the addresses of the
    [net] library are the class [NetLib]. *)
From Stdlib Require Import Ascii.
From S2P Require Import Prelude Float64 ModelName AuthTypes RedisLimiter.

#[local] Abbreviation explode := String.list_ascii_of_string.
#[local] Abbreviation implode := String.string_of_list_ascii.

Class RateLimiter (T : Type) := {
  rate_NewLimiter : f64 -> Z -> T;
  rate_AllowN : time -> Z -> T -> T * bool;
  rate_SetLimit : time -> f64 -> T -> T;
  rate_SetBurst : time -> Z -> T -> T;
}.

Class NetLib (IP Net : Type) := {
  net_ParseIP : string -> option IP;
  net_To4 : IP -> option IP;
  net_String : IP -> string;
  net_Contains : Net -> IP -> bool;
  net_ParseCIDR : string -> option Net;
  net_SplitHostPort : string -> option (string * string);
  net_SingleHost : IP -> Z -> Net;  (* [net.IPNet] of an address and a mask of so many ones *)
}.

(** ** Strings *)

(** [strings.Split(s, sep)] of a one-byte separator. *)
Fixpoint split_on (sep : ascii) (l : list ascii) : list (list ascii) :=
  match l with
  | [] => [[]]
  | c :: l' =>
      if Ascii.eqb c sep then [] :: split_on sep l'
      else match split_on sep l' with p :: ps => (c :: p) :: ps | [] => [[c]] end
  end.

Definition Split (s : string) (sep : ascii) : list string := map implode (split_on sep (explode s)).

Definition lower (c : ascii) : ascii :=
  let n := N_of_ascii c in if ((65 <=? n) && (n <=? 90))%N then ascii_of_N (n + 32) else c.

(** [strings.EqualFold] against a lower-case ASCII word.  (A value that equals it
    only by a fold outside ASCII is no address: both ways it is skipped.) *)
Definition fold_eq (s word : string) : bool := String.eqb (implode (map lower (explode s))) word.

Fixpoint drop_while (f : ascii -> bool) (l : list ascii) : list ascii :=
  match l with c :: l' => if f c then drop_while f l' else l | [] => [] end.

(** [strings.Trim(s, quote)] *)
Definition trim_quotes (s : string) : string :=
  let q := fun c => Ascii.eqb c (ascii_of_N 34) in
  implode (reverse (drop_while q (reverse (drop_while q (explode s))))).

(** What is before the first byte [c], [None] when there is none. *)
Fixpoint before_byte (c : ascii) (l : list ascii) : option (list ascii) :=
  match l with
  | [] => None
  | d :: l' => if Ascii.eqb d c then Some [] else (cons d) <$> before_byte c l'
  end.

Section ClientIP.
Context {IP Net : Type} `{NetLib IP Net}.

Definition normalizeIP (ip : option IP) : option IP :=
  match ip with
  | None => None
  | Some i => match net_To4 i with Some i4 => Some i4 | None => Some i end
  end.

Definition parseIP (value : string) : option IP :=
  let value := TrimSpace value in
  if String.eqb value "" then None
  else
    let value := match before_byte "%" (explode value) with Some v => implode v | None => value end in
    normalizeIP (net_ParseIP value).

Definition ipInNets (ip : option IP) (nets : list Net) : bool :=
  match ip with None => false | Some i => existsb (fun n => net_Contains n i) nets end.

Definition parseForwardedForValue (value : string) : option IP :=
  let value := TrimSpace value in
  let value := trim_quotes value in
  if String.eqb value "" || fold_eq value "unknown" then None
  else
    let rest := match net_SplitHostPort value with Some (host, _) => parseIP host | None => parseIP value end in
    match explode value with
    | "["%char :: v => match before_byte "]" (explode value) with
                       | Some b => parseIP (implode (drop 1 b))
                       | None => rest
                       end
    | _ => rest
    end.

Definition for_param (param : string) : option IP :=
  let param := TrimSpace param in
  if (String.length param <? 4)%nat || negb (fold_eq (String.substring 0 4 param) "for=") then None
  else parseForwardedForValue (TrimSpace (String.substring 4 (String.length param - 4) param)).

Definition parseForwardedFor (header : string) : list IP :=
  if String.eqb header "" then []
  else omap for_param (flat_map (fun part => Split part ";") (Split header ",")).

Definition parseXForwardedFor (header : string) : list IP :=
  if String.eqb header "" then [] else omap parseIP (Split header ",").

(** The last address that is no trusted proxy; all being proxies, the first. *)
Definition selectClientIP (ips : list IP) (trusted : list Net) : string :=
  match head (keep (fun ip => negb (ipInNets (Some ip) trusted)) (reverse (omap (fun ip => normalizeIP (Some ip)) ips))) with
  | Some ip => net_String ip
  | None => match head (omap (fun ip => normalizeIP (Some ip)) ips) with Some ip => net_String ip | None => "" end
  end.

Definition forwardedClientIP (header : string) (trusted : list Net) : string :=
  selectClientIP (parseForwardedFor header) trusted.
Definition xForwardedForClientIP (header : string) (trusted : list Net) : string :=
  selectClientIP (parseXForwardedFor header) trusted.
Definition headerClientIP (value : string) : string :=
  match parseIP value with Some ip => net_String ip | None => "" end.

Definition remoteAddrHost (addr : string) : string :=
  if String.eqb addr "" then ""
  else match net_SplitHostPort addr with
       | Some (host, _) => if String.eqb host "" then addr else host
       | None => addr
       end.

(** What is read of an HTTP request; a missing header is empty. *)
Record HttpRequest := {
  h_RemoteAddr : string;
  h_Forwarded : string;
  h_XForwardedFor : string;
  h_XRealIP : string;
}.

(** [if x != "" { return x }] *)
Definition or_else (x y : string) : string := if String.eqb x "" then y else x.

Definition anonymousRateLimitKey (r : option HttpRequest) (trusted : list Net) : string :=
  match r with
  | None => ""
  | Some r =>
      let remoteHost := remoteAddrHost r.(h_RemoteAddr) in
      if String.eqb remoteHost "" then ""
      else match trusted with
      | [] => remoteHost
      | _ =>
          match parseIP remoteHost with
          | None => remoteHost
          | Some remoteIP =>
              if negb (ipInNets (Some remoteIP) trusted) then remoteHost
              else or_else (forwardedClientIP r.(h_Forwarded) trusted)
                     (or_else (xForwardedForClientIP r.(h_XForwardedFor) trusted)
                        (or_else (headerClientIP r.(h_XRealIP)) remoteHost))
          end
      end
  end.

(** The networks that parse, and the values that do not. *)
Definition parse_proxy (value : string) : string + Net :=
  let value := TrimSpace value in
  if String.eqb value "" then inl value
  else if existsb (Ascii.eqb "/") (explode value) then
    match net_ParseCIDR value with Some n => inr n | None => inl value end
  else match normalizeIP (net_ParseIP value) with
       | None => inl value
       | Some ip => inr (net_SingleHost ip (match net_To4 ip with Some _ => 32 | None => 128 end))
       end.

Definition parseTrustedProxyCIDRs (values : list string) : list Net * list string :=
  (omap (fun v => match parse_proxy v with inr n => Some n | inl _ => None end) values,
   omap (fun v => match parse_proxy v with inl x => Some x | inr _ => None end) values).
End ClientIP.

(** ** The limiter *)

Record TenantRateLimiterConfig := {
  c_DefaultRPM : Z;
  c_DefaultBurst : Z;
  c_UseDefaultBurst : bool;
  c_CleanupTTL : duration;
  c_FailOpen : bool;
  c_TrustedProxyCIDRs : list string;
}.

(** [L] is the state of the distributed limiter. *)
Record TenantRateLimiter (T Net L : Type) := {
  limiters : gmap string T;
  lastAccess : gmap string time;
  defaultRate : f64;
  defaultBurst : Z;
  useDefaultBurst : bool;
  cleanupTTL : duration;
  distributedLimiter : option L;
  failOpen : bool;
  trustedProxies : list Net;
}.
Arguments limiters {T Net L}.
Arguments lastAccess {T Net L}.
Arguments defaultRate {T Net L}.
Arguments defaultBurst {T Net L}.
Arguments useDefaultBurst {T Net L}.
Arguments cleanupTTL {T Net L}.
Arguments distributedLimiter {T Net L}.
Arguments failOpen {T Net L}.
Arguments trustedProxies {T Net L}.

(** [rate.Limit(float64(rpm) / 60.0)] *)
Definition rate_of (rpm : Z) : f64 := f64_of_Z rpm ⊘ f64_of_Z 60.

Record limiter_stats := { active_tenants : Z; default_rpm : Z; default_burst : Z }.

Section Limiter.
Context {IP Net T L : Type} `{NetLib IP Net} `{RateLimiter T} `{DistributedLimiter L}.
Abbreviation trl := (TenantRateLimiter T Net L).

Definition or_positive (n d : Z) : Z := if n <=? 0 then d else n.

Definition NewTenantRateLimiter (cfg : TenantRateLimiterConfig) : trl :=
  {| limiters := ∅; lastAccess := ∅;
     defaultRate := rate_of (or_positive cfg.(c_DefaultRPM) 60);
     defaultBurst := or_positive cfg.(c_DefaultBurst) 10; useDefaultBurst := cfg.(c_UseDefaultBurst);
     cleanupTTL := or_positive cfg.(c_CleanupTTL) (10 * Minute); distributedLimiter := None;
     failOpen := cfg.(c_FailOpen); trustedProxies := (parseTrustedProxyCIDRs cfg.(c_TrustedProxyCIDRs)).1 |}.

Definition set_limiters (f : gmap string T -> gmap string T) (g : gmap string time -> gmap string time) (x : trl) : trl :=
  {| limiters := f x.(limiters); lastAccess := g x.(lastAccess); defaultRate := x.(defaultRate);
     defaultBurst := x.(defaultBurst); useDefaultBurst := x.(useDefaultBurst); cleanupTTL := x.(cleanupTTL);
     distributedLimiter := x.(distributedLimiter); failOpen := x.(failOpen); trustedProxies := x.(trustedProxies) |}.

Definition SetDistributedLimiter (l : option L) (x : trl) : trl :=
  {| limiters := x.(limiters); lastAccess := x.(lastAccess); defaultRate := x.(defaultRate);
     defaultBurst := x.(defaultBurst); useDefaultBurst := x.(useDefaultBurst); cleanupTTL := x.(cleanupTTL);
     distributedLimiter := l; failOpen := x.(failOpen); trustedProxies := x.(trustedProxies) |}.

(** The limiter of the tenant, made with the given rate and burst on first use. *)
Definition getLimiter (now : time) (tenantID : string) (rpm burst : Z) (x : trl) : trl * T :=
  match x.(limiters) !! tenantID with
  | Some limiter => (set_limiters id (<[tenantID := now]>) x, limiter)
  | None =>
      let r := if 0 <? rpm then rate_of rpm else x.(defaultRate) in
      let b := if 0 <? burst then burst else x.(defaultBurst) in
      let limiter := rate_NewLimiter r b in
      (set_limiters (<[tenantID := limiter]>) (<[tenantID := now]>) x, limiter)
  end.

(** The limiter is an object: asking it changes it in the map. *)
Definition ask (now : time) (tenantID : string) (n : Z) (p : trl * T) : trl * bool :=
  let '(limiter, ok) := rate_AllowN now n p.2 in (set_limiters (<[tenantID := limiter]>) id p.1, ok).

Definition AllowWithCustomRate (now : time) (tenantID : string) (rpm burst : Z) (x : trl) : trl * bool :=
  ask now tenantID 1 (getLimiter now tenantID rpm burst x).

Definition trl_Allow (now : time) (tenantID : string) (x : trl) : trl * bool :=
  ask now tenantID 1 (getLimiter now tenantID 0 0 x).

Definition trl_AllowN (now : time) (tenantID : string) (n : Z) (x : trl) : trl * bool :=
  ask now tenantID n (getLimiter now tenantID 0 0 x).

(** [int64(trl.defaultRate * 60)] when the tenant has no rate of its own. *)
Definition distributed_limit (rpm : Z) (x : trl) : Z :=
  if rpm <=? 0 then int_of_f64 (x.(defaultRate) ⊠ f64_of_Z 60) else rpm.

Definition limit_descriptor (tenantID : string) (limit : Z) : Descriptor :=
  {| d_Key := tenantID; d_Value := "request"; d_Limit := limit; d_Type := LimitTypeRequests; d_Increment := 0;
     d_Window := Minute |}.

(** The decision and the error of the backend. *)
Definition Check (now : time) (tenantID : string) (rpm burst : Z) (x : trl) : trl * (bool * option string) :=
  match x.(distributedLimiter) with
  | Some l =>
      let '(l, res) := dl_CheckAllow now [limit_descriptor tenantID (distributed_limit rpm x)] l in
      (SetDistributedLimiter (Some l) x,
       match res with
       | inr (r :: _) => (r.(Allowed), None)
       | inr [] => (x.(failOpen), Some "distributed rate limiter returned no results")
       | inl err => (x.(failOpen), Some err)
       end)
  | None => let '(x, ok) := AllowWithCustomRate now tenantID rpm burst x in (x, (ok, None))
  end.

Definition trl_SetRate (now : time) (tenantID : string) (rpm burst : Z) (x : trl) : trl :=
  let r := rate_of rpm in
  let limiter := match x.(limiters) !! tenantID with
                 | Some l => rate_SetBurst now burst (rate_SetLimit now r l)
                 | None => rate_NewLimiter r burst
                 end in
  set_limiters (<[tenantID := limiter]>) (<[tenantID := now]>) x.

Definition Remove (tenantID : string) (x : trl) : trl := set_limiters (delete tenantID) (delete tenantID) x.

Definition Stats (x : trl) : limiter_stats :=
  {| active_tenants := Z.of_nat (size x.(limiters)); default_rpm := int_of_f64 (x.(defaultRate) ⊠ f64_of_Z 60);
     default_burst := x.(defaultBurst) |}.

(** Tenants idle for longer than the time-to-live. *)
Definition idle (now : time) (x : trl) (t : time) : bool := x.(cleanupTTL) <? time_sub now t.

Definition idle_tenant (now : time) (x : trl) (tenantID : string) : bool :=
  match x.(lastAccess) !! tenantID with Some t => idle now x t | None => false end.

Definition cleanup (now : time) (x : trl) : trl :=
  set_limiters (filter (fun p => idle_tenant now x p.1 = false)) (filter (fun p => idle_tenant now x p.1 = false)) x.

Definition burstForRate (x : trl) (rpm minBurst : Z) : Z :=
  let burst := rpm /! 6 in
  let burst := if burst <? minBurst then minBurst else burst in
  if x.(useDefaultBurst) && (0 <? x.(defaultBurst)) then
    if x.(defaultBurst) <? burst then x.(defaultBurst) else burst
  else burst.

Definition AnonymousKey (r : option HttpRequest) (x : trl) : string := anonymousRateLimitKey r x.(trustedProxies).

(** [None] lets the request through, [Some] is the message of the 429 reply.
    The clock is read at each check. *)
Definition RateLimitMiddleware (now : time) (authCtx : option AuthContext) (r : HttpRequest) (x : trl) : trl * option string :=
  match authCtx ≫= a_APIKey with
  | None =>
      let '(x, (allowed, _)) := Check now (AnonymousKey (Some r) x) 0 0 x in
      (x, if allowed then None else Some "rate limit exceeded")
  | Some key =>
      let rpm := default 0 key.(k_RPMLimit) in
      let burst := burstForRate x rpm 1 in
      let '(x, team_allowed) :=
        match authCtx ≫= a_Team with
        | Some team =>
            match team.(t_RPMLimit) with
            | Some teamRPM =>
                if 0 <? teamRPM then
                  let '(x, (allowed, _)) := Check now ("team:" +:+ team.(t_ID)) teamRPM (burstForRate x teamRPM 0) x in
                  (x, allowed)
                else (x, true)
            | None => (x, true)
            end
        | None => (x, true)
        end in
      if negb team_allowed then (x, Some "team rate limit exceeded")
      else
        let '(x, (allowed, _)) := if 0 <? rpm then Check now key.(k_ID) rpm burst x else Check now key.(k_ID) 0 0 x in
        (x, if allowed then None else Some "rate limit exceeded")
  end.
End Limiter.

(** ** The identity of an anonymous caller *)

Lemma split_on_nonempty sep l : split_on sep l <> [].
Proof. destruct l as [|c l]; cbn; [done|]. repeat case_match; done. Qed.

(** A last part without the separator stays whole. *)
Lemma split_on_last sep pre last :
  sep ∉ last -> split_on sep (pre ++ sep :: last) = split_on sep pre ++ [last].
Proof.
  intros Hl. assert (L : split_on sep last = [last]).
  { induction last as [|c l IH]; [done|]. apply not_elem_of_cons in Hl as [Hc Hl]. cbn.
    destruct (Ascii.eqb_spec c sep); [congruence|]. by rewrite IH. }
  induction pre as [|c pre IH]; cbn.
  - by rewrite Ascii.eqb_refl, L.
  - destruct (Ascii.eqb c sep); [by rewrite IH|]. rewrite IH.
    destruct (split_on sep pre) as [|p ps] eqn:E; [by destruct (split_on_nonempty sep pre)|done].
Qed.

(** [To4] of an address in its short form is itself, and an address has a text. *)
Class NetLaws (IP Net : Type) `{NetLib IP Net} : Prop := {
  To4_To4 i i4 : net_To4 i = Some i4 -> net_To4 i4 = Some i4;
  String_nonempty i : net_String i <> "";
}.

Section Identity.
Context {IP Net : Type} `{NetLaws IP Net}.
Implicit Types (trusted : list Net) (ip : IP).

Lemma normalize_normal i ip : normalizeIP i = Some ip -> normalizeIP (Some ip) = Some ip.
Proof.
  destruct i as [j|]; [|done]. cbn. destruct (net_To4 j) as [j4|] eqn:E; intros [= <-].
  - by rewrite (To4_To4 _ _ E).
  - by rewrite E.
Qed.

Lemma parseIP_normal s ip : parseIP s = Some ip -> normalizeIP (Some ip) = Some ip.
Proof. unfold parseIP. destruct (String.eqb _ ""); [done|]. apply normalize_normal. Qed.

(** The last address decides when it is no proxy, whatever precedes it. *)
Lemma select_last ips ip trusted :
  normalizeIP (Some ip) = Some ip -> ipInNets (Some ip) trusted = false ->
  selectClientIP (ips ++ [ip]) trusted = net_String ip.
Proof.
  intros Hn Ht. unfold selectClientIP. rewrite omap_app. cbn [omap list_omap]. rewrite Hn.
  rewrite reverse_app. cbn [reverse rev_append app keep List.filter]. by rewrite Ht.
Qed.

Lemma or_else_nonempty x y : x <> "" -> or_else x y = x.
Proof. intros Hx. unfold or_else. destruct (String.eqb_spec x ""); done. Qed.

Lemma trusted_remote r trusted ip0 :
  parseIP (remoteAddrHost r.(h_RemoteAddr)) = Some ip0 -> ipInNets (Some ip0) trusted = true ->
  anonymousRateLimitKey (Some r) trusted =
    or_else (forwardedClientIP r.(h_Forwarded) trusted)
      (or_else (xForwardedForClientIP r.(h_XForwardedFor) trusted)
        (or_else (headerClientIP r.(h_XRealIP)) (remoteAddrHost r.(h_RemoteAddr)))).
Proof.
  intros Hp Ht. unfold anonymousRateLimitKey. destruct (String.eqb_spec (remoteAddrHost r.(h_RemoteAddr)) "") as [E|].
  - rewrite E in Hp. by vm_compute in Hp.
  - destruct trusted as [|nt ns]; [done|]. by rewrite Hp, Ht.
Qed.

(** The tenant key of an anonymous caller cannot be chosen by the caller.
    Unless the connection comes from a trusted proxy the headers do not matter;
    and when a trusted proxy appends the address of its peer to the forwarding
    header, the key is that address, whatever the caller put there before. *)
Theorem anonymous_key_unspoofable trusted (addr fwd xff real : string) :
  (let host := remoteAddrHost addr in
   (trusted = [] \/ parseIP host = None \/ ipInNets (parseIP host) trusted = false) ->
   anonymousRateLimitKey (Some {| h_RemoteAddr := addr; h_Forwarded := fwd; h_XForwardedFor := xff; h_XRealIP := real |}) trusted
   = host)
  /\ (forall proxy client ip,
      parseIP (remoteAddrHost addr) = Some proxy -> ipInNets (Some proxy) trusted = true ->
      parseIP client = Some ip -> ipInNets (Some ip) trusted = false -> (","%char ∉ explode client) ->
      anonymousRateLimitKey (Some {| h_RemoteAddr := addr; h_Forwarded := "";
        h_XForwardedFor := xff +:+ "," +:+ client; h_XRealIP := real |}) trusted = net_String ip).
Proof.
  split.
  - intros host Hc. unfold anonymousRateLimitKey. cbn [h_RemoteAddr]. fold host.
    destruct (String.eqb_spec host ""); [done|]. destruct trusted as [|nt ns]; [done|].
    destruct Hc as [Hc|[E|E]]; [discriminate Hc|rewrite E; reflexivity|].
    destruct (parseIP host) as [i|]; [rewrite E|]; reflexivity.
  - intros proxy client ip Hp Ht Hc Hu Hcomma.
    set (r := {| h_RemoteAddr := addr; h_Forwarded := ""; h_XForwardedFor := _; h_XRealIP := real |}).
    rewrite (trusted_remote r trusted proxy Hp Ht). subst r. cbn [h_Forwarded h_XForwardedFor h_XRealIP h_RemoteAddr].
    assert (X : xForwardedForClientIP (xff +:+ "," +:+ client) trusted = net_String ip).
    { unfold xForwardedForClientIP, parseXForwardedFor.
      assert (Hne : String.eqb (xff +:+ "," +:+ client) "" = false) by (destruct xff; reflexivity). rewrite Hne.
      unfold Split. rewrite !explode_app. change (explode ",") with [","%char]. cbn [app].
      rewrite split_on_last, map_app, omap_app by done. cbn [map omap list_omap].
      rewrite implode_explode, Hc. apply select_last; [by apply (parseIP_normal client)|done]. }
    rewrite X, (or_else_nonempty (net_String ip)) by apply String_nonempty. reflexivity.
Qed.

(** A [Forwarded] header wins over what the proxy appended to [X-Forwarded-For]:
    behind a proxy that passes it on, a caller names its own key. *)
Theorem forwarded_header_wins trusted r proxy ips ip :
  parseIP (remoteAddrHost r.(h_RemoteAddr)) = Some proxy -> ipInNets (Some proxy) trusted = true ->
  parseForwardedFor r.(h_Forwarded) = ips ++ [ip] -> normalizeIP (Some ip) = Some ip -> ipInNets (Some ip) trusted = false ->
  anonymousRateLimitKey (Some r) trusted = net_String ip.
Proof.
  intros Hp Ht Hf Hn Hu. rewrite (trusted_remote r trusted proxy Hp Ht). unfold forwardedClientIP. rewrite Hf, select_last by done.
  apply or_else_nonempty, String_nonempty.
Qed.
End Identity.

(** ** Decisions *)

Section Decisions.
Context {IP Net T L : Type} `{NetLib IP Net} `{RateLimiter T} `{DistributedLimiter L}.
Implicit Types x : TenantRateLimiter T Net L.

(** With a distributed limiter the decision is the backend's, and when the
    backend fails or returns nothing it is the configured failure mode, reported
    with the error; the local limiters are neither asked nor changed. *)
Theorem backend_failure_mode now id rpm burst x l l' res :
  x.(distributedLimiter) = Some l ->
  dl_CheckAllow now [limit_descriptor id (distributed_limit rpm x)] l = (l', res) ->
  exists x', Check now id rpm burst x = (x',
      match res with
      | inr (r :: _) => (r.(Allowed), None)
      | inr [] => (x.(failOpen), Some "distributed rate limiter returned no results")
      | inl err => (x.(failOpen), Some err)
      end)
    /\ x'.(distributedLimiter) = Some l' /\ x'.(limiters) = x.(limiters) /\ x'.(lastAccess) = x.(lastAccess)
    /\ x'.(failOpen) = x.(failOpen).
Proof. intros Hl Hc. unfold Check. rewrite Hl, Hc. by eexists. Qed.

(** A team limited to fewer than six requests a minute gets the default burst:
    its burst rounds to zero, which stands for the default. *)
Theorem slow_team_default_burst now id rpm x :
  0 < rpm < 6 -> x.(useDefaultBurst) = false -> x.(limiters) !! id = None ->
  (getLimiter now id rpm (burstForRate x rpm 0) x).2 = rate_NewLimiter (rate_of rpm) x.(defaultBurst).
Proof.
  intros Hr Hu Hn. unfold burstForRate. rewrite Hu. cbn [andb].
  replace (rpm /! 6) with 0 by (rewrite Z.quot_div_nonneg, Z.div_small; lia). cbn.
  unfold getLimiter. rewrite Hn. by replace (0 <? rpm) with true by lia.
Qed.

(** A tenant that has a limiter keeps its rate: later rates are not looked at. *)
Theorem later_rate_ignored now id rpm rpm' burst burst' x lim :
  x.(limiters) !! id = Some lim -> getLimiter now id rpm burst x = getLimiter now id rpm' burst' x.
Proof. intros E. unfold getLimiter. by rewrite E. Qed.

(** A local check leaves the limiters of the other tenants alone. *)
Theorem local_check_frame now id id' rpm burst x :
  x.(distributedLimiter) = None -> id' <> id ->
  (Check now id rpm burst x).1.(limiters) !! id' = x.(limiters) !! id'.
Proof.
  intros Hd Hne. unfold Check, AllowWithCustomRate, ask, getLimiter. rewrite Hd.
  destruct (x.(limiters) !! id); destruct (rate_AllowN _ _ _); cbn;
    rewrite ?lookup_insert_ne by done; done.
Qed.
End Decisions.

(** The default rate is stored per second and multiplied back in floating point:
    a default of 123 requests a minute is enforced as 122. *)
Theorem default_rpm_truncated {T Net L : Type} (x : TenantRateLimiter T Net L) :
  x.(defaultRate) = rate_of 123 -> distributed_limit 0 x = 122.
Proof. intros E. unfold distributed_limit. rewrite E. by vm_compute. Qed.

(** ** With the Redis limiter *)

Section Redis.
Context {IP Net T R : Type} `{NetLib IP Net} `{RateLimiter T} `{RedisDBLaws R} (id : string) (rpm burst : Z).

Fixpoint check_all (ts : list time) (x : TenantRateLimiter T Net R) : list bool :=
  match ts with
  | [] => []
  | t :: ts' => let '(x', (ok, _)) := Check t id rpm burst x in ok :: check_all ts' x'
  end.

Abbreviation desc := (limit_descriptor id rpm).

Lemma check_all_run ts x db :
  0 < rpm -> x.(distributedLimiter) = Some db -> check_all ts x = map Allowed (check_run desc ts db).
Proof.
  intros Hr. revert x db. induction ts as [|t ts IH]; intros x db Hx; [done|].
  cbn [check_all check_run]. unfold Check, distributed_limit. rewrite Hx.
  replace (rpm <=? 0) with false by lia.
  cbn [dl_CheckAllow redis_limiter CheckAllow script map].
  destruct (script_pair _ _ _ _ _ _ db) as [db' r]. cbn. f_equal. by apply IH.
Qed.

Lemma window_run_same ts w c :
  Forall (fun t => unix t - w < 60) ts ->
  window_run desc (Some (w, c)) ts = map (fun i => (w, c + 1 + Z.of_nat i)) (seq 0 (length ts)).
Proof.
  intros Ht. revert c. induction Ht as [|t ts Ht _ IH]; intros c; [done|].
  cbn [window_run length seq map]. unfold window_step. change (windowSize desc) with 60.
  change (increment_of desc) with 1. replace (60 <=? unix t - w) with false by lia. rewrite IH.
  rewrite <- seq_shift, map_map. f_equal; [f_equal; lia|]. apply map_ext. intros i. f_equal. lia.
Qed.

(** With the Redis limiter a tenant's requests per minute are exact.  Of the
    requests made in the minute that the first of them opens, by whatever nodes,
    the first [rpm] are admitted and the others refused. *)
Theorem tenant_rpm_exact x db t ts :
  0 < rpm -> x.(distributedLimiter) = Some db -> entry db (windowKey desc) = None ->
  Sorted.Sorted Z.le (t :: ts) -> Forall (fun u => unix u - unix t < 60) ts ->
  check_all (t :: ts) x = map (fun i => Z.of_nat i <? rpm) (seq 0 (S (length ts))).
Proof.
  intros Hr Hx He Hs Hw. rewrite (check_all_run _ _ db) by done.
  rewrite (check_run_refines desc (t :: ts) db None t); [|by constructor; [|constructor]|exact He].
  cbn [window_run window_step map]. change (increment_of desc) with 1. rewrite window_run_same by done.
  rewrite !map_map. cbn [seq map limit_result Allowed d_Limit limit_descriptor]. rewrite <- seq_shift, map_map. f_equal.
  - apply eq_true_iff_eq. rewrite Z.leb_le, Z.ltb_lt. lia.
  - apply map_ext. intros i. apply eq_true_iff_eq. rewrite Z.leb_le, Z.ltb_lt. lia.
Qed.
End Redis.

(** ** Instances *)
Module DemoNet.
Definition ip_bytes (s : string) : bool :=
  negb (String.eqb s "") && forallb (fun c => Ascii.eqb c "." || ((48 <=? N_of_ascii c) && (N_of_ascii c <=? 57))%N) (explode s).

(** Addresses are their text, a network is a list of them. *)
#[global] Instance demo_net : NetLib string (list string) := {
  net_ParseIP s := if ip_bytes s then Some s else None;
  net_To4 := Some;
  net_String i := or_else i "0.0.0.0";
  net_Contains n i := existsb (String.eqb i) n;
  net_ParseCIDR _ := None;
  net_SplitHostPort s := match Split s ":" with [h; p] => Some (h, p) | _ => None end;
  net_SingleHost i _ := [i];
}.

#[global] Instance demo_net_laws : NetLaws string (list string).
Proof.
  split; [by intros i i4 [= ->]|]. intros i. cbn. unfold or_else. destruct (String.eqb_spec i ""); done.
Qed.

(** A bucket that always says yes. *)
#[global] Instance demo_rate : RateLimiter unit := {
  rate_NewLimiter _ _ := tt; rate_AllowN _ _ l := (l, true); rate_SetLimit _ _ l := l; rate_SetBurst _ _ l := l;
}.

Definition demo_trl (db : option MapRedis.db) : TenantRateLimiter unit (list string) MapRedis.db :=
  SetDistributedLimiter db (NewTenantRateLimiter
    {| c_DefaultRPM := 60; c_DefaultBurst := 10; c_UseDefaultBurst := false; c_CleanupTTL := 0; c_FailOpen := true;
       c_TrustedProxyCIDRs := ["10.0.0.1"] |}).
End DemoNet.
Import DemoNet.

Lemma anonymous_key_unspoofable_witness :
  anonymousRateLimitKey (Some {| h_RemoteAddr := "10.0.0.1:80"; h_Forwarded := "";
    h_XForwardedFor := "6.6.6.6, 7.7.7.7" +:+ "," +:+ " 1.2.3.4"; h_XRealIP := "8.8.8.8" |}) [["10.0.0.1"]] = "1.2.3.4".
Proof.
  destruct (anonymous_key_unspoofable [["10.0.0.1"]] "10.0.0.1:80" "" "6.6.6.6, 7.7.7.7" "8.8.8.8") as [_ P].
  apply (P "10.0.0.1" " 1.2.3.4" "1.2.3.4"); try (vm_compute; reflexivity). 
  apply (bool_decide_unpack (","%char ∉ explode " 1.2.3.4")). vm_compute. exact I.
Defined.

(** A backend that is down. *)
Definition down : DistributedLimiter unit := {| dl_CheckAllow _ _ l := (l, inl "down") |}.

Definition down_trl : TenantRateLimiter unit (list string) unit :=
  SetDistributedLimiter (Some tt) (NewTenantRateLimiter
    {| c_DefaultRPM := 60; c_DefaultBurst := 10; c_UseDefaultBurst := false; c_CleanupTTL := 0; c_FailOpen := true;
       c_TrustedProxyCIDRs := [] |}).

Lemma backend_failure_mode_witness :
  exists x', @Check _ _ _ _ down 0 "k" 5 0 down_trl = (x', (true, Some "down")) /\ x'.(limiters) = ∅.
Proof.
  destruct (@backend_failure_mode _ _ _ _ down 0 "k" 5 0 down_trl tt tt (inl "down")) as (x' & E & _ & El & _);
    [reflexivity|reflexivity|]. exists x'. split; [exact E|exact El].
Defined.

Lemma tenant_rpm_exact_witness :
  check_all "k" 2 0 [0; Second; 2 * Second] (demo_trl (Some ∅)) = [true; true; false].
Proof.
  apply (tenant_rpm_exact "k" 2 0 (demo_trl (Some ∅)) ∅ 0 [Second; 2 * Second]);
    [done|done|done|repeat constructor; by vm_compute|repeat constructor; by vm_compute].
Defined.
