(* ===== verification/Jobs.v ===== *)
(** * Background jobs: budget resets and key rotation ([internal/auth/jobs.go])

    The jobs over the storage interface.  [nowQ] is the instant at which the store
    selects what is due, [now] the one at which it computes the next reset.  What
    a rotation asks for from outside, credentials and an identifier, comes from a
    stream indexed by the position of the key. *)
From S2P Require Import Prelude Float64 AuthTypes AuthStore AuthStoreProofs KeyUtils KeyManagement AuthTheorems.

Section Jobs.
Context {S : Type} `{AuthStore S} `{RFC3339}.

(** [for _, x := range due { if err := reset(x.ID); err != nil { continue } }] *)
Definition reset_each {A : Type} (reset : string -> S -> S * option auth_err) (id : A -> string) (l : list A) (s : S) : S :=
  foldl (fun s x => (reset (id x) s).1) s l.

Definition resetKeyBudgets (nowQ now : time) (s : S) : S * option auth_err :=
  match GetKeysNeedingBudgetReset nowQ s with
  | inl err => (s, Some err)
  | inr keys => (reset_each (ResetAPIKeyBudget now) k_ID keys s, None)
  end.

Definition resetTeamBudgets (nowQ now : time) (s : S) : S * option auth_err :=
  match GetTeamsNeedingBudgetReset nowQ s with
  | inl err => (s, Some err)
  | inr teams => (reset_each (ResetTeamBudget now) t_ID teams s, None)
  end.

Definition resetUserBudgets (nowQ now : time) (s : S) : S * option auth_err :=
  match GetUsersNeedingBudgetReset nowQ s with
  | inl err => (s, Some err)
  | inr users => (reset_each (ResetUserBudget now) u_ID users s, None)
  end.

(** The errors of the three parts are only logged. *)
Definition resetBudgets (nowQ now : time) (s : S) : S :=
  let s := (resetKeyBudgets nowQ now s).1 in
  let s := (resetTeamBudgets nowQ now s).1 in
  (resetUserBudgets nowQ now s).1.

(** ** Rotation *)

Definition rotation_filter : APIKeyFilter :=
  {| kf_TeamID := None; kf_UserID := None; kf_OrganizationID := None; kf_KeyType := None; kf_IsActive := Some true;
     kf_Blocked := None; kf_Limit := 1000; kf_Offset := 0 |}.

Definition needs_rotation (now : time) (k : APIKey) : bool :=
  match k.(k_Metadata) with
  | None => false
  | Some _ =>
      match get_bool k.(k_Metadata) "auto_rotate" with
      | Some true =>
          match get_string k.(k_Metadata) "key_rotation_at" with
          | None => true
          | Some text => match Parse text with Some rotationAt => after now rotationAt | None => false end
          end
      | _ => false
      end
  end.

Definition findKeysNeedingRotation (now : time) (s : S) : outcome auth_err (list APIKey) :=
  match ListAPIKeys rotation_filter s with
  | Ok (keys, _) => Ok (keep (needs_rotation now) keys)
  | Err e => Err e
  | Panic => Panic
  end.

Definition copyMetadata (m : Metadata) : Metadata := Some (default ∅ m).

(** The count is read as a [float64] and written as an [int]. *)
Definition float_count (m : Metadata) : Z :=
  match nget m "rotation_count" with Some (AFloat x) => int_of_f64 x | _ => 0 end.

(** [nowRot] is read by the computation of the next rotation. *)
Definition rotated_key (now nowRot : time) (uuid fullKey keyHash : string) (old : APIKey) : APIKey :=
  let m := copyMetadata old.(k_Metadata) in
  let m := set_meta "rotation_count" (AInt (float_count old.(k_Metadata) +! 1)) m in
  let m := set_meta "last_rotation_at" (AString (Format now)) m in
  let m := match get_string old.(k_Metadata) "rotation_interval" with
           | Some interval => schedule_rotation nowRot interval m
           | None => m
           end in
  {| k_ID := uuid; k_KeyHash := keyHash; k_KeyPrefix := ExtractKeyPrefix fullKey; k_Name := old.(k_Name);
     k_KeyAlias := old.(k_KeyAlias); k_TeamID := old.(k_TeamID); k_UserID := old.(k_UserID);
     k_OrganizationID := old.(k_OrganizationID); k_AllowedModels := old.(k_AllowedModels); k_KeyType := old.(k_KeyType);
     k_TPMLimit := old.(k_TPMLimit); k_RPMLimit := old.(k_RPMLimit); k_MaxParallelRequests := old.(k_MaxParallelRequests);
     k_ModelTPMLimit := old.(k_ModelTPMLimit); k_ModelRPMLimit := old.(k_ModelRPMLimit); k_MaxBudget := old.(k_MaxBudget);
     k_SoftBudget := old.(k_SoftBudget); k_SpentBudget := fzero; k_ModelMaxBudget := old.(k_ModelMaxBudget);
     k_ModelSpend := None; k_BudgetDuration := old.(k_BudgetDuration); k_BudgetResetAt := old.(k_BudgetResetAt);
     k_Metadata := m; k_IsActive := true; k_Blocked := false; k_CreatedAt := now; k_UpdatedAt := now;
     k_ExpiresAt := None; k_LastUsedAt := None |}.

(** The error of the rotation of one key, if any. *)
Inductive rotate_error := NoCredentials | StoreError (e : auth_err).

Definition rotateKey (now nowRot : time) (creds : option (string * string)) (uuid : string) (old : APIKey) (s : S) :
  S * option rotate_error :=
  match creds with
  | None => (s, Some NoCredentials)
  | Some (fullKey, keyHash) =>
      match DeleteAPIKey old.(k_ID) s with
      | (s, Some e) => (s, Some (StoreError e))
      | (s, None) =>
          match CreateAPIKey (rotated_key now nowRot uuid fullKey keyHash old) s with
          | (s, Some e) => (s, Some (StoreError e))
          | (s, None) => (s, None)
          end
      end
  end.

Definition rotateKeys (nowF now : time) (fresh : nat -> option (string * string) * string) (s : S) : outcome auth_err S :=
  let! keys := findKeysNeedingRotation nowF s in
  Ok (foldl (fun s p => (rotateKey now now (fresh p.1).1 (fresh p.1).2 p.2 s).1) s (imap (fun i k => (i, k)) keys)).

Definition runJobs (nowQ now : time) (fresh : nat -> option (string * string) * string) (s : S) : outcome auth_err S :=
  let s := resetBudgets nowQ now s in
  match rotateKeys nowQ now fresh s with
  | Ok s => Ok s
  | Err _ => Ok s
  | Panic => Panic
  end.
End Jobs.

(** ** Budget resets over the in-memory store *)

Import MemoryAuth.

(** Applying a change to each of a list of distinct keys. *)
Lemma foldl_alter {V} (f : V -> V) (l : list string) (m : gmap string V) i :
  NoDup l -> foldl (fun m k => alter f k m) m l !! i = if bool_decide (i ∈ l) then f <$> m !! i else m !! i.
Proof.
  revert m. induction l as [|k l IH]; intros m Hnd; cbn [foldl]; [done|].
  apply NoDup_cons in Hnd as [Hk Hnd]. rewrite IH, lookup_alter by done.
  destruct (decide (k = i)) as [->|Hne].
  - rewrite bool_decide_eq_false_2 by done. by rewrite bool_decide_eq_true_2 by (by left).
  - erewrite bool_decide_ext; [done|]. rewrite elem_of_cons. naive_solver.
Qed.

Lemma NoDup_fmap_keep {A B} (f : A -> B) (p : A -> bool) (l : list A) : NoDup (f <$> l) -> NoDup (f <$> keep p l).
Proof.
  unfold keep. induction l as [|x l IH]; cbn; [done|]. intros [Hx Hnd]%NoDup_cons.
  destruct (p x); cbn; [|by apply IH]. apply NoDup_cons. split; [|by apply IH].
  intros Hin. apply Hx. apply list_elem_of_fmap in Hin as (y & -> & Hy). apply list_elem_of_fmap.
  exists y. split; [done|]. by apply (keep_incl p l).
Qed.

Section Resets.
Context (ord : gset string -> list string) (Ho : lawful_order ord).
#[local] Instance jobs_mem : AuthStore MemoryStore := memory_auth_store ord.

Lemma reset_each_keys now l s :
  keys_ok s ->
  keys_ok (reset_each (ResetAPIKeyBudget now) k_ID l s)
  /\ abs (reset_each (ResetAPIKeyBudget now) k_ID l s) = foldl (fun d k => alter (reset_key now) k d) (abs s) (k_ID <$> l).
Proof.
  revert s. induction l as [|k l IH]; intros s W; [done|].
  destruct (run_op_ok s (KReset now k.(k_ID)) W eq_refl) as [W' E].
  destruct (IH _ W') as [W'' E']. split; [exact W''|]. etrans; [exact E'|]. by rewrite E.
Qed.

(** The keys that are due, as the directory has them. *)
Definition key_due (now : time) (k : APIKey) : bool := k.(k_IsActive) && due now k.(k_BudgetResetAt).

(** The budget job resets exactly the keys that are due.  Every active key of
    the directory whose reset time has passed gets its spend cleared and its next
    reset computed; every other key is as it was. *)
Theorem reset_job_exact nowQ now s id :
  keys_ok s ->
  let s' := (resetKeyBudgets nowQ now s).1 in
  keys_ok s' /\ abs s' !! id = (fun k => if key_due nowQ k then reset_key now k else k) <$> abs s !! id.
Proof.
  intros W. unfold resetKeyBudgets. cbn [GetKeysNeedingBudgetReset jobs_mem memory_auth_store].
  unfold ms_GetKeysNeedingBudgetReset. set (l := keep _ _). cbn [fst].
  destruct (reset_each_keys now l s W) as [W' E]. split; [exact W'|]. rewrite E. clear E W'.
  assert (P : l ≡ₚ keep (key_due nowQ) (map_to_list (abs s)).*2) by (unfold l, key_due; by rewrite listed_perm).
  assert (Hid : forall p, p ∈ map_to_list (abs s) -> k_ID p.2 = p.1).
  { intros [i k] (q & Hq & Hk)%elem_of_map_to_list%abs_Some. destruct (id_ok s W _ _ Hq) as (k' & ? & ? & _). cbn. congruence. }
  assert (Hnd : NoDup (k_ID <$> l)).
  { rewrite P. apply NoDup_fmap_keep. rewrite <- list_fmap_compose.
    rewrite (list_fmap_ext _ fst (map_to_list (abs s))); [apply NoDup_fst_map_to_list|].
    intros i p Hp. apply Hid. by eapply list_elem_of_lookup_2. }
  rewrite foldl_alter by done. destruct (abs s !! id) as [k|] eqn:Hk; [|by case_match].
  assert (Mem : id ∈ k_ID <$> l <-> key_due nowQ k = true).
  { rewrite P, list_elem_of_fmap. split.
    - intros (k' & Eid & Hk'). apply elem_of_keep in Hk' as [Hin Hd]. apply list_elem_of_fmap in Hin as ([i k0] & -> & Hin).
      pose proof (Hid _ Hin) as Ei. cbn in Ei. apply elem_of_map_to_list in Hin. cbn in Eid, Hd. congruence.
    - intros Hd. exists k. split.
      + symmetry. apply (Hid (id, k)). by apply elem_of_map_to_list.
      + apply elem_of_keep. split; [|done]. apply list_elem_of_fmap. exists (id, k). split; [done|]. by apply elem_of_map_to_list. }
  destruct (key_due nowQ k) eqn:D.
  - rewrite bool_decide_eq_true_2 by (by apply Mem). cbn. by rewrite D.
  - rewrite bool_decide_eq_false_2; [cbn; by rewrite D|]. intros C. apply Mem in C. congruence.
Qed.
End Resets.

(** A budget is reset once a period.  After a reset, a key with a daily, weekly
    or monthly budget is due again when a day, a week or thirty days have passed,
    one without a period never; but one whose period is any other text is due
    again at once, so that every run of the job clears its spend. *)
Theorem reset_period now t k :
  key_due t (reset_key now k) =
  k.(k_IsActive) && (if BudgetDuration_IsValid k.(k_BudgetDuration)
                     then (0 <? DurationSeconds k.(k_BudgetDuration))
                          && (now + DurationSeconds k.(k_BudgetDuration) * Second <? t)
                     else now <? t).
Proof.
  unfold key_due, reset_key, NextResetTime, BudgetDuration_IsValid, DurationSeconds, BudgetDurationNever.
  cbn [k_IsActive k_BudgetResetAt]. f_equal. set (d := k.(k_BudgetDuration)).
  destruct (String.eqb_spec d BudgetDurationDaily) as [->|]; [done|].
  destruct (String.eqb_spec d BudgetDurationWeekly) as [->|]; [done|].
  destruct (String.eqb_spec d BudgetDurationMonthly) as [->|]; [done|].
  destruct (String.eqb d ""); [done|]. cbn. unfold time_add, after. by rewrite Z.add_0_r.
Qed.

(** ** Rotation *)

Section Rotation.
Context `{RFC3339Laws}.

Lemma nget_set_eq k v m : nget (set_meta k v (copyMetadata m)) k = Some v.
Proof. cbn. by rewrite lookup_insert_eq. Qed.

Lemma nget_set_copy k1 v1 k2 v2 k3 v3 m :
  nget (set_meta k1 v1 (set_meta k2 v2 (set_meta k3 v3 (copyMetadata m)))) k1 = Some v1.
Proof. cbn. by rewrite lookup_insert_eq. Qed.

Lemma nget_set_ne k k' v m : k' <> k -> nget (set_meta k v m) k' = nget m k'.
Proof. intros Hne. destruct m as [m|]; [|done]. cbn. by rewrite lookup_insert_ne by done. Qed.

(** The text of a rotation time and the flag, in the metadata of the new key. *)
Lemma rotated_flag now nowRot uuid full hash old :
  get_bool (rotated_key now nowRot uuid full hash old).(k_Metadata) "auto_rotate" = get_bool old.(k_Metadata) "auto_rotate".
Proof.
  unfold get_bool. cbn [rotated_key k_Metadata]. unfold schedule_rotation.
  destruct (get_string _ _); [destruct (CalculateRotationTime _ _)|]; rewrite ?nget_set_ne by done;
    by destruct (k_Metadata old).
Qed.

Lemma rotated_at now nowRot uuid full hash old :
  get_string (rotated_key now nowRot uuid full hash old).(k_Metadata) "key_rotation_at" =
  match get_string old.(k_Metadata) "rotation_interval" ≫= CalculateRotationTime nowRot with
  | Some at_ => Some (Format at_)
  | None => get_string old.(k_Metadata) "key_rotation_at"
  end.
Proof.
  unfold get_string at 1. cbn [rotated_key k_Metadata]. unfold schedule_rotation.
  destruct (get_string (k_Metadata old) "rotation_interval") as [interval|]; cbn [mbind option_bind];
    [destruct (CalculateRotationTime nowRot interval)|].
  - by rewrite nget_set_copy.
  - rewrite !nget_set_ne by done. unfold get_string. by destruct (k_Metadata old).
  - rewrite !nget_set_ne by done. unfold get_string. by destruct (k_Metadata old).
Qed.

(** A rotated key is next rotated after its interval.  With an interval that
    parses, the new key is due when the interval has passed since the rotation, to
    the second.  Without one it keeps the rotation time of the old key: it is due
    as soon as the old key was, so every run rotates it again. *)
Theorem rotation_schedule now nowRot uuid full hash old t :
  get_bool old.(k_Metadata) "auto_rotate" = Some true ->
  match get_string old.(k_Metadata) "rotation_interval" ≫= CalculateRotationTime nowRot with
  | Some at_ => four_digit_year at_ ->
      needs_rotation t (rotated_key now nowRot uuid full hash old) = (unix at_ * Second <? t)
  | None => needs_rotation t (rotated_key now nowRot uuid full hash old) = needs_rotation t old
  end.
Proof.
  intros Ha. pose proof (rotated_at now nowRot uuid full hash old) as E.
  pose proof (rotated_flag now nowRot uuid full hash old) as F. rewrite Ha in F.
  assert (N : forall k, get_bool k.(k_Metadata) "auto_rotate" = Some true ->
    needs_rotation t k = match get_string k.(k_Metadata) "key_rotation_at" with
                         | None => true
                         | Some text => match Parse text with Some a => after t a | None => false end
                         end).
  { intros k Hk. unfold needs_rotation. rewrite Hk. by destruct (k_Metadata k). }
  destruct (get_string (k_Metadata old) "rotation_interval" ≫= _) as [at_|].
  - intros Hy. by rewrite N, E, Parse_Format.
  - by rewrite !N, E.
Qed.

(** Rotation forgets restrictions.  The key that replaces a rotated one is
    neither blocked nor ever expires, even when the old key was blocked or had an
    expiry, and its rotation count is one however often it was rotated before. *)
Theorem rotation_forgets now nowRot uuid full hash old t n :
  Key_IsExpired t (rotated_key now nowRot uuid full hash old) = false
  /\ (rotated_key now nowRot uuid full hash old).(k_Blocked) = false
  /\ (nget old.(k_Metadata) "rotation_count" = Some (AInt n) ->
      nget (rotated_key now nowRot uuid full hash old).(k_Metadata) "rotation_count" = Some (AInt 1)).
Proof.
  split; [done|]. split; [done|]. intros Hn. cbn [rotated_key k_Metadata]. unfold schedule_rotation, float_count. rewrite Hn.
  destruct (get_string _ _); [destruct (CalculateRotationTime _ _)|]; rewrite ?nget_set_ne by done;
    by rewrite nget_set_eq.
Qed.
End Rotation.

(** ** Instances *)

Definition due_ops : list key_op :=
  [KCreate (key_named "k1" "#s1")<|k_BudgetDuration := "1d"|><|k_BudgetResetAt := Some 10|><|k_SpentBudget := fone|>;
   KCreate (key_named "k2" "#s2")<|k_SpentBudget := fone|>].

Lemma reset_job_exact_witness :
  let s := foldl run_op NewMemoryStore due_ops in
  (k_SpentBudget <$> abs (@resetKeyBudgets _ (memory_auth_store elements) 20 20 s).1 !! "k1") = Some fzero
  /\ (k_SpentBudget <$> abs (@resetKeyBudgets _ (memory_auth_store elements) 20 20 s).1 !! "k2") = Some fone.
Proof.
  intros s. assert (W : keys_ok s) by (apply (run_ops_ok due_ops NewMemoryStore keys_ok_new); by vm_compute).
  destruct (reset_job_exact elements elements_lawful 20 20 s "k1" W) as [_ E1].
  destruct (reset_job_exact elements elements_lawful 20 20 s "k2" W) as [_ E2].
  split; (etrans; [exact (f_equal (fmap k_SpentBudget) E1) || exact (f_equal (fmap k_SpentBudget) E2)|by vm_compute]).
Defined.

Definition rotating_key : APIKey :=
  (key_named "k1" "#s1")<|k_Metadata := Some (<["auto_rotate" := ABool true]> (<["rotation_interval" := AString "1d"]> ∅))|>.

Lemma rotation_schedule_witness :
  @needs_rotation demo_rfc (86401 * Second) (@rotated_key demo_rfc 0 0 "k2" "s2" "#s2" rotating_key) = true.
Proof.
  pose proof (@rotation_schedule demo_rfc demo_rfc_laws 0 0 "k2" "s2" "#s2" rotating_key (86401 * Second)) as R.
  rewrite R; [by vm_compute|by vm_compute|by vm_compute].
Defined.

Lemma rotation_forgets_witness :
  nget (@rotated_key demo_rfc 0 0 "k2" "s2" "#s2" rotating_key<|k_Metadata := Some (<["rotation_count" := AInt 7]> ∅)|>).(k_Metadata)
    "rotation_count" = Some (AInt 1).
Proof.
  destruct (@rotation_forgets demo_rfc 0 0 "k2" "s2" "#s2" rotating_key<|k_Metadata := Some (<["rotation_count" := AInt 7]> ∅)|> 0 7)
    as (_ & _ & R). apply R. by vm_compute.
Defined.
