(* ===== verification/Governance.v ===== *)
(** * Governance engine ([internal/governance])

    [Evaluate] gates a request: model access, budgets, rate limits.  [Account]
    records its cost once: the usage log and the spend of every level.  The engine
    holds the storage, the tenant limiter, the policy engine, the idempotency store
    and the audit log, each of which may be absent.  Warnings and metrics are left
    out; the audit log is the list of its budget events. *)
From S2P Require Import Prelude Float64 Errors AuthTypes AuthStore ModelAccess RedisLimiter TenantLimiter RedisCache.

Record Config := {
  g_Enabled : bool;
  g_AsyncAccounting : bool;
  g_IdempotencyWindow : duration;
  g_AuditEnabled : bool;
}.

Record RequestInput := {
  i_Request : option HttpRequest;
  i_Model : string;
  i_CallType : string;
  i_EndUserID : string;
  i_Tags : list string;
}.

Record Usage := {
  g_PromptTokens : Z;
  g_CompletionTokens : Z;
  g_TotalTokens : Z;
  g_Cost : f64;
  g_Provider : string;
}.

Record AccountInput := {
  c_RequestID : string;
  c_Model : string;
  c_CallType : string;
  c_EndUserID : string;
  c_RequestTags : list string;
  c_Usage : Usage;
  c_Start : time;
  c_Latency : duration;
  c_StatusCode : option Z;
  c_Status : option string;
}.

(** ** Idempotency *)

Class IdempotencyStore (I : Type) := {
  PutIfAbsent : time -> string -> duration -> I -> I * (string + bool);
}.

Module MemoryIdempotency.
Abbreviation MemoryIdempotencyStore := (gmap string time).
Definition NewMemoryIdempotencyStore : MemoryIdempotencyStore := ∅.

Definition mi_PutIfAbsent (now : time) (key : string) (ttl : duration) (s : MemoryIdempotencyStore) :
  MemoryIdempotencyStore * (string + bool) :=
  if String.eqb key "" then (s, inr true)
  else if match s !! key with Some expiresAt => after expiresAt now | None => false end then (s, inr false)
  else if ttl <=? 0 then (delete key s, inr true)
  else (<[key := time_add now ttl]> s, inr true).

#[global] Instance memory_idempotency : IdempotencyStore MemoryIdempotencyStore := {| PutIfAbsent := mi_PutIfAbsent |}.
End MemoryIdempotency.

(** The Redis store: its client and its prefix. *)
Definition ri_PutIfAbsent {R : Type} `{RedisClient R} (now : time) (key : string) (ttl : duration) (s : R * string) :
  (R * string) * (redis_error + bool) :=
  if String.eqb key "" then (s, inr true)
  else if ttl <=? 0 then (s, inr true)
  else let '(r, res) := rc_SetNX (s.2 +:+ key) "1" ttl s.1 in ((r, s.2), res).

(** ** Identifiers from the context *)

Definition ctx_key (a : option AuthContext) : option APIKey := a ≫= a_APIKey.
Definition ctx_team (a : option AuthContext) : option Team := a ≫= a_Team.
Definition ctx_user (a : option AuthContext) : option User := a ≫= a_User.

Definition teamIDFromAuth (a : option AuthContext) : string :=
  match a with
  | None => ""
  | Some a =>
      match a.(a_Team), a.(a_APIKey) ≫= k_TeamID, a.(a_User) ≫= u_TeamID with
      | Some t, _, _ => t.(t_ID)
      | None, Some id, _ => id
      | None, None, Some id => id
      | None, None, None => ""
      end
  end.

Definition userIDFromAuth (a : option AuthContext) : string :=
  match a with
  | None => ""
  | Some a => match a.(a_User), a.(a_APIKey) ≫= k_UserID with
              | Some u, _ => u.(u_ID)
              | None, Some id => id
              | None, None => ""
              end
  end.

Definition orgIDFromAuth (a : option AuthContext) : string :=
  match a with
  | None => ""
  | Some a =>
      match a.(a_APIKey) ≫= k_OrganizationID, a.(a_User) ≫= u_OrganizationID, a.(a_Team) ≫= t_OrganizationID with
      | Some id, _, _ => id
      | None, Some id, _ => id
      | None, None, Some id => id
      | None, None, None => ""
      end
  end.

Definition auditActor (a : option AuthContext) : string * string :=
  match a with
  | None => ("", "")
  | Some a => match a.(a_APIKey), a.(a_User) with
              | Some k, _ => (k.(k_ID), "api_key")
              | None, Some u => (u.(u_ID), "user")
              | None, None => ("", "")
              end
  end.

Definition isModelOverBudget (model : string) (maxBudget spend : nmap f64) : bool :=
  if String.eqb model "" || bool_decide (default ∅ maxBudget = ∅) then false
  else match nget maxBudget model with
       | None => false
       | Some limit =>
           if limit <=.? fzero then false
           else match spend with
                | None => false
                | Some _ => limit <=.? default fzero (nget spend model)
                end
       end.

Definition providerLabel (provider : string) : string := if String.eqb provider "" then "llmux" else provider.

Definition idempotencyKey (input : AccountInput) : string :=
  if String.eqb input.(c_RequestID) "" then ""
  else if String.eqb input.(c_CallType) "" then "usage:" +:+ input.(c_RequestID)
  else "usage:" +:+ input.(c_CallType) +:+ ":" +:+ input.(c_RequestID).

Record audit_event := {
  ev_actor : string * string;
  ev_objectType : string;
  ev_objectID : string;
  ev_model : string;
}.

Record resolvedEntities := {
  res_team : option Team;
  res_user : option User;
  res_org : option Organization;
  res_endUser : option EndUser;
}.

(** ** The engine *)

Record Engine (S T Net L E I : Type) := {
  e_store : option S;
  e_rateLimiter : option (TenantRateLimiter T Net L);
  e_audit : option (list audit_event);
  e_idempotency : option I;
  e_config : Config;
  e_enforcer : option E;
}.
Arguments e_store {S T Net L E I}.
Arguments e_rateLimiter {S T Net L E I}.
Arguments e_audit {S T Net L E I}.
Arguments e_idempotency {S T Net L E I}.
Arguments e_config {S T Net L E I}.
Arguments e_enforcer {S T Net L E I}.

Section Engine.
Context {S IP Net T L E I : Type} `{AuthStore S} `{NetLib IP Net} `{RateLimiter T} `{DistributedLimiter L}
  `{CasbinEngine E} `{IdempotencyStore I}.
Abbreviation engine := (Engine S T Net L E I).
Implicit Types (e : engine) (a : option AuthContext).

Definition NewEngine (cfg : Config) (store : option S) (rl : option (TenantRateLimiter T Net L)) (audit : bool)
  (idem : option I) (enforcer : option E) : engine :=
  {| e_store := store; e_rateLimiter := rl; e_audit := if audit then Some [] else None; e_idempotency := idem;
     e_config := cfg; e_enforcer := enforcer |}.

Definition UpdateConfig (cfg : Config) e : engine :=
  {| e_store := e.(e_store); e_rateLimiter := e.(e_rateLimiter); e_audit := e.(e_audit);
     e_idempotency := e.(e_idempotency); e_config := cfg; e_enforcer := e.(e_enforcer) |}.

Definition set_store (s : S) e : engine :=
  {| e_store := Some s; e_rateLimiter := e.(e_rateLimiter); e_audit := e.(e_audit);
     e_idempotency := e.(e_idempotency); e_config := e.(e_config); e_enforcer := e.(e_enforcer) |}.

Definition set_limiter (l : TenantRateLimiter T Net L) e : engine :=
  {| e_store := e.(e_store); e_rateLimiter := Some l; e_audit := e.(e_audit);
     e_idempotency := e.(e_idempotency); e_config := e.(e_config); e_enforcer := e.(e_enforcer) |}.

Definition set_enforcer (x : E) e : engine :=
  {| e_store := e.(e_store); e_rateLimiter := e.(e_rateLimiter); e_audit := e.(e_audit);
     e_idempotency := e.(e_idempotency); e_config := e.(e_config); e_enforcer := Some x |}.

Definition set_idempotency (i : I) e : engine :=
  {| e_store := e.(e_store); e_rateLimiter := e.(e_rateLimiter); e_audit := e.(e_audit);
     e_idempotency := Some i; e_config := e.(e_config); e_enforcer := e.(e_enforcer) |}.

Definition set_audit (l : list audit_event) e : engine :=
  {| e_store := e.(e_store); e_rateLimiter := e.(e_rateLimiter); e_audit := Some l;
     e_idempotency := e.(e_idempotency); e_config := e.(e_config); e_enforcer := e.(e_enforcer) |}.

(** *** Before the request *)

(** A read that stops the resolution on error. *)
Definition resolveEntities e a (endUserID : string) : auth_err + resolvedEntities :=
  let team0 := ctx_team a in
  let user0 := ctx_user a in
  match e.(e_store) with
  | None => inr {| res_team := team0; res_user := user0; res_org := None; res_endUser := None |}
  | Some s =>
      match (match team0, ctx_key a ≫= k_TeamID with None, Some id => GetTeam id s | t, _ => inr t end) with
      | inl err => inl err
      | inr team =>
          match (match user0, ctx_key a ≫= k_UserID with None, Some id => GetUser id s | u, _ => inr u end) with
          | inl err => inl err
          | inr user =>
              let org := if String.eqb (orgIDFromAuth a) "" then inr None
                         else match GetOrganization (orgIDFromAuth a) s with inl ErrCanceled => inr None | r => r end in
              match org with
              | inl err => inl err
              | inr org =>
                  match (if String.eqb endUserID "" then inr None else GetEndUser endUserID s) with
                  | inl err => inl err
                  | inr endUser => inr {| res_team := team; res_user := user; res_org := org; res_endUser := endUser |}
                  end
              end
          end
      end
  end.

Definition denied (model : string) := NewPermissionError "gateway" model "model access denied".
Definition access_failed (model : string) := NewInternalError "gateway" model "failed to evaluate model access".

Definition checkModelAccess e (model : string) a : engine * option LLMError :=
  match a with
  | None => (e, None)
  | Some ctx =>
      if String.eqb model "" then (e, None)
      else match e.(e_enforcer), ctx.(a_APIKey) with
      | Some enf, Some key =>
          let enf := sync_key key ctx.(a_Team) ctx.(a_User) enf in
          (set_enforcer enf e,
           match Enforce (KeySub key.(k_ID)) (ModelObj model) ActionUse enf with
           | None => Some (access_failed model)
           | Some true => None
           | Some false => Some (denied model)
           end)
      | _, _ =>
          (e, match NewModelAccess e.(e_store) a with
              | inl _ => Some (access_failed model)
              | inr access => if Allows access model then None else Some (denied model)
              end)
      end
  end.

Definition auditBudgetExceeded e a (objectType objectID model : string) : engine :=
  match e.(e_audit) with
  | Some events =>
      if e.(e_config).(g_AuditEnabled)
      then set_audit (events ++ [{| ev_actor := auditActor a; ev_objectType := objectType; ev_objectID := objectID;
                                    ev_model := model |}]) e
      else e
  | None => e
  end.

Definition quota (model message : string) := NewInsufficientQuotaError "gateway" model message.

(** The first level that is over its budget, with its kind and identifier. *)
Definition over_level (model : string) (ctx : AuthContext) (r : resolvedEntities) : option (string * string * string) :=
  if match ctx.(a_APIKey) with
     | Some k => Key_IsOverBudget k || isModelOverBudget model k.(k_ModelMaxBudget) k.(k_ModelSpend) | None => false end
  then Some ("api_key", default "" (k_ID <$> ctx.(a_APIKey)), "api key budget exceeded")
  else if match r.(res_team) with
     | Some t => Team_IsOverBudget t || isModelOverBudget model t.(t_ModelMaxBudget) t.(t_ModelSpend) | None => false end
  then Some ("team", default "" (t_ID <$> r.(res_team)), "team budget exceeded")
  else if match r.(res_user) with
     | Some u => User_IsOverBudget u || isModelOverBudget model u.(u_ModelMaxBudget) u.(u_ModelSpend) | None => false end
  then Some ("user", default "" (u_ID <$> r.(res_user)), "user budget exceeded")
  else if match r.(res_org) with Some o => Org_IsOverBudget o | None => false end
  then Some ("organization", default "" (o_ID <$> r.(res_org)), "organization budget exceeded")
  else if match r.(res_endUser) with Some u => EndUser_IsOverBudget u | None => false end
  then Some ("end_user", default "" (eu_UserID <$> r.(res_endUser)), "end user budget exceeded")
  else None.

Definition checkBudgets e (model : string) a (r : resolvedEntities) : engine * option LLMError :=
  match a with
  | None => (e, None)
  | Some ctx =>
      match over_level model ctx r with
      | Some (kind, id, message) => (auditBudgetExceeded e a kind id model, Some (quota model message))
      | None =>
          (e, match r.(res_endUser) with
              | Some u => if EndUser_IsBlocked u then Some (NewPermissionError "gateway" model "end user blocked") else None
              | None => None
              end)
      end
  end.

Definition too_many (model message : string) := NewRateLimitError "gateway" model message.

(** The limit of the resolved team, when it has one. *)
Definition check_team (now : time) (rl : TenantRateLimiter T Net L) (team : option Team) : TenantRateLimiter T Net L * bool :=
  match team with
  | Some t =>
      match t.(t_RPMLimit) with
      | Some rpm =>
          if 0 <? rpm then
            let '(rl, (allowed, _)) := Check now ("team:" +:+ t.(t_ID)) rpm (burstForRate rl rpm 0) rl in (rl, allowed)
          else (rl, true)
      | None => (rl, true)
      end
  | None => (rl, true)
  end.

(** The tenant of a request, with its requests per minute; [None] when it has no identity. *)
Definition tenant_of (rl : TenantRateLimiter T Net L) (input : RequestInput) a : option (string * Z) :=
  match ctx_key a with
  | Some key => Some (key.(k_ID), default 0 key.(k_RPMLimit))
  | None =>
      let id := match ctx_user a, input.(i_Request) with
                | Some u, _ => u.(u_ID)
                | None, Some r => AnonymousKey (Some r) rl
                | None, None => ""
                end in
      if String.eqb id "" then None else Some (id, default 0 (ctx_user a ≫= u_RPMLimit))
  end.

Definition checkRateLimit (now : time) e (input : RequestInput) a (r : resolvedEntities) : engine * option LLMError :=
  match e.(e_rateLimiter) with
  | None => (e, None)
  | Some rl =>
      match tenant_of rl input a with
      | None => (e, None)
      | Some (id, rpm) =>
          let burst := burstForRate rl rpm 1 in
          let '(rl, team_ok) := check_team now rl r.(res_team) in
          if negb team_ok then (set_limiter rl e, Some (too_many input.(i_Model) "team rate limit exceeded"))
          else
            let '(rl, (allowed, _)) := Check now id rpm burst rl in
            (set_limiter rl e, if allowed then None else Some (too_many input.(i_Model) "rate limit exceeded"))
      end
  end.

(** [None] lets the request through. *)
Definition Evaluate (now : time) e a (input : RequestInput) : engine * option LLMError :=
  if negb e.(e_config).(g_Enabled) then (e, None)
  else match resolveEntities e a input.(i_EndUserID) with
  | inl _ => (e, Some (NewInternalError "gateway" input.(i_Model) "failed to resolve auth context"))
  | inr r =>
      match checkModelAccess e input.(i_Model) a with
      | (e, Some err) => (e, Some err)
      | (e, None) =>
          match checkBudgets e input.(i_Model) a r with
          | (e, Some err) => (e, Some err)
          | (e, None) => checkRateLimit now e input a r
          end
      end
  end.

(** *** After the request *)

(** [nowLatency] is read when the latency has to be measured, [now] as the end time. *)
Definition usage_log (nowLatency now : time) a (input : AccountInput) (endUserID : string) : UsageLog :=
  let latency := if (input.(c_Latency) <=? 0) && negb (is_zero input.(c_Start))
                 then time_sub nowLatency input.(c_Start) else input.(c_Latency) in
  let endTime := if negb (is_zero input.(c_Start)) && (0 <? latency) then time_add input.(c_Start) latency else now in
  let nonempty x := if String.eqb x "" then None else Some x in
  let key := ctx_key a in
  {| l_ID := 0; l_RequestID := input.(c_RequestID);
     l_APIKeyID := default "" (k_ID <$> key);
     l_TeamID := match key ≫= k_TeamID with Some t => Some t | None => nonempty (teamIDFromAuth a) end;
     l_OrganizationID := match key ≫= k_OrganizationID with Some o => Some o | None => nonempty (orgIDFromAuth a) end;
     l_UserID := match key ≫= k_UserID with Some u => Some u | None => nonempty (userIDFromAuth a) end;
     l_EndUserID := nonempty endUserID;
     l_Model := input.(c_Model); l_ModelGroup := None; l_Provider := providerLabel input.(c_Usage).(g_Provider);
     l_CallType := input.(c_CallType); l_InputTokens := input.(c_Usage).(g_PromptTokens);
     l_OutputTokens := input.(c_Usage).(g_CompletionTokens); l_TotalTokens := input.(c_Usage).(g_TotalTokens);
     l_Cost := input.(c_Usage).(g_Cost); l_LatencyMs := milliseconds latency; l_StatusCode := input.(c_StatusCode);
     l_Status := input.(c_Status); l_CacheHit := None; l_RequestTags := input.(c_RequestTags); l_Metadata := None;
     l_StartTime := input.(c_Start); l_EndTime := endTime |}.

(** [if id != "" { if err := update(...); err != nil { warn } }] *)
Definition charge_if (ok : bool) (update : S -> S * option auth_err) (s : S) : S := if ok then (update s).1 else s.

(** The writes of one accounting, in the order of the code. *)
Definition charge (a : option AuthContext) (input : AccountInput) (endUserID : string) (s : S) : S :=
  let cost := input.(c_Usage).(g_Cost) in
  let model := input.(c_Model) in
  let set x := negb (String.eqb x "") in
  let teamID := teamIDFromAuth a in
  let userID := userIDFromAuth a in
  let orgID := orgIDFromAuth a in
  let s := match ctx_key a with
           | Some key => charge_if (set model) (UpdateAPIKeyModelSpent key.(k_ID) model cost)
                           (charge_if true (UpdateAPIKeySpent key.(k_ID) cost) s)
           | None => s
           end in
  let s := charge_if (set teamID) (UpdateTeamSpent teamID cost) s in
  let s := charge_if (set teamID && set model) (UpdateTeamModelSpent teamID model cost) s in
  let s := charge_if (set userID) (UpdateUserSpent userID cost) s in
  let s := charge_if (set userID && set teamID) (UpdateTeamMembershipSpent userID teamID cost) s in
  let s := charge_if (set orgID) (UpdateOrganizationSpent orgID cost) s in
  let s := charge_if (set orgID && set userID) (UpdateOrganizationMembershipSpent userID orgID cost) s in
  charge_if (set endUserID) (UpdateEndUserSpent endUserID cost) s.

Definition account (nowIdem nowLatency now : time) e a (input : AccountInput) : engine :=
  match e.(e_store) with
  | None => e
  | Some s =>
      let logKey := idempotencyKey input in
      let window := e.(e_config).(g_IdempotencyWindow) in
      let '(e, fresh) :=
        match e.(e_idempotency) with
        | Some i =>
            if negb (String.eqb logKey "") && (0 <? window) then
              let '(i, res) := PutIfAbsent nowIdem logKey window i in
              (set_idempotency i e, match res with inr ok => ok | inl _ => true end)
            else (e, true)
        | None => (e, true)
        end in
      if negb fresh then e
      else
        let endUserID := if String.eqb input.(c_EndUserID) "" then default "" (a_EndUserID <$> a) else input.(c_EndUserID) in
        let s := (LogUsage (usage_log nowLatency now a input endUserID) s).1 in
        if input.(c_Usage).(g_Cost) <=.? fzero then set_store s e else set_store (charge a input endUserID s) e
  end.

(** With asynchronous accounting the same call runs in a goroutine. *)
Definition Account (nowIdem nowLatency now : time) e a (input : AccountInput) : engine :=
  if negb e.(e_config).(g_Enabled) then e else account nowIdem nowLatency now e a input.
End Engine.

(** * Theorems of the governance engine

    What [Evaluate] lets through and what [Account] records, over the storage
    interface and, end to end, over the in-memory store. *)
From S2P Require Import AuthStoreProofs AuthMiddleware AuthTheorems.
Import MemoryAuth MemoryIdempotency.

Section Gate.
Context {S IP Net T L E I : Type} `{AuthStore S} `{NetLib IP Net} `{RateLimiter T} `{DistributedLimiter L}
  `{CasbinEngine E} `{IdempotencyStore I}.
Implicit Types (e : Engine S T Net L E I) (a : option AuthContext).

(** Every level is within its budgets for the model. *)
Record within_budget (model : string) (ctx : AuthContext) (r : resolvedEntities) : Prop := {
  wb_key k : ctx.(a_APIKey) = Some k ->
    Key_IsOverBudget k = false /\ isModelOverBudget model k.(k_ModelMaxBudget) k.(k_ModelSpend) = false;
  wb_team t : r.(res_team) = Some t ->
    Team_IsOverBudget t = false /\ isModelOverBudget model t.(t_ModelMaxBudget) t.(t_ModelSpend) = false;
  wb_user u : r.(res_user) = Some u ->
    User_IsOverBudget u = false /\ isModelOverBudget model u.(u_ModelMaxBudget) u.(u_ModelSpend) = false;
  wb_org o : r.(res_org) = Some o -> Org_IsOverBudget o = false;
  wb_end u : r.(res_endUser) = Some u -> EndUser_IsOverBudget u = false;
}.

Lemma over_level_none model ctx r : over_level model ctx r = None <-> within_budget model ctx r.
Proof.
  unfold over_level. split.
  - intros O. repeat match type of O with (if ?b then _ else _) = None => destruct b eqn:? in O; [done|] end.
    split; intros x Hx; rewrite Hx in *; rewrite ?orb_false_iff in *; done.
  - intros [W1 W2 W3 W4 W5].
    destruct (a_APIKey ctx) as [k|]; [destruct (W1 k eq_refl) as [-> ->]|];
    (destruct (res_team r) as [t|]; [destruct (W2 t eq_refl) as [-> ->]|]);
    (destruct (res_user r) as [u|]; [destruct (W3 u eq_refl) as [-> ->]|]);
    (destruct (res_org r) as [o|]; [rewrite (W4 o eq_refl)|]);
    (destruct (res_endUser r) as [eu|]; [rewrite (W5 eu eq_refl)|]); reflexivity.
Qed.

(** The verdict leaves the storage alone. *)
Lemma Evaluate_store now e a input : (Evaluate now e a input).1.(e_store) = e.(e_store).
Proof.
  assert (M : forall model, (checkModelAccess e model a).1.(e_store) = e.(e_store)).
  { intros model. unfold checkModelAccess. by repeat case_match. }
  assert (B : forall e model r, (checkBudgets e model a r).1.(e_store) = e.(e_store)).
  { intros e0 model r. unfold checkBudgets, auditBudgetExceeded. by repeat case_match. }
  assert (R : forall e r, (checkRateLimit now e input a r).1.(e_store) = e.(e_store)).
  { intros e0 r. unfold checkRateLimit. by repeat case_match. }
  unfold Evaluate. destruct (negb _); [done|]. destruct (resolveEntities _ _ _) as [err|r]; [done|].
  specialize (M input.(i_Model)). destruct (checkModelAccess _ _ _) as [e1 [err|]]; [done|].
  specialize (B e1 input.(i_Model) r). destruct (checkBudgets _ _ _ _) as [e2 [err|]]; cbn in *; [congruence|]. rewrite R. congruence.
Qed.

(** An admitted request passed the resolution and the first two checks. *)
Lemma evaluate_stages now e ctx input e' :
  e.(e_config).(g_Enabled) = true -> Evaluate now e (Some ctx) input = (e', None) ->
  exists r e1, resolveEntities e (Some ctx) input.(i_EndUserID) = inr r
    /\ checkModelAccess e input.(i_Model) (Some ctx) = (e1, None) /\ over_level input.(i_Model) ctx r = None
    /\ (forall u, r.(res_endUser) = Some u -> u.(eu_Blocked) = false).
Proof.
  intros En Ev. unfold Evaluate in Ev. rewrite En in Ev. cbn [negb] in Ev.
  destruct (resolveEntities e (Some ctx) _) as [err|r]; [done|].
  destruct (checkModelAccess e _ _) as [e1 [err|]]; [done|].
  destruct (checkBudgets e1 _ _ r) as [e2 [err|]] eqn:B; [done|]. clear Ev.
  unfold checkBudgets in B. destruct (over_level _ ctx r) as [[[kind id] msg]|] eqn:O; [done|].
  exists r, e1. do 3 (split; [done|]). intros u Hu. rewrite Hu in B. unfold EndUser_IsBlocked in B. by destruct (eu_Blocked u).
Qed.


(** Over its budget, a request is refused whatever else holds. *)
Lemma over_budget_refused now e ctx input k :
  e.(e_config).(g_Enabled) = true -> ctx.(a_APIKey) = Some k -> Key_IsOverBudget k = true ->
  exists err, (Evaluate now e (Some ctx) input).2 = Some err.
Proof.
  intros En Hk Ho. destruct (Evaluate now e (Some ctx) input) as [e' [err|]] eqn:Ev; [by exists err|].
  apply evaluate_stages in Ev as (r & _ & _ & _ & O & _); [|done]. apply over_level_none in O as [W _ _ _ _].
  destruct (W k Hk). congruence.
Qed.

(** Only the end user named by the request is looked up: the one the context
    carries, whose spend is charged, is not. *)
Theorem context_end_user_unchecked e a r : resolveEntities e a "" = inr r -> r.(res_endUser) = None.
Proof. unfold resolveEntities. cbn [String.eqb]. intros R. repeat case_match; by simplify_eq. Qed.
End Gate.

(** ** Accounting once *)

Section Once.
Context {S IP Net T L E : Type} `{AuthStore S} `{NetLib IP Net} `{RateLimiter T} `{DistributedLimiter L} `{CasbinEngine E}.
Implicit Types (e : Engine S T Net L E MemoryIdempotencyStore) (a : option AuthContext).

Lemma account_store_idem t1 tl t e a input s i :
  e.(e_store) = Some s -> e.(e_idempotency) = Some i -> idempotencyKey input <> "" ->
  0 < e.(e_config).(g_IdempotencyWindow) ->
  match i !! idempotencyKey input with Some x => after x t1 = false | None => True end ->
  (account t1 tl t e a input).(e_idempotency)
    = Some (<[idempotencyKey input := t1 + e.(e_config).(g_IdempotencyWindow)]> i)
  /\ (account t1 tl t e a input).(e_config) = e.(e_config)
  /\ is_Some (account t1 tl t e a input).(e_store).
Proof.
  intros Hs Hi Hk Hw Hf. unfold account. rewrite Hs, Hi. rewrite (proj2 (String.eqb_neq _ _) Hk).
  replace (0 <? _) with true by lia. cbn [negb andb PutIfAbsent memory_idempotency]. unfold mi_PutIfAbsent.
  rewrite (proj2 (String.eqb_neq _ _) Hk).
  assert (F : match i !! idempotencyKey input with Some x => after x t1 | None => false end = false) by (by case_match).
  rewrite F. replace (_ <=? 0) with false by lia. cbn [negb].
  destruct (g_Cost (c_Usage input) <=.? fzero); cbn; eauto.
Qed.

(** Usage is recorded once per request identifier.  After an accounting, every
    further accounting with the same identifier and call type inside the window
    leaves the storage as it is, whoever makes the request and whatever it cost:
    retries are not billed twice, and neither is another caller that presents the
    same identifier. *)
Theorem account_once t1 t2 tl tl' t t' e a a' input input' s i :
  e.(e_store) = Some s -> e.(e_idempotency) = Some i -> 0 < e.(e_config).(g_IdempotencyWindow) ->
  input.(c_RequestID) <> "" -> input'.(c_RequestID) = input.(c_RequestID) -> input'.(c_CallType) = input.(c_CallType) ->
  match i !! idempotencyKey input with Some x => after x t1 = false | None => True end ->
  t2 < t1 + e.(e_config).(g_IdempotencyWindow) ->
  let e1 := account t1 tl t e a input in
  (account t2 tl' t' e1 a' input').(e_store) = e1.(e_store).
Proof.
  intros Hs Hi Hw Hr Er Ec Hf Ht e1.
  assert (Ek : idempotencyKey input' = idempotencyKey input) by (unfold idempotencyKey; by rewrite Er, Ec).
  assert (Hk : idempotencyKey input <> "").
  { unfold idempotencyKey. rewrite (proj2 (String.eqb_neq _ _) Hr). by destruct (String.eqb (c_CallType input) ""). }
  destruct (account_store_idem t1 tl t e a input s i Hs Hi Hk Hw Hf) as (I1 & C1 & [s1 S1]). fold e1 in I1, C1, S1.
  unfold account. rewrite S1, I1, Ek, (proj2 (String.eqb_neq _ _) Hk), C1. replace (0 <? _) with true by lia.
  cbn [negb andb PutIfAbsent memory_idempotency]. unfold mi_PutIfAbsent.
  rewrite (proj2 (String.eqb_neq _ _) Hk), lookup_insert_eq. unfold after, time_add.
  replace (t2 <? _) with true by lia. cbn. exact S1.
Qed.
End Once.

(** ** Charging the in-memory store *)

Lemma alter_twice {V} (f g : V -> V) i (m : gmap string V) : alter g i (alter f i m) = alter (fun x => g (f x)) i m.
Proof.
  apply map_eq. intros j. rewrite !lookup_alter. destruct (decide (i = j)) as [->|]; [|done]. rewrite decide_True by done. by destruct (m !! j).
Qed.

(** Everything but the keys is the same. *)
Definition same_rest (s s' : MemoryStore) : Prop :=
  s'.(teams) = s.(teams) /\ s'.(users) = s.(users) /\ s'.(organizations) = s.(organizations)
  /\ s'.(endUsers) = s.(endUsers) /\ s'.(usageLogs) = s.(usageLogs)
  /\ s'.(budgets) = s.(budgets) /\ s'.(teamMemberships) = s.(teamMemberships) /\ s'.(orgMemberships) = s.(orgMemberships).

#[local] Instance same_rest_preorder : PreOrder same_rest.
Proof. split; [done|]. unfold same_rest. intros x y z ? ?. intuition congruence. Qed.

Lemma with_key_frame id f s : same_rest s (with_key id f s).
Proof. unfold with_key. by destruct (s.(apiKeysByID) !! id). Qed.

Definition charge_key (model : string) (cost : f64) (k : APIKey) : APIKey :=
  let k := k<|k_SpentBudget ::= fun x => x ⊞ cost|> in
  if String.eqb model "" then k else k<|k_ModelSpend ::= fun m => add_spend m model cost|>.

Definition charge_team (model : string) (cost : f64) (t : Team) : Team :=
  let t := t<|t_SpentBudget ::= fun x => x ⊞ cost|> in
  if String.eqb model "" then t else t<|t_ModelSpend ::= fun m => add_spend m model cost|>.

Definition charge_user (cost : f64) (u : User) : User := u<|u_Spend ::= fun x => x ⊞ cost|>.
Definition charge_org (cost : f64) (o : Organization) : Organization := o<|o_Spend ::= fun x => x ⊞ cost|>.
Definition charge_end (cost : f64) (u : EndUser) : EndUser := u<|eu_Spend ::= fun x => x ⊞ cost|>.
Definition charge_member (cost : f64) (m : TeamMembership) : TeamMembership := m<|tm_Spend ::= fun x => x ⊞ cost|>.
Definition charge_org_member (cost : f64) (m : OrganizationMembership) : OrganizationMembership := m<|om_Spend ::= fun x => x ⊞ cost|>.

(** A change of the entity with this identifier; no identifier, no change. *)
Definition at_id {V} (id : string) (f : V -> V) (m : gmap string V) : gmap string V :=
  if String.eqb id "" then m else alter f id m.

(** A change of the membership of a user in a group, when both are known. *)
Definition at_ids {V} (key user group : string) (f : V -> V) (m : gmap string V) : gmap string V :=
  if String.eqb user "" || String.eqb group "" then m else alter f key m.

Section Memory.
Context (ord : gset string -> list string).
#[local] Instance gov_mem : AuthStore MemoryStore := memory_auth_store ord.
Implicit Types (a : option AuthContext) (s : MemoryStore).

(** Every part of the storage but the keys and the logs, after a charge. *)
Record charged (a : option AuthContext) (input : AccountInput) (eu : string) s s' : Prop := {
  ch_teams : s'.(teams) = at_id (teamIDFromAuth a) (charge_team input.(c_Model) input.(c_Usage).(g_Cost)) s.(teams);
  ch_users : s'.(users) = at_id (userIDFromAuth a) (charge_user input.(c_Usage).(g_Cost)) s.(users);
  ch_orgs : s'.(organizations) = at_id (orgIDFromAuth a) (charge_org input.(c_Usage).(g_Cost)) s.(organizations);
  ch_ends : s'.(endUsers) = at_id eu (charge_end input.(c_Usage).(g_Cost)) s.(endUsers);
  ch_members : s'.(teamMemberships)
    = at_ids (membershipKey (userIDFromAuth a) (teamIDFromAuth a)) (userIDFromAuth a) (teamIDFromAuth a)
        (charge_member input.(c_Usage).(g_Cost)) s.(teamMemberships);
  ch_org_members : s'.(orgMemberships)
    = at_ids (orgMembershipKey (userIDFromAuth a) (orgIDFromAuth a)) (userIDFromAuth a) (orgIDFromAuth a)
        (charge_org_member input.(c_Usage).(g_Cost)) s.(orgMemberships);
  ch_budgets : s'.(budgets) = s.(budgets);
}.

(** The state after the writes on the key, which touch nothing else. *)
Lemma charge_frame a input eu s :
  charged a input eu s (charge a input eu s) /\ (charge a input eu s).(usageLogs) = s.(usageLogs).
Proof.
  unfold charge. set (s1 := match ctx_key a with Some _ => _ | None => s end).
  assert (F : same_rest s s1).
  { unfold s1, charge_if. destruct (ctx_key a) as [k|]; [|done].
    destruct (negb (String.eqb (c_Model input) "")); [etrans|]; apply with_key_frame. }
  clearbody s1. destruct F as (E1 & E2 & E3 & E4 & E5 & E6 & E7 & E8). cbv zeta.
  split; [split; rewrite <- ?E1, <- ?E2, <- ?E3, <- ?E4, <- ?E6, <- ?E7, <- ?E8|rewrite <- E5]; clear; unfold at_id, at_ids, charge_team, charge_if;
    destruct (String.eqb (teamIDFromAuth a) ""), (String.eqb (userIDFromAuth a) ""), (String.eqb (orgIDFromAuth a) ""),
      (String.eqb eu ""), (String.eqb (c_Model input) ""); cbn; try reflexivity; apply alter_twice.
Qed.

(** The other writes leave the keys alone. *)
Definition same_keys (s s' : MemoryStore) : Prop :=
  s'.(objs) = s.(objs) /\ s'.(apiKeys) = s.(apiKeys) /\ s'.(apiKeysByID) = s.(apiKeysByID).

#[local] Instance same_keys_preorder : PreOrder same_keys.
Proof. split; [done|]. unfold same_keys. intros x y z ? ?. intuition congruence. Qed.

Lemma same_keys_ok s s' : keys_ok s -> same_keys s s' -> keys_ok s' /\ abs s' = abs s.
Proof.
  intros [W1 W2] (Eo & Eh & Ei). split; [split; rewrite Eo, Eh, Ei; done|]. unfold abs, deref. by rewrite Eo, Ei.
Qed.

Lemma charge_if_keys ok f s : (forall x, same_keys x (f x).1) -> same_keys s (charge_if ok f s).
Proof. intros Hf. unfold charge_if. destruct ok; [apply Hf|done]. Qed.

(** The keys are changed by the writes on the key only. *)
Lemma charge_keys a input eu s :
  keys_ok s ->
  keys_ok (charge a input eu s)
  /\ abs (charge a input eu s) =
    match ctx_key a with
    | Some k => alter (charge_key input.(c_Model) input.(c_Usage).(g_Cost)) k.(k_ID) (abs s)
    | None => abs s
    end.
Proof.
  intros W. unfold charge. set (s1 := match ctx_key a with Some _ => _ | None => s end). cbv zeta.
  assert (F : keys_ok s1 /\ abs s1 = match ctx_key a with
    | Some k => alter (charge_key input.(c_Model) input.(c_Usage).(g_Cost)) k.(k_ID) (abs s) | None => abs s end).
  { unfold s1, charge_if, charge_key. destruct (ctx_key a) as [k|]; [|done]. cbn [UpdateAPIKeySpent gov_mem memory_auth_store].
    destruct (run_op_ok s (KSpend k.(k_ID) input.(c_Usage).(g_Cost)) W eq_refl) as [W1 A1].
    destruct (String.eqb (c_Model input) ""); cbn [negb]; [split; [exact W1|exact A1]|].
    destruct (run_op_ok _ (KModelSpend k.(k_ID) input.(c_Model) input.(c_Usage).(g_Cost)) W1 eq_refl) as [W2 A2].
    split; [exact W2|]. etrans; [exact A2|]. rewrite A1. cbn [spec_op]. by rewrite alter_twice. }
  clearbody s1. destruct F as [W1 <-]. apply same_keys_ok; [done|].
  repeat (etrans; [|by apply charge_if_keys]). done.
Qed.
Section Account.
Context {IP Net T L E I : Type} `{NetLib IP Net} `{RateLimiter T} `{DistributedLimiter L} `{CasbinEngine E} `{IdempotencyStore I}.
Implicit Types e : Engine MemoryStore T Net L E I.

Definition end_user_of (a : option AuthContext) (input : AccountInput) : string :=
  if String.eqb input.(c_EndUserID) "" then default "" (a_EndUserID <$> a) else input.(c_EndUserID).

(** The accounting is not a repetition: there is no idempotency store, the request
    has no identifier, the window is off, the store takes the identifier as new, or
    it fails. *)
Definition first_time (ti : time) e (input : AccountInput) : bool :=
  match e.(e_idempotency) with
  | Some i =>
      if negb (String.eqb (idempotencyKey input) "") && (0 <? e.(e_config).(g_IdempotencyWindow)) then
        match (PutIfAbsent ti (idempotencyKey input) e.(e_config).(g_IdempotencyWindow) i).2 with inr ok => ok | inl _ => true end
      else true
  | None => true
  end.

(** An accounting that is not a repetition writes the log and, for a positive
    cost, the charges; a repetition writes nothing. *)
Lemma account_fresh ti tl t e a input s :
  e.(e_store) = Some s ->
  (account ti tl t e a input).(e_store) =
    (if first_time ti e input then
       let s1 := (ms_LogUsage (usage_log tl t a input (end_user_of a input)) s).1 in
       Some (if input.(c_Usage).(g_Cost) <=.? fzero then s1 else charge a input (end_user_of a input) s1)
     else Some s)
  /\ (account ti tl t e a input).(e_config) = e.(e_config).
Proof.
  intros Hs. unfold account, first_time. rewrite Hs. fold (end_user_of a input). destruct e as [st rl au idem cfg enf]. cbn in *. subst st.
  destruct idem as [i|]; cbn [negb]; [|by destruct (g_Cost (c_Usage input) <=.? fzero)].
  destruct (negb (String.eqb (idempotencyKey input) "") && _); cbn [negb]; [|by destruct (g_Cost (c_Usage input) <=.? fzero)].
  destruct (PutIfAbsent _ _ _ _) as [i' [err|[|]]]; cbn; by destruct (g_Cost (c_Usage input) <=.? fzero).
Qed.

(** The state after the log and the charges. *)
Lemma charged_state a input eu log s :
  keys_ok s ->
  let s' := charge a input eu (ms_LogUsage log s).1 in
  keys_ok s'
  /\ abs s' = match ctx_key a with Some k => alter (charge_key input.(c_Model) input.(c_Usage).(g_Cost)) k.(k_ID) (abs s) | None => abs s end
  /\ charged a input eu s s'
  /\ s'.(usageLogs) = s.(usageLogs) ++ [log<|l_ID := Z.of_nat (length s.(usageLogs)) + 1|>].
Proof.
  intros W. cbv zeta. set (s1 := (ms_LogUsage log s).1). destruct (same_keys_ok s s1 W) as [W1 A1]; [done|].
  destruct (charge_keys a input eu s1 W1) as [W2 A2]. destruct (charge_frame a input eu s1) as [F L'].
  rewrite A2, L', A1. split_and!; [done|done|destruct F; by split|done].
Qed.

(** C10: An accounting charges every level once, and nothing else.  Over the in-memory
    storage, with its two maps of keys in agreement: an accounting that the
    idempotency store takes for a repetition leaves the storage as it is; one that is
    not gains exactly one record of the usage log, with the cost and the identifier of
    the request, and when the cost is not positive that is all; and for a positive cost
    (or one that is not a number) the key, the team, the user, the organization and the
    end user of the request, and the user's memberships of the team and of the
    organization, each have their spend increased by the cost, keys and teams also per
    model, while every other key, team, user, organization, end user and membership,
    and all budgets, are as they were. *)
Theorem account_charges_every_level ti tl t e a input s :
  e.(e_store) = Some s -> keys_ok s ->
  exists s', (account ti tl t e a input).(e_store) = Some s' /\ keys_ok s'
    /\ if negb (first_time ti e input) then s' = s
       else (exists log, s'.(usageLogs) = s.(usageLogs) ++ [log] /\ log.(l_Cost) = input.(c_Usage).(g_Cost)
               /\ log.(l_RequestID) = input.(c_RequestID))
         /\ if input.(c_Usage).(g_Cost) <=.? fzero then s'<|usageLogs := s.(usageLogs)|> = s
            else abs s' = match ctx_key a with
                          | Some k => alter (charge_key input.(c_Model) input.(c_Usage).(g_Cost)) k.(k_ID) (abs s)
                          | None => abs s
                          end
                 /\ charged a input (end_user_of a input) s s'.
Proof.
  intros Hs W. destruct (account_fresh ti tl t e a input s Hs) as [-> _]. destruct (first_time ti e input); cbn [negb]; [|by exists s].
  cbv zeta. destruct (_ <=.? _).
  { eexists. split; [done|]. split; [by apply (same_keys_ok s)|]. split; [|by destruct s]. eexists. split; [done|]. done. }
  destruct (charged_state a input (end_user_of a input) (usage_log tl t a input (end_user_of a input)) s W) as (W' & A & F & L').
  eexists. split; [done|]. split; [done|]. split; [|done]. rewrite L'. eexists. split; [done|]. done.
Qed.

(** An accounting that takes the spend of a key to its budget leaves the key over
    its budget in the storage. *)
Lemma account_overspends ti tl t e a key k input s :
  e.(e_store) = Some s -> keys_ok s -> first_time ti e input = true ->
  ctx_key a = Some key -> abs s !! key.(k_ID) = Some k ->
  (input.(c_Usage).(g_Cost) <=.? fzero) = false ->
  over_budget k.(k_MaxBudget) (k.(k_SpentBudget) ⊞ input.(c_Usage).(g_Cost)) = true ->
  exists s' k', (account ti tl t e a input).(e_store) = Some s' /\ ms_GetAPIKeyByID key.(k_ID) s' = inr (Some k')
    /\ Key_IsOverBudget k' = true /\ (account ti tl t e a input).(e_config) = e.(e_config).
Proof.
  intros Hs W Hf Ha Hk Hc Ho. destruct (account_fresh ti tl t e a input s Hs) as [-> ->]. rewrite Hf. cbv zeta. rewrite Hc.
  destruct (charged_state a input (end_user_of a input) (usage_log tl t a input (end_user_of a input)) s W) as (_ & A1 & _).
  eexists _, (charge_key input.(c_Model) input.(c_Usage).(g_Cost) k). split; [done|].
  unfold ms_GetAPIKeyByID. rewrite <- abs_lookup, A1, Ha, lookup_alter_eq, Hk. split_and!; [done| |done].
  unfold Key_IsOverBudget, charge_key. by destruct (String.eqb (c_Model input) "").
Qed.

(** The per-model budget of a user is never enforced: no accounting, however
    often repeated, records the spend of a user by model, so a user that starts
    without one is within every model budget for ever. *)
Theorem user_model_budget_inert e s accounts uid u :
  e.(e_store) = Some s -> e.(e_idempotency) = None -> keys_ok s ->
  s.(users) !! uid = Some u -> u.(u_ModelSpend) = None ->
  let e' := foldl (fun e (x : option AuthContext * AccountInput) => account 0 0 0 e x.1 x.2) e accounts in
  exists s' u', e'.(e_store) = Some s' /\ s'.(users) !! uid = Some u'
    /\ forall model, isModelOverBudget model u'.(u_ModelMaxBudget) u'.(u_ModelSpend) = false.
Proof.
  intros Hs Hi W Hu Hm. cbv zeta. revert e s u Hs Hi W Hu Hm.
  induction accounts as [|[a input] accounts IH]; intros e s u Hs Hi W Hu Hm; cbn [foldl fst snd].
  { exists s, u. repeat split; [done..|]. intros model. rewrite Hm. unfold isModelOverBudget.
    destruct (_ || _); [done|]. destruct (nget _ _); [|done]. by destruct (_ <=.? _). }
  assert (Hi' : (account 0 0 0 e a input).(e_idempotency) = None).
  { unfold account. rewrite Hs, Hi. cbn [negb]. by destruct (_ <=.? _). }
  assert (Ff : first_time 0 e input = true) by (unfold first_time; by rewrite Hi).
  destruct (g_Cost (c_Usage input) <=.? fzero) eqn:Hc.
  - eapply (IH _ (ms_LogUsage (usage_log 0 0 a input (end_user_of a input)) s).1 u); [|done| |exact Hu|exact Hm].
    + destruct (account_fresh 0 0 0 e a input s Hs) as [-> _]. by rewrite Ff, Hc.
    + by apply (same_keys_ok s).
  - destruct (account_fresh 0 0 0 e a input s Hs) as [S' _]. cbv zeta in S'. rewrite Ff, Hc in S'.
    destruct (charged_state a input (end_user_of a input) (usage_log 0 0 a input (end_user_of a input)) s W)
      as (W' & _ & [_ U' _ _ _ _ _] & _). set (s' := charge a input _ _) in *.
    assert (Hu' : exists u', s'.(users) !! uid = Some u' /\ u'.(u_ModelSpend) = None).
    { rewrite U'. unfold at_id. destruct (String.eqb _ ""); [eauto|]. rewrite lookup_alter.
      case_decide; [subst; rewrite Hu|rewrite Hu]; cbn; eauto. }
    destruct Hu' as (u' & Hu' & Hm'). by apply (IH _ s' u').
Qed.
End Account.
End Memory.

(** ** Instances *)

Definition demo_config : Config :=
  {| g_Enabled := true; g_AsyncAccounting := false; g_IdempotencyWindow := Hour; g_AuditEnabled := true |}.

Abbreviation demo_engine_type := (Engine MemoryStore unit (list string) MapRedis.db ListCasbin.engine MemoryIdempotencyStore).

Definition gov_key : APIKey := (key_named "k1" "#s1")<|k_MaxBudget := fone|><|k_UserID := Some "u1"|>.

Definition gov_user : User :=
  {| u_ID := "u1"; u_Alias := None; u_Email := None; u_TeamID := None; u_Teams := []; u_OrganizationID := None; u_Role := "";
     u_MaxBudget := fzero; u_Spend := fzero; u_ModelMaxBudget := Some (<["gpt" := fone]> ∅); u_ModelSpend := None;
     u_BudgetDuration := ""; u_BudgetResetAt := None; u_TPMLimit := None; u_RPMLimit := None; u_MaxParallelRequests := None;
     u_Models := []; u_IsActive := true; u_Metadata := None; u_CreatedAt := None; u_UpdatedAt := None |}.

Definition gov_store : MemoryStore := (ms_CreateUser gov_user (run_op NewMemoryStore (KCreate gov_key))).1.

Definition demo_engine (idem : option MemoryIdempotencyStore) : demo_engine_type :=
  {| e_store := Some gov_store; e_rateLimiter := None; e_audit := Some []; e_idempotency := idem;
     e_config := demo_config; e_enforcer := None |}.

Definition demo_input : AccountInput :=
  {| c_RequestID := "r1"; c_Model := "gpt"; c_CallType := "chat_completion"; c_EndUserID := ""; c_RequestTags := [];
     c_Usage := {| g_PromptTokens := 1; g_CompletionTokens := 1; g_TotalTokens := 2; g_Cost := fone; g_Provider := "" |};
     c_Start := 0; c_Latency := 5; c_StatusCode := None; c_Status := None |}.

Definition demo_req : RequestInput :=
  {| i_Request := None; i_Model := "gpt"; i_CallType := "chat_completion"; i_EndUserID := ""; i_Tags := [] |}.

Lemma gov_keys_ok : keys_ok gov_store.
Proof.
  apply (same_keys_ok (run_op NewMemoryStore (KCreate gov_key))); [|done].
  apply (run_op_ok NewMemoryStore (KCreate gov_key) keys_ok_new). by vm_compute.
Qed.


Lemma account_once_witness :
  let e1 := @account _ _ _ _ _ _ (memory_auth_store elements) _ 0 0 0 (demo_engine (Some ∅)) (Some (keyCtx gov_key None)) demo_input in
  e_store (@account _ _ _ _ _ _ (memory_auth_store elements) _ 5 5 5 e1 None demo_input) = e_store e1.
Proof.
  apply (@account_once _ _ _ _ _ (memory_auth_store elements) 0 5 0 5 0 5 (demo_engine (Some ∅)) (Some (keyCtx gov_key None)) None
    demo_input demo_input gov_store ∅); done.
Defined.

Lemma account_charges_every_level_witness :
  exists s', e_store (@account _ _ _ _ _ _ (memory_auth_store elements) _ 0 0 0 (demo_engine (Some ∅)) (Some (keyCtx gov_key None)) demo_input)
      = Some s' /\ (k_SpentBudget <$> abs s' !! "k1") = Some fone /\ (u_Spend <$> s'.(users) !! "u1") = Some fone.
Proof.
  destruct (@account_charges_every_level elements (list string) unit MapRedis.db ListCasbin.engine MemoryIdempotencyStore _ 0 0 0
    (demo_engine (Some ∅)) (Some (keyCtx gov_key None)) demo_input gov_store eq_refl gov_keys_ok) as (s' & E1 & _ & A).
  exists s'. split; [exact E1|]. destruct A as (_ & A & [_ U _ _ _ _ _]). rewrite A, U. by vm_compute.
Defined.

Lemma user_model_budget_inert_witness :
  exists s' u', e_store (foldl (fun e (x : option AuthContext * AccountInput) =>
      @account _ _ _ _ _ _ (memory_auth_store elements) _ 0 0 0 e x.1 x.2) (demo_engine None)
      [(Some (keyCtx gov_key None), demo_input); (Some (keyCtx gov_key None), demo_input)]) = Some s'
    /\ s'.(users) !! "u1" = Some u' /\ isModelOverBudget "gpt" u'.(u_ModelMaxBudget) u'.(u_ModelSpend) = false.
Proof.
  destruct (@user_model_budget_inert elements (list string) unit MapRedis.db ListCasbin.engine MemoryIdempotencyStore _
    (demo_engine None) gov_store [(Some (keyCtx gov_key None), demo_input); (Some (keyCtx gov_key None), demo_input)] "u1" gov_user)
    as (s' & u' & E1 & E2 & E3); [done|done|apply gov_keys_ok|done|done|].
  exists s', u'. split; [exact E1|]. split; [exact E2|apply E3].
Defined.
