(* ===== verification/PluginPipeline.v ===== *)
(** * Plug-in pipeline ([internal/plugin])

    A registry of plug-ins ordered by priority, their hooks around a request, and
    the pooled context they share.  A plug-in is the record of its methods: each
    takes the world, which is whatever the hooks of all plug-ins read and change
    (the shared context included).  Requests, responses and chunks are pointers:
    an option.  The timeout around a hook only reaches the plug-in through its
    context and is part of the world. *)
From S2P Require Import Prelude Errors RouterTypes AuthTypes.

Inductive plugin_error :=
| ErrTooManyPlugins
| ErrPluginNotFound
| ErrDuplicatePlugin
| ErrNilPlugin
| ErrPipelineClosed.

#[export] Instance plugin_error_eq_dec : EqDecision plugin_error.
Proof. solve_decision. Defined.

(** ** The context of a request *)

(** What the gateway reads from a [context.Context]: the tenant scope, who was
    authenticated, and the key set for rate limiting. *)
Record Ctx := {
  c_scope : context;
  c_auth : option AuthContext;
  c_rateKey : string;
}.

Record Context := {
  x_ctx : option Ctx;
  x_RequestID : string;
  x_Model : string;
  x_Provider : string;
  x_Deployment : option string;
  x_IsStreaming : bool;
  x_StartTime : time;
  x_Auth : option AuthContext;
  x_values : nmap any;
}.

Definition NewContext (now : time) (ctx : option Ctx) (requestID : string) : Context :=
  {| x_ctx := ctx; x_RequestID := requestID; x_Model := ""; x_Provider := ""; x_Deployment := None; x_IsStreaming := false;
     x_StartTime := now; x_Auth := None; x_values := Some ∅ |}.

Definition Context_Set (key : string) (value : any) (c : Context) : Context :=
  c<|x_values ::= fun m => Some (<[key := value]> (default ∅ m))|>.

Definition Context_Get (key : string) (c : Context) : option any := nget c.(x_values) key.

Definition GetString (key : string) (c : Context) : string :=
  match Context_Get key c with Some (AString s) => s | _ => "" end.
Definition GetInt (key : string) (c : Context) : Z :=
  match Context_Get key c with Some (AInt i) => i | _ => 0 end.
Definition GetBool (key : string) (c : Context) : bool :=
  match Context_Get key c with Some (ABool b) => b | _ => false end.

Definition Context_Reset (c : Context) : Context :=
  c<|x_ctx := None|><|x_RequestID := ""|><|x_Model := ""|><|x_Provider := ""|><|x_Deployment := None|>
   <|x_IsStreaming := false|><|x_StartTime := zero_time|><|x_Auth := None|><|x_values ::= fmap (fun _ => ∅)|>.

(** The pool gives back what was put, or makes a new context. *)
Definition pool_New : Context :=
  {| x_ctx := None; x_RequestID := ""; x_Model := ""; x_Provider := ""; x_Deployment := None; x_IsStreaming := false;
     x_StartTime := zero_time; x_Auth := None; x_values := Some ∅ |}.

Definition GetContext (now : time) (pooled : option Context) (ctx : option Ctx) (requestID : string) : Context :=
  (default pool_New pooled)<|x_ctx := ctx|><|x_RequestID := requestID|><|x_StartTime := now|>.

(** What goes into the pool. *)
Definition PutContext (c : Context) : Context := Context_Reset c.

(** ** Plug-ins *)

Section Pipeline.
Context {W Req Resp Chunk : Type}.

Record ShortCircuit := { sc_Response : option Resp; sc_Error : option go_error; sc_AllowFallback : bool }.
(** The channel of [Stream] is what it delivers until it is closed. *)
Record StreamShortCircuit := { ss_Stream : option (list (option Chunk)); ss_Error : option go_error; ss_AllowFallback : bool }.

Record StreamHooks := {
  PreStreamHook : W -> option Req -> W * (option Req * option StreamShortCircuit * option go_error);
  OnStreamChunk : W -> Chunk -> W * (option Chunk * option go_error);
  PostStreamHook : W -> option go_error -> W * option go_error;
}.

(** [stream] is there when the plug-in implements [StreamPlugin]. *)
Record Plugin := {
  Name : string;
  Priority : Z;
  PreHook : W -> option Req -> W * (option Req * option ShortCircuit * option go_error);
  PostHook : W -> option Resp -> option go_error -> W * (option Resp * option go_error * option go_error);
  Cleanup : W -> W * option go_error;
  stream : option StreamHooks;
}.

Record PipelineConfig := {
  PreHookTimeout : duration;
  PostHookTimeout : duration;
  PropagateErrors : bool;
  MaxPlugins : Z;
}.

Definition DefaultPipelineConfig : PipelineConfig :=
  {| PreHookTimeout := 10 * Second; PostHookTimeout := 10 * Second; PropagateErrors := false; MaxPlugins := 100 |}.

Record Pipeline := {
  plugins : list Plugin;
  config : PipelineConfig;
  closed : bool;
}.

Definition or_default_of_zero (n d : Z) : Z := if n =? 0 then d else n.

Definition NewPipeline (cfg : PipelineConfig) : Pipeline :=
  {| plugins := [];
     config := {| PreHookTimeout := or_default_of_zero cfg.(PreHookTimeout) (10 * Second);
                  PostHookTimeout := or_default_of_zero cfg.(PostHookTimeout) (10 * Second);
                  PropagateErrors := cfg.(PropagateErrors); MaxPlugins := or_default_of_zero cfg.(MaxPlugins) 100 |};
     closed := false |}.

(** *** [sort.Search]

    The smallest index in [i, j) at which [f] holds, by bisection; the interval
    halves, so its length is enough fuel. *)
Fixpoint bisect (fuel : nat) (f : nat -> bool) (i j : nat) : nat :=
  match fuel with
  | O => i
  | S fuel' =>
      if (i <? j)%nat then
        let h := Nat.div2 (i + j) in
        if f h then bisect fuel' f i h else bisect fuel' f (S h) j
      else i
  end.

Definition sort_Search (n : nat) (f : nat -> bool) : nat := bisect n f 0 n.

(** The test of [Register] at an index. *)
Definition priority_above (ps : list Plugin) (x : Plugin) (i : nat) : bool :=
  match ps !! i with Some q => x.(Priority) <? q.(Priority) | None => false end.

(** [append], [copy] and the assignment at [idx]. *)
Definition insert_at {A : Type} (idx : nat) (x : A) (l : list A) : list A := take idx l ++ x :: drop idx l.

(** [None] is the nil plug-in. *)
Definition Register (plugin : option Plugin) (p : Pipeline) : Pipeline * option plugin_error :=
  if p.(closed) then (p, Some ErrPipelineClosed)
  else match plugin with
  | None => (p, Some ErrNilPlugin)
  | Some x =>
      if existsb (fun q => String.eqb q.(Name) x.(Name)) p.(plugins) then (p, Some ErrDuplicatePlugin)
      else if p.(config).(MaxPlugins) <=? Z.of_nat (length p.(plugins)) then (p, Some ErrTooManyPlugins)
      else
        let idx := sort_Search (length p.(plugins)) (priority_above p.(plugins) x) in
        ({| plugins := insert_at idx x p.(plugins); config := p.(config); closed := p.(closed) |}, None)
  end.

Definition Unregister (name : string) (p : Pipeline) : Pipeline * option plugin_error :=
  if p.(closed) then (p, Some ErrPipelineClosed)
  else if existsb (fun q => String.eqb q.(Name) name) p.(plugins)
  then ({| plugins := remove_first (fun q => String.eqb q.(Name) name) p.(plugins); config := p.(config);
           closed := p.(closed) |}, None)
  else (p, Some ErrPluginNotFound).

Definition PluginCount (p : Pipeline) : Z := Z.of_nat (length p.(plugins)).

(** *** Hooks *)

(** The request, the short-circuit and the number of hooks run; an error of a
    hook is logged and what it returned is used all the same. *)
Fixpoint pre_hooks (ps : list Plugin) (executed : nat) (w : W) (req : option Req) :
  W * (option Req * option ShortCircuit * nat) :=
  match ps with
  | [] => (w, (req, None, executed))
  | q :: ps' =>
      let '(w, (req, sc, _)) := q.(PreHook) w req in
      match sc with
      | Some _ => (w, (req, sc, S executed))
      | None => pre_hooks ps' (S executed) w req
      end
  end.

Definition RunPreHooks (p : Pipeline) (w : W) (req : option Req) : W * (option Req * option ShortCircuit * nat) :=
  pre_hooks p.(plugins) 0 w req.

Fixpoint post_hooks (ps : list Plugin) (w : W) (resp : option Resp) (err : option go_error) :
  W * (option Resp * option go_error) :=
  match ps with
  | [] => (w, (resp, err))
  | q :: ps' => let '(w, (resp, err, _)) := q.(PostHook) w resp err in post_hooks ps' w resp err
  end.

(** [runFrom] clamped to the plug-ins there are; the hooks run from the last. *)
Definition reversed_prefix (p : Pipeline) (runFrom : Z) : list Plugin :=
  let runFrom := if runFrom <? 0 then 0 else runFrom in
  let runFrom := if Z.of_nat (length p.(plugins)) <? runFrom then Z.of_nat (length p.(plugins)) else runFrom in
  reverse (take (Z.to_nat runFrom) p.(plugins)).

Definition RunPostHooks (p : Pipeline) (w : W) (resp : option Resp) (err : option go_error) (runFrom : Z) :
  W * (option Resp * option go_error) :=
  post_hooks (reversed_prefix p runFrom) w resp err.

(** Plug-ins without stream hooks are passed over but counted. *)
Fixpoint stream_pre_hooks (ps : list Plugin) (executed : nat) (w : W) (req : option Req) :
  W * (option Req * option StreamShortCircuit * nat) :=
  match ps with
  | [] => (w, (req, None, executed))
  | q :: ps' =>
      match q.(stream) with
      | None => stream_pre_hooks ps' (S executed) w req
      | Some h =>
          let '(w, (req, sc, _)) := h.(PreStreamHook) w req in
          match sc with
          | Some _ => (w, (req, sc, S executed))
          | None => stream_pre_hooks ps' (S executed) w req
          end
      end
  end.

Definition RunStreamPreHooks (p : Pipeline) (w : W) (req : option Req) : W * (option Req * option StreamShortCircuit * nat) :=
  stream_pre_hooks p.(plugins) 0 w req.

(** A hook that returns nil drops the chunk, and the errors so far with it. *)
Fixpoint chunk_hooks (ps : list Plugin) (w : W) (chunk : Chunk) (lastErr : option go_error) :
  W * (option Chunk * option go_error) :=
  match ps with
  | [] => (w, (Some chunk, lastErr))
  | q :: ps' =>
      match q.(stream) with
      | None => chunk_hooks ps' w chunk lastErr
      | Some h =>
          let '(w, (chunk, err)) := h.(OnStreamChunk) w chunk in
          let lastErr := match err with Some _ => err | None => lastErr end in
          match chunk with
          | None => (w, (None, None))
          | Some chunk => chunk_hooks ps' w chunk lastErr
          end
      end
  end.

Definition RunOnStreamChunk (p : Pipeline) (w : W) (chunk : option Chunk) : W * (option Chunk * option go_error) :=
  match chunk with
  | None => (w, (None, None))
  | Some chunk => chunk_hooks p.(plugins) w chunk None
  end.

Fixpoint stream_post_hooks (ps : list Plugin) (w : W) (err : option go_error) : W :=
  match ps with
  | [] => w
  | q :: ps' =>
      match q.(stream) with
      | None => stream_post_hooks ps' w err
      | Some h => stream_post_hooks ps' (h.(PostStreamHook) w err).1 err
      end
  end.

Definition RunStreamPostHooks (p : Pipeline) (w : W) (err : option go_error) (runFrom : Z) : W * option go_error :=
  (stream_post_hooks (reversed_prefix p runFrom) w err, err).

(** The names of the plug-ins whose cleanup failed, in order. *)
Fixpoint cleanup_all (ps : list Plugin) (w : W) : W * list (string * go_error) :=
  match ps with
  | [] => (w, [])
  | q :: ps' =>
      let '(w, err) := q.(Cleanup) w in
      let '(w, errs) := cleanup_all ps' w in
      (w, match err with Some e => (q.(Name), e) :: errs | None => errs end)
  end.

Definition Shutdown (p : Pipeline) (w : W) : Pipeline * W * (plugin_error + list (string * go_error)) :=
  if p.(closed) then (p, w, inl ErrPipelineClosed)
  else
    let '(w, errs) := cleanup_all p.(plugins) w in
    ({| plugins := p.(plugins); config := p.(config); closed := true |}, w, inr errs).

Definition IsClosed (p : Pipeline) : bool := p.(closed).
End Pipeline.

Arguments Plugin : clear implicits.
Arguments Pipeline : clear implicits.
Arguments ShortCircuit : clear implicits.

(** ** Binary search *)

Definition monotone (f : nat -> bool) (n : nat) : Prop :=
  forall i j, (i <= j)%nat -> (j < n)%nat -> f i = true -> f j = true.

Lemma bisect_spec fuel f n i j :
  monotone f n -> (j <= n)%nat -> (j - i <= fuel)%nat -> (i <= j)%nat ->
  (forall k, (k < i)%nat -> f k = false) -> ((j < n)%nat -> f j = true) ->
  let r := bisect fuel f i j in
  (r <= n)%nat /\ (forall k, (k < r)%nat -> f k = false) /\ ((r < n)%nat -> f r = true).
Proof.
  intros Hm. revert i j. induction fuel as [|fuel IH]; intros i j Hj Hf Hij Hlo Hhi; cbn [bisect].
  - replace j with i in * by lia. done.
  - destruct (Nat.ltb_spec i j) as [Hlt|]; [|by replace j with i in * by lia].
    pose proof (Nat.div2_odd (i + j)) as D. destruct (Nat.odd (i + j)); cbn [Nat.b2n] in D.
    all: assert (Hh : (i <= Nat.div2 (i + j) < j)%nat) by lia; destruct (f (Nat.div2 (i + j))) eqn:E.
    all: apply IH; try lia; try done; try (intros k Hk).
    all: destruct (f k) eqn:Ek; [|done].
    all: rewrite (Hm k (Nat.div2 (i + j))) in E; [done|lia|lia|done].
Qed.

(** The bisection of [sort.Search] ends within its fuel at the first index that
    satisfies a monotone test: what a linear scan finds. *)
Theorem sort_Search_first f n :
  monotone f n ->
  let r := sort_Search n f in
  (r <= n)%nat /\ (forall k, (k < r)%nat -> f k = false) /\ ((r < n)%nat -> f r = true).
Proof. intros Hm. apply bisect_spec; (done || lia). Qed.

Lemma sort_Search_first_witness : sort_Search 7 (fun i => (3 <=? i)%nat) = 3%nat.
Proof.
  destruct (sort_Search_first (fun i => (3 <=? i)%nat) 7) as (_ & H1 & H2).
  - intros i j Hij _ Hi. apply Nat.leb_le in Hi. apply Nat.leb_le. lia.
  - reflexivity.
Defined.

(** ** The registry *)

Section Registry.
Context {W Req Resp Chunk : Type}.
Implicit Types (x q : Plugin W Req Resp Chunk) (ps : list (Plugin W Req Resp Chunk)) (p : Pipeline W Req Resp Chunk).

Definition by_priority : Plugin W Req Resp Chunk -> Plugin W Req Resp Chunk -> Prop := fun q r => q.(Priority) <= r.(Priority).

Record registry_ok p : Prop := {
  ok_sorted : StronglySorted by_priority p.(plugins);
  ok_names : NoDup (Name <$> p.(plugins));
  ok_max : p.(plugins) = [] \/ Z.of_nat (length p.(plugins)) <= p.(config).(MaxPlugins);
}.

Lemma sorted_lookup ps i j q r :
  StronglySorted by_priority ps -> ps !! i = Some q -> ps !! j = Some r -> (i <= j)%nat -> q.(Priority) <= r.(Priority).
Proof.
  intros Hs. revert i j. induction Hs as [|y ps Hs IH Hy]; intros i j Hi Hj Hij; [done|].
  destruct j as [|j]; [replace i with 0%nat in * by lia; simplify_eq/=; lia|].
  destruct i as [|i]; simplify_eq/=; [|apply (IH i j); (done || lia)].
  rewrite Forall_forall in Hy. apply (Hy r). by eapply list_elem_of_lookup_2.
Qed.

Lemma priority_monotone ps x : StronglySorted by_priority ps -> monotone (priority_above ps x) (length ps).
Proof.
  intros Hs i j Hij Hj Hi. unfold priority_above in *.
  destruct (ps !! i) as [q|] eqn:Ei; [|done]. destruct (lookup_lt_is_Some_2 ps j Hj) as [r Ej]. rewrite Ej.
  pose proof (sorted_lookup ps i j q r Hs Ei Ej Hij). lia.
Qed.

(** Where a plug-in goes: after all of the same or lower priority number. *)
Lemma insertion_point ps x :
  StronglySorted by_priority ps ->
  let idx := sort_Search (length ps) (priority_above ps x) in
  Forall (fun q => q.(Priority) <= x.(Priority)) (take idx ps) /\ Forall (fun q => x.(Priority) < q.(Priority)) (drop idx ps).
Proof.
  intros Hs idx.
  destruct (bisect_spec (length ps) (priority_above ps x) (length ps) 0 (length ps)) as (Hle & Hlo & Hhi);
    [by apply priority_monotone|lia..|]. fold (sort_Search (length ps) (priority_above ps x)) in Hle, Hlo, Hhi. fold idx in Hle, Hlo, Hhi.
  unfold priority_above in Hlo, Hhi. split; apply Forall_lookup; intros k q Hk.
  - apply lookup_take_Some in Hk as [Hk Hlt]. specialize (Hlo k Hlt). rewrite Hk in Hlo. lia.
  - rewrite lookup_drop in Hk. assert (Hi : (idx < length ps)%nat) by (apply lookup_lt_Some in Hk; lia).
    specialize (Hhi Hi). destruct (lookup_lt_is_Some_2 ps idx Hi) as [r Er]. rewrite Er in Hhi.
    pose proof (sorted_lookup ps idx (idx + k) r q Hs Er Hk ltac:(lia)). lia.
Qed.

Lemma insert_at_perm {A} idx (y : A) l : insert_at idx y l ≡ₚ y :: l.
Proof. unfold insert_at. rewrite <- Permutation_middle. by rewrite take_drop. Qed.

Lemma insert_sorted ps x :
  StronglySorted by_priority ps ->
  StronglySorted by_priority (insert_at (sort_Search (length ps) (priority_above ps x)) x ps).
Proof.
  intros Hs. destruct (insertion_point ps x Hs) as [Ha Hb]. unfold insert_at.
  set (idx := sort_Search _ _) in *. clearbody idx. revert Ha Hb. rewrite <- (take_drop idx ps) in Hs.
  generalize (take idx ps) (drop idx ps) Hs. clear Hs. intros l1 l2 Hs Ha Hb.
  induction l1 as [|y l1 IH]; cbn in *.
  - constructor; [done|]. eapply Forall_impl; [exact Hb|]. unfold by_priority. cbn. lia.
  - inversion Hs as [|? ? Hs' Hy]; subst. apply Forall_cons in Ha as [Hya Ha]. constructor; [by apply IH|].
    rewrite Forall_app in Hy |- *. destruct Hy as [Hy1 Hy2]. split; [done|]. by constructor.
Qed.

Lemma remove_first_sublist {A} (f : A -> bool) l : remove_first f l `sublist_of` l.
Proof. induction l as [|y l IH]; cbn; [done|]. destruct (f y); [by constructor|by constructor]. Qed.

Lemma sorted_sublist ps ps' : ps' `sublist_of` ps -> StronglySorted by_priority ps -> StronglySorted by_priority ps'.
Proof.
  induction 1 as [|y l k Hl IH|y l k Hl IH]; [done| |]; intros Hs; inversion Hs as [|? ? Hs' Hy]; subst; [|by apply IH].
  constructor; [by apply IH|]. rewrite Forall_forall in Hy |- *. intros z Hz. apply Hy. by eapply elem_of_sublist.
Qed.

Inductive registry_step : Pipeline W Req Resp Chunk -> Pipeline W Req Resp Chunk -> Prop :=
| step_register p (x : option (Plugin W Req Resp Chunk)) : registry_step p (Register x p).1
| step_unregister p name : registry_step p (Unregister name p).1
| step_shutdown p w : registry_step p (Shutdown p w).1.1.

Lemma registry_step_ok p p' : registry_step p p' -> registry_ok p -> registry_ok p'.
Proof.
  intros St [Hs Hn Hm]. destruct St as [p x|p name|p w].
  - unfold Register. destruct (closed p); [done|]. destruct x as [x|]; [|done].
    destruct (existsb _ _) eqn:D; [done|]. destruct (Z.leb_spec (MaxPlugins (config p)) (Z.of_nat (length (plugins p)))); [done|].
    split; cbn [plugins config fst].
    + by apply insert_sorted.
    + rewrite insert_at_perm. cbn. apply NoDup_cons. split; [|done]. intros (q & E & Hq)%list_elem_of_fmap.
      assert (T : existsb (fun q => String.eqb q.(Name) x.(Name)) p.(plugins) = true).
      { apply existsb_exists. exists q. rewrite <- list_elem_of_In. by rewrite E, String.eqb_refl. }
      congruence.
    + right. rewrite insert_at_perm. cbn. lia.
  - unfold Unregister. destruct (closed p); [done|]. destruct (existsb _ _); [|done]. cbn [fst].
    set (l := remove_first _ _). assert (Sl : l `sublist_of` p.(plugins)) by apply remove_first_sublist.
    split; cbn [plugins config].
    + by eapply sorted_sublist.
    + eapply sublist_NoDup; [exact Hn|]. by apply fmap_sublist.
    + apply sublist_length in Sl. destruct Hm as [Hm|Hm]; [rewrite Hm in Sl; left; by apply length_zero_iff_nil; cbn in Sl; lia|].
      right. lia.
  - unfold Shutdown. destruct (closed p); [done|]. destruct (cleanup_all _ _). done.
Qed.

(** C40: The registry stays ordered.  In every state reachable by registrations,
    removals and shutdowns the plug-ins are in ascending order of priority, their
    names are distinct, and there are at most as many as configured. *)
Theorem registry_invariant cfg p : rtc registry_step (NewPipeline cfg) p -> registry_ok p.
Proof.
  intros Hr. apply (rtc_invariant registry_step registry_ok (NewPipeline cfg)); [apply registry_step_ok| |done].
  split; [constructor|constructor|by left].
Qed.

(** A registration that succeeds puts the plug-in behind those of its priority. *)
Theorem register_position p x p' :
  registry_ok p -> Register (Some x) p = (p', None) ->
  exists l1 l2, p.(plugins) = l1 ++ l2 /\ p'.(plugins) = l1 ++ x :: l2
    /\ Forall (fun q => q.(Priority) <= x.(Priority)) l1 /\ Forall (fun q => x.(Priority) < q.(Priority)) l2.
Proof.
  intros [Hs _ _]. unfold Register. destruct (closed p); [done|]. destruct (existsb _ _); [done|].
  destruct (_ <=? _); [done|]. intros [= <-]. destruct (insertion_point p.(plugins) x Hs) as [H1 H2].
  do 2 eexists. split; [symmetry; apply take_drop|]. by split.
Qed.
End Registry.

(** ** Hooks come in pairs *)

Inductive event := EvPre (name : string) | EvPost (name : string).

Section Pairing.
Context {W Req Resp Chunk : Type}.
Implicit Types (q : Plugin W Req Resp Chunk) (l : list (Plugin W Req Resp Chunk)).

(** The plug-in with its two hooks writing to a trace. *)
Definition traced q : Plugin (W * list event) Req Resp Chunk :=
  {| Name := q.(Name); Priority := q.(Priority);
     PreHook w req := let '(w', r) := q.(PreHook) w.1 req in ((w', w.2 ++ [EvPre q.(Name)]), r);
     PostHook w resp err := let '(w', r) := q.(PostHook) w.1 resp err in ((w', w.2 ++ [EvPost q.(Name)]), r);
     Cleanup w := let '(w', r) := q.(Cleanup) w.1 in ((w', w.2), r);
     stream := None |}.

Lemma pre_hooks_trace l n w tr req :
  let '((_, tr'), (_, sc, n')) := pre_hooks (map traced l) n (w, tr) req in
  exists k, n' = (n + k)%nat /\ (k <= length l)%nat /\ tr' = tr ++ map (fun q => EvPre q.(Name)) (take k l)
    /\ (sc = None -> k = length l).
Proof.
  revert n w tr req. induction l as [|q l IH]; intros n w tr req; cbn.
  { exists 0%nat. rewrite app_nil_r. repeat split; lia. }
  destruct (PreHook q w req) as [w1 [[req1 sc1] err1]]. destruct sc1 as [sc1|].
  - exists 1%nat. cbn. rewrite take_0. repeat split; (lia || done).
  - specialize (IH (S n) w1 (tr ++ [EvPre q.(Name)]) req1).
    destruct (pre_hooks (map traced l) (S n) _ req1) as [[w2 tr2] [[req2 sc2] n2]].
    destruct IH as (k & -> & Hk & -> & Hsc). exists (S k). cbn. rewrite <- app_assoc.
    repeat split; [lia|lia|]. intros E. specialize (Hsc E). lia.
Qed.

Lemma post_hooks_trace l w tr resp err :
  (post_hooks (map traced l) (w, tr) resp err).1.2 = tr ++ map (fun q => EvPost q.(Name)) l.
Proof.
  revert w tr resp err. induction l as [|q l IH]; intros w tr resp err; cbn; [by rewrite app_nil_r|].
  destruct (PostHook q w resp err) as [w1 [[resp1 err1] e]]. rewrite IH, <- app_assoc. done.
Qed.

(** Hooks nest.  When the registry does not change during a request, the
    plug-ins whose first hook ran, all of them or those up to the one that cut the
    request short, have their second hook run exactly once each, in the reverse
    order. *)
Theorem hooks_nest l cfg cl w w2 req resp err :
  let p := {| plugins := map traced l; config := cfg; closed := cl |} in
  let '((_, tr), (_, sc, n)) := RunPreHooks p (w, []) req in
  (RunPostHooks p (w2, tr) resp err (Z.of_nat n)).1.2
    = map (fun q => EvPre q.(Name)) (take n l) ++ map (fun q => EvPost q.(Name)) (reverse (take n l))
  /\ (n <= length l)%nat /\ (sc = None -> n = length l).
Proof.
  cbv zeta. unfold RunPreHooks. cbn [plugins]. pose proof (pre_hooks_trace l 0 w [] req) as T.
  destruct (pre_hooks (map traced l) 0 (w, []) req) as [[w1 tr1] [[req1 sc1] n1]].
  destruct T as (k & -> & Hk & -> & Hsc). cbn [Nat.add app] in *. split; [|done].
  unfold RunPostHooks, reversed_prefix. cbn [plugins]. rewrite length_map.
  replace (Z.of_nat k <? 0) with false by lia. replace (Z.of_nat (length l) <? Z.of_nat k) with false by lia.
  rewrite Nat2Z.id, firstn_map. change (map traced (take k l)) with (traced <$> take k l).
  rewrite <- fmap_reverse. apply post_hooks_trace.
Qed.

Lemma pre_hooks_complete l n w req :
  Forall (fun q => forall w req, (q.(PreHook) w req).2.1.2 = None) l ->
  (pre_hooks (map traced l) n w req).2.1.2 = None.
Proof.
  intros Hl. revert n w req. induction Hl as [|q l Hq _ IH]; intros n [w tr] req; [done|]. cbn.
  specialize (Hq w req). destruct (PreHook q w req) as [w1 [[req1 sc1] e1]]. cbn in Hq. subst sc1. apply IH.
Qed.

(** A registration in the middle of a request breaks the pairs.  The second
    hooks are chosen by the number of first hooks that ran: when a plug-in with a
    lower priority number is registered in between, its second hook runs though
    its first did not, and the last plug-in whose first hook ran is left out. *)
Theorem late_registration_unpairs l x cfg cl w w2 req resp err :
  Forall (fun q => forall w req, (q.(PreHook) w req).2.1.2 = None) l -> l <> [] ->
  let p := {| plugins := map traced l; config := cfg; closed := cl |} in
  let p' := {| plugins := traced x :: map traced l; config := cfg; closed := cl |} in
  let '((_, tr), (_, _, n)) := RunPreHooks p (w, []) req in
  (RunPostHooks p' (w2, tr) resp err (Z.of_nat n)).1.2
    = map (fun q => EvPre q.(Name)) l ++ map (fun q => EvPost q.(Name)) (reverse (x :: take (pred (length l)) l)).
Proof.
  intros Hsc Hne. cbv zeta. unfold RunPreHooks. cbn [plugins]. pose proof (pre_hooks_trace l 0 w [] req) as T.
  pose proof (pre_hooks_complete l 0 (w, []) req Hsc) as N.
  destruct (pre_hooks (map traced l) 0 (w, []) req) as [[w1 tr1] [[req1 sc1] n1]]. cbn in N. subst sc1.
  destruct T as (k & -> & Hk & -> & Hk'). specialize (Hk' eq_refl). subst k. cbn [Nat.add app] in *.
  unfold RunPostHooks, reversed_prefix. cbn [plugins length]. rewrite length_map, firstn_all.
  replace (Z.of_nat (length l) <? 0) with false by lia.
  destruct (Z.ltb_spec (Z.of_nat (S (length l))) (Z.of_nat (length l))); [lia|].
  rewrite Nat2Z.id. destruct l as [|y l]; [done|]. cbn [length pred].
  change (traced x :: map traced (y :: l)) with (map traced (x :: y :: l)).
  rewrite firstn_map. cbn [take].
  change (map traced (x :: take (length l) (y :: l))) with (traced <$> (x :: take (length l) (y :: l))).
  rewrite <- fmap_reverse. apply post_hooks_trace.
Qed.

(** An error of a first hook does not stop what the hook returned from being used:
    the request goes on with what came back beside the error, nil included. *)
Theorem failing_hook_replaces_request q cfg cl w w' req req' e :
  q.(PreHook) w req = (w', (req', None, Some e)) ->
  RunPreHooks {| plugins := [q]; config := cfg; closed := cl |} w req = (w', (req', None, 1%nat)).
Proof. unfold RunPreHooks. cbn. by intros ->. Qed.

(** A chunk that one hook drops reports no error, whatever earlier hooks said. *)
Theorem dropped_chunk_hides_errors q1 q2 h1 h2 cfg cl w w1 w2 c c1 e1 e2 :
  q1.(stream) = Some h1 -> q2.(stream) = Some h2 ->
  h1.(OnStreamChunk) w c = (w1, (Some c1, Some e1)) -> h2.(OnStreamChunk) w1 c1 = (w2, (None, e2)) ->
  RunOnStreamChunk {| plugins := [q1; q2]; config := cfg; closed := cl |} w (Some c) = (w2, (None, None)).
Proof. unfold RunOnStreamChunk. cbn. by intros -> -> -> ->. Qed.
End Pairing.

(** ** The pooled context *)

(** A context from the pool is as good as a new one: nothing of the request that
    used it before can be seen. *)
Theorem pooled_context_fresh c now ctx requestID :
  c.(x_values) <> None -> GetContext now (Some (PutContext c)) ctx requestID = NewContext now ctx requestID.
Proof. destruct c as [? ? ? ? ? ? ? ? [m|]]; done. Qed.

Lemma pooled_context_fresh_witness :
  let ctx tenant := {| c_scope := [tenant]; c_auth := None; c_rateKey := "" |} in
  let c := Context_Set "secret" (AString "s") (NewContext 5 (Some (ctx "a")) "r1") in
  GetContext 9 (Some (PutContext c)) (Some (ctx "b")) "r2" = NewContext 9 (Some (ctx "b")) "r2".
Proof. intros ctx c. apply pooled_context_fresh. done. Defined.

(** ** Witnesses *)

Definition quiet (name : string) (priority : Z) : Plugin unit nat nat nat :=
  {| Name := name; Priority := priority; PreHook w req := (w, (req, None, None)); PostHook w resp err := (w, (resp, err, None));
     Cleanup w := (w, None); stream := None |}.

Lemma registry_invariant_witness :
  let p0 : Pipeline unit nat nat nat := NewPipeline {| PreHookTimeout := 0; PostHookTimeout := 0; PropagateErrors := false; MaxPlugins := 2 |} in
  let p := (Register (Some (quiet "c" 2)) (Register (Some (quiet "a" 7)) (Register (Some (quiet "b" 2)) p0).1).1).1 in
  Name <$> p.(plugins) = ["b"; "a"] /\ registry_ok p.
Proof.
  intros p0 p. split; [reflexivity|]. eapply registry_invariant.
  do 3 (eapply rtc_r; [|apply step_register]). apply rtc_refl.
Defined.

Lemma late_registration_unpairs_witness :
  let l := [quiet "a" 1; quiet "b" 2] in
  (RunPostHooks {| plugins := traced (quiet "x" 0) :: map traced l; config := DefaultPipelineConfig; closed := false |}
     (RunPreHooks {| plugins := map traced l; config := DefaultPipelineConfig; closed := false |} (tt, []) (Some 1%nat)).1
     None None 2).1.2 = [EvPre "a"; EvPre "b"; EvPost "a"; EvPost "x"].
Proof.
  refine (late_registration_unpairs [quiet "a" 1; quiet "b" 2] (quiet "x" 0) DefaultPipelineConfig false tt tt (Some 1%nat) None None _ _).
  - repeat constructor.
  - done.
Defined.
