(* ===== verification/Utf8.v ===== *)
(** * UTF-8 as the Go library reads it ([unicode/utf8])

    A string is its bytes.  Reading a rune takes the bytes of a valid encoding, or
    one byte when the bytes are not valid. *)
From Stdlib Require Import Ascii.
From S2P Require Import Prelude ModelName.

Definition code (c : ascii) : N := N_of_ascii c.
Definition between (lo hi : N) (c : ascii) : bool := (lo <=? code c)%N && (code c <=? hi)%N.
Definition cont (c : ascii) : bool := between 0x80 0xBF c.

(** The length of the valid encoding at the head of the bytes. *)
Definition encoding (l : list ascii) : option nat :=
  match l with
  | [] => None
  | b0 :: l =>
      if between 0 0x7F b0 then Some 1%nat
      else match l with
      | b1 :: l1 =>
          if between 0xC2 0xDF b0 && cont b1 then Some 2%nat
          else match l1 with
          | b2 :: l2 =>
              let second := if (code b0 =? 0xE0)%N then between 0xA0 0xBF b1
                            else if (code b0 =? 0xED)%N then between 0x80 0x9F b1 else cont b1 in
              if between 0xE0 0xEF b0 && second && cont b2 then Some 3%nat
              else match l2 with
              | b3 :: _ =>
                  let second := if (code b0 =? 0xF0)%N then between 0x90 0xBF b1
                                else if (code b0 =? 0xF4)%N then between 0x80 0x8F b1 else cont b1 in
                  if between 0xF0 0xF4 b0 && second && cont b2 && cont b3 then Some 4%nat else None
              | [] => None
              end
          | [] => None
          end
      | [] => None
      end
  end.

Definition rune_width (l : list ascii) : nat := default 1%nat (encoding l).

(** The runes of a string, each as its bytes; every one has a byte at least, so
    the length is enough fuel. *)
Fixpoint runes_from (fuel : nat) (l : list ascii) : list (list ascii) :=
  match fuel, l with
  | S fuel', _ :: _ => take (rune_width l) l :: runes_from fuel' (drop (rune_width l) l)
  | _, _ => []
  end.

Definition runes (l : list ascii) : list (list ascii) := runes_from (length l) l.

Definition RuneCount (l : list ascii) : Z := Z.of_nat (length (runes l)).

(** [utf8.ValidString]: a rune of one byte is a byte below 0x80. *)
Fixpoint valid_from (fuel : nat) (l : list ascii) : bool :=
  match fuel, l with
  | S fuel', _ :: _ => match encoding l with Some n => valid_from fuel' (drop n l) | None => false end
  | _, _ => true
  end.

Definition ValidString (l : list ascii) : bool := valid_from (length l) l.

(** ** Properties *)

Lemma encoding_bound l n : encoding l = Some n -> (1 <= n <= length l)%nat.
Proof.
  unfold encoding. intros H.
  destruct l as [|b0 [|b1 [|b2 [|b3 l]]]]; cbn [length]; cbv zeta in H;
    repeat match type of H with (if ?b then _ else _) = _ => destruct b end; simplify_eq; lia.
Qed.

Lemma rune_width_bound l : l <> [] -> (1 <= rune_width l <= length l)%nat.
Proof.
  intros Hl. unfold rune_width. destruct (encoding l) as [n|] eqn:H; cbn; [by apply encoding_bound|].
  destruct l; [done|]. cbn. lia.
Qed.

(** The valid encoding at the head does not depend on what follows it. *)
Lemma encoding_app l k n : encoding l = Some n -> encoding (l ++ k) = Some n.
Proof.
  intros H. destruct l as [|b0 l]; [done|]. cbn in *. destruct (between 0 127 b0); [done|].
  destruct l as [|b1 l]; [done|]. cbn in *. destruct (between 194 223 b0 && cont b1); [done|].
  destruct l as [|b2 l]; [done|]. cbn in *.
  match goal with |- (if ?b then _ else _) = _ => destruct b end; [done|].
  destruct l as [|b3 l]; [done|]. cbn in *. done.
Qed.

Lemma runes_from_fuel n m l : (length l <= n)%nat -> (length l <= m)%nat -> runes_from n l = runes_from m l.
Proof.
  revert m l. induction n as [|n IH]; intros m l Hn Hm.
  - destruct l; [by destruct m|cbn in Hn; lia].
  - destruct l as [|c l]; [by destruct m|]. destruct m as [|m]; [cbn in Hm; lia|]. cbn [runes_from]. f_equal.
    pose proof (rune_width_bound (c :: l) ltac:(done)). apply IH; rewrite length_drop; lia.
Qed.

Lemma runes_cons l : l <> [] -> runes l = take (rune_width l) l :: runes (drop (rune_width l) l).
Proof.
  intros Hl. pose proof (rune_width_bound l Hl). unfold runes at 1. destruct l as [|c l]; [done|]. cbn [length runes_from].
  f_equal. apply runes_from_fuel; [rewrite length_drop; cbn in *; lia|done].
Qed.

Lemma runes_nil : runes [] = [].
Proof. done. Qed.

Lemma valid_from_fuel n m l : (length l <= n)%nat -> (length l <= m)%nat -> valid_from n l = valid_from m l.
Proof.
  revert m l. induction n as [|n IH]; intros m l Hn Hm.
  - destruct l; [by destruct m|cbn in Hn; lia].
  - destruct l as [|c l]; [by destruct m|]. destruct m as [|m]; [cbn in Hm; lia|]. cbn [valid_from].
    destruct (encoding (c :: l)) as [k|] eqn:E; [|done]. apply encoding_bound in E. apply IH; rewrite length_drop; lia.
Qed.

Lemma ValidString_cons l : l <> [] -> ValidString l = true ->
  exists n, encoding l = Some n /\ rune_width l = n /\ ValidString (drop n l) = true.
Proof.
  intros Hl H. unfold ValidString in H. destruct l as [|c l]; [done|]. cbn [length valid_from] in H.
  destruct (encoding (c :: l)) as [n|] eqn:E; [|done]. exists n. unfold rune_width. rewrite E. split; [done|]. split; [done|].
  apply encoding_bound in E. unfold ValidString. rewrite <- H. apply valid_from_fuel; rewrite length_drop; cbn in *; lia.
Qed.

Lemma concat_runes l : concat (runes l) = l.
Proof.
  remember (length l) as n eqn:Hn. revert l Hn. induction n as [n IH] using lt_wf_ind. intros l ->.
  destruct l as [|c l]; [done|]. pose proof (rune_width_bound (c :: l) ltac:(done)).
  rewrite runes_cons by done. cbn [concat]. rewrite (IH (length (drop (rune_width (c :: l)) (c :: l)))); [apply take_drop| |done].
  rewrite length_drop. lia.
Qed.

(** Strings that are valid meet at a boundary of runes. *)
Lemma runes_app l k : ValidString l = true -> runes (l ++ k) = runes l ++ runes k.
Proof.
  remember (length l) as n eqn:Hn. revert l Hn. induction n as [n IH] using lt_wf_ind. intros l -> Hv.
  destruct l as [|c l]; [done|]. destruct (ValidString_cons (c :: l)) as (m & Em & Wm & Hv'); [done|done|].
  pose proof (encoding_bound _ _ Em). rewrite runes_cons by done. rewrite (runes_cons (c :: l)) by done.
  assert (W : rune_width ((c :: l) ++ k) = m) by (unfold rune_width; by rewrite (encoding_app _ k _ Em)).
  rewrite W, Wm, take_app_le by lia. rewrite drop_app_le by lia. cbn [app]. f_equal.
  apply (IH (length (drop m (c :: l)))); [rewrite length_drop; lia|done|done].
Qed.

Lemma ValidString_drop_runes n l : ValidString l = true -> ValidString (concat (drop n (runes l))) = true.
Proof.
  revert l. induction n as [|n IH]; intros l Hv; [by rewrite drop_0, concat_runes|].
  destruct l as [|c l]; [done|]. destruct (ValidString_cons (c :: l)) as (m & Em & Wm & Hv'); [done|done|].
  rewrite runes_cons by done. cbn [drop]. rewrite Wm. by apply IH.
Qed.

(** * Quoted strings as the Go library writes them ([strconv.Quote], the verb %q)

    Which runes beyond ASCII are printable is a table of the library: [IsPrint] is a
    parameter for those. *)

#[local] Abbreviation explode := String.list_ascii_of_string.
#[local] Abbreviation implode := String.string_of_list_ascii.

(** The number of a rune from the bytes of its encoding. *)
Definition low_bits (mask : N) (c : ascii) : N := N.land (code c) mask.

Definition rune_code (l : list ascii) : N :=
  match l with
  | [b0] => code b0
  | [b0; b1] => low_bits 0x1F b0 * 64 + low_bits 0x3F b1
  | [b0; b1; b2] => (low_bits 0x0F b0 * 64 + low_bits 0x3F b1) * 64 + low_bits 0x3F b2
  | [b0; b1; b2; b3] => ((low_bits 0x07 b0 * 64 + low_bits 0x3F b1) * 64 + low_bits 0x3F b2) * 64 + low_bits 0x3F b3
  | _ => 0xFFFD
  end%N.

Definition hex_digit (n : N) : ascii := ascii_of_N (if n <? 10 then 48 + n else 87 + n)%N.

(** The last [digits] hexadecimal digits of a number. *)
Fixpoint hex (digits : nat) (n : N) : list ascii :=
  match digits with
  | O => []
  | S k => hex k (n / 16)%N ++ [hex_digit (n mod 16)%N]
  end.

Definition backslash : ascii := "\"%char.
Definition quote_mark : ascii := ascii_of_N 34.

(** The short escapes: the letter after the backslash. *)
Definition letter_escape (n : N) : option ascii :=
  match n with
  | 7 => Some "a"%char | 8 => Some "b"%char | 12 => Some "f"%char | 10 => Some "n"%char
  | 13 => Some "r"%char | 9 => Some "t"%char | 11 => Some "v"%char
  | _ => None
  end%N.

Section Quote.
Context (IsPrint : N -> bool).

Definition printable (n : N) : bool := if (n <? 0x80)%N then ((0x20 <=? n) && (n <=? 0x7E))%N else IsPrint n.

(** What is written for a rune of a string, given by its bytes. *)
Definition quote_rune (r : list ascii) : list ascii :=
  let n := rune_code r in
  if (0x80 <=? n)%N && Nat.eqb (length r) 1 then backslash :: "x"%char :: hex 2 n
  else if (n =? 34)%N || (n =? 92)%N then backslash :: r
  else if printable n then r
  else match letter_escape n with
       | Some c => [backslash; c]
       | None =>
           if (n <? 0x20)%N || (n =? 0x7F)%N then backslash :: "x"%char :: hex 2 n
           else if (n <? 0x10000)%N then backslash :: "u"%char :: hex 4 n
           else backslash :: "U"%char :: hex 8 n
       end.

Definition Quote (s : string) : string :=
  implode (quote_mark :: concat (map quote_rune (runes (explode s))) ++ [quote_mark]).

End Quote.

(** ** JSON string literals

    What the literal between the quotes stands for, for literals whose escapes are
    not of the form [\u]; [None] when it is no JSON. *)
Definition json_escape (c : ascii) : option ascii :=
  match N_of_ascii c with
  | 34 => Some c | 92 => Some c | 47 => Some c
  | 98 => Some (ascii_of_N 8) | 102 => Some (ascii_of_N 12) | 110 => Some (ascii_of_N 10)
  | 114 => Some (ascii_of_N 13) | 116 => Some (ascii_of_N 9)
  | _ => None
  end%N.

Fixpoint json_chars (l : list ascii) : option (list ascii) :=
  match l with
  | [] => None
  | c :: l' =>
      if (code c =? 34)%N then match l' with [] => Some [] | _ => None end
      else if (code c =? 92)%N then
        match l' with
        | e :: l'' => match json_escape e, json_chars l'' with Some c, Some t => Some (c :: t) | _, _ => None end
        | [] => None
        end
      else if (code c <? 0x20)%N then None
      else match json_chars l' with Some t => Some (c :: t) | None => None end
  end.

Definition json_literal (s : string) : option string :=
  match explode s with
  | c :: l => if (code c =? 34)%N then implode <$> json_chars l else None
  | [] => None
  end.

(** ASCII text with the controls that have a letter in both notations. *)
Definition plain_char (c : ascii) : bool :=
  let n := code c in ((0x20 <=? n) && (n <=? 0x7E))%N || existsb (N.eqb n) [8; 9; 10; 12; 13]%N.

Lemma all_ascii (P : ascii -> bool) : (forall n, (n < 256)%nat -> P (ascii_of_nat n) = true) -> forall c, P c = true.
Proof. intros H c. rewrite <- (ascii_nat_embedding c). apply H. apply nat_ascii_bounded. Qed.

(** A bounded check of every byte. *)
Lemma check_ascii (P : ascii -> bool) : forallb (fun n => P (ascii_of_nat n)) (seq 0 256) = true -> forall c, P c = true.
Proof. intros H. apply all_ascii. intros n Hn. apply (proj1 (forallb_forall _ _) H). apply in_seq. lia. Qed.

Section Literals.
Context (IsPrint : N -> bool).

Lemma plain_rune c l : plain_char c = true -> rune_width (c :: l) = 1%nat.
Proof.
  intros H. unfold rune_width. cbn [encoding].
  enough (E : (implb (plain_char c) (between 0 127 c)) = true) by (rewrite H in E; cbn in E; by rewrite E).
  revert c H. intros c _. revert c. apply check_ascii. reflexivity.
Qed.

Lemma plain_runes l : forallb plain_char l = true -> runes l = map (fun c => [c]) l.
Proof.
  induction l as [|c l IH]; intros H; [done|]. cbn in H. apply andb_true_iff in H as [Hc Hl].
  rewrite runes_cons by done. rewrite plain_rune by done. change (drop 1 (c :: l)) with l. rewrite IH by done. done.
Qed.

(** The two notations agree on a plain character: the reader takes from it what the
    writer put in. *)
Definition quoted_alike (c : ascii) : bool :=
  implb (plain_char c)
    (match quote_rune IsPrint [c] with
     | [x] => negb (code x =? 34)%N && negb (code x =? 92)%N && negb (code x <? 0x20)%N && Ascii.eqb x c
     | [b; e] => Ascii.eqb b backslash && match json_escape e with Some x => Ascii.eqb x c | None => false end
     | _ => false
     end).

Lemma plain_quoted_alike c : quoted_alike c = true.
Proof. revert c. apply check_ascii. vm_compute. reflexivity. Qed.

Lemma plain_json_chars l : forallb plain_char l = true ->
  json_chars (concat (map (quote_rune IsPrint) (runes l)) ++ [quote_mark]) = Some l.
Proof.
  intros H. rewrite plain_runes by done. revert H. induction l as [|c l IH]; intros H; [done|].
  cbn in H. apply andb_true_iff in H as [Hc Hl]. specialize (IH Hl). pose proof (plain_quoted_alike c) as Ha.
  unfold quoted_alike in Ha. rewrite Hc in Ha. cbn [implb] in Ha. cbn [map concat].
  destruct (quote_rune IsPrint [c]) as [|x [|y [|z r]]]; [done| | |done].
  - rewrite !andb_true_iff, !negb_true_iff, Ascii.eqb_eq in Ha. destruct Ha as [[[H1 H2] H3] ->].
    cbn [app json_chars]. by rewrite H1, H2, H3, IH.
  - rewrite andb_true_iff, Ascii.eqb_eq in Ha. destruct Ha as [-> He]. cbn [app json_chars].
    change (code backslash =? 34)%N with false. change (code backslash =? 92)%N with true. cbn iota.
    destruct (json_escape y) as [x|]; [|done]. apply Ascii.eqb_eq in He as ->. by rewrite IH.
Qed.

(** Plain text that is quoted is a JSON literal for the text. *)
Lemma plain_quote_json s : forallb plain_char (explode s) = true -> json_literal (Quote IsPrint s) = Some s.
Proof.
  intros H. unfold json_literal, Quote. rewrite explode_implode.
  change (code quote_mark =? 34)%N with true. cbn iota. rewrite plain_json_chars by done. cbn. by rewrite implode_explode.
Qed.

End Literals.
