(* ===== verification/Url.v ===== *)
(** * Addresses and URLs as the Go library reads them ([net/netip], [net], [net/url])

    What the validation of base URLs and the making of requests use: the parsing of
    IP addresses with the ranges they belong to, and the parsing and printing of a
    URL.  Which runes beyond ASCII are printable, and how they are lowered, are tables
    of the library and parameters. *)
From Stdlib Require Import Ascii.
From stdpp Require Import pretty.
From S2P Require Import Prelude Errors ModelName Utf8.

#[local] Abbreviation explode := String.list_ascii_of_string.
#[local] Abbreviation implode := String.string_of_list_ascii.

(** ** Searching in bytes *)

(** The bytes before and after the first [c]. *)
Fixpoint cut (c : ascii) (l : list ascii) : option (list ascii * list ascii) :=
  match l with
  | [] => None
  | a :: l' =>
      if Ascii.eqb a c then Some ([], l')
      else match cut c l' with Some (x, y) => Some (a :: x, y) | None => None end
  end.

(** The bytes before and after the last [c]. *)
Definition cut_last (c : ascii) (l : list ascii) : option (list ascii * list ascii) :=
  match cut c (reverse l) with Some (y, x) => Some (reverse x, reverse y) | None => None end.

(** [strings.Split] with a one byte separator; the length is enough fuel. *)
Fixpoint split_from (fuel : nat) (c : ascii) (l : list ascii) : list (list ascii) :=
  match fuel, cut c l with
  | S fuel', Some (x, y) => x :: split_from fuel' c y
  | _, _ => [l]
  end.
Definition split_on (c : ascii) (l : list ascii) : list (list ascii) := split_from (length l) c l.

Definition contains (c : ascii) (l : list ascii) : bool := existsb (Ascii.eqb c) l.

Definition HasPrefix (p s : string) : bool := match strip_prefix (explode p) (explode s) with Some _ => true | None => false end.
Definition HasSuffix (p s : string) : bool :=
  match strip_prefix (reverse (explode p)) (reverse (explode s)) with Some _ => true | None => false end.
Definition TrimPrefix (p s : string) : string := match strip_prefix (explode p) (explode s) with Some l => implode l | None => s end.
Definition TrimSuffix (p s : string) : string :=
  match strip_prefix (reverse (explode p)) (reverse (explode s)) with Some l => implode (reverse l) | None => s end.

Definition digit (c : ascii) : bool := between 48 57 c.
Definition letter (c : ascii) : bool := between 65 90 c || between 97 122 c.

Definition hex_value (c : ascii) : option N :=
  if digit c then Some (code c - 48)%N
  else if between 97 102 c then Some (code c - 87)%N
  else if between 65 70 c then Some (code c - 55)%N
  else None.

Definition lower_ascii (c : ascii) : ascii := if between 65 90 c then ascii_of_N (code c + 32) else c.
Definition is_ascii (l : list ascii) : bool := forallb (between 0 127) l.

(** [strings.ToLower], which has its own way for ASCII. *)
Definition ToLower (unicode : string -> string) (s : string) : string :=
  if is_ascii (explode s) then implode (map lower_ascii (explode s)) else unicode s.

(** ** IP addresses *)

(** A field of a dotted address: up to three digits, none of them a leading zero. *)
Definition decimal (l : list ascii) : N := fold_left (fun n c => n * 10 + (code c - 48))%N l 0%N.

Definition octet (l : list ascii) : option N :=
  match l with
  | [] => None
  | c :: l' =>
      if negb (forallb digit l) then None
      else if Ascii.eqb c "0" && negb (bool_decide (l' = [])) then None
      else if (3 <? length l)%nat || (255 <? decimal l)%N then None
      else Some (decimal l)
  end.

Definition parseIPv4 (l : list ascii) : option (list N) :=
  match split_on "." l with
  | [a; b; c; d] =>
      match octet a, octet b, octet c, octet d with
      | Some a, Some b, Some c, Some d => Some [a; b; c; d]
      | _, _, _, _ => None
      end
  | _ => None
  end.

(** The hexadecimal digits at the start. *)
Fixpoint hex_run (l : list ascii) : list N * list ascii :=
  match l with
  | c :: l' => match hex_value c with Some v => let (x, y) := hex_run l' in (v :: x, y) | None => ([], l) end
  | [] => ([], [])
  end.

(** The groups of an IPv6 address: the bytes read so far, and how many of them came
    before a double colon. *)
Fixpoint groups (fuel : nat) (ip : list N) (ellipsis : option nat) (l : list ascii) : option (list N * option nat) :=
  match fuel with
  | O => match l with [] => Some (ip, ellipsis) | _ => None end
  | S fuel' =>
      let (ds, rest) := hex_run l in
      match ds with
      | [] => None
      | _ =>
          if (4 <? length ds)%nat then None
          else match rest with
          | "."%char :: _ =>
              if (bool_decide (ellipsis = None) && negb (length ip =? 12)%nat) || (12 <? length ip)%nat then None
              else match parseIPv4 l with Some q => Some (ip ++ q, ellipsis) | None => None end
          | _ =>
              let v := fold_left (fun n d => n * 16 + d)%N ds 0%N in
              let ip := ip ++ [N.div v 256; N.modulo v 256] in
              match rest with
              | [] => Some (ip, ellipsis)
              | ":"%char :: ":"%char :: rest' =>
                  match ellipsis, rest' with
                  | Some _, _ => None
                  | None, [] => Some (ip, Some (length ip))
                  | None, _ => groups fuel' ip (Some (length ip)) rest'
                  end
              | ":"%char :: (_ :: _) as rest' => groups fuel' ip ellipsis rest'
              | _ => None
              end
          end
      end
  end.

(** An address has at most eight groups; missing bytes are zero at the double colon. *)
Definition parseIPv6 (l : list ascii) : option (list N) :=
  let parsed :=
    match l with
    | ":"%char :: ":"%char :: [] => Some ([], Some 0%nat)
    | ":"%char :: ":"%char :: l' => groups 8 [] (Some 0%nat) l'
    | _ => groups 8 [] None l
    end in
  match parsed with
  | None => None
  | Some (ip, ellipsis) =>
      if (length ip <? 16)%nat then
        match ellipsis with
        | None => None
        | Some k => Some (take k ip ++ repeat 0%N (16 - length ip) ++ drop k ip)
        end
      else match ellipsis with None => Some ip | Some _ => None end
  end.

(** [netip.ParseAddr]: the bytes, four or sixteen, and the zone. *)
Definition ParseAddr (s : string) : option (list N * string) :=
  let l := explode s in
  match List.find (fun c => Ascii.eqb c "." || Ascii.eqb c ":" || Ascii.eqb c "%") l with
  | Some "."%char => (fun ip => (ip, "")) <$> parseIPv4 l
  | Some ":"%char =>
      match cut "%" l with
      | Some (_, []) => None
      | Some (a, zone) => (fun ip => (ip, implode zone)) <$> parseIPv6 a
      | None => (fun ip => (ip, "")) <$> parseIPv6 l
      end
  | _ => None
  end.

(** [net.ParseIP]: sixteen bytes; an address with a zone is none. *)
Definition v4_prefix : list N := repeat 0%N 10 ++ [255; 255]%N.

Definition ParseIP (s : string) : option (list N) :=
  match ParseAddr s with
  | Some (ip, "") => Some (if (length ip =? 4)%nat then v4_prefix ++ ip else ip)
  | _ => None
  end.

Definition To4 (ip : list N) : option (list N) := if bool_decide (take 12 ip = v4_prefix) then Some (drop 12 ip) else None.

Definition byte (n : nat) (ip : list N) : N := nth n ip 0%N.

Definition IPv6loopback : list N := repeat 0%N 15 ++ [1%N].

Definition IsUnspecified (ip : list N) : bool := bool_decide (ip = v4_prefix ++ repeat 0%N 4) || bool_decide (ip = repeat 0%N 16).

Definition IsLoopback (ip : list N) : bool :=
  match To4 ip with Some ip4 => (byte 0 ip4 =? 127)%N | None => bool_decide (ip = IPv6loopback) end.

Definition IsPrivate (ip : list N) : bool :=
  match To4 ip with
  | Some ip4 =>
      (byte 0 ip4 =? 10)%N || ((byte 0 ip4 =? 172)%N && (N.land (byte 1 ip4) 0xf0 =? 16)%N)
      || ((byte 0 ip4 =? 192)%N && (byte 1 ip4 =? 168)%N)
  | None => (N.land (byte 0 ip) 0xfe =? 0xfc)%N
  end.

Definition IsMulticast (ip : list N) : bool :=
  match To4 ip with Some ip4 => (N.land (byte 0 ip4) 0xf0 =? 0xe0)%N | None => (byte 0 ip =? 0xff)%N end.

Definition IsLinkLocalMulticast (ip : list N) : bool :=
  match To4 ip with
  | Some ip4 => (byte 0 ip4 =? 224)%N && (byte 1 ip4 =? 0)%N && (byte 2 ip4 =? 0)%N
  | None => (byte 0 ip =? 0xff)%N && (N.land (byte 1 ip) 0x0f =? 2)%N
  end.

Definition IsLinkLocalUnicast (ip : list N) : bool :=
  match To4 ip with
  | Some ip4 => (byte 0 ip4 =? 169)%N && (byte 1 ip4 =? 254)%N
  | None => (byte 0 ip =? 0xfe)%N && (N.land (byte 1 ip) 0xc0 =? 0x80)%N
  end.

Definition IsGlobalUnicast (ip : list N) : bool :=
  negb (bool_decide (ip = v4_prefix ++ repeat 255%N 4)) && negb (IsUnspecified ip) && negb (IsLoopback ip)
  && negb (IsMulticast ip) && negb (IsLinkLocalUnicast ip).

(** ** URLs *)

(** The userinfo is a name and perhaps a password. *)
Record URL := {
  u_Scheme : string;
  u_Opaque : string;
  u_User : option (string * option string);
  u_Host : string;
  u_Path : string;
  u_RawPath : string;
  u_OmitHost : bool;
  u_ForceQuery : bool;
  u_RawQuery : string;
  u_Fragment : string;
  u_RawFragment : string;
}.

Definition no_url : URL :=
  {| u_Scheme := ""; u_Opaque := ""; u_User := None; u_Host := ""; u_Path := ""; u_RawPath := ""; u_OmitHost := false;
     u_ForceQuery := false; u_RawQuery := ""; u_Fragment := ""; u_RawFragment := "" |}.

(** The parts of a URL that are escaped in their own way. *)
Inductive encoding_mode := EncodePath | EncodePathSegment | EncodeHost | EncodeZone | EncodeUserPassword | EncodeFragment.

Definition is_host (m : encoding_mode) : bool := match m with EncodeHost | EncodeZone => true | _ => false end.

Definition is_among (s : string) (c : ascii) : bool := contains c (explode s).

(** The characters that are written with a percent. *)
Definition shouldEscape (c : ascii) (m : encoding_mode) : bool :=
  if letter c || digit c then false
  else if is_host m && (is_among "!$&'()*+,;=:[]<>" c || Ascii.eqb c quote_mark) then false
  else if is_among "-_.~" c then false
  else if is_among "$&+,/:;=?@" c then
    match m with
    | EncodePath => Ascii.eqb c "?"
    | EncodePathSegment => is_among "/;,?" c
    | EncodeUserPassword => is_among "@/?:" c
    | EncodeFragment => false
    | _ => true
    end
  else match m with EncodeFragment => negb (is_among "!()*" c) | _ => true end.

Definition upper_hex (n : N) : ascii := ascii_of_N (if n <? 10 then 48 + n else 55 + n)%N.

Definition escape (m : encoding_mode) (l : list ascii) : list ascii :=
  concat (map (fun c => if shouldEscape c m then ["%"%char; upper_hex (N.div (code c) 16); upper_hex (N.modulo (code c) 16)] else [c]) l).

Section Parsing.
Context (IsPrint : N -> bool).

Definition escape_error (l : list ascii) : go_error := EText ("invalid URL escape " +:+ Quote IsPrint (implode l)).
Definition host_error (l : list ascii) : go_error := EText ("invalid character " +:+ Quote IsPrint (implode l) +:+ " in host name").

Fixpoint unescape (m : encoding_mode) (l : list ascii) : go_error + list ascii :=
  let more c l' := match unescape m l' with inr x => inr (c :: x) | inl err => inl err end in
  match l with
  | [] => inr []
  | "%"%char :: l' =>
      match l' with
      | a :: b :: l'' =>
          match hex_value a, hex_value b with
          | Some x, Some y =>
              let v := ascii_of_N (x * 16 + y) in
              let percent := (x =? 2)%N && (y =? 5)%N in
              if match m with
                 | EncodeHost => (x <? 8)%N && negb percent
                 | EncodeZone => negb percent && negb (Ascii.eqb v " ") && shouldEscape v EncodeHost
                 | _ => false
                 end
              then inl (escape_error ["%"%char; a; b]) else more v l''
          | _, _ => inl (escape_error ["%"%char; a; b])
          end
      | _ => inl (escape_error l)
      end
  | c :: l' =>
      if is_host m && (code c <? 0x80)%N && shouldEscape c m then inl (host_error [c]) else more c l'
  end.

Definition validOptionalPort (l : list ascii) : bool :=
  match l with
  | [] => true
  | c :: l' => Ascii.eqb c ":" && forallb digit l'
  end.

(** The part before the first escaped percent, and the part from there. *)
Fixpoint cut_zone (l : list ascii) : option (list ascii * list ascii) :=
  match l with
  | [] => None
  | c :: l' =>
      match l with
      | "%"%char :: "2"%char :: "5"%char :: _ => Some ([], l)
      | _ => match cut_zone l' with Some (x, y) => Some (c :: x, y) | None => None end
      end
  end.

Definition bad_port (l : list ascii) : go_error := EText ("invalid port " +:+ Quote IsPrint (implode l) +:+ " after host").

#[local] Notation "'try' x := m 'in' k" := (match m with inl err => inl err | inr x => k end)
  (at level 10, x name, m at level 100, k at level 200).

(** An address in brackets, or a name with an optional port. *)
Definition parseHost (l : list ascii) : go_error + list ascii :=
  match cut_last "[" l with
  | Some (before, after) =>
      match cut_last "]" l with
      | None => inl (EText "missing ']' in host")
      | Some (inside, colonPort) =>
          if negb (validOptionalPort colonPort) then inl (bad_port colonPort)
          else
            try port := unescape EncodeHost colonPort in
            let hostname := drop (S (length before)) inside in
            try name := (match cut_zone hostname with
                         | Some (hostPart, zonePart) =>
                             try h := unescape EncodeHost hostPart in
                             try z := unescape EncodeZone zonePart in inr (h ++ z)
                         | None => unescape EncodeHost hostname
                         end) in
            match ParseAddr (implode name) with
            | None => inl (EText "invalid host")
            | Some (ip, _) =>
                if (length ip =? 4)%nat then inl (EText "invalid IP-literal")
                else inr ("["%char :: name ++ "]"%char :: port)
            end
      end
  | None =>
      match cut_last ":" l with
      | Some (_, port) =>
          if validOptionalPort (":"%char :: port) then unescape EncodeHost l else inl (bad_port (":"%char :: port))
      | None => unescape EncodeHost l
      end
  end.

Definition validUserinfo (l : list ascii) : bool :=
  forallb (fun c => letter c || digit c || is_among "-._:~!$&'()*+,;=%@" c) l.

(** [parseAuthority]: the userinfo and the host. *)
Definition parseAuthority (l : list ascii) : go_error + option (string * option string) * list ascii :=
  match cut_last "@" l with
  | None => try host := parseHost l in inr (None, host)
  | Some (userinfo, h) =>
      try host := parseHost h in
      if negb (validUserinfo userinfo) then inl (EText "net/url: invalid userinfo")
      else match cut ":" userinfo with
           | None => try u := unescape EncodeUserPassword userinfo in inr (Some (implode u, None), host)
           | Some (name, password) =>
               try u := unescape EncodeUserPassword name in
               try p := unescape EncodeUserPassword password in inr (Some (implode u, Some (implode p)), host)
           end
  end.

(** [getScheme]: the characters before the first colon, when they can be a scheme. *)
Fixpoint scheme_from (first : bool) (l : list ascii) : option (list ascii * list ascii) :=
  match l with
  | [] => None
  | c :: l' =>
      if Ascii.eqb c ":" then Some ([], l')
      else if letter c || (negb first && (digit c || is_among "+-." c)) then
        match scheme_from false l' with Some (s, rest) => Some (c :: s, rest) | None => None end
      else None
  end.

Definition getScheme (l : list ascii) : go_error + list ascii * list ascii :=
  match scheme_from true l with
  | Some ([], _) => inl (EText "missing protocol scheme")
  | Some r => inr r
  | None => inr ([], l)
  end.

(** [RawPath] is kept when the path is not in its usual encoding. *)
Definition setPath (p : list ascii) (u : URL) : go_error + URL :=
  try path := unescape EncodePath p in
  inr (u<|u_Path := implode path|><|u_RawPath := if bool_decide (p = escape EncodePath path) then "" else implode p|>).

Definition control (c : ascii) : bool := (code c <? 0x20)%N || (code c =? 0x7f)%N.

Definition parse (l : list ascii) : go_error + URL :=
  if existsb control l then inl (EText "net/url: invalid control character in URL")
  else if bool_decide (l = ["*"%char]) then inr (no_url<|u_Path := "*"|>)
  else
    try r := getScheme l in
    let (scheme, rest) := (r : list ascii * list ascii) in
    let u := no_url<|u_Scheme := implode (map lower_ascii scheme)|> in
    let forced := match cut "?" rest with Some (_, []) => true | _ => false end in
    let (rest, query) := match cut "?" rest with Some (x, y) => (x, y) | None => (rest, []) end in
    let u := u<|u_ForceQuery := forced|><|u_RawQuery := implode query|> in
    let rooted := match rest with "/"%char :: _ => true | _ => false end in
    if negb rooted && negb (bool_decide (scheme = [])) then inr (u<|u_Opaque := implode rest|>)
    else if negb rooted && contains ":" (match cut "/" rest with Some (x, _) => x | None => rest end)
    then inl (EText "first path segment in URL cannot contain colon")
    else
      match rest with
      | "/"%char :: "/"%char :: after =>
          if bool_decide (scheme = []) && match after with "/"%char :: _ => true | _ => false end then setPath rest u
          else
            let (authority, path) := match cut "/" after with Some (a, p) => (a, "/"%char :: p) | None => (after, []) end in
            try h := parseAuthority authority in
            setPath path (u<|u_User := (h : option (string * option string) * list ascii).1|><|u_Host := implode h.2|>)
      | _ => setPath rest (if rooted && negb (bool_decide (scheme = [])) then u<|u_OmitHost := true|> else u)
      end.

Definition Parse (raw : string) : go_error + URL :=
  let (l, frag) := match cut "#" (explode raw) with Some (x, y) => (x, y) | None => (explode raw, []) end in
  let failed s err := EWrap ("parse " +:+ Quote IsPrint (implode s)) err in
  match parse l with
  | inl err => inl (failed l err)
  | inr u =>
      match unescape EncodeFragment frag with
      | inl err => inl (failed (explode raw) err)
      | inr f => inr (u<|u_Fragment := implode f|><|u_RawFragment := if bool_decide (frag = escape EncodeFragment f) then "" else implode frag|>)
      end
  end.

(** [Hostname]: the host without its port and brackets. *)
Definition Hostname (u : URL) : string :=
  let host := explode u.(u_Host) in
  let stripped := match cut_last ":" host with
                  | Some (h, port) => if validOptionalPort (":"%char :: port) then h else host
                  | None => host
                  end in
  match stripped with
  | "["%char :: l => match reverse l with "]"%char :: r => implode (reverse r) | _ => implode stripped end
  | _ => implode stripped
  end.

(** A part in the encoding it came with, when that is one for the same text. *)
Definition validEncoded (m : encoding_mode) (l : list ascii) : bool :=
  forallb (fun c => is_among "!$&'()*+,;=:@[]%" c || negb (shouldEscape c m)) l.

Definition escaped (m : encoding_mode) (raw plain : string) : string :=
  let usual := implode (escape m (explode plain)) in
  if negb (String.eqb raw "") && validEncoded m (explode raw) then
    match unescape m (explode raw) with
    | inr l => if bool_decide (l = explode plain) then raw else usual
    | inl _ => usual
    end
  else usual.

Definition EscapedPath (u : URL) : string :=
  if String.eqb u.(u_Path) "*" && String.eqb u.(u_RawPath) "" then "*" else escaped EncodePath u.(u_RawPath) u.(u_Path).

Definition user_String (user : string * option string) : string :=
  let esc s := implode (escape EncodeUserPassword (explode s)) in
  match user with (name, None) => esc name | (name, Some password) => esc name +:+ ":" +:+ esc password end.

Definition URL_String (u : URL) : string :=
  let blank s := String.eqb s "" in
  let named := match u.(u_User) with Some _ => true | None => false end in
  let scheme := if blank u.(u_Scheme) then "" else u.(u_Scheme) +:+ ":" in
  let body :=
    if negb (blank u.(u_Opaque)) then u.(u_Opaque)
    else
      let authority :=
        if blank u.(u_Scheme) && blank u.(u_Host) && negb named then ""
        else if u.(u_OmitHost) && blank u.(u_Host) && negb named then ""
        else (if blank u.(u_Host) && blank u.(u_Path) && negb named then "" else "//")
             +:+ match u.(u_User) with Some user => user_String user +:+ "@" | None => "" end
             +:+ implode (escape EncodeHost (explode u.(u_Host))) in
      let path := EscapedPath u in
      let slash := if negb (blank path) && negb (HasPrefix "/" path) && negb (blank u.(u_Host)) then "/" else "" in
      let dot := if blank scheme && blank authority && blank slash
                    && contains ":" (match cut "/" (explode path) with Some (x, _) => x | None => explode path end) then "./" else "" in
      authority +:+ slash +:+ dot +:+ path in
  scheme +:+ body
  +:+ (if u.(u_ForceQuery) || negb (blank u.(u_RawQuery)) then "?" +:+ u.(u_RawQuery) else "")
  +:+ (if blank u.(u_Fragment) then "" else "#" +:+ escaped EncodeFragment u.(u_RawFragment) u.(u_Fragment)).

End Parsing.

(** ** Paths ([path.Clean], [path.Join]) *)

Definition clean_step (rooted : bool) (stack : list (list ascii)) (e : list ascii) : list (list ascii) :=
  let up := [".";"."]%char in
  if bool_decide (e = []) || bool_decide (e = ["."%char]) then stack
  else if bool_decide (e = up) then
    match stack with
    | top :: rest => if bool_decide (top = up) then up :: stack else rest
    | [] => if rooted then [] else [up]
    end
  else e :: stack.

Fixpoint join (sep : list ascii) (ls : list (list ascii)) : list ascii :=
  match ls with
  | [] => []
  | [l] => l
  | l :: ls' => l ++ sep ++ join sep ls'
  end.

Definition Clean (l : list ascii) : list ascii :=
  let rooted := match l with "/"%char :: _ => true | _ => false end in
  let kept := join ["/"%char] (reverse (fold_left (clean_step rooted) (split_on "/" l) [])) in
  if rooted then "/"%char :: kept else match kept with [] => ["."%char] | _ => kept end.

Definition path_Join (elems : list string) : string :=
  match List.filter (fun e => negb (String.eqb e "")) elems with
  | [] => ""
  | es => implode (Clean (join ["/"%char] (map (fun e => explode e) es)))
  end.

(** ** Examples *)

Definition host_of (raw : string) : option string := match Parse (fun _ => false) raw with inr u => Some (Hostname u) | inl _ => None end.

Example parse_examples :
  map host_of ["https://api.openai.com/v1"; "http://127.0.0.1:8080"; "http://[::1%25lo]:80/v1"; "http://a b/"; "http://user:pw@h.x:1/"; "http://[1.2.3.4]/"]
  = [Some "api.openai.com"; Some "127.0.0.1"; Some "::1%lo"; None; Some "h.x"; None].
Proof. vm_compute. reflexivity. Qed.

Example ip_examples :
  map ParseIP ["1.2.3.4"; "01.2.3.4"; "::1"; "fe80::1%lo"; "1:2:3:4:5:6:7:8"; "::ffff:10.0.0.1"; "1:2:3:4:5:6:7::"; "1:2:3:4:5:6:7:8::"; "1.2.3"]
  = [Some (v4_prefix ++ [1; 2; 3; 4]%N); None; Some IPv6loopback; None;
     Some [0; 1; 0; 2; 0; 3; 0; 4; 0; 5; 0; 6; 0; 7; 0; 8]%N; Some (v4_prefix ++ [10; 0; 0; 1]%N);
     Some [0; 1; 0; 2; 0; 3; 0; 4; 0; 5; 0; 6; 0; 7; 0; 0]%N; None; None].
Proof. vm_compute. reflexivity. Qed.

Example join_examples :
  map path_Join [["/v1"; "chat"; "completions"]; [""; "chat"]; ["/a/../b/"; "./c//d"]; [""; ""]; ["/.."; "x"]] = ["/v1/chat/completions"; "chat"; "/b/c/d"; ""; "/x"].
Proof. vm_compute. reflexivity. Qed.

Example string_examples :
  map (fun raw => match Parse (fun _ => false) raw with inr u => URL_String (fun _ => false) u | inl _ => "" end)
    ["https://api.openai.com/v1"; "http://h/a%2Fb?x=1#f"; "http://[fe80::1%25lo]:80/v 1"; "mailto:me"; "/a/b"; "http://u:p@h"]
  = ["https://api.openai.com/v1"; "http://h/a%2Fb?x=1#f"; "http://[fe80::1%25lo]:80/v%201"; "mailto:me"; "/a/b"; "http://u:p@h"].
Proof. vm_compute. reflexivity. Qed.
