(* ===== verification/ClientTypes.v ===== *)
(** * The client's data and interfaces ([pkg/types], [pkg/provider/provider.go], [options.go])

    Requests, responses and stream chunks, the configuration of the client, and
    what the client asks of the parts around it: a provider, the router, the
    network with the clock, the cache, the token counter, the JSON encoding.
    A [json.RawMessage] is its bytes; a pointer is an option; a slice that is only
    read is a list. *)
From stdpp Require Import pretty.
From S2P Require Import Prelude Float64 Errors ModelName RouterTypes BaseRouter AuthTypes PluginPipeline.

(** ** Requests and responses *)

Record ToolCallFunction := { tcf_Name : string; tcf_Arguments : string }.
Record ToolCall := { tc_ID : string; tc_Type : string; tc_Function : ToolCallFunction }.

Record ChatMessage := {
  m_Role : string;
  m_Content : string;
  m_Name : string;
  m_ToolCalls : list ToolCall;
  m_ToolCallID : string;
}.

Record ToolFunction := { tf_Name : string; tf_Description : string; tf_Parameters : string }.
Record Tool := { tool_Type : string; tool_Function : ToolFunction }.

Record ChatRequest := {
  q_Model : string;
  q_Messages : list ChatMessage;
  q_Stream : bool;
  q_MaxTokens : Z;
  q_Temperature : option f64;
  q_TopP : option f64;
  q_N : Z;
  q_Stop : list string;
  q_PresencePenalty : option f64;
  q_FrequencyPenalty : option f64;
  q_User : string;
  q_Tools : list Tool;
  q_ToolChoice : string;
  q_ResponseFormat : option string;
  q_StreamOptions : option bool;
  q_Tags : list string;
  q_Extra : nmap string;
}.

(** [Provider] is not part of the JSON form. *)
Record Usage := {
  us_PromptTokens : Z;
  us_CompletionTokens : Z;
  us_TotalTokens : Z;
  us_Provider : string;
}.

Record LogprobContent := { lp_Token : string; lp_Logprob : f64; lp_Bytes : list Z }.

Record Choice := {
  ch_Index : Z;
  ch_Message : ChatMessage;
  ch_FinishReason : string;
  ch_Logprobs : option (list LogprobContent);
}.

Record ChatResponse := {
  p_ID : string;
  p_Object : string;
  p_Created : Z;
  p_Model : string;
  p_Choices : list Choice;
  p_Usage : option Usage;
  p_SystemFingerprint : string;
}.

Record StreamDelta := { dl_Role : string; dl_Content : string; dl_ToolCalls : list ToolCall }.
Record StreamChoice := { sc_Index : Z; sc_Delta : StreamDelta; sc_FinishReason : string }.

Record StreamChunk := {
  k_ChunkID : string;
  k_Object : string;
  k_Created : Z;
  k_Model : string;
  k_Choices : list StreamChoice;
  k_Usage : option Usage;
  k_SystemFingerprint : string;
}.

(** A nil slice is [None]. *)
Record EmbeddingInput := {
  ei_Text : option string;
  ei_Texts : option (list string);
  ei_Tokens : option (list Z);
  ei_TokensList : option (list (list Z));
}.

Record EmbeddingRequest := {
  er_Model : string;
  er_Input : option EmbeddingInput;
  er_EncodingFormat : string;
  er_User : string;
  er_Dimensions : Z;
}.

Record EmbeddingObject := { eo_Object : string; eo_Embedding : list f64; eo_Index : Z }.

Record EmbeddingResponse := {
  ep_Object : string;
  ep_Data : list EmbeddingObject;
  ep_Model : string;
  ep_Usage : Usage;
}.

(** The position of the first element that satisfies a test. *)
Fixpoint index_of {A : Type} (f : A -> bool) (l : list A) : option nat :=
  match l with
  | [] => None
  | x :: l' => if f x then Some O else S <$> index_of f l'
  end.

(** [fmt.Errorf("... at index %d", i)] for the first such element. *)
Definition reject_first {A : Type} (f : A -> bool) (msg : string) (l : list A) : option go_error :=
  (fun i => EText (msg +:+ " at index " +:+ pretty i)) <$> index_of f l.

(** What [ValidateModelName] returns. *)
Definition model_too_long : go_error := EText "model is too long (max 256 characters)".

(** [Validate] of an input: [None] when it is valid. *)
Definition EmbeddingInput_Validate (e : EmbeddingInput) : option go_error :=
  match e.(ei_Text), e.(ei_Texts), e.(ei_Tokens), e.(ei_TokensList) with
  | Some s, _, _, _ => if String.eqb s "" then Some (EText "input string cannot be empty") else None
  | None, Some ss, _, _ =>
      match ss with
      | [] => Some (EText "input array cannot be empty")
      | _ => reject_first (String.eqb "") "input array contains empty string" ss
      end
  | None, None, Some ts, _ => match ts with [] => Some (EText "token array cannot be empty") | _ => None end
  | None, None, None, Some tss =>
      match tss with
      | [] => Some (EText "token list cannot be empty")
      | _ => reject_first (fun ts => (length ts =? 0)%nat) "token list contains empty array" tss
      end
  | None, None, None, None => Some (EText "input cannot be nil")
  end.

Definition EmbeddingRequest_Validate (r : EmbeddingRequest) : option go_error :=
  if String.eqb r.(er_Model) "" then Some (EText "model is required")
  else if negb (ValidateModelName r.(er_Model)) then Some model_too_long
  else match r.(er_Input) with
       | None => Some (EText "input cannot be nil")
       | Some input => EmbeddingInput_Validate input
       end.

(** ** The key for rate limiting ([rate_limit_context.go]) *)

Definition WithRateLimitAPIKey (apiKey : string) (ctx : Ctx) : Ctx :=
  if String.eqb apiKey "" then ctx else ctx<|c_rateKey := apiKey|>.

Definition rateLimitAPIKeyFromContext (ctx : Ctx) : string := ctx.(c_rateKey).

(** ** What routing and the provider get ([routing_context.go]) *)

Definition buildRouterRequestContext (req : option ChatRequest) (promptTokens : Z) (isStreaming : bool) : RequestContext :=
  match req with
  | None => modelContext ""
  | Some req => {| Model := req.(q_Model); IsStreaming := isStreaming; ReqTags := req.(q_Tags);
                   EstimatedInputTokens := promptTokens |}
  end.

Definition sanitizeChatRequestForProvider (req : option ChatRequest) : option ChatRequest :=
  match req with
  | None => None
  | Some req =>
      let modelName := (SplitProviderModel req.(q_Model)).2 in
      let renamed := negb (String.eqb modelName "") && negb (String.eqb modelName req.(q_Model)) in
      let needsClone := negb (length req.(q_Tags) =? 0)%nat || renamed in
      if negb needsClone then Some req
      else
        let cloned := req<|q_Tags := []|> in
        Some (if renamed then cloned<|q_Model := modelName|> else cloned)
  end.

(** The model without its provider prefix, as the client computes it. *)
Definition canonical (model : string) : string :=
  let modelName := (SplitProviderModel model).2 in if String.eqb modelName "" then model else modelName.

(** ** Interfaces *)

(** The body of a response: the bytes it delivers, and the error that ends it;
    [None] is the end of the data. *)
Record Body := { body_bytes : string; body_error : option go_error }.
Record HttpResponse := { hr_Status : Z; hr_Body : Body }.

(** [httputil.ReadLimitedBody]: the bytes, with the error. *)
Definition DefaultMaxResponseBodyBytes : Z := 10 * 1024 * 1024.
Definition ReadLimitedBody (b : Body) (maxBytes : Z) : string * option go_error :=
  if maxBytes <=? 0 then (b.(body_bytes), b.(body_error))
  else if Z.of_nat (String.length b.(body_bytes)) <=? maxBytes then (b.(body_bytes), b.(body_error))
  else (String.substring 0 (Z.to_nat maxBytes) b.(body_bytes), Some (EText "response body too large")).

Section Interfaces.
Context {E : Type} {HttpRequest : Type}.

(** [provider.Provider]; a nil response without an error is [inr None]. *)
Record Provider := {
  prov_Name : string;
  SupportedModels : list string;
  BuildRequest : Ctx -> option ChatRequest -> E -> E * (go_error + HttpRequest);
  ParseResponse : HttpResponse -> go_error + option ChatResponse;
  ParseStreamChunk : string -> go_error + option StreamChunk;
  MapError : Z -> string -> go_error;
  SupportEmbedding : bool;
  BuildEmbeddingRequest : Ctx -> EmbeddingRequest -> E -> E * (go_error + HttpRequest);
  ParseEmbeddingResponse : HttpResponse -> go_error + option EmbeddingResponse;
}.
End Interfaces.
Arguments Provider : clear implicits.

(** The clock, the random source, the two HTTP clients, and the caller's context
    as time goes by: [wait] is [time.After] against [ctx.Done], false when the
    context ended first. *)
Class Network (E HttpRequest : Type) := {
  now : E -> E * time;
  rand_Float64 : E -> E * f64;
  http_Do : HttpRequest -> E -> E * (go_error + HttpResponse);
  stream_Do : HttpRequest -> E -> E * (go_error + HttpResponse);
  wait : Ctx -> duration -> E -> E * bool;
  ctx_Err : Ctx -> E -> option go_error;
}.

(** The operations of [router.Router] that the client calls. *)
Class RouterI (RT : Type) := {
  r_PickWithContext : context -> RequestContext -> RT -> RT * outcome route_err Deployment;
  r_ReportRequestStart : context -> Deployment -> RT -> RT;
  r_ReportRequestEnd : context -> Deployment -> RT -> RT;
  r_ReportSuccess : context -> Deployment -> ResponseMetrics -> RT -> RT;
  r_ReportFailure : context -> Deployment -> go_error -> RT -> RT;
  r_AddDeployment : Deployment -> RT -> RT;
  r_RemoveDeployment : string -> RT -> RT;
}.

(** [cache.Cache]: [inr None] is a miss. *)
Class CacheI (C : Type) := {
  cache_Get : time -> string -> C -> C * (go_error + option string);
  cache_Set : time -> string -> string -> duration -> C -> C * option go_error;
}.

(** The estimates of [internal/tokenizer]. *)
Class Tokenizer := {
  EstimatePromptTokens : string -> option ChatRequest -> Z;
  EstimateEmbeddingTokens : string -> EmbeddingRequest -> Z;
  EstimateCompletionTokens : string -> ChatResponse -> string -> Z;
  EstimateCompletionTokensFromText : string -> string -> Z;
}.

(** The data a cache key is made of. *)
Record KeyData := {
  kd_Version : Z;
  kd_TenantID : string;
  kd_Model : string;
  kd_Messages : list ChatMessage;
  kd_Temperature : option f64;
  kd_TopP : option f64;
  kd_MaxTokens : Z;
  kd_N : Z;
  kd_Stop : list string;
  kd_PresencePenalty : option f64;
  kd_FrequencyPenalty : option f64;
  kd_User : string;
  kd_Tools : list Tool;
  kd_ToolChoice : string;
  kd_ResponseFormat : option string;
  kd_StreamOptions : option bool;
  kd_Tags : list string;
  kd_Extra : list (string * string);
}.

(** [json.Marshal] and [json.Unmarshal], and the hexadecimal SHA-256. *)
Class Codec := {
  marshal_key : KeyData -> go_error + string;
  marshal_response : ChatResponse -> go_error + string;
  unmarshal_response : string -> go_error + ChatResponse;
  marshal_string : string -> string;
  sha256_hex : string -> string;
}.

(** ** Configuration ([options.go]) *)

Definition RateLimitKeyByAPIKey := "api_key".
Definition RateLimitKeyByUser := "user".
Definition RateLimitKeyByModel := "model".
Definition RateLimitKeyByAPIKeyAndModel := "api_key_model".

Record RateLimiterConfig := {
  rl_Enabled : bool;
  rl_RPMLimit : Z;
  rl_TPMLimit : Z;
  rl_WindowSize : duration;
  rl_KeyStrategy : string;
  rl_FailOpen : bool;
}.

Definition StreamRecoveryOff := "off".
Definition StreamRecoveryAppend := "append".
Definition StreamRecoveryRetry := "retry".

(** The settings that the operations of the client read. *)
Record ClientConfig := {
  RouterStrategy : Strategy;
  FallbackEnabled : bool;
  RetryCount : Z;
  RetryBackoff : duration;
  RetryMaxBackoff : duration;
  RetryJitter : f64;
  cc_CooldownPeriod : duration;
  cc_EWMAAlpha : f64;
  cc_DefaultProvider : string;
  CacheEnabled : bool;
  CacheTTL : duration;
  cc_PricingFile : string;
  StreamRecoveryMode : string;
  StreamRecoveryMaxAccumulatedBytes : Z;
}.

Definition defaultConfig : ClientConfig :=
  {| RouterStrategy := StrategySimpleShuffle; FallbackEnabled := true; RetryCount := 3; RetryBackoff := Second;
     RetryMaxBackoff := 5 * Second; RetryJitter := f64_lit 1 5; cc_CooldownPeriod := 60 * Second;
     cc_EWMAAlpha := f64_lit 1 10; cc_DefaultProvider := ""; CacheEnabled := false; CacheTTL := Hour; cc_PricingFile := "";
     StreamRecoveryMode := StreamRecoveryRetry; StreamRecoveryMaxAccumulatedBytes := 1048576 |}.
