(* ===== verification/BuiltinPlugins.v ===== *)
(** * Built-in plug-ins ([internal/plugin/builtin/cache.go], [rate_limit.go])

    The response cache and the rate limiter as plug-ins of the pipeline.  Their state is
    part of the world that the hooks share: the clock, the items of the cache, the writes
    that were started and not yet done, and the buckets. *)
From stdpp Require Import pretty.
From S2P Require Import Prelude Float64 Errors RouterTypes AuthTypes PluginPipeline ClientTypes.

(** ** The state *)

Record memoryCacheItem := { item_response : ChatResponse; item_expiresAt : time }.

Record MemoryCacheBackend := { mb_items : gmap string memoryCacheItem; mb_maxSize : Z; mb_cleanupInterval : duration }.

Record tokenBucket := {
  tb_rate : f64;
  tb_burst : Z;
  tb_tokens : f64;
  tb_lastTime : time;
}.

(** A write that runs beside the request. *)
Record pending := { pw_key : string; pw_response : ChatResponse; pw_ttl : duration }.

Record plugin_state := {
  st_now : time;
  st_cache : MemoryCacheBackend;
  st_pending : list pending;
  st_limiter : tokenBucket;
  st_perKeyLimiters : gmap string tokenBucket;
}.

#[local] Abbreviation W := (Context * plugin_state)%type.
#[local] Abbreviation Circuit := (@ShortCircuit ChatResponse).

(** ** The memory backend *)

Definition NewMemoryCacheBackend (opts : list (MemoryCacheBackend -> MemoryCacheBackend)) : MemoryCacheBackend :=
  fold_left (fun c opt => opt c) opts {| mb_items := ∅; mb_maxSize := 10000; mb_cleanupInterval := 5 * Minute |}.

Definition WithMemoryCacheMaxSize (size : Z) (c : MemoryCacheBackend) : MemoryCacheBackend := c<|mb_maxSize := size|>.
Definition WithMemoryCacheCleanupInterval (interval : duration) (c : MemoryCacheBackend) : MemoryCacheBackend := c<|mb_cleanupInterval := interval|>.

Definition backend_Get (now : time) (key : string) (c : MemoryCacheBackend) : MemoryCacheBackend * option ChatResponse :=
  match c.(mb_items) !! key with
  | None => (c, None)
  | Some item => if after now item.(item_expiresAt) then (c<|mb_items ::= delete key|>, None) else (c, Some item.(item_response))
  end.

(** [victim] is the key that the iteration of the map gives first. *)
Definition backend_Set (victim : gmap string memoryCacheItem -> option string) (now : time) (key : string) (resp : ChatResponse) (ttl : duration)
    (c : MemoryCacheBackend) : MemoryCacheBackend :=
  let c := if c.(mb_maxSize) <=? Z.of_nat (size c.(mb_items)) then
             match victim c.(mb_items) with Some k => c<|mb_items ::= delete k|> | None => c end
           else c in
  c<|mb_items ::= <[key := {| item_response := resp; item_expiresAt := time_add now ttl |}]>|>.

Definition backend_Delete (key : string) (c : MemoryCacheBackend) : MemoryCacheBackend := c<|mb_items ::= delete key|>.
Definition backend_Clear (c : MemoryCacheBackend) : MemoryCacheBackend := c<|mb_items := ∅|>.

(** A turn of [cleanupLoop]. *)
Definition backend_cleanup (now : time) (c : MemoryCacheBackend) : MemoryCacheBackend :=
  c<|mb_items ::= filter (fun kv => after now kv.2.(item_expiresAt) = false)|>.

(** ** The cache plug-in *)

Section Cache.
Context (victim : gmap string memoryCacheItem -> option string) (KeyFunc : ChatRequest -> go_error + string).

(** [defaultKeyFunc], from the JSON of the model, the messages and the tools. *)
Definition defaultKeyFunc (marshal : string -> list ChatMessage -> list Tool -> go_error + string) (sha256_hex : string -> string) (req : ChatRequest) : go_error + string :=
  match marshal req.(q_Model) req.(q_Messages) req.(q_Tools) with inl err => inl err | inr bytes => inr (sha256_hex bytes) end.

Record CachePlugin := { cp_priority : Z; cp_ttl : duration }.

Definition WithCachePriority (priority : Z) (p : CachePlugin) : CachePlugin := p<|cp_priority := priority|>.
Definition WithCacheTTL (ttl : duration) (p : CachePlugin) : CachePlugin := p<|cp_ttl := ttl|>.

Definition NewCachePlugin (opts : list (CachePlugin -> CachePlugin)) : CachePlugin :=
  fold_left (fun p opt => opt p) opts {| cp_priority := 10; cp_ttl := Hour |}.

(** The hooks are called with a request. *)
Definition cache_PreHook (w : W) (req : ChatRequest) : W * (option ChatRequest * option Circuit * option go_error) :=
  if req.(q_Stream) then (w, (Some req, None, None))
  else match KeyFunc req with
  | inl _ => (w, (Some req, None, None))
  | inr key =>
      let (ctx, s) := (w : W) in
      let (cache, found) := backend_Get s.(st_now) key s.(st_cache) in
      let s := s<|st_cache := cache|> in
      match found with
      | Some resp =>
          ((Context_Set "cache_key" (AString key) (Context_Set "cache_hit" (ABool true) ctx), s),
           (Some req, Some {| sc_Response := Some resp; sc_Error := None; sc_AllowFallback := false |}, None))
      | None => ((Context_Set "cache_key" (AString key) ctx, s), (Some req, None, None))
      end
  end.

Definition cache_PostHook (p : CachePlugin) (w : W) (resp : option ChatResponse) (err : option go_error) :
    W * (option ChatResponse * option go_error * option go_error) :=
  match err, resp with
  | None, Some r =>
      let (ctx, s) := (w : W) in
      if GetBool "cache_hit" ctx then (w, (resp, err, None))
      else match Context_Get "cache_key" ctx with
           | Some (AString key) =>
               ((ctx, s<|st_pending ::= fun l => l ++ [{| pw_key := key; pw_response := r; pw_ttl := p.(cp_ttl) |}]|>), (resp, err, None))
           | _ => (w, (resp, err, None))
           end
  | _, _ => (w, (resp, err, None))
  end.

(** A started write is done at some time, in any order. *)
Definition settle (i : nat) (s : plugin_state) : plugin_state :=
  match s.(st_pending) !! i with
  | None => s
  | Some w => s<|st_pending ::= fun l => take i l ++ drop (S i) l|><|st_cache ::= backend_Set victim s.(st_now) w.(pw_key) w.(pw_response) w.(pw_ttl)|>
  end.

End Cache.

(** ** The rate limit plug-in *)

Definition newTokenBucket (now : time) (rate : f64) (burst : Z) : tokenBucket :=
  {| tb_rate := rate; tb_burst := burst; tb_tokens := f64_of_Z burst; tb_lastTime := now |}.

Definition allow (now : time) (tb : tokenBucket) : tokenBucket * bool :=
  let elapsed := seconds (time_sub now tb.(tb_lastTime)) in
  let refilled := tb.(tb_tokens) ⊞ elapsed ⊠ tb.(tb_rate) in
  let full := f64_of_Z tb.(tb_burst) in
  let tokens := if full <.? refilled then full else refilled in
  let tb := tb<|tb_lastTime := now|> in
  if fone <=.? tokens then (tb<|tb_tokens := tokens ⊟ fone|>, true) else (tb<|tb_tokens := tokens|>, false).

Record RateLimitPlugin := { rp_priority : Z; rp_rate : f64; rp_burst : Z; rp_KeyFunc : Context -> string }.

Definition default_limit_key (ctx : Context) : string :=
  match ctx.(x_Auth) with
  | Some a => match a.(a_APIKey) with Some k => if String.eqb k.(k_ID) "" then "global" else k.(k_ID) | None => "global" end
  | None => "global"
  end.

Definition WithRateLimitPriority (priority : Z) (p : RateLimitPlugin) : RateLimitPlugin := p<|rp_priority := priority|>.
Definition WithRateLimitKeyFunc (fn : Context -> string) (p : RateLimitPlugin) : RateLimitPlugin := p<|rp_KeyFunc := fn|>.
Definition WithPerKeyLimiting (p : RateLimitPlugin) : RateLimitPlugin := p.

(** The bucket of the plug-in is in the state. *)
Definition NewRateLimitPlugin (rate : f64) (burst : Z) (opts : list (RateLimitPlugin -> RateLimitPlugin)) : RateLimitPlugin :=
  fold_left (fun p opt => opt p) opts {| rp_priority := 5; rp_rate := rate; rp_burst := burst; rp_KeyFunc := default_limit_key |}.

Definition getLimiter (p : RateLimitPlugin) (key : string) (s : plugin_state) : tokenBucket :=
  if String.eqb key "global" then s.(st_limiter)
  else match s.(st_perKeyLimiters) !! key with
       | Some limiter => limiter
       | None => newTokenBucket s.(st_now) p.(rp_rate) p.(rp_burst)
       end.

Definition putLimiter (key : string) (tb : tokenBucket) (s : plugin_state) : plugin_state :=
  if String.eqb key "global" then s<|st_limiter := tb|> else s<|st_perKeyLimiters ::= <[key := tb]>|>.

(** [RateLimitError] is its message. *)
Definition rate_limit_exceeded : go_error := EText "rate limit exceeded".

Definition rate_PreHook (p : RateLimitPlugin) (w : W) (req : ChatRequest) : W * (option ChatRequest * option Circuit * option go_error) :=
  let (ctx, s) := w in
  let key := p.(rp_KeyFunc) ctx in
  let (tb, ok) := allow s.(st_now) (getLimiter p key s) in
  ((ctx, putLimiter key tb s),
   (Some req, if ok then None else Some {| sc_Response := None; sc_Error := Some rate_limit_exceeded; sc_AllowFallback := false |}, None)).

Definition rate_PostHook (w : W) (resp : option ChatResponse) (err : option go_error) : W * (option ChatResponse * option go_error * option go_error) :=
  (w, (resp, err, None)).

(** ** The plug-ins of the pipeline

    A hook that is handed a nil request reads through it and panics in the code; the client
    never hands one over, and the hooks here leave it as it is. *)

Section Plugins.
Context {Chunk : Type}.

Definition on_request (hook : W -> ChatRequest -> W * (option ChatRequest * option Circuit * option go_error)) (w : W) (req : option ChatRequest) :
    W * (option ChatRequest * option Circuit * option go_error) :=
  match req with Some req => hook w req | None => (w, (None, None, None)) end.

Definition cache_plugin (KeyFunc : ChatRequest -> go_error + string) (p : CachePlugin) : Plugin W ChatRequest ChatResponse Chunk :=
  {| Name := "cache"; Priority := p.(cp_priority); PreHook := on_request (cache_PreHook KeyFunc); PostHook := cache_PostHook p;
     Cleanup w := (w, None); stream := None |}.

Definition rate_plugin (p : RateLimitPlugin) : Plugin W ChatRequest ChatResponse Chunk :=
  {| Name := "rate-limit"; Priority := p.(rp_priority); PreHook := on_request (rate_PreHook p); PostHook := rate_PostHook;
     Cleanup w := (w, None); stream := None |}.
End Plugins.

(** ** The memory backend is bounded *)

Section Backend.
Context (victim : gmap string memoryCacheItem -> option string).
(** The iteration of a map gives one of its keys, and none only if there is none. *)
Context (victim_in : forall m, match victim m with Some k => k ∈ dom m | None => m = ∅ end).

Inductive backend_step : MemoryCacheBackend -> MemoryCacheBackend -> Prop :=
| bstep_get now key c : backend_step c (backend_Get now key c).1
| bstep_set now key resp ttl c : backend_step c (backend_Set victim now key resp ttl c)
| bstep_delete key c : backend_step c (backend_Delete key c)
| bstep_clear c : backend_step c (backend_Clear c)
| bstep_cleanup now c : backend_step c (backend_cleanup now c).

Definition backend_bounded (c : MemoryCacheBackend) : Prop := Z.of_nat (size c.(mb_items)) <= Z.max 1 c.(mb_maxSize).

Lemma size_insert_le {A} (m : gmap string A) k v : (size (<[k := v]> m) <= S (size m))%nat.
Proof. rewrite map_size_insert. destruct (m !! k); cbn; lia. Qed.

Lemma size_delete_le {A} (m : gmap string A) k : (size (delete k m) <= size m)%nat.
Proof. rewrite map_size_delete. destruct (m !! k); cbn; lia. Qed.

Lemma backend_step_bounded c c' : backend_step c c' -> backend_bounded c -> backend_bounded c'.
Proof.
  unfold backend_bounded. intros [now key d|now key resp ttl d|key d|d|now d] B.
  - unfold backend_Get. destruct (_ !! key) as [it|]; [|done]. destruct (after _ _); [|done]. cbn. pose proof (size_delete_le (mb_items d) key). lia.
  - unfold backend_Set. destruct (Z.leb_spec (mb_maxSize d) (Z.of_nat (size (mb_items d)))) as [Hf|Hf].
    + pose proof (victim_in (mb_items d)) as V. destruct (victim (mb_items d)) as [k|]; cbn.
      * apply elem_of_dom in V. pose proof (map_size_delete_Some _ _ V).
        pose proof (size_insert_le (delete k (mb_items d)) key {| item_response := resp; item_expiresAt := time_add now ttl |}).
        assert (size (mb_items d) <> 0%nat) by (destruct V as [v V]; intros Z0; apply map_size_empty_iff in Z0; by rewrite Z0 in V).
        lia.
      * pose proof (size_insert_le (mb_items d) key {| item_response := resp; item_expiresAt := time_add now ttl |}) as I.
        rewrite V in I at 2. rewrite map_size_empty in I. lia.
    + cbn. pose proof (size_insert_le (mb_items d) key {| item_response := resp; item_expiresAt := time_add now ttl |}). lia.
  - cbn. pose proof (size_delete_le (mb_items d) key). lia.
  - cbn. rewrite map_size_empty. lia.
  - cbn. pose proof (map_filter_subseteq (fun kv : string * memoryCacheItem => after now kv.2.(item_expiresAt) = false) (mb_items d)) as F.
    apply subseteq_dom, subseteq_size in F. rewrite !size_dom in F. lia.
Qed.

(** However often it is written, the memory backend of the cache holds at most its
    configured number of answers, and at most one when that number is not positive. *)
Theorem backend_stays_bounded c0 c : c0.(mb_items) = ∅ -> rtc backend_step c0 c -> backend_bounded c.
Proof.
  intros H0 Hr. eapply (rtc_invariant backend_step backend_bounded); [apply backend_step_bounded| |exact Hr].
  unfold backend_bounded. rewrite H0, map_size_empty. lia.
Qed.

(** ** A cached answer is replayed *)

Lemma set_then_get now later key resp ttl c :
  later <= time_add now ttl -> (backend_Get later key (backend_Set victim now key resp ttl c)).2 = Some resp.
Proof.
  intros Hl. unfold backend_Get, backend_Set. cbn. rewrite lookup_insert_eq. cbn. unfold after.
  destruct (Z.ltb_spec (time_add now ttl) later); [lia|done].
Qed.

Lemma Context_Get_Set key v c : Context_Get key (Context_Set key v c) = Some v.
Proof. unfold Context_Get, Context_Set, nget. destruct c as [? ? ? ? ? ? ? ? vs]. apply lookup_insert_eq. Qed.

Lemma Context_Get_Set_ne key key' v c : key <> key' -> Context_Get key' (Context_Set key v c) = Context_Get key' c.
Proof.
  intros Hne. unfold Context_Get, Context_Set, nget. destruct c as [? ? ? ? ? ? ? ? vs]. cbn [x_values].
  etransitivity; [by apply lookup_insert_ne|]. by destruct vs.
Qed.

Lemma GetBool_Set_ne key key' v c : key <> key' -> GetBool key' (Context_Set key v c) = GetBool key' c.
Proof. intros Hne. unfold GetBool. by rewrite Context_Get_Set_ne. Qed.

Section Hooks.
Context (KeyFunc : ChatRequest -> go_error + string).
Implicit Types (s : plugin_state) (req : ChatRequest).

Lemma PreHook_miss ctx s req key :
  req.(q_Stream) = false -> KeyFunc req = inr key -> s.(st_cache).(mb_items) !! key = None ->
  cache_PreHook KeyFunc (ctx, s) req = ((Context_Set "cache_key" (AString key) ctx, s), (Some req, None, None)).
Proof. intros Hs Hk Hm. unfold cache_PreHook, backend_Get. rewrite Hs, Hk, Hm. by destruct s. Qed.

Lemma PreHook_hit ctx s req key r :
  req.(q_Stream) = false -> KeyFunc req = inr key -> (backend_Get s.(st_now) key s.(st_cache)).2 = Some r ->
  (cache_PreHook KeyFunc (ctx, s) req).2.1.2 = Some {| sc_Response := Some r; sc_Error := None; sc_AllowFallback := false |}.
Proof.
  intros Hs Hk Hg. unfold cache_PreHook. rewrite Hs, Hk. destruct (backend_Get _ _ _) as [c' found]. cbn in Hg. by subst found.
Qed.
End Hooks.

Lemma PostHook_store p ctx s key r :
  GetBool "cache_hit" ctx = false -> Context_Get "cache_key" ctx = Some (AString key) ->
  cache_PostHook p (ctx, s) (Some r) None =
    ((ctx, s<|st_pending ::= fun l => l ++ [{| pw_key := key; pw_response := r; pw_ttl := p.(cp_ttl) |}]|>), (Some r, None, None)).
Proof. intros Hh Hk. unfold cache_PostHook. by rewrite Hh, Hk. Qed.

(** The answer to a request that missed the cache is replayed.  The first hook of the cache
    leaves the request to the provider; once the write that the second hook starts is done,
    a request with the same key is answered from the cache until the time to live is over,
    whoever asks. *)
Theorem answer_replayed (Chunk : Type) KeyFunc p ctx ctx' s req req' key r later cfg cl :
  req.(q_Stream) = false -> req'.(q_Stream) = false -> KeyFunc req = inr key -> KeyFunc req' = inr key ->
  s.(st_pending) = [] -> GetBool "cache_hit" ctx = false -> s.(st_cache).(mb_items) !! key = None ->
  later <= time_add s.(st_now) p.(cp_ttl) ->
  let pl := {| plugins := [cache_plugin (Chunk := Chunk) KeyFunc p]; config := cfg; closed := cl |} in
  let '(w1, (req1, sc, n)) := RunPreHooks pl (ctx, s) (Some req) in
  let '((_, s2), answered) := RunPostHooks pl w1 (Some r) None (Z.of_nat n) in
  sc = None /\ req1 = Some req /\ answered = (Some r, None) /\
  (RunPreHooks pl (ctx', (settle victim 0 s2)<|st_now := later|>) (Some req')).2.1.2
    = Some {| sc_Response := Some r; sc_Error := None; sc_AllowFallback := false |}.
Proof.
  intros S1 S2 K1 K2 P0 H0 M0 Hl pl. unfold RunPreHooks, RunPostHooks, reversed_prefix, pl. cbn [plugins pre_hooks cache_plugin PreHook on_request].
  rewrite (PreHook_miss KeyFunc ctx s req key S1 K1 M0). cbn [length take reverse].
  replace (reverse _) with [cache_plugin (Chunk := Chunk) KeyFunc p] by reflexivity. cbn [post_hooks cache_plugin PostHook].
  rewrite (PostHook_store p _ s key r); [|rewrite GetBool_Set_ne; done|apply Context_Get_Set].
  do 3 (split; [reflexivity|]).
  assert (Hit : (cache_PreHook KeyFunc (ctx', (settle victim 0 (s<|st_pending ::= fun l => l ++ [{| pw_key := key; pw_response := r; pw_ttl := p.(cp_ttl) |}]|>))<|st_now := later|>) req').2.1.2
    = Some {| sc_Response := Some r; sc_Error := None; sc_AllowFallback := false |}).
  { apply (PreHook_hit KeyFunc _ _ req' key r S2 K2). destruct s as [now c pend l pk]. cbn in P0. subst pend. cbn. by apply (set_then_get now later key r _ c). }
  destruct (cache_PreHook KeyFunc _ req') as [w3 [[req3 sc3] e3]]. cbn in Hit. by subst sc3.
Qed.
End Backend.

(** ** The limiter *)

Definition limiter_of (key : string) (s : plugin_state) : option tokenBucket :=
  if String.eqb key "global" then Some s.(st_limiter) else s.(st_perKeyLimiters) !! key.

(** A request is counted against the bucket of its own key and against no other, and
    changes nothing of the cache. *)
Theorem limiter_keyed p ctx s req other :
  other <> p.(rp_KeyFunc) ctx ->
  let '((_, s'), _) := rate_PreHook p (ctx, s) req in
  limiter_of other s' = limiter_of other s /\ s'.(st_cache) = s.(st_cache) /\ s'.(st_pending) = s.(st_pending).
Proof.
  intros Hne. unfold rate_PreHook. destruct (allow _ _) as [tb ok]. unfold limiter_of, putLimiter.
  destruct (String.eqb_spec (rp_KeyFunc p ctx) "global") as [E|E], (String.eqb_spec other "global") as [O|O]; cbn; try done.
  - congruence.
  - by rewrite lookup_insert_ne.
Qed.

(** The contexts that the client hands to the hooks name no API key: nothing sets [Auth],
    the pool gives new contexts or used ones that were reset.  So the default key of the
    rate limiter is the same for all callers. *)
Theorem all_callers_share_a_bucket now pooled ctx requestID :
  match pooled with Some c => exists c0, c = PutContext c0 | None => True end ->
  default_limit_key (GetContext now pooled ctx requestID) = "global".
Proof. destruct pooled as [c|]; [intros [c0 ->]|intros _]; reflexivity. Qed.

(** A burst of three, and one request a second. *)
Module Burst.
Definition p : RateLimitPlugin := NewRateLimitPlugin fone 3 [WithPerKeyLimiting].
Definition s0 : plugin_state :=
  {| st_now := 0; st_cache := NewMemoryCacheBackend []; st_pending := []; st_limiter := newTokenBucket 0 fone 3; st_perKeyLimiters := ∅ |}.
Definition ctx0 : Context := NewContext 0 None "r".
Definition req0 : ChatRequest := 
  {| q_Model := "m"; q_Messages := []; q_Stream := false; q_MaxTokens := 0; q_Temperature := None; q_TopP := None; q_N := 0; q_Stop := [];
     q_PresencePenalty := None; q_FrequencyPenalty := None; q_User := ""; q_Tools := []; q_ToolChoice := ""; q_ResponseFormat := None;
     q_StreamOptions := None; q_Tags := []; q_Extra := None |}.

Fixpoint admitted (times : list time) (s : plugin_state) : list bool :=
  match times with
  | [] => []
  | t :: times => let '((_, s'), (_, sc, _)) := rate_PreHook p (ctx0, s<|st_now := t|>) req0 in
                  match sc with None => true | Some _ => false end :: admitted times s'
  end.

Example burst_then_rate :
  admitted [0; 0; 0; 0; Second `div` 2; Second; 2 * Second; 60 * Second; 60 * Second; 60 * Second; 60 * Second] s0
    = [true; true; true; false; false; true; true; true; true; true; false].
Proof. vm_compute. reflexivity. Qed.
End Burst.
