(* ===== verification/CacheHandler.v ===== *)
(** * The cache handler ([internal/cache/handler.go], [keygen.go], [types.go])

    Keys for chat requests, and the reading and writing of cached answers under the
    control of the request.  A cache is the class [KeyStore], which [MemoryCache]
    implements; the JSON library and the hash are the class [HandlerCodec]. *)
From Stdlib Require Import Ascii SpecFloat.
From stdpp Require Import pretty.
From S2P Require Import Prelude Float64 Errors AuthTypes ClientTypes.
From S2P Require MemoryCache.

(** ** Keys *)

Record KeyParams := {
  kp_Model : string;
  kp_Messages : string;
  kp_Temperature : option f64;
  kp_MaxTokens : Z;
  kp_TopP : option f64;
  kp_Tools : string;
  kp_Namespace : string;
  kp_Extra : list (string * string);
}.

(** The verb %.2f: the nearest hundredth, and the even one of two. *)
Definition hundredths (m : positive) (e : Z) : Z :=
  if 0 <=? e then Z.pos m * 2 ^ e * 100
  else
    let den := 2 ^ (- e) in
    let q := Z.pos m * 100 / den in
    let r := Z.pos m * 100 mod den in
    if 2 * r <? den then q else if den <? 2 * r then q + 1 else if Z.even q then q else q + 1.

Definition two_digits (n : Z) : string := (if n <? 10 then "0" else "") +:+ pretty n.

Definition format_2f (x : f64) : string :=
  let sign (s : bool) := if s then "-" else "" in
  match x with
  | S754_zero s => sign s +:+ "0.00"
  | S754_infinity s => (if s then "-" else "+") +:+ "Inf"
  | S754_nan => "NaN"
  | S754_finite s m e => let n := hundredths m e in sign s +:+ pretty (n / 100) +:+ "." +:+ two_digits (n mod 100)
  end.

Record CacheControl := {
  ctl_TTL : duration;
  ctl_Namespace : string;
  ctl_NoCache : bool;
  ctl_NoStore : bool;
  ctl_MaxAge : duration;
}.

Record CachedResponse := {
  cr_Timestamp : Z;
  cr_Response : string;
  cr_Model : string;
  cr_Provider : string;
}.

Record HandlerConfig := {
  hc_Enabled : bool;
  hc_DefaultTTL : duration;
  hc_SupportedCallTypes : list string;
  hc_MaxCacheableSize : Z;
}.

Definition DefaultHandlerConfig : HandlerConfig :=
  {| hc_Enabled := true; hc_DefaultTTL := Hour; hc_SupportedCallTypes := ["completion"; "acompletion"]; hc_MaxCacheableSize := 10 * 1024 * 1024 |}.

(** The JSON of the messages, the tools, the control and the entries, and the
    hexadecimal SHA-256. *)
Class HandlerCodec := {
  write_messages : list ChatMessage -> go_error + string;
  write_tools : list Tool -> go_error + string;
  write_cached : CachedResponse -> go_error + string;
  read_cached : string -> go_error + CachedResponse;
  read_control : string -> go_error + CacheControl;
  key_hash : string -> string;
}.

(** [Cache]: a miss is [inr None]. *)
Class KeyStore (C : Type) := {
  ks_Get : time -> string -> C -> C * (go_error + option string);
  ks_Set : time -> string -> string -> duration -> C -> C * option go_error;
  ks_Delete : string -> C -> C * option go_error;
}.

Section Handler.
Context {C : Type} `{!KeyStore C} `{!HandlerCodec}.

(** [Generate]: the parts that are set, hashed; then the prefix and the namespace. *)
Definition fingerprint (params : KeyParams) : string :=
  let part (b : bool) (s : string) := if b then s else "" in
  let nonempty s := negb (String.eqb s "") in
  "model:" +:+ params.(kp_Model)
  +:+ part (nonempty params.(kp_Messages)) ("|messages:" +:+ params.(kp_Messages))
  +:+ match params.(kp_Temperature) with Some x => "|temp:" +:+ format_2f x | None => "" end
  +:+ part (0 <? params.(kp_MaxTokens)) ("|max_tokens:" +:+ pretty params.(kp_MaxTokens))
  +:+ match params.(kp_TopP) with Some x => "|top_p:" +:+ format_2f x | None => "" end
  +:+ part (nonempty params.(kp_Tools)) ("|tools:" +:+ params.(kp_Tools))
  +:+ fold_right (fun kv s => "|" +:+ kv.1 +:+ ":" +:+ kv.2 +:+ s) "" params.(kp_Extra).

Definition scoped (prefix namespace hash : string) : string :=
  (if String.eqb prefix "" then "" else prefix +:+ ":") +:+ (if String.eqb namespace "" then "" else namespace +:+ ":") +:+ hash.

Definition Generate (prefix : string) (params : KeyParams) : string := scoped prefix params.(kp_Namespace) (key_hash (fingerprint params)).
Definition GenerateFromRaw (prefix namespace content : string) : string := scoped prefix namespace (key_hash content).

(** ** The handler *)

(** The key generator is its prefix; no cache is [None]. *)
Record Handler := {
  h_cache : option C;
  h_prefix : string;
  h_config : HandlerConfig;
  h_enabled : bool;
}.

Definition NewHandler (cache : option C) (keyGen : option string) (cfg : HandlerConfig) : Handler :=
  {| h_cache := cache; h_prefix := default "llmux" keyGen; h_config := cfg; h_enabled := cfg.(hc_Enabled) |}.

Definition generateKey (h : Handler) (req : ChatRequest) (ctrl : option CacheControl) : go_error + string :=
  match write_messages req.(q_Messages) with
  | inl err => inl err
  | inr messages =>
      match (match req.(q_Tools) with [] => inr "" | tools => write_tools tools end) with
      | inl err => inl err
      | inr tools =>
          inr (Generate h.(h_prefix)
            {| kp_Model := req.(q_Model); kp_Messages := messages; kp_Temperature := req.(q_Temperature); kp_MaxTokens := req.(q_MaxTokens);
               kp_TopP := req.(q_TopP); kp_Tools := tools; kp_Namespace := match ctrl with Some c => c.(ctl_Namespace) | None => "" end;
               kp_Extra := [] |})
      end
  end.

Definition too_old (now : time) (cached : CachedResponse) (ctrl : option CacheControl) : bool :=
  match ctrl with
  | Some c => (0 <? c.(ctl_MaxAge)) && (c.(ctl_MaxAge) <? time_sub now (cached.(cr_Timestamp) * Second))
  | None => false
  end.

(** [now] is read by the cache, [now'] after it. *)
Definition GetCachedResponse (now now' : time) (req : ChatRequest) (ctrl : option CacheControl) (h : Handler) : Handler * (go_error + option CachedResponse) :=
  match h.(h_enabled), h.(h_cache) with
  | true, Some cache =>
      if match ctrl with Some c => c.(ctl_NoCache) | None => false end then (h, inr None)
      else match generateKey h req ctrl with
      | inl err => (h, inl err)
      | inr key =>
          let (cache, r) := ks_Get now key cache in
          (h<|h_cache := Some cache|>,
           match r with
           | inl err => inl err
           | inr None => inr None
           | inr (Some data) =>
               match read_cached data with
               | inl _ => inr None
               | inr cached => if too_old now' cached ctrl then inr None else inr (Some cached)
               end
           end)
      end
  | _, _ => (h, inr None)
  end.

(** [now] is read for the entry, [now'] by the cache. *)
Definition SetCachedResponse (now now' : time) (req : ChatRequest) (resp : string) (ctrl : option CacheControl) (h : Handler) : Handler * option go_error :=
  match h.(h_enabled), h.(h_cache) with
  | true, Some cache =>
      if match ctrl with Some c => c.(ctl_NoStore) | None => false end then (h, None)
      else if h.(h_config).(hc_MaxCacheableSize) <? Z.of_nat (String.length resp) then (h, None)
      else match generateKey h req ctrl with
      | inl err => (h, Some err)
      | inr key =>
          match write_cached {| cr_Timestamp := unix now; cr_Response := resp; cr_Model := req.(q_Model); cr_Provider := "" |} with
          | inl err => (h, Some err)
          | inr data =>
              let ttl := match ctrl with Some c => if 0 <? c.(ctl_TTL) then c.(ctl_TTL) else h.(h_config).(hc_DefaultTTL) | None => h.(h_config).(hc_DefaultTTL) end in
              let (cache, err) := ks_Set now' key data ttl cache in
              (h<|h_cache := Some cache|>, err)
          end
      end
  | _, _ => (h, None)
  end.

Definition InvalidateCache (req : ChatRequest) (ctrl : option CacheControl) (h : Handler) : Handler * option go_error :=
  match h.(h_enabled), h.(h_cache) with
  | true, Some cache =>
      match generateKey h req ctrl with
      | inl err => (h, Some err)
      | inr key => let (cache, err) := ks_Delete key cache in (h<|h_cache := Some cache|>, err)
      end
  | _, _ => (h, None)
  end.

Definition SetEnabled (enabled : bool) (h : Handler) : Handler := h<|h_enabled := enabled|>.

Definition ParseCacheControl (raw : string) : option CacheControl :=
  if String.eqb raw "" then None else match read_control raw with inr c => Some c | inl _ => None end.

End Handler.
Arguments Handler : clear implicits.

(** ** Namespaces and round trips *)

(** The hash has 64 digits; an entry that was written is read back. *)
Class HandlerLaws `{!HandlerCodec} : Prop := {
  hash_length s : String.length (key_hash s) = 64%nat;
  cached_roundtrip c data : write_cached c = inr data -> read_cached data = inr c;
}.

(** What a cache promises: a value that it takes is held until its time is over,
    through reads, writes of other keys while there is room, and deletions of other
    keys; and a key that was deleted is not there. *)
Class KeyStoreLaws (C : Type) `{!KeyStore C} := {
  takes : C -> string -> Prop;
  room : C -> Prop;
  holds : string -> string -> time -> C -> Prop;
  set_holds t k v ttl c : takes c v -> 0 < ttl -> 0 <= t -> t + ttl < two63 ->
    (ks_Set t k v ttl c).2 = None /\ holds k v (t + ttl) (ks_Set t k v ttl c).1;
  get_holds t k v x k' c : holds k v x c -> 0 <= t < x -> x < two63 ->
    holds k v x (ks_Get t k' c).1 /\ (k' = k -> (ks_Get t k' c).2 = inr (Some v));
  set_keeps t k v x k' v' ttl c : holds k v x c -> k' <> k -> room c -> holds k v x (ks_Set t k' v' ttl c).1;
  delete_keeps k v x k' c : holds k v x c -> k' <> k -> holds k v x (ks_Delete k' c).1;
  delete_get t k c : (ks_Get t k (ks_Delete k c).1).2 = inr None;
}.

Lemma append_inj_r (a b c d : string) : String.length b = String.length d -> a +:+ b = c +:+ d -> a = c /\ b = d.
Proof.
  intros Hl. revert c. induction a as [|x a IH]; intros [|y c] Heq.
  - done.
  - exfalso. apply (f_equal String.length) in Heq. rewrite !length_string_app in Heq. cbn in Heq. lia.
  - exfalso. apply (f_equal String.length) in Heq. rewrite !length_string_app in Heq. cbn in Heq. lia.
  - change (String x (a +:+ b) = String y (c +:+ d)) in Heq. injection Heq as -> Heq. by destruct (IH _ Heq) as [-> ->].
Qed.

Section Proofs.
Context {C : Type} `{!KeyStore C} `{!KeyStoreLaws C} `{!HandlerCodec} `{!HandlerLaws}.
Implicit Types (h : Handler C) (req : ChatRequest).

Definition namespace_of (ctrl : option CacheControl) : string := match ctrl with Some c => c.(ctl_Namespace) | None => "" end.

Lemma append_inj_l (a b c : string) : a +:+ b = a +:+ c -> b = c.
Proof. induction a as [|x a IH]; [done|]. intros Heq. change (String x (a +:+ b) = String x (a +:+ c)) in Heq. injection Heq as Heq. by apply IH. Qed.

Lemma scoped_inj prefix ns ns' hash hash' : String.length hash = String.length hash' ->
  scoped prefix ns hash = scoped prefix ns' hash' -> ns = ns' /\ hash = hash'.
Proof.
  intros Hl Hs. unfold scoped in Hs. apply append_inj_l in Hs. apply append_inj_r in Hs as [Hn ->]; [|done]. split; [|done].
  destruct (String.eqb_spec ns ""), (String.eqb_spec ns' ""); subst; [done|by destruct ns'|by destruct ns|].
  by apply append_inj_r in Hn as [-> _].
Qed.

(** Requests under different namespaces never share a key. *)
Lemma namespaces_apart h h' req req' ctrl ctrl' key :
  h.(h_prefix) = h'.(h_prefix) -> generateKey h req ctrl = inr key -> generateKey h' req' ctrl' = inr key -> namespace_of ctrl = namespace_of ctrl'.
Proof.
  unfold generateKey. destruct (write_messages req.(q_Messages)), (write_messages req'.(q_Messages)); try done.
  destruct (match req.(q_Tools) with [] => _ | _ => _ end), (match req'.(q_Tools) with [] => _ | _ => _ end); try done.
  intros Hp [= <-] [= Hk]. unfold Generate in Hk. rewrite Hp in Hk. apply scoped_inj in Hk as [Hn _]; [by symmetry in Hn|].
  by rewrite !hash_length.
Qed.

(** The time to live of an entry. *)
Definition ttl_of h (ctrl : option CacheControl) : duration :=
  match ctrl with Some c => if 0 <? c.(ctl_TTL) then c.(ctl_TTL) else h.(h_config).(hc_DefaultTTL) | None => h.(h_config).(hc_DefaultTTL) end.

(** ** Between two requests *)

(** The calls of the handler. *)
Inductive handler_op :=
| HGet (now : time) (req : ChatRequest) (ctrl : option CacheControl)
| HSet (now : time) (req : ChatRequest) (resp : string) (ctrl : option CacheControl)
| HInvalidate (req : ChatRequest) (ctrl : option CacheControl).

Definition handle (h : Handler C) (op : handler_op) : Handler C :=
  match op with
  | HGet now req ctrl => (GetCachedResponse now now req ctrl h).1
  | HSet now req resp ctrl => (SetCachedResponse now now req resp ctrl h).1
  | HInvalidate req ctrl => (InvalidateCache req ctrl h).1
  end.

(** Calls that leave an entry alone: reads of any key before it expires, and writes
    and deletions of other keys, the writes while the cache has room. *)
Definition spares (key : string) (x : time) h (op : handler_op) : Prop :=
  match op with
  | HGet now _ _ => 0 <= now < x
  | HSet _ req _ ctrl => generateKey h req ctrl <> inr key /\ forall c, h.(h_cache) = Some c -> room c
  | HInvalidate req ctrl => generateKey h req ctrl <> inr key
  end.

Fixpoint all_spare (key : string) (x : time) h (ops : list handler_op) : Prop :=
  match ops with [] => True | op :: ops => spares key x h op /\ all_spare key x (handle h op) ops end.

(** A handler with the entry. *)
Definition shelved (prefix : string) (cfg : HandlerConfig) (key data : string) (x : time) h : Prop :=
  h.(h_enabled) = true /\ h.(h_prefix) = prefix /\ h.(h_config) = cfg /\ exists c, h.(h_cache) = Some c /\ holds key data x c.

Lemma handle_shelved prefix cfg key data x h op :
  x < two63 -> shelved prefix cfg key data x h -> spares key x h op -> shelved prefix cfg key data x (handle h op).
Proof.
  intros Hx Hsh Hsp. pose proof Hsh as (He & Hp & Hc & c & Hcache & Hh). destruct op as [now req ctrl|now req resp ctrl|req ctrl]; cbn [handle spares] in *.
  - unfold GetCachedResponse. rewrite He, Hcache. destruct (match ctrl with Some _ => _ | None => _ end); [done|].
    destruct (generateKey h req ctrl) as [err|k']; [done|]. destruct (get_holds now key data x k' c Hh Hsp Hx) as [Hg _].
    destruct (ks_Get now k' c) as [c' r]. repeat split; try done. by exists c'.
  - destruct Hsp as [Hne Hr]. unfold SetCachedResponse. rewrite He, Hcache. destruct (match ctrl with Some _ => _ | None => _ end); [done|].
    destruct (_ <? _); [done|]. destruct (generateKey h req ctrl) as [err|k']; [done|]. destruct (write_cached _) as [err|d]; [done|]. cbv zeta.
    set (ttl := match ctrl with Some _ => _ | None => _ end).
    assert (Hs := set_keeps now key data x k' d ttl c Hh ltac:(congruence) (Hr c Hcache)).
    destruct (ks_Set now k' d ttl c) as [c' r]. repeat split; try done. by exists c'.
  - unfold InvalidateCache. rewrite He, Hcache. destruct (generateKey h req ctrl) as [err|k']; [done|].
    assert (Hd := delete_keeps key data x k' c Hh ltac:(congruence)). destruct (ks_Delete k' c) as [c' r]. repeat split; try done. by exists c'.
Qed.

Lemma all_shelved prefix cfg key data x ops h :
  x < two63 -> shelved prefix cfg key data x h -> all_spare key x h ops -> shelved prefix cfg key data x (foldl handle h ops).
Proof.
  intros Hx. revert h. induction ops as [|op ops IH]; intros h Hsh Hsp; [done|]. destruct Hsp as [H1 H2].
  apply IH; [by apply handle_shelved|done].
Qed.

(** C29: A cached answer is found again.  An answer that a request may store (caching is
    on, it has no [no-store], and the response is not too large) and that the cache
    takes, is given back, with its model and the second it was stored, to a later
    request that has the same key, as long as: its time to live is not over; the calls
    of the handler in between were reads, writes of other keys, while the cache had room
    for another entry, and invalidations of other keys; and the later request does not
    refuse cached answers ([no-cache]) or ask for a newer one ([max-age]).  Requests
    have the same key only under the same namespace. *)
Theorem cached_answer_found cache prefix cfg req req' resp ctrl ctrl' key data ops t t' :
  let h := NewHandler (Some cache) (Some prefix) cfg in
  let entry := {| cr_Timestamp := unix t; cr_Response := resp; cr_Model := req.(q_Model); cr_Provider := "" |} in
  cfg.(hc_Enabled) = true -> Z.of_nat (String.length resp) <= cfg.(hc_MaxCacheableSize) ->
  match ctrl with Some c => c.(ctl_NoStore) | None => false end = false ->
  match ctrl' with Some c => c.(ctl_NoCache) | None => false end = false ->
  generateKey h req ctrl = inr key -> generateKey h req' ctrl' = inr key ->
  write_cached entry = inr data -> takes cache data ->
  0 < ttl_of h ctrl -> 0 <= t <= t' -> t' < t + ttl_of h ctrl < two63 -> too_old t' entry ctrl' = false ->
  let h1 := (SetCachedResponse t t req resp ctrl h).1 in
  all_spare key (t + ttl_of h ctrl) h1 ops ->
  namespace_of ctrl = namespace_of ctrl'
  /\ (SetCachedResponse t t req resp ctrl h).2 = None
  /\ (GetCachedResponse t' t' req' ctrl' (foldl handle h1 ops)).2 = inr (Some entry).
Proof.
  intros h entry He Hsize Hstore Hcache Hk Hk' Hw Ht Httl Ht1 Ht2 Hold h1 Hsp.
  split; [by eapply (namespaces_apart h h)|].
  destruct (set_holds t key data (ttl_of h ctrl) cache) as [Hs Hh]; [done|done|lia|lia|].
  assert (Hset : SetCachedResponse t t req resp ctrl h
    = (h<|h_cache := Some (ks_Set t key data (ttl_of h ctrl) cache).1|>, None)).
  { unfold SetCachedResponse. cbn [h NewHandler h_enabled h_cache h_config]. rewrite He, Hstore.
    rewrite (proj2 (Z.ltb_ge _ _) Hsize), Hk. unfold entry in Hw. rewrite Hw. change (match ctrl with Some c => _ | None => _ end) with (ttl_of h ctrl).
    destruct (ks_Set t key data (ttl_of h ctrl) cache) as [c' err]. cbn in Hs |- *. by rewrite Hs. }
  split; [by rewrite Hset|].
  assert (Sh : shelved prefix cfg key data (t + ttl_of h ctrl) (foldl handle h1 ops)).
  { apply all_shelved; [lia| |done]. unfold h1. rewrite Hset. repeat split; try done. by eexists. }
  destruct Sh as (He' & Hp' & Hc' & c & Ec & Hc). unfold GetCachedResponse. rewrite He', Ec, Hcache.
  replace (generateKey (foldl handle h1 ops) req' ctrl') with (generateKey h req' ctrl') by (unfold generateKey; by rewrite Hp').
  rewrite Hk'. destruct (get_holds t' key data (t + ttl_of h ctrl) key c Hc) as [_ Hg]; [lia|lia|]. specialize (Hg eq_refl).
  destruct (ks_Get t' key c) as [c' r]. cbn in Hg |- *. rewrite Hg, (cached_roundtrip _ _ Hw). by rewrite Hold.
Qed.

End Proofs.

(** ** The memory cache is such a cache *)

#[export] Instance memory_store : KeyStore MemoryCache.MemoryCache := {|
  ks_Get t k c := let (c, v) := MemoryCache.Get t k c in (c, inr v);
  ks_Set t k v ttl c := (MemoryCache.Set_ t t k v ttl c, None);
  ks_Delete k c := (MemoryCache.Delete k c, None);
|}.

Lemma unixNano_id t : 0 <= t < two63 -> MemoryCache.unixNano t = t.
Proof. intros Ht. unfold MemoryCache.unixNano. apply wrap64_id. unfold in_i64. lia. Qed.

Lemma memory_get_delete t k c : (MemoryCache.Get t k (MemoryCache.Delete k c)).2 = None.
Proof. unfold MemoryCache.Get, MemoryCache.getLookup, MemoryCache.Delete, MemoryCache.dropKey. cbn. by rewrite lookup_delete_eq. Qed.

Definition memory_holds (k v : string) (x : time) (c : MemoryCache.MemoryCache) : Prop :=
  c.(MemoryCache.data) !! k = Some {| MemoryCache.value := v; MemoryCache.expiration := x |}.

Lemma memory_get_holds t k v x k' c : memory_holds k v x c -> 0 <= t < x -> x < two63 ->
  memory_holds k v x (MemoryCache.Get t k' c).1 /\ (k' = k -> (MemoryCache.Get t k' c).2 = Some v).
Proof.
  intros Hh Ht Hx. unfold MemoryCache.Get, MemoryCache.getLookup.
  assert (Live : forall e, k' = k -> c.(MemoryCache.data) !! k' = Some e -> MemoryCache.expiredAt t e = false /\ MemoryCache.value e = v).
  { intros e -> He. unfold memory_holds in Hh. rewrite Hh in He. injection He as <-. unfold MemoryCache.expiredAt. cbn.
    rewrite unixNano_id by lia. split; [|done]. apply andb_false_intro2. lia. }
  destruct (c.(MemoryCache.data) !! k') as [e|] eqn:He.
  - destruct (MemoryCache.expiredAt t e) eqn:Ex; cbn.
    + assert (Hk : k' <> k) by (intros Hk; destruct (Live e Hk eq_refl); congruence).
      split; [|done]. unfold memory_holds. cbn. by rewrite lookup_delete_ne.
    + split; [done|]. intros Hk. by destruct (Live e Hk eq_refl) as [_ ->].
  - split; [done|]. intros ->. unfold memory_holds in Hh. congruence.
Qed.

#[export] Instance memory_laws : KeyStoreLaws MemoryCache.MemoryCache.
Proof.
  refine {| takes c v := Z.of_nat (String.length v) <= c.(MemoryCache.maxItemSize); room c := MemoryCache.full c = false; holds := memory_holds |}.
  - intros t k v ttl c Hv Httl H0 Hb. split; [done|]. cbn. unfold memory_holds, MemoryCache.Set_.
    rewrite (proj2 (Z.ltb_ge _ _) Hv), (proj2 (Z.leb_gt _ _) Httl). cbn -[MemoryCache.unixNano]. rewrite lookup_insert_eq.
    unfold time_add. by rewrite unixNano_id by lia.
  - intros t k v x k' c Hh Ht Hx. destruct (memory_get_holds t k v x k' c Hh Ht Hx) as [H1 H2]. cbn.
    destruct (MemoryCache.Get t k' c) as [c' r]. split; [done|]. intros Hk. cbn in *. by rewrite H2.
  - intros t k v x k' v' ttl c Hh Hk Hr. cbn. unfold MemoryCache.Set_. rewrite Hr. destruct (_ <? _); [done|]. unfold memory_holds. cbn.
    by rewrite lookup_insert_ne.
  - intros k v x k' c Hh Hk. unfold memory_holds. cbn. by rewrite lookup_delete_ne.
  - intros t k c. pose proof (memory_get_delete t k c) as Hg. cbn. destruct (MemoryCache.Get t k _) as [c' r]. cbn in *. by rewrite Hg.
Defined.

(** ** An example *)

Module Shelf.
(** Texts of fixed length for hashes; entries without escapes. *)
Definition pad (s : string) : string := String.substring 0 64 (s +:+ "................................................................").
Definition bar : ascii := "|"%char.
Definition stored : CachedResponse := {| cr_Timestamp := 2; cr_Response := "hi"; cr_Model := "m"; cr_Provider := "" |}.

#[export] Instance codec : HandlerCodec := {|
  write_messages ms := inr (fold_right (fun m s => m.(m_Content) +:+ s) "" ms);
  write_tools _ := inl (EText "json");
  write_cached c := if bool_decide ((cr_Timestamp c, cr_Response c, cr_Model c, cr_Provider c) = (2, "hi", "m", "")) then inr "entry" else inl (EText "json");
  read_cached s := if String.eqb s "entry" then inr stored else inl (EText "json");
  read_control _ := inl (EText "json");
  key_hash := pad;
|}.

Lemma pad_length s : String.length (pad s) = 64%nat.
Proof.
  unfold pad. set (d := "................................................................").
  assert (Hsub : forall n t, (n <= String.length t)%nat -> String.length (String.substring 0 n t) = n).
  { induction n as [|n IH]; intros [|x t] Hn; cbn in *; try done; try lia. rewrite IH; lia. }
  apply Hsub. rewrite length_string_app. change (String.length d) with 64%nat. lia.
Qed.

#[export] Instance codec_laws : HandlerLaws.
Proof.
  constructor; [exact pad_length|]. intros [ts r m p] data. cbn. case_bool_decide as E; [|done]. injection E as -> -> -> ->. by intros [= <-].
Qed.

Definition cache : MemoryCache.MemoryCache := MemoryCache.NewMemoryCache MemoryCache.DefaultMemoryCacheConfig.
Definition ask (stop : list string) : ChatRequest :=
  {| q_Model := "m"; q_Messages := [{| m_Role := "user"; m_Content := "hello"; m_Name := ""; m_ToolCalls := []; m_ToolCallID := "" |}];
     q_Stream := false; q_MaxTokens := 0; q_Temperature := Some (f64_lit 1 10); q_TopP := None; q_N := 0; q_Stop := stop; q_PresencePenalty := None;
     q_FrequencyPenalty := None; q_User := ""; q_Tools := []; q_ToolChoice := ""; q_ResponseFormat := None; q_StreamOptions := None;
     q_Tags := []; q_Extra := None |}.
Definition in_team : option CacheControl := Some {| ctl_TTL := 0; ctl_Namespace := "team"; ctl_NoCache := false; ctl_NoStore := false; ctl_MaxAge := 0 |}.
Definition handler : Handler MemoryCache.MemoryCache := NewHandler (Some cache) (Some "llmux") DefaultHandlerConfig.
Definition key : string := match generateKey handler (ask []) in_team with inr k => k | inl _ => "" end.
End Shelf.

#[local] Existing Instances Shelf.codec Shelf.codec_laws.

(** In between, another request is asked for, stored and invalidated. *)
Definition elsewhere : list handler_op :=
  let other := (Shelf.ask [])<|q_Model := "n"|> in
  [HGet (3 * Second) other Shelf.in_team; HSet (3 * Second) other "ho" Shelf.in_team; HInvalidate other Shelf.in_team].

Lemma cached_answer_found_witness :
  (GetCachedResponse (5 * Second) (5 * Second) (Shelf.ask []) Shelf.in_team
     (foldl handle (SetCachedResponse (2 * Second) (2 * Second) (Shelf.ask []) "hi" Shelf.in_team Shelf.handler).1 elsewhere)).2
  = inr (Some Shelf.stored).
Proof.
  refine (proj2 (proj2 (cached_answer_found Shelf.cache "llmux" DefaultHandlerConfig (Shelf.ask []) (Shelf.ask []) "hi" Shelf.in_team Shelf.in_team
            Shelf.key "entry" elsewhere (2 * Second) (5 * Second) _ _ _ _ _ _ _ _ _ _ _ _ _)));
    first [reflexivity|vm_compute; reflexivity|vm_compute; discriminate|vm_compute; split; congruence|idtac].
  cbn [all_spare elsewhere]. split; [vm_compute; split; congruence|].
  split; [split; [vm_compute; discriminate|]|split; [vm_compute; discriminate|done]].
  intros c Hc. vm_compute in Hc. injection Hc as <-. vm_compute. reflexivity.
Defined.

(** Requests that differ only in their stop words, and temperatures that differ by less
    than a hundredth, have the same key. *)
Example key_blind : Shelf.key <> ""
  /\ generateKey Shelf.handler (Shelf.ask ["END"]) Shelf.in_team = inr Shelf.key
  /\ generateKey Shelf.handler ((Shelf.ask [])<|q_Temperature := Some (f64_lit 101 1000)|>) Shelf.in_team = inr Shelf.key.
Proof. split_and!; vm_compute; [discriminate|reflexivity|reflexivity]. Qed.

Example format_examples : map format_2f [f64_lit 1 10; f64_lit 7 10; f64_lit 1 8; f64_lit 3 8; f64_of_Z (-2); fzero; f64_lit 199 100; f64_lit (-1) 1000]
  = ["0.10"; "0.70"; "0.12"; "0.38"; "-2.00"; "0.00"; "1.99"; "-0.00"].
Proof. vm_compute. reflexivity. Qed.
