(* ===== verification/Client.v ===== *)
(** * The client ([client.go])

    Requests with routing, retries, fallback, rate limiting, plug-ins and the
    response cache.  The state is the client object with the world around it; an
    operation is a state transformer whose result is [None] when the code panics.
    The functions that Go defers (the release of a permit, the end of a request) then do
    not run here: the state that goes with a panic is that at the panic, and no theorem
    is about it.
    Errors are ordinary values, as in Go: a Go pair of result and error is a pair
    of options. *)
From stdpp Require Import pretty.
From S2P Require Import Prelude Float64 Errors ModelName RouterTypes BaseRouter Strategies Semaphore ResilienceManager RedisLimiter AuthTypes PluginPipeline ClientTypes.

#[local] Abbreviation result A := (option A * option go_error)%type.

Definition fail {A : Type} (e : go_error) : result A := (None, Some e).
Definition success {A : Type} (a : A) : result A := (Some a, None).

Section Client.
Context {E HttpRequest RT P L C : Type}.
Context `{!Network E HttpRequest} `{!RouterI RT} `{!DistributedLimiter L} `{!CacheI C} `{!Tokenizer} `{!Codec}.

Abbreviation Prov := (Provider E HttpRequest).

(** The plug-ins work on the context of the request and on a world of their own. *)
Abbreviation PW := (Context * P)%type.

Record Client := {
  cl_providers : gmap string Prov;
  cl_deployments : gmap string (list Deployment);
  cl_router : RT;
  cl_cache : option C;
  cl_config : ClientConfig;
  cl_pricing : option Registry;
  cl_pipeline : Pipeline PW ChatRequest ChatResponse StreamChunk;
  cl_ctxPool : list Context;
  cl_fallbackReporter : bool;
  cl_rateLimiter : option L;
  cl_rateLimiterConfig : RateLimiterConfig;
  cl_resilienceManager : Manager;
}.

(** The arguments of a call of the fallback reporter. *)
Record fallback_report := {
  fr_originalModel : string;
  fr_fallbackModel : string;
  fr_err : go_error;
  fr_success : bool;
}.

Record world := {
  w_client : Client;
  w_env : E;
  w_plugins : P;
  w_reports : list fallback_report;
}.

(** ** State transformers *)

Definition M (A : Type) : Type := world -> world * option A.

Definition ret {A : Type} (a : A) : M A := fun w => (w, Some a).
Definition bind {A B : Type} (m : M A) (k : A -> M B) : M B :=
  fun w => match m w with
           | (w, Some a) => k a w
           | (w, None) => (w, None)
           end.
Definition panic {A : Type} : M A := fun w => (w, None).

#[local] Notation "'let*' x := m 'in' k" := (bind m (fun x => k)) (at level 10, x pattern, m at level 100, k at level 200).

Definition gets {A : Type} (f : Client -> A) : M A := fun w => (w, Some (f w.(w_client))).
Definition modify (f : Client -> Client) : M unit := fun w => (w<|w_client ::= f|>, Some tt).
Definition on_env {A : Type} (f : E -> E * A) : M A :=
  fun w => let '(e, a) := f w.(w_env) in (w<|w_env := e|>, Some a).
Definition in_env {A : Type} (f : E -> A) : M A := fun w => (w, Some (f w.(w_env))).
Definition on_router (f : RT -> RT) : M unit := modify (fun c => c<|cl_router ::= f|>).

(** A pick that panics is a panic of the caller. *)
Definition pick (ctx : Ctx) (req : RequestContext) : M (route_err + Deployment) :=
  fun w => let '(rt, res) := r_PickWithContext ctx.(c_scope) req w.(w_client).(cl_router) in
           (w<|w_client ::= fun c => c<|cl_router := rt|>|>,
            match res with Ok d => Some (inr d) | Err e => Some (inl e) | Panic => None end).

(** ** Contexts and keys *)

Definition generateRequestID (t : time) : string := "req-" +:+ pretty t.

Definition authenticated_key (ctx : Ctx) : option APIKey := ctx.(c_auth) ≫= a_APIKey.

Definition withTenantScope (ctx : Ctx) : Ctx :=
  if negb (String.eqb (TenantScopeFromContext ctx.(c_scope)) "") then ctx
  else match authenticated_key ctx with
       | Some k => ctx<|c_scope ::= fun s => WithTenantScope s k.(k_ID)|>
       | None => ctx
       end.

Definition rateLimitAPIKey (ctx : Ctx) : string :=
  let apiKey := rateLimitAPIKeyFromContext ctx in
  if negb (String.eqb apiKey "") then apiKey
  else match authenticated_key ctx with Some k => k.(k_ID) | None => "" end.

Definition non_empty (s d : string) : string := if String.eqb s "" then d else s.

Definition buildRateLimitKey (strategy model user apiKey : string) : string :=
  let defaultKey := "default" in
  if String.eqb strategy RateLimitKeyByAPIKey then non_empty apiKey defaultKey
  else if String.eqb strategy RateLimitKeyByModel then non_empty model defaultKey
  else if String.eqb strategy RateLimitKeyByAPIKeyAndModel then
    let baseKey := non_empty apiKey defaultKey in
    if String.eqb model "" then baseKey else baseKey +:+ ":" +:+ model
  else non_empty user defaultKey.

(** ** Rate limiting *)

Definition limit_descriptors (cfg : RateLimiterConfig) (key model : string) (estimatedTokens : Z) : list Descriptor :=
  let windowSize := if cfg.(rl_WindowSize) =? 0 then Minute else cfg.(rl_WindowSize) in
  (if 0 <? cfg.(rl_RPMLimit)
   then [{| d_Key := key; d_Value := model; d_Limit := cfg.(rl_RPMLimit); d_Type := LimitTypeRequests;
            d_Increment := 1; d_Window := windowSize |}] else [])
  ++ (if 0 <? cfg.(rl_TPMLimit)
      then [{| d_Key := key; d_Value := model; d_Limit := cfg.(rl_TPMLimit); d_Type := LimitTypeTokens;
               d_Increment := if estimatedTokens <=? 0 then 1 else estimatedTokens; d_Window := windowSize |}] else []).

(** The first result that is not allowed, with its descriptor. *)
Fixpoint first_exceeded (ds : list Descriptor) (rs : list LimitResult) : option (Descriptor * LimitResult) :=
  match ds, rs with
  | d :: ds', r :: rs' => if r.(Allowed) then first_exceeded ds' rs' else Some (d, r)
  | _, _ => None
  end.

Definition exceeded_error (model : string) (d : Descriptor) (r : LimitResult) : go_error :=
  let limitType := if String.eqb d.(d_Type) LimitTypeTokens then "tokens" else "requests" in
  ELLM (NewRateLimitError "llmux" model
    ("rate limit exceeded: " +:+ limitType +:+ " per minute limit reached (current: " +:+ pretty r.(RedisLimiter.Current)
     +:+ ", limit: " +:+ pretty d.(d_Limit) +:+ ", reset at: " +:+ pretty r.(ResetAt) +:+ ")")).

Definition checkRateLimit (key model : string) (estimatedTokens : Z) : M (option go_error) :=
  let* cfg := gets cl_rateLimiterConfig in
  let* limiter := gets cl_rateLimiter in
  match limiter with
  | None => ret None
  | Some l =>
      if negb cfg.(rl_Enabled) then ret None
      else
        let descriptors := limit_descriptors cfg key model estimatedTokens in
        match descriptors with
        | [] => ret None
        | _ =>
            let* t := on_env now in
            let '(l, res) := dl_CheckAllow t descriptors l in
            let* _ := modify (fun c => c<|cl_rateLimiter := Some l|>) in
            ret (let unavailable :=
                   if cfg.(rl_FailOpen) then None
                   else Some (ELLM (NewRateLimitError "llmux" model "rate limiter backend unavailable")) in
                 match res with
                 | inl _ => unavailable
                 | inr results =>
                     if negb (length results =? length descriptors)%nat then unavailable
                     else match first_exceeded descriptors results with
                          | Some (d, r) => Some (exceeded_error model d r)
                          | None => None
                          end
                 end)
        end
  end.

(** ** Backoff *)

Fixpoint double_backoff (n : nat) (backoff : duration) : duration :=
  match n with
  | O => backoff
  | S n' => let next := wrap64 (backoff * 2) in if next <? backoff then backoff else double_backoff n' next
  end.

Definition cap_backoff (max backoff : duration) : duration := if (0 <? max) && (max <? backoff) then max else backoff.

Definition jittered (jitter draw : f64) (backoff : duration) : duration :=
  let jitter := if fone <.? jitter then fone else jitter in
  let minFactor := fone ⊟ jitter in
  let maxFactor := fone ⊞ jitter in
  let factor := minFactor ⊞ (draw ⊠ (maxFactor ⊟ minFactor)) in
  int_of_f64 (f64_of_Z backoff ⊠ factor).

Definition retryBackoff (attempt : Z) : M duration :=
  let* cfg := gets cl_config in
  if (attempt <=? 0) || (cfg.(RetryBackoff) <=? 0) then ret 0
  else
    let backoff := double_backoff (Z.to_nat (attempt - 1)) cfg.(RetryBackoff) in
    let backoff := cap_backoff cfg.(RetryMaxBackoff) backoff in
    if (fzero <.? cfg.(RetryJitter)) && (0 <? backoff) then
      let* draw := on_env rand_Float64 in
      ret (cap_backoff cfg.(RetryMaxBackoff) (jittered cfg.(RetryJitter) draw backoff))
    else ret backoff.

(** The pause before an attempt: [Some e] when the context ended, with [ctx.Err]. *)
Definition before_attempt (ctx : Ctx) (attempt : Z) : M (option (option go_error)) :=
  if 0 <? attempt then
    let* backoff := retryBackoff attempt in
    if 0 <? backoff then
      let* fired := on_env (wait ctx backoff) in
      let* e := in_env (ctx_Err ctx) in
      ret (if fired then None else Some e)
    else
      let* e := in_env (ctx_Err ctx) in
      ret (match e with Some _ => Some e | None => None end)
  else ret None.

Definition reportFallback (originalModel fallbackModel : string) (err : go_error) (success : bool) : M unit :=
  fun w => (if w.(w_client).(cl_fallbackReporter)
            then w<|w_reports ::= fun l => l ++ [{| fr_originalModel := originalModel; fr_fallbackModel := fallbackModel;
                                                    fr_err := err; fr_success := success |}]|>
            else w, Some tt).

(** ** Permits *)

(** What the release function will release: nothing, or a permit of a provider. *)
Definition permit := option (string * Z).

Definition release (p : permit) : M unit :=
  match p with
  | None => ret tt
  | Some (key, n) => modify (fun c => c<|cl_resilienceManager ::= fun m => (Release key n m).1|>)
  end.

Definition acquireDeployment (ctx : Ctx) (d : Deployment) : M (go_error + permit) :=
  let* e := in_env (ctx_Err ctx) in
  match e with
  | Some e => ret (inl e)
  | None =>
      if d.(MaxConcurrent) <=? 0 then ret (inr None)
      else
        let key := d.(ProviderName) in
        let* m := gets cl_resilienceManager in
        let '(m, sem) := GetSemaphore key d.(MaxConcurrent) m in
        let '(sem, ok) := semTryAcquire sem in
        let* _ := modify (fun c => c<|cl_resilienceManager := m<|semaphores ::= <[key := sem]>|>|>) in
        ret (if ok then inr (Some (key, d.(MaxConcurrent)))
             else inl (ELLM (NewRateLimitError d.(ProviderName) d.(ModelName) "provider concurrency limit reached")))
  end.

(** ** Prices *)

Definition validatePricing (model provider : string) : M (option go_error) :=
  let* pricing := gets cl_pricing in
  ret (match pricing with
       | None => Some (ELLM (NewInternalError provider model "pricing registry unavailable"))
       | Some reg => match GetPrice reg model provider with
                     | None => Some (ELLM (NewInternalError provider model "pricing not configured for model"))
                     | Some _ => None
                     end
       end).

Definition CalculateCost (c : Client) (model : string) (usage : option Usage) : f64 :=
  match usage, c.(cl_pricing) with
  | Some usage, Some reg =>
      match GetPrice reg model usage.(us_Provider) with
      | None => fzero
      | Some price => (f64_of_Z usage.(us_PromptTokens) ⊠ price.(PInputCostPerToken))
                      ⊞ (f64_of_Z usage.(us_CompletionTokens) ⊠ price.(POutputCostPerToken))
      end
  | _, _ => fzero
  end.

(** ** One attempt *)

(** The usage of a response that reports none is estimated. *)
Definition complete_usage (model provider : string) (req : ChatRequest) (resp : ChatResponse) : ChatResponse :=
  let estimated :=
    let promptTokens := EstimatePromptTokens model (Some req) in
    let completionTokens := EstimateCompletionTokens model resp "" in
    {| us_PromptTokens := promptTokens; us_CompletionTokens := completionTokens;
       us_TotalTokens := promptTokens +! completionTokens; us_Provider := "" |} in
  let usage := match resp.(p_Usage) with
               | Some u => if u.(us_TotalTokens) =? 0 then estimated else u
               | None => estimated
               end in
  resp<|p_Usage := Some (if String.eqb usage.(us_Provider) "" then usage<|us_Provider := provider|> else usage)|>.

Definition usage_metrics (latency ttft : duration) (total input output : Z) : ResponseMetrics :=
  {| Latency := latency; TimeToFirstToken := ttft; TotalTokens := total; InputTokens := input; OutputTokens := output;
     MetricsCost := fzero |}.

(** The request is sent, its outcome reported, between [ReportRequestStart] and
    [ReportRequestEnd]. *)
Definition send_once (ctx : Ctx) (prov : Prov) (d : Deployment) (req : ChatRequest) (start : time) (httpReq : HttpRequest) :
  M (result ChatResponse) :=
  let* resp := on_env (http_Do httpReq) in
  match resp with
  | inl err =>
      let* _ := on_router (r_ReportFailure ctx.(c_scope) d err) in
      ret (fail (EWrap "execute request" err))
  | inr resp =>
      let* t := on_env now in
      let latency := time_sub t start in
      if 400 <=? resp.(hr_Status) then
        let body := (ReadLimitedBody resp.(hr_Body) DefaultMaxResponseBodyBytes).1 in
        let llmErr := prov.(MapError) resp.(hr_Status) body in
        let* _ := on_router (r_ReportFailure ctx.(c_scope) d llmErr) in
        ret (fail llmErr)
      else
        match prov.(ParseResponse) resp with
        | inl err =>
            let* _ := on_router (r_ReportFailure ctx.(c_scope) d err) in
            ret (fail (EWrap "parse response" err))
        | inr None => panic
        | inr (Some chatResp) =>
            let canonicalModel := canonical req.(q_Model) in
            let chatResp := complete_usage canonicalModel d.(ProviderName) req (chatResp<|p_Model := req.(q_Model)|>) in
            let metrics := match chatResp.(p_Usage) with
                           | Some u => usage_metrics latency 0 u.(us_TotalTokens) u.(us_PromptTokens) u.(us_CompletionTokens)
                           | None => usage_metrics latency 0 0 0 0
                           end in
            let* _ := on_router (r_ReportSuccess ctx.(c_scope) d metrics) in
            ret (success chatResp)
        end
  end.

Definition executeOnce (ctx : Ctx) (prov : Prov) (d : Deployment) (req : ChatRequest) : M (result ChatResponse) :=
  let ctx := withTenantScope ctx in
  let* start := on_env now in
  let* unpriced := validatePricing (canonical req.(q_Model)) d.(ProviderName) in
  match unpriced with
  | Some err => ret (fail err)
  | None =>
      let* acquired := acquireDeployment ctx d in
      match acquired with
      | inl err => ret (fail err)
      | inr p =>
          let* httpReq := on_env (prov.(BuildRequest) ctx (sanitizeChatRequestForProvider (Some req))) in
          match httpReq with
          | inl err => let* _ := release p in ret (fail (EWrap "build request" err))
          | inr httpReq =>
              let* _ := on_router (r_ReportRequestStart ctx.(c_scope) d) in
              let* res := send_once ctx prov d req start httpReq in
              let* _ := on_router (r_ReportRequestEnd ctx.(c_scope) d) in
              let* _ := release p in
              ret res
          end
      end
  end.

(** ** Retries and fallback *)

Record fallbackAttempt := { fa_originalModel : string; fa_fallbackModel : string; fa_err : go_error }.

Definition report_pending (pending : option fallbackAttempt) (err : fallbackAttempt -> go_error) (success : bool) : M unit :=
  match pending with
  | None => ret tt
  | Some f => reportFallback f.(fa_originalModel) f.(fa_fallbackModel) (err f) success
  end.

Definition retryable (err : go_error) : bool :=
  match type_assert err with Some e => e.(Retryable) | None => true end.

(** Another deployment for the next attempt; the provider stays when the client
    does not know the new one's. *)
Definition fall_back (ctx : Ctx) (req : ChatRequest) (promptTokens : Z) (prov : Prov) (d : Deployment) (err : go_error) :
  M (Prov * Deployment * option fallbackAttempt) :=
  let* picked := pick ctx (buildRouterRequestContext (Some req) promptTokens req.(q_Stream)) in
  match picked with
  | inl _ => ret (prov, d, None)
  | inr newDeployment =>
      if String.eqb newDeployment.(ID) d.(ID) then ret (prov, d, None)
      else
        let* providers := gets cl_providers in
        let prov := default prov (providers !! newDeployment.(ProviderName)) in
        ret (prov, newDeployment,
             Some {| fa_originalModel := req.(q_Model); fa_fallbackModel := newDeployment.(ModelName); fa_err := err |})
  end.

(** The loop; [fuel] is the number of attempts left. *)
Fixpoint retry_loop (fuel : nat) (attempt : Z) (ctx : Ctx) (promptTokens : Z) (prov : Prov) (d : Deployment)
  (req : ChatRequest) (pending : option fallbackAttempt) (lastErr : option go_error) : M (result ChatResponse) :=
  match fuel with
  | O => ret (None, lastErr)
  | S fuel' =>
      let* stop := before_attempt ctx attempt in
      match stop with
      | Some e => ret (None, e)
      | None =>
          let* res := executeOnce ctx prov d req in
          match res with
          | (resp, None) =>
              let* _ := report_pending pending fa_err true in
              ret (resp, None)
          | (_, Some err) =>
              let* _ := report_pending pending (fun _ => err) false in
              if negb (retryable err) then ret (fail err)
              else
                let* cfg := gets cl_config in
                if cfg.(FallbackEnabled) && (attempt <? cfg.(RetryCount)) then
                  let* next := fall_back ctx req promptTokens prov d err in
                  let '(prov, d, pending) := next in
                  retry_loop fuel' (attempt + 1) ctx promptTokens prov d req pending (Some err)
                else retry_loop fuel' (attempt + 1) ctx promptTokens prov d req None (Some err)
          end
      end
  end.

Definition executeWithRetry (ctx : Ctx) (prov : Prov) (d : Deployment) (req : ChatRequest) : M (result ChatResponse) :=
  let* cfg := gets cl_config in
  let promptTokens := EstimatePromptTokens (canonical req.(q_Model)) (Some req) in
  retry_loop (Z.to_nat (cfg.(RetryCount) + 1)) 0 ctx promptTokens prov d req None None.

(** ** The response cache *)

Definition sorted_extra (range : list (string * string)) : list (string * string) :=
  sort_slice_stable (fun a b => String.ltb a.1 b.1) range.

(** [range] is the order in which the map of extra fields is iterated. *)
Definition key_data (ctx : Ctx) (req : ChatRequest) (range : list (string * string)) : KeyData :=
  {| kd_Version := 1;
     kd_TenantID := match authenticated_key ctx with Some k => k.(k_ID) | None => "" end;
     kd_Model := req.(q_Model); kd_Messages := req.(q_Messages); kd_Temperature := req.(q_Temperature);
     kd_TopP := req.(q_TopP); kd_MaxTokens := req.(q_MaxTokens); kd_N := req.(q_N); kd_Stop := req.(q_Stop);
     kd_PresencePenalty := req.(q_PresencePenalty); kd_FrequencyPenalty := req.(q_FrequencyPenalty);
     kd_User := req.(q_User); kd_Tools := req.(q_Tools); kd_ToolChoice := req.(q_ToolChoice);
     kd_ResponseFormat := req.(q_ResponseFormat); kd_StreamOptions := req.(q_StreamOptions); kd_Tags := req.(q_Tags);
     kd_Extra := sorted_extra range |}.

Definition generateCacheKey (ctx : Ctx) (req : ChatRequest) : go_error + string :=
  match marshal_key (key_data ctx req (map_to_list (default ∅ req.(q_Extra)))) with
  | inl err => inl err
  | inr data => inr ("chat:" +:+ sha256_hex data)
  end.

Definition getFromCache (ctx : Ctx) (req : ChatRequest) : M (result ChatResponse) :=
  let* cache := gets cl_cache in
  match cache with
  | None => ret (None, None)
  | Some cache =>
      match generateCacheKey ctx req with
      | inl err => ret (fail err)
      | inr key =>
          let* t := on_env now in
          let '(cache, got) := cache_Get t key cache in
          let* _ := modify (fun c => c<|cl_cache := Some cache|>) in
          ret (match got with
               | inl err => fail err
               | inr None => (None, None)
               | inr (Some data) =>
                   match unmarshal_response data with
                   | inl err => fail err
                   | inr resp => success resp
                   end
               end)
      end
  end.

Definition storeInCache (ctx : Ctx) (req : ChatRequest) (resp : ChatResponse) : M unit :=
  let* cache := gets cl_cache in
  match cache, generateCacheKey ctx req, marshal_response resp with
  | Some cache, inr key, inr data =>
      let* cfg := gets cl_config in
      let* t := on_env now in
      modify (fun c => c<|cl_cache := Some (cache_Set t key data cfg.(CacheTTL) cache).1|>)
  | _, _, _ => ret tt
  end.

(** ** Plug-ins around a request *)

(** A run of hooks on the context of the request and the world of the plug-ins. *)
Definition on_plugins {A : Type} (pCtx : Context) (f : PW -> PW * A) : M (Context * A) :=
  fun w => let '((pCtx, p), a) := f (pCtx, w.(w_plugins)) in (w<|w_plugins := p|>, Some (pCtx, a)).

(** The pool hands out what was put last, or a new context. *)
Definition getContext (ctx : Ctx) : M Context :=
  let* t1 := on_env now in
  let* t2 := on_env now in
  fun w => let pool := w.(w_client).(cl_ctxPool) in
           (w<|w_client ::= fun c => c<|cl_ctxPool := tail pool|>|>,
            Some (GetContext t2 (head pool) (Some ctx) (generateRequestID t1))).

Definition putContext (pCtx : Context) : M unit := modify (fun c => c<|cl_ctxPool ::= cons (PutContext pCtx)|>).

Definition run_post_hooks (pCtx : Context) (resp : option ChatResponse) (err : option go_error) :
  M (Context * result ChatResponse) :=
  let* pl := gets cl_pipeline in
  on_plugins pCtx (fun pw => RunPostHooks pl pw resp err (PluginCount pl)).

(** ** Chat completion *)

(** The checks on a request before anything is done with it. *)
Definition validate_request (req : option ChatRequest) : go_error + ChatRequest :=
  match req with
  | None => inl (EText "request is nil")
  | Some req =>
      if String.eqb req.(q_Model) "" then inl (EText "model is required")
      else if negb (ValidateModelName req.(q_Model)) then inl (model_too_long)
      else if (length req.(q_Messages) =? 0)%nat then inl (EText "messages is required")
      else inr req
  end.

Definition route_error (e : route_err) : go_error :=
  match e with
  | ErrNoAvailableDeployment => EText "no available deployment"
  | ErrNoDeploymentsWithTag => EText "no deployments match the requested tags"
  end.

Definition provider_not_found (d : Deployment) : go_error := EText ("provider " +:+ d.(ProviderName) +:+ " not found").
Definition no_deployment (model : string) (e : route_err) : go_error :=
  EWrap ("no available deployment for model " +:+ model) (route_error e).

Definition route_and_execute (ctx : Ctx) (req : ChatRequest) (promptEstimate : Z) : M (result ChatResponse) :=
  let* picked := pick ctx (buildRouterRequestContext (Some req) promptEstimate req.(q_Stream)) in
  match picked with
  | inl e => ret (fail (no_deployment req.(q_Model) e))
  | inr d =>
      let* providers := gets cl_providers in
      match providers !! d.(ProviderName) with
      | None => ret (fail (provider_not_found d))
      | Some prov => executeWithRetry ctx prov d req
      end
  end.

(** The tokens a request is charged for when it is admitted. *)
Definition estimate_tokens (promptEstimate : Z) (req : ChatRequest) : Z :=
  if 0 <? req.(q_MaxTokens) then promptEstimate +! req.(q_MaxTokens) else promptEstimate.

Definition rate_limited (ctx : Ctx) (model user : string) (tokens : Z) : M (option go_error) :=
  let* cfg := gets cl_rateLimiterConfig in
  checkRateLimit (buildRateLimitKey cfg.(rl_KeyStrategy) model user (rateLimitAPIKey ctx)) (canonical model) tokens.

(** The cached response, when caching applies to the request and there is one. *)
Definition cached_response (ctx : Ctx) (req : ChatRequest) : M (option ChatResponse) :=
  let* cache := gets cl_cache in
  match cache with
  | Some _ =>
      if req.(q_Stream) then ret None
      else
        let* got := getFromCache ctx req in
        ret (match got with (Some resp, None) => Some resp | _ => None end)
  | None => ret None
  end.

(** Second hooks, then the cache gets a successful response. *)
Definition after_provider (ctx : Ctx) (pCtx : Context) (req : ChatRequest) (executed : result ChatResponse) :
  M (Context * result ChatResponse) :=
  let* hooked := run_post_hooks pCtx executed.1 executed.2 in
  let* cache := gets cl_cache in
  let* _ :=
    match hooked.2, cache with
    | (Some resp, None), Some _ => if req.(q_Stream) then ret tt else storeInCache ctx req resp
    | _, _ => ret tt
    end in
  ret hooked.

(** After the first hooks: rate limit, cache, provider, second hooks, cache. *)
Definition complete (ctx : Ctx) (pCtx : Context) (req : ChatRequest) : M (Context * result ChatResponse) :=
  let canonicalModel := canonical req.(q_Model) in
  let promptEstimate := EstimatePromptTokens canonicalModel (Some req) in
  let* limited := rate_limited ctx req.(q_Model) req.(q_User) (estimate_tokens promptEstimate req) in
  match limited with
  | Some err => ret (pCtx, fail err)
  | None =>
      let* cached := cached_response ctx req in
      match cached with
      | Some resp =>
          let* unpriced := validatePricing canonicalModel (match resp.(p_Usage) with Some u => u.(us_Provider) | None => "" end) in
          match unpriced with
          | Some err => ret (pCtx, fail err)
          | None => after_provider ctx pCtx req (success resp)
          end
      | None =>
          let* executed := route_and_execute ctx req promptEstimate in
          after_provider ctx pCtx req executed
      end
  end.

Definition ChatCompletion (ctx : Ctx) (req : option ChatRequest) : M (result ChatResponse) :=
  match validate_request req with
  | inl err => ret (fail err)
  | inr req =>
      let* pCtx := getContext ctx in
      let* pl := gets cl_pipeline in
      let* hooked := on_plugins pCtx (fun pw => RunPreHooks pl pw (Some req)) in
      let '(pCtx, (req, sc, _)) := hooked in
      let continue :=
        match req with
        | None => panic
        | Some req => complete ctx pCtx req
        end in
      let* out :=
        match sc with
        | None => continue
        | Some sc =>
            match sc.(sc_Error), sc.(sc_Response) with
            | Some err, _ => ret (pCtx, fail err)
            | None, Some resp =>
                let* final := run_post_hooks pCtx (Some resp) None in
                ret (final.1, (final.2.1, None))
            | None, None => continue
            end
        end in
      let* _ := putContext out.1 in
      ret out.2
  end.

(** ** Embeddings *)

Definition complete_embedding_usage (promptEstimate : Z) (provider : string) (u : Usage) : Usage :=
  let u := if (u.(us_TotalTokens) =? 0) && (u.(us_PromptTokens) =? 0)
           then u<|us_PromptTokens := promptEstimate|><|us_TotalTokens := promptEstimate|>
           else if (u.(us_TotalTokens) =? 0) && (0 <? u.(us_PromptTokens)) then u<|us_TotalTokens := u.(us_PromptTokens)|>
           else if (u.(us_PromptTokens) =? 0) && (0 <? u.(us_TotalTokens)) then u<|us_PromptTokens := u.(us_TotalTokens)|>
           else u in
  if String.eqb u.(us_Provider) "" then u<|us_Provider := provider|> else u.

Definition send_embedding (ctx : Ctx) (prov : Prov) (d : Deployment) (promptEstimate : Z) (start : time) (httpReq : HttpRequest) :
  M (result EmbeddingResponse) :=
  let* resp := on_env (http_Do httpReq) in
  match resp with
  | inl err =>
      let* _ := on_router (r_ReportFailure ctx.(c_scope) d err) in
      ret (fail (EWrap "execute request" err))
  | inr resp =>
      let* t := on_env now in
      let latency := time_sub t start in
      if 400 <=? resp.(hr_Status) then
        let body := (ReadLimitedBody resp.(hr_Body) DefaultMaxResponseBodyBytes).1 in
        let llmErr := prov.(MapError) resp.(hr_Status) body in
        let* _ := on_router (r_ReportFailure ctx.(c_scope) d llmErr) in
        ret (fail llmErr)
      else
        match prov.(ParseEmbeddingResponse) resp with
        | inl err =>
            let* _ := on_router (r_ReportFailure ctx.(c_scope) d err) in
            ret (fail (EWrap "parse response" err))
        | inr None => panic
        | inr (Some embResp) =>
            let embResp := embResp<|ep_Usage ::= complete_embedding_usage promptEstimate d.(ProviderName)|> in
            let u := embResp.(ep_Usage) in
            let metrics := if 0 <? u.(us_TotalTokens) then usage_metrics latency 0 u.(us_TotalTokens) u.(us_PromptTokens) 0
                           else usage_metrics latency 0 0 0 0 in
            let* _ := on_router (r_ReportSuccess ctx.(c_scope) d metrics) in
            ret (success embResp)
        end
  end.

Definition executeEmbeddingOnce (ctx : Ctx) (prov : Prov) (d : Deployment) (req : EmbeddingRequest) (promptEstimate : Z) :
  M (result EmbeddingResponse) :=
  let ctx := withTenantScope ctx in
  let* start := on_env now in
  let* unpriced := validatePricing req.(er_Model) d.(ProviderName) in
  match unpriced with
  | Some err => ret (fail err)
  | None =>
      let* acquired := acquireDeployment ctx d in
      match acquired with
      | inl err => ret (fail err)
      | inr p =>
          let* httpReq := on_env (prov.(BuildEmbeddingRequest) ctx req) in
          match httpReq with
          | inl err => let* _ := release p in ret (fail (EWrap "build request" err))
          | inr httpReq =>
              let* _ := on_router (r_ReportRequestStart ctx.(c_scope) d) in
              let* res := send_embedding ctx prov d promptEstimate start httpReq in
              let* _ := on_router (r_ReportRequestEnd ctx.(c_scope) d) in
              let* _ := release p in
              ret res
          end
      end
  end.

(** The deployment of an attempt: the first attempt, fallback, and a client that
    has none yet ask the router.  [None] when the router has none. *)
Definition choose_deployment (ctx : Ctx) (reqCtx : RequestContext) (model : string) (attempt : Z) (d : option Deployment)
  (lastErr : option go_error) : M (go_error + Deployment * option fallbackAttempt) :=
  let* cfg := gets cl_config in
  match d with
  | Some d =>
      if negb ((attempt =? 0) || cfg.(FallbackEnabled)) then ret (inr (d, None))
      else
        let* picked := pick ctx reqCtx in
        ret (match picked with
             | inl e => inl (no_deployment model e)
             | inr d' =>
                 inr (d', match lastErr with
                          | Some err => if String.eqb d'.(ID) d.(ID) then None
                                        else Some {| fa_originalModel := model; fa_fallbackModel := d'.(ModelName); fa_err := err |}
                          | None => None
                          end)
             end)
  | None =>
      let* picked := pick ctx reqCtx in
      ret (match picked with inl e => inl (no_deployment model e) | inr d' => inr (d', None) end)
  end.

(** An attempt of [Embedding]: the response, or the error and whether to go on. *)
Definition embedding_attempt (ctx : Ctx) (req : EmbeddingRequest) (promptEstimate : Z) (d : Deployment)
  (pending : option fallbackAttempt) : M (result EmbeddingResponse * bool) :=
  let* providers := gets cl_providers in
  match providers !! d.(ProviderName) with
  | None =>
      let err := provider_not_found d in
      let* _ := report_pending pending (fun _ => err) false in
      ret (fail err, true)
  | Some prov =>
      if negb prov.(SupportEmbedding) then
        let err := EText ("provider " +:+ d.(ProviderName) +:+ " does not support embeddings") in
        let* _ := report_pending pending (fun _ => err) false in
        ret (fail err, true)
      else
        let* res := executeEmbeddingOnce ctx prov d (req<|er_Model := canonical req.(er_Model)|>) promptEstimate in
        match res with
        | (resp, None) =>
            let* _ := report_pending pending fa_err true in
            ret ((option_map (fun r => r<|ep_Model := req.(er_Model)|>) resp, None), false)
        | (_, Some err) =>
            let* _ := report_pending pending (fun _ => err) false in
            ret (fail err, retryable err)
        end
  end.

Fixpoint embedding_loop (fuel : nat) (attempt : Z) (ctx : Ctx) (req : EmbeddingRequest) (promptEstimate : Z)
  (d : option Deployment) (lastErr : option go_error) : M (result EmbeddingResponse) :=
  match fuel with
  | O => ret (None, Some (default (EText "max retries exceeded") lastErr))
  | S fuel' =>
      let* stop := before_attempt ctx attempt in
      match stop with
      | Some e => ret (None, e)
      | None =>
          let* chosen := choose_deployment ctx (modelContext req.(er_Model)) req.(er_Model) attempt d lastErr in
          match chosen with
          | inl err => embedding_loop fuel' (attempt + 1) ctx req promptEstimate d (Some err)
          | inr (d', pending) =>
              let* tried := embedding_attempt ctx req promptEstimate d' pending in
              match tried with
              | ((_, Some err), true) => embedding_loop fuel' (attempt + 1) ctx req promptEstimate (Some d') (Some err)
              | (res, _) => ret res
              end
          end
      end
  end.

Definition Embedding (ctx : Ctx) (req : option EmbeddingRequest) : M (result EmbeddingResponse) :=
  match req with
  | None => ret (fail (EText "request is nil"))
  | Some req =>
      if String.eqb req.(er_Model) "" then ret (fail (EText "model is required"))
      else match EmbeddingRequest_Validate req with
      | Some err => ret (fail (EWrap "invalid request" err))
      | None =>
          let promptEstimate := EstimateEmbeddingTokens (canonical req.(er_Model)) req in
          let* limited := rate_limited ctx req.(er_Model) req.(er_User) promptEstimate in
          match limited with
          | Some err => ret (fail err)
          | None =>
              let* cfg := gets cl_config in
              embedding_loop (Z.to_nat (cfg.(RetryCount) + 1)) 0 ctx req promptEstimate None None
          end
      end
  end.

(** ** Providers at run time *)

Definition new_deployment (name : string) (maxConcurrent : Z) (model : string) : Deployment :=
  {| ID := name +:+ "-" +:+ model; ProviderName := name; ModelName := model; ModelAlias := ""; BaseURL := "";
     MaxConcurrent := maxConcurrent |}.

(** [routed] is whether the client has a router yet. *)
Definition addProviderInstanceWithConfig (routed : bool) (name : string) (prov : Prov) (models : list string)
  (maxConcurrent : Z) (c : Client) : Client :=
  let c := c<|cl_providers ::= <[name := prov]>|> in
  let c := if 0 <? maxConcurrent then c<|cl_resilienceManager ::= SetSemaphore name maxConcurrent|> else c in
  foldl (fun c model =>
    let d := new_deployment name maxConcurrent model in
    let c := c<|cl_deployments ::= append_at model d|> in
    if routed then c<|cl_router ::= r_AddDeployment d|> else c) c models.

Definition AddProvider (name : string) (prov : Prov) (models : list string) (c : Client) : Client * option go_error :=
  if bool_decide (is_Some (c.(cl_providers) !! name))
  then (c, Some (EText ("provider " +:+ name +:+ " already exists")))
  else (addProviderInstanceWithConfig true name prov models 0 c, None).

(** The deployments of the provider leave the router; a model left without
    deployments leaves the table. *)
Definition owned_by (name : string) (d : Deployment) : bool := String.eqb d.(ProviderName) name.

Definition without_provider (name : string) (ds : list Deployment) : option (list Deployment) :=
  match keep (fun d => negb (owned_by name d)) ds with
  | [] => None
  | remaining => Some remaining
  end.

Definition RemoveProvider (name : string) (c : Client) : Client * option go_error :=
  match c.(cl_providers) !! name with
  | None => (c, Some (EText ("provider " +:+ name +:+ " not found")))
  | Some _ =>
      let removed := keep (owned_by name) (concat (map_to_list c.(cl_deployments)).*2) in
      (c<|cl_router ::= fun rt => foldl (fun rt d => r_RemoveDeployment d.(ID) rt) rt removed|>
        <|cl_deployments ::= omap (without_provider name)|>
        <|cl_providers ::= delete name|>, None)
  end.

Definition GetProvider (name : string) (c : Client) : option Prov := c.(cl_providers) !! name.

(** The order of the two listings is that of the maps. *)
Definition GetProviders (c : Client) : list string := (map_to_list c.(cl_providers)).*1.
Definition ListDeployments (c : Client) : list Deployment := concat (map_to_list c.(cl_deployments)).*2.

(** [ListModels]: each model once, with the first provider that has it. *)
Definition add_models (acc : list (string * string) * gset string) (prov : Prov) : list (string * string) * gset string :=
  foldl (fun '(models, seen) m => if decide (m ∈ seen) then (models, seen) else (models ++ [(m, prov.(prov_Name))], {[ m ]} ∪ seen))
    acc prov.(SupportedModels).

Definition ListModels (c : Client) : list (string * string) := (foldl add_models ([], ∅) (map_to_list c.(cl_providers)).*2).1.

(** [Close]: the plug-ins are shut down. *)
Definition Close : M unit :=
  fun w => let '(pl, pw, _) := Shutdown w.(w_client).(cl_pipeline) (pool_New, w.(w_plugins)) in
           (w<|w_client ::= fun c => c<|cl_pipeline := pl|>|><|w_plugins := pw.2|>, Some tt).
End Client.

Notation "'let*' x := m 'in' k" := (bind m (fun x => k)) (at level 10, x pattern, m at level 100, k at level 200).
