(* ===== verification/Stream.v ===== *)
(** * Streaming ([stream.go], [ChatCompletionStream] of [client.go])

    A stream reader takes the lines of a response, hands out the chunks they hold
    and, when the connection breaks, opens another one and goes on.  The body of a
    response is the bytes it will deliver with the error that ends it, so a
    scanner is what is left of it.

    The reader is used by one goroutine: [Recv] gives its mutex up while it recovers,
    and another [Recv] or a [Close] that comes in between is not modelled. *)
From Stdlib Require Import Ascii.
From S2P Require Import Prelude Float64 Errors ModelName Utf8 RouterTypes BaseRouter Strategies Semaphore ResilienceManager RedisLimiter AuthTypes PluginPipeline ClientTypes Client.

#[local] Abbreviation explode := String.list_ascii_of_string.
#[local] Abbreviation implode := String.string_of_list_ascii.
#[local] Abbreviation result A := (option A * option go_error)%type.

Definition io_EOF : go_error := EText "EOF".
Definition io_ErrUnexpectedEOF : go_error := EText "unexpected EOF".
Definition ErrTooLong : go_error := EText "bufio.Scanner: token too long".

(** ** [bufio.Scanner] over lines

    A line must fit the buffer of 256 KiB.  The bytes after the last line break
    are a line too, also when an error ends the body. *)
Record scanner := { sn_pending : list ascii; sn_error : option go_error }.

Definition maxTokenSize : nat := 256 * 1024.

Definition NewScanner (b : Body) : scanner := {| sn_pending := explode b.(body_bytes); sn_error := b.(body_error) |}.

(** The bytes before the first line break and those after it. *)
Fixpoint cut_line (l : list ascii) : list ascii * list ascii :=
  match l with
  | [] => ([], [])
  | c :: l' => if Ascii.eqb c "010" then ([], l') else let '(a, b) := cut_line l' in (c :: a, b)
  end.

Definition dropCR (l : list ascii) : list ascii :=
  match reverse l with
  | c :: r => if Ascii.eqb c "013" then reverse r else l
  | [] => l
  end.

Inductive scanned := Line (line : string) (rest : scanner) | Stop (err : option go_error).

Definition Scan (s : scanner) : scanned :=
  match s.(sn_pending) with
  | [] => Stop s.(sn_error)
  | l =>
      let '(line, rest) := cut_line l in
      if (length line <? maxTokenSize)%nat then Line (implode (dropCR line)) {| sn_pending := rest; sn_error := s.(sn_error) |}
      else Stop (Some ErrTooLong)
  end.

(** ** Skipping what was delivered already *)

(** The loop over the runes: the suffix from the first rune not counted. *)
Fixpoint trim_loop (fuel : nat) (seen count : Z) (value : list ascii) : list ascii * Z :=
  match fuel, value with
  | S fuel', _ :: _ =>
      if seen =? count then (value, 0) else trim_loop fuel' (seen + 1) count (drop (rune_width value) value)
  | _, _ => ([], count - seen)
  end.

Definition trimLeadingRunes (value : list ascii) (count : Z) : list ascii * Z :=
  if (count <=? 0) || (length value =? 0)%nat then (value, count) else trim_loop (length value) 0 count value.

Section Stream.
Context {E HttpRequest RT P L C : Type}.
Context `{!Network E HttpRequest} `{!RouterI RT} `{!DistributedLimiter L} `{!CacheI C} `{!Tokenizer} `{!Codec}.

#[local] Abbreviation Prov := (Provider E HttpRequest).
#[local] Abbreviation M := (@M E HttpRequest RT P L C).

(** A reader over a response has a provider and a deployment; a reader over the
    channel of a plug-in has neither. *)
Record StreamReader := {
  s_scanner : scanner;
  s_provider : option Prov;
  s_deployment : option Deployment;
  s_closed : bool;
  s_firstChunk : bool;
  s_startTime : time;
  s_ttft : duration;
  s_ctx : Ctx;
  s_originalReq : ChatRequest;
  s_accumulated : list ascii;
  s_accumulatedRunes : Z;
  s_retryCount : Z;
  s_maxRetries : Z;
  s_recoveryMode : string;
  s_skipRemaining : Z;
  s_seenDone : bool;
  s_requestEnded : bool;
  s_pluginStream : option (list (option StreamChunk));
  s_pluginCtx : option Context;
  s_streamRunFrom : Z;
  s_postHooksRun : bool;
  s_release : permit;
}.

#[local] Abbreviation R A := (StreamReader -> M (StreamReader * A)%type).

Definition newStreamReader (start : time) (cfg : ClientConfig) (ctx : Ctx) (req : ChatRequest) (body : Body) (prov : Prov)
  (d : Deployment) (pCtx : Context) (runFrom : Z) (p : permit) : StreamReader :=
  {| s_scanner := NewScanner body; s_provider := Some prov; s_deployment := Some d; s_closed := false; s_firstChunk := true;
     s_startTime := start; s_ttft := 0; s_ctx := ctx; s_originalReq := req; s_accumulated := []; s_accumulatedRunes := 0;
     s_retryCount := 0; s_maxRetries := cfg.(RetryCount); s_recoveryMode := cfg.(StreamRecoveryMode); s_skipRemaining := 0;
     s_seenDone := false; s_requestEnded := false; s_pluginStream := None; s_pluginCtx := Some pCtx; s_streamRunFrom := runFrom;
     s_postHooksRun := false; s_release := p |}.

Definition newStreamReaderFromChannel (start : time) (cfg : ClientConfig) (ctx : Ctx) (req : ChatRequest)
  (stream : list (option StreamChunk)) (pCtx : Context) (runFrom : Z) : StreamReader :=
  {| s_scanner := {| sn_pending := []; sn_error := None |}; s_provider := None; s_deployment := None; s_closed := false;
     s_firstChunk := true; s_startTime := start; s_ttft := 0; s_ctx := ctx; s_originalReq := req; s_accumulated := [];
     s_accumulatedRunes := 0; s_retryCount := 0; s_maxRetries := cfg.(RetryCount); s_recoveryMode := cfg.(StreamRecoveryMode);
     s_skipRemaining := 0; s_seenDone := false; s_requestEnded := false; s_pluginStream := Some stream;
     s_pluginCtx := Some pCtx; s_streamRunFrom := runFrom; s_postHooksRun := false; s_release := None |}.

(** ** Accumulated text *)

(** Bytes are dropped from the front until the rest is valid. *)
Fixpoint drop_invalid (l : list ascii) : list ascii :=
  match l with
  | [] => []
  | _ :: l' => if ValidString l then l else drop_invalid l'
  end.

Definition appendAccumulatedLocked (maxBytes : Z) (content : string) (s : StreamReader) : StreamReader :=
  if String.eqb content "" then s
  else
    let s := s<|s_accumulatedRunes ::= fun n => n + RuneCount (explode content)|> in
    let value := s.(s_accumulated) ++ explode content in
    let size := Z.of_nat (length value) in
    s<|s_accumulated :=
      if (maxBytes <=? 0) || (size <=? maxBytes) then value
      else drop_invalid (drop (Z.to_nat (size - maxBytes)) value)|>.

(** ** The end of a request *)

Definition on_deployment (f : context -> Deployment -> RT -> RT) (s : StreamReader) : M unit :=
  match s.(s_deployment) with
  | Some d => on_router (f s.(s_ctx).(c_scope) d)
  | None => ret tt
  end.

Definition endRequest : R unit := fun s =>
  if s.(s_requestEnded) then ret (s, tt)
  else
    let* _ := on_deployment r_ReportRequestEnd s in
    let* _ := release s.(s_release) in
    ret (s<|s_release := None|><|s_requestEnded := true|>, tt).

Definition closeBody (s : StreamReader) : StreamReader := s<|s_closed := true|>.

Definition close : R unit := fun s =>
  if s.(s_closed) then ret (s, tt)
  else
    let* ended := endRequest s in
    ret (closeBody ended.1, tt).

Definition finalizeStreamLocked (err : option go_error) : R unit := fun s =>
  if s.(s_postHooksRun) then ret (s, tt)
  else
    let s := s<|s_postHooksRun := true|> in
    match s.(s_pluginCtx) with
    | None => ret (s, tt)
    | Some pCtx =>
        let* pl := gets cl_pipeline in
        let* hooked := on_plugins pCtx (fun pw => RunStreamPostHooks pl pw err s.(s_streamRunFrom)) in
        let* _ := putContext hooked.1 in
        ret (s<|s_pluginCtx := None|>, tt)
    end.

Definition finish : R unit := fun s =>
  if s.(s_closed) then ret (s, tt)
  else
    let* t := on_env now in
    let latency := time_sub t s.(s_startTime) in
    let model := s.(s_originalReq).(q_Model) in
    let promptTokens := EstimatePromptTokens model (Some s.(s_originalReq)) in
    let completionTokens := EstimateCompletionTokensFromText model (implode s.(s_accumulated)) in
    let metrics := usage_metrics latency s.(s_ttft) (promptTokens +! completionTokens) promptTokens completionTokens in
    let* _ := on_deployment (fun ctx d => r_ReportSuccess ctx d metrics) s in
    let* finalized := finalizeStreamLocked None s in
    close finalized.1.

Definition reportFailure (err : go_error) (s : StreamReader) : M unit := on_deployment (fun ctx d => r_ReportFailure ctx d err) s.

(** ** Chunks *)

Definition applyStreamPluginsLocked (chunk : StreamChunk) : R (option StreamChunk) := fun s =>
  match s.(s_pluginCtx) with
  | None => ret (s, Some chunk)
  | Some pCtx =>
      let* pl := gets cl_pipeline in
      let* out := on_plugins pCtx (fun pw => RunOnStreamChunk pl pw (Some chunk)) in
      ret (s<|s_pluginCtx := Some out.1|>, out.2.1)
  end.

(** The time of the first chunk, and the text of the first choice. *)
Definition note_chunk (chunk : StreamChunk) : R unit := fun s =>
  let* s := (if s.(s_firstChunk)
             then let* t := on_env now in
                  ret (s<|s_ttft := time_sub t s.(s_startTime)|><|s_firstChunk := false|>)
             else ret s) in
  let* cfg := gets cl_config in
  ret (match chunk.(k_Choices) with
       | choice :: _ => appendAccumulatedLocked cfg.(StreamRecoveryMaxAccumulatedBytes) choice.(sc_Delta).(dl_Content) s
       | [] => s
       end, tt).

(** What is left of a chunk of the repeated stream; [None] when nothing is. *)
Definition skip_delivered (chunk : StreamChunk) (s : StreamReader) : StreamReader * option StreamChunk :=
  match chunk.(k_Choices) with
  | choice :: choices =>
      if String.eqb s.(s_recoveryMode) StreamRecoveryRetry && (0 <? s.(s_skipRemaining)) then
        let delta := choice.(sc_Delta) in
        let '(s, delta) :=
          if String.eqb delta.(dl_Content) "" then (s, delta)
          else
            let '(trimmed, remaining) := trimLeadingRunes (explode delta.(dl_Content)) s.(s_skipRemaining) in
            (s<|s_skipRemaining := remaining|>, delta<|dl_Content := implode trimmed|>) in
        if String.eqb delta.(dl_Content) "" && String.eqb delta.(dl_Role) "" && (length delta.(dl_ToolCalls) =? 0)%nat
        then (s, None)
        else (s, Some (chunk<|k_Choices := choice<|sc_Delta := delta|> :: choices|>))
      else (s, Some chunk)
  | [] => (s, Some chunk)
  end.

(** How the loop over the lines ends: with a chunk, at the end marker, or when
    the scanner stops. *)
Inductive lines_end := GotChunk (chunk : StreamChunk) | SawDone | ScanStopped (err : option go_error).

Definition is_done (line : string) : bool := String.eqb line "data: [DONE]" || String.eqb line "[DONE]".

(** Every line takes a byte at least, so the bytes that are left are enough fuel. *)
Fixpoint recv_lines (fuel : nat) (s : StreamReader) : M (StreamReader * lines_end) :=
  match fuel with
  | O => ret (s, ScanStopped s.(s_scanner).(sn_error))
  | S fuel' =>
      match Scan s.(s_scanner) with
      | Stop err => ret (s, ScanStopped err)
      | Line line rest =>
          let s := s<|s_scanner := rest|> in
          let trimmed := TrimSpace line in
          if String.eqb trimmed "" then recv_lines fuel' s
          else if is_done trimmed then
            let* finished := finish (s<|s_seenDone := true|>) in
            ret (finished.1, SawDone)
          else match s.(s_provider) with
          | None => panic
          | Some prov =>
              match prov.(ParseStreamChunk) trimmed with
              | inl _ | inr None => recv_lines fuel' s
              | inr (Some chunk) =>
                  let '(s, remains) := skip_delivered chunk s in
                  match remains with
                  | None => recv_lines fuel' s
                  | Some chunk =>
                      let* out := applyStreamPluginsLocked chunk s in
                      match out with
                      | (s, None) => recv_lines fuel' s
                      | (s, Some chunk) =>
                          let* noted := note_chunk chunk s in
                          ret (noted.1, GotChunk chunk)
                      end
                  end
              end
          end
      end
  end.

Fixpoint recv_channel (chunks : list (option StreamChunk)) (s : StreamReader) : M (StreamReader * result StreamChunk) :=
  match chunks with
  | [] =>
      let* finished := finish (s<|s_pluginStream := Some []|><|s_seenDone := true|>) in
      ret (finished.1, fail io_EOF)
  | None :: chunks' => recv_channel chunks' s
  | Some chunk :: chunks' =>
      let* out := applyStreamPluginsLocked chunk (s<|s_pluginStream := Some chunks'|>) in
      match out with
      | (s, None) => recv_channel chunks' s
      | (s, Some chunk) =>
          let* noted := note_chunk chunk s in
          ret (noted.1, success chunk)
      end
  end.

(** ** Recovery *)

Definition canRecover (s : StreamReader) : M bool :=
  let* e := in_env (ctx_Err s.(s_ctx)) in
  ret (negb (String.eqb s.(s_recoveryMode) StreamRecoveryOff) && (s.(s_retryCount) <? s.(s_maxRetries))
       && match e with Some _ => false | None => true end).

(** The request of a recovery: with what was received as an answer begun, in
    append mode. *)
Definition recovery_request (s : StreamReader) : ChatRequest :=
  let req := s.(s_originalReq) in
  if String.eqb s.(s_recoveryMode) StreamRecoveryAppend && negb (length s.(s_accumulated) =? 0)%nat
  then req<|q_Messages ::= fun ms => ms ++ [{| m_Role := "assistant"; m_Content := marshal_string (implode s.(s_accumulated));
                                               m_Name := ""; m_ToolCalls := []; m_ToolCallID := "" |}]|>
  else req.

(** The old request ends; the count of retries and of runes to skip are set. *)
Definition begin_recovery : R unit := fun s =>
  let* ended := endRequest s in
  let s := ended.1 in
  ret ((closeBody s)<|s_closed := false|><|s_retryCount ::= fun n => n + 1|>
         <|s_skipRemaining := if String.eqb s.(s_recoveryMode) StreamRecoveryRetry then s.(s_accumulatedRunes)
                              else s.(s_skipRemaining)|>, tt).

(** A request that was sent and failed. *)
Definition recovery_failed (d : Deployment) (p : permit) (err : go_error) : R unit := fun s =>
  let* _ := release p in
  let* _ := on_router (r_ReportFailure s.(s_ctx).(c_scope) d err) in
  let* _ := on_router (r_ReportRequestEnd s.(s_ctx).(c_scope) d) in
  ret (s<|s_requestEnded := true|><|s_release := None|>, tt).

(** [tryRecover] up to the new connection: [None] when there is one.  An ended
    context has an error. *)
Definition reconnect : R (option go_error) := fun s =>
  let* begun := begin_recovery s in
  let s := begun.1 in
  let* backoff := retryBackoff s.(s_retryCount) in
  let* fired := (if 0 <? backoff then on_env (wait s.(s_ctx) backoff) else ret true) in
  if negb fired then
    let* e := in_env (ctx_Err s.(s_ctx)) in
    ret (s, Some (default io_EOF e))
  else
    let newReq := recovery_request s in
    let promptTokens := EstimatePromptTokens newReq.(q_Model) (Some newReq) in
    let* picked := pick s.(s_ctx) (buildRouterRequestContext (Some newReq) promptTokens true) in
    match picked with
    | inl e => ret (s, Some (EWrap "recovery pick failed" (route_error e)))
    | inr d =>
        let* providers := gets cl_providers in
        match providers !! d.(ProviderName) with
        | None => ret (s, Some (EText "recovery provider not found"))
        | Some prov =>
            let* httpReq := on_env (prov.(BuildRequest) s.(s_ctx) (sanitizeChatRequestForProvider (Some newReq))) in
            match httpReq with
            | inl err => ret (s, Some (EWrap "recovery build request failed" err))
            | inr httpReq =>
                let* acquired := acquireDeployment s.(s_ctx) d in
                match acquired with
                | inl err => ret (s, Some err)
                | inr p =>
                    let* _ := on_router (r_ReportRequestStart s.(s_ctx).(c_scope) d) in
                    let s := s<|s_requestEnded := false|><|s_release := p|> in
                    let* resp := on_env (stream_Do httpReq) in
                    match resp with
                    | inl err =>
                        let* failed := recovery_failed d p err s in
                        ret (failed.1, Some (EWrap "recovery execute failed" err))
                    | inr resp =>
                        if 400 <=? resp.(hr_Status) then
                          let body := (ReadLimitedBody resp.(hr_Body) DefaultMaxResponseBodyBytes).1 in
                          let llmErr := prov.(MapError) resp.(hr_Status) body in
                          let* failed := recovery_failed d p llmErr s in
                          ret (failed.1, Some (EWrap "recovery api error" llmErr))
                        else
                          ret (s<|s_scanner := NewScanner resp.(hr_Body)|><|s_provider := Some prov|><|s_deployment := Some d|>
                                <|s_pluginCtx ::= fmap (fun c => c<|x_Provider := d.(ProviderName)|>)|>, None)
                    end
                end
            end
        end
    end.

(** A call of [Recv], where [broken] says what to do when the connection breaks. *)
Definition recv_with (broken : go_error -> R (result StreamChunk)) : R (result StreamChunk) := fun s =>
  if s.(s_closed) then ret (s, fail io_EOF)
  else match s.(s_pluginStream) with
  | Some chunks => recv_channel chunks s
  | None =>
      let* out := recv_lines (S (length s.(s_scanner).(sn_pending))) s in
      match out with
      | (s, GotChunk chunk) => ret (s, success chunk)
      | (s, SawDone) => ret (s, fail io_EOF)
      | (s, ScanStopped (Some err)) =>
          let* _ := reportFailure err s in broken err s
      | (s, ScanStopped None) =>
          if negb s.(s_seenDone) then
            let* _ := reportFailure io_ErrUnexpectedEOF s in broken io_ErrUnexpectedEOF s
          else
            let* finished := finish s in ret (finished.1, fail io_EOF)
      end
  end.

(** No recovery, or none left. *)
Definition end_broken (err : go_error) : R (result StreamChunk) := fun s =>
  let* finalized := finalizeStreamLocked (Some err) s in
  let* closed := close finalized.1 in
  ret (closed.1, fail err).

(** The loop of recoveries; each one counts, so the retries that are left are
    enough fuel. *)
Fixpoint recover (fuel : nat) (err : go_error) (s : StreamReader) : M (StreamReader * result StreamChunk) :=
  match fuel with
  | O => end_broken err s
  | S fuel' =>
      let* can := canRecover s in
      if negb can then end_broken err s
      else
        let* reconnected := reconnect s in
        match reconnected with
        | (s, Some _) => recover fuel' err s
        | (s, None) =>
            let* got := recv_with (recover fuel') s in
            match got with
            | (s, (chunk, None)) => ret (s, (chunk, None))
            | (s, (_, Some _)) => recover fuel' err s
            end
        end
  end.

Definition retries_left (s : StreamReader) : nat := Z.to_nat (s.(s_maxRetries) - s.(s_retryCount)).

Definition Recv : R (result StreamChunk) := fun s => recv_with (recover (retries_left s)) s.

Definition stream_Close : R unit := fun s =>
  let* e := in_env (ctx_Err s.(s_ctx)) in
  let streamErr := match e with
                   | Some _ => e
                   | None => if s.(s_seenDone) then None else Some io_ErrUnexpectedEOF
                   end in
  let* finalized := finalizeStreamLocked streamErr s in
  close finalized.1.

Definition TTFT (s : StreamReader) : duration := s.(s_ttft).

(** ** Opening a stream *)

(** An attempt ends with a reader, with an error after which another attempt is
    made, or with one that is final. *)
Inductive attempt_end := Opened (s : StreamReader) | TryAgain (err : go_error) | Final (err : go_error).

Definition retryable_status (status : Z) (err : go_error) : bool :=
  (500 <=? status) || match type_assert err with Some e => e.(Retryable) | None => false end.

(** A request that was sent and failed. *)
Definition attempt_failed (ctx : Ctx) (d : Deployment) (p : permit) (pending : option fallbackAttempt) (err : go_error) : M unit :=
  let* _ := release p in
  let* _ := on_router (r_ReportFailure ctx.(c_scope) d err) in
  let* _ := on_router (r_ReportRequestEnd ctx.(c_scope) d) in
  report_pending pending (fun _ => err) false.

Definition stream_attempt (ctx : Ctx) (req : ChatRequest) (pCtx : Context) (runFrom : Z) (d : Deployment)
  (pending : option fallbackAttempt) : M attempt_end :=
  let* providers := gets cl_providers in
  match providers !! d.(ProviderName) with
  | None =>
      let err := provider_not_found d in
      let* _ := report_pending pending (fun _ => err) false in ret (TryAgain err)
  | Some prov =>
      let* unpriced := validatePricing req.(q_Model) d.(ProviderName) in
      match unpriced with
      | Some err => let* _ := report_pending pending (fun _ => err) false in ret (Final err)
      | None =>
          let* acquired := acquireDeployment ctx d in
          match acquired with
          | inl err => let* _ := report_pending pending (fun _ => err) false in ret (TryAgain err)
          | inr p =>
              let* httpReq := on_env (prov.(BuildRequest) ctx (sanitizeChatRequestForProvider (Some req))) in
              match httpReq with
              | inl err =>
                  let* _ := release p in
                  let* _ := report_pending pending (fun _ => err) false in
                  ret (Final (EWrap "build request" err))
              | inr httpReq =>
                  let* _ := on_router (r_ReportRequestStart ctx.(c_scope) d) in
                  let* resp := on_env (stream_Do httpReq) in
                  match resp with
                  | inl err =>
                      let* _ := attempt_failed ctx d p pending err in ret (TryAgain (EWrap "execute request" err))
                  | inr resp =>
                      if 400 <=? resp.(hr_Status) then
                        let body := (ReadLimitedBody resp.(hr_Body) DefaultMaxResponseBodyBytes).1 in
                        let llmErr := prov.(MapError) resp.(hr_Status) body in
                        let* _ := attempt_failed ctx d p pending llmErr in
                        ret (if retryable_status resp.(hr_Status) llmErr then TryAgain llmErr else Final llmErr)
                      else
                        let* _ := report_pending pending fa_err true in
                        let* t := on_env now in
                        let* cfg := gets cl_config in
                        ret (Opened (newStreamReader t cfg ctx req resp.(hr_Body) prov d
                                       (pCtx<|x_Provider := d.(ProviderName)|>) runFrom p))
                  end
              end
          end
      end
  end.

Fixpoint stream_loop (fuel : nat) (attempt : Z) (ctx : Ctx) (req : ChatRequest) (promptEstimate : Z) (pCtx : Context) (runFrom : Z)
  (d : option Deployment) (lastErr : option go_error) : M (result StreamReader) :=
  match fuel with
  | O => let* _ := putContext pCtx in ret (None, Some (default (EText "max retries exceeded") lastErr))
  | S fuel' =>
      let* stop := before_attempt ctx attempt in
      match stop with
      | Some e => let* _ := putContext pCtx in ret (None, e)
      | None =>
          let reqCtx := buildRouterRequestContext (Some req) promptEstimate true in
          let* chosen := choose_deployment ctx reqCtx req.(q_Model) attempt d lastErr in
          match chosen with
          | inl err => stream_loop fuel' (attempt + 1) ctx req promptEstimate pCtx runFrom d (Some err)
          | inr (d', pending) =>
              let* tried := stream_attempt ctx req pCtx runFrom d' pending in
              match tried with
              | Opened s => ret (success s)
              | TryAgain err => stream_loop fuel' (attempt + 1) ctx req promptEstimate pCtx runFrom (Some d') (Some err)
              | Final err => let* _ := putContext pCtx in ret (fail err)
              end
          end
      end
  end.

(** After the first hooks: rate limit and the attempts. *)
Definition open_stream (ctx : Ctx) (pCtx : Context) (runFrom : Z) (req : ChatRequest) : M (result StreamReader) :=
  let promptEstimate := EstimatePromptTokens (canonical req.(q_Model)) (Some req) in
  let* limited := rate_limited ctx req.(q_Model) req.(q_User) (estimate_tokens promptEstimate req) in
  match limited with
  | Some err => let* _ := putContext pCtx in ret (fail err)
  | None =>
      let* cfg := gets cl_config in
      stream_loop (Z.to_nat (cfg.(RetryCount) + 1)) 0 ctx req promptEstimate pCtx runFrom None None
  end.

Definition ChatCompletionStream (ctx : Ctx) (req : option ChatRequest) : M (result StreamReader) :=
  match validate_request req with
  | inl err => ret (fail err)
  | inr req =>
      let req := req<|q_Stream := true|> in
      let ctx := withTenantScope ctx in
      let* pCtx := getContext ctx in
      let pCtx := pCtx<|x_IsStreaming := true|><|x_Model := req.(q_Model)|> in
      let* pl := gets cl_pipeline in
      let* hooked := on_plugins pCtx (fun pw => RunStreamPreHooks pl pw (Some req)) in
      let '(pCtx, (req, sc, ran)) := hooked in
      let runFrom := Z.of_nat ran in
      match req with
      | None => panic
      | Some req =>
          let pCtx := pCtx<|x_Model := req.(q_Model)|> in
          match sc with
          | None => open_stream ctx pCtx runFrom req
          | Some sc =>
              match sc.(ss_Error), sc.(ss_Stream) with
              | Some err, _ =>
                  let* hooked := on_plugins pCtx (fun pw => RunStreamPostHooks pl pw (Some err) runFrom) in
                  let* _ := putContext hooked.1 in
                  ret (fail err)
              | None, Some stream =>
                  let* t := on_env now in
                  let* cfg := gets cl_config in
                  ret (success (newStreamReaderFromChannel t cfg ctx req stream pCtx runFrom))
              | None, None => open_stream ctx pCtx runFrom req
              end
          end
      end
  end.
End Stream.
