(* ===== verification/ClientProofs.v ===== *)
(** * Reasoning about the client

    A program logic for the operations of the client: [wp m Q w] says that [m] run
    at [w] returns, without a panic, a value and a world that satisfy [Q].  The
    router is watched through [traced_router], which records the calls that bracket
    and judge a request. *)
From S2P Require Import Prelude Float64 Errors ModelName RouterTypes BaseRouter Strategies Semaphore ResilienceManager RedisLimiter AuthTypes PluginPipeline ClientTypes Client.

(** ** A router whose calls are recorded *)

Inductive router_ev :=
| EvStart (ctx : context) (d : Deployment)
| EvEnd (ctx : context) (d : Deployment)
| EvSuccess (ctx : context) (d : Deployment)
| EvFailure (ctx : context) (d : Deployment).

#[export] Instance traced_router {RT : Type} `{!RouterI RT} : RouterI (RT * list router_ev) := {|
  r_PickWithContext ctx req rt := let '(r, res) := r_PickWithContext ctx req rt.1 in ((r, rt.2), res);
  r_ReportRequestStart ctx d rt := (r_ReportRequestStart ctx d rt.1, rt.2 ++ [EvStart ctx d]);
  r_ReportRequestEnd ctx d rt := (r_ReportRequestEnd ctx d rt.1, rt.2 ++ [EvEnd ctx d]);
  r_ReportSuccess ctx d m rt := (r_ReportSuccess ctx d m rt.1, rt.2 ++ [EvSuccess ctx d]);
  r_ReportFailure ctx d err rt := (r_ReportFailure ctx d err rt.1, rt.2 ++ [EvFailure ctx d]);
  r_AddDeployment d rt := (r_AddDeployment d rt.1, rt.2);
  r_RemoveDeployment id rt := (r_RemoveDeployment id rt.1, rt.2);
|}.

(** A router that does not panic, as [pick_never_panics] shows of the routers here,
    and whose deployments have a limit that is an [int]. *)
Definition deployment_ok (d : Deployment) : Prop := d.(MaxConcurrent) < two63.

Class RouterSafe (RT : Type) `{!RouterI RT} : Prop := {
  pick_safe ctx req (rt : RT) : (r_PickWithContext ctx req rt).2 <> Panic;
  pick_deployment ctx req (rt : RT) d : (r_PickWithContext ctx req rt).2 = Ok d -> deployment_ok d;
}.

#[export] Instance traced_safe {RT : Type} `{!RouterI RT} `{!RouterSafe RT} : RouterSafe (RT * list router_ev).
Proof.
  split; intros ctx req [rt tr]; cbn.
  - pose proof (pick_safe ctx req rt). by destruct (r_PickWithContext ctx req rt).
  - intros d. pose proof (pick_deployment ctx req rt d). by destruct (r_PickWithContext ctx req rt).
Qed.

Lemma traced_pick {RT : Type} `{!RouterI RT} ctx req (rt : RT * list router_ev) : (r_PickWithContext ctx req rt).1.2 = rt.2.
Proof. destruct rt as [rt tr]. cbn. by destruct (r_PickWithContext ctx req rt). Qed.

(** A context whose end was seen has an error. *)
Class NetworkLaws (E HttpRequest : Type) `{!Network E HttpRequest} : Prop :=
  wait_done ctx d (e : E) : (wait ctx d e).2 = false -> ctx_Err ctx (wait ctx d e).1 <> None.

(** A provider that gives a response whenever it gives no error. *)
Definition provider_ok {E HttpRequest : Type} (p : Provider E HttpRequest) : Prop :=
  (forall resp, p.(ParseResponse) resp <> inr None) /\ (forall resp, p.(ParseEmbeddingResponse) resp <> inr None).

Section Logic.
Context {E HttpRequest RT P L C : Type}.
Context `{!Network E HttpRequest} `{!RouterI RT} `{!DistributedLimiter L} `{!CacheI C} `{!Tokenizer} `{!Codec}.
#[local] Abbreviation world := (@world E HttpRequest RT P L C).
#[local] Abbreviation Client := (@Client E HttpRequest RT P L C).
#[local] Abbreviation M := (@M E HttpRequest RT P L C).
Implicit Types w : world.

Definition wp {A : Type} (m : M A) (Q : A -> world -> Prop) (w : world) : Prop :=
  match m w with (w', Some a) => Q a w' | (_, None) => False end.

Lemma wp_ret {A} (a : A) (Q : A -> world -> Prop) w : Q a w -> wp (ret a) Q w.
Proof. done. Qed.

Lemma wp_bind {A B} (m : M A) (k : A -> M B) Q w : wp m (fun a => wp (k a) Q) w -> wp (bind m k) Q w.
Proof. unfold wp, bind. by destruct (m w) as [w' [a|]]. Qed.

Lemma wp_mono {A} (m : M A) (Q Q' : A -> world -> Prop) w : wp m Q w -> (forall a w', Q a w' -> Q' a w') -> wp m Q' w.
Proof. unfold wp. destruct (m w) as [w' [a|]]; [|done]. intros Hm HQ. by apply HQ. Qed.

Lemma wp_run {A} (m : M A) Q w : wp m Q w -> exists w' a, m w = (w', Some a) /\ Q a w'.
Proof. unfold wp. destruct (m w) as [w' [a|]]; [|done]. eauto. Qed.

Lemma wp_gets {A} (f : Client -> A) Q w : Q (f w.(w_client)) w -> wp (gets f) Q w.
Proof. done. Qed.

Lemma wp_modify (f : Client -> Client) Q w : Q tt (w<|w_client ::= f|>) -> wp (modify f) Q w.
Proof. done. Qed.

Lemma wp_on_env {A} (f : E -> E * A) Q w : (forall e a, f w.(w_env) = (e, a) -> Q a (w<|w_env := e|>)) -> wp (on_env f) Q w.
Proof. intros HQ. unfold wp, on_env. destruct (f w.(w_env)) as [e a] eqn:Ef. by apply HQ. Qed.

Lemma wp_in_env {A} (f : E -> A) Q w : Q (f w.(w_env)) w -> wp (in_env f) Q w.
Proof. done. Qed.

Lemma wp_on_router f Q w : Q tt (w<|w_client ::= fun c => c<|cl_router ::= f|>|>) -> wp (on_router f) Q w.
Proof. done. Qed.

Lemma wp_pick `{!RouterSafe RT} ctx req Q w :
  (forall rt res, (forall d, res = inr d -> deployment_ok d) ->
     rt = (r_PickWithContext ctx.(c_scope) req w.(w_client).(cl_router)).1 ->
     Q res (w<|w_client ::= fun c => c<|cl_router := rt|>|>)) -> wp (pick ctx req) Q w.
Proof.
  intros HQ. unfold wp, pick. pose proof (pick_safe ctx.(c_scope) req w.(w_client).(cl_router)) as Hs.
  pose proof (fun d => pick_deployment ctx.(c_scope) req w.(w_client).(cl_router) d) as Hd.
  destruct (r_PickWithContext _ _ _) as [rt [d|e|]]; [apply HQ|apply HQ|]; [|done..]. intros ? [= ->]. by apply Hd.
Qed.

(** ** What does not change

    [stable f m]: whenever [m] returns, [f] of the world is what it was. *)
Definition stable {A X : Type} (f : world -> X) (m : M A) : Prop := forall w, f (m w).1 = f w.

Lemma stable_bind {A B X} (f : world -> X) (m : M A) (k : A -> M B) :
  stable f m -> (forall a, stable f (k a)) -> stable f (bind m k).
Proof.
  intros Hm Hk w. unfold bind. specialize (Hm w). destruct (m w) as [w' [a|]]; cbn in *; [|done].
  by rewrite Hk.
Qed.

Lemma wp_stable {A X} (f : world -> X) (m : M A) Q w : stable f m -> wp m Q w -> wp m (fun a w' => Q a w' /\ f w' = f w) w.
Proof. intros Hs. specialize (Hs w). unfold wp. destruct (m w) as [w' [a|]]; done. Qed.
End Logic.

(** Steps through the operations that have a rule. *)
Ltac wp_step :=
  cbn beta zeta;
  lazymatch goal with
  | |- wp (bind _ _) _ _ => apply wp_bind; wp_step
  | |- wp (ret _) _ _ => apply wp_ret; cbn beta zeta
  | |- wp (gets _) _ _ => apply wp_gets; cbn beta zeta
  | |- wp (modify _) _ _ => apply wp_modify; cbn beta zeta
  | |- wp (in_env _) _ _ => apply wp_in_env; cbn beta zeta
  | |- wp (on_router _) _ _ => apply wp_on_router; cbn beta zeta
  | |- wp (on_env _) _ _ => let e := fresh "e" in let a := fresh "a" in let H := fresh "He" in apply wp_on_env; intros e a H; cbn beta zeta
  | |- wp _ _ _ => idtac
  end.

Ltac stable_step :=
  first [ apply stable_bind; [|intros ?]
        | progress cbn beta iota zeta
        | match goal with
          | |- stable _ (match ?x with _ => _ end) => destruct x
          | |- stable _ (let '(_, _) := ?x in _) => destruct x
          end ].

(** ** Permits *)

Definition in_use (m : Manager) (key : string) : Z := match m.(semaphores) !! key with Some s => s.(current) | None => 0 end.

(** Semaphores that nobody waits for, with a count that can still grow: the client
    only tries. *)
Definition sems_ok (m : Manager) : Prop :=
  map_Forall (fun _ s => s.(waiters) = [] /\ 0 <= s.(current) <= s.(capacity) /\ s.(capacity) < two63) m.(semaphores).

Lemma tryAcquire_ok s s' ok :
  s.(waiters) = [] -> 0 <= s.(current) <= s.(capacity) -> s.(capacity) < two63 -> semTryAcquire s = (s', ok) ->
  s'.(waiters) = [] /\ s'.(capacity) = s.(capacity) /\ s'.(current) = s.(current) + (if ok then 1 else 0)
  /\ s'.(current) <= s'.(capacity).
Proof.
  unfold semTryAcquire. intros Hw Hc Hcap. destruct (Z.ltb_spec s.(current) s.(capacity)) as [Hlt|]; intros [= <- <-]; cbn;
    [rewrite wrap64_id by (unfold in_i64; lia)|]; repeat split; (done || lia).
Qed.

(** What a permit, or the result of asking for one, holds of a key. *)
Definition held (p : permit) (key : string) : Z :=
  match p with Some (k, _) => if decide (k = key) then 1 else 0 | None => 0 end.
Definition held_by (r : go_error + permit) (key : string) : Z := match r with inr p => held p key | inl _ => 0 end.
Definition permit_ok (p : permit) : Prop := match p with Some (_, n) => 0 < n | None => True end.

Section Permits.
Context {E HttpRequest RT P L C : Type} `{!Network E HttpRequest}.
#[local] Abbreviation world := (@world E HttpRequest RT P L C).
Implicit Types w : world.

Definition manager w : Manager := w.(w_client).(cl_resilienceManager).
Definition with_manager (m : Manager) w : world := w<|w_client ::= fun c => c<|cl_resilienceManager := m|>|>.

Lemma in_use_nonneg m k : sems_ok m -> 0 <= in_use m k.
Proof. intros Hm. unfold in_use. destruct (m.(semaphores) !! k) as [s|] eqn:Hk; [|lia]. apply (Hm _ _ Hk). Qed.

(** Setting one semaphore. *)
Lemma in_use_insert m key s k :
  in_use (m<|semaphores ::= <[key := s]>|>) k = if decide (key = k) then s.(current) else in_use m k.
Proof. unfold in_use. cbn. case_decide; [subst; by rewrite lookup_insert_eq|by rewrite lookup_insert_ne]. Qed.

Lemma sems_ok_insert m key s :
  sems_ok m -> s.(waiters) = [] -> 0 <= s.(current) <= s.(capacity) -> s.(capacity) < two63 -> sems_ok (m<|semaphores ::= <[key := s]>|>).
Proof. intros Hm Hw Hc Hcap. unfold sems_ok. cbn. apply map_Forall_insert_2; done. Qed.

(** The semaphore of a key is there, or is made with a capacity of one at least. *)
Lemma GetSemaphore_ok key n m m' s :
  sems_ok m -> 0 < n < two63 -> GetSemaphore key n m = (m', s) ->
  sems_ok m' /\ (forall k, in_use m' k = in_use m k) /\ s.(current) = in_use m key
  /\ s.(waiters) = [] /\ 0 <= s.(current) <= s.(capacity) /\ s.(capacity) < two63.
Proof.
  intros Hm Hn. unfold GetSemaphore. destruct (m.(semaphores) !! key) as [s0|] eqn:Hk; intros [= <- <-].
  - pose proof (Hm _ _ Hk) as (H1 & H2 & H3). unfold in_use at 3. rewrite Hk. done.
  - assert (Hs : 0 <= 0 <= capacity (NewSemaphore n) /\ capacity (NewSemaphore n) < two63)
      by (cbn; destruct (Z.leb_spec n 0); cbn; lia).
    split; [apply sems_ok_insert; (done || apply Hs)|]. split.
    + intros k. rewrite in_use_insert. case_decide; [subst; unfold in_use; by rewrite Hk|done].
    + unfold in_use. rewrite Hk. split_and!; (done || apply Hs).
Qed.

Lemma wp_acquire ctx d (Q : _ -> world -> Prop) w :
  sems_ok (manager w) -> d.(MaxConcurrent) < two63 ->
  (forall m r, sems_ok m -> (forall k, in_use m k = in_use (manager w) k + held_by r k) ->
     match r with inr p => permit_ok p | inl _ => True end -> Q r (with_manager m w)) ->
  wp (acquireDeployment ctx d) Q w.
Proof.
  intros Hm Hd HQ. unfold acquireDeployment. apply wp_bind, wp_in_env.
  assert (Same : with_manager (manager w) w = w) by (destruct w as [[] ? ? ?]; done).
  destruct (ctx_Err ctx w.(w_env)) as [e|].
  { apply wp_ret. rewrite <- Same. apply HQ; [done| |done]. cbn. lia. }
  destruct (Z.leb_spec d.(MaxConcurrent) 0).
  { apply wp_ret. rewrite <- Same. apply HQ; [done| |done]. cbn. lia. }
  apply wp_bind, wp_gets. fold (manager w). destruct (GetSemaphore _ _ _) as [m s] eqn:Eg.
  apply GetSemaphore_ok in Eg as (Hm' & Hu & Hc & Hw & Hb & Hcap); [|done|lia].
  destruct (semTryAcquire s) as [s' ok] eqn:Et.
  pose proof (tryAcquire_ok s s' ok Hw Hb Hcap Et) as (Hw' & Hcap' & Hcur & Hle).
  apply wp_bind, wp_modify, wp_ret. cbn beta.
  change (w<|w_client ::= fun c => c<|cl_resilienceManager := m<|semaphores ::= <[d.(ProviderName) := s']>|>|>|>)
    with (with_manager (m<|semaphores ::= <[d.(ProviderName) := s']>|>) w).
  apply HQ.
  - apply sems_ok_insert; [done|done| |lia]. destruct ok; lia.
  - intros k. rewrite in_use_insert. unfold held_by, held. destruct ok; repeat case_decide; subst; rewrite ?Hu, ?Hcur; lia.
  - by destruct ok.
Qed.

Lemma wp_release p (Q : _ -> world -> Prop) w :
  sems_ok (manager w) -> permit_ok p -> (forall k, held p k <= in_use (manager w) k) ->
  (forall m, sems_ok m -> (forall k, in_use m k = in_use (manager w) k - held p k) -> Q tt (with_manager m w)) ->
  wp (release p) Q w.
Proof.
  intros Hm Hp Hh HQ. unfold release. destruct p as [[key n]|].
  2: { apply wp_ret. assert (Same : with_manager (manager w) w = w) by (destruct w as [[] ? ? ?]; done).
       rewrite <- Same. apply HQ; [done|]. cbn. lia. }
  apply wp_modify. change (w<|w_client ::= _|>) with (with_manager (Release key n (manager w)).1 w).
  cbn in Hp. specialize (Hh key) as Hk. unfold held in Hk. rewrite decide_True in Hk by done. unfold in_use in Hk.
  unfold Release. destruct (Z.ltb_spec 0 n); [|lia].
  destruct ((manager w).(semaphores) !! key) as [s|] eqn:Hs; [|lia].
  pose proof (Hm _ _ Hs) as (Hw & Hb & Hcap). unfold semRelease. destruct (Z.leb_spec s.(current) 0); [lia|]. rewrite Hw. cbn [fst].
  assert (Hd : s.(current) -! 1 = s.(current) - 1) by (apply wrap64_id; unfold in_i64; lia).
  apply HQ.
  - apply sems_ok_insert; cbn; [done|done| |done]. rewrite Hd. lia.
  - intros k. rewrite in_use_insert. cbn [held current]. case_decide; [subst|lia]. cbn. rewrite Hd. unfold in_use. rewrite Hs. lia.
Qed.
End Permits.
