(* ===== verification/ClientDemo.v ===== *)
(** * A small world for the client

    Concrete instances of the interfaces of [ClientTypes]: a clock that ticks at
    every reading, replies given in advance, a router that hands out its
    deployments in turn, a limiter that allows everything, a cache with deadlines,
    and an encoding that is enough for the requests used.  They show that what the
    theorems ask of the interfaces can be had. *)
From S2P Require Import Prelude Float64 Errors RouterTypes BaseRouter Strategies ResilienceManager RedisLimiter AuthTypes PluginPipeline ClientTypes Client ClientProofs.

Module Demo.
Record env := { clock : time; replies : list (go_error + HttpResponse); cancelled : bool }.

Definition reply (e : env) : env * (go_error + HttpResponse) :=
  (e<|replies ::= tail|>, default (inl (EText "connection refused")) (head e.(replies))).

#[global] Instance network : Network env string := {|
  now e := (e<|clock ::= Z.succ|>, e.(clock));
  rand_Float64 e := (e, fzero);
  http_Do _ e := reply e;
  stream_Do _ e := reply e;
  wait _ _ e := (e, negb e.(cancelled));
  ctx_Err _ e := if e.(cancelled) then Some (EText "context canceled") else None;
|}.

#[global] Instance network_laws : NetworkLaws env string.
Proof. intros ctx d e. cbn. by destruct (cancelled e). Qed.

(** The providers' names, in turn. *)
Definition router := list string.

#[global] Instance router_i : RouterI router := {|
  r_PickWithContext _ req names :=
    match names with
    | [] => ([], Err ErrNoAvailableDeployment)
    | n :: ns => (ns ++ [n], Ok (new_deployment n 2 req.(Model)))
    end;
  r_ReportRequestStart _ _ r := r;
  r_ReportRequestEnd _ _ r := r;
  r_ReportSuccess _ _ _ r := r;
  r_ReportFailure _ _ _ r := r;
  r_AddDeployment d r := r ++ [d.(ProviderName)];
  r_RemoveDeployment _ r := r;
|}.

#[global] Instance router_safe : RouterSafe router.
Proof. split; intros ctx req [|n ns]; try done; intros d [= <-]. done. Qed.

#[global] Instance limiter : DistributedLimiter unit := {|
  dl_CheckAllow _ ds l := (l, inr (map (fun _ => {| Allowed := true; Current := 1; Remaining := 1; ResetAt := 0 |}) ds));
|}.

Definition store := gmap string (string * time).

#[global] Instance cache : CacheI store := {|
  cache_Get t k m := (m, inr (match m !! k with Some (v, dl) => if t <? dl then Some v else None | None => None end));
  cache_Set t k v ttl m := (<[k := (v, t + ttl)]> m, None);
|}.

#[global] Instance tokenizer : Tokenizer := {|
  EstimatePromptTokens _ _ := 10;
  EstimateEmbeddingTokens _ _ := 10;
  EstimateCompletionTokens _ _ _ := 5;
  EstimateCompletionTokensFromText _ _ := 5;
|}.

Definition plain (id : string) (u : option Usage) : ChatResponse :=
  {| p_ID := id; p_Object := ""; p_Created := 0; p_Model := "gpt-4o"; p_Choices := []; p_Usage := u; p_SystemFingerprint := "" |}.

(** Responses are known by their identifier; the provider is not encoded. *)
#[global] Instance codec : Codec := {|
  marshal_key k := inr (k.(kd_TenantID) +:+ "|" +:+ k.(kd_Model));
  marshal_response r := inr r.(p_ID);
  unmarshal_response s := inr (plain s (Some {| us_PromptTokens := 10; us_CompletionTokens := 5; us_TotalTokens := 15; us_Provider := "" |}));
  marshal_string s := s;
  sha256_hex s := s;
|}.

(** A provider of a protocol without JSON: the body is the response's identifier,
    a line is a chunk's text. *)
Definition text_chunk (text : string) : StreamChunk :=
  {| k_ChunkID := ""; k_Object := ""; k_Created := 0; k_Model := ""; k_Usage := None; k_SystemFingerprint := "";
     k_Choices := [{| sc_Index := 0; sc_FinishReason := ""; sc_Delta := {| dl_Role := ""; dl_Content := text; dl_ToolCalls := [] |} |}] |}.

Definition provider (name : string) : Provider env string := {|
  prov_Name := name;
  SupportedModels := ["gpt-4o"];
  BuildRequest _ _ e := (e, inr name);
  ParseResponse resp := inr (Some (plain resp.(hr_Body).(body_bytes) None));
  ParseStreamChunk line := inr (Some (text_chunk line));
  MapError status _ := ELLM (if status =? 400 then NewInvalidRequestError name "gpt-4o" "bad"
                             else if status =? 429 then NewRateLimitError name "gpt-4o" "slow down"
                             else NewServiceUnavailableError name "gpt-4o" "down");
  SupportEmbedding := false;
  BuildEmbeddingRequest _ _ e := (e, inr name);
  ParseEmbeddingResponse resp := inl (EText "unsupported");
|}.

Definition price : ModelPrice := {| PInputCostPerToken := fone; POutputCostPerToken := fone |}.

Definition client {RT} (rt : RT) (prices : Registry) (cfg : ClientConfig) : @Client env string RT unit unit store :=
  {| cl_providers := {[ "east" := provider "east"; "west" := provider "west" ]}; cl_deployments := ∅; cl_router := rt;
     cl_cache := None; cl_config := cfg; cl_pricing := Some prices;
     cl_pipeline := NewPipeline DefaultPipelineConfig; cl_ctxPool := []; cl_fallbackReporter := true; cl_rateLimiter := None;
     cl_rateLimiterConfig := {| rl_Enabled := false; rl_RPMLimit := 0; rl_TPMLimit := 0; rl_WindowSize := 0; rl_KeyStrategy := "";
                                rl_FailOpen := false |};
     cl_resilienceManager := NewManager DefaultManagerConfig |}.

Definition world_of {RT} (c : @Client env string RT unit unit store) (replies : list (go_error + HttpResponse)) :
  @world env string RT unit unit store :=
  {| w_client := c; w_env := {| clock := 0; replies := replies; cancelled := false |}; w_plugins := tt; w_reports := [] |}.

Definition answer (status : Z) (text : string) : go_error + HttpResponse :=
  inr {| hr_Status := status; hr_Body := {| body_bytes := text; body_error := None |} |}.

Definition request (model : string) : ChatRequest :=
  {| q_Model := model;
     q_Messages := [{| m_Role := "user"; m_Content := "hi"; m_Name := ""; m_ToolCalls := []; m_ToolCallID := "" |}];
     q_Stream := false; q_MaxTokens := 0; q_Temperature := None; q_TopP := None; q_N := 0; q_Stop := []; q_PresencePenalty := None;
     q_FrequencyPenalty := None; q_User := ""; q_Tools := []; q_ToolChoice := ""; q_ResponseFormat := None; q_StreamOptions := None;
     q_Tags := []; q_Extra := None |}.

Definition nobody : Ctx := {| c_scope := []; c_auth := None; c_rateKey := "" |}.
End Demo.
