(* ===== verification/ClientTheorems.v ===== *)
(** * What the client guarantees ([client.go])

    Requests are bracketed and judged once, permits are given back, retries stop
    where they should, backoff stays in bounds; and the places where the client
    does not do what it says. *)
From stdpp Require Import pretty.
From S2P Require Import Prelude Float64 Errors ModelName RouterTypes StatsStore BaseRouter Strategies Semaphore ResilienceManager RedisLimiter AuthTypes PluginPipeline ClientTypes Client ClientProofs ClientDemo.

Create HintDb silent discriminated.

#[local] Abbreviation result A := (option A * option go_error)%type.

Section Attempts.
Context {E HttpRequest RT P L C : Type}.
Context `{!Network E HttpRequest} `{!RouterI RT} `{!DistributedLimiter L} `{!CacheI C} `{!Tokenizer} `{!Codec}.
#[local] Abbreviation world := (@world E HttpRequest (RT * list router_ev) P L C).
#[local] Abbreviation CM := (@M E HttpRequest (RT * list router_ev) P L C).
Implicit Types w : world.

Definition trace w : list router_ev := w.(w_client).(cl_router).2.

(** The parts of the client that requests only read. *)
Definition setup w :=
  let c := w.(w_client) in
  (c.(cl_providers), c.(cl_config), c.(cl_pricing), c.(cl_pipeline), c.(cl_fallbackReporter)).

(** What an attempt tells the router, with its result. *)
Inductive attempt_told {A : Type} (ctx : context) (d : Deployment) : result A -> list router_ev -> Prop :=
| told_nothing e : attempt_told ctx d (fail e) []
| told_failure e : attempt_told ctx d (fail e) [EvStart ctx d; EvFailure ctx d; EvEnd ctx d]
| told_success r : attempt_told ctx d (success r) [EvStart ctx d; EvSuccess ctx d; EvEnd ctx d].

(** The world after an attempt: the trace grew by what was told, every permit is
    back, and the setup is the same. *)
Definition attempt_post {A : Type} (ctx : context) (d : Deployment) w (res : result A) w' : Prop :=
  setup w' = setup w /\ sems_ok (manager w') /\ (forall k, in_use (manager w') k = in_use (manager w) k)
  /\ exists evs, trace w' = trace w ++ evs /\ attempt_told ctx d res evs.

(** What sending tells the router, with its result. *)
Definition sent_post {A : Type} (ctx : Ctx) (d : Deployment) w (res : result A) w' : Prop :=
  setup w' = setup w /\ manager w' = manager w
  /\ ((exists r, res = success r /\ trace w' = trace w ++ [EvSuccess ctx.(c_scope) d])
      \/ (exists e, res = fail e /\ trace w' = trace w ++ [EvFailure ctx.(c_scope) d])).

Lemma send_once_post ctx prov d req start httpReq w :
  provider_ok prov -> wp (send_once ctx prov d req start httpReq) (sent_post ctx d w) w.
Proof.
  unfold sent_post. intros [Hp _]. unfold send_once. wp_step. destruct a as [err|resp].
  { do 2 wp_step. eauto 10. }
  wp_step. destruct (400 <=? hr_Status resp).
  { do 2 wp_step. eauto 10. }
  specialize (Hp resp). destruct (ParseResponse prov resp) as [err|[chatResp|]]; [| |done]; do 2 wp_step; eauto 10.
Qed.

Lemma send_embedding_post ctx prov d n start httpReq w :
  provider_ok prov -> wp (send_embedding ctx prov d n start httpReq) (sent_post ctx d w) w.
Proof.
  unfold sent_post. intros [_ Hp]. unfold send_embedding. wp_step. destruct a as [err|resp].
  { do 2 wp_step. eauto 10. }
  wp_step. destruct (400 <=? hr_Status resp).
  { do 2 wp_step. eauto 10. }
  specialize (Hp resp). destruct (ParseEmbeddingResponse prov resp) as [err|[r|]]; [| |done]; do 2 wp_step; eauto 10.
Qed.

(** What the attempts of a completion and of an embedding share: price, permit,
    request, bracket. *)
Definition bracket {A : Type} (ctx : Ctx) (d : Deployment) (model : string) (build : E -> E * (go_error + HttpRequest))
  (send : time -> HttpRequest -> CM (result A)) : CM (result A) :=
  let* start := on_env now in
  let* unpriced := validatePricing model d.(ProviderName) in
  match unpriced with
  | Some err => ret (fail err)
  | None =>
      let* acquired := acquireDeployment ctx d in
      match acquired with
      | inl err => ret (fail err)
      | inr p =>
          let* httpReq := on_env build in
          match httpReq with
          | inl err => let* _ := release p in ret (fail (EWrap "build request" err))
          | inr httpReq =>
              let* _ := on_router (r_ReportRequestStart ctx.(c_scope) d) in
              let* res := send start httpReq in
              let* _ := on_router (r_ReportRequestEnd ctx.(c_scope) d) in
              let* _ := release p in
              ret res
          end
      end
  end.

#[local] Ltac by_uses Hu := intros k; specialize (Hu k); unfold manager in *; cbn in *; try lia.

Lemma bracket_post {A} ctx d model build (send : time -> HttpRequest -> CM (result A)) w :
  (forall start httpReq w, wp (send start httpReq) (sent_post ctx d w) w) -> deployment_ok d -> sems_ok (manager w) ->
  wp (bracket ctx d model build send) (attempt_post ctx.(c_scope) d w) w.
Proof.
  intros Hsend Hd Hm. unfold bracket, validatePricing. do 3 wp_step.
  match goal with |- context [match ?x with Some _ => _ | None => _ end] => destruct x end.
  { wp_step. split_and!; [done..|]. exists []. split; [by rewrite app_nil_r|constructor]. }
  apply wp_bind, wp_acquire; [done|done|]. intros m r Hm' Hu Hr. destruct r as [err|p].
  { wp_step. split_and!; [done|done|by_uses Hu|].
    exists []. split; [by rewrite app_nil_r|constructor]. }
  assert (Hh : forall k, held p k <= in_use m k).
  { intros k. pose proof (in_use_nonneg _ k Hm). specialize (Hu k). unfold manager in *. cbn in *. lia. }
  wp_step. destruct a0 as [err|http].
  { apply wp_bind, wp_release; [done|done|done|]. intros m2 Hm2 Hu2. wp_step.
    split_and!; [done|done|by_uses Hu; specialize (Hu2 k); cbn in Hu2; lia|].
    exists []. split; [by rewrite app_nil_r|constructor]. }
  wp_step. apply wp_bind. eapply wp_mono; [apply Hsend|]. cbn beta. intros res w1 (Hs & Hm1 & Ht).
  wp_step. apply wp_bind, wp_release; [cbn; unfold manager in *; cbn in *; rewrite Hm1; done|done| |].
  { intros k. unfold manager in *. cbn in *. rewrite Hm1. apply Hh. }
  intros m2 Hm2 Hu2. wp_step. split_and!; [done|done| |].
  { intros k. specialize (Hu k). specialize (Hu2 k). unfold manager in *. cbn in *. rewrite Hm1 in Hu2. cbn in Hu2. lia. }
  unfold trace in *. cbn in *. destruct Ht as [(r & -> & Ht)|(e1 & -> & Ht)]; rewrite Ht; eexists; (split; [by rewrite <- !app_assoc|constructor]).
Qed.

Lemma executeOnce_post ctx prov d req w :
  provider_ok prov -> deployment_ok d -> sems_ok (manager w) ->
  wp (executeOnce ctx prov d req) (attempt_post (withTenantScope ctx).(c_scope) d w) w.
Proof. intros Hp. by apply bracket_post; intros start http w'; apply send_once_post. Qed.

Lemma executeEmbeddingOnce_post ctx prov d req n w :
  provider_ok prov -> deployment_ok d -> sems_ok (manager w) ->
  wp (executeEmbeddingOnce ctx prov d req n) (attempt_post (withTenantScope ctx).(c_scope) d w) w.
Proof. intros Hp. by apply bracket_post; intros start http w'; apply send_embedding_post. Qed.

(** ** Retries *)

Context `{!RouterSafe RT} `{!NetworkLaws E HttpRequest}.

Definition providers_ok w : Prop := map_Forall (fun _ p => provider_ok p) w.(w_client).(cl_providers).

Lemma wp_retryBackoff attempt w : wp (retryBackoff attempt) (fun _ w' => setup w' = setup w /\ manager w' = manager w /\ trace w' = trace w) w.
Proof.
  unfold retryBackoff. wp_step. destruct (_ || _); [by wp_step|]. destruct (_ && _); [|by wp_step]. do 2 wp_step. done.
Qed.

Lemma wp_before_attempt ctx attempt w :
  wp (before_attempt ctx attempt) (fun stop w' => stop <> Some None /\ setup w' = setup w /\ manager w' = manager w /\ trace w' = trace w) w.
Proof.
  unfold before_attempt. destruct (0 <? attempt); [|by wp_step]. apply wp_bind. eapply wp_mono; [apply wp_retryBackoff|].
  cbn beta. intros b w1 (Hs & Hm & Ht). destruct (0 <? b).
  - wp_step. do 2 wp_step. split_and!; [|done..]. cbn. pose proof (wait_done ctx b w1.(w_env)) as Hd. rewrite He in Hd. cbn in Hd.
    destruct a; [done|]. intros [= Hn]. by apply Hd.
  - do 2 wp_step. split_and!; [|done..]. by destruct (ctx_Err _ _).
Qed.

Lemma wp_report_pending pending err ok w :
  wp (report_pending pending err ok) (fun _ w' => setup w' = setup w /\ manager w' = manager w /\ trace w' = trace w) w.
Proof. unfold report_pending, reportFallback, wp. destruct pending as [f|]; [|done]. cbn. by destruct (cl_fallbackReporter _). Qed.

Lemma wp_fall_back ctx req tokens prov d err w :
  provider_ok prov -> deployment_ok d -> providers_ok w ->
  wp (fall_back ctx req tokens prov d err) (fun '(prov', d', _) w' =>
    provider_ok prov' /\ deployment_ok d' /\ setup w' = setup w /\ manager w' = manager w /\ trace w' = trace w) w.
Proof.
  intros Hp Hd Hps. unfold fall_back. apply wp_bind, wp_pick. intros rt res Hres ->.
  destruct res as [e|d']; [wp_step; split_and!; try done; apply traced_pick|].
  destruct (String.eqb _ _); [wp_step; split_and!; try done; apply traced_pick|].
  do 2 wp_step. split_and!; [|by apply Hres|done|done|apply traced_pick].
  cbn. destruct (cl_providers _ !! _) as [p|] eqn:Ep; [by apply (Hps _ _ Ep)|done].
Qed.

(** The events of a failed attempt, and those of a run of the loop with its
    result: failures, then at most one success, which ends it. *)
Definition failed_attempt (evs : list router_ev) : Prop := evs = [] \/ exists ctx d, evs = [EvStart ctx d; EvFailure ctx d; EvEnd ctx d].

Inductive run_told {A : Type} : nat -> result A -> list router_ev -> Prop :=
| run_stop n e : run_told n (fail e) []
| run_success n r ctx d : run_told (S n) (success r) [EvStart ctx d; EvSuccess ctx d; EvEnd ctx d]
| run_failure n e evs : failed_attempt evs -> run_told (S n) (fail e) evs
| run_again n res evs evs' : failed_attempt evs -> run_told n res evs' -> run_told (S n) res (evs ++ evs').

Definition run_post {A : Type} (n : nat) w (res : result A) w' : Prop :=
  setup w' = setup w /\ sems_ok (manager w') /\ (forall k, in_use (manager w') k = in_use (manager w) k)
  /\ exists evs, trace w' = trace w ++ evs /\ run_told n res evs.

Lemma setup_providers w w' : setup w' = setup w -> providers_ok w -> providers_ok w'.
Proof. unfold setup, providers_ok. intros [= -> _ _ _ _]. done. Qed.

Lemma attempt_told_cases {A} ctx d (res : result A) evs :
  attempt_told ctx d res evs ->
  (exists r, res = success r /\ evs = [EvStart ctx d; EvSuccess ctx d; EvEnd ctx d]) \/ (exists e, res = fail e /\ failed_attempt evs).
Proof. destruct 1; unfold failed_attempt; eauto 10. Qed.

(** A failed attempt before the rest of a run. *)
Lemma run_post_again {A} n w w1 evs (res : result A) w' :
  setup w1 = setup w -> (forall k, in_use (manager w1) k = in_use (manager w) k) -> trace w1 = trace w ++ evs ->
  failed_attempt evs -> run_post n w1 res w' -> run_post (S n) w res w'.
Proof.
  intros Hs Hu Ht Hf (Hs' & Hm & Hu' & evs' & Ht' & Hr). split_and!; [congruence|done|intros k; by rewrite Hu'|].
  exists (evs ++ evs'). split; [by rewrite Ht', Ht, app_assoc|by constructor].
Qed.

Lemma retry_loop_post fuel attempt ctx tokens prov d req pending lastErr w :
  provider_ok prov -> deployment_ok d -> providers_ok w -> sems_ok (manager w) -> (fuel = O -> lastErr <> None) ->
  wp (retry_loop fuel attempt ctx tokens prov d req pending lastErr) (run_post fuel w) w.
Proof.
  revert attempt prov d pending lastErr w. induction fuel as [|fuel IH]; intros attempt prov d pending lastErr w Hp Hd Hps Hm Hl; cbn [retry_loop].
  { wp_step. destruct lastErr as [e|]; [|by specialize (Hl eq_refl)]. split_and!; [done..|]. exists []. split; [by rewrite app_nil_r|]. constructor. }
  apply wp_bind. eapply wp_mono; [apply wp_before_attempt|]. cbn beta. intros stop w1 (Hstop & Hs1 & Hm1 & Ht1).
  destruct stop as [[e|]|]; [|done|].
  { wp_step. split_and!; [done|by rewrite Hm1|by rewrite Hm1|]. exists []. rewrite app_nil_r. split; [done|constructor]. }
  apply wp_bind. eapply wp_mono; [apply executeOnce_post; [done|done|by rewrite Hm1]|].
  intros res w2 (Hs2 & Hm2 & Hu2 & evs & Ht2 & Htold).
  apply attempt_told_cases in Htold as [(r & -> & ->)|(e & -> & Hf)];
    apply wp_bind; (eapply wp_mono; [apply wp_report_pending|]); cbn beta; intros _ w3 (Hs3 & Hm3 & Ht3).
  { wp_step. split_and!; [congruence|by rewrite Hm3|intros k; by rewrite Hm3, Hu2, Hm1|].
    eexists. split; [by rewrite Ht3, Ht2, Ht1|constructor]. }
  assert (Hs : setup w3 = setup w) by congruence.
  assert (Hu : forall k, in_use (manager w3) k = in_use (manager w) k) by (intros k; by rewrite Hm3, Hu2, Hm1).
  rewrite Ht2, Ht1 in Ht3. rewrite <- Hm3 in Hm2. pose proof (setup_providers _ _ Hs Hps) as Hps3.
  destruct (negb (retryable e)).
  { wp_step. split_and!; [done..|]. exists evs. split; [done|by constructor]. }
  wp_step. destruct (_ && _).
  - apply wp_bind. eapply wp_mono; [by apply wp_fall_back|]. intros [[prov' d'] pending'] w4 (Hp4 & Hd4 & Hs4 & Hm4 & Ht4).
    eapply wp_mono; [apply IH; [done|done|by eapply setup_providers|by rewrite Hm4|done]|].
    intros res w5 Hpost. by apply (run_post_again fuel w w4 evs); [congruence|intros k; rewrite Hm4|congruence| |].
  - eapply wp_mono; [apply IH; done|]. intros res w5 Hpost. by apply (run_post_again fuel w w3 evs).
Qed.

(** ** The whole of a completion *)

Definition view w := (setup w, manager w, trace w).

(** Operations that always return and touch neither the router nor the permits. *)
Definition silent {A : Type} (m : M A) : Prop := forall w, wp m (fun _ w' => view w' = view w) w.

Lemma silent_bind {A B} (m : M A) (k : A -> M B) : silent m -> (forall a, silent (k a)) -> silent (bind m k).
Proof.
  intros Hm Hk w. apply wp_bind. eapply wp_mono; [apply Hm|]. cbn beta. intros a w1 H1.
  eapply wp_mono; [apply Hk|]. cbn beta. intros b w2 H2. by rewrite H2.
Qed.

Lemma silent_ret {A} (a : A) : silent (ret a).
Proof. by intros w. Qed.
Lemma silent_gets {A} (f : _ -> A) : silent (gets f).
Proof. by intros w. Qed.
Lemma silent_on_env {A} (f : E -> E * A) : silent (on_env f).
Proof. intros w. by apply wp_on_env. Qed.
Lemma silent_on_plugins {A} pCtx (f : _ -> _ * A) : silent (on_plugins pCtx f).
Proof. intros w. unfold wp, on_plugins. by destruct (f _) as [[? ?] ?]. Qed.
Lemma silent_limiter l : silent (modify (fun c => c<|cl_rateLimiter := l|>)).
Proof. by intros w. Qed.
Lemma silent_cache c' : silent (modify (fun c => c<|cl_cache := c'|>)).
Proof. by intros w. Qed.
Lemma silent_pool f : silent (modify (fun c => c<|cl_ctxPool ::= f|>)).
Proof. by intros w. Qed.
#[local] Hint Resolve silent_bind silent_ret silent_gets silent_on_env silent_on_plugins silent_limiter silent_cache silent_pool : silent.

#[local] Ltac silent_tac :=
  repeat first [ apply silent_bind; [|intros ?] | progress cbn beta zeta iota
               | match goal with |- silent (match ?x with _ => _ end) => destruct x end ]; eauto with silent.

Lemma silent_checkRateLimit key model n : silent (checkRateLimit key model n).
Proof. unfold checkRateLimit. silent_tac. Qed.
Lemma silent_rate_limited ctx model user n : silent (rate_limited ctx model user n).
Proof. unfold rate_limited. apply silent_bind; [apply silent_gets|intros ?]. apply silent_checkRateLimit. Qed.
Lemma silent_getFromCache ctx req : silent (getFromCache ctx req).
Proof. unfold getFromCache. silent_tac. Qed.
Lemma silent_cached_response ctx req : silent (cached_response ctx req).
Proof. unfold cached_response. silent_tac. Qed.
Lemma silent_storeInCache ctx req resp : silent (storeInCache ctx req resp).
Proof. unfold storeInCache. silent_tac. Qed.
Lemma silent_validatePricing model provider : silent (validatePricing model provider).
Proof. unfold validatePricing. silent_tac. Qed.
Lemma silent_run_post_hooks pCtx resp err : silent (run_post_hooks pCtx resp err).
Proof. unfold run_post_hooks. silent_tac. Qed.
Lemma silent_after_provider ctx pCtx req executed : silent (after_provider ctx pCtx req executed).
Proof.
  unfold after_provider. apply silent_bind; [apply silent_run_post_hooks|intros hooked]. silent_tac.
Qed.
Lemma silent_getContext ctx : silent (getContext ctx).
Proof. unfold getContext. do 2 (apply silent_bind; [apply silent_on_env|intros ?]). by intros w. Qed.

Lemma wp_silent {A B} (m : M A) (k : A -> M B) Q w :
  silent m -> (forall a w', view w' = view w -> wp (k a) Q w') -> wp (bind m k) Q w.
Proof. intros Hm Hk. apply wp_bind. eapply wp_mono; [apply Hm|]. cbn beta. exact Hk. Qed.

Lemma view_parts w w' : view w' = view w -> setup w' = setup w /\ manager w' = manager w /\ trace w' = trace w.
Proof. intros Hv. split_and!; [apply (f_equal (fun v => v.1.1) Hv)|apply (f_equal (fun v => v.1.2) Hv)|apply (f_equal snd Hv)]. Qed.

Lemma view_providers w w' : view w' = view w -> providers_ok w -> providers_ok w'.
Proof. intros (Hs & _ & _)%view_parts. by apply setup_providers. Qed.

(** A run seen from worlds of the same view. *)
Lemma run_post_view {A} n w1 w2 (res : result A) w3 w4 :
  view w1 = view w2 -> view w4 = view w3 -> run_post n w1 res w3 -> run_post n w2 res w4.
Proof.
  intros (Hs1 & Hm1 & Ht1)%view_parts (Hs3 & Hm3 & Ht3)%view_parts. unfold run_post. by rewrite Hs1, Hm1, Ht1, Hs3, Hm3, Ht3.
Qed.

Definition max_attempts w : nat := Z.to_nat (w.(w_client).(cl_config).(RetryCount) + 1).

Lemma view_config w w' : view w' = view w -> w'.(w_client).(cl_config) = w.(w_client).(cl_config).
Proof. unfold view, setup. congruence. Qed.

Lemma executeWithRetry_post ctx prov d req w :
  provider_ok prov -> deployment_ok d -> providers_ok w -> sems_ok (manager w) -> 0 <= w.(w_client).(cl_config).(RetryCount) ->
  wp (executeWithRetry ctx prov d req) (run_post (max_attempts w) w) w.
Proof. intros Hp Hd Hps Hm Hr. unfold executeWithRetry. wp_step. apply retry_loop_post; try done. unfold max_attempts. intros ?. exfalso. lia. Qed.

Lemma route_and_execute_post ctx req n w :
  providers_ok w -> sems_ok (manager w) -> 0 <= w.(w_client).(cl_config).(RetryCount) ->
  wp (route_and_execute ctx req n) (run_post (max_attempts w) w) w.
Proof.
  intros Hps Hm Hr. unfold route_and_execute. apply wp_bind, wp_pick. intros rt res Hres ->.
  set (w1 := w<|w_client ::= _|>). assert (V : view w1 = view w).
  { unfold view. f_equal. apply traced_pick. }
  assert (Stop : forall e : go_error, run_post (max_attempts w) w (fail (A:=ChatResponse) e) w1).
  { intros e. apply (run_post_view _ w _ _ w); [done|done|]. split_and!; [done..|]. exists []. rewrite app_nil_r. split; [done|constructor]. }
  destruct res as [e|d]; [by wp_step|]. wp_step. destruct (cl_providers _ !! _) as [prov|] eqn:Ep; [|by wp_step].
  eapply wp_mono; [apply executeWithRetry_post|].
  - by apply (Hps _ _ Ep).
  - by apply Hres.
  - by eapply view_providers.
  - done.
  - done.
  - intros res w2 Hpost. by eapply run_post_view.
Qed.

Lemma wp_choose ctx reqCtx model attempt d lastErr w :
  (forall x, d = Some x -> deployment_ok x) ->
  wp (choose_deployment ctx reqCtx model attempt d lastErr) (fun r w' =>
    view w' = view w /\ match r with inr (d', _) => deployment_ok d' | inl _ => True end) w.
Proof.
  intros Hd. unfold choose_deployment. wp_step.
  assert (Hpick : forall k : route_err + Deployment -> go_error + Deployment * option fallbackAttempt,
    (forall res, match res, k res with inr d', inr (d'', _) => d'' = d' | inl _, inr _ => False | _, _ => True end) ->
    wp (let* picked := pick ctx reqCtx in ret (k picked)) (fun r w' =>
      view w' = view w /\ match r with inr (d', _) => deployment_ok d' | inl _ => True end) w).
  { intros k Hk. apply wp_bind, wp_pick. intros rt res Hres ->. wp_step. split; [unfold view; f_equal; apply traced_pick|].
    specialize (Hk res). destruct res as [e|d'], (k _) as [e'|[d'' ?]]; try done. subst. by apply Hres. }
  destruct d as [d|]; [destruct (negb _); [wp_step; split; [done|by apply Hd]|]|]; apply Hpick; by intros [e|d'].
Qed.

(** What holds after a completion, whatever its result: every permit is back, and
    the router was told of a run of attempts. *)
Definition completion_post w w' : Prop :=
  setup w' = setup w /\ sems_ok (manager w') /\ (forall k, in_use (manager w') k = in_use (manager w) k)
  /\ exists evs (res : result ChatResponse), trace w' = trace w ++ evs /\ run_told (max_attempts w) res evs.

Lemma completion_post_view w w1 w2 w' :
  view w1 = view w -> view w' = view w2 -> completion_post w1 w2 -> completion_post w w'.
Proof.
  intros V1 V2. pose proof (view_config _ _ V1) as Hc. apply view_parts in V1 as (Hs1 & Hm1 & Ht1), V2 as (Hs3 & Hm3 & Ht3).
  unfold completion_post, max_attempts. by rewrite Hs1, Hm1, Ht1, Hs3, Hm3, Ht3, Hc.
Qed.

Lemma completion_post_same w w' : sems_ok (manager w) -> view w' = view w -> completion_post w w'.
Proof.
  intros Hm (Hs & Hm' & Ht)%view_parts. unfold completion_post. rewrite Hm'. split_and!; [done..|].
  exists [], (fail (EText "")). rewrite app_nil_r. split; [done|constructor].
Qed.

Definition world_ok w : Prop := providers_ok w /\ sems_ok (manager w) /\ 0 <= w.(w_client).(cl_config).(RetryCount).

Lemma world_ok_view w w' : view w' = view w -> world_ok w -> world_ok w'.
Proof.
  intros V (Hp & Hm & Hr). split_and!; [by eapply view_providers|by rewrite (proj1 (proj2 (view_parts _ _ V)))|].
  by rewrite (view_config _ _ V).
Qed.

Lemma complete_post ctx pCtx req w : world_ok w -> wp (complete ctx pCtx req) (fun _ w' => completion_post w w') w.
Proof.
  intros Hok. unfold complete. apply wp_silent; [apply silent_rate_limited|]. intros limited w1 V1.
  destruct limited as [err|]. { wp_step. apply completion_post_same; [apply Hok|done]. }
  apply wp_silent; [apply silent_cached_response|]. intros cached w2 V2.
  assert (V : view w2 = view w) by congruence. clear V1 V2 w1. destruct cached as [resp|].
  { apply wp_silent; [apply silent_validatePricing|]. intros [err|] w3 V3.
    - wp_step. apply completion_post_same; [apply Hok|congruence].
    - eapply wp_mono; [apply silent_after_provider|]. intros r w4 V4. apply completion_post_same; [apply Hok|congruence]. }
  pose proof (world_ok_view _ _ V Hok) as (Hp2 & Hm2 & Hr2).
  apply wp_bind. eapply wp_mono; [by apply route_and_execute_post|]. intros res w4 (Hs & Hm & Hu & evs & Ht & Hr).
  eapply wp_mono; [apply silent_after_provider|]. intros r w5 V5.
  apply (completion_post_view _ w2 w4); [done|done|]. split_and!; [done..|]. eauto.
Qed.

(** A plug-in whose first hook keeps a request. *)
Definition keeps_request (q : Plugin (Context * P) ChatRequest ChatResponse StreamChunk) : Prop :=
  forall pw req, (q.(PreHook) pw (Some req)).2.1.1 <> None.

Lemma pre_hooks_keep l n pw req :
  Forall keeps_request l -> exists req', (pre_hooks l n pw (Some req)).2.1.1 = Some req'.
Proof.
  intros Hl. revert n pw req. induction Hl as [|q l Hq _ IH]; intros n pw req; cbn; [eauto|].
  specialize (Hq pw req). destruct (PreHook q pw (Some req)) as [pw1 [[[req1|] sc] e]]; [|done]. destruct sc; cbn; eauto.
Qed.

(** C2: Every request is bracketed and every permit comes back.  However a chat
    completion ends (a cache hit, an error, a short-circuit, a response after any
    number of retries and fallbacks), it returns; the router is told of at most
    [RetryCount + 1] requests, each one started, judged once and ended before the
    next begins, a success being the last; and no provider has more or fewer
    permits in use than before. *)
Theorem completion_balanced ctx req w :
  world_ok w -> Forall keeps_request w.(w_client).(cl_pipeline).(plugins) ->
  exists w' res, ChatCompletion ctx req w = (w', Some res) /\ completion_post w w'.
Proof.
  intros Hok Hpl. apply wp_run. unfold ChatCompletion. destruct (validate_request req) as [err|q].
  { wp_step. apply completion_post_same; [apply Hok|done]. }
  apply wp_silent; [apply silent_getContext|]. intros pCtx w1 V1. wp_step.
  assert (Hpl1 : Forall keeps_request w1.(w_client).(cl_pipeline).(plugins)).
  { apply view_parts in V1 as (Hs & _ & _). unfold setup in Hs. injection Hs as _ _ _ -> _. done. }
  set (pl := w1.(w_client).(cl_pipeline)) in *.
  apply wp_bind. unfold wp at 1, on_plugins. destruct (pre_hooks_keep pl.(plugins) 0 (pCtx, w1.(w_plugins)) q Hpl1) as [q' Hq'].
  unfold RunPreHooks. destruct (pre_hooks pl.(plugins) 0 (pCtx, _) (Some q)) as [[pCtx2 p2] [[req2 sc] n]]. cbn in Hq'. subst req2.
  set (w2 := w1<|w_plugins := p2|>). assert (V2 : view w2 = view w) by exact V1. clearbody w2.
  pose proof (world_ok_view _ _ V2 Hok) as Hok2.
  apply wp_bind. eapply (wp_mono _ (fun _ w' => completion_post w w')).
  2: { intros [pCtx3 res] w3 Hpost. apply wp_silent; [apply silent_pool|]. intros _ w4 V4. wp_step.
       by apply (completion_post_view w w w3). }
  assert (Cont : wp (complete ctx pCtx2 q') (fun _ w' => completion_post w w') w2).
  { eapply wp_mono; [by apply complete_post|]. intros r w3 Hpost. by apply (completion_post_view w w2 w3). }
  destruct sc as [[resp err allow]|]; [|exact Cont]. cbn [sc_Error sc_Response].
  destruct err as [err|]; [wp_step; apply completion_post_same; [apply Hok|done]|].
  destruct resp as [resp|]; [|exact Cont]. apply wp_silent; [apply silent_run_post_hooks|]. intros fin w3 V3. wp_step.
  apply completion_post_same; [apply Hok|congruence].
Qed.
End Attempts.

(** The first provider is down, the second answers: two requests, in this order,
    and no permit is left in use. *)
Definition two_providers (rs : list (go_error + HttpResponse)) :=
  Demo.world_of (Demo.client ((["east"; "west"] : Demo.router), [] : list router_ev) {[ "gpt-4o" := Demo.price ]} defaultConfig) rs.

Lemma completion_balanced_witness :
  let w := two_providers [Demo.answer 503 "busy"; Demo.answer 200 "r1"] in
  let d n := new_deployment n 2 "gpt-4o" in
  (exists w' res, ChatCompletion Demo.nobody (Some (Demo.request "gpt-4o")) w = (w', Some res) /\ completion_post w w')
  /\ trace (ChatCompletion Demo.nobody (Some (Demo.request "gpt-4o")) w).1
     = [EvStart [] (d "east"); EvFailure [] (d "east"); EvEnd [] (d "east"); EvStart [] (d "west"); EvSuccess [] (d "west"); EvEnd [] (d "west")].
Proof.
  intros w d. split; [|vm_compute; reflexivity]. apply completion_balanced; [|constructor].
  split_and!; [|apply map_Forall_empty|done]. unfold providers_ok. cbn.
  apply map_Forall_insert_2; [done|]. by apply map_Forall_singleton.
Defined.
