(* ===== verification/ClientBehaviour.v ===== *)
(** * How the client behaves ([client.go])

    Backoff, rate limits, the response cache, statistics by tenant, and plug-ins
    around a completion. *)
From stdpp Require Import pretty.
From S2P Require Import Prelude Float64 Errors ModelName RouterTypes StatsStore BaseRouter Strategies Factory Semaphore ResilienceManager RedisLimiter AuthTypes PluginPipeline ClientTypes Client ClientProofs ClientDemo.

#[local] Abbreviation result A := (option A * option go_error)%type.

(** ** The order of strings *)

Lemma ascii_compare_refl c : Ascii.compare c c = Eq.
Proof. apply N.compare_refl. Qed.

Lemma ascii_compare_eq c d : Ascii.compare c d = Eq -> c = d.
Proof.
  unfold Ascii.compare. intros Hn%N.compare_eq. by rewrite <- (Ascii.ascii_N_embedding c), <- (Ascii.ascii_N_embedding d), Hn.
Qed.

(** "Not less than" composes. *)
Lemma compare_ge_trans s1 s2 s3 :
  String.compare s1 s2 <> Lt -> String.compare s2 s3 <> Lt -> String.compare s1 s3 <> Lt.
Proof.
  revert s2 s3. induction s1 as [|a s1 IH]; intros [|b s2] [|c s3]; cbn; try done.
  destruct (Ascii.compare a b) eqn:Eab, (Ascii.compare b c) eqn:Ebc; try done.
  - apply ascii_compare_eq in Eab, Ebc. subst. rewrite ascii_compare_refl. apply IH.
  - apply ascii_compare_eq in Eab. subst. by rewrite Ebc.
  - apply ascii_compare_eq in Ebc. subst. by rewrite Eab.
  - unfold Ascii.compare in *. rewrite N.compare_gt_iff in Eab, Ebc.
    assert (Hac : (Ascii.N_of_ascii a ?= Ascii.N_of_ascii c)%N = Gt) by (apply N.compare_gt_iff; lia). by rewrite Hac.
Qed.

Lemma ltb_false s t : String.ltb s t = false <-> String.compare s t <> Lt.
Proof. unfold String.ltb. by destruct (String.compare s t). Qed.

#[export] Instance by_key_strict_weak : StrictWeakOn (fun a b : string * string => String.ltb a.1 b.1) (fun _ => True).
Proof.
  split.
  - intros x y _ _ Hlt. apply ltb_false. unfold String.ltb in Hlt. rewrite String.compare_antisym.
    by destruct (String.compare x.1 y.1).
  - intros x y z _ _ _. rewrite !ltb_false. apply compare_ge_trans.
Qed.

(** Sorting by distinct keys forgets the order. *)
Lemma sorted_extra_perm l k : NoDup l.*1 -> l ≡ₚ k -> sorted_extra l = sorted_extra k.
Proof.
  intros Hn Hp. unfold sorted_extra, sort_slice_stable. f_equal.
  assert (S : forall l0, descending (fun a b : string * string => String.ltb a.1 b.1) (insertion_sort (fun a b => String.ltb a.1 b.1) [] l0)).
  { intros l0. apply (insertion_sort_descending _ (fun _ => True)); [constructor| |constructor]. by apply Forall_forall. }
  eapply StronglySorted_unique_strong; [|apply S|apply S|by rewrite !insertion_sort_perm].
  intros x y Hx Hy H1 H2. rewrite insertion_sort_perm in Hx, Hy. cbn in Hx, Hy. rewrite <- Hp in Hy.
  apply ltb_false in H1, H2. rewrite String.compare_antisym in H2.
  assert (He : x.1 = y.1) by (apply String.compare_eq_iff; by destruct (String.compare x.1 y.1)).
  destruct x as [kx vx], y as [ky vy]. cbn in He. subst ky. f_equal.
  clear -Hn Hx Hy. induction l as [|[k1 v1] l IH]; [by apply elem_of_nil in Hx|].
  cbn in Hn. apply NoDup_cons in Hn as [Hk Hn]. apply elem_of_cons in Hx as [Ex|Hx], Hy as [Ey|Hy]; simplify_eq.
  - done.
  - exfalso. apply Hk, list_elem_of_fmap. by exists (k1, vy).
  - exfalso. apply Hk, list_elem_of_fmap. by exists (k1, vx).
  - by apply IH.
Qed.

(** ** Backoff *)

(** Doubling stops before it would leave the range of [int64]. *)
Lemma double_backoff_spec n b :
  0 < b < two63 ->
  exists j, (j <= n)%nat /\ double_backoff n b = b * 2 ^ Z.of_nat j /\ b * 2 ^ Z.of_nat j < two63
    /\ (j = n \/ two63 <= b * 2 ^ Z.of_nat (S j)).
Proof.
  revert b. induction n as [|n IH]; intros b Hb.
  { exists 0%nat. cbn. repeat split; (lia || by left). }
  cbn [double_backoff]. destruct (Z.lt_ge_cases (b * 2) two63) as [Hlt|Hge].
  - rewrite wrap64_id by (unfold in_i64; lia). destruct (Z.ltb_spec (b * 2) b); [lia|].
    destruct (IH (b * 2)) as (j & Hj & -> & Hr & Hmax); [lia|]. exists (S j).
    rewrite !Nat2Z.inj_succ, !Z.pow_succ_r in * by lia. repeat split; [lia|lia|lia|].
    destruct Hmax as [->|Hmax]; [by left|right; lia].
  - replace (wrap64 (b * 2)) with (b * 2 - two64).
    2: { unfold wrap64. rewrite (Z.mod_eq (b * 2 + two63) two64) by done.
         replace ((b * 2 + two63) / two64) with 1; [unfold two63, two64 in *; lia|].
         apply (Z.div_unique _ _ _ (b * 2 + two63 - two64)); unfold two63, two64 in *; lia. }
    destruct (Z.ltb_spec (b * 2 - two64) b); [|unfold two63, two64 in *; lia].
    exists 0%nat. cbn. repeat split; [lia|lia|lia|right; lia].
Qed.

Lemma cap_backoff_le max b : 0 < max -> cap_backoff max b <= max.
Proof. intros Hmax. unfold cap_backoff. destruct (Z.ltb_spec 0 max), (Z.ltb_spec max b); cbn; lia. Qed.

Section Behaviour.
Context {E HttpRequest RT P L C : Type}.
Context `{!Network E HttpRequest} `{!RouterI RT} `{!DistributedLimiter L} `{!CacheI C} `{!Tokenizer} `{!Codec}.
#[local] Abbreviation world := (@world E HttpRequest RT P L C).
Implicit Types w : world.

(** Backoff doubles, in range and under its cap.  Before attempt [n] the pause is
    the configured one doubled [n - 1] times, or as often as fits an [int64], cut
    down to the maximum; with jitter, whatever the draw, it stays under the
    maximum. *)
Theorem backoff_bounds attempt w :
  let cfg := w.(w_client).(cl_config) in
  0 < attempt -> 0 < cfg.(RetryBackoff) < two63 ->
  exists w' d, retryBackoff attempt w = (w', Some d)
    /\ (0 < cfg.(RetryMaxBackoff) -> d <= cfg.(RetryMaxBackoff))
    /\ ((fzero <.? cfg.(RetryJitter)) = false ->
        exists j, d = cap_backoff cfg.(RetryMaxBackoff) (cfg.(RetryBackoff) * 2 ^ j) /\ 0 <= j <= attempt - 1
          /\ cfg.(RetryBackoff) * 2 ^ j < two63 /\ (j = attempt - 1 \/ two63 <= cfg.(RetryBackoff) * 2 ^ (j + 1))).
Proof.
  intros cfg Ha Hb. apply wp_run. unfold retryBackoff. wp_step. fold cfg.
  destruct (Z.leb_spec attempt 0); [lia|]. destruct (Z.leb_spec cfg.(RetryBackoff) 0); [lia|]. cbn [orb].
  destruct (double_backoff_spec (Z.to_nat (attempt - 1)) cfg.(RetryBackoff) Hb) as (j & Hj & -> & Hr & Hmax).
  destruct (fzero <.? cfg.(RetryJitter)) eqn:Ej; cbn [andb].
  - match goal with |- context [if ?b then _ else _] => destruct b end; wp_step; try wp_step; (split; [|done]); by apply cap_backoff_le.
  - wp_step. split; [by apply cap_backoff_le|]. intros _. exists (Z.of_nat j). split_and!; [done|lia|lia|done|].
    rewrite Nat2Z.inj_succ, <- Z.add_1_r in Hmax. destruct Hmax as [->|Hmax]; [left; lia|by right].
Qed.

(** ** Rate limits *)

(** What the client does about its rate limiter.  With limits configured, a
    backend that fails, or answers for another number of limits, lets the request
    through exactly when the client is set to fail open; an answer refuses the
    request exactly when some limit is exceeded. *)
Theorem client_limit_outcome key model n w l :
  let c := w.(w_client) in
  let cfg := c.(cl_rateLimiterConfig) in
  let ds := limit_descriptors cfg key model n in
  c.(cl_rateLimiter) = Some l -> cfg.(rl_Enabled) = true -> ds <> [] ->
  exists w' t l' res err, checkRateLimit key model n w = (w', Some err)
    /\ dl_CheckAllow t ds l = (l', res) /\ w'.(w_client).(cl_rateLimiter) = Some l'
    /\ match res with
       | inr rs => if decide (length rs = length ds) then err = None <-> Forall (fun r => r.(Allowed) = true) rs
                   else err = None <-> cfg.(rl_FailOpen) = true
       | inl _ => err = None <-> cfg.(rl_FailOpen) = true
       end.
Proof.
  intros c cfg ds Hl He Hd. unfold checkRateLimit, bind, gets. cbn. fold c. fold cfg. rewrite Hl, He. cbn [negb]. fold ds.
  destruct ds as [|d0 ds0] eqn:Eds; [done|]. rewrite <- Eds in *. unfold on_env.
  destruct (now w.(w_env)) as [e t] eqn:Et. cbn. destruct (dl_CheckAllow t ds l) as [l' res] eqn:Ec. cbn.
  eexists _, t, l', res, _. split; [done|]. split; [done|]. split; [done|]. destruct res as [err|rs].
  { by destruct (rl_FailOpen cfg). }
  case_decide as Hlen; [rewrite (proj2 (Nat.eqb_eq _ _) Hlen)|rewrite (proj2 (Nat.eqb_neq _ _) Hlen); cbn; by destruct (rl_FailOpen cfg)].
  cbn. clear Eds Ec Hd. clearbody ds. revert rs Hlen. induction ds as [|d ds IH]; intros [|r rs] Hlen; try done; cbn.
  destruct (Allowed r) eqn:Ea; [|split; [done|]; intros [? _]%Forall_cons; congruence].
  rewrite IH by (cbn in Hlen; lia). rewrite Forall_cons. tauto.
Qed.

(** ** The response cache *)

(** The cache key does not depend on the order in which the map of extra fields
    is iterated. *)
Theorem cache_key_order_free ctx req range :
  range ≡ₚ map_to_list (default ∅ req.(q_Extra)) ->
  key_data ctx req range = key_data ctx req (map_to_list (default ∅ req.(q_Extra))).
Proof.
  intros Hp. unfold key_data. f_equal. apply sorted_extra_perm; [|done].
  rewrite Hp. apply NoDup_fst_map_to_list.
Qed.

(** The world of a client with a cache and without plug-ins or rate limits. *)
Record caching w (c : C) (reg : Registry) : Prop := {
  ca_cache : w.(w_client).(cl_cache) = Some c;
  ca_plugins : w.(w_client).(cl_pipeline).(plugins) = [];
  ca_limiter : w.(w_client).(cl_rateLimiter) = None;
  ca_pricing : w.(w_client).(cl_pricing) = Some reg;
}.

(** A request whose response is cached, at all times of the call. *)
Record cached_at (c : C) (ctx : Ctx) (req : ChatRequest) (key : string) (resp : ChatResponse) : Prop := {
  cd_valid : validate_request (Some req) = inr req;
  cd_stream : req.(q_Stream) = false;
  cd_key : generateCacheKey ctx req = inr key;
  cd_hit : exists data, (forall t, cache_Get t key c = (c, inr (Some data))) /\ unmarshal_response data = inr resp;
}.

Definition cached_provider (resp : ChatResponse) : string := match resp.(p_Usage) with Some u => u.(us_Provider) | None => "" end.

Lemma wp_getContext ctx (Q : Context -> world -> Prop) w :
  (forall pCtx e pool, Q pCtx (w<|w_env := e|><|w_client ::= fun c => c<|cl_ctxPool := pool|>|>)) -> wp (getContext ctx) Q w.
Proof. intros HQ. unfold getContext. wp_step. wp_step. unfold wp. apply HQ. Qed.

(** The second hooks when there are none. *)
Lemma wp_no_post_hooks pCtx resp err (Q : _ -> world -> Prop) w :
  w.(w_client).(cl_pipeline).(plugins) = [] -> Q (pCtx, (resp, err)) w -> wp (run_post_hooks pCtx resp err) Q w.
Proof.
  intros Hpl HQ. unfold run_post_hooks. wp_step. unfold wp, on_plugins, RunPostHooks, reversed_prefix. rewrite Hpl.
  rewrite take_nil. cbn. by destruct w.
Qed.

(** A completion without plug-ins is its middle part. *)
Lemma wp_no_plugins ctx req (Q : _ -> world -> Prop) w :
  validate_request (Some req) = inr req -> w.(w_client).(cl_pipeline).(plugins) = [] ->
  (forall pCtx e pool, wp (complete ctx pCtx req) (fun out w' => Q out.2 (w'<|w_client ::= fun c => c<|cl_ctxPool ::= cons (PutContext out.1)|>|>))
     (w<|w_env := e|><|w_client ::= fun c => c<|cl_ctxPool := pool|>|>)) ->
  wp (ChatCompletion ctx (Some req)) Q w.
Proof.
  intros Hv Hpl HQ. unfold ChatCompletion. rewrite Hv. apply wp_bind, wp_getContext. intros pCtx e pool.
  specialize (HQ pCtx e pool). set (w1 := w<|w_env := e|><|w_client ::= _|>) in *.
  assert (Hpl1 : w1.(w_client).(cl_pipeline).(plugins) = []) by exact Hpl. clearbody w1. wp_step.
  apply wp_bind. unfold wp at 1, on_plugins, RunPreHooks. rewrite Hpl1. cbn [pre_hooks]. destruct w1 as [? ? ? ?].
  apply wp_bind. eapply wp_mono; [exact HQ|]. intros [pCtx' res] w' Hq. unfold putContext. wp_step. wp_step. exact Hq.
Qed.

(** A completion that finds its response in the cache comes to the price check. *)
Lemma wp_cache_hit ctx req c reg key resp pCtx (Q : _ -> world -> Prop) w :
  caching w c reg -> cached_at c ctx req key resp ->
  (forall w', caching w' c reg -> w'.(w_client).(cl_config) = w.(w_client).(cl_config) ->
     wp (match GetPrice reg (canonical req.(q_Model)) (cached_provider resp) with
         | None => ret (pCtx, fail (ELLM (NewInternalError (cached_provider resp) (canonical req.(q_Model)) "pricing not configured for model")))
         | Some _ => after_provider ctx pCtx req (success resp)
         end) Q w') ->
  wp (complete ctx pCtx req) Q w.
Proof.
  intros [Hca Hpl Hl Hpr] [Hv Hs Hk (stored & Hg & Hu)] HQ.
  unfold complete, rate_limited, checkRateLimit, cached_response, getFromCache, validatePricing.
  do 3 wp_step. rewrite Hl. do 2 wp_step. rewrite Hca, Hs. wp_step. rewrite Hca, Hk. wp_step. rewrite Hg. do 3 wp_step.
  rewrite Hu. cbn [success]. do 2 wp_step. cbn. rewrite Hpr. fold (cached_provider resp).
  assert (HQ' : forall e, caching (w<|w_env := e|><|w_client ::= fun c0 => c0<|cl_cache := Some c|>|>) c reg) by (by split).
  specialize (HQ _ (HQ' e) eq_refl). by destruct (GetPrice reg _ _).
Qed.

(** A response read from the cache is stored again, with the whole time to live
    from now: as long as a request comes again before the deadline, the entry
    outlives any time to live that was set for it. *)
Theorem cache_hit_renews ctx req w c reg key resp data :
  caching w c reg -> cached_at c ctx req key resp -> is_Some (GetPrice reg (canonical req.(q_Model)) (cached_provider resp)) ->
  marshal_response resp = inr data ->
  exists w' t, ChatCompletion ctx (Some req) w = (w', Some (success resp))
    /\ w'.(w_client).(cl_cache) = Some (cache_Set t key data w.(w_client).(cl_config).(CacheTTL) c).1.
Proof.
  intros Hw Hc Hp Hm.
  assert (R : wp (ChatCompletion ctx (Some req)) (fun res w' => res = success resp
    /\ exists t, w'.(w_client).(cl_cache) = Some (cache_Set t key data w.(w_client).(cl_config).(CacheTTL) c).1) w).
  { apply wp_no_plugins; [apply Hc|apply Hw|]. intros pCtx e pool. eapply wp_cache_hit; [|exact Hc|].
    { by split; cbn; apply Hw. }
    intros w1 [Hca Hpl Hl Hpr] Hcfg. destruct Hp as [pr Hp], Hc as [Hv Hs Hk _]. rewrite Hp.
    unfold after_provider. apply wp_bind, wp_no_post_hooks; [done|]. wp_step. cbn. rewrite Hca, Hs. apply wp_bind. unfold storeInCache.
    wp_step. rewrite Hca, Hk, Hm. do 2 wp_step. wp_step. wp_step. cbn. rewrite Hcfg. eauto. }
  apply wp_run in R as (w' & res & Er & -> & t & Ht). eauto.
Qed.

(** A response that comes from the cache can be refused for its price.  The
    encoding of a response leaves the provider out, so a cached response is priced
    by the model alone: when prices are only listed under their provider, the
    request that was answered by the provider fails when it is repeated. *)
Theorem cached_reply_unpriced ctx req w c reg key resp :
  caching w c reg -> cached_at c ctx req key resp -> cached_provider resp = "" ->
  reg !! ("/" +:+ canonical req.(q_Model)) = None -> reg !! canonical req.(q_Model) = None ->
  exists w', ChatCompletion ctx (Some req) w
    = (w', Some (fail (ELLM (NewInternalError "" (canonical req.(q_Model)) "pricing not configured for model")))).
Proof.
  intros Hw Hc Hu H1 H2.
  assert (R : wp (ChatCompletion ctx (Some req)) (fun res _ =>
    res = fail (ELLM (NewInternalError "" (canonical req.(q_Model)) "pricing not configured for model"))) w).
  { apply wp_no_plugins; [apply Hc|apply Hw|]. intros pCtx e pool. eapply wp_cache_hit; [|exact Hc|].
    { by split; cbn; apply Hw. }
    intros w1 _ _. unfold GetPrice. rewrite Hu. cbn [String.append app]. change ("" +:+ "/" +:+ ?x) with ("/" +:+ x).
    rewrite H1, H2. by wp_step. }
  apply wp_run in R as (w' & res & Er & ->). eauto.
Qed.

(** ** Plug-ins *)

(** A short-circuit with a response runs the second hook of every plug-in, also
    of those whose first hook did not run; one with an error runs none.  (Of the
    pipeline itself: only the plug-ins whose first hook ran.) *)
Theorem short_circuit_hooks ctx req w :
  validate_request (Some req) = inr req ->
  let pl := w.(w_client).(cl_pipeline) in
  exists pCtx, forall pw req' sc n,
    RunPreHooks pl (pCtx, w.(w_plugins)) (Some req) = (pw, (req', Some sc, n)) ->
    (forall err, sc.(sc_Error) = Some err ->
       exists w', ChatCompletion ctx (Some req) w = (w', Some (fail err)) /\ w'.(w_plugins) = pw.2)
    /\ (forall resp, sc.(sc_Error) = None -> sc.(sc_Response) = Some resp ->
       let '(pw', (final, _)) := post_hooks (reverse pl.(plugins)) pw (Some resp) None in
       exists w', ChatCompletion ctx (Some req) w = (w', Some (final, None)) /\ w'.(w_plugins) = pw'.2).
Proof.
  intros Hv pl. destruct (now w.(w_env)) as [e1 t1] eqn:E1. destruct (now e1) as [e2 t2] eqn:E2.
  exists (GetContext t2 (head w.(w_client).(cl_ctxPool)) (Some ctx) (generateRequestID t1)).
  intros pw req' sc n Hpre. unfold ChatCompletion, getContext, on_env, gets, bind, on_plugins. rewrite Hv, E1. cbn. rewrite E2. cbn.
  fold pl. rewrite Hpre. destruct pw as [pCtx' p']. cbn. split.
  - intros err ->. cbn. eauto.
  - intros resp -> ->. unfold run_post_hooks, bind, gets, on_plugins. cbn. fold pl. unfold RunPostHooks, reversed_prefix, PluginCount.
    destruct (Z.ltb_spec (Z.of_nat (length pl.(plugins))) 0); [lia|]. rewrite Z.ltb_irrefl, Nat2Z.id, firstn_all.
    destruct (post_hooks _ _ _ _) as [[pCtx2 p2] [final ferr]]. cbn. eauto.
Qed.

(** ** Retries *)

(** An error that is not worth a retry ends the request at once, and what the
    attempt did is all that was done. *)
Theorem final_error_ends ctx prov d req w w1 e :
  0 <= w.(w_client).(cl_config).(RetryCount) -> e.(Retryable) = false ->
  executeOnce ctx prov d req w = (w1, Some (fail (ELLM e))) ->
  executeWithRetry ctx prov d req w = (w1, Some (fail (ELLM e))).
Proof.
  intros Hr He Hx. unfold executeWithRetry, bind at 1, gets. cbn [fst snd].
  replace (Z.to_nat (RetryCount (cl_config (w_client w)) + 1)) with (S (Z.to_nat (RetryCount (cl_config (w_client w))))) by lia.
  cbn [retry_loop]. unfold bind, before_attempt. cbn. rewrite Hx. cbn. by rewrite He.
Qed.

(** A negative number of retries makes a completion return neither a response nor
    an error. *)
Theorem negative_retries_return_nothing ctx prov d req w :
  w.(w_client).(cl_config).(RetryCount) < 0 -> executeWithRetry ctx prov d req w = (w, Some (None, None)).
Proof.
  intros Hr. unfold executeWithRetry, bind, gets. cbn. by replace (Z.to_nat (RetryCount (cl_config (w_client w)) + 1)) with 0%nat by lia.
Qed.

(** A fallback to a deployment whose provider the client does not know keeps the
    provider of the deployment that failed: the next attempt is sent there and
    reported under the new deployment. *)
Theorem fallback_keeps_provider ctx req n prov d err w rt d' :
  r_PickWithContext ctx.(c_scope) (buildRouterRequestContext (Some req) n req.(q_Stream)) w.(w_client).(cl_router) = (rt, Ok d') ->
  d'.(ID) <> d.(ID) -> w.(w_client).(cl_providers) !! d'.(ProviderName) = None ->
  exists w' f, fall_back ctx req n prov d err w = (w', Some (prov, d', Some f)).
Proof.
  intros Hp Hid Hn. unfold fall_back, pick, bind, gets, ret. rewrite Hp. cbn. apply String.eqb_neq in Hid. rewrite Hid. cbn. rewrite Hn. eauto.
Qed.
End Behaviour.

(** ** Witnesses *)

Definition demo_world (cfg : ClientConfig) (prices : Registry) (cache : option Demo.store) rs :=
  let w := Demo.world_of (Demo.client (["east"; "west"] : Demo.router) prices cfg) rs in
  w<|w_client ::= fun c => c<|cl_cache := cache|>|>.

Lemma backoff_bounds_witness :
  let cfg := defaultConfig<|RetryJitter := fzero|> in
  (retryBackoff 3 (demo_world cfg ∅ None [])).2 = Some (4 * Second) /\ (retryBackoff 4 (demo_world cfg ∅ None [])).2 = Some (5 * Second).
Proof.
  intros cfg. pose proof (backoff_bounds 3 (demo_world cfg ∅ None [])) as B. cbn in B.
  destruct B as (w' & d & Er & _ & Hj); [lia|done|]. split; vm_compute; reflexivity.
Defined.

(** A limiter whose backend is down. *)
Definition down_limiter : DistributedLimiter unit := {| dl_CheckAllow _ _ l := (l, inl "connection refused") |}.

Lemma client_limit_outcome_witness :
  let w := demo_world defaultConfig ∅ None [] in
  let w := w<|w_client ::= fun c => c<|cl_rateLimiter := Some tt|><|cl_rateLimiterConfig ::= fun f => f<|rl_Enabled := true|><|rl_RPMLimit := 60|>|>|> in
  exists w' err, @checkRateLimit _ _ _ _ _ _ _ down_limiter "k" "gpt-4o" 10 w = (w', Some err) /\ err <> None.
Proof.
  intros w0 w.
  destruct (@client_limit_outcome _ _ Demo.router unit unit Demo.store _ down_limiter "k" "gpt-4o" 10 w tt)
    as (w' & t & l' & res & err & Er & Ec & _ & Ho); [reflexivity|reflexivity|done|].
  exists w', err. split; [exact Er|]. injection Ec as <- <-. cbn in Ho. intros Hn. by apply Ho in Hn.
Defined.

Lemma cache_key_order_free_witness :
  let req := (Demo.request "gpt-4o")<|q_Extra := Some {[ "a" := "1"; "b" := "2" ]}|> in
  key_data Demo.nobody req [("b", "2"); ("a", "1")] = key_data Demo.nobody req [("a", "1"); ("b", "2")].
Proof.
  intros req. transitivity (key_data Demo.nobody req (map_to_list (default ∅ req.(q_Extra)))).
  - apply cache_key_order_free. assert (M : map_to_list (default ∅ req.(q_Extra)) ≡ₚ [("a", "1"); ("b", "2")]).
    { cbn. rewrite map_to_list_insert by done. by rewrite map_to_list_singleton. }
    rewrite M. apply Permutation_swap.
  - symmetry. apply cache_key_order_free. cbn. rewrite map_to_list_insert by done. by rewrite map_to_list_singleton.
Defined.

(** An entry that lasts as long as the demonstration. *)
Definition warm : Demo.store := {[ "chat:|gpt-4o" := ("r1", 2 ^ 70) ]}.

Definition priced : Registry := {[ "gpt-4o" := Demo.price ]}.
Definition cached_r1 : ChatResponse :=
  Demo.plain "r1" (Some {| us_PromptTokens := 10; us_CompletionTokens := 5; us_TotalTokens := 15; us_Provider := "" |}).

(** The demonstration's cache answers at any time below its deadline; this one
    does not look at the time. *)
Definition patient_cache : CacheI Demo.store := {|
  cache_Get _ k m := (m, inr (fst <$> m !! k));
  cache_Set t k v ttl m := (<[k := (v, t + ttl)]> m, None);
|}.

Lemma warm_hit : @cached_at _ patient_cache Demo.codec warm Demo.nobody (Demo.request "gpt-4o") "chat:|gpt-4o" cached_r1.
Proof. split; [reflexivity|reflexivity|reflexivity|]. exists "r1". split; [intros t; reflexivity|reflexivity]. Qed.

Lemma cache_hit_renews_witness :
  let w := demo_world defaultConfig priced (Some warm) [] in
  exists w' t, @ChatCompletion _ _ _ _ _ _ _ _ _ patient_cache _ _ Demo.nobody (Some (Demo.request "gpt-4o")) w = (w', Some (success cached_r1))
    /\ w'.(w_client).(cl_cache) = Some (<["chat:|gpt-4o" := ("r1", t + Hour)]> warm).
Proof.
  intros w. eapply (@cache_hit_renews _ _ _ _ _ _ _ _ _ patient_cache _ _) with (c := warm) (reg := priced);
    [split; reflexivity|exact warm_hit|eexists; reflexivity|reflexivity].
Defined.

Lemma cached_reply_unpriced_witness :
  let w := demo_world defaultConfig {[ "east/gpt-4o" := Demo.price ]} (Some warm) [] in
  exists w', @ChatCompletion _ _ _ _ _ _ _ _ _ patient_cache _ _ Demo.nobody (Some (Demo.request "gpt-4o")) w
    = (w', Some (fail (ELLM (NewInternalError "" "gpt-4o" "pricing not configured for model")))).
Proof.
  intros w. eapply (@cached_reply_unpriced _ _ _ _ _ _ _ _ _ patient_cache _ _) with (c := warm) (reg := {[ "east/gpt-4o" := Demo.price ]});
    [split; reflexivity|exact warm_hit|reflexivity..].
Defined.

(** The first plug-in answers itself; the second marks every response. *)
Definition guard : Plugin (Context * unit) ChatRequest ChatResponse StreamChunk :=
  {| Name := "guard"; Priority := 1;
     PreHook w req := (w, (req, Some {| sc_Response := Some (Demo.plain "r" None); sc_Error := None; sc_AllowFallback := true |}, None));
     PostHook w resp err := (w, (resp, err, None)); Cleanup w := (w, None); stream := None |}.
Definition marker : Plugin (Context * unit) ChatRequest ChatResponse StreamChunk :=
  {| Name := "marker"; Priority := 2; PreHook w req := (w, (req, None, None));
     PostHook w resp err := (w, ((fun r => r<|p_ID ::= fun s => s +:+ "!"|>) <$> resp, err, None));
     Cleanup w := (w, None); stream := None |}.

Lemma short_circuit_hooks_witness :
  let pl := {| plugins := [guard; marker]; PluginPipeline.config := DefaultPipelineConfig; closed := false |} in
  let w := (demo_world defaultConfig ∅ None [])<|w_client ::= fun c => c<|cl_pipeline := pl|>|> in
  exists w', ChatCompletion Demo.nobody (Some (Demo.request "gpt-4o")) w = (w', Some (success (Demo.plain "r!" None))).
Proof.
  intros pl w. destruct (short_circuit_hooks Demo.nobody (Demo.request "gpt-4o") w) as [pCtx H]; [reflexivity|].
  destruct (H _ _ _ _ eq_refl) as [_ H2]. specialize (H2 (Demo.plain "r" None) eq_refl eq_refl). cbn in H2.
  destruct H2 as (w' & Er & _). exists w'. exact Er.
Defined.

Lemma negative_retries_return_nothing_witness :
  let w := demo_world (defaultConfig<|RetryCount := -1|>) ∅ None [] in
  executeWithRetry Demo.nobody (Demo.provider "east") (new_deployment "east" 2 "gpt-4o") (Demo.request "gpt-4o") w = (w, Some (None, None)).
Proof. intros w. apply negative_retries_return_nothing. reflexivity. Defined.

Lemma fallback_keeps_provider_witness :
  let w := Demo.world_of (Demo.client (["north"] : Demo.router) ∅ defaultConfig) [] in
  exists w' f, fall_back Demo.nobody (Demo.request "gpt-4o") 10 (Demo.provider "east") (new_deployment "east" 2 "gpt-4o") (EText "down") w
    = (w', Some (Demo.provider "east", new_deployment "north" 2 "gpt-4o", Some f)).
Proof. intros w. eapply fallback_keeps_provider; [reflexivity|done|reflexivity]. Defined.
