(* ===== verification/RoutedClient.v ===== *)
(** * The client over the gateway's routers ([client.go] with [routers])

    The routers of [Factory] as the router of the client: they read the clock and
    the random source themselves.  [createRouter] builds one from the client's
    configuration.  What the client reports and what it asks for do not meet: a
    completion reports under the tenant of the request and picks without it. *)
From S2P Require Import Prelude Float64 Errors ModelName RouterTypes StatsStore BaseRouter Strategies Factory Semaphore ResilienceManager RedisLimiter AuthTypes PluginPipeline ClientTypes Client ClientProofs ClientDemo PickTheorems AuthStoreProofs.

Section Routed.
Context {S R : Type} `{!StatsStore S} `{!RoundRobinStore R}.

(** A router with what its readings of the clock and its draws will be. *)
Record routed := {
  ro_router : Router S R;
  ro_clock : nat -> time;
  ro_rand : nat -> Rand;
  ro_tick : nat;
}.

Definition on_base (f : (nat -> time) -> BaseRouter S -> BaseRouter S) (r : routed) : routed :=
  r<|ro_router ::= promote (f (fun i => r.(ro_clock) (r.(ro_tick) + i)%nat))|><|ro_tick ::= fun n => (n + 3)%nat|>.

#[export] Instance routed_router : RouterI routed := {|
  r_PickWithContext ctx req r :=
    let '(rt, res) := Factory.PickWithContext (r.(ro_clock) r.(ro_tick)) (r.(ro_rand) r.(ro_tick)) r.(ro_router) ctx req in
    (r<|ro_router := rt|><|ro_tick ::= Datatypes.S|>, res);
  r_ReportRequestStart ctx d := on_base (fun _ b => ReportRequestStart b ctx d);
  r_ReportRequestEnd ctx d := on_base (fun _ b => ReportRequestEnd b ctx d);
  r_ReportSuccess ctx d m := on_base (fun t b => ReportSuccess (t 0%nat) (t 1%nat) b ctx d m);
  r_ReportFailure ctx d err := on_base (fun t b => ReportFailure (t 0%nat) (t 1%nat) (t 2%nat) b ctx d err);
  r_AddDeployment d := on_base (fun _ b => AddDeployment b d);
  r_RemoveDeployment id := on_base (fun _ b => RemoveDeployment b id);
|}.

(** A strategy that cannot be built is replaced by the shuffle router with its
    own settings. *)
Definition createRouter (defaultPrices : string) (readFile : string -> option string) (decode : string -> option Registry)
  (c : ClientConfig) (strategy : Strategy) (store : option S) (rr : option R) : Router S R :=
  let config := DefaultConfig<|CStrategy := strategy|><|CooldownPeriod := c.(cc_CooldownPeriod)|><|EWMAAlpha := c.(cc_EWMAAlpha)|>
                  <|LatencyBuffer := f64_lit 1 10|><|CMaxLatencyListSize := 10|><|PricingFile := c.(cc_PricingFile)|>
                  <|DefaultProvider := c.(cc_DefaultProvider)|> in
  match NewWithStores defaultPrices readFile decode config store rr with
  | inr r => r
  | inl _ => Shuffle (newShuffleRouterWithStore DefaultConfig None)
  end.

(** ** What a pick without a tenant sees *)

(** The deployments and the local statistics but those under [key]. *)
Definition unscoped (key : string) (b : BaseRouter S) : option (Config * gmap string (list ExtendedDeployment) * gmap string statsEntry) :=
  match b.(statsStore) with
  | Some _ => None
  | None => Some (b.(BaseRouter.config), b.(BaseRouter.deployments), delete key b.(stats))
  end.

Lemma with_entry_unscoped key b f :
  b.(statsStore) = None -> unscoped key (with_entry b key f) = unscoped key b.
Proof. intros Hs. unfold unscoped, with_entry. cbn. rewrite Hs. by rewrite delete_insert_eq. Qed.

Lemma report_start_unscoped ctx d b : b.(statsStore) = None ->
  (ReportRequestStart b ctx d).(statsStore) = None /\ unscoped (localStatsKey ctx d.(ID)) (ReportRequestStart b ctx d) = unscoped (localStatsKey ctx d.(ID)) b.
Proof.
  intros Hs. unfold ReportRequestStart. cbn. rewrite Hs. split; [done|]. rewrite with_entry_unscoped by done. unfold unscoped, emit. done.
Qed.

Lemma report_end_unscoped ctx d b : b.(statsStore) = None ->
  (ReportRequestEnd b ctx d).(statsStore) = None /\ unscoped (localStatsKey ctx d.(ID)) (ReportRequestEnd b ctx d) = unscoped (localStatsKey ctx d.(ID)) b.
Proof.
  intros Hs. unfold ReportRequestEnd. cbn. rewrite Hs. split; [done|]. rewrite with_entry_unscoped by done. unfold unscoped, emit. done.
Qed.

Lemma report_success_unscoped t1 t2 ctx d m b : b.(statsStore) = None ->
  (ReportSuccess t1 t2 b ctx d m).(statsStore) = None /\ unscoped (localStatsKey ctx d.(ID)) (ReportSuccess t1 t2 b ctx d m) = unscoped (localStatsKey ctx d.(ID)) b.
Proof. intros Hs. unfold ReportSuccess. rewrite Hs. split; [done|]. by rewrite with_entry_unscoped. Qed.

Lemma report_failure_unscoped t1 t2 t3 ctx d e b : b.(statsStore) = None ->
  (ReportFailure t1 t2 t3 b ctx d e).(statsStore) = None /\ unscoped (localStatsKey ctx d.(ID)) (ReportFailure t1 t2 t3 b ctx d e) = unscoped (localStatsKey ctx d.(ID)) b.
Proof.
  intros Hs. unfold ReportFailure. rewrite Hs. destruct (failureEntry _ _ _ _ _ _) as [st' cooled].
  unfold recordCooldownMetric, unscoped. destruct cooled; [|cbn; rewrite Hs, delete_insert_eq; done].
  repeat case_match; cbn in *; rewrite ?Hs, ?delete_insert_eq in *; simplify_eq; done.
Qed.

(** ** A completion, seen without its tenant *)

Section Completion.
Context {E HttpRequest P L C : Type}.
Context `{!Network E HttpRequest} `{!DistributedLimiter L} `{!CacheI C} `{!Tokenizer} `{!Codec}.
#[local] Abbreviation world := (@world E HttpRequest routed P L C).
Implicit Types w : world.

Definition base_of w : BaseRouter S := baseOf w.(w_client).(cl_router).(ro_router).

(** [I] holds of the router after [m] when it did before, also when [m] panics. *)
Definition keeps {A : Type} (I : BaseRouter S -> Prop) (m : M A) : Prop := forall w, I (base_of w) -> I (base_of (m w).1).

Lemma keeps_bind {A B} I (m : M A) (k : A -> M B) : keeps I m -> (forall a, keeps I (k a)) -> keeps I (bind m k).
Proof.
  intros Hm Hk w HI. unfold bind. specialize (Hm w HI). destruct (m w) as [w1 [a|]]; [|done]. by apply Hk.
Qed.
Lemma keeps_ret {A} I (a : A) : keeps I (ret a).
Proof. by intros w. Qed.
Lemma keeps_panic {A} I : keeps I (panic (A:=A)).
Proof. by intros w. Qed.
Lemma keeps_gets {A} I (f : _ -> A) : keeps I (gets f).
Proof. by intros w. Qed.
Lemma keeps_in_env {A} I (f : E -> A) : keeps I (in_env f).
Proof. by intros w. Qed.
Lemma keeps_on_env {A} I (f : E -> E * A) : keeps I (on_env f).
Proof. intros w HI. unfold on_env. by destruct (f _). Qed.
Lemma keeps_manager I f : keeps I (modify (fun c => c<|cl_resilienceManager ::= f|>)).
Proof. by intros w. Qed.
Lemma keeps_on_router I f : (forall t b, I b -> I (f t b)) -> keeps I (on_router (on_base f)).
Proof. intros Hf w HI. unfold base_of, on_router, on_base. cbn. rewrite baseOf_promote. by apply Hf. Qed.

Definition seen (key : string) (u : option _) (b : BaseRouter S) : Prop := b.(statsStore) = None /\ unscoped key b = u.

Lemma seen_step key u b b' : (b'.(statsStore) = None /\ unscoped key b' = unscoped key b) -> seen key u b -> seen key u b'.
Proof. intros [H1 H2] [_ H3]. split; [done|by rewrite H2]. Qed.

#[local] Ltac keeps_tac :=
  repeat first [ apply keeps_bind; [|intros ?] | apply keeps_ret | apply keeps_panic | apply keeps_gets | apply keeps_in_env
               | apply keeps_on_env | apply keeps_manager | progress cbn beta zeta iota
               | match goal with |- keeps _ (match ?x with _ => _ end) => destruct x end ].

Lemma executeOnce_keeps ctx prov d req u :
  keeps (seen (localStatsKey (withTenantScope ctx).(c_scope) d.(ID)) u) (executeOnce ctx prov d req).
Proof.
  unfold executeOnce, validatePricing, acquireDeployment, send_once, release. keeps_tac.
  all: apply keeps_on_router; intros t b [Hs Hu]; (eapply seen_step; [|by split]).
  all: first [ by apply report_start_unscoped | by apply report_end_unscoped | by apply report_success_unscoped | by apply report_failure_unscoped ].
Qed.

Lemma unscoped_snapshot key b b' deps :
  seen key (unscoped key b) b' -> b.(statsStore) = None -> Forall (fun x => x.(Dep).(ID) <> key) deps ->
  statsSnapshot b' [] deps = statsSnapshot b [] deps.
Proof.
  intros [Hs' Hu] Hs. unfold unscoped in Hu. rewrite Hs', Hs in Hu. injection Hu as _ _ Hst. unfold statsSnapshot. generalize (∅ : gmap string DeploymentStats).
  induction deps as [|x deps IH]; intros m Hf; [done|]. apply Forall_cons in Hf as [Hx Hf]. cbn.
  assert (E0 : statsFor b' [] x.(Dep).(ID) = statsFor b [] x.(Dep).(ID)).
  { unfold statsFor. rewrite Hs, Hs'. cbn. by rewrite <- (lookup_delete_ne b'.(stats) key) , Hst, lookup_delete_ne. }
  rewrite E0. by apply IH.
Qed.

(** The outcome of a completion is not seen by the next pick.  A completion of an
    authenticated caller reports to the router under the caller's tenant but asks
    it without a tenant: after an attempt, whatever its outcome (a failure that
    starts a cooldown, a success with its latency, the load), the candidates of the
    next completion and their statistics are what they were. *)
Theorem completion_unseen ctx prov d req k w t model :
  ctx.(c_scope) = [] -> authenticated_key ctx = Some k -> k.(k_ID) <> "" -> (base_of w).(statsStore) = None ->
  Forall (fun x => x.(Dep).(ID) <> k.(k_ID) +:+ ":" +:+ d.(ID)) (snapshotDeployments (base_of w) model) ->
  healthyFor t (base_of (executeOnce ctx prov d req w).1) [] model = healthyFor t (base_of w) [] model.
Proof.
  intros Hc Hk Hid Hs Hf. set (w' := (executeOnce ctx prov d req w).1).
  assert (Hkey : localStatsKey (withTenantScope ctx).(c_scope) d.(ID) = k.(k_ID) +:+ ":" +:+ d.(ID)).
  { unfold withTenantScope. rewrite Hc, Hk. cbn. unfold WithTenantScope. apply String.eqb_neq in Hid. rewrite Hc, Hid.
    unfold localStatsKey. cbn. by rewrite Hid. }
  pose proof (executeOnce_keeps ctx prov d req (unscoped (k.(k_ID) +:+ ":" +:+ d.(ID)) (base_of w)) w) as Hseen. rewrite Hkey in Hseen.
  fold w' in Hseen. specialize (Hseen (conj Hs eq_refl)).
  assert (Hd : (base_of w').(BaseRouter.deployments) = (base_of w).(BaseRouter.deployments)).
  { destruct Hseen as [Hs' Hu]. unfold unscoped in Hu. rewrite Hs', Hs in Hu. by injection Hu. }
  assert (Hsnap : snapshotDeployments (base_of w') model = snapshotDeployments (base_of w) model).
  { unfold snapshotDeployments, lookupDeployments. by rewrite Hd. }
  unfold healthyFor. rewrite Hsnap. destruct (snapshotDeployments (base_of w) model) as [|x l] eqn:El; [done|]. cbn [ok_or outcome_bind].
  by rewrite (unscoped_snapshot _ _ _ _ Hseen Hs Hf).
Qed.
End Completion.
End Routed.
Arguments routed : clear implicits.

(** ** A tenant whose provider is down *)

Import PickTheorems.Fleet.

Definition east1 : Deployment := new_deployment "east" 0 "gpt-4o".
Definition west1 : Deployment := new_deployment "west" 0 "gpt-4o".

Definition pair_router : routed Fleet.store Fleet.rr :=
  {| ro_router := Shuffle (AddDeployment (AddDeployment (NewBaseRouter DefaultConfig) east1) west1);
     ro_clock := fun n => Fleet.noon + Z.of_nat n; ro_rand := fun n => {| draw_intn := n; draw_float := fzero; draw_shuffle := fun i => i |};
     ro_tick := 0 |}.

Definition tenant_ctx : Ctx :=
  {| c_scope := []; c_rateKey := "";
     c_auth := Some {| a_APIKey := Some (key_named "k1" "h1"); a_Team := None; a_User := None; a_RequestID := ""; a_UserRole := "";
                       a_EndUserID := ""; a_SSOUserID := ""; a_JWTTeamIDs := []; a_JWTOrgID := "" |} |}.

(** The provider answers 429: the tenant's statistics are in cooldown, and both
    deployments are candidates all the same. *)
Lemma completion_unseen_witness :
  let w := Demo.world_of (Demo.client pair_router {[ "gpt-4o" := Demo.price ]} defaultConfig) [Demo.answer 429 "busy"] in
  let w' := (executeOnce tenant_ctx (Demo.provider "east") east1 (Demo.request "gpt-4o") w).1 in
  let t := Fleet.noon + Second in
  match healthyFor t (base_of w') [] "gpt-4o" with Ok (l, _) => (Dep <$> l) = [east1; west1] | _ => False end
  /\ match statsFor (base_of w') ["k1"] "east-gpt-4o" with Some st => before t st.(CooldownUntil) = true | None => False end.
Proof.
  intros w w' t. split; [|vm_compute; reflexivity].
  unfold w'. rewrite (completion_unseen tenant_ctx (Demo.provider "east") east1 (Demo.request "gpt-4o") (key_named "k1" "h1") w t "gpt-4o");
    [|reflexivity|reflexivity|done|reflexivity|vm_compute; repeat constructor; discriminate].
  vm_compute. reflexivity.
Defined.
