(* ===== verification/StreamTheorems.v ===== *)
(** * What streaming guarantees ([stream.go])

    A stream that is repeated resumes where it broke; recovery ends; and however a
    stream is read, closing it ends its request and gives its permit back. *)
From Stdlib Require Import Ascii.
From S2P Require Import Prelude Float64 Errors ModelName Utf8 RouterTypes BaseRouter Strategies Semaphore ResilienceManager RedisLimiter AuthTypes PluginPipeline ClientTypes Client ClientProofs ClientTheorems Stream ClientDemo.

#[local] Abbreviation explode := String.list_ascii_of_string.
#[local] Abbreviation implode := String.string_of_list_ascii.
#[local] Abbreviation result A := (option A * option go_error)%type.

(** ** Skipping runes *)

Lemma drop_runes_nil n m : (concat (drop n (runes [])), Z.max 0 (m - RuneCount [])) = ([], Z.max 0 m).
Proof. change (runes []) with (@nil (list ascii)). rewrite drop_nil. unfold RuneCount. cbn. f_equal. lia. Qed.

Lemma trim_loop_spec fuel seen count value :
  (length value <= fuel)%nat -> seen <= count ->
  trim_loop fuel seen count value
    = (concat (drop (Z.to_nat (count - seen)) (runes value)), Z.max 0 (count - seen - RuneCount value)).
Proof.
  revert seen value. induction fuel as [|fuel IH]; intros seen value Hl Hs.
  { destruct value; [|cbn in Hl; lia]. rewrite drop_runes_nil. cbn. f_equal. lia. }
  destruct value as [|c value]; cbn [trim_loop].
  { rewrite drop_runes_nil. f_equal. lia. }
  pose proof (rune_width_bound (c :: value) ltac:(done)) as Hw. destruct (Z.eqb_spec seen count) as [->|Hne].
  - replace (Z.to_nat (count - count)) with 0%nat by lia. rewrite drop_0, concat_runes. f_equal. unfold RuneCount. lia.
  - rewrite IH; [|rewrite length_drop; lia|lia]. unfold RuneCount. rewrite (runes_cons (c :: value)) by done. cbn [length].
    replace (Z.to_nat (count - seen)) with (S (Z.to_nat (count - (seen + 1)))) by lia. cbn [drop]. f_equal. lia.
Qed.

(** Trimming drops runes.  What the loop over byte offsets returns is the text
    without its first [count] runes, and how many of them are still to come. *)
Theorem trim_drops_runes value count :
  0 <= count ->
  trimLeadingRunes value count = (concat (drop (Z.to_nat count) (runes value)), Z.max 0 (count - RuneCount value)).
Proof.
  intros Hc. unfold trimLeadingRunes. destruct (Z.leb_spec count 0); cbn [orb].
  { replace count with 0 by lia. rewrite drop_0, concat_runes. f_equal. unfold RuneCount. lia. }
  destruct value as [|c value]; cbn [length Nat.eqb].
  { rewrite drop_runes_nil. f_equal. lia. }
  rewrite trim_loop_spec by (done || lia). by rewrite Z.sub_0_r.
Qed.

Lemma trim_drops_runes_witness :
  let euro := ascii_of_N 226 :: ascii_of_N 130 :: ascii_of_N 172 :: explode "x" in
  trimLeadingRunes euro 1 = (explode "x", 0) /\ trimLeadingRunes euro 5 = ([], 3).
Proof. intros euro. split; (rewrite trim_drops_runes; [|lia]); vm_compute; reflexivity. Defined.

(** The text that passes when the pieces [cs] come and [n] runes are to be
    skipped: what [skip_delivered] does to the text of a chunk. *)
Fixpoint resume (n : Z) (cs : list (list ascii)) : list ascii :=
  match cs with
  | [] => []
  | c :: cs' =>
      if 0 <? n then
        let '(trimmed, remaining) := if (length c =? 0)%nat then (c, n) else trimLeadingRunes c n in
        trimmed ++ resume remaining cs'
      else c ++ resume n cs'
  end.

Lemma resume_zero n cs : n <= 0 -> resume n cs = concat cs.
Proof. intros Hn. induction cs as [|c cs IH]; cbn; [done|]. destruct (Z.ltb_spec 0 n); [lia|]. by rewrite IH. Qed.

Lemma resume_spec n cs :
  0 <= n -> Forall (fun c => ValidString c = true) cs -> resume n cs = concat (drop (Z.to_nat n) (runes (concat cs))).
Proof.
  intros Hn Hv. revert n Hn. induction Hv as [|c cs Hc Hv IH]; intros n Hn; cbn [resume concat].
  { by rewrite runes_nil, drop_nil. }
  destruct (Z.ltb_spec 0 n) as [Hpos|].
  2: { replace n with 0 by lia. rewrite drop_0, concat_runes. by rewrite resume_zero. }
  assert (T : (if (length c =? 0)%nat then (c, n) else trimLeadingRunes c n)
    = (concat (drop (Z.to_nat n) (runes c)), Z.max 0 (n - RuneCount c))).
  { destruct c as [|a c]; cbn [length Nat.eqb]; [rewrite drop_runes_nil; f_equal; lia|].
    unfold trimLeadingRunes. destruct (Z.leb_spec n 0); [lia|]. cbn [orb length Nat.eqb]. rewrite trim_loop_spec by (done || lia). by rewrite Z.sub_0_r. }
  rewrite T, IH by lia. rewrite runes_app by done. rewrite drop_app, concat_app. do 3 f_equal. unfold RuneCount. lia.
Qed.

Section Reader.
Context {E HttpRequest RT0 P L C : Type}.
Context `{!Network E HttpRequest} `{!RouterI RT0} `{!DistributedLimiter L} `{!CacheI C} `{!Tokenizer} `{!Codec}.
#[local] Abbreviation RT := (RT0 * list router_ev)%type.
#[local] Abbreviation reader := (@StreamReader E HttpRequest).
#[local] Abbreviation world := (@world E HttpRequest RT P L C).
#[local] Abbreviation M := (@M E HttpRequest RT P L C).
Implicit Types (s : reader) (w : world).

(** The text of a chunk, and that of the chunks of a repeated stream that pass. *)
Definition chunk_text (c : StreamChunk) : list ascii :=
  match c.(k_Choices) with choice :: _ => explode choice.(sc_Delta).(dl_Content) | [] => [] end.

Fixpoint replay s (chunks : list StreamChunk) : list ascii :=
  match chunks with
  | [] => []
  | c :: chunks' =>
      let '(s, out) := skip_delivered c s in
      match out with Some c' => chunk_text c' | None => [] end ++ replay s chunks'
  end.

Lemma explode_empty t : String.eqb t "" = (length (explode t) =? 0)%nat.
Proof. by destruct t. Qed.

Lemma replay_resume s chunks :
  s.(s_recoveryMode) = StreamRecoveryRetry -> 0 <= s.(s_skipRemaining) ->
  replay s chunks = resume s.(s_skipRemaining) (map chunk_text chunks).
Proof.
  revert s. induction chunks as [|c chunks IH]; intros s Hm Hn; [done|]. cbn [replay map resume].
  unfold skip_delivered. rewrite Hm, String.eqb_refl. cbn [andb].
  destruct c as [id ob cr mo choices us fp]. unfold chunk_text at 3. cbn [k_Choices].
  destruct choices as [|[ix [role text calls] fin] choices]; cbn [sc_Delta dl_Content].
  { destruct (Z.ltb_spec 0 s.(s_skipRemaining)); cbn; by rewrite IH. }
  destruct (Z.ltb_spec 0 s.(s_skipRemaining)); [|cbn; by rewrite IH].
  rewrite (explode_empty text). destruct (length (explode text) =? 0)%nat eqn:Et; cbn [dl_Content dl_Role dl_ToolCalls].
  - rewrite explode_empty, Et. apply Nat.eqb_eq, length_zero_iff_nil in Et. cbn [andb].
    destruct (_ && _); cbn; rewrite ?Et; by rewrite IH.
  - destruct (trimLeadingRunes (explode text) s.(s_skipRemaining)) as [trimmed remaining] eqn:Etr.
    assert (Hr : 0 <= remaining).
    { assert (Tr : remaining = Z.max 0 (s.(s_skipRemaining) - RuneCount (explode text))); [|lia].
      unfold trimLeadingRunes in Etr. destruct (Z.leb_spec s.(s_skipRemaining) 0); [lia|]. rewrite Et in Etr. cbn [orb] in Etr.
      rewrite trim_loop_spec in Etr by (done || lia). rewrite Z.sub_0_r in Etr. by injection Etr. }
    cbn. rewrite explode_empty, explode_implode. destruct (length trimmed =? 0)%nat eqn:Ez; cbn [andb].
    + apply Nat.eqb_eq, length_zero_iff_nil in Ez. subst trimmed. destruct (_ && _); cbn; rewrite ?Et, ?Etr; by rewrite IH.
    + cbn. rewrite Et, Etr. by rewrite explode_implode, IH.
Qed.

(** C39: A repeated stream resumes where it broke.  When the first [k] runes of a text
    were delivered, and the text comes again in pieces of any size, what passes the
    filter is the rest: delivered and resumed text are the whole text, nothing
    twice and nothing missing. *)
Theorem recovery_resumes s chunks k :
  let full := concat (map chunk_text chunks) in
  s.(s_recoveryMode) = StreamRecoveryRetry -> s.(s_skipRemaining) = Z.of_nat k ->
  Forall (fun c => ValidString (chunk_text c) = true) chunks ->
  concat (take k (runes full)) ++ replay s chunks = full.
Proof.
  intros full Hm Hk Hv. rewrite replay_resume by (done || lia). rewrite Hk, resume_spec.
  - rewrite Nat2Z.id, <- concat_app, take_drop. apply concat_runes.
  - lia.
  - rewrite Forall_map. exact Hv.
Qed.

(** ** Recovery ends *)

(** [yields Q m]: what [m] returns satisfies [Q]. *)
Definition yields {A : Type} (Q : A -> Prop) (m : M A) : Prop := forall w w' a, m w = (w', Some a) -> Q a.

Lemma yields_bind {A B} (Q : A -> Prop) (Q' : B -> Prop) (m : M A) (k : A -> M B) :
  yields Q m -> (forall a, Q a -> yields Q' (k a)) -> yields Q' (bind m k).
Proof.
  intros Hm Hk w w' b. unfold bind. destruct (m w) as [w1 [a|]] eqn:Em; [|done]. apply Hk. by eapply Hm.
Qed.

Lemma yields_ret {A} (Q : A -> Prop) a : Q a -> yields Q (ret a).
Proof. by intros HQ w w' a' [= _ <-]. Qed.

Lemma yields_any {A B} (Q : B -> Prop) (m : M A) (k : A -> M B) : (forall a, yields Q (k a)) -> yields Q (bind m k).
Proof. intros Hk. apply (yields_bind (fun _ => True)); [done|]. intros a _. apply Hk. Qed.

Lemma yields_panic {A} (Q : A -> Prop) : yields Q panic.
Proof. done. Qed.

(** How many recoveries were made, and how many there may be. *)
Definition counts s : Z * Z := (s.(s_retryCount), s.(s_maxRetries)).

Definition same_counts {A : Type} s (r : reader * A) : Prop := counts r.1 = counts s.

Lemma endRequest_counts s : yields (same_counts s) (endRequest s : M _).
Proof. unfold endRequest. destruct (s_requestEnded s); [by apply yields_ret|]. do 2 (apply yields_any; intros _). by apply yields_ret. Qed.

Lemma close_counts s : yields (same_counts s) (close s : M _).
Proof.
  unfold close. destruct (s_closed s); [by apply yields_ret|]. eapply yields_bind; [apply endRequest_counts|].
  intros [s1 u] Hs. by apply yields_ret.
Qed.

Lemma finalize_counts err s : yields (same_counts s) (finalizeStreamLocked err s : M _).
Proof.
  unfold finalizeStreamLocked. destruct (s_postHooksRun s); [by apply yields_ret|]. cbn. destruct (s_pluginCtx s); [|by apply yields_ret].
  do 3 (apply yields_any; intros ?). by apply yields_ret.
Qed.

Lemma finish_counts s : yields (same_counts s) (finish s : M _).
Proof.
  unfold finish. destruct (s_closed s); [by apply yields_ret|]. do 2 (apply yields_any; intros ?).
  eapply yields_bind; [apply finalize_counts|]. intros [s1 u] Hs. intros w w' r Hr. unfold same_counts. rewrite (close_counts _ _ _ _ Hr). exact Hs.
Qed.

Lemma apply_counts c s : yields (same_counts s) (applyStreamPluginsLocked c s : M _).
Proof.
  unfold applyStreamPluginsLocked. destruct (s_pluginCtx s); [|by apply yields_ret]. do 2 (apply yields_any; intros ?). by apply yields_ret.
Qed.

Lemma note_counts c s : yields (same_counts s) (note_chunk c s : M _).
Proof.
  unfold note_chunk. apply (yields_bind (fun s1 => counts s1 = counts s)).
  { destruct (s_firstChunk s); [apply yields_any; intros ?|]; by apply yields_ret. }
  intros s1 Hs. apply yields_any. intros cfg. apply yields_ret. destruct (k_Choices c); [done|]. unfold same_counts, appendAccumulatedLocked. cbn.
  destruct (String.eqb _ _); done.
Qed.

Lemma skip_counts c s : counts (skip_delivered c s).1 = counts s.
Proof.
  unfold skip_delivered. repeat (case_match; simplify_eq/=; try done).
Qed.

Lemma recv_lines_counts fuel s : yields (same_counts s) (recv_lines fuel s : M _).
Proof.
  revert s. induction fuel as [|fuel IH]; intros s; cbn [recv_lines]; [by apply yields_ret|].
  destruct (Scan _) as [line rest|]; [|by apply yields_ret]. cbv zeta. set (s1 := s<|s_scanner := rest|>).
  assert (Hs1 : counts s1 = counts s) by done. clearbody s1.
  assert (IH' : forall s2, counts s2 = counts s -> yields (same_counts s) (recv_lines fuel s2 : M _)).
  { intros s2 Hs2 w w' r Hr. unfold same_counts. rewrite (IH _ _ _ _ Hr). exact Hs2. }
  destruct (String.eqb _ _); [by apply IH'|]. destruct (is_done _).
  { eapply yields_bind; [apply finish_counts|]. intros [s2 u] Hs2. apply yields_ret. unfold same_counts in *. cbn in *. by rewrite Hs2. }
  destruct (s_provider s1) as [prov|]; [|apply yields_panic]. destruct (ParseStreamChunk _ _) as [e|[chunk|]]; [by apply IH'| |by apply IH'].
  pose proof (skip_counts chunk s1) as Hk. destruct (skip_delivered chunk s1) as [s2 out]. cbn in Hk. destruct out as [chunk'|]; [|apply IH'; congruence].
  eapply yields_bind; [apply apply_counts|]. intros [s3 [chunk3|]] Hs3; unfold same_counts in Hs3; cbn in Hs3; [|apply IH'; congruence].
  eapply yields_bind; [apply note_counts|]. intros [s4 u] Hs4. apply yields_ret. unfold same_counts in *. cbn in *. congruence.
Qed.

Lemma recv_channel_counts chunks s : yields (same_counts s) (recv_channel chunks s : M _).
Proof.
  revert s. induction chunks as [|[c|] chunks IH]; intros s; cbn [recv_channel]; [| |apply IH].
  { eapply yields_bind; [apply finish_counts|]. intros [s2 u] Hs2. by apply yields_ret. }
  eapply yields_bind; [apply apply_counts|]. intros [s3 [chunk3|]] Hs3; unfold same_counts in Hs3; cbn in Hs3.
  - eapply yields_bind; [apply note_counts|]. intros [s4 u] Hs4. apply yields_ret. unfold same_counts in *. etransitivity; [exact Hs4|exact Hs3].
  - intros w w' r Hr. unfold same_counts. rewrite (IH _ _ _ _ Hr). exact Hs3.
Qed.

Definition one_more {A : Type} s (r : reader * A) : Prop := counts r.1 = (s.(s_retryCount) + 1, s.(s_maxRetries)).

Lemma reconnect_counts s : yields (one_more s) (reconnect s : M _).
Proof.
  unfold reconnect. apply (yields_bind (one_more s)).
  { unfold begin_recovery. eapply yields_bind; [apply endRequest_counts|]. intros [s1 u] Hs1. apply yields_ret.
    unfold one_more, counts. cbn. unfold same_counts, counts in Hs1. cbn in Hs1. by injection Hs1 as -> ->. }
  intros [s1 u] Hs1. unfold one_more in Hs1. cbn [fst] in Hs1 |- *. do 2 (apply yields_any; intros ?).
  destruct (negb _); [apply yields_any; intros ?; by apply yields_ret|].
  apply yields_any; intros [e|d]; [by apply yields_ret|]. apply yields_any; intros provs.
  destruct (provs !! _); [|by apply yields_ret]. apply yields_any; intros [e|http]; [by apply yields_ret|].
  apply yields_any; intros [e|pm]; [by apply yields_ret|]. do 2 (apply yields_any; intros ?).
  match goal with |- yields _ (match ?x with _ => _ end) => destruct x as [e|resp] end.
  - eapply yields_bind; [|intros r Hr; apply yields_ret; exact Hr]. unfold recovery_failed. do 3 (apply yields_any; intros ?). by apply yields_ret.
  - destruct (_ <=? _); [|by apply yields_ret].
    eapply yields_bind; [|intros r Hr; apply yields_ret; exact Hr]. unfold recovery_failed. do 3 (apply yields_any; intros ?). by apply yields_ret.
Qed.

(** Recoveries are only added. *)
Definition no_fewer {A : Type} s (r : reader * A) : Prop := s.(s_retryCount) <= r.1.(s_retryCount) /\ r.1.(s_maxRetries) = s.(s_maxRetries).

Lemma counts_eq s s' : counts s' = counts s -> s'.(s_retryCount) = s.(s_retryCount) /\ s'.(s_maxRetries) = s.(s_maxRetries).
Proof. by intros [= -> ->]. Qed.

Lemma same_no_fewer {A} s (m : M (reader * A)) : yields (same_counts s) m -> yields (no_fewer s) m.
Proof. intros Hm w w' r Hr. destruct (counts_eq _ _ (Hm _ _ _ Hr)) as [E1 E2]. unfold no_fewer. rewrite E1, E2. done. Qed.

Lemma recv_with_counts broken s :
  (forall err s', counts s' = counts s -> yields (no_fewer s) (broken err s' : M _)) -> yields (no_fewer s) (recv_with broken s : M _).
Proof.
  intros Hb. unfold recv_with. destruct (s_closed s); [by apply same_no_fewer, yields_ret|].
  destruct (s_pluginStream s); [apply same_no_fewer, recv_channel_counts|].
  eapply yields_bind; [apply recv_lines_counts|]. intros [s1 [chunk| |[err|]]] Hs1; unfold same_counts in Hs1; cbn [fst] in Hs1.
  - by apply same_no_fewer, yields_ret.
  - by apply same_no_fewer, yields_ret.
  - apply yields_any. intros _. by apply Hb.
  - destruct (negb _); [apply yields_any; intros _; by apply Hb|]. apply same_no_fewer. eapply yields_bind; [apply finish_counts|].
    intros [s2 u] Hs2. apply yields_ret. etransitivity; [exact Hs2|exact Hs1].
Qed.

Lemma give_up_counts err s : yields (same_counts s) (end_broken err s : M _).
Proof.
  unfold end_broken. eapply yields_bind; [apply finalize_counts|]. intros [s1 u] Hs1. eapply yields_bind; [apply close_counts|].
  intros [s2 u2] Hs2. apply yields_ret. etransitivity; [exact Hs2|exact Hs1].
Qed.

Lemma no_fewer_trans {A} s s1 (m : M (reader * A)) :
  s.(s_retryCount) <= s1.(s_retryCount) -> s1.(s_maxRetries) = s.(s_maxRetries) -> yields (no_fewer s1) m -> yields (no_fewer s) m.
Proof. intros H1 H2 Hm w w' r Hr. destruct (Hm _ _ _ Hr). unfold no_fewer in *. split; [lia|congruence]. Qed.

Lemma recover_counts fuel err s : yields (no_fewer s) (recover fuel err s : M _).
Proof.
  revert err s. induction fuel as [|fuel IH]; intros err s; cbn [recover]; [apply same_no_fewer, give_up_counts|].
  apply yields_any. intros can. destruct (negb can); [apply same_no_fewer, give_up_counts|].
  eapply yields_bind; [apply reconnect_counts|]. intros [s1 o] Hs1. unfold one_more, counts in Hs1. cbn [fst] in Hs1. injection Hs1 as H1 H2.
  apply (no_fewer_trans s s1); [lia|done|]. destruct o as [e|]; [apply IH|].
  apply (yields_bind (no_fewer s1)).
  { apply recv_with_counts. intros err' s' Hs'. apply counts_eq in Hs' as [E1 E2]. apply (no_fewer_trans s1 s'); [lia|done|apply IH]. }
  intros [s2 [chunk [e|]]] [H3 H4]; [|by apply yields_ret]. cbn [fst] in *. apply (no_fewer_trans s1 s2); [lia|congruence|apply IH].
Qed.

Lemma bind_agree {A B} (Q : A -> Prop) (m : M A) (k1 k2 : A -> M B) w :
  yields Q m -> (forall a w', Q a -> k1 a w' = k2 a w') -> bind m k1 w = bind m k2 w.
Proof. intros Hm Hk. unfold bind. destruct (m w) as [w1 [a|]] eqn:Em; [|done]. apply Hk. by eapply Hm. Qed.

Lemma bind_same {A B} (m : M A) (k1 k2 : A -> M B) w : (forall a w', k1 a w' = k2 a w') -> bind m k1 w = bind m k2 w.
Proof. intros Hk. by apply (bind_agree (fun _ => True)). Qed.

(** Calls of [Recv] that agree on the readers they can hand on agree. *)
Lemma recv_with_ext b1 b2 s w :
  (forall err s' w', counts s' = counts s -> b1 err s' w' = (b2 err s' : M _) w') -> recv_with b1 s w = recv_with b2 s w.
Proof.
  intros Hb. unfold recv_with. destruct (s_closed s); [done|]. destruct (s_pluginStream s); [done|].
  apply (bind_agree (same_counts s)); [apply recv_lines_counts|]. intros [s1 o] w1 Hs1. unfold same_counts in Hs1. cbn [fst] in Hs1.
  destruct o as [chunk| |[err|]]; [done|done| |destruct (negb (s_seenDone s1)); [|done]]; apply bind_same; intros _ w2; by apply Hb.
Qed.

Lemma recover_enough f1 f2 err s w :
  (retries_left s <= f1)%nat -> (retries_left s <= f2)%nat -> recover f1 err s w = (recover f2 err s : M _) w.
Proof.
  assert (Stuck : forall f err s w, retries_left s = 0%nat -> recover f err s w = (end_broken err s : M _) w).
  { intros f err0 s0 w0 Hz. destruct f; [done|]. cbn [recover]. unfold bind at 1, canRecover, bind at 1, in_env, ret. cbn.
    unfold retries_left in Hz. destruct (Z.ltb_spec (s_retryCount s0) (s_maxRetries s0)); [lia|]. rewrite andb_false_r. done. }
  revert f2 err s w. induction f1 as [|f1 IH]; intros f2 err s w H1 H2; [by rewrite !Stuck by lia|].
  destruct f2 as [|f2]; [by rewrite !Stuck by lia|]. cbn [recover].
  apply (bind_agree (fun can => can = true -> s_retryCount s < s_maxRetries s)).
  { unfold canRecover. apply yields_any. intros e. apply yields_ret. destruct (Z.ltb_spec (s_retryCount s) (s_maxRetries s)); [done|].
    by rewrite andb_false_r. }
  intros [|] w1 Hpos; [|done]. cbn [negb]. specialize (Hpos eq_refl).
  apply (bind_agree (one_more s)); [apply reconnect_counts|]. intros [s1 o] w2 Hs1. unfold one_more, counts in Hs1. cbn [fst] in Hs1.
  injection Hs1 as Hc Hm.
  assert (Hle : forall s', s1.(s_retryCount) <= s'.(s_retryCount) -> s'.(s_maxRetries) = s1.(s_maxRetries) ->
    (retries_left s' <= f1)%nat /\ (retries_left s' <= f2)%nat) by (intros s' Ha Hb; unfold retries_left in *; lia).
  destruct o as [e|]; [apply IH; apply Hle; lia|].
  assert (Ext : recv_with (recover f1) s1 w2 = recv_with (recover f2) s1 w2).
  { apply recv_with_ext. intros err' s' w' Hs'. apply counts_eq in Hs' as [E1 E2]. apply IH; apply Hle; lia. }
  assert (Hy : yields (no_fewer s1) (recv_with (recover f2) s1 : M _)).
  { apply recv_with_counts. intros err' s' Hs'. apply counts_eq in Hs' as [E1 E2]. apply (no_fewer_trans s1 s'); [lia|done|apply recover_counts]. }
  transitivity (bind (recv_with (recover f2) s1) (fun got => match got with
    | (s, (chunk, None)) => ret (s, (chunk, None)) | (s, (_, Some _)) => recover f1 err s end) w2).
  { unfold bind. by rewrite Ext. }
  apply (bind_agree (no_fewer s1)); [done|]. intros [s2 [chunk [e|]]] w3 [H3 H4]; [|done]. apply IH; by apply Hle.
Qed.

(** The fuel is enough: with more of it, a call of [Recv] gives the same. *)
Lemma recovery_fuel_enough s w extra :
  recv_with (recover (retries_left s + extra)) s w = (Recv s : M _) w.
Proof.
  unfold Recv. apply recv_with_ext. intros err s' w' Hs'. apply counts_eq in Hs' as [E1 E2].
  apply recover_enough; unfold retries_left; rewrite E1, E2; lia.
Qed.
End Reader.

(** ** Where recovery goes wrong *)

Definition line_break : string := String "010" "".

Definition body_of (text : string) (err : option go_error) : go_error + HttpResponse :=
  inr {| hr_Status := 200; hr_Body := {| body_bytes := text; body_error := err |} |}.

Definition is_success (ev : router_ev) : bool := match ev with EvSuccess _ _ => true | _ => false end.

(** Opens a stream and reads it twice: what the two reads return. *)
Definition read_twice {RT P L C} `{!RouterI RT} `{!DistributedLimiter L} (w : @world Demo.env string RT P L C) :=
  let m := let* opened := ChatCompletionStream Demo.nobody (Some (Demo.request "gpt-4o")) in
           match opened.1 with
           | None => ret None
           | Some s => let* r1 := Recv s in
                       let* r2 := Recv r1.1 in
                       ret (Some (chunk_text <$> r1.2.1, r2.2.2))
           end in
  m w.

(** A stream whose recovery finds the end at once is reported as broken.  The
    connection is lost after the last chunk and before the end marker; the repeated
    stream has nothing new and ends.  The end is taken for a failed recovery: the
    request is sent again until no retry is left, each time with success, and the
    caller gets the error of the lost connection. *)
Theorem done_after_recovery_fails :
  let lost := EText "connection reset" in
  let whole := body_of ("a" +:+ line_break +:+ "[DONE]" +:+ line_break) None in
  let w := two_providers [body_of ("a" +:+ line_break) (Some lost); whole; whole; whole] in
  (read_twice w).2 = Some (Some (Some (explode "a"), Some lost))
  /\ length (keep is_success (trace (read_twice w).1)) = 3%nat.
Proof. split; vm_compute; reflexivity. Qed.

Lemma recovery_resumes_witness :
  let s := (newStreamReader 0 defaultConfig Demo.nobody (Demo.request "gpt-4o") {| body_bytes := ""; body_error := None |}
              (Demo.provider "east") (new_deployment "east" 2 "gpt-4o") pool_New 0 None)<|s_skipRemaining := 4|> in
  explode "hell" ++ replay s [Demo.text_chunk "he"; Demo.text_chunk "llo w"; Demo.text_chunk "orld"] = explode "hello world".
Proof.
  intros s. exact (recovery_resumes s [Demo.text_chunk "he"; Demo.text_chunk "llo w"; Demo.text_chunk "orld"] 4 eq_refl eq_refl
    ltac:(repeat constructor)).
Defined.

(** A stream is priced under the name in the request.  A model named with its
    provider prefix and priced without it is answered as a completion and refused as
    a stream. *)
Theorem prefixed_stream_unpriced :
  let w := two_providers [Demo.answer 200 "r1"] in
  let req := Demo.request "west/gpt-4o" in
  (match (ChatCompletion Demo.nobody (Some req) w).2 with Some (Some resp, None) => p_ID resp = "r1" | _ => False end)
  /\ (match (ChatCompletionStream Demo.nobody (Some req) w).2 with
      | Some (None, Some err) => err = ELLM (NewInternalError "east" "west/gpt-4o" "pricing not configured for model")
      | _ => False
      end).
Proof. split; vm_compute; reflexivity. Qed.
