(* ===== verification/StreamBalance.v ===== *)
(** * Streams give back what they take ([stream.go])

    The requests in flight at each deployment and the permits in use, through any
    sequence of reads with their recoveries, and a close. *)
From Stdlib Require Import Ascii.
From S2P Require Import Prelude Float64 Errors ModelName Utf8 RouterTypes BaseRouter Strategies Semaphore ResilienceManager RedisLimiter AuthTypes PluginPipeline ClientTypes Client ClientProofs ClientTheorems Stream ClientDemo.

#[local] Abbreviation result A := (option A * option go_error)%type.

(** The requests started and not ended at a deployment. *)
Definition flight_of (x : Deployment) (ev : router_ev) : Z :=
  match ev with
  | EvStart _ d => if decide (d = x) then 1 else 0
  | EvEnd _ d => if decide (d = x) then -1 else 0
  | _ => 0
  end.

Definition in_flight (x : Deployment) (tr : list router_ev) : Z := foldr (fun ev n => flight_of x ev + n) 0 tr.

Lemma in_flight_app x tr tr' : in_flight x (tr ++ tr') = in_flight x tr + in_flight x tr'.
Proof. induction tr as [|ev tr IH]; cbn; [done|]. unfold in_flight in *. rewrite IH. lia. Qed.

Section Balance.
Context {E HttpRequest RT0 P L C : Type}.
Context `{!Network E HttpRequest} `{!RouterI RT0} `{!DistributedLimiter L} `{!CacheI C} `{!Tokenizer} `{!Codec} `{!RouterSafe RT0}.
#[local] Abbreviation RT := (RT0 * list router_ev)%type.
#[local] Abbreviation reader := (@StreamReader E HttpRequest).
#[local] Abbreviation world := (@world E HttpRequest RT P L C).
#[local] Abbreviation M := (@M E HttpRequest RT P L C).
Implicit Types (s : reader) (w : world).

Definition occupied s (x : Deployment) : Z :=
  if s.(s_requestEnded) then 0 else match s.(s_deployment) with Some d => if decide (d = x) then 1 else 0 | None => 0 end.

(** A reader reads from somewhere. *)
Definition source s : bool := bool_decide (is_Some s.(s_pluginStream)) || bool_decide (is_Some s.(s_provider)).

(** [b] and [u] are the requests in flight and the permits in use without this
    stream: the stream accounts for one of each until its request has ended. *)
Record reader_inv (b : Deployment -> Z) (u : string -> Z) s w : Prop := {
  ri_sems : sems_ok (manager w);
  ri_base : forall k, 0 <= u k;
  ri_permit : permit_ok s.(s_release);
  ri_ended : s.(s_requestEnded) = true -> s.(s_release) = None;
  ri_closed : s.(s_closed) = true -> s.(s_requestEnded) = true;
  ri_source : source s = true;
  ri_flight : forall x, in_flight x (trace w) = b x + occupied s x;
  ri_uses : forall k, in_use (manager w) k = u k + held s.(s_release) k;
}.

(** What the invariant looks at. *)
Definition core s :=
  (s.(s_deployment), s.(s_closed), s.(s_requestEnded), s.(s_release), bool_decide (is_Some s.(s_pluginStream)), bool_decide (is_Some s.(s_provider))).

Lemma inv_core b u s s' w w' : core s' = core s -> view w' = view w -> reader_inv b u s w -> reader_inv b u s' w'.
Proof.
  intros Hc (_ & Hm & Ht)%view_parts [H1 H2 H3 H4 H5 H6 H7 H8]. unfold core in Hc. injection Hc as E1 E2 E3 E4 E5 E6.
  split; unfold occupied, source in *; rewrite ?Hm, ?Ht, ?E1, ?E2, ?E3, ?E4, ?E5, ?E6; done.
Qed.

(** Steps that touch neither. *)
Definition calm {A : Type} s (m : M (reader * A)) : Prop := forall w, wp m (fun r w' => core r.1 = core s /\ view w' = view w) w.

Lemma calm_silent {A B} s (m : M A) (k : A -> M (reader * B)) : silent m -> (forall a, calm s (k a)) -> calm s (bind m k).
Proof.
  intros Hm Hk w. apply wp_silent; [done|]. intros a w1 V1. eapply wp_mono; [apply Hk|]. cbn. intros r w2 [Hc V2]. split; [done|congruence].
Qed.

Lemma calm_ret {A} s s' (a : A) : core s' = core s -> calm s (ret (s', a) : M _).
Proof. intros Hc w. by wp_step. Qed.

Lemma calm_finalize err s : calm s (finalizeStreamLocked err s : M _).
Proof.
  unfold finalizeStreamLocked. destruct (s_postHooksRun s); [by apply calm_ret|]. cbn. destruct (s_pluginCtx s); [|by apply calm_ret].
  apply calm_silent; [apply silent_gets|intros ?]. apply calm_silent; [apply silent_on_plugins|intros ?].
  apply calm_silent; [apply silent_pool|intros ?]. by apply calm_ret.
Qed.

Lemma calm_apply c s : calm s (applyStreamPluginsLocked c s : M _).
Proof.
  unfold applyStreamPluginsLocked. destruct (s_pluginCtx s); [|by apply calm_ret].
  apply calm_silent; [apply silent_gets|intros ?]. apply calm_silent; [apply silent_on_plugins|intros ?]. by apply calm_ret.
Qed.

Lemma core_append n text s : core (appendAccumulatedLocked n text s) = core s.
Proof. unfold appendAccumulatedLocked. by destruct (String.eqb _ _). Qed.

Lemma calm_note c s : calm s (note_chunk c s : M _).
Proof.
  assert (K : forall s1, core s1 = core s -> calm s (bind (gets cl_config) (fun cfg => ret (match c.(k_Choices) with
       | choice :: _ => appendAccumulatedLocked cfg.(StreamRecoveryMaxAccumulatedBytes) choice.(sc_Delta).(dl_Content) s1
       | [] => s1 end, tt)) : M _)).
  { intros s1 Hs1. apply calm_silent; [apply silent_gets|intros cfg]. apply calm_ret. destruct (k_Choices c); [done|]. by rewrite core_append. }
  unfold note_chunk. intros w. apply wp_bind. destruct (s_firstChunk s).
  - apply wp_silent; [apply silent_on_env|]. intros t w1 V1. wp_step. eapply wp_mono; [by apply K|]. cbn. intros r w2 [Hc V2]. split; [done|congruence].
  - wp_step. by apply K.
Qed.

Lemma core_skip c s : core (skip_delivered c s).1 = core s.
Proof. unfold skip_delivered. repeat (case_match; simplify_eq/=; try done). Qed.

(** ** The end of a request *)

Lemma wp_on_deployment_other f ev s w :
  (forall ctx d (rt : RT), (f ctx d rt).2 = rt.2 ++ [ev ctx d]) -> (forall x ctx d, flight_of x (ev ctx d) = 0) ->
  forall b u s', core s' = core s -> reader_inv b u s' w -> wp (on_deployment f s) (fun _ w' => reader_inv b u s' w') w.
Proof.
  intros Hf Hev b u s' Hc Hi. unfold on_deployment. destruct (s_deployment s) as [d|]; [|by wp_step]. wp_step.
  destruct Hi as [H1 H2 H3 H4 H5 H6 H7 H8]. split; try done. intros x. unfold trace. cbn. rewrite Hf, in_flight_app.
  unfold trace in H7. rewrite H7. cbn. rewrite Hev. lia.
Qed.

Lemma wp_endRequest b u s w :
  reader_inv b u s w ->
  wp (endRequest s) (fun r w' => reader_inv b u r.1 w' /\ r.1.(s_requestEnded) = true /\ r.1.(s_closed) = s.(s_closed)
    /\ source r.1 = source s) w.
Proof.
  intros Hi. unfold endRequest. destruct (s_requestEnded s) eqn:Ee; [by wp_step|].
  destruct Hi as [H1 H2 H3 H4 H5 H6 H7 H8].
  assert (Hcl : s_closed s = true -> False) by (intros Hc; specialize (H5 Hc); congruence).
  apply wp_bind. eapply (wp_mono _ (fun _ w1 => manager w1 = manager w
    /\ forall x, in_flight x (trace w1) = b x)).
  { unfold on_deployment. unfold occupied in H7. rewrite Ee in H7. destruct (s_deployment s) as [d|].
    - wp_step. split; [done|]. intros x. change (in_flight x (trace w ++ [EvEnd s.(s_ctx).(c_scope) d]) = b x).
      rewrite in_flight_app, H7. cbn. case_decide; lia.
    - wp_step. split; [done|]. intros x. rewrite H7. lia. }
  intros _ w1 [Hm Hf]. apply wp_bind, wp_release; [by rewrite Hm|done| |].
  { intros k. rewrite Hm, H8. specialize (H2 k). lia. }
  intros m Hm' Hu. wp_step. split; [|done]. split; try done.
  - intros x. unfold occupied. cbn. rewrite Z.add_0_r. apply Hf.
  - intros k. unfold manager at 1. cbn. rewrite Hu, Hm, H8. cbn. lia.
Qed.

Lemma wp_close b u s w :
  reader_inv b u s w -> wp (close s) (fun r w' => reader_inv b u r.1 w' /\ r.1.(s_requestEnded) = true) w.
Proof.
  intros Hi. unfold close. destruct (s_closed s) eqn:Ec; [wp_step; split; [done|by apply Hi]|].
  apply wp_bind. eapply wp_mono; [by apply wp_endRequest|]. cbn beta. intros [s1 []] w1 (H1 & H2 & _ & _). cbn [fst] in *. wp_step.
  split; [|done]. destruct H1. by split.
Qed.

Lemma wp_finish b u s w : reader_inv b u s w -> wp (finish s) (fun r w' => reader_inv b u r.1 w') w.
Proof.
  intros Hi. unfold finish. destruct (s_closed s); [by wp_step|]. apply wp_silent; [apply silent_on_env|]. intros t w1 V1.
  apply wp_bind. eapply wp_mono.
  { apply (wp_on_deployment_other _ (fun ctx d => EvSuccess ctx d)) with (s' := s); [done|done|done|].
    eapply inv_core; [done|exact V1|exact Hi]. }
  cbn beta. intros _ w2 Hi2. apply wp_bind. eapply wp_mono; [apply calm_finalize|]. cbn beta. intros [s3 []] w3 [Hc V3].
  eapply wp_mono; [apply wp_close; by eapply inv_core|]. cbn beta. tauto.
Qed.

Lemma wp_reportFailure b u err s w :
  reader_inv b u s w -> wp (reportFailure err s) (fun _ w' => reader_inv b u s w') w.
Proof. intros Hi. unfold reportFailure. by apply (wp_on_deployment_other _ (fun ctx d => EvFailure ctx d)). Qed.

Lemma wp_give_up b u err s w :
  reader_inv b u s w -> wp (end_broken err s) (fun r w' => reader_inv b u r.1 w') w.
Proof.
  intros Hi. unfold end_broken. apply wp_bind. eapply wp_mono; [apply calm_finalize|]. cbn beta. intros [s1 []] w1 [Hc V].
  apply wp_bind. eapply wp_mono; [apply wp_close; by eapply inv_core|]. cbn beta. intros [s2 []] w2 [H1 _]. by wp_step.
Qed.

(** ** Reading *)

Lemma core_stream s s' : core s' = core s -> s'.(s_pluginStream) = None <-> s.(s_pluginStream) = None.
Proof.
  unfold core. intros [= _ _ _ _ Hb _]. rewrite !eq_None_not_Some. rewrite <- (bool_decide_spec (is_Some (s_pluginStream s'))), Hb.
  by rewrite bool_decide_spec.
Qed.

Lemma wp_recv_lines b u fuel s w :
  reader_inv b u s w -> s.(s_pluginStream) = None ->
  wp (recv_lines fuel s) (fun r w' => reader_inv b u r.1 w') w.
Proof.
  revert s w. induction fuel as [|fuel IH]; intros s w Hi Hp; cbn [recv_lines]; [by wp_step|].
  destruct (Scan _) as [line rest|]; [|by wp_step]. cbv zeta. set (s1 := s<|s_scanner := rest|>).
  assert (Hi1 : reader_inv b u s1 w) by (eapply inv_core; [|done|exact Hi]; done).
  assert (Hp1 : s1.(s_pluginStream) = None) by exact Hp. clearbody s1. clear s Hi Hp.
  destruct (String.eqb _ _); [by apply IH|]. destruct (is_done _).
  { apply wp_bind. eapply wp_mono; [apply wp_finish; eapply inv_core; [|done|exact Hi1]; done|]. intros [s2 []] w2 Hi2. by wp_step. }
  destruct (s_provider s1) as [prov|] eqn:Ep.
  2: { pose proof (ri_source _ _ _ _ Hi1) as Hs. unfold source in Hs. by rewrite Hp1, Ep in Hs. }
  destruct (ParseStreamChunk _ _) as [e|[chunk|]]; [by apply IH| |by apply IH].
  pose proof (core_skip chunk s1) as Hk. destruct (skip_delivered chunk s1) as [s2 out]. cbn [fst] in *.
  assert (Hi2 : reader_inv b u s2 w) by by eapply inv_core. assert (Hp2 : s2.(s_pluginStream) = None) by by eapply core_stream.
  destruct out as [chunk'|]; [|by apply IH]. apply wp_bind. eapply wp_mono; [apply calm_apply|].
  cbn beta. intros [s3 [chunk3|]] w3 [Hc V]; cbn [fst] in *; [|apply IH; [by eapply inv_core|by eapply core_stream]].
  apply wp_bind. eapply wp_mono; [apply calm_note|]. cbn beta. intros [s4 []] w4 [Hc4 V4]. wp_step. cbn [fst] in *.
  eapply inv_core; [exact Hc4|exact V4|]. by eapply inv_core.
Qed.

Lemma wp_recv_channel b u chunks s w :
  reader_inv b u s w -> is_Some s.(s_pluginStream) ->
  wp (recv_channel chunks s) (fun r w' => reader_inv b u r.1 w') w.
Proof.
  revert s w. induction chunks as [|[c|] chunks IH]; intros s w Hi Hp; cbn [recv_channel]; [| |by apply IH].
  all: assert (K : forall x, core (s<|s_pluginStream := Some x|>) = core s) by (intros x; unfold core; cbn; destruct Hp as [y Hy]; by rewrite Hy).
  { apply wp_bind. eapply wp_mono; [apply wp_finish; eapply inv_core; [|done|exact Hi]; exact (K [])|]. intros [s2 []] w2 Hi2. by wp_step. }
  apply wp_bind. eapply wp_mono; [apply calm_apply|]. cbn beta. intros [s3 o] w3 [Hc V]. cbn [fst] in *. rewrite K in Hc.
  assert (Hi3 : reader_inv b u s3 w3) by by eapply inv_core.
  destruct o as [chunk|].
  - apply wp_bind. eapply wp_mono; [apply calm_note|]. cbn beta. intros [s4 []] w4 [Hc4 V4]. wp_step. by eapply inv_core.
  - apply IH; [done|]. apply not_eq_None_Some. intros Hn. eapply core_stream in Hn; [|symmetry; exact Hc]. destruct Hp. congruence.
Qed.

(** ** Recovery *)

(** Between two requests: nothing of this stream is in flight or in use. *)
Record idle (b : Deployment -> Z) (u : string -> Z) s w : Prop := {
  id_inv : reader_inv b u s w;
  id_ended : s.(s_requestEnded) = true;
  id_open : s.(s_closed) = false;
}.

Lemma idle_view b u s w w' : view w' = view w -> idle b u s w -> idle b u s w'.
Proof. intros V [H1 H2 H3]. split; [by eapply inv_core|done|done]. Qed.

Lemma wp_begin_recovery b u s w : reader_inv b u s w -> wp (begin_recovery s) (fun r w' => idle b u r.1 w') w.
Proof.
  intros Hi. unfold begin_recovery. apply wp_bind. eapply wp_mono; [by apply wp_endRequest|]. cbn beta.
  intros [s1 []] w1 ([H1 H2 H3 H4 H5 H6 H7 H8] & He & _ & _). cbn [fst] in *. wp_step. split; [|done|done]. by split.
Qed.

(** A request is started for an idle stream, with a permit. *)
Record started (b : Deployment -> Z) (u : string -> Z) (d : Deployment) (p : permit) w : Prop := {
  st_sems : sems_ok (manager w);
  st_base : forall k, 0 <= u k;
  st_permit : permit_ok p;
  st_flight : forall x, in_flight x (trace w) = b x + (if decide (d = x) then 1 else 0);
  st_uses : forall k, in_use (manager w) k = u k + held p k;
}.

Lemma wp_recovery_failed b u d p err s w :
  started b u d p w -> source s = true -> s.(s_closed) = false ->
  wp (recovery_failed d p err s) (fun r w' => reader_inv b u r.1 w') w.
Proof.
  intros [H1 H2 H3 H4 H5] Hs Hc. unfold recovery_failed. apply wp_bind, wp_release; [done|done| |].
  { intros k. rewrite H5. specialize (H2 k). lia. }
  intros m Hm Hu. do 3 wp_step. split; cbn; try done.
  - intros x. change (in_flight x ((trace w ++ [EvFailure s.(s_ctx).(c_scope) d]) ++ [EvEnd s.(s_ctx).(c_scope) d]) = b x + 0).
    rewrite !in_flight_app, H4. cbn. case_decide; lia.
  - intros k. unfold manager. cbn. rewrite Hu, H5. lia.
Qed.

Lemma started_view b u d p w w' : view w' = view w -> started b u d p w -> started b u d p w'.
Proof. intros (_ & Hm & Ht)%view_parts [H1 H2 H3 H4 H5]. split; rewrite ?Hm, ?Ht; done. Qed.

Lemma wp_reconnect b u s w : reader_inv b u s w -> wp (reconnect s) (fun r w' => reader_inv b u r.1 w') w.
Proof.
  intros Hi. unfold reconnect. apply wp_bind. eapply wp_mono; [by apply wp_begin_recovery|]. cbn beta. intros [s1 []] w1 Hid. cbn [fst].
  apply wp_bind. eapply wp_mono; [apply wp_retryBackoff|]. cbn beta. intros backoff w2 (Hs2 & Hm2 & Ht2).
  assert (V2 : view w2 = view w1) by (unfold view; congruence).
  apply wp_silent; [destruct (0 <? backoff); [apply silent_on_env|apply silent_ret]|]. intros fired w3 V3.
  assert (Hid3 : idle b u s1 w3) by (eapply idle_view; [|exact Hid]; congruence). clear Hs2 Hm2 Ht2 V2 V3 Hid w1 w2 Hi w.
  destruct (negb fired). { wp_step. wp_step. apply Hid3. }
  apply wp_bind, wp_pick. intros rt res Hres ->. set (w4 := w3<|w_client ::= _|>).
  assert (Hid4 : idle b u s1 w4). { eapply idle_view; [|exact Hid3]. unfold view. f_equal. apply traced_pick. } clearbody w4. clear Hid3 w3.
  destruct res as [e|d]; [wp_step; apply Hid4|]. wp_step. destruct (cl_providers _ !! _) as [prov|]; [|wp_step; apply Hid4].
  wp_step. set (w5 := w4<|w_env := e|>). assert (Hid5 : idle b u s1 w5) by by apply (idle_view b u s1 w4). clearbody w5. clear Hid4 He.
  destruct a as [err|http]; [wp_step; apply Hid5|].
  destruct Hid5 as [[H1 H2 H3 H4 H5 H6 H7 H8] Hended Hopen]. specialize (H4 Hended). rewrite H4 in H8.
  assert (Hbase : forall k, in_use (manager w5) k = u k) by (intros k; rewrite H8; cbn; lia).
  assert (Hfl : forall x, in_flight x (trace w5) = b x) by (intros x; rewrite H7; unfold occupied; rewrite Hended; lia).
  apply wp_bind, wp_acquire; [done|by apply Hres|]. intros m r Hm Hu Hr. destruct r as [err|p].
  { wp_step. cbn [fst]. split; try done. intros k. rewrite H4. change (in_use m k = u k + held None k). rewrite Hu, Hbase. cbn. lia. }
  wp_step. wp_step.
  assert (Hst : started b u d p ((with_manager m w5)<|w_client ::= fun c => c<|cl_router ::= r_ReportRequestStart s1.(s_ctx).(c_scope) d|>|><|w_env := e0|>)).
  { split; cbn; try done.
    - intros x. change (in_flight x (trace w5 ++ [EvStart s1.(s_ctx).(c_scope) d]) = b x + (if decide (d = x) then 1 else 0)).
      rewrite in_flight_app, Hfl. cbn. lia.
    - intros k. unfold manager. cbn. rewrite Hu, Hbase. done. }
  destruct a as [err|resp].
  { apply wp_bind. eapply wp_mono; [by apply wp_recovery_failed|]. cbn beta. intros [s2 []] w6 Hi6. by wp_step. }
  destruct (400 <=? hr_Status resp).
  { apply wp_bind. eapply wp_mono; [by apply wp_recovery_failed|]. cbn beta. intros [s2 []] w6 Hi6. by wp_step. }
  wp_step. destruct Hst as [I1 I2 I3 I4 I5]. split; cbn; try done.
  - congruence.
  - unfold source. cbn. apply orb_true_r.
Qed.

Lemma wp_recv_with b u broken s w :
  (forall err s' w', reader_inv b u s' w' -> wp (broken err s') (fun r w'' => reader_inv b u r.1 w'') w') ->
  reader_inv b u s w -> wp (recv_with broken s) (fun r w' => reader_inv b u r.1 w') w.
Proof.
  intros Hb Hi. unfold recv_with. destruct (s_closed s); [by wp_step|]. destruct (s_pluginStream s) as [chunks|] eqn:Ep.
  { by apply wp_recv_channel. }
  apply wp_bind. eapply wp_mono; [by apply wp_recv_lines|]. cbn beta. intros [s1 [chunk| |[err|]]] w1 Hi1; cbn [fst] in *; [by wp_step|by wp_step| |].
  - apply wp_bind. eapply wp_mono; [by apply wp_reportFailure|]. cbn beta. intros _ w2 Hi2. by apply Hb.
  - destruct (negb _).
    + apply wp_bind. eapply wp_mono; [by apply wp_reportFailure|]. cbn beta. intros _ w2 Hi2. by apply Hb.
    + apply wp_bind. eapply wp_mono; [by apply wp_finish|]. cbn beta. intros [s2 []] w2 Hi2. by wp_step.
Qed.

Lemma wp_recover b u fuel err s w : reader_inv b u s w -> wp (recover fuel err s) (fun r w' => reader_inv b u r.1 w') w.
Proof.
  revert err s w. induction fuel as [|fuel IH]; intros err s w Hi; cbn [recover]; [by apply wp_give_up|].
  unfold canRecover. apply wp_bind. do 2 wp_step. destruct (negb _); [by apply wp_give_up|].
  apply wp_bind. eapply wp_mono; [by apply wp_reconnect|]. cbn beta. intros [s1 [e|]] w1 Hi1; cbn [fst] in *; [by apply IH|].
  apply wp_bind. eapply wp_mono; [by apply wp_recv_with|]. cbn beta. intros [s2 [chunk [e|]]] w2 Hi2; cbn [fst] in *; [by apply IH|by wp_step].
Qed.

(** Any number of reads. *)
Fixpoint recv_all (n : nat) s : M reader :=
  match n with
  | O => ret s
  | S n' => let* r := Recv s in recv_all n' r.1
  end.

Lemma wp_recv_all b u n s w : reader_inv b u s w -> wp (recv_all n s) (fun s' w' => reader_inv b u s' w') w.
Proof.
  revert s w. induction n as [|n IH]; intros s w Hi; cbn [recv_all]; [by wp_step|]. apply wp_bind.
  eapply wp_mono; [apply wp_recv_with; [apply wp_recover|done]|]. cbn beta. intros [s1 r] w1 Hi1. by apply IH.
Qed.

(** ** Opening *)

Record settled (b : Deployment -> Z) (u : string -> Z) w : Prop := {
  se_sems : sems_ok (manager w);
  se_base : forall k, 0 <= u k;
  se_flight : forall x, in_flight x (trace w) = b x;
  se_uses : forall k, in_use (manager w) k = u k;
}.

Lemma settled_view b u w w' : view w' = view w -> settled b u w -> settled b u w'.
Proof. intros (_ & Hm & Ht)%view_parts [H1 H2 H3 H4]. split; rewrite ?Hm, ?Ht; done. Qed.

(** A stream that was not opened leaves everything as it was; one that was is
    accounted for. *)
Definition opening (b : Deployment -> Z) (u : string -> Z) (r : result reader) w : Prop :=
  match r with (Some s, None) => reader_inv b u s w | (None, Some _) => settled b u w | _ => False end.

Lemma wp_attempt_failed b u ctx d p pending err w :
  started b u d p w -> wp (attempt_failed ctx d p pending err) (fun _ w' => settled b u w') w.
Proof.
  intros [H1 H2 H3 H4 H5]. unfold attempt_failed. apply wp_bind, wp_release; [done|done| |].
  { intros k. rewrite H5. specialize (H2 k). lia. }
  intros m Hm Hu. do 2 wp_step. eapply wp_mono; [apply wp_report_pending|]. cbn beta. intros _ w2 (Hs & Hm2 & Ht2).
  split; rewrite ?Hm2, ?Ht2; try done.
  - intros x. change (in_flight x ((trace w ++ [EvFailure ctx.(c_scope) d]) ++ [EvEnd ctx.(c_scope) d]) = b x).
    rewrite !in_flight_app, H4. cbn. case_decide; lia.
  - intros k. unfold manager. cbn. rewrite Hu, H5. lia.
Qed.

Lemma wp_reported {A} b u pending err ok (a : A) (Q : A -> world -> Prop) w :
  settled b u w -> (forall w', settled b u w' -> Q a w') -> wp (let* _ := report_pending pending err ok in ret a) Q w.
Proof.
  intros Hb HQ. apply wp_bind. eapply wp_mono; [apply wp_report_pending|]. cbn beta. intros _ w2 (Hs & Hm & Ht). wp_step.
  apply HQ. eapply settled_view; [|exact Hb]. unfold view. congruence.
Qed.

Lemma wp_stream_attempt b u ctx req pCtx runFrom d pending w :
  settled b u w -> deployment_ok d ->
  wp (stream_attempt ctx req pCtx runFrom d pending) (fun r w' =>
    match r with Opened s => reader_inv b u s w' | _ => settled b u w' end) w.
Proof.
  intros Hb Hd. unfold stream_attempt. wp_step. destruct (cl_providers _ !! _) as [prov|]; [|by eapply wp_reported].
  apply wp_silent; [apply silent_validatePricing|]. intros [err|] w1 V1; (assert (Hb1 : settled b u w1) by by eapply settled_view).
  { by eapply wp_reported. }
  clear Hb V1 w. destruct Hb1 as [H1 H2 H3 H4].
  apply wp_bind, wp_acquire; [done|done|]. intros m r Hm Hu Hr. destruct r as [err|p].
  { eapply wp_reported; [|done]. split; try done. intros k. change (in_use m k = u k). rewrite Hu, H4. cbn. lia. }
  wp_step. destruct a as [err|http].
  { apply wp_bind, wp_release; [done|done| |].
    { intros k. change (held p k <= in_use m k). rewrite Hu, H4. cbn. specialize (H2 k). lia. }
    intros m2 Hm2 Hu2. eapply wp_reported; [|done]. split; try done.
    intros k. unfold manager. cbn. rewrite Hu2. change (in_use m k - held p k = u k). rewrite Hu, H4. cbn. lia. }
  wp_step. wp_step.
  match goal with |- wp _ _ ?w2 => assert (Hst : started b u d p w2) end.
  { split; cbn; try done.
    - intros x. change (in_flight x (trace w1 ++ [EvStart ctx.(c_scope) d]) = b x + (if decide (d = x) then 1 else 0)).
      rewrite in_flight_app, H3. cbn. lia.
    - intros k. unfold manager. cbn. rewrite Hu, H4. done. }
  destruct a as [err|resp].
  { apply wp_bind. eapply wp_mono; [by apply wp_attempt_failed|]. cbn beta. intros _ w3 Hw3. by wp_step. }
  destruct (400 <=? hr_Status resp).
  { apply wp_bind. eapply wp_mono; [by apply wp_attempt_failed|]. cbn beta. intros _ w3 Hw3. wp_step. by destruct (retryable_status _ _). }
  apply wp_bind. eapply wp_mono; [apply wp_report_pending|]. cbn beta. intros _ w3 (Hs3 & Hm3 & Ht3). wp_step. do 2 wp_step.
  destruct Hst as [I1 I2 I3 I4 I5]. unfold manager in Hm3. unfold trace in Ht3. split; unfold manager, trace; cbn; rewrite ?Hm3, ?Ht3; done.
Qed.

Lemma wp_stream_loop `{!NetworkLaws E HttpRequest} b u fuel attempt ctx req n pCtx runFrom d lastErr w :
  settled b u w -> (forall x, d = Some x -> deployment_ok x) ->
  wp (stream_loop fuel attempt ctx req n pCtx runFrom d lastErr) (opening b u) w.
Proof.
  revert attempt d lastErr w. induction fuel as [|fuel IH]; intros attempt d lastErr w Hb Hd; cbn [stream_loop].
  { apply wp_silent; [apply silent_pool|]. intros _ w1 V1. wp_step. by eapply settled_view. }
  apply wp_bind. eapply wp_mono; [apply wp_before_attempt|]. cbn beta. intros stop w1 (Hstop & Hs1 & Hm1 & Ht1).
  assert (Hb1 : settled b u w1) by (eapply settled_view; [|exact Hb]; unfold view; congruence).
  destruct stop as [[e|]|]; [|done|]. { apply wp_silent; [apply silent_pool|]. intros _ w2 V2. wp_step. by eapply settled_view. }
  apply wp_bind. eapply wp_mono; [by apply wp_choose|]. cbn beta. intros [err|[d' pending]] w2 [V2 Hd2].
  { apply IH; [by eapply settled_view|done]. }
  apply wp_bind. eapply wp_mono; [apply wp_stream_attempt; [by eapply settled_view|done]|]. cbn beta. intros [s|err|err] w3 H3.
  - by wp_step.
  - apply IH; [done|]. by intros x [= <-].
  - apply wp_silent; [apply silent_pool|]. intros _ w4 V4. wp_step. by eapply settled_view.
Qed.

Lemma wp_stream_Close b u s w : reader_inv b u s w -> wp (stream_Close s) (fun r w' => settled b u w' /\ r.1.(s_requestEnded) = true) w.
Proof.
  intros Hi. unfold stream_Close. wp_step. apply wp_bind. eapply wp_mono; [apply calm_finalize|]. cbn beta. intros [s2 []] w2 [Hc V].
  eapply wp_mono; [apply wp_close; by eapply inv_core|]. cbn beta. intros [s3 []] w3 [[H1 H2 H3 H4 H5 H6 H7 H8] He]. cbn [fst] in *.
  split; [|done]. split; [done|done| |].
  - intros x. rewrite H7. unfold occupied. rewrite He. lia.
  - intros k. rewrite H8, H4 by done. cbn. lia.
Qed.

(** A plug-in whose first stream hook keeps a request. *)
Definition keeps_stream (q : Plugin (Context * P) ChatRequest ChatResponse StreamChunk) : Prop :=
  match q.(stream) with None => True | Some h => forall pw req, (h.(PreStreamHook) pw (Some req)).2.1.1 <> None end.

Lemma stream_pre_hooks_keep l n pw req :
  Forall keeps_stream l -> exists req', (stream_pre_hooks l n pw (Some req)).2.1.1 = Some req'.
Proof.
  intros Hl. revert n pw req. induction Hl as [|q l Hq _ IH]; intros n pw req; cbn; [eauto|]. unfold keeps_stream in Hq.
  destruct (stream q) as [h|]; [|apply IH]. specialize (Hq pw req).
  destruct (PreStreamHook h pw (Some req)) as [pw1 [[[req1|] sc] e]]; [|done]. destruct sc; cbn; eauto.
Qed.

Lemma wp_open_stream `{!NetworkLaws E HttpRequest} b u ctx pCtx runFrom req w :
  settled b u w -> wp (open_stream ctx pCtx runFrom req) (opening b u) w.
Proof.
  intros Hb. unfold open_stream. apply wp_silent; [apply silent_rate_limited|]. intros [err|] w1 V1.
  { apply wp_silent; [apply silent_pool|]. intros _ w2 V2. wp_step. eapply settled_view; [|exact Hb]. congruence. }
  wp_step. apply wp_stream_loop; [by eapply settled_view|done].
Qed.

Lemma wp_ChatCompletionStream `{!NetworkLaws E HttpRequest} b u ctx req w :
  settled b u w -> Forall keeps_stream w.(w_client).(cl_pipeline).(plugins) ->
  wp (ChatCompletionStream ctx req) (opening b u) w.
Proof.
  intros Hb Hpl. unfold ChatCompletionStream. destruct (validate_request req) as [err|q]; [by wp_step|]. cbv zeta.
  apply wp_silent; [apply silent_getContext|]. intros pCtx w1 V1. wp_step.
  assert (Hpl1 : Forall keeps_stream w1.(w_client).(cl_pipeline).(plugins)).
  { pose proof V1 as (Hs & _ & _)%view_parts. unfold setup in Hs. injection Hs as _ _ _ -> _. done. }
  set (pl := w1.(w_client).(cl_pipeline)) in *. set (q1 := q<|q_Stream := true|>). set (pc := pCtx<|x_IsStreaming := true|><|x_Model := _|>).
  apply wp_bind. unfold wp at 1, on_plugins at 1. destruct (stream_pre_hooks_keep pl.(plugins) 0 (pc, w1.(w_plugins)) q1 Hpl1) as [q' Hq'].
  unfold RunStreamPreHooks. destruct (stream_pre_hooks pl.(plugins) 0 (pc, _) (Some q1)) as [[pCtx2 p2] [[req2 sc] n]]. cbn in Hq'. subst req2.
  set (w2 := w1<|w_plugins := p2|>). assert (Hb2 : settled b u w2) by (eapply settled_view; [|exact Hb]; exact V1). clearbody w2.
  destruct sc as [[strm err allow]|]; [|by apply wp_open_stream]. cbn [ss_Error ss_Stream]. destruct err as [err|].
  { cbv zeta. apply wp_silent; [apply silent_on_plugins|]. intros h w3 V3. apply wp_silent; [apply silent_pool|]. intros _ w4 V4. wp_step.
    eapply settled_view; [|exact Hb2]. congruence. }
  destruct strm as [strm|]; [|by apply wp_open_stream]. wp_step. do 2 wp_step. destruct Hb2 as [H1 H2 H3 H4].
  split; cbn; try done; [intros x; unfold trace in *; cbn; rewrite H3; unfold occupied; cbn; lia|].
  intros k. unfold manager in *. cbn. rewrite H4. lia.
Qed.

(** A stream that is opened, read [n] times and closed. *)
Definition session (n : nat) (ctx : Ctx) (req : option ChatRequest) : M (option go_error) :=
  let* opened := ChatCompletionStream ctx req in
  match opened.1 with
  | None => ret opened.2
  | Some s =>
      let* s := recv_all n s in
      let* _ := stream_Close s in
      ret None
  end.

(** C9: A stream gives back what it takes.  A stream that is opened, read any number
    of times (through chunks, its end, errors, and recoveries on other deployments)
    and closed, or that could not be opened, leaves the requests in flight at every
    deployment and the permits in use at every provider as they were; and no step
    of it panics. *)
Theorem stream_session_balanced `{!NetworkLaws E HttpRequest} n ctx req w :
  sems_ok (manager w) -> Forall keeps_stream w.(w_client).(cl_pipeline).(plugins) ->
  exists w' err, session n ctx req w = (w', Some err)
    /\ (forall x, in_flight x (trace w') = in_flight x (trace w)) /\ (forall k, in_use (manager w') k = in_use (manager w) k).
Proof.
  intros Hm Hpl. set (b := fun x => in_flight x (trace w)). set (u := in_use (manager w)).
  assert (Hb : settled b u w) by (split; try done; intros k; by apply in_use_nonneg).
  assert (R : wp (session n ctx req) (fun _ w' => settled b u w') w).
  { unfold session. apply wp_bind. eapply wp_mono; [by apply wp_ChatCompletionStream|]. intros [[s|] [err|]] w1 H1; cbn [fst opening] in *; [done| |by wp_step|done].
    apply wp_bind. eapply wp_mono; [apply wp_recv_all; exact H1|]. cbn beta. intros s2 w2 H2.
    apply wp_bind. eapply wp_mono; [by apply wp_stream_Close|]. cbn beta. intros r w3 [H3 _]. by wp_step. }
  apply wp_run in R as (w' & err & Er & [H1 H2 H3 H4]). eauto 10.
Qed.
End Balance.

(** The connection breaks after one chunk and the stream goes on elsewhere. *)
Definition newline : string := String "010" "".

Definition broken_stream : list (go_error + HttpResponse) :=
  [inr {| hr_Status := 200; hr_Body := {| body_bytes := "a" +:+ newline; body_error := Some (EText "connection reset") |} |};
   inr {| hr_Status := 200; hr_Body := {| body_bytes := "a" +:+ newline +:+ "b" +:+ newline +:+ "[DONE]" +:+ newline; body_error := None |} |}].

Lemma stream_session_balanced_witness :
  let w := two_providers broken_stream in
  let d n := new_deployment n 2 "gpt-4o" in
  (exists w' err, session 3 Demo.nobody (Some (Demo.request "gpt-4o")) w = (w', Some err)
    /\ (forall x, in_flight x (trace w') = 0) /\ (forall k, in_use (manager w') k = 0))
  /\ trace (session 3 Demo.nobody (Some (Demo.request "gpt-4o")) w).1
     = [EvStart [] (d "east"); EvFailure [] (d "east"); EvEnd [] (d "east"); EvStart [] (d "west"); EvSuccess [] (d "west"); EvEnd [] (d "west")].
Proof.
  intros w d. split; [|vm_compute; reflexivity].
  destruct (stream_session_balanced 3 Demo.nobody (Some (Demo.request "gpt-4o")) w) as (w' & err & Er & H1 & H2);
    [apply map_Forall_empty|constructor|]. exists w', err. split; [exact Er|]. split; [intros x; by rewrite H1|intros k; by rewrite H2].
Defined.

(** * Reading a stream makes progress ([stream.go])

    A chunk that is handed out came from bytes or a channel that are shorter
    afterwards, or cost a recovery; so a loop that reads until the end, or until an
    error, ends.  And reading leaves the prices alone. *)

From S2P Require Import StreamTheorems.

Create HintDb stable discriminated.

Section Progress.
Context {E HttpRequest RT0 P L C : Type}.
Context `{!Network E HttpRequest} `{!RouterI RT0} `{!DistributedLimiter L} `{!CacheI C} `{!Tokenizer} `{!Codec}.
#[local] Abbreviation RT := (RT0 * list router_ev)%type.
#[local] Abbreviation reader := (@StreamReader E HttpRequest).
#[local] Abbreviation world := (@world E HttpRequest RT P L C).
#[local] Abbreviation M := (@M E HttpRequest RT P L C).
Implicit Types (s : reader) (w : world).

(** ** What is left to read *)

Definition position s := (s.(s_scanner), s.(s_pluginStream)).
Definition size s : nat := (length s.(s_scanner).(sn_pending) + length (default [] s.(s_pluginStream)))%nat.

Lemma position_size s s' : position s' = position s -> size s' = size s.
Proof. unfold position, size. by intros [= -> ->]. Qed.

Lemma apply_position c s : yields (fun r => position r.1 = position s) (applyStreamPluginsLocked c s : M _).
Proof. unfold applyStreamPluginsLocked. destruct (s_pluginCtx s); [|by apply yields_ret]. do 2 (apply yields_any; intros ?). by apply yields_ret. Qed.

Lemma note_position c s : yields (fun r => position r.1 = position s) (note_chunk c s : M _).
Proof.
  unfold note_chunk. apply (yields_bind (fun s1 => position s1 = position s)).
  { destruct (s_firstChunk s); [apply yields_any; intros ?|]; by apply yields_ret. }
  intros s1 Hs. apply yields_any. intros cfg. apply yields_ret. destruct (k_Choices c); [done|]. unfold appendAccumulatedLocked. cbn.
  destruct (String.eqb _ _); done.
Qed.

Lemma skip_position c s : position (skip_delivered c s).1 = position s.
Proof. unfold skip_delivered. repeat (case_match; simplify_eq/=; try done). Qed.

Lemma cut_line_short l : l <> [] -> (length (cut_line l).2 < length l)%nat.
Proof.
  intros Hl. destruct l as [|c l]; [done|]. clear Hl. revert c. induction l as [|d l IH]; intros c; cbn.
  - destruct (Ascii.eqb c _); cbn; lia.
  - destruct (Ascii.eqb c _); [cbn; lia|]. specialize (IH d). cbn in IH. destruct (Ascii.eqb d _); [cbn in *; lia|].
    destruct (cut_line l). cbn in *. lia.
Qed.

Lemma Scan_short sn line rest : Scan sn = Line line rest -> (length rest.(sn_pending) < length sn.(sn_pending))%nat.
Proof.
  unfold Scan. destruct (sn_pending sn) as [|c l] eqn:El; [done|]. pose proof (cut_line_short (c :: l) ltac:(done)) as Hc.
  destruct (cut_line (c :: l)) as [a r]. destruct (_ <? _)%nat; [|done]. intros [= _ <-]. exact Hc.
Qed.

(** A line that gives a chunk is gone. *)
Lemma recv_lines_short fuel s :
  yields (fun r => match r.2 with GotChunk _ => (size r.1 < size s)%nat | _ => True end) (recv_lines fuel s : M _).
Proof.
  revert s. induction fuel as [|fuel IH]; intros s; cbn [recv_lines]; [by apply yields_ret|].
  destruct (Scan _) as [line rest|] eqn:Es; [|by apply yields_ret]. apply Scan_short in Es. cbv zeta. set (s1 := s<|s_scanner := rest|>).
  assert (Hs1 : (size s1 < size s)%nat) by (unfold size, s1; cbn; lia). clearbody s1.
  assert (IH' : forall s2, (size s2 < size s)%nat ->
    yields (fun r => match r.2 with GotChunk _ => (size r.1 < size s)%nat | _ => True end) (recv_lines fuel s2 : M _)).
  { intros s2 Hs2 w w' [s3 o] Hr. specialize (IH s2 _ _ _ Hr). cbn [fst snd] in *. destruct o; [lia|done|done]. }
  destruct (String.eqb _ _); [by apply IH'|]. destruct (is_done _).
  { apply yields_any. intros [s2 u]. by apply yields_ret. }
  destruct (s_provider s1) as [prov|]; [|apply yields_panic]. destruct (ParseStreamChunk _ _) as [e|[chunk|]]; [by apply IH'| |by apply IH'].
  pose proof (position_size _ _ (skip_position chunk s1)) as Hk. destruct (skip_delivered chunk s1) as [s2 out]. cbn [fst] in Hk.
  destruct out as [chunk'|]; [|apply IH'; lia]. eapply yields_bind; [apply apply_position|].
  intros [s3 [chunk3|]] Hs3%position_size; cbn [fst] in Hs3; [|apply IH'; lia].
  eapply yields_bind; [apply note_position|]. intros [s4 u] Hs4%position_size. apply yields_ret. cbn [fst snd] in *. lia.
Qed.

Lemma recv_channel_short chunks s :
  yields (fun r => r.2.2 = None -> r.1.(s_scanner) = s.(s_scanner)
    /\ (length (default [] r.1.(s_pluginStream)) < length chunks)%nat) (recv_channel chunks s : M _).
Proof.
  revert s. induction chunks as [|[c|] chunks IH]; intros s; cbn [recv_channel].
  - apply yields_any. intros [s2 u]. by apply yields_ret.
  - eapply yields_bind; [apply apply_position|]. intros [s3 o] Hs3. unfold position in Hs3. cbn in Hs3. injection Hs3 as Ha Hb. destruct o as [chunk3|].
    + eapply yields_bind; [apply note_position|]. intros [s4 u] Hs4. apply yields_ret. intros _. unfold position in Hs4. cbn in *.
      injection Hs4 as Hc Hd. rewrite Hc, Hd, Hb. cbn. split; [done|lia].
    + intros w w' r Hr Hn. destruct (IH _ _ _ _ Hr Hn) as [H1 H2]. rewrite H1. split; [done|cbn; lia].
  - intros w w' r Hr Hn. destruct (IH _ _ _ _ Hr Hn) as [H1 H2]. split; [done|cbn; lia].
Qed.

(** A success after a recovery has used it up. *)
Lemma recover_fewer fuel err s : yields (fun r => r.2.2 = None -> (retries_left r.1 < retries_left s)%nat) (recover fuel err s : M _).
Proof.
  assert (Stuck : forall e s0, yields (fun r => r.2.2 = None -> (retries_left r.1 < retries_left s)%nat) (end_broken e s0 : M _)).
  { intros e s0. unfold end_broken. do 2 (apply yields_any; intros ?). by apply yields_ret. }
  destruct fuel as [|fuel]; cbn [recover]; [apply Stuck|].
  apply (yields_bind (fun can => can = true -> s_retryCount s < s_maxRetries s)).
  { unfold canRecover. apply yields_any. intros e. apply yields_ret. destruct (Z.ltb_spec (s_retryCount s) (s_maxRetries s)); [done|].
    by rewrite andb_false_r. }
  intros [|] Hpos; [|apply Stuck]. cbn [negb]. specialize (Hpos eq_refl).
  eapply yields_bind; [apply reconnect_counts|]. intros [s1 o] Hs1. unfold one_more, counts in Hs1. cbn [fst] in Hs1. injection Hs1 as Hc Hm.
  assert (Fewer : forall A (m : M (reader * (option A * option go_error))), yields (no_fewer s1) m ->
    yields (fun r => r.2.2 = None -> (retries_left r.1 < retries_left s)%nat) m).
  { intros A m Hy w w' r Hr _. destruct (Hy _ _ _ Hr) as [H1 H2]. unfold retries_left. lia. }
  apply Fewer. destruct o as [e|]; [apply recover_counts|].
  apply (yields_bind (no_fewer s1)).
  { apply recv_with_counts. intros err' s' Hs'. apply counts_eq in Hs' as [E1 E2]. apply (no_fewer_trans s1 s'); [lia|done|apply recover_counts]. }
  intros [s2 [chunk [e|]]] [H3 H4]; [|by apply yields_ret]. cbn [fst] in *. apply (no_fewer_trans s1 s2); [lia|congruence|apply recover_counts].
Qed.

(** Fewer recoveries are left, or as many and less to read. *)
Definition closer s s' : Prop :=
  (retries_left s' < retries_left s)%nat \/ (retries_left s' = retries_left s /\ (size s' < size s)%nat).

Lemma Recv_closer s : yields (fun r => r.2.2 = None -> closer s r.1) (Recv s : M _).
Proof.
  unfold Recv, recv_with. destruct (s_closed s); [by apply yields_ret|]. destruct (s_pluginStream s) as [chunks|] eqn:Ep.
  { intros w w' r Hr Hn. destruct (recv_channel_short chunks s _ _ _ Hr Hn) as [H1 H2].
    destruct (counts_eq _ _ (recv_channel_counts chunks s _ _ _ Hr)) as [E1 E2]. right.
    split; [unfold retries_left; by rewrite E1, E2|]. unfold size. rewrite H1, Ep. cbn. lia. }
  apply (yields_bind (fun r => same_counts s r /\ match r.2 with GotChunk _ => (size r.1 < size s)%nat | _ => True end)).
  { intros w w' r Hr. split; [by eapply recv_lines_counts|by eapply recv_lines_short]. }
  intros [s1 o] [Hc Hs]. apply counts_eq in Hc as [E1 E2]. cbn [fst snd] in *.
  assert (Hrl : retries_left s1 = retries_left s) by (unfold retries_left; by rewrite E1, E2).
  assert (Br : forall err, yields (fun r => r.2.2 = None -> closer s r.1) (recover (retries_left s) err s1 : M _)).
  { intros err w w' r Hr Hn. left. pose proof (recover_fewer _ err s1 _ _ _ Hr Hn). lia. }
  destruct o as [chunk| |[err|]].
  - apply yields_ret. intros _. by right.
  - by apply yields_ret.
  - apply yields_any. intros _. apply Br.
  - destruct (negb _); apply yields_any; [intros _; apply Br|]. intros [s2 u]. by apply yields_ret.
Qed.

(** Induction on what is left. *)
Lemma closer_ind (Q : reader -> Prop) : (forall s, (forall s', closer s s' -> Q s') -> Q s) -> forall s, Q s.
Proof.
  intros IH. assert (A : forall r n s, retries_left s = r -> size s = n -> Q s).
  { intros r. induction (lt_wf r) as [r _ IHr]. intros n. induction (lt_wf n) as [n _ IHn]. intros s Hr Hn. apply IH.
    intros s' [Hc|[Hc Hd]]; [by eapply IHr; [rewrite <- Hr|..]|]. eapply (IHn (size s')); [lia|congruence|done]. }
  intros s. by eapply A.
Qed.

(** ** Prices, and requests sent *)

(** What the client was set up with to price and to retry. *)
Definition prices w : option Registry * ClientConfig := (w.(w_client).(cl_pricing), w.(w_client).(cl_config)).

(** How many requests were started, as the router was told. *)
Definition is_start (ev : router_ev) : bool := match ev with EvStart _ _ => true | _ => false end.
Definition sent w : Z := count_if is_start (trace w).

#[local] Abbreviation priced m := (stable prices (m : M _)).
#[local] Abbreviation kept m := (stable (fun w => (prices w, sent w)) (m : M _)).

Lemma kept_priced {A} (m : M A) : kept m -> priced m.
Proof. intros Hm w. exact (f_equal fst (Hm w)). Qed.

(** Calls of the router that start no request. *)
Definition starts_none (f : RT -> RT) : Prop := forall rt, count_if is_start (f rt).2 = count_if is_start rt.2.

Lemma count_if_one (l : list router_ev) ev : count_if is_start (l ++ [ev]) = count_if is_start l + Z_of_bool (is_start ev).
Proof. unfold count_if, keep. rewrite List.filter_app, length_app. cbn. destruct (is_start ev); cbn; lia. Qed.

(** Steps that do not touch the client, and those that touch a part of it. *)
Lemma kept_ret {A} (a : A) : kept (ret a).
Proof. done. Qed.
Lemma kept_panic {A} : kept (panic (A:=A)).
Proof. done. Qed.
Lemma kept_gets {A} (f : _ -> A) : kept (gets f).
Proof. done. Qed.
Lemma kept_in_env {A} (f : E -> A) : kept (in_env f).
Proof. done. Qed.
Lemma kept_on_env {A} (f : E -> E * A) : kept (on_env f).
Proof. intros w. unfold on_env. by destruct (f _). Qed.
Lemma kept_modify f :
  (forall c, (f c).(cl_pricing) = c.(cl_pricing) /\ (f c).(cl_config) = c.(cl_config) /\ (f c).(cl_router) = c.(cl_router)) -> kept (modify f).
Proof. intros Hf w. unfold prices, sent, trace. cbn. by destruct (Hf w.(w_client)) as (-> & -> & ->). Qed.
Lemma kept_on_router f : starts_none f -> kept (on_router f).
Proof. intros Hf w. unfold prices, sent, trace. cbn. by rewrite Hf. Qed.
Lemma kept_pick ctx req : kept (pick ctx req).
Proof.
  intros w. unfold pick. pose proof (traced_pick ctx.(c_scope) req w.(w_client).(cl_router)) as Ht.
  destruct (r_PickWithContext _ _ _) as [rt r]. cbn in Ht. unfold prices, sent, trace. rewrite <- Ht. by destruct r.
Qed.
Lemma kept_on_plugins {A} pCtx (f : _ -> _ * A) : kept (on_plugins pCtx f).
Proof. intros w. unfold on_plugins. by destruct (f _) as [[? ?] ?]. Qed.
Lemma kept_release p : kept (release p).
Proof. by destruct p as [[? ?]|]. Qed.
Lemma kept_put pCtx : kept (putContext pCtx).
Proof. done. Qed.
Lemma kept_get ctx : kept (getContext ctx).
Proof. unfold getContext. do 2 (apply stable_bind; [apply kept_on_env|intros ?]). by intros w. Qed.
Lemma kept_fallback m m' e ok : kept (reportFallback m m' e ok).
Proof. intros w. unfold reportFallback, prices, sent, trace. cbn. by destruct (cl_fallbackReporter _). Qed.
#[local] Hint Resolve kept_ret kept_panic kept_gets kept_in_env kept_on_env kept_pick kept_on_plugins
  kept_release kept_put kept_get kept_fallback : stable.

#[local] Ltac kept_tac := repeat stable_step; auto with stable; try by apply kept_modify.

Lemma kept_on_deployment f s : (forall ctx d, starts_none (f ctx d)) -> kept (on_deployment f s).
Proof. intros Hf. unfold on_deployment. kept_tac. by apply kept_on_router. Qed.
Lemma none_end ctx d : starts_none (r_ReportRequestEnd ctx d).
Proof. intros rt. cbn. rewrite count_if_one. cbn. lia. Qed.
Lemma none_success ctx d m : starts_none (r_ReportSuccess ctx d m).
Proof. intros rt. cbn. rewrite count_if_one. cbn. lia. Qed.
Lemma none_failure ctx d e : starts_none (r_ReportFailure ctx d e).
Proof. intros rt. cbn. rewrite count_if_one. cbn. lia. Qed.
#[local] Hint Resolve kept_on_router kept_on_deployment none_end none_success none_failure : stable.
Lemma kept_endRequest s : kept (endRequest s).
Proof. unfold endRequest. kept_tac. Qed.
#[local] Hint Resolve kept_endRequest : stable.
Lemma kept_close s : kept (close s).
Proof. unfold close. kept_tac. Qed.
Lemma kept_finalize e s : kept (finalizeStreamLocked e s).
Proof. unfold finalizeStreamLocked. kept_tac. Qed.
#[local] Hint Resolve kept_close kept_finalize : stable.
Lemma kept_finish s : kept (finish s).
Proof. unfold finish. kept_tac. Qed.
Lemma kept_apply c s : kept (applyStreamPluginsLocked c s).
Proof. unfold applyStreamPluginsLocked. kept_tac. Qed.
Lemma kept_note c s : kept (note_chunk c s).
Proof. unfold note_chunk. kept_tac. Qed.
Lemma kept_backoff n : kept (retryBackoff n).
Proof. unfold retryBackoff. kept_tac. Qed.
Lemma kept_acquire ctx d : kept (acquireDeployment ctx d).
Proof. unfold acquireDeployment. kept_tac. Qed.
Lemma kept_end_broken e s : kept (end_broken e s).
Proof. unfold end_broken. kept_tac. Qed.
#[local] Hint Resolve kept_finish kept_apply kept_note kept_backoff kept_acquire kept_end_broken : stable.
Lemma kept_reportFailure e s : kept (reportFailure e s).
Proof. unfold reportFailure. kept_tac. Qed.
Lemma kept_recovery_failed d p e s : kept (recovery_failed d p e s).
Proof. unfold recovery_failed. kept_tac. Qed.
#[local] Hint Resolve kept_reportFailure kept_recovery_failed : stable.
Lemma kept_begin s : kept (begin_recovery s).
Proof. unfold begin_recovery. kept_tac. Qed.
Lemma kept_can s : kept (canRecover s).
Proof. unfold canRecover. kept_tac. Qed.
Lemma kept_recv_lines fuel s : kept (recv_lines fuel s).
Proof. revert s. induction fuel as [|fuel IH]; intros s; cbn [recv_lines]; [done|]. kept_tac. Qed.
Lemma kept_recv_channel chunks s : kept (recv_channel chunks s).
Proof. revert s. induction chunks as [|[c|] chunks IH]; intros s; cbn [recv_channel]; kept_tac. Qed.
#[local] Hint Resolve kept_begin kept_can kept_recv_lines kept_recv_channel : stable.
Lemma kept_stream_Close s : kept (stream_Close s).
Proof. unfold stream_Close. kept_tac. Qed.
Lemma kept_report p f ok : kept (report_pending p f ok).
Proof. unfold report_pending. kept_tac. Qed.
Lemma kept_before ctx n : kept (before_attempt ctx n).
Proof. unfold before_attempt. kept_tac. Qed.
#[local] Hint Resolve kept_report kept_before : stable.
Lemma kept_choose ctx r m n d e : kept (choose_deployment ctx r m n d e).
Proof. unfold choose_deployment. kept_tac. Qed.
Lemma kept_validate m p : kept (validatePricing m p).
Proof. unfold validatePricing. kept_tac. Qed.
Lemma kept_attempt_failed ctx d p f e : kept (attempt_failed ctx d p f e).
Proof. unfold attempt_failed. kept_tac. Qed.
Lemma kept_limit ctx m u n : kept (rate_limited ctx m u n).
Proof. unfold rate_limited, checkRateLimit. kept_tac. Qed.
#[local] Hint Resolve kept_choose kept_validate kept_attempt_failed kept_limit : stable.

(** The prices stay through a recovery, and through the opening of a stream. *)
Lemma stable_start ctx d : priced (on_router (r_ReportRequestStart ctx d)).
Proof. done. Qed.
#[local] Hint Resolve stable_start kept_priced : stable.
#[local] Ltac stable_tac := repeat stable_step; auto with stable; try by apply kept_priced, kept_modify.

Lemma stable_reconnect s : priced (reconnect s).
Proof. unfold reconnect. stable_tac. Qed.
#[local] Hint Resolve stable_reconnect : stable.

Lemma stable_recv_with broken s : (forall e s, priced (broken e s)) -> priced (recv_with broken s).
Proof. intros Hb. unfold recv_with. stable_tac. Qed.

Lemma stable_recover fuel e s : priced (recover fuel e s).
Proof.
  revert e s. induction fuel as [|fuel IH]; intros e s; cbn [recover]; [auto with stable|].
  pose proof (fun s => stable_recv_with _ s IH). stable_tac.
Qed.

Lemma stable_Recv s : priced (Recv s).
Proof. apply stable_recv_with. intros e s'. apply stable_recover. Qed.

Lemma stable_stream_Close s : priced (stream_Close s).
Proof. apply kept_priced, kept_stream_Close. Qed.

Lemma stable_stream_attempt ctx req pCtx n d f : priced (stream_attempt ctx req pCtx n d f).
Proof. unfold stream_attempt. stable_tac. Qed.
#[local] Hint Resolve stable_stream_attempt : stable.
Lemma stable_stream_loop fuel a ctx req n pCtx k d e : priced (stream_loop fuel a ctx req n pCtx k d e).
Proof. revert a d e. induction fuel as [|fuel IH]; intros a d e; cbn [stream_loop]; stable_tac. Qed.
#[local] Hint Resolve stable_stream_loop : stable.
Lemma stable_open ctx pCtx n req : priced (open_stream ctx pCtx n req).
Proof. unfold open_stream. stable_tac. Qed.
#[local] Hint Resolve stable_open : stable.
Lemma stable_ChatCompletionStream ctx req : priced (ChatCompletionStream ctx req).
Proof.
  unfold ChatCompletionStream. destruct (validate_request req); [done|]. cbv zeta. apply stable_bind; [apply kept_priced, kept_get|intros pCtx].
  stable_tac.
Qed.

(** ** Requests of a recovery *)

(** [costs Q m]: whenever [m] returns, [Q] holds of the requests it sent and of its
    result. *)
Definition costs {A : Type} (Q : Z -> A -> Prop) (m : M A) : Prop := forall w w' a, m w = (w', Some a) -> Q (sent w' - sent w) a.

Lemma costs_bind {A B} (Q : Z -> A -> Prop) (Q' : Z -> B -> Prop) (m : M A) (k : A -> M B) :
  costs Q m -> (forall n a, Q n a -> costs (fun n' => Q' (n + n')) (k a)) -> costs Q' (bind m k).
Proof.
  intros Hm Hk w w' b. unfold bind. destruct (m w) as [w1 [a|]] eqn:Em; [|done]. intros Eb.
  specialize (Hk _ _ (Hm _ _ _ Em) _ _ _ Eb). cbn in Hk. by replace (sent w1 - sent w + (sent w' - sent w1)) with (sent w' - sent w) in Hk by lia.
Qed.

Lemma costs_mono {A} (Q Q' : Z -> A -> Prop) (m : M A) : costs Q m -> (forall n a, Q n a -> Q' n a) -> costs Q' m.
Proof. intros Hm HQ w w' a Ha. by apply HQ, (Hm w). Qed.

Lemma costs_kept {A} (Q : A -> Prop) (m : M A) : kept m -> yields Q m -> costs (fun n a => n = 0 /\ Q a) m.
Proof.
  intros Hk Hy w w' a Ha. split; [|by eapply Hy]. specialize (Hk w). rewrite Ha in Hk. cbn in Hk.
  pose proof (f_equal snd Hk) as Hs. cbn in Hs. lia.
Qed.

Lemma costs_free {A B} (Q : Z -> B -> Prop) (m : M A) (k : A -> M B) :
  kept m -> (forall a, costs Q (k a)) -> costs Q (bind m k).
Proof. intros Hm Hk. eapply costs_bind; [by apply (costs_kept (fun _ => True))|]. intros n a [-> _]. apply Hk. Qed.

Lemma costs_ret {A} (Q : Z -> A -> Prop) a : Q 0 a -> costs Q (ret a).
Proof. intros HQ w w' a' [= <- <-]. by rewrite Z.sub_diag. Qed.

(** A recovery sends one request, or none. *)
Lemma reconnect_cost s : costs (fun n r => 0 <= n <= 1 /\ one_more s r) (reconnect s : M _).
Proof.
  intros w w' r Hr. split; [|by eapply reconnect_counts]. revert w w' r Hr. change (costs (fun n (_ : reader * option go_error) => 0 <= n <= 1) (reconnect s : M _)).
  unfold reconnect. apply costs_free; [auto with stable|intros [s1 u]]. cbn [fst]. apply costs_free; [auto with stable|intros backoff].
  apply costs_free; [kept_tac|intros fired]. destruct (negb fired); [apply costs_free; [auto with stable|intros ?; by apply costs_ret]|].
  apply costs_free; [auto with stable|intros [e|d]]; [by apply costs_ret|]. apply costs_free; [auto with stable|intros provs].
  destruct (provs !! _) as [prov|]; [|by apply costs_ret]. apply costs_free; [auto with stable|intros [e|http]]; [by apply costs_ret|].
  apply costs_free; [auto with stable|intros [e|p]]; [by apply costs_ret|].
  apply (costs_bind (fun n _ => n = 1)).
  { intros w w' a [= <- _]. unfold sent, trace. cbn. rewrite count_if_one. cbn. lia. }
  intros n _ ->. eapply costs_mono; [apply (costs_kept (fun _ => True)); [kept_tac|done]|]. cbn. intros n _ [-> _]. lia.
Qed.

(** Every request that a read sends counts as a recovery, and they stay within the limit. *)
Definition spent {A : Type} s (n : Z) (r : reader * A) : Prop :=
  0 <= n <= r.1.(s_retryCount) - s.(s_retryCount) /\ r.1.(s_maxRetries) = s.(s_maxRetries)
  /\ r.1.(s_retryCount) <= Z.max s.(s_retryCount) s.(s_maxRetries).

Lemma spent_same {A} s s' (m : M (reader * A)) : counts s' = counts s -> costs (spent s') m -> costs (spent s) m.
Proof. intros [E1 E2]%counts_eq Hm. eapply costs_mono; [exact Hm|]. unfold spent. by rewrite E1, E2. Qed.

Lemma free_spent {A} s (m : M (reader * A)) : kept m -> yields (same_counts s) m -> costs (spent s) m.
Proof.
  intros Hk Hy. eapply costs_mono; [by apply costs_kept|]. intros n r [-> [E1 E2]%counts_eq]. unfold spent. rewrite E1, E2. lia.
Qed.

Lemma recv_with_spent broken s :
  (forall err s', counts s' = counts s -> costs (spent s) (broken err s' : M _)) -> costs (spent s) (recv_with broken s : M _).
Proof.
  intros Hb. unfold recv_with. destruct (s_closed s); [apply free_spent; [auto with stable|by apply yields_ret]|].
  destruct (s_pluginStream s); [apply free_spent; [auto with stable|apply recv_channel_counts]|].
  eapply costs_bind; [apply costs_kept; [auto with stable|apply recv_lines_counts]|].
  intros n [s1 o] [-> Hs1]. unfold same_counts in Hs1. cbn [fst] in Hs1.
  assert (Hr : forall r : result StreamChunk, costs (spent s) (ret (s1, r) : M _)).
  { intros r. apply (spent_same s s1); [done|]. apply free_spent; [auto with stable|by apply yields_ret]. }
  destruct o as [chunk| |[err|]]; [apply Hr|apply Hr| |].
  - apply costs_free; [auto with stable|intros _; by apply Hb].
  - destruct (negb _); [apply costs_free; [auto with stable|intros _; by apply Hb]|].
    apply (spent_same s s1); [done|]. apply free_spent; [kept_tac|]. eapply yields_bind; [apply finish_counts|].
    intros [s2 u] Hs2. by apply yields_ret.
Qed.

Lemma recover_spent fuel err s : costs (spent s) (recover fuel err s : M _).
Proof.
  revert err s. induction fuel as [|fuel IH]; intros err s; cbn [recover]; [apply free_spent; [auto with stable|apply give_up_counts]|].
  eapply costs_bind.
  { apply (costs_kept (fun can => can = true -> s_retryCount s < s_maxRetries s)); [auto with stable|]. unfold canRecover. apply yields_any.
    intros e. apply yields_ret. destruct (Z.ltb_spec (s_retryCount s) (s_maxRetries s)); [done|]. by rewrite andb_false_r. }
  intros n [|] [-> Hpos]; cbn [negb]; [|apply free_spent; [auto with stable|apply give_up_counts]]. specialize (Hpos eq_refl).
  eapply costs_bind; [apply reconnect_cost|]. intros n [s1 o] [Hn Hs1]. unfold one_more, counts in Hs1. cbn [fst] in Hs1. injection Hs1 as Hc Hm.
  assert (K : forall A (m : M (reader * A)), costs (spent s1) m -> costs (fun n' => spent s (0 + (n + n'))) m).
  { intros A m Hk. eapply costs_mono; [exact Hk|]. unfold spent. intros n' r (H1 & H2 & H3). rewrite H2, Hm in *. split_and!; [lia..|done|lia]. }
  destruct o as [e|]; apply K; [apply IH|]. eapply costs_bind.
  { apply recv_with_spent. intros err' s' Hs'. by apply (spent_same s1 s'). }
  intros n2 [s2 [chunk [e|]]] (H1 & H2 & H3); cbn [fst] in *; [|apply costs_ret; unfold spent; cbn; lia].
  eapply costs_mono; [apply IH|]. unfold spent. intros n' r (I1 & I2 & I3). rewrite I2, H2 in *. split_and!; [lia..|done|lia].
Qed.

Lemma Recv_spent s : costs (spent s) (Recv s : M _).
Proof. apply recv_with_spent. intros err s' Hs'. apply (spent_same s s'); [done|apply recover_spent]. Qed.

(** ** Reading to the end *)

(** Reads until an error (the end is one), at most [n] times. *)
Fixpoint read_all (n : nat) s : M (reader * (list StreamChunk * option go_error)) :=
  match n with
  | O => ret (s, ([], None))
  | S n' =>
      let* r := Recv s in
      match r with
      | (s, (_, Some err)) => ret (s, ([], Some err))
      | (s, (chunk, None)) =>
          let* rest := read_all n' s in
          ret (rest.1, (option_list chunk ++ rest.2.1, rest.2.2))
      end
  end.

Lemma read_all_spent n s : costs (spent s) (read_all n s).
Proof.
  revert s. induction n as [|n IH]; intros s; cbn [read_all]; [apply costs_ret; unfold spent; cbn; lia|].
  eapply costs_bind; [apply Recv_spent|]. intros n1 [s1 [chunk [err|]]] (H1 & H2 & H3); cbn [fst] in *; [apply costs_ret; unfold spent; cbn; lia|].
  eapply costs_bind; [apply IH|]. intros n2 [s2 r] (I1 & I2 & I3). apply costs_ret. unfold spent. cbn [fst] in *. rewrite I2, H2 in *. lia.
Qed.

(** ** Opening *)

(** As [costs], for a client with the configuration [cfg]. *)
Definition opens {A : Type} (cfg : ClientConfig) (Q : Z -> A -> Prop) (m : M A) : Prop :=
  forall w w' a, w.(w_client).(cl_config) = cfg -> m w = (w', Some a) -> Q (sent w' - sent w) a.

Lemma opens_bind {A B} cfg (Q : Z -> A -> Prop) (Q' : Z -> B -> Prop) (m : M A) (k : A -> M B) :
  priced m -> opens cfg Q m -> (forall n a, Q n a -> opens cfg (fun n' => Q' (n + n')) (k a)) -> opens cfg Q' (bind m k).
Proof.
  intros Hp Hm Hk w w' b Hw. unfold bind. specialize (Hp w). destruct (m w) as [w1 [a|]] eqn:Em; [|done]. intros Eb.
  assert (Hw1 : w1.(w_client).(cl_config) = cfg) by (rewrite <- Hw; exact (f_equal snd Hp)).
  specialize (Hk _ _ (Hm _ _ _ Hw Em) _ _ _ Hw1 Eb). cbn in Hk.
  by replace (sent w1 - sent w + (sent w' - sent w1)) with (sent w' - sent w) in Hk by lia.
Qed.

Lemma opens_free {A B} cfg (Q : Z -> B -> Prop) (m : M A) (k : A -> M B) :
  kept m -> (forall a, opens cfg Q (k a)) -> opens cfg Q (bind m k).
Proof.
  intros Hm Hk. apply (opens_bind _ (fun n _ => n = 0)); [by apply kept_priced| |by intros n a ->].
  intros w w' a _ Ha. specialize (Hm w). rewrite Ha in Hm. pose proof (f_equal snd Hm) as Hs. cbn in Hs. lia.
Qed.

Lemma opens_cfg {B} cfg (Q : Z -> B -> Prop) (k : ClientConfig -> M B) : opens cfg Q (k cfg) -> opens cfg Q (bind (gets cl_config) k).
Proof. intros Hk w w' b Hw Hb. by eapply (Hk w w' b Hw); rewrite <- Hw. Qed.

Lemma opens_ret {A} cfg (Q : Z -> A -> Prop) a : Q 0 a -> opens cfg Q (ret a).
Proof. intros HQ w w' a' _ [= <- <-]. by rewrite Z.sub_diag. Qed.

Lemma opens_mono {A} cfg (Q Q' : Z -> A -> Prop) (m : M A) : opens cfg Q m -> (forall n a, Q n a -> Q' n a) -> opens cfg Q' m.
Proof. intros Hm HQ w w' a Hw Ha. by apply HQ, (Hm w). Qed.

#[local] Ltac opens_tac :=
  repeat first [ apply opens_cfg
               | apply opens_free; [by kept_tac|intros ?]
               | match goal with |- opens _ _ (match ?x with _ => _ end) => destruct x end ];
  try (apply opens_ret; cbn; repeat case_match; done).

(** A stream that was opened has made no recovery, and may make as many as the
    client is configured to. *)
Definition fresh (cfg : ClientConfig) s : Prop := counts s = (0, RetryCount cfg).

Lemma stream_attempt_cost cfg ctx req pCtx k d f :
  opens cfg (fun n r => 0 <= n <= 1 /\ match r with Opened s => fresh cfg s | _ => True end) (stream_attempt ctx req pCtx k d f : M _).
Proof.
  unfold stream_attempt. opens_tac.
  apply (opens_bind _ (fun n _ => n = 1)); [apply stable_start| |].
  { intros w w' u _ [= <- _]. unfold sent, trace. cbn. rewrite count_if_one. cbn. lia. }
  intros n u ->. opens_tac.
Qed.

Lemma stream_loop_cost cfg fuel a ctx req n pCtx k d e :
  opens cfg (fun n r => 0 <= n <= Z.of_nat fuel /\ forall s, r.1 = Some s -> fresh cfg s) (stream_loop fuel a ctx req n pCtx k d e : M _).
Proof.
  revert a d e. induction fuel as [|fuel IH]; intros a d e; cbn [stream_loop]; [opens_tac|].
  assert (IH' : forall a d e n0, 0 <= n0 <= 1 -> opens cfg (fun n1 r => 0 <= n0 + n1 <= Z.of_nat (S fuel) /\ forall s, r.1 = Some s -> fresh cfg s)
    (stream_loop fuel a ctx req n pCtx k d e : M _)).
  { intros a0 d0 e0 n0 Hn0. eapply opens_mono; [apply IH|]. cbn. intros n1 r [H1 H2]. split; [lia|done]. }
  apply opens_free; [auto with stable|intros [stop|]]; [opens_tac|]. cbv zeta.
  apply opens_free; [auto with stable|intros [err|[d' pending]]]; [by apply (IH' _ _ _ 0)|].
  eapply opens_bind; [auto with stable|apply stream_attempt_cost|]. cbn beta. intros n1 [s|err|err] [Hn Hs].
  - apply opens_ret. split; [lia|]. by intros s' [= <-].
  - by apply IH'.
  - apply opens_free; [auto with stable|intros ?]. apply opens_ret. split; [lia|done].
Qed.

Lemma open_stream_cost cfg ctx pCtx k req :
  opens cfg (fun n r => 0 <= n <= Z.max 0 (RetryCount cfg + 1) /\ forall s, r.1 = Some s -> fresh cfg s) (open_stream ctx pCtx k req : M _).
Proof.
  unfold open_stream. cbv zeta. apply opens_free; [auto with stable|intros [err|]].
  { apply opens_free; [auto with stable|intros ?]. apply opens_ret. split; [lia|done]. }
  apply opens_cfg. eapply opens_mono; [apply stream_loop_cost|]. cbn. intros n r [H1 H2]. split; [lia|done].
Qed.

Lemma ChatCompletionStream_cost cfg ctx req :
  opens cfg (fun n r => 0 <= n <= Z.max 0 (RetryCount cfg + 1) /\ forall s, r.1 = Some s -> fresh cfg s) (ChatCompletionStream ctx req : M _).
Proof.
  assert (Z0 : forall r : result reader, (forall s, r.1 = Some s -> fresh cfg s) ->
    opens cfg (fun n r => 0 <= n <= Z.max 0 (RetryCount cfg + 1) /\ forall s, r.1 = Some s -> fresh cfg s) (ret r : M _)).
  { intros r Hr. apply opens_ret. split; [lia|done]. }
  unfold ChatCompletionStream. destruct (validate_request req) as [err|q]; [by apply Z0|]. cbv zeta.
  do 3 (apply opens_free; [auto with stable|intros ?]). destruct a1 as [pc [[[q'|] sc] ran]]; [|done].
  destruct sc as [sc|]; [|apply open_stream_cost]. destruct (ss_Error sc) as [err|].
  { do 2 (apply opens_free; [auto with stable|intros ?]). by apply Z0. }
  destruct (ss_Stream sc) as [strm|]; [|apply open_stream_cost]. apply opens_free; [auto with stable|intros t]. apply opens_cfg, Z0.
  by intros s [= <-].
Qed.
End Progress.

Section ReadToEnd.
Context {E HttpRequest RT0 P L C : Type}.
Context `{!Network E HttpRequest} `{!RouterI RT0} `{!DistributedLimiter L} `{!CacheI C} `{!Tokenizer} `{!Codec} `{!RouterSafe RT0}.
#[local] Abbreviation RT := (RT0 * list router_ev)%type.
#[local] Abbreviation reader := (@StreamReader E HttpRequest).
#[local] Abbreviation world := (@world E HttpRequest RT P L C).
#[local] Abbreviation M := (@M E HttpRequest RT P L C).
Implicit Types (s : reader) (w : world).

Lemma wp_Recv b u s w : reader_inv b u s w -> wp (Recv s) (fun r w' => reader_inv b u r.1 w') w.
Proof. apply wp_recv_with. intros err s' w'. apply wp_recover. Qed.

(** Each read that gives a chunk brings the end closer. *)
Lemma read_all_ends b u s w :
  reader_inv b u s w -> exists n w' s' chunks err, read_all n s w = (w', Some (s', (chunks, Some err))).
Proof.
  revert w. induction s as [s IH] using closer_ind. intros w Hi.
  destruct (wp_run _ _ _ (wp_Recv b u s w Hi)) as (w1 & [s1 [chunk [err|]]] & Er & Hi1); cbn [fst] in Hi1.
  { exists 1%nat, w1, s1, [], err. cbn [read_all]. unfold bind. by rewrite Er. }
  destruct (IH s1 (Recv_closer s _ _ _ Er eq_refl) w1 Hi1) as (n & w' & s' & chunks & err & Ea).
  exists (S n), w', s', (option_list chunk ++ chunks), err. cbn [read_all]. unfold bind. by rewrite Er, Ea.
Qed.

(** C38: Reading a stream ends, and recoveries are bounded.  A call of
    [ChatCompletionStream] returns, and sends at most [RetryCount + 1] requests; a
    caller who reads the stream it opened until the end or an error gets there after
    finitely many calls of [Recv], each of which returns, whatever the network, the
    providers and the deployments do; and all these reads together, with the
    recoveries inside recoveries, send at most [RetryCount] requests more.  (For a
    router that does not panic and plug-ins whose first stream hook keeps a request.) *)
Theorem recovery_terminates `{!NetworkLaws E HttpRequest} ctx req w :
  sems_ok (manager w) -> Forall keeps_stream w.(w_client).(cl_pipeline).(plugins) ->
  exists w1 opened, ChatCompletionStream ctx req w = (w1, Some opened)
    /\ sent w1 - sent w <= Z.max 0 (RetryCount w.(w_client).(cl_config) + 1)
    /\ forall s, opened.1 = Some s ->
       exists n w' s' chunks err, read_all n s w1 = (w', Some (s', (chunks, Some err)))
         /\ sent w' - sent w1 <= Z.max 0 (RetryCount w.(w_client).(cl_config)).
Proof.
  intros Hm Hpl. set (b := fun x => in_flight x (trace w)). set (u := in_use (manager w)).
  assert (Hb : settled b u w) by (split; try done; intros k; by apply in_use_nonneg).
  destruct (wp_run _ _ _ (wp_ChatCompletionStream b u ctx req w Hb Hpl)) as (w1 & opened & Eo & Ho).
  destruct (ChatCompletionStream_cost _ _ _ _ _ _ eq_refl Eo) as [Hn Hf].
  exists w1, opened. split_and!; [done|lia|]. intros s Hs. destruct opened as [o e]. cbn [fst] in *. subst o.
  destruct e as [e|]; [done|]. destruct (read_all_ends b u s w1 Ho) as (n & w' & s' & chunks & err & Ea).
  exists n, w', s', chunks, err. split; [done|]. destruct (read_all_spent n s _ _ _ Ea) as (H1 & H2 & H3).
  specialize (Hf _ eq_refl). unfold fresh, counts in Hf. injection Hf as E1 E2. cbn [fst] in *. rewrite E1, E2 in *. lia.
Qed.
End ReadToEnd.

Lemma recovery_terminates_witness :
  let w := two_providers broken_stream in
  let req := Some (Demo.request "gpt-4o") in
  exists w1 s, ChatCompletionStream Demo.nobody req w = (w1, Some (Some s, None)) /\ sent w1 = 1
    /\ exists n w' s' chunks err, read_all n s w1 = (w', Some (s', (chunks, Some err))) /\ sent w' - sent w1 <= 3.
Proof.
  intros w req. destruct (recovery_terminates Demo.nobody req w) as (w1 & opened & Eo & Hn & Hr);
    [apply map_Forall_empty|constructor|].
  set (r := ChatCompletionStream Demo.nobody req w) in Eo. vm_compute in r. subst r. injection Eo as <- <-.
  do 2 eexists. split; [vm_compute; reflexivity|]. split; [vm_compute; reflexivity|]. apply (Hr _ eq_refl).
Defined.
