(* ===== verification/ClientSwap.v ===== *)
(** * Hot swap of the client ([internal/api/client_swap.go])

    Handlers borrow the current client with [acquire] and give it back with the
    release function; [swap] replaces it, and the old one is to be closed when its
    last borrower is done.  All of this is lock-free: every atomic operation is one
    step, and a goroutine moves through the phases between its steps.  References
    are named by their position in the list of all references ever made. *)
From S2P Require Import Prelude.

Section ClientSwap.
Context {T : Type}.

(** [closes] counts the calls of [Close] on the client. *)
Record clientRef := {
  client : T;
  refs : Z;
  closing : bool;
  closed : bool;
  closes : Z;
}.

Definition newRef (c : T) : clientRef := {| client := c; refs := 0; closing := false; closed := false; closes := 0 |}.

(** [refs.Add(n)]; at most as many as there are goroutines, so no overflow. *)
Definition addRefs (n : Z) (r : clientRef) : clientRef := r<|refs ::= fun m => m + n|>.
Definition setClosing (r : clientRef) : clientRef := r<|closing := true|>.

(** [closed.CompareAndSwap(false, true)], then [Close]. *)
Definition closeOnce (r : clientRef) : clientRef :=
  if r.(closed) then r else r<|closed := true|><|closes ::= fun n => n + 1|>.

(** Where a goroutine is: outside; in [acquire] after the load; with the client; in
    the release after its decrement reached zero; in [swap] or [closeCurrent] before
    and after [closing] is stored; about to run [closeOnce]. *)
Inductive phase := Idle | Loaded (i : nat) | Holding (i : nat) | Dropped (i : nat) | Replaced (i : nat) | Marked (i : nat) | ToClose (i : nat).

(** [shutdown] is a ghost: the references that [closeCurrent] loaded. *)
Record system := {
  store : list clientRef;
  current : nat;
  threads : list phase;
  shutdown : list nat;
}.

Definition newClientSwap (c : T) (n : nat) : system :=
  {| store := [newRef c]; current := 0; threads := replicate n Idle; shutdown := [] |}.

Definition goto (t : nat) (p : phase) (s : system) : system := s<|threads ::= <[t := p]>|>.
Definition update (i : nat) (f : clientRef -> clientRef) (s : system) : system := s<|store ::= alter f i|>.

Inductive step : system -> system -> Prop :=
| acquire_load t s : s.(threads) !! t = Some Idle -> step s (goto t (Loaded s.(current)) s)
| acquire_add t s i :
    s.(threads) !! t = Some (Loaded i) -> step s (goto t (Holding i) (update i (addRefs 1) s))
| release_add t s i r :
    s.(threads) !! t = Some (Holding i) -> s.(store) !! i = Some r ->
    step s (goto t (if r.(refs) - 1 =? 0 then Dropped i else Idle) (update i (addRefs (-1)) s))
| release_check t s i r :
    s.(threads) !! t = Some (Dropped i) -> s.(store) !! i = Some r ->
    step s (goto t (if r.(closing) then ToClose i else Idle) s)
| swap_exchange t s c :
    s.(threads) !! t = Some Idle ->
    step s (goto t (Replaced s.(current)) (s<|store ::= fun l => l ++ [newRef c]|><|current := length s.(store)|>))
| closeCurrent_load t s : s.(threads) !! t = Some Idle -> step s (goto t (Replaced s.(current)) (s<|shutdown ::= cons s.(current)|>))
| mark t s i : s.(threads) !! t = Some (Replaced i) -> step s (goto t (Marked i) (update i setClosing s))
| mark_check t s i r :
    s.(threads) !! t = Some (Marked i) -> s.(store) !! i = Some r ->
    step s (goto t (if r.(refs) =? 0 then ToClose i else Idle) s)
| close_ref t s i : s.(threads) !! t = Some (ToClose i) -> step s (goto t Idle (update i closeOnce s)).

(** [currentClient] *)
Definition currentClient (s : system) : option T := client <$> s.(store) !! s.(current).

(** ** The life of a reference *)

Definition holds (i : nat) (p : phase) : bool := match p with Holding j => (i =? j)%nat | _ => false end.
(** A goroutine that will look at the reference again before it leaves. *)
Definition will_look (i : nat) (p : phase) : bool :=
  match p with Dropped j | Marked j | ToClose j => (i =? j)%nat | _ => false end.
Definition about (p : phase) : option nat :=
  match p with
  | Idle => None
  | Loaded i | Holding i | Dropped i | Replaced i | Marked i | ToClose i => Some i
  end.

Record ref_ok (s : system) (i : nat) (r : clientRef) : Prop := {
  ok_refs : r.(refs) = count_if (holds i) s.(threads);
  ok_closes : r.(closes) = Z_of_bool r.(closed);
  ok_closed : r.(closed) = true -> r.(closing) = true;
  ok_pending : r.(closing) = true -> r.(refs) = 0 -> r.(closed) = true \/ exists t p, s.(threads) !! t = Some p /\ will_look i p = true;
}.

Record swap_inv (s : system) : Prop := {
  inv_current : is_Some (s.(store) !! s.(current));
  inv_about : forall t p i, s.(threads) !! t = Some p -> about p = Some i -> is_Some (s.(store) !! i);
  inv_marked : forall t i r, s.(threads) !! t = Some (Marked i) \/ s.(threads) !! t = Some (ToClose i) ->
    s.(store) !! i = Some r -> r.(closing) = true;
  inv_refs : forall i r, s.(store) !! i = Some r -> ref_ok s i r;
}.

Lemma holds_about i p : holds i p = true -> about p = Some i.
Proof. destruct p; try done. cbn. by intros ->%Nat.eqb_eq. Qed.

Lemma will_look_about i p : will_look i p = true -> about p = Some i.
Proof. destruct p; try done; cbn; by intros ->%Nat.eqb_eq. Qed.

Lemma holds_other i j p : about p = None \/ about p = Some i -> j <> i -> holds j p = false /\ will_look j p = false.
Proof.
  intros Hp Hj. split; apply not_true_is_false; [intros Ha%holds_about|intros Ha%will_look_about]; rewrite Ha in Hp; naive_solver.
Qed.

(** A witness of a pending look survives the move of another goroutine. *)
Lemma pending_frame (l : list phase) t p p' i :
  l !! t = Some p -> (will_look i p = true -> will_look i p' = true) ->
  (exists u q, l !! u = Some q /\ will_look i q = true) -> exists u q, <[t := p']> l !! u = Some q /\ will_look i q = true.
Proof.
  intros Ht Hp (u & q & Hu & Hq). destruct (decide (u = t)) as [->|Hne].
  - exists t, p'. simplify_eq. split; [apply list_lookup_insert_eq; by eapply lookup_lt_Some|auto].
  - exists u, q. by rewrite list_lookup_insert_ne.
Qed.

(** Every step but the exchange moves one goroutine and works on one reference. *)
Lemma local_step s s' t p p' i f :
  swap_inv s -> s.(threads) !! t = Some p ->
  s'.(threads) = <[t := p']> s.(threads) -> s'.(current) = s.(current) -> s'.(store) = alter f i s.(store) ->
  is_Some (s.(store) !! i) -> about p = None \/ about p = Some i -> about p' = None \/ about p' = Some i ->
  (forall r, s.(store) !! i = Some r -> (r.(closing) = true -> (f r).(closing) = true)
     /\ (p' = Marked i \/ p' = ToClose i -> (f r).(closing) = true) /\ (ref_ok s i r -> ref_ok s' i (f r))) ->
  swap_inv s'.
Proof.
  intros [Ic Ia Im Ir] Ht Et Ec Es Hi Ap Ap' F. destruct Hi as [r0 Hr0].
  assert (L : forall j, s'.(store) !! j = if decide (j = i) then Some (f r0) else s.(store) !! j).
  { intros j. rewrite Es. case_decide as E; [subst j; by rewrite list_lookup_alter_eq, Hr0|by rewrite list_lookup_alter_ne]. }
  specialize (F r0 Hr0) as (F1 & F2 & F3). split.
  - rewrite Ec, L. by case_decide.
  - intros u q j Hu Hq. rewrite L. case_decide as E; [done|]. rewrite Et in Hu.
    destruct (decide (u = t)) as [->|Hne].
    + rewrite list_lookup_insert_eq in Hu by (by eapply lookup_lt_Some). simplify_eq. naive_solver.
    + rewrite list_lookup_insert_ne in Hu by done. by eapply Ia.
  - intros u j r Hu Hr. rewrite L in Hr. rewrite Et in Hu. destruct (decide (u = t)) as [->|Hne].
    + rewrite list_lookup_insert_eq in Hu by (by eapply lookup_lt_Some).
      assert (j = i) as -> by (destruct Hu as [[= ->]|[= ->]]; cbn in Ap'; destruct Ap'; congruence).
      rewrite decide_True in Hr by done. simplify_eq. apply F2. naive_solver.
    + rewrite list_lookup_insert_ne in Hu by done. case_decide; [subst; simplify_eq; apply F1; by eapply Im|by eapply Im].
  - intros j r Hr. rewrite L in Hr. case_decide as E; [subst; simplify_eq; by apply F3, Ir|].
    destruct (Ir _ _ Hr) as [O1 O2 O3 O4]. destruct (holds_other i j p Ap E) as [H1 H2].
    destruct (holds_other i j p' Ap' E) as [H3 H4]. split; [|done..|].
    + rewrite Et, (count_if_insert _ _ _ _ _ Ht), H1, H3. cbn. lia.
    + intros Hc H0. destruct (O4 Hc H0) as [?|W]; [by left|right]. rewrite Et. eapply pending_frame; [done| |done]. congruence.
Qed.

Lemma alter_id_store (s : system) i : s.(store) = alter id i s.(store).
Proof. apply list_eq. intros j. destruct (decide (j = i)) as [->|]; [by rewrite list_lookup_alter_eq, option_fmap_id|by rewrite list_lookup_alter_ne]. Qed.

(** The exchange adds a reference that nobody knows yet. *)
Lemma exchange_inv s t c :
  swap_inv s -> s.(threads) !! t = Some Idle ->
  swap_inv (goto t (Replaced s.(current)) (s<|store ::= fun l => l ++ [newRef c]|><|current := length s.(store)|>)).
Proof.
  intros [Ic Ia Im Ir] Ht.
  assert (L : forall i r, (s.(store) ++ [newRef c]) !! i = Some r ->
    s.(store) !! i = Some r \/ i = length s.(store) /\ r = newRef c).
  { intros i r Hr. apply lookup_app_Some in Hr as [Hr|[Hl Hr]]; [by left|right].
    apply list_lookup_singleton_Some in Hr as [? <-]. split; [lia|done]. }
  assert (K : forall u q, <[t := Replaced s.(current)]> s.(threads) !! u = Some q ->
    s.(threads) !! u = Some q \/ q = Replaced s.(current)).
  { intros u q Hu. destruct (decide (u = t)) as [->|]; [right|left; by rewrite list_lookup_insert_ne in Hu].
    rewrite list_lookup_insert_eq in Hu by (by eapply lookup_lt_Some). by simplify_eq. }
  split; cbn.
  - rewrite lookup_app_r, Nat.sub_diag by done. done.
  - intros u q i Hu Hq. apply K in Hu as [Hu| ->].
    + destruct (Ia _ _ _ Hu Hq) as [r Hr]. exists r. by apply lookup_app_l_Some.
    + simplify_eq/=. destruct Ic as [r Hr]. exists r. by apply lookup_app_l_Some.
  - intros u i r Hu Hr. assert (Hu' : s.(threads) !! u = Some (Marked i) \/ s.(threads) !! u = Some (ToClose i))
      by (destruct Hu as [Hu|Hu]; apply K in Hu as [?|?]; naive_solver).
    apply L in Hr as [Hr|[-> ->]]; [by eapply Im|].
    assert (exists r, s.(store) !! length s.(store) = Some r) as [r Hr]
      by (destruct Hu' as [Hu'|Hu']; exact (Ia _ _ _ Hu' eq_refl)).
    apply lookup_lt_Some in Hr. lia.
  - intros i r Hr. apply L in Hr as [Hr|[-> ->]].
    + destruct (Ir _ _ Hr) as [O1 O2 O3 O4]. split; [|done..|]; cbn.
      * by rewrite (count_if_insert _ _ _ _ _ Ht), O1; cbn; lia.
      * intros Hc H0. destruct (O4 Hc H0) as [?|W]; [by left|right]. by eapply pending_frame.
    + split; cbn; [|done..]. rewrite (count_if_insert _ _ _ _ _ Ht). cbn. unfold count_if.
      rewrite (proj2 (keep_nil _ _)); [done|]. intros q Hq. apply not_true_is_false. intros Hh%holds_about.
      apply list_elem_of_lookup in Hq as [u Hu]. destruct (Ia _ _ _ Hu Hh) as [r Hr]. apply lookup_lt_Some in Hr. lia.
Qed.

Lemma known s t p i : swap_inv s -> s.(threads) !! t = Some p -> about p = Some i -> is_Some (s.(store) !! i).
Proof. intros I. apply (inv_about _ I). Qed.

#[local] Ltac move_one t i f :=
  eapply (local_step _ _ t _ _ i f);
  [eassumption|eassumption|reflexivity|reflexivity|first [reflexivity|cbn; apply alter_id_store]
  |first [eassumption|by eapply known; [eassumption|eassumption|]]|by (left + right)|try case_match; by (left + right)|].

Lemma swap_step_inv s s' : swap_inv s -> step s s' -> swap_inv s'.
Proof.
  intros I Hs. destruct Hs as [t s Ht|t s i Ht|t s i r Ht Hr|t s i r Ht Hr|t s c Ht|t s Ht|t s i Ht|t s i r Ht Hr|t s i Ht].
  5: by apply exchange_inv.
  all: assert (Hlt : (t < length s.(threads))%nat) by (by eapply lookup_lt_Some).
  all: pose proof I as [Ic Ia Im _].
  - move_one t s.(current) (@id clientRef).
    intros r Hr. split_and!; [done|naive_solver|]. intros [O1 O2 O3 O4]. split; [|done..|].
    + cbn. rewrite (count_if_insert _ _ _ _ _ Ht), <- O1. cbn. lia.
    + intros Hc H0. destruct (O4 Hc H0) as [?|W]; [by left|right]. by eapply pending_frame.
  - move_one t i (addRefs 1).
    intros r Hr. split_and!; [done|naive_solver|]. intros [O1 O2 O3 O4]. split; [|done..|]; cbn.
    + rewrite (count_if_insert _ _ _ _ _ Ht), <- O1. cbn. rewrite Nat.eqb_refl. cbn. lia.
    + pose proof (count_if_nonneg (holds i) s.(threads)). lia.
  - move_one t i (addRefs (-1)).
    intros r' Hr'. simplify_eq. split_and!; [done|case_match; naive_solver|]. intros [O1 O2 O3 O4]. split; [|done..|]; cbn.
    + rewrite (count_if_insert _ _ _ _ _ Ht), <- O1. cbn. rewrite Nat.eqb_refl. case_match; cbn; lia.
    + intros Hc H0. right. exists t, (Dropped i). replace (refs r - 1 =? 0) with true by lia.
      rewrite list_lookup_insert_eq by done. cbn. by rewrite Nat.eqb_refl.
  - move_one t i (@id clientRef).
    intros r' Hr'. simplify_eq. split_and!; [done|case_match; naive_solver|]. intros [O1 O2 O3 O4]. split; [|done..|]; cbn.
    + rewrite (count_if_insert _ _ _ _ _ Ht), <- O1. cbn. case_match; cbn; lia.
    + intros Hc H0. right. exists t, (ToClose i). rewrite Hc, list_lookup_insert_eq by done. cbn. by rewrite Nat.eqb_refl.
  - move_one t s.(current) (@id clientRef).
    intros r Hr. split_and!; [done|naive_solver|]. intros [O1 O2 O3 O4]. split; [|done..|].
    + cbn. rewrite (count_if_insert _ _ _ _ _ Ht), <- O1. cbn. lia.
    + intros Hc H0. destruct (O4 Hc H0) as [?|W]; [by left|right]. by eapply pending_frame.
  - move_one t i setClosing.
    intros r Hr. split_and!; [done|done|]. intros [O1 O2 O3 O4]. split; [|done..|]; cbn.
    + rewrite (count_if_insert _ _ _ _ _ Ht), <- O1. cbn. lia.
    + intros _ H0. right. exists t, (Marked i). rewrite list_lookup_insert_eq by done. cbn. by rewrite Nat.eqb_refl.
  - move_one t i (@id clientRef).
    intros r' Hr'. simplify_eq. split_and!; [done| |].
    { intros _. eapply Im; eauto. }
    intros [O1 O2 O3 O4]. split; [|done..|]; cbn.
    + rewrite (count_if_insert _ _ _ _ _ Ht), <- O1. cbn. case_match; cbn; lia.
    + intros Hc H0. right. exists t, (ToClose i). replace (refs r =? 0) with true by lia.
      rewrite list_lookup_insert_eq by done. cbn. by rewrite Nat.eqb_refl.
  - move_one t i closeOnce.
    intros r Hr. assert (Hc : r.(closing) = true) by (eapply Im; eauto).
    unfold closeOnce. split_and!; [by case_match|by case_match|]. intros [O1 O2 O3 O4]. split; case_match eqn:E; cbn; try done.
    + rewrite (count_if_insert _ _ _ _ _ Ht), <- O1. cbn. lia.
    + rewrite (count_if_insert _ _ _ _ _ Ht), <- O1. cbn. lia.
    + by rewrite E.
    + by rewrite O2.
    + intros _ _. by left.
    + intros _ _. by left.
Qed.

Lemma swap_init_inv c n : swap_inv (newClientSwap c n).
Proof.
  assert (Id : forall t p, (newClientSwap c n).(threads) !! t = Some p -> p = Idle) by (intros t p Hp; by apply lookup_replicate in Hp as [-> _]).
  split; [by eexists| | |].
  - intros t p i ->%Id. done.
  - intros t i r [H%Id|H%Id]; done.
  - intros [|i] r Hr; [|done]. injection Hr as <-. split; cbn; [|done..].
    symmetry. unfold count_if. rewrite (proj2 (keep_nil _ _)); [done|]. intros p Hp. by apply elem_of_replicate in Hp as [-> _].
Qed.

(** ** Which references are to be closed *)

(** Replaced by [swap], or the current one when the gateway shut down. *)
Definition due (s : system) (i : nat) : Prop := i <> s.(current) \/ i ∈ s.(shutdown).

Definition to_mark (s : system) (i : nat) : Prop := exists t, s.(threads) !! t = Some (Replaced i).
Definition is_marked (s : system) (i : nat) : Prop := exists r, s.(store) !! i = Some r /\ r.(closing) = true.

Record due_inv (s : system) : Prop := {
  due_last : length s.(store) = S s.(current);
  due_known : forall i, i ∈ s.(shutdown) -> (i < length s.(store))%nat;
  due_exact : forall i, (i < length s.(store))%nat -> (to_mark s i \/ is_marked s i <-> due s i);
}.

(** Marking keeps a reference on the list of those to be closed. *)
Lemma marks_moved s s' t p p' j f (m : bool) i :
  s.(threads) !! t = Some p -> s'.(threads) = <[t := p']> s.(threads) -> s'.(store) = alter f j s.(store) ->
  is_Some (s.(store) !! j) -> (forall k, p = Replaced k <-> k = j /\ m = true) -> (forall r, (f r).(closing) = r.(closing) || m) ->
  to_mark s' i \/ is_marked s' i <-> (to_mark s i \/ is_marked s i) \/ p' = Replaced i.
Proof.
  intros Ht Et Es [r0 Hr0] Hp Hf. unfold to_mark, is_marked. rewrite Et, Es. split.
  - intros [[u Hu]|[r [Hr Hc]]].
    + apply list_lookup_insert_Some in Hu as [(-> & E & _)|[_ Hu]]; eauto.
    + destruct (decide (i = j)) as [->|Hne]; [|rewrite list_lookup_alter_ne in Hr by done; eauto].
      rewrite list_lookup_alter_eq in Hr. apply fmap_Some in Hr as (r1 & Hr & ->). rewrite Hf in Hc.
      apply orb_true_iff in Hc as [Hc| ->]; [eauto|]. do 2 left. exists t. rewrite Ht. f_equal. by apply Hp.
  - intros [[[u Hu]|[r [Hr Hc]]]|E].
    + destruct (decide (u = t)) as [->|Hne]; [|left; exists u; by rewrite list_lookup_insert_ne].
      right. rewrite Ht in Hu. injection Hu as Hu. apply Hp in Hu as [-> ->].
      exists (f r0). by rewrite list_lookup_alter_eq, Hr0, Hf, orb_true_r.
    + right. destruct (decide (i = j)) as [->|Hne]; [|exists r; by rewrite list_lookup_alter_ne].
      exists (f r). by rewrite list_lookup_alter_eq, Hr, Hf, Hc.
    + left. exists t. rewrite E. apply list_lookup_insert_eq. by eapply lookup_lt_Some.
Qed.

(** A goroutine moves; [m] tells whether it marks the reference [j]. *)
Lemma due_local s s' t p p' j f (m : bool) :
  due_inv s -> s.(threads) !! t = Some p ->
  s'.(threads) = <[t := p']> s.(threads) -> s'.(current) = s.(current) -> s'.(store) = alter f j s.(store) ->
  is_Some (s.(store) !! j) ->
  (forall i, i ∈ s'.(shutdown) <-> i ∈ s.(shutdown) \/ p' = Replaced i) ->
  (forall i, p' = Replaced i -> i = s.(current)) ->
  (forall i, p = Replaced i <-> i = j /\ m = true) -> (forall r, (f r).(closing) = r.(closing) || m) -> due_inv s'.
Proof.
  intros [Dl Dk De] Ht Et Ec Es Hj Eh Hp' Hp Hf.
  assert (L : length s'.(store) = length s.(store)) by (rewrite Es; apply length_alter).
  split; [by rewrite L, Ec| |].
  - intros i Hi. rewrite L. apply Eh in Hi as [Hi| ->%Hp']; [auto|lia].
  - intros i Hi. rewrite L in Hi. rewrite (marks_moved s s' t p p' j f m) by done. rewrite De by done.
    unfold due. rewrite Ec, Eh. tauto.
Qed.

Lemma due_exchange s t c :
  swap_inv s -> due_inv s -> s.(threads) !! t = Some Idle ->
  due_inv (goto t (Replaced s.(current)) (s<|store ::= fun l => l ++ [newRef c]|><|current := length s.(store)|>)).
Proof.
  intros I [Dl Dk De] Ht.
  assert (K : forall i, to_mark (goto t (Replaced s.(current)) (s<|store ::= fun l => l ++ [newRef c]|><|current := length s.(store)|>)) i
    <-> to_mark s i \/ i = s.(current)).
  { intros i. unfold to_mark. cbn. split.
    - intros [u Hu]. apply list_lookup_insert_Some in Hu as [(-> & [= ->] & _)|[_ Hu]]; eauto.
    - intros [[u Hu]| ->]; [exists u|exists t].
      + rewrite list_lookup_insert_ne; [done|]. intros ->. congruence.
      + apply list_lookup_insert_eq. by eapply lookup_lt_Some. }
  split; cbn; [rewrite length_app; cbn; lia|intros i Hi%Dk; rewrite length_app; lia|].
  intros i Hi. rewrite length_app in Hi. cbn in Hi. rewrite K. unfold is_marked, due. cbn.
  destruct (decide (i = length s.(store))) as [->|Hne].
  - rewrite lookup_app_r, Nat.sub_diag by done. cbn. split; [|intros [?|?%Dk]; [done|lia]].
    intros [[[u Hu]|E]|(r & [= <-] & Hc)]; [|lia|done].
    destruct (inv_about _ I _ _ _ Hu eq_refl) as [r Hr]. apply lookup_lt_Some in Hr. lia.
  - rewrite lookup_app_l by lia. specialize (De i ltac:(lia)). unfold is_marked, due in De.
    destruct (decide (i = s.(current))) as [->|]; [split; intros _; [left; lia|auto]|]. split; [|intros _]; [intros _; by left|].
    destruct De as [_ De]. destruct De; [by left|auto..].
Qed.

#[local] Ltac keep_due t i f m :=
  eapply (due_local _ _ t _ _ i f m);
  [eassumption|eassumption|reflexivity|reflexivity|first [reflexivity|cbn; apply alter_id_store]
  |first [eassumption|by eapply known; [eassumption|eassumption|]]| | | |].

Lemma due_step s s' : swap_inv s -> due_inv s -> step s s' -> due_inv s'.
Proof.
  intros I D Hs. destruct Hs as [t s Ht|t s i Ht|t s i r Ht Hr|t s i r Ht Hr|t s c Ht|t s Ht|t s i Ht|t s i r Ht Hr|t s i Ht].
  5: by apply due_exchange.
  all: pose proof (inv_current _ I) as Ic.
  - keep_due t s.(current) (@id clientRef) false; try naive_solver. intros r. by rewrite orb_false_r.
  - keep_due t i (addRefs 1) false; try naive_solver. intros r. by rewrite orb_false_r.
  - keep_due t i (addRefs (-1)) false; repeat case_match; try naive_solver; intros r'; by rewrite orb_false_r.
  - keep_due t i (@id clientRef) false; repeat case_match; try naive_solver; intros r'; by rewrite orb_false_r.
  - keep_due t s.(current) (@id clientRef) false; try naive_solver.
    + intros i. cbn. rewrite elem_of_cons. naive_solver.
    + intros r. by rewrite orb_false_r.
  - keep_due t i setClosing true; try naive_solver. intros r. by rewrite orb_true_r.
  - keep_due t i (@id clientRef) false; repeat case_match; try naive_solver; intros r'; by rewrite orb_false_r.
  - keep_due t i closeOnce false; try naive_solver. intros r. unfold closeOnce. case_match; cbn; by rewrite orb_false_r.
Qed.

Lemma due_init c n : due_inv (newClientSwap c n).
Proof.
  split; [done|by intros i Hi%not_elem_of_nil|]. intros i Hi. cbn in Hi. assert (i = 0)%nat as -> by lia.
  unfold due. cbn. split; [|by intros [?|?%not_elem_of_nil]].
  intros [[t Ht]|(r & [= <-] & Hc)]; [|done]. by apply lookup_replicate in Ht as [? _].
Qed.

Lemma reachable_due c n s : rtc step (newClientSwap c n) s -> swap_inv s /\ due_inv s.
Proof.
  intros R. pose proof (swap_init_inv c n) as I. pose proof (due_init c n) as D.
  induction R as [|s s1 s2 Hs _ IH]; [done|]. apply IH; [by apply (swap_step_inv s)|by apply (due_step s)].
Qed.

(** No goroutine is between two steps on the reference. *)
Definition at_rest (i : nat) (s : system) : Prop :=
  Forall (fun p => p <> Replaced i /\ holds i p = false /\ will_look i p = false) s.(threads).

(** C31: A replaced client is closed, and closed once, when its last borrower is
    done; the current one is not closed.  The clients are numbered in the order in
    which they were installed, so all but the last were replaced.  In every reachable
    state, under any interleaving, the current client is the one installed last;
    a client's count is the number of goroutines that hold it; a client is closed at
    most once, and only one that a [swap] replaced or that was the current one when
    the gateway shut down is marked for it; and such a client is closed once nobody
    holds it and no goroutine is still in the middle of a [swap], a shutdown or a
    release of it, so that at rest the closed clients are exactly those. *)
Theorem swap_closes_once_idle c n s i r :
  rtc step (newClientSwap c n) s -> s.(store) !! i = Some r ->
  length s.(store) = S s.(current) /\ r.(refs) = count_if (holds i) s.(threads)
  /\ r.(closes) = Z_of_bool r.(closed) /\ (r.(closed) = true -> r.(closing) = true)
  /\ (r.(closing) = true -> i <> s.(current) \/ i ∈ s.(shutdown))
  /\ (at_rest i s -> r.(closed) = true <-> i <> s.(current) \/ i ∈ s.(shutdown)).
Proof.
  intros R Hr. destruct (reachable_due _ _ _ R) as [I [Dl _ De]].
  destruct (inv_refs _ I _ _ Hr) as [O1 O2 O3 O4]. specialize (De i ltac:(by eapply lookup_lt_Some)).
  assert (C : r.(closing) = true -> due s i) by (intros Hc; apply De; right; by exists r).
  split_and!; [done..|]. intros HF. split; [intros Hc; by apply C, O3|]. intros Hd%De. unfold at_rest in HF. rewrite Forall_lookup in HF.
  destruct Hd as [[t Ht]|(r' & Hr' & Hc)]; [by destruct (HF _ _ Ht)|]. simplify_eq.
  assert (R0 : r.(refs) = 0).
  { rewrite O1. unfold count_if. rewrite (proj2 (keep_nil _ _)); [done|].
    intros p Hp. apply list_elem_of_lookup in Hp as [t Ht]. by destruct (HF _ _ Ht) as (_ & ? & _). }
  destruct (O4 Hc R0) as [|(t & p & Ht & Hp)]; [done|]. destruct (HF _ _ Ht) as (_ & _ & ?). congruence.
Qed.
End ClientSwap.

Arguments clientRef : clear implicits.
Arguments system : clear implicits.

(** ** Runs with two goroutines *)

Section Runs.
Variables (old new : string).

Definition start : system string := newClientSwap old 2.

(** A handler borrows the client; it is replaced meanwhile; the handler is done. *)
Definition borrowed := goto 0 (Holding 0) (update 0 (addRefs 1) (goto 0 (Loaded 0) start)).
Definition exchanged (s : system string) (t : nat) : system string :=
  goto t (Replaced s.(current)) (s<|store ::= fun l => l ++ [newRef new]|><|current := length s.(store)|>).
Definition marked := goto 1 (Marked 0) (update 0 setClosing (exchanged borrowed 1)).
Definition returned := goto 0 (Dropped 0) (update 0 (addRefs (-1)) (goto 1 Idle marked)).
Definition done_ := goto 0 Idle (update 0 closeOnce (goto 0 (ToClose 0) returned)).

Lemma swap_run : rtc step start done_.
Proof.
  eapply rtc_l; [by apply (acquire_load 0)|]. eapply rtc_l; [by apply (acquire_add 0 _ 0)|].
  eapply rtc_l; [by apply (swap_exchange 1 _ new)|]. eapply rtc_l; [by apply (mark 1 _ 0)|].
  eapply rtc_l; [by eapply (mark_check 1 _ 0)|]. eapply rtc_l; [by eapply (release_add 0 _ 0)|].
  eapply rtc_l; [by eapply (release_check 0 _ 0)|]. eapply rtc_l; [by apply (close_ref 0 _ 0)|]. done.
Qed.

(** The load of [acquire], then the whole of [swap], then the count. *)
Definition loaded := goto 0 (Loaded 0) start.
Definition idle_marked := goto 1 (Marked 0) (update 0 setClosing (exchanged loaded 1)).
Definition swapped_away := goto 1 Idle (update 0 closeOnce (goto 1 (ToClose 0) idle_marked)).
Definition stale := goto 0 (Holding 0) (update 0 (addRefs 1) swapped_away).

Lemma stale_run : rtc step start stale.
Proof.
  eapply rtc_l; [by apply (acquire_load 0)|]. eapply rtc_l; [by apply (swap_exchange 1 _ new)|].
  eapply rtc_l; [by apply (mark 1 _ 0)|]. eapply rtc_l; [by eapply (mark_check 1 _ 0)|].
  eapply rtc_l; [by apply (close_ref 1 _ 0)|]. eapply rtc_l; [by apply (acquire_add 0 _ 0)|]. done.
Qed.
End Runs.

Lemma swap_closes_once_idle_witness :
  exists r r', (done_ "old" "new").(store) = [r; r'] /\ r.(closed) = true /\ r.(closes) = 1 /\ r'.(closing) <> true.
Proof.
  do 2 eexists. split; [reflexivity|].
  destruct (swap_closes_once_idle "old" 2 (done_ "old" "new") 0 _ (swap_run "old" "new") eq_refl) as (_ & _ & E & _ & _ & H).
  destruct (swap_closes_once_idle "old" 2 (done_ "old" "new") 1 _ (swap_run "old" "new") eq_refl) as (_ & _ & _ & _ & H' & _).
  assert (C : closed (closeOnce (addRefs (-1) (setClosing (addRefs 1 (newRef "old"))))) = true).
  { apply H; [by repeat constructor|by left]. }
  split_and!; [exact C|reflexivity|]. intros Hc. destruct (H' Hc) as [|?%not_elem_of_nil]; done.
Defined.

(** A borrowed client can already be closed.  [acquire] loads the reference and
    counts itself in two steps: when the client is replaced in between, nobody is
    counted yet, the client is closed at once, and the handler works with a closed
    client. *)
Theorem swap_use_after_close (old new : string) :
  exists s r, rtc step (newClientSwap old 2) s /\ s.(threads) !! 0%nat = Some (Holding 0)
    /\ s.(store) !! 0%nat = Some r /\ r.(client) = old /\ r.(closed) = true.
Proof. exists (stale old new). eexists. split; [apply (stale_run old new)|]. done. Qed.
