(* ===== verification/ApiTypes.v ===== *)
(** * The data of the HTTP API ([pkg/types/request.go], [embedding.go], [completions.go], [responses.go])

    The JSON forms of requests with their aliases and alternatives, and the
    translation of the completions and the responses API to chat requests and back.
    The JSON library is the class [Json]: reading a text as a value of a Go type,
    and writing one.  A nil slice is [None] where the code tells it from an empty
    one. *)
From S2P Require Import Prelude Float64 Errors ModelName Utf8 AuthTypes ClientTypes.

Record contentPart := { part_Type : string; part_Text : string }.

(** [json.Unmarshal] into the types the code uses, and [json.Marshal] from them;
    [members] is a map from names to raw values, [chat] the fields of a request. *)
Class Json := {
  read_members : string -> go_error + gmap string string;
  write_members : gmap string string -> go_error + string;
  read_chat : string -> go_error + ChatRequest;
  write_chat : ChatRequest -> go_error + string;
  read_int : string -> go_error + Z;
  read_string : string -> go_error + string;
  write_string : string -> go_error + string;
  read_strings : string -> go_error + list string;
  write_strings : list string -> go_error + string;
  read_ints : string -> go_error + list Z;
  write_ints : list Z -> go_error + string;
  read_intss : string -> go_error + list (list Z);
  write_intss : list (list Z) -> go_error + string;
  read_messages : string -> go_error + list ChatMessage;
  read_parts : string -> go_error + list contentPart;
}.

Section Api.
Context `{!Json}.

(** ** Chat requests *)

Definition chatRequestKnownFields : list string :=
  ["model"; "messages"; "stream"; "max_tokens"; "max_output_tokens"; "max_completion_tokens"; "temperature"; "top_p"; "n";
   "stop"; "presence_penalty"; "frequency_penalty"; "user"; "end_user"; "end_user_id"; "tools"; "tool_choice";
   "response_format"; "stream_options"; "tags"; "tag"].

(** The fields of the payload win over the extra ones. *)
Definition ChatRequest_MarshalJSON (r : ChatRequest) : go_error + string :=
  match write_chat r with
  | inl err => inl err
  | inr base =>
      if bool_decide (default ∅ r.(q_Extra) = ∅) then inr base
      else match read_members base with
           | inl err => inl err
           | inr payload => write_members (payload ∪ default ∅ r.(q_Extra))
           end
  end.

Definition readAliasInt (payload : gmap string string) (key : string) (target : Z) : go_error + Z :=
  if negb (target =? 0) then inr target
  else match payload !! key with None => inr target | Some raw => read_int raw end.

Definition readAliasString (payload : gmap string string) (key : string) (target : string) : go_error + string :=
  if negb (String.eqb target "") then inr target
  else match payload !! key with None => inr target | Some raw => read_string raw end.

Definition readAliasTags (payload : gmap string string) (key : string) (target : list string) : go_error + list string :=
  match target, payload !! key with
  | [], Some raw => match read_string raw with inr single => inr [single] | inl _ => read_strings raw end
  | _, _ => inr target
  end.

(** The unknown members of the payload. *)
Definition unknown_members (known : list string) (payload : gmap string string) : nmap string :=
  let rest := foldr delete payload known in
  if bool_decide (rest = ∅) then None else Some rest.

#[local] Notation "'try' x := m 'in' k" := (match m with inl err => inl err | inr x => k end)
  (at level 10, x name, m at level 100, k at level 200).

Definition ChatRequest_UnmarshalJSON (data : string) : go_error + ChatRequest :=
  try payload := read_members data in
  try r := read_chat data in
  try maxTokens := (try n := readAliasInt payload "max_output_tokens" r.(q_MaxTokens) in
                    readAliasInt payload "max_completion_tokens" n) in
  try user := (try u := readAliasString payload "end_user" r.(q_User) in readAliasString payload "end_user_id" u) in
  try tags := readAliasTags payload "tag" r.(q_Tags) in
  inr (r<|q_MaxTokens := maxTokens|><|q_User := user|><|q_Tags := tags|>
        <|q_Extra := unknown_members chatRequestKnownFields payload|>).

(** ** Embedding inputs *)

Definition EmbeddingInput_UnmarshalJSON (data : string) : go_error + EmbeddingInput :=
  let input text texts tokens tokensList :=
    inr {| ei_Text := text; ei_Texts := texts; ei_Tokens := tokens; ei_TokensList := tokensList |} in
  if String.eqb data "null" then inl (EText "input cannot be null")
  else match read_string data with
  | inr s => input (Some s) None None None
  | inl _ =>
      match read_strings data with
      | inr ss => input None (Some ss) None None
      | inl _ =>
          match read_ints data with
          | inr tokens => input None None (Some tokens) None
          | inl _ =>
              match read_intss data with
              | inr tokensList => input None None None (Some tokensList)
              | inl _ => inl (EText "input must be string, []string, []int, or [][]int")
              end
          end
      end
  end.

Definition EmbeddingInput_MarshalJSON (e : EmbeddingInput) : go_error + string :=
  match e.(ei_Text), e.(ei_Texts), e.(ei_Tokens), e.(ei_TokensList) with
  | None, None, None, None => inl (EText "embedding input is empty")
  | Some s, None, None, None => write_string s
  | None, Some ss, None, None => write_strings ss
  | None, None, Some tokens, None => write_ints tokens
  | None, None, None, Some tokensList => write_intss tokensList
  | _, _, _, _ => inl (EText "embedding input must set exactly one field")
  end.

Definition EmbeddingInput_IsEmpty (e : EmbeddingInput) : bool :=
  match e.(ei_Text), e.(ei_Texts), e.(ei_Tokens), e.(ei_TokensList) with None, None, None, None => true | _, _, _, _ => false end.

(** ** The completions API *)

Record CompletionPrompt := { pr_Text : option string; pr_Texts : option (list string) }.

Definition CompletionPrompt_UnmarshalJSON (data : string) : go_error + CompletionPrompt :=
  if String.eqb data "null" then inl (EText "prompt cannot be null")
  else match read_string data with
  | inr s => inr {| pr_Text := Some s; pr_Texts := None |}
  | inl _ =>
      match read_strings data with
      | inr ss => inr {| pr_Text := None; pr_Texts := Some ss |}
      | inl _ => inl (EText "prompt must be string or []string")
      end
  end.

Definition CompletionPrompt_MarshalJSON (p : CompletionPrompt) : go_error + string :=
  match p.(pr_Text), p.(pr_Texts) with
  | None, None => inl (EText "prompt is empty")
  | Some _, Some _ => inl (EText "prompt must set exactly one field")
  | Some s, None => write_string s
  | None, Some ss => write_strings ss
  end.

Definition CompletionPrompt_Validate (p : CompletionPrompt) : option go_error :=
  match p.(pr_Text), p.(pr_Texts) with
  | Some s, _ => if String.eqb s "" then Some (EText "prompt cannot be empty") else None
  | None, Some [] => Some (EText "prompt list cannot be empty")
  | None, Some ss => reject_first (String.eqb "") "prompt list contains empty string" ss
  | None, None => Some (EText "prompt is required")
  end.

Definition newline : string := String (Ascii.ascii_of_nat 10) "".

Definition AsText (p : CompletionPrompt) : go_error + string :=
  match CompletionPrompt_Validate p with
  | Some err => inl err
  | None => match p.(pr_Text) with Some s => inr s | None => inr (String.concat newline (default [] p.(pr_Texts))) end
  end.

Definition CompletionStop_UnmarshalJSON (data : string) : go_error + list string :=
  if String.eqb data "null" then inl (EText "stop cannot be null")
  else match read_string data with
  | inr single => inr [single]
  | inl _ =>
      match read_strings data with
      | inr list => inr list
      | inl _ => inl (EText "stop must be string or []string")
      end
  end.

Record CompletionRequest := {
  cr_Model : string;
  cr_Prompt : CompletionPrompt;
  cr_Stream : bool;
  cr_MaxTokens : Z;
  cr_Temperature : option f64;
  cr_TopP : option f64;
  cr_N : Z;
  cr_Stop : option (list string);
  cr_PresencePenalty : option f64;
  cr_FrequencyPenalty : option f64;
  cr_User : string;
  cr_BestOf : Z;
  cr_Echo : bool;
  cr_Logprobs : Z;
  cr_Suffix : string;
}.

Definition CompletionRequest_Validate (r : CompletionRequest) : option go_error :=
  if String.eqb r.(cr_Model) "" then Some (EText "model is required")
  else if negb (ValidateModelName r.(cr_Model)) then Some model_too_long
  else CompletionPrompt_Validate r.(cr_Prompt).

Definition user_message (content : string) : ChatMessage :=
  {| m_Role := "user"; m_Content := content; m_Name := ""; m_ToolCalls := []; m_ToolCallID := "" |}.

Definition CompletionRequest_ToChatRequest (r : CompletionRequest) : go_error + ChatRequest :=
  match CompletionRequest_Validate r with
  | Some err => inl err
  | None =>
      try text := AsText r.(cr_Prompt) in
      match write_string text with
      | inl err => inl (EWrap "marshal prompt" err)
      | inr content =>
          inr {| q_Model := r.(cr_Model); q_Messages := [user_message content]; q_Stream := r.(cr_Stream);
                 q_MaxTokens := r.(cr_MaxTokens); q_Temperature := r.(cr_Temperature); q_TopP := r.(cr_TopP); q_N := r.(cr_N);
                 q_Stop := default [] r.(cr_Stop); q_PresencePenalty := r.(cr_PresencePenalty);
                 q_FrequencyPenalty := r.(cr_FrequencyPenalty); q_User := r.(cr_User); q_Tools := []; q_ToolChoice := "";
                 q_ResponseFormat := None; q_StreamOptions := None; q_Tags := []; q_Extra := None |}
      end
  end.

(** The log probabilities of a choice are never filled. *)
Record CompletionChoice := { cc_Index : Z; cc_Text : string; cc_FinishReason : string }.

Record CompletionResponse := {
  co_ID : string;
  co_Object : string;
  co_Created : Z;
  co_Model : string;
  co_Choices : list CompletionChoice;
  co_Usage : option Usage;
  co_SystemFingerprint : string;
}.

Definition extractMessageText (msg : ChatMessage) : string :=
  if String.eqb msg.(m_Content) "" || String.eqb msg.(m_Content) "null" then ""
  else match read_string msg.(m_Content) with
  | inr text => text
  | inl _ =>
      match read_parts msg.(m_Content) with
      | inr parts =>
          String.concat "" (map part_Text (keep (fun p => String.eqb p.(part_Type) "" || String.eqb p.(part_Type) "text") parts))
      | inl _ => msg.(m_Content)
      end
  end.

Definition CompletionResponseFromChat (resp : ChatResponse) : CompletionResponse :=
  {| co_ID := resp.(p_ID); co_Object := "text_completion"; co_Created := resp.(p_Created); co_Model := resp.(p_Model);
     co_Choices := map (fun c => {| cc_Index := c.(ch_Index); cc_Text := extractMessageText c.(ch_Message);
                                    cc_FinishReason := c.(ch_FinishReason) |}) resp.(p_Choices);
     co_Usage := resp.(p_Usage); co_SystemFingerprint := resp.(p_SystemFingerprint) |}.

(** A streaming chunk has the shape of a response. *)
Definition CompletionStreamChunkFromChat (chunk : StreamChunk) : CompletionResponse :=
  {| co_ID := chunk.(k_ChunkID); co_Object := "text_completion"; co_Created := chunk.(k_Created); co_Model := chunk.(k_Model);
     co_Choices := map (fun c => {| cc_Index := c.(sc_Index); cc_Text := c.(sc_Delta).(dl_Content);
                                    cc_FinishReason := c.(sc_FinishReason) |}) chunk.(k_Choices);
     co_Usage := chunk.(k_Usage); co_SystemFingerprint := chunk.(k_SystemFingerprint) |}.

Definition firstCompletionText (resp : CompletionResponse) : string :=
  match resp.(co_Choices) with [] => "" | c :: _ => c.(cc_Text) end.

(** ** The responses API *)

Record ResponseInput := { ri_Text : option string; ri_Texts : list string; ri_Messages : list ChatMessage }.

(** The null test ignores white space around it. *)
Definition ResponseInput_UnmarshalJSON (data : string) : go_error + ResponseInput :=
  if String.eqb (TrimSpace data) "null" then inl (EText "input cannot be null")
  else match read_string data with
  | inr s => inr {| ri_Text := Some s; ri_Texts := []; ri_Messages := [] |}
  | inl _ =>
      match read_messages data, read_strings data with
      | inr (m :: ms), _ => inr {| ri_Text := None; ri_Texts := []; ri_Messages := m :: ms |}
      | _, inr (s :: ss) => inr {| ri_Text := None; ri_Texts := s :: ss; ri_Messages := [] |}
      | _, _ => inl (EText "input must be string, []string, or []message")
      end
  end.

Record ResponseRequest := {
  rr_Model : string;
  rr_Input : ResponseInput;
  rr_Stream : bool;
  rr_MaxOutputTokens : Z;
  rr_MaxTokens : Z;
  rr_Temperature : option f64;
  rr_TopP : option f64;
  rr_User : string;
  rr_Tools : list Tool;
  rr_ToolChoice : string;
  rr_ResponseFormat : option string;
  rr_StreamOptions : option bool;
  rr_Tags : list string;
  rr_Extra : nmap string;
}.

Definition responseRequestKnownFields : list string :=
  ["model"; "input"; "stream"; "max_output_tokens"; "max_tokens"; "temperature"; "top_p"; "user"; "tools"; "tool_choice";
   "response_format"; "stream_options"; "tags"].

(** [read_request] is the decoding of the known fields. *)
Definition ResponseRequest_UnmarshalJSON (read_request : string -> go_error + ResponseRequest) (data : string) :
  go_error + ResponseRequest :=
  try payload := read_members data in
  try parsed := read_request data in
  inr (parsed<|rr_Extra := unknown_members responseRequestKnownFields payload|>).

Fixpoint text_messages (texts : list string) : go_error + list ChatMessage :=
  match texts with
  | [] => inr []
  | text :: texts' =>
      match write_string text with
      | inl err => inl (EWrap "marshal input text" err)
      | inr content => try messages := text_messages texts' in inr (user_message content :: messages)
      end
  end.

Definition responseInputToMessages (input : ResponseInput) : go_error + list ChatMessage :=
  match input.(ri_Text), input.(ri_Texts), input.(ri_Messages) with
  | Some text, _, _ => text_messages [text]
  | None, (_ :: _) as texts, _ => text_messages texts
  | None, [], (_ :: _) as messages => inr messages
  | None, [], [] => inl (EText "input is required")
  end.

Definition ResponseRequest_ToChatRequest (r : ResponseRequest) : go_error + ChatRequest :=
  if String.eqb r.(rr_Model) "" then inl (EText "model is required")
  else if negb (ValidateModelName r.(rr_Model)) then inl model_too_long
  else
    try messages := responseInputToMessages r.(rr_Input) in
    inr {| q_Model := r.(rr_Model); q_Messages := messages; q_Stream := r.(rr_Stream);
           q_MaxTokens := if 0 <? r.(rr_MaxOutputTokens) then r.(rr_MaxOutputTokens) else r.(rr_MaxTokens);
           q_Temperature := r.(rr_Temperature); q_TopP := r.(rr_TopP); q_N := 0; q_Stop := []; q_PresencePenalty := None;
           q_FrequencyPenalty := None; q_User := r.(rr_User); q_Tools := r.(rr_Tools); q_ToolChoice := r.(rr_ToolChoice);
           q_ResponseFormat := r.(rr_ResponseFormat); q_StreamOptions := r.(rr_StreamOptions); q_Tags := r.(rr_Tags);
           q_Extra := r.(rr_Extra) |}.

Record ResponseContent := { rc_Type : string; rc_Text : string }.
Record ResponseOutput := { ro_Type : string; ro_Role : string; ro_Content : list ResponseContent }.

Record ResponseResponse := {
  re_ID : string;
  re_Object : string;
  re_Created : Z;
  re_Model : string;
  re_Output : list ResponseOutput;
  re_Usage : option Usage;
}.

Record ResponseStreamChunk := { rs_Type : string; rs_Delta : string; rs_Response : option ResponseResponse }.

Definition ResponseResponseFromChat (resp : ChatResponse) : ResponseResponse :=
  {| re_ID := resp.(p_ID); re_Object := "response"; re_Created := resp.(p_Created); re_Model := resp.(p_Model);
     re_Output := map (fun c => {| ro_Type := "message"; ro_Role := c.(ch_Message).(m_Role);
       ro_Content := [{| rc_Type := "output_text"; rc_Text := extractMessageText c.(ch_Message) |}] |}) resp.(p_Choices);
     re_Usage := resp.(p_Usage) |}.
End Api.

(** * Round trips of the API data

    What the JSON forms of inputs and prompts keep, from the documented behaviour of the
    JSON library: valid texts, and lists that are not empty, are read back as they were
    written, and a value of one kind is not read as another. *)

Definition valid_text (s : string) : bool := ValidString (String.list_ascii_of_string s).

Class JsonLaws `{!Json} : Prop := {
  string_roundtrip s d : write_string s = inr d -> valid_text s = true -> d <> "null" /\ read_string d = inr s;
  strings_roundtrip l d : write_strings l = inr d -> l <> [] -> forallb valid_text l = true ->
    d <> "null" /\ read_strings d = inr l /\ exists err, read_string d = inl err;
  ints_roundtrip l d : write_ints l = inr d -> l <> [] ->
    d <> "null" /\ read_ints d = inr l /\ (exists err, read_string d = inl err) /\ exists err, read_strings d = inl err;
  intss_roundtrip l d : write_intss l = inr d -> l <> [] ->
    d <> "null" /\ read_intss d = inr l /\ (exists err, read_string d = inl err)
    /\ (exists err, read_strings d = inl err) /\ exists err, read_ints d = inl err;
}.

Section RoundTrips.
Context `{!Json} `{!JsonLaws}.

(** An embedding input survives its JSON form: text, list of texts, tokens and
    lists of tokens are told apart when they are read.  (An empty list is not: it is
    read as a list of texts, and refused as input in any case.) *)
Theorem embedding_input_roundtrip e d :
  forallb valid_text (option_list e.(ei_Text) ++ default [] e.(ei_Texts)) = true -> EmbeddingInput_Validate e = None -> EmbeddingInput_MarshalJSON e = inr d -> EmbeddingInput_UnmarshalJSON d = inr e.
Proof.
  destruct e as [[s|] [ss|] [ts|] [tss|]]; unfold EmbeddingInput_Validate, EmbeddingInput_MarshalJSON, EmbeddingInput_UnmarshalJSON;
    cbn; intros Ht Hv Hd; try done.
  - rewrite andb_true_r in Ht. apply string_roundtrip in Hd as [Hn ->]; [|done]. by rewrite (proj2 (String.eqb_neq _ _) Hn).
  - apply strings_roundtrip in Hd as (Hn & -> & err & ->); [|by destruct ss|done]. by rewrite (proj2 (String.eqb_neq _ _) Hn).
  - apply ints_roundtrip in Hd as (Hn & -> & [? ->] & [? ->]); [|by destruct ts]. by rewrite (proj2 (String.eqb_neq _ _) Hn).
  - apply intss_roundtrip in Hd as (Hn & -> & [? ->] & [? ->] & [? ->]); [|by destruct tss]. by rewrite (proj2 (String.eqb_neq _ _) Hn).
Qed.

(** A prompt of valid texts survives its JSON form. *)
Theorem prompt_roundtrip p d :
  forallb valid_text (option_list p.(pr_Text) ++ default [] p.(pr_Texts)) = true -> p.(pr_Texts) <> Some [] ->
  CompletionPrompt_MarshalJSON p = inr d -> CompletionPrompt_UnmarshalJSON d = inr p.
Proof.
  destruct p as [[s|] [ss|]]; unfold CompletionPrompt_MarshalJSON, CompletionPrompt_UnmarshalJSON; cbn; intros Ht He Hd; try done.
  - rewrite andb_true_r in Ht. apply string_roundtrip in Hd as [Hn ->]; [|done]. by rewrite (proj2 (String.eqb_neq _ _) Hn).
  - apply strings_roundtrip in Hd as (Hn & -> & err & ->); [|by intros ->|done]. by rewrite (proj2 (String.eqb_neq _ _) Hn).
Qed.
End RoundTrips.

(** ** A small JSON library

    A table of documents: a text, a list of texts and two lists of tokens. *)
Module Documents.
Definition no : go_error := EText "unexpected value".

Definition known {A} (table : list (string * A)) (d : string) : go_error + A :=
  match list_find (fun p => p.1 = d) table with Some (_, (_, a)) => inr a | None => inl no end.

#[export] Instance json : Json := {|
  read_members := known [];
  write_members _ := inl no;
  read_chat := known [];
  write_chat _ := inl no;
  read_int := known [];
  read_string := known [("text", "hi")];
  write_string s := if String.eqb s "hi" then inr "text" else inl no;
  read_strings := known [("texts", ["a"; "b"])];
  write_strings l := if decide (l = ["a"; "b"]) then inr "texts" else inl no;
  read_ints := known [("tokens", [1; 2])];
  write_ints l := if decide (l = [1; 2]) then inr "tokens" else inl no;
  read_intss := known [("token lists", [[1]; [2]])];
  write_intss l := if decide (l = [[1]; [2]]) then inr "token lists" else inl no;
  read_messages := known [];
  read_parts := known [];
|}.

#[export] Instance json_laws : JsonLaws.
Proof.
  split; cbn [read_string write_string read_strings write_strings read_ints write_ints read_intss write_intss json].
  - intros s d. destruct (String.eqb_spec s "hi"); [|done]. intros [= <-] _. by subst.
  - intros l d. case_decide; [|done]. intros [= <-] _ _. subst. split_and!; [done..|by eexists].
  - intros l d. case_decide; [|done]. intros [= <-] _. subst. split_and!; [done..|by eexists|by eexists].
  - intros l d. case_decide; [|done]. intros [= <-] _. subst. split_and!; [done..|by eexists|by eexists|by eexists].
Qed.
End Documents.

#[local] Existing Instances Documents.json Documents.json_laws.

Lemma embedding_input_roundtrip_witness :
  EmbeddingInput_UnmarshalJSON "tokens" = inr {| ei_Text := None; ei_Texts := None; ei_Tokens := Some [1; 2]; ei_TokensList := None |}.
Proof. apply embedding_input_roundtrip; by vm_compute. Defined.
