(* ===== verification/ApiPayload.v ===== *)
(** * What the gateway logs ([internal/api/client_handler.go], [internal/observability/requestid.go])

    The identifier of a request and the payload that is built for the callbacks:
    who asked, for what, and how it ended. *)
From Stdlib Require Import Ascii.
From S2P Require Import Prelude Float64 Errors ModelName AuthTypes TenantLimiter PluginPipeline ClientTypes ApiTypes.

(** ** Request identifiers *)

Definition maxRequestIDLen : nat := 128.

Definition id_char (c : ascii) : bool :=
  let n := Z.of_nat (nat_of_ascii c) in
  ((97 <=? n) && (n <=? 122)) || ((65 <=? n) && (n <=? 90)) || ((48 <=? n) && (n <=? 57))
  || (n =? 45) || (n =? 95) || (n =? 46).

(** Every byte of a rune outside ASCII is refused, as the rune is. *)
Definition sanitizeRequestID (value : string) : option string :=
  let value := TrimSpace value in
  if String.eqb value "" || (maxRequestIDLen <? String.length value)%nat then None
  else if forallb id_char (String.list_ascii_of_string value) then Some value else None.

(** The request as the handlers see it: its context (who was authenticated, and the
    identifier in it), its headers, its body.  [hq_fresh] is what the random source
    gives when an identifier is needed. *)
Record request := {
  hq_ctx : Ctx;
  hq_requestID : string;
  hq_fresh : string;
  hq_header : string;
  hq_http : HttpRequest;
  hq_body : Body;
}.

(** [RequestIDMiddleware]: the identifier goes into the context and into the
    response. *)
Definition RequestIDMiddleware (r : request) : request * string :=
  let requestID := match sanitizeRequestID r.(hq_header) with Some id => id | None => r.(hq_fresh) end in
  (r<|hq_requestID := requestID|>, requestID).

Definition ensureRequestID (r : request) : request * string :=
  if negb (String.eqb r.(hq_requestID) "") then (r, r.(hq_requestID)) else (r<|hq_requestID := r.(hq_fresh)|>, r.(hq_fresh)).

(** ** The payload *)

Inductive param := PBool (b : bool) | PInt (n : Z) | PFloat (x : f64) | PString (s : string) | PStrings (l : list string).

Inductive logged_request := LChat (messages : list ChatMessage) | LInput (input : option EmbeddingInput).
Inductive logged_response :=
| LNone | LChatResponse (r : ChatResponse) | LEmbedding (r : EmbeddingResponse) | LResponse (r : ResponseResponse) | LText (s : string).

Inductive RequestStatus := StatusUnset | RequestStatusSuccess | RequestStatusFailure.

(** The fields that the handlers set. *)
Record StandardLoggingPayload := {
  pl_ID : string;
  pl_RequestID : string;
  pl_CallType : string;
  pl_Status : RequestStatus;
  pl_RequestedModel : string;
  pl_Model : string;
  pl_APIProvider : string;
  pl_PromptTokens : Z;
  pl_CompletionTokens : Z;
  pl_TotalTokens : Z;
  pl_ResponseCost : f64;
  pl_StartTime : time;
  pl_EndTime : time;
  pl_EndUser : option string;
  pl_User : option string;
  pl_UserEmail : option string;
  pl_HashedAPIKey : option string;
  pl_APIKeyAlias : option string;
  pl_Team : option string;
  pl_TeamAlias : option string;
  pl_Organization : option string;
  pl_Messages : logged_request;
  pl_Response : logged_response;
  pl_ModelParameters : gmap string param;
  pl_ErrorStr : option string;
  pl_ExceptionClass : option string;
  pl_RequestTags : list string;
  pl_RequesterIPAddress : option string;
}.

Definition new_payload (requestID callType model : string) (start : time) (messages : logged_request) : StandardLoggingPayload :=
  {| pl_ID := ""; pl_RequestID := requestID; pl_CallType := callType; pl_Status := StatusUnset; pl_RequestedModel := model;
     pl_Model := model; pl_APIProvider := ""; pl_PromptTokens := 0; pl_CompletionTokens := 0; pl_TotalTokens := 0;
     pl_ResponseCost := fzero; pl_StartTime := start; pl_EndTime := zero_time; pl_EndUser := None; pl_User := None;
     pl_UserEmail := None; pl_HashedAPIKey := None; pl_APIKeyAlias := None; pl_Team := None; pl_TeamAlias := None;
     pl_Organization := None; pl_Messages := messages; pl_Response := LNone; pl_ModelParameters := ∅; pl_ErrorStr := None;
     pl_ExceptionClass := None; pl_RequestTags := []; pl_RequesterIPAddress := None |}.

Definition set_if {A : Type} (x : option A) (key : string) (f : A -> param) (m : gmap string param) : gmap string param :=
  match x with Some a => <[key := f a]> m | None => m end.
Definition positive (n : Z) : option Z := if 0 <? n then Some n else None.

Definition chatModelParameters (req : ChatRequest) : gmap string param :=
  let m : gmap string param := {["stream" := PBool req.(q_Stream)]} in
  let m := set_if (positive req.(q_MaxTokens)) "max_tokens" PInt m in
  let m := set_if req.(q_Temperature) "temperature" PFloat m in
  let m := set_if req.(q_TopP) "top_p" PFloat m in
  let m := set_if (positive req.(q_N)) "n" PInt m in
  let m := match req.(q_Stop) with [] => m | stop => <["stop" := PStrings stop]> m end in
  let m := set_if req.(q_PresencePenalty) "presence_penalty" PFloat m in
  let m := set_if req.(q_FrequencyPenalty) "frequency_penalty" PFloat m in
  set_if req.(q_ResponseFormat) "response_format" PString m.

Definition embeddingModelParameters (req : EmbeddingRequest) : gmap string param :=
  let m : gmap string param := if String.eqb req.(er_EncodingFormat) "" then ∅ else {["encoding_format" := PString req.(er_EncodingFormat)]} in
  set_if (positive req.(er_Dimensions)) "dimensions" PInt m.

Definition stringPtr (value : string) : option string := if String.eqb value "" then None else Some value.

(** [if x != nil { field = x }] *)
Definition or_keep (x field : option string) : option string := match x with Some _ => x | None => field end.

Definition applyAuthContext (authCtx : option AuthContext) (requestUser : string) (p : StandardLoggingPayload) :
  StandardLoggingPayload :=
  let p := if negb (String.eqb requestUser "") then p<|pl_EndUser := stringPtr requestUser|> else p in
  match authCtx with
  | None => p
  | Some a =>
      let p := match p.(pl_EndUser) with None => p<|pl_EndUser := stringPtr a.(a_EndUserID)|> | Some _ => p end in
      let p := match a.(a_User) with
               | Some u => p<|pl_User := or_keep (stringPtr u.(u_ID)) p.(pl_User)|><|pl_UserEmail := or_keep u.(u_Email) p.(pl_UserEmail)|>
               | None => p<|pl_User := or_keep (a.(a_APIKey) ≫= k_UserID) p.(pl_User)|>
               end in
      let p := match a.(a_APIKey) with
               | Some k => p<|pl_HashedAPIKey := or_keep (stringPtr k.(k_KeyHash)) p.(pl_HashedAPIKey)|>
                            <|pl_APIKeyAlias := or_keep k.(k_KeyAlias) p.(pl_APIKeyAlias)|>
                            <|pl_Team := or_keep k.(k_TeamID) p.(pl_Team)|>
                            <|pl_Organization := or_keep k.(k_OrganizationID) p.(pl_Organization)|>
               | None => p
               end in
      match a.(a_Team) with
      | Some t => p<|pl_Team := stringPtr t.(t_ID)|><|pl_TeamAlias := or_keep t.(t_Alias) p.(pl_TeamAlias)|>
                   <|pl_Organization := match p.(pl_Organization) with Some o => Some o | None => t.(t_OrganizationID) end|>
      | None => p
      end
  end.

Section Payload.
Context {IP Net : Type} `{!NetLib IP Net}.

Definition requesterIP (addr : string) : string :=
  if String.eqb addr "" then ""
  else match net_SplitHostPort addr with Some (host, _) => host | None => addr end.

Definition buildChatObservabilityPayload (r : request) (req : ChatRequest) (start : time) (requestID : string) :
  StandardLoggingPayload :=
  let p := new_payload requestID "chat_completion" req.(q_Model) start (LChat req.(q_Messages)) in
  let p := p<|pl_ModelParameters := chatModelParameters req|><|pl_RequestTags := req.(q_Tags)|> in
  let p := applyAuthContext r.(hq_ctx).(c_auth) req.(q_User) p in
  p<|pl_RequesterIPAddress := stringPtr (requesterIP r.(hq_http).(h_RemoteAddr))|>.

Definition buildEmbeddingObservabilityPayload (r : request) (req : EmbeddingRequest) (start : time) (requestID : string) :
  StandardLoggingPayload :=
  let p := new_payload requestID "embedding" req.(er_Model) start (LInput req.(er_Input)) in
  let p := p<|pl_ModelParameters := embeddingModelParameters req|> in
  let p := applyAuthContext r.(hq_ctx).(c_auth) req.(er_User) p in
  p<|pl_RequesterIPAddress := stringPtr (requesterIP r.(hq_http).(h_RemoteAddr))|>.
End Payload.

Definition errorClass (err : go_error) : string :=
  match errors_As err with
  | Some e => if String.eqb e.(EType) "" then "error" else e.(EType)
  | None => "error"
  end.

(** What the end of a request puts into the payload. *)
Definition end_payload (t : time) (err : option go_error) (p : StandardLoggingPayload) : StandardLoggingPayload :=
  let p := p<|pl_EndTime := t|> in
  match err with
  | Some err => p<|pl_Status := RequestStatusFailure|><|pl_ErrorStr := Some (error_text err)|><|pl_ExceptionClass := Some (errorClass err)|>
  | None => p<|pl_Status := RequestStatusSuccess|>
  end.

(** The calls of the callback manager. *)
Inductive obs_event :=
| ObsPre (p : StandardLoggingPayload)
| ObsStream (p : StandardLoggingPayload) (chunk : StreamChunk)
| ObsPost (p : StandardLoggingPayload)
| ObsFailure (p : StandardLoggingPayload) (err : go_error)
| ObsSuccess (p : StandardLoggingPayload).
