(* ===== verification/Gateway.v ===== *)
(** * The gateway's handlers ([internal/api/client_handler.go], [responses_handler.go], [internal/mcp/executor.go])

    A handler reads the request, asks the governance engine, calls the client,
    accounts for the usage and writes the response.  Its state is the gateway: the
    client with its world, the engine, the storage, the tool manager, the log of the
    callbacks, and the response being written.  The engine and the handler are built
    over one storage: when there is an engine, it is the engine's.  A goroutine that
    only writes usage runs at once.  Metrics are left out. *)
From stdpp Require Import pretty.
From S2P Require Import Prelude Float64 Errors ModelName RouterTypes BaseRouter Strategies RedisLimiter AuthTypes AuthStore ModelAccess TenantLimiter RedisCache Governance PluginPipeline ClientTypes Client Stream ApiTypes ApiPayload.

#[local] Abbreviation result A := (option A * option go_error)%type.

(** ** The response *)

Inductive json_body :=
| JChat (r : ChatResponse)
| JCompletion (r : CompletionResponse)
| JResponse (r : ResponseResponse)
| JEmbedding (r : EmbeddingResponse)
| JModels (l : list (string * string))
| JError (message type : string)
| JStatus (s : string).

Inductive output := OText (s : string) | OJson (j : json_body).

(** [wr_room] is how many more writes the connection takes, if it breaks. *)
Record writer := {
  wr_status : option Z;
  wr_out : list output;
  wr_flusher : bool;
  wr_room : option nat;
}.

Definition new_writer (flusher : bool) (room : option nat) : writer :=
  {| wr_status := None; wr_out := []; wr_flusher := flusher; wr_room := room |}.

(** The first status counts. *)
Definition WriteHeader (code : Z) (w : writer) : writer := w<|wr_status ::= fun s => Some (default code s)|>.

Definition Write (o : output) (w : writer) : writer * bool :=
  let w := WriteHeader 200 w in
  match w.(wr_room) with
  | Some O => (w, false)
  | Some (S n) => (w<|wr_room := Some n|><|wr_out ::= fun l => l ++ [o]|>, true)
  | None => (w<|wr_out ::= fun l => l ++ [o]|>, true)
  end.

Definition write_error : go_error := EText "write: broken pipe".

(** The encoding of what is written to a stream. *)
Class ApiJson := {
  marshal_chunk : StreamChunk -> go_error + string;
  marshal_completion_chunk : CompletionResponse -> go_error + string;
  marshal_event : ResponseStreamChunk -> go_error + string;
  read_completion : string -> go_error + CompletionRequest;
  read_response : string -> go_error + ResponseRequest;
  read_embedding : string -> go_error + EmbeddingRequest;
}.

(** ** Tools ([internal/mcp]) *)

Record ToolExecutionResult := {
  tr_ToolCallID : string;
  tr_ToolName : string;
  tr_Content : string;
  tr_IsError : bool;
  tr_Duration : duration;
}.

(** The operations of [mcp.Manager] that are used; [InjectTools] is optional. *)
Class ToolManager (MCP : Type) := {
  InjectTools : option (Ctx -> ChatRequest -> MCP -> MCP * ChatRequest);
  ExecuteToolCalls : Ctx -> list ToolCall -> MCP -> MCP * list ToolExecutionResult;
}.

Definition HasToolCalls (resp : option ChatResponse) : bool :=
  match resp with
  | Some resp =>
      match resp.(p_Choices) with
      | [] => false
      | choice :: _ => String.eqb choice.(ch_FinishReason) "tool_calls" && negb (length choice.(ch_Message).(m_ToolCalls) =? 0)%nat
      end
  | None => false
  end.

Definition CreateToolMessage `{!Json} (result : ToolExecutionResult) : ChatMessage :=
  {| m_Role := "tool"; m_Content := match write_string result.(tr_Content) with inr s => s | inl _ => String (Ascii.ascii_of_nat 34) "error marshaling content" +:+ String (Ascii.ascii_of_nat 34) "" end;
     m_Name := ""; m_ToolCalls := []; m_ToolCallID := result.(tr_ToolCallID) |}.

Definition AppendToolResults `{!Json} (req : ChatRequest) (assistantMsg : ChatMessage) (results : list ToolExecutionResult) : ChatRequest :=
  req<|q_Messages ::= fun ms => ms ++ assistantMsg :: map CreateToolMessage results|>.

Definition MaxToolIterations : nat := 10.

(** ** Handlers *)

(** A run ends with a value, in a panic, or without having ended. *)
Inductive run (A : Type) := Val (a : A) | Panicked | NoFuel.
Arguments Val {A}.
Arguments Panicked {A}.
Arguments NoFuel {A}.

Definition CallTypeChatCompletion := "chat_completion".
Definition CallTypeCompletion := "completion".
Definition CallTypeEmbedding := "embedding".

Section Gateway.
Context {Env Http RT P L C St IP Net T GL Enf I MCP : Type}.
Context `{!Network Env Http} `{!RouterI RT} `{!DistributedLimiter L} `{!CacheI C} `{!Tokenizer} `{!Codec} `{!Json} `{!ApiJson}.
Context `{!AuthStore St} `{!NetLib IP Net} `{!RateLimiter T} `{!DistributedLimiter GL} `{!CasbinEngine Enf} `{!IdempotencyStore I}.
Context `{!ToolManager MCP}.

#[local] Abbreviation cworld := (@world Env Http RT P L C).
#[local] Abbreviation CM := (@M Env Http RT P L C).
#[local] Abbreviation engine := (Engine St T Net GL Enf I).
#[local] Abbreviation reader := (@StreamReader Env Http).

(** [gw_obs] is the log of the callbacks, with whether spans are traced. *)
Record gateway := {
  gw_world : cworld;
  gw_client : bool;
  gw_refs : Z;
  gw_governance : option engine;
  gw_store : option St;
  gw_mcp : option MCP;
  gw_obs : option (bool * list obs_event);
  gw_maxBodySize : Z;
  gw_writer : writer;
}.

Definition HM (A : Type) : Type := gateway -> gateway * run A.

Definition hret {A : Type} (a : A) : HM A := fun g => (g, Val a).
Definition hpanic {A : Type} : HM A := fun g => (g, Panicked).
Definition hbind {A B : Type} (m : HM A) (k : A -> HM B) : HM B :=
  fun g => match m g with
           | (g, Val a) => k a g
           | (g, Panicked) => (g, Panicked)
           | (g, NoFuel) => (g, NoFuel)
           end.
#[local] Notation "'let+' x := m 'in' k" := (hbind m (fun x => k)) (at level 10, x pattern, m at level 100, k at level 200).

Definition hgets {A : Type} (f : gateway -> A) : HM A := fun g => (g, Val (f g)).
Definition hmodify (f : gateway -> gateway) : HM unit := fun g => (f g, Val tt).

(** A call of the client. *)
Definition on_client {A : Type} (m : CM A) : HM A :=
  fun g => let '(w, a) := m g.(gw_world) in
           (g<|gw_world := w|>, match a with Some a => Val a | None => Panicked end).

(** [defer after()]: also when the body panics. *)
Definition finally {A : Type} (m : HM A) (after : gateway -> gateway) : HM A :=
  fun g => let '(g, a) := m g in (after g, a).

Definition clock : HM time := on_client (on_env now).

(** ** Writing *)

Definition write (o : output) : HM bool :=
  fun g => let '(w, ok) := Write o g.(gw_writer) in (g<|gw_writer := w|>, Val ok).

Definition writeError (err : go_error) : HM unit :=
  let llmErr := match type_assert err with Some e => e | None => NewInternalError "" "" "internal server error" end in
  let+ _ := hmodify (fun g => g<|gw_writer ::= WriteHeader (HTTPStatusCode llmErr)|>) in
  let+ _ := write (OJson (JError llmErr.(Message) llmErr.(EType))) in
  hret tt.

Definition writeJSON (j : json_body) : HM unit := let+ _ := write (OJson j) in hret tt.

(** One event of a stream; [false] when the connection is broken. *)
Definition write_event (data : string) : HM bool :=
  let+ ok := write (OText "data: ") in
  if negb ok then hret false
  else
    let+ ok := write (OText data) in
    if negb ok then hret false else write (OText (newline +:+ newline)).

Definition done_marker : string := "data: [DONE]" +:+ newline +:+ newline.

(** ** Observation *)

Definition observe (ev : obs_event) : HM unit :=
  hmodify (fun g => g<|gw_obs ::= fmap (fun o => (o.1, o.2 ++ [ev]))|>).

(** [startSpan] names the provider when spans are traced. *)
Definition startSpan (p : StandardLoggingPayload) : HM StandardLoggingPayload :=
  let+ obs := hgets gw_obs in
  hret (match obs with
        | Some (true, _) => if String.eqb p.(pl_APIProvider) "" then p<|pl_APIProvider := "llmux"|> else p
        | _ => p
        end).

Definition observePost (p : StandardLoggingPayload) (err : option go_error) : HM unit :=
  let+ obs := hgets gw_obs in
  match obs with
  | None => hret tt
  | Some _ =>
      let+ t := clock in
      let p := end_payload t err p in
      let+ _ := observe (ObsPost p) in
      match err with
      | Some err => observe (ObsFailure p err)
      | None => observe (ObsSuccess p)
      end
  end.

(** ** Governance *)

Definition handler_store (g : gateway) : option St :=
  match g.(gw_governance) with Some e => e.(e_store) | None => g.(gw_store) end.

(** The check of the models before the engine is asked; [None] lets it through. *)
Definition model_allowed (g : gateway) (a : option AuthContext) (model : string) : option go_error :=
  match a, handler_store g with
  | Some _, Some _ =>
      if String.eqb model "" then None
      else match NewModelAccess (handler_store g) a with
      | inl _ => Some (ELLM (NewInternalError "gateway" model "failed to evaluate model access"))
      | inr None => None
      | inr access =>
          let canonicalModel := (SplitProviderModel model).2 in
          let allows := Allows access model
                        || (negb (String.eqb canonicalModel "") && negb (String.eqb canonicalModel model) && Allows access canonicalModel) in
          if allows then None else Some (ELLM (NewPermissionError "gateway" model "model access denied"))
      end
  | _, _ => None
  end.

Definition evaluateGovernance (r : request) (model endUser : string) (tags : list string) (callType : string) : HM (option go_error) :=
  let+ denied := hgets (fun g => model_allowed g r.(hq_ctx).(c_auth) model) in
  match denied with
  | Some err => hret (Some err)
  | None =>
      let+ gov := hgets gw_governance in
      match gov with
      | None => hret None
      | Some e =>
          let+ t := clock in
          let '(e, err) := Evaluate t e r.(hq_ctx).(c_auth)
            {| i_Request := Some r.(hq_http); i_Model := model; i_CallType := callType; i_EndUserID := endUser; i_Tags := tags |} in
          let+ _ := hmodify (fun g => g<|gw_governance := Some e|>) in
          hret (ELLM <$> err)
      end
  end.

(** The usage log without an engine. *)
Definition handler_log (t : time) (a : option AuthContext) (input : AccountInput) : UsageLog :=
  let key := a ≫= a_APIKey in
  {| l_ID := 0; l_RequestID := input.(c_RequestID); l_APIKeyID := default "" (k_ID <$> key); l_TeamID := key ≫= k_TeamID;
     l_OrganizationID := key ≫= k_OrganizationID; l_UserID := key ≫= k_UserID;
     l_EndUserID := stringPtr input.(c_EndUserID); l_Model := input.(c_Model); l_ModelGroup := None;
     l_Provider := providerLabel input.(c_Usage).(g_Provider); l_CallType := input.(c_CallType);
     l_InputTokens := input.(c_Usage).(g_PromptTokens); l_OutputTokens := input.(c_Usage).(g_CompletionTokens);
     l_TotalTokens := input.(c_Usage).(g_TotalTokens); l_Cost := input.(c_Usage).(g_Cost);
     l_LatencyMs := milliseconds input.(c_Latency); l_StatusCode := input.(c_StatusCode); l_Status := input.(c_Status);
     l_CacheHit := None; l_RequestTags := input.(c_RequestTags); l_Metadata := None; l_StartTime := input.(c_Start);
     l_EndTime := t |}.

Definition accountUsage (ctx : Ctx) (input : AccountInput) : HM unit :=
  let a := ctx.(c_auth) in
  let+ gov := hgets gw_governance in
  match gov with
  | Some e =>
      let+ t1 := clock in
      let+ t2 := clock in
      let+ t3 := clock in
      hmodify (fun g => g<|gw_governance := Some (Account t1 t2 t3 e a input)|>)
  | None =>
      let+ store := hgets gw_store in
      match store with
      | None => hret tt
      | Some s =>
          let+ t := clock in
          let log := handler_log t a input in
          let s := (LogUsage log s).1 in
          let s := match a ≫= a_APIKey with
                   | Some k =>
                       if fzero <.? log.(l_Cost) then
                         let s := (UpdateAPIKeySpent k.(k_ID) log.(l_Cost) s).1 in
                         match k.(k_TeamID) with Some team => (UpdateTeamSpent team log.(l_Cost) s).1 | None => s end
                       else s
                   | None => s
                   end in
          hmodify (fun g => g<|gw_store := Some s|>)
      end
  end.

Definition account_input (requestID model callType endUser : string) (tags : list string) (u : ClientTypes.Usage) (cost : f64)
  (start : time) (latency : duration) : AccountInput :=
  {| c_RequestID := requestID; c_Model := model; c_CallType := callType; c_EndUserID := endUser; c_RequestTags := tags;
     c_Usage := {| g_PromptTokens := u.(us_PromptTokens); g_CompletionTokens := u.(us_CompletionTokens);
                   g_TotalTokens := u.(us_TotalTokens); g_Cost := cost; g_Provider := u.(us_Provider) |};
     c_Start := start; c_Latency := latency; c_StatusCode := None; c_Status := None |}.

Definition costOf (model : string) (u : ClientTypes.Usage) : HM f64 := on_client (gets (fun c => CalculateCost c model (Some u))).

(** ** Requests *)

Definition invalid (model msg : string) : go_error := ELLM (NewInvalidRequestError "" model msg).

(** [io.ReadAll] of a reader limited to a byte more than the maximum. *)
Definition read_body (maxBodySize : Z) (b : Body) : go_error + string :=
  if maxBodySize <? Z.of_nat (String.length b.(body_bytes)) then inl (invalid "" "request body too large")
  else match b.(body_error) with
       | Some _ => inl (invalid "" "failed to read request body")
       | None => inr b.(body_bytes)
       end.

Definition invalid_json (err : go_error) : go_error := invalid "" ("invalid JSON: " +:+ error_text err).

(** The checks that all requests for a model share. *)
Definition check_model (model : string) : option go_error :=
  if String.eqb model "" then Some (invalid "" "model is required")
  else if negb (ValidateModelName model) then Some (invalid "" (error_text model_too_long))
  else None.

Definition parse_chat (maxBodySize : Z) (b : Body) : go_error + ChatRequest :=
  match read_body maxBodySize b with
  | inl err => inl err
  | inr body =>
      match ChatRequest_UnmarshalJSON body with
      | inl err => inl (invalid_json err)
      | inr req =>
          match check_model req.(q_Model), req.(q_Messages) with
          | Some err, _ => inl err
          | None, [] => inl (invalid req.(q_Model) "messages is required")
          | None, _ => inr req
          end
      end
  end.

(** A failure of the client as the caller sees it. *)
Definition upstream_error (model : string) (err : go_error) : go_error :=
  match type_assert err with
  | Some _ => err
  | None => ELLM (NewServiceUnavailableError "" model "upstream request failed")
  end.

(** The handler borrows the client until it is done. *)
Definition with_client (m : bool -> HM unit) : HM unit :=
  let+ present := hgets gw_client in
  let+ _ := hmodify (fun g => g<|gw_refs ::= fun n => n + 1|>) in
  finally (m present) (fun g => g<|gw_refs ::= fun n => n - 1|>).

(** ** Tools in a loop *)

Definition inject (ctx : Ctx) (req : ChatRequest) : HM ChatRequest :=
  fun g => match g.(gw_mcp), InjectTools with
           | Some m, Some f => let '(m, req) := f ctx req m in (g<|gw_mcp := Some m|>, Val req)
           | _, _ => (g, Val req)
           end.

Definition execute_tools (ctx : Ctx) (calls : list ToolCall) : HM (list ToolExecutionResult) :=
  fun g => match g.(gw_mcp) with
           | Some m => let '(m, rs) := ExecuteToolCalls ctx calls m in (g<|gw_mcp := Some m|>, Val rs)
           | None => (g, Val [])
           end.

(** The iterations of [AgentExecutor.Execute]: the request with the conversation so
    far, and the last response.  The debug message at the end reads the first choice. *)
Fixpoint agent_loop (iterations : nat) (ctx : Ctx) (req : ChatRequest) : HM (ChatRequest * result ChatResponse) :=
  match iterations with
  | O => hret (req, fail (EText ("exceeded maximum tool iterations (" +:+ pretty MaxToolIterations +:+ ")")))
  | S iterations' =>
      let+ sent := on_client (ChatCompletion ctx (Some req)) in
      match sent with
      | (_, Some err) => hret (req, fail (EWrap "LLM request failed" err))
      | (resp, None) =>
          if HasToolCalls resp then
            match resp ≫= (fun r => head r.(p_Choices)) with
            | None => hpanic
            | Some choice =>
                let+ results := execute_tools ctx choice.(ch_Message).(m_ToolCalls) in
                agent_loop iterations' ctx (AppendToolResults req choice.(ch_Message) results)
            end
          else match resp with
               | Some r => match r.(p_Choices) with [] => hpanic | _ => hret (req, success r) end
               | None => hpanic
               end
      end
  end.

Definition Execute (ctx : Ctx) (req : ChatRequest) : HM (ChatRequest * result ChatResponse) :=
  let+ req := inject ctx req in
  agent_loop MaxToolIterations ctx req.

(** A completion, with the tools when there is a manager. *)
Definition send_chat (ctx : Ctx) (req : ChatRequest) : HM (ChatRequest * result ChatResponse) :=
  let+ manager := hgets gw_mcp in
  match manager with
  | Some _ => Execute ctx req
  | None => let+ res := on_client (ChatCompletion ctx (Some req)) in hret (req, res)
  end.

(** ** Usage and cost *)

Definition estimated_usage (promptTokens completionTokens : Z) : ClientTypes.Usage :=
  {| us_PromptTokens := promptTokens; us_CompletionTokens := completionTokens;
     us_TotalTokens := promptTokens +! completionTokens; us_Provider := "" |}.

(** The usage of a response, when it reports one. *)
Definition reported_usage (u : option ClientTypes.Usage) (estimate : ClientTypes.Usage) : ClientTypes.Usage :=
  match u with
  | Some u => if u.(us_TotalTokens) =? 0 then estimate else u
  | None => estimate
  end.

Definition chat_usage (req : ChatRequest) (resp : ChatResponse) : ClientTypes.Usage :=
  reported_usage resp.(p_Usage)
    (estimated_usage (EstimatePromptTokens req.(q_Model) (Some req)) (EstimateCompletionTokens req.(q_Model) resp "")).

(** That of a stream is estimated only when none came. *)
Definition stream_usage (req : ChatRequest) (u : option ClientTypes.Usage) (content : string) : ClientTypes.Usage :=
  match u with
  | Some u => u
  | None => estimated_usage (EstimatePromptTokens req.(q_Model) (Some req)) (EstimateCompletionTokensFromText req.(q_Model) content)
  end.

(** Latency, cost and accounting of an answer; the cost is returned. *)
Definition bill (ctx : Ctx) (requestID model callType endUser : string) (tags : list string) (u : ClientTypes.Usage) (start : time)
  (latency : duration) : HM f64 :=
  let+ cost := costOf model u in
  let+ _ := accountUsage ctx (account_input requestID model callType endUser tags u cost start latency) in
  hret cost.

Definition since (start : time) : HM duration := let+ t := clock in hret (time_sub t start).

Definition bill_payload (u : ClientTypes.Usage) (cost : f64) (p : StandardLoggingPayload) : StandardLoggingPayload :=
  p<|pl_PromptTokens := u.(us_PromptTokens)|><|pl_CompletionTokens := u.(us_CompletionTokens)|>
   <|pl_TotalTokens := u.(us_TotalTokens)|><|pl_ResponseCost := cost|>
   <|pl_APIProvider := or_else (or_else u.(us_Provider) p.(pl_APIProvider)) "llmux"|>.

Definition bill_embedding (u : ClientTypes.Usage) (cost : f64) (p : StandardLoggingPayload) : StandardLoggingPayload :=
  p<|pl_PromptTokens := u.(us_PromptTokens)|><|pl_TotalTokens := u.(us_TotalTokens)|><|pl_ResponseCost := cost|>
   <|pl_APIProvider := or_else (or_else u.(us_Provider) p.(pl_APIProvider)) "llmux"|>.

(** ** Answers in one piece *)

Definition observe_error (payload : StandardLoggingPayload) (err : go_error) (shown : go_error) : HM unit :=
  let+ _ := observePost payload (Some err) in
  writeError shown.

(** What the responses API shows of an error that is not typed. *)
Definition response_error (model : string) (err : go_error) : go_error :=
  match type_assert err with
  | Some _ => err
  | None => ELLM (NewServiceUnavailableError "" model (error_text err))
  end.

(** The answer to a chat request, and the one of the responses API. *)
Definition complete_chat (show : string -> go_error -> go_error) (respond : ChatResponse -> json_body * logged_response)
  (ctx : Ctx) (req : ChatRequest) (start : time) (requestID : string) (payload : StandardLoggingPayload) : HM unit :=
  let+ (req, sent) := send_chat ctx req in
  match sent with
  | (_, Some err) => observe_error payload err (show req.(q_Model) err)
  | (None, None) => hpanic
  | (Some resp, None) =>
      let+ latency := since start in
      let usage := chat_usage req resp in
      let resp := resp<|p_Usage := Some usage|> in
      let modelName := or_else resp.(p_Model) req.(q_Model) in
      let+ cost := bill ctx requestID modelName CallTypeChatCompletion req.(q_User) req.(q_Tags) usage start latency in
      let '(body, logged) := respond resp in
      let payload := (bill_payload usage cost payload)<|pl_Model ::= or_else resp.(p_Model)|><|pl_ID := resp.(p_ID)|>
                       <|pl_Response := logged|> in
      let+ _ := observePost payload None in
      writeJSON body
  end.

(** ** Streams *)

Inductive stream_end := AtEOF | Broken (err : go_error) | Unwritten.

(** What a handler remembers of the chunks. *)
Record received := {
  rx_usage : option ClientTypes.Usage;
  rx_content : string;
  rx_id : string;
  rx_model : string;
  rx_created : Z;
}.

Definition nothing_received : received :=
  {| rx_usage := None; rx_content := ""; rx_id := ""; rx_model := ""; rx_created := 0 |}.

Definition is_EOF (err : go_error) : bool := match err with EText s => String.eqb s "EOF" | _ => false end.

Definition first_delta (chunk : StreamChunk) : string :=
  match chunk.(k_Choices) with choice :: _ => choice.(sc_Delta).(dl_Content) | [] => "" end.

Definition note_received (chunk : StreamChunk) (rx : received) : received :=
  rx<|rx_usage ::= fun u => match chunk.(k_Usage) with Some u' => Some u' | None => u end|>
    <|rx_content ::= fun s => s +:+ first_delta chunk|>.

(** The loop over the chunks: [deliver] writes one, and says whether to go on. *)
Fixpoint forward (fuel : nat) (deliver : StreamChunk -> HM bool) (note : StreamChunk -> received -> received) (s : reader)
  (rx : received) : HM (reader * received * stream_end) :=
  match fuel with
  | O => fun g => (g, NoFuel)
  | S fuel' =>
      let+ (s, got) := on_client (Recv s) in
      match got with
      | (_, Some err) => hret (s, rx, if is_EOF err then AtEOF else Broken err)
      | (None, None) => hpanic
      | (Some chunk, None) =>
          let+ ok := deliver chunk in
          if ok then forward fuel' deliver note s (note chunk rx) else hret (s, note chunk rx, Unwritten)
      end
  end.

(** A chunk that cannot be encoded is left out. *)
Definition send_encoded (encoded : go_error + string) : HM bool :=
  match encoded with
  | inl _ => hret true
  | inr data => write_event data
  end.

Definition deliver_chat (payload : StandardLoggingPayload) (chunk : StreamChunk) : HM bool :=
  let+ _ := observe (ObsStream payload chunk) in
  send_encoded (marshal_chunk chunk).

Definition deliver_completion (chunk : StreamChunk) : HM bool :=
  send_encoded (marshal_completion_chunk (CompletionStreamChunkFromChat chunk)).

Definition close_stream (s : reader) : HM unit := let+ _ := on_client (stream_Close s) in hret tt.

Definition streamErr (e : stream_end) : option go_error :=
  match e with AtEOF => None | Broken err => Some err | Unwritten => Some write_error end.

Definition mark_done (e : stream_end) : HM unit :=
  match e with AtEOF => let+ _ := write (OText done_marker) in hret tt | _ => hret tt end.

(** A stream that was opened, on a connection that can be flushed.  The stream is
    closed after a run that returns; what a panic of the reader leaves is not said. *)
Definition with_stream (failed : go_error -> HM unit) (ctx : Ctx) (req : ChatRequest) (body : reader -> HM reader) : HM unit :=
  let+ opened := on_client (ChatCompletionStream ctx (Some req)) in
  match opened with
  | (_, Some err) => failed err
  | (None, None) => hpanic
  | (Some s, None) =>
      let+ w := hgets gw_writer in
      if negb w.(wr_flusher) then
        let+ _ := writeError (ELLM (NewInternalError "" req.(q_Model) "streaming not supported")) in
        close_stream s
      else
        let+ s := body s in
        close_stream s
  end.

(** Latency, usage and accounting at the end of a stream. *)
Definition bill_stream (ctx : Ctx) (req : ChatRequest) (callType : string) (tags : list string) (start : time) (requestID : string)
  (rx : received) : HM (ClientTypes.Usage * f64) :=
  let+ latency := since start in
  let usage := stream_usage req rx.(rx_usage) rx.(rx_content) in
  let+ cost := bill ctx requestID req.(q_Model) callType req.(q_User) tags usage start latency in
  hret (usage, cost).

Definition handleStreamResponse (fuel : nat) (ctx : Ctx) (req : ChatRequest) (start : time) (requestID : string)
  (payload : StandardLoggingPayload) : HM unit :=
  with_stream (fun err => observe_error payload err (upstream_error req.(q_Model) err)) ctx req (fun s =>
    let+ (s, rx, e) := forward fuel (deliver_chat payload) note_received s nothing_received in
    let+ _ := mark_done e in
    let+ (usage, cost) := bill_stream ctx req CallTypeChatCompletion req.(q_Tags) start requestID rx in
    let+ _ := observePost ((bill_payload usage cost payload)<|pl_Response := LText rx.(rx_content)|>) (streamErr e) in
    hret s).

Definition handleCompletionStreamResponse (fuel : nat) (ctx : Ctx) (req : ChatRequest) (start : time) (requestID : string) : HM unit :=
  with_stream (fun err => writeError (upstream_error req.(q_Model) err)) ctx req (fun s =>
    let+ (s, rx, e) := forward fuel deliver_completion note_received s nothing_received in
    let+ _ := mark_done e in
    let+ _ := bill_stream ctx req CallTypeCompletion [] start requestID rx in
    hret s).

(** ** The stream of the responses API *)

Definition writeResponseEvent (event : ResponseStreamChunk) : HM unit := let+ _ := send_encoded (marshal_event event) in hret tt.

(** Only text is forwarded, and a broken connection does not stop the loop. *)
Definition deliver_response (payload : StandardLoggingPayload) (chunk : StreamChunk) : HM bool :=
  let+ _ := observe (ObsStream payload chunk) in
  let delta := first_delta chunk in
  let+ _ := (if String.eqb delta "" then hret tt
             else writeResponseEvent {| rs_Type := "response.output_text.delta"; rs_Delta := delta; rs_Response := None |}) in
  hret true.

(** The first chunk with an identifier gives the response its own. *)
Definition note_response (chunk : StreamChunk) (rx : received) : received :=
  let rx := note_received chunk rx in
  if String.eqb rx.(rx_id) "" && negb (String.eqb chunk.(k_ChunkID) "")
  then rx<|rx_id := chunk.(k_ChunkID)|><|rx_model := chunk.(k_Model)|><|rx_created := chunk.(k_Created)|>
  else rx.

Definition responseFromStream (fallbackModel : string) (rx : received) (usage : ClientTypes.Usage) : HM ResponseResponse :=
  let+ created := (if rx.(rx_created) =? 0 then let+ t := clock in hret (unix t) else hret rx.(rx_created)) in
  let content := match write_string rx.(rx_content) with inr s => s | inl _ => "" end in
  hret (ResponseResponseFromChat
    {| p_ID := or_else rx.(rx_id) "resp-stream"; p_Object := "chat.completion"; p_Created := created;
       p_Model := or_else rx.(rx_model) fallbackModel;
       p_Choices := [{| ch_Index := 0; ch_Message := {| m_Role := "assistant"; m_Content := content; m_Name := ""; m_ToolCalls := [];
                                                        m_ToolCallID := "" |};
                        ch_FinishReason := "stop"; ch_Logprobs := None |}];
       p_Usage := Some usage; p_SystemFingerprint := "" |}).

Definition complete_response (model : string) (rx : received) (usage : ClientTypes.Usage) (e : stream_end) : HM unit :=
  match e with
  | AtEOF =>
      let+ response := responseFromStream model rx usage in
      let+ _ := writeResponseEvent {| rs_Type := "response.completed"; rs_Delta := ""; rs_Response := Some response |} in
      let+ _ := write (OText done_marker) in
      hret tt
  | _ => hret tt
  end.

Definition handleResponseStream (fuel : nat) (ctx : Ctx) (req : ChatRequest) (start : time) (requestID : string)
  (payload : StandardLoggingPayload) : HM unit :=
  with_stream (fun err => observe_error payload err (response_error req.(q_Model) err)) ctx req (fun s =>
    let+ (s, rx, e) := forward fuel (deliver_response payload) note_response s nothing_received in
    let+ (usage, cost) := bill_stream ctx req CallTypeChatCompletion req.(q_Tags) start requestID rx in
    let+ _ := complete_response req.(q_Model) rx usage e in
    let+ _ := observePost ((bill_payload usage cost payload)<|pl_Response := LText rx.(rx_content)|>) (streamErr e) in
    hret s).

(** ** Chat *)

(** The part the chat and the responses API share: observation, governance, the
    client, then a stream or an answer.  The tool manager is the handler's or the
    one in the context. *)
Definition serve_chat (stream answer : Ctx -> ChatRequest -> time -> string -> StandardLoggingPayload -> HM unit) (r : request)
  (req : ChatRequest) (start : time) (requestID : string) (payload : StandardLoggingPayload) : HM unit :=
  let ctx := r.(hq_ctx) in
  let+ payload := startSpan payload in
  let+ _ := observe (ObsPre payload) in
  let+ refused := evaluateGovernance r req.(q_Model) req.(q_User) req.(q_Tags) CallTypeChatCompletion in
  match refused with
  | Some err => observe_error payload err err
  | None =>
      with_client (fun present =>
        if negb present then
          let err := ELLM (NewInternalError "" req.(q_Model) "client not initialized") in
          observe_error payload err err
        else if req.(q_Stream) then
          let+ req := inject ctx req in
          stream ctx req start requestID payload
        else answer ctx req start requestID payload)
  end.

Definition ChatCompletions (fuel : nat) (r : request) : HM unit :=
  let+ start := clock in
  let '(r, requestID) := ensureRequestID r in
  let+ maxBodySize := hgets gw_maxBodySize in
  match parse_chat maxBodySize r.(hq_body) with
  | inl err => writeError err
  | inr req =>
      let payload := buildChatObservabilityPayload r req start requestID in
      serve_chat (handleStreamResponse fuel) (complete_chat upstream_error (fun resp => (JChat resp, LChatResponse resp)))
        r req start requestID payload
  end.

(** ** Responses *)

Definition parse_response (maxBodySize : Z) (b : Body) : go_error + ChatRequest :=
  match read_body maxBodySize b with
  | inl err => inl err
  | inr body =>
      match ResponseRequest_UnmarshalJSON read_response body with
      | inl err => inl (invalid_json err)
      | inr req =>
          match check_model req.(rr_Model), ResponseRequest_ToChatRequest req with
          | Some err, _ => inl err
          | None, inl err => inl (invalid req.(rr_Model) (error_text err))
          | None, inr chatReq =>
              match chatReq.(q_Messages) with
              | [] => inl (invalid req.(rr_Model) "input is required")
              | _ => inr chatReq
              end
          end
      end
  end.

Definition CallTypeResponse := "response".

Definition Responses (fuel : nat) (r : request) : HM unit :=
  let+ start := clock in
  let '(r, requestID) := ensureRequestID r in
  let+ maxBodySize := hgets gw_maxBodySize in
  match parse_response maxBodySize r.(hq_body) with
  | inl err => writeError err
  | inr req =>
      let payload := (buildChatObservabilityPayload r req start requestID)<|pl_CallType := CallTypeResponse|> in
      serve_chat (handleResponseStream fuel)
        (complete_chat response_error (fun resp => let response := ResponseResponseFromChat resp in (JResponse response, LResponse response)))
        r req start requestID payload
  end.

(** ** Completions *)

Definition parse_completion (maxBodySize : Z) (b : Body) : go_error + (CompletionRequest * ChatRequest) :=
  match read_body maxBodySize b with
  | inl err => inl err
  | inr body =>
      match read_completion body with
      | inl err => inl (invalid_json err)
      | inr req =>
          match CompletionRequest_Validate req, CompletionRequest_ToChatRequest req with
          | Some err, _ | None, inl err => inl (invalid req.(cr_Model) (error_text err))
          | None, inr chatReq => inr (req, chatReq)
          end
      end
  end.

Definition completion_usage (req : ChatRequest) (resp : CompletionResponse) : ClientTypes.Usage :=
  reported_usage resp.(co_Usage)
    (estimated_usage (EstimatePromptTokens req.(q_Model) (Some req))
       (EstimateCompletionTokensFromText req.(q_Model) (firstCompletionText resp))).

Definition Completions (fuel : nat) (r : request) : HM unit :=
  let+ start := clock in
  let '(r, requestID) := ensureRequestID r in
  let ctx := r.(hq_ctx) in
  with_client (fun present =>
    if negb present then writeError (ELLM (NewInternalError "" "" "client not initialized"))
    else
      let+ maxBodySize := hgets gw_maxBodySize in
      match parse_completion maxBodySize r.(hq_body) with
      | inl err => writeError err
      | inr (req, chatReq) =>
          let+ refused := evaluateGovernance r chatReq.(q_Model) req.(cr_User) [] CallTypeCompletion in
          match refused with
          | Some err => writeError err
          | None =>
              if chatReq.(q_Stream) then handleCompletionStreamResponse fuel ctx chatReq start requestID
              else
                let+ sent := on_client (ChatCompletion ctx (Some chatReq)) in
                match sent with
                | (_, Some err) => writeError (upstream_error req.(cr_Model) err)
                | (None, None) => hpanic
                | (Some resp, None) =>
                    let+ latency := since start in
                    let resp := CompletionResponseFromChat resp in
                    let usage := completion_usage chatReq resp in
                    let+ _ := bill ctx requestID req.(cr_Model) CallTypeCompletion req.(cr_User) [] usage start latency in
                    writeJSON (JCompletion (resp<|co_Usage := Some usage|>))
                end
          end
      end).

(** ** Embeddings *)

Definition parse_embedding (maxBodySize : Z) (b : Body) : go_error + EmbeddingRequest :=
  match read_body maxBodySize b with
  | inl err => inl err
  | inr body =>
      match read_embedding body with
      | inl err => inl (invalid_json err)
      | inr req =>
          match check_model req.(er_Model), req.(er_Input) with
          | Some err, _ => inl err
          | None, None => inl (invalid req.(er_Model) "input is required")
          | None, Some input =>
              if EmbeddingInput_IsEmpty input then inl (invalid req.(er_Model) "input is required")
              else match EmbeddingInput_Validate input with
                   | Some err => inl (invalid req.(er_Model) (error_text err))
                   | None => inr req
                   end
          end
      end
  end.

(** The usage that is priced names no provider, the one that is logged does. *)
Definition embedding_usage (u : ClientTypes.Usage) : ClientTypes.Usage := u<|us_CompletionTokens := 0|>.

Definition embed (ctx : Ctx) (req : EmbeddingRequest) (start : time) (requestID : string) (payload : StandardLoggingPayload) : HM unit :=
  let+ sent := on_client (Embedding ctx (Some req)) in
  match sent with
  | (_, Some err) => observe_error payload err (upstream_error req.(er_Model) err)
  | (None, None) => hpanic
  | (Some resp, None) =>
      let+ latency := since start in
      let modelName := or_else resp.(ep_Model) req.(er_Model) in
      let usage := embedding_usage resp.(ep_Usage) in
      let+ cost := costOf modelName (usage<|us_Provider := ""|>) in
      let+ _ := accountUsage ctx (account_input requestID modelName CallTypeEmbedding req.(er_User) [] usage cost start latency) in
      let payload := (bill_embedding usage cost payload)<|pl_Model ::= or_else resp.(ep_Model)|><|pl_Response := LEmbedding resp|> in
      let+ _ := observePost payload None in
      writeJSON (JEmbedding resp)
  end.

Definition Embeddings (r : request) : HM unit :=
  let+ start := clock in
  let '(r, requestID) := ensureRequestID r in
  let+ maxBodySize := hgets gw_maxBodySize in
  match parse_embedding maxBodySize r.(hq_body) with
  | inl err => writeError err
  | inr req =>
      let+ payload := startSpan (buildEmbeddingObservabilityPayload r req start requestID) in
      let+ _ := observe (ObsPre payload) in
      let+ refused := evaluateGovernance r req.(er_Model) req.(er_User) [] CallTypeEmbedding in
      match refused with
      | Some err => observe_error payload err err
      | None =>
          with_client (fun present =>
            if negb present then
              let err := ELLM (NewInternalError "" req.(er_Model) "client not initialized") in
              observe_error payload err err
            else embed r.(hq_ctx) req start requestID payload)
      end
  end.

(** ** Models and health *)

(** The models that the caller may use; without a storage, the owner and the
    organization of the key are not looked up. *)
Definition visible_models (g : gateway) (a : option AuthContext) (models : list (string * string)) : go_error + list (string * string) :=
  match a with
  | None => inr models
  | Some _ =>
      match NewModelAccess (handler_store g) a with
      | inl _ => inl (ELLM (NewInternalError "" "" "failed to evaluate model access"))
      | inr None => inr models
      | inr access => inr (keep (fun m => Allows access m.1) models)
      end
  end.

Definition ListModels (r : request) : HM unit :=
  with_client (fun present =>
    if negb present then writeError (ELLM (NewInternalError "" "" "client not initialized"))
    else
      let+ models := on_client (gets Client.ListModels) in
      let+ visible := hgets (fun g => visible_models g r.(hq_ctx).(c_auth) models) in
      match visible with
      | inl err => writeError err
      | inr models => writeJSON (JModels models)
      end).

Definition HealthCheck : HM unit :=
  let+ _ := hmodify (fun g => g<|gw_writer ::= WriteHeader 200|>) in
  writeJSON (JStatus "ok").
End Gateway.

Notation "'let+' x := m 'in' k" := (hbind m (fun x => k)) (at level 10, x pattern, m at level 100, k at level 200).
