(* ===== verification/GatewayTheorems.v ===== *)
(** * Reasoning about the handlers of the gateway

    A weakest precondition for handlers, which excludes panics and lack of fuel;
    the steps that only read the clock and call back; and what governance,
    accounting and writing change. *)
From S2P Require Import Prelude Float64 Errors ModelName RouterTypes BaseRouter Strategies RedisLimiter AuthTypes AuthStore ModelAccess TenantLimiter RedisCache Governance PluginPipeline ClientTypes Client ClientProofs ClientTheorems Stream ApiTypes ApiPayload Gateway.

Create HintDb quiet discriminated.
Create Rewrite HintDb books.

Section Logic.
Context {Env Http RT P L C St IP Net T GL Enf I MCP : Type}.
Context `{!Network Env Http} `{!RouterI RT} `{!DistributedLimiter L} `{!CacheI C} `{!Tokenizer} `{!Codec} `{!Json} `{!ApiJson}.
Context `{!AuthStore St} `{!NetLib IP Net} `{!RateLimiter T} `{!DistributedLimiter GL} `{!CasbinEngine Enf} `{!IdempotencyStore I}.
Context `{!ToolManager MCP}.

#[local] Abbreviation gateway := (@gateway Env Http RT P L C St Net T GL Enf I MCP).
#[local] Abbreviation HM := (@HM Env Http RT P L C St Net T GL Enf I MCP).
Implicit Types g : gateway.

Definition hwp {A : Type} (m : HM A) (Q : A -> gateway -> Prop) g : Prop :=
  match m g with (g', Val a) => Q a g' | _ => False end.

Lemma hwp_run {A} (m : HM A) Q g : hwp m Q g -> exists g' a, m g = (g', Val a) /\ Q a g'.
Proof. unfold hwp. destruct (m g) as [g' [a| |]]; [eauto|done|done]. Qed.

Lemma hwp_ret {A} (a : A) (Q : A -> gateway -> Prop) g : Q a g -> hwp (hret a) Q g.
Proof. done. Qed.

Lemma hwp_bind {A B} (m : HM A) (k : A -> HM B) Q g : hwp m (fun a => hwp (k a) Q) g -> hwp (hbind m k) Q g.
Proof. unfold hwp, hbind. by destruct (m g) as [g' [a| |]]. Qed.

Lemma hwp_mono {A} (m : HM A) (Q Q' : A -> gateway -> Prop) g : hwp m Q g -> (forall a g', Q a g' -> Q' a g') -> hwp m Q' g.
Proof. unfold hwp. destruct (m g) as [g' [a| |]]; [eauto|done|done]. Qed.

Lemma hwp_gets {A} (f : gateway -> A) (Q : A -> gateway -> Prop) g : Q (f g) g -> hwp (hgets f) Q g.
Proof. done. Qed.

Lemma hwp_modify f (Q : unit -> gateway -> Prop) g : Q tt (f g) -> hwp (hmodify f) Q g.
Proof. done. Qed.

Lemma hwp_on_client {A} m (Q : A -> gateway -> Prop) g :
  wp m (fun a w => Q a (g<|gw_world := w|>)) g.(gw_world) -> hwp (on_client m) Q g.
Proof. unfold hwp, wp, on_client. by destruct (m _) as [w [a|]]. Qed.

Lemma hwp_finally {A} (m : HM A) after (Q : A -> gateway -> Prop) g : hwp m (fun a g' => Q a (after g')) g -> hwp (finally m after) Q g.
Proof. unfold hwp, finally. by destruct (m g) as [g' [a| |]]. Qed.

(** ** Steps that read the clock and call back *)

Definition touch (o : option (bool * list obs_event)) (e : Env) g : gateway :=
  g<|gw_obs := o|><|gw_world := g.(gw_world)<|w_env := e|>|>.

Definition quiet {A : Type} (m : HM A) : Prop := forall g, exists o e a, m g = (touch o e g, Val a).

Lemma hwp_quiet {A} (m : HM A) (Q : A -> gateway -> Prop) g : quiet m -> (forall o e a, Q a (touch o e g)) -> hwp m Q g.
Proof. intros Hm HQ. unfold hwp. destruct (Hm g) as (o & e & a & ->). apply HQ. Qed.

Lemma touch_same g : touch g.(gw_obs) g.(gw_world).(w_env) g = g.
Proof. destruct g as [w]. by destruct w. Qed.

Lemma quiet_ret {A} (a : A) : quiet (hret a).
Proof. intros g. exists g.(gw_obs), g.(gw_world).(w_env), a. by rewrite touch_same. Qed.

Lemma quiet_gets {A} (f : gateway -> A) : quiet (hgets f).
Proof. intros g. exists g.(gw_obs), g.(gw_world).(w_env), (f g). by rewrite touch_same. Qed.

Lemma quiet_bind {A B} (m : HM A) (k : A -> HM B) : quiet m -> (forall a, quiet (k a)) -> quiet (hbind m k).
Proof.
  intros Hm Hk g. unfold hbind. destruct (Hm g) as (o & e & a & ->). destruct (Hk a (touch o e g)) as (o' & e' & b & ->). by exists o', e', b.
Qed.

Lemma quiet_clock : quiet clock.
Proof.
  intros g. unfold clock, on_client, on_env. destruct (now _) as [e t] eqn:En. exists g.(gw_obs), e, t. by destruct g.
Qed.

Lemma quiet_observe ev : quiet (observe ev).
Proof. intros g. unfold observe, hmodify. destruct g as [w ? ? ? ? ? o]. exists ((fun o => (o.1, o.2 ++ [ev])) <$> o), w.(w_env), tt. by destruct w. Qed.

#[local] Hint Resolve quiet_ret quiet_gets quiet_bind quiet_clock quiet_observe : quiet.

Lemma quiet_startSpan p : quiet (startSpan p).
Proof. unfold startSpan. auto with quiet. Qed.

Lemma quiet_observePost p err : quiet (observePost p err).
Proof.
  unfold observePost. apply quiet_bind; [auto with quiet|]. intros [o|]; [|auto with quiet].
  apply quiet_bind; [auto with quiet|]. intros t. apply quiet_bind; [auto with quiet|]. intros []. destruct err; auto with quiet.
Qed.

Lemma quiet_since t : quiet (since t).
Proof. unfold since. auto with quiet. Qed.

(** ** The books: the engine and the storage *)

Definition books g := (g.(gw_governance), g.(gw_store)).

(** Governance gave its verdict on a request, with the books it left. *)
Definition evaluated (r : request) (model user : string) (tags : list string) (callType : string) (verdict : option go_error)
  g g' : Prop :=
  exists g0 g1, books g0 = books g /\ books g1 = books g' /\ evaluateGovernance r model user tags callType g0 = (g1, Val verdict).

(** The usage of an answer was accounted for. *)
Definition posted (ctx : Ctx) (input : AccountInput) g g' : Prop :=
  exists g0 g1, books g0 = books g /\ books g1 = books g' /\ accountUsage ctx input g0 = (g1, Val tt).

(** Only the books count. *)
Lemma evaluated_books r model user tags ct v g0 g1 g g' :
  books g = books g0 -> books g' = books g1 -> evaluated r model user tags ct v g0 g1 -> evaluated r model user tags ct v g g'.
Proof. intros E1 E2 (x & y & X & Y & Z). exists x, y. split_and!; congruence. Qed.

Lemma posted_books ctx input g0 g1 g g' : books g = books g0 -> books g' = books g1 -> posted ctx input g0 g1 -> posted ctx input g g'.
Proof. intros E1 E2 (x & y & X & Y & Z). exists x, y. split_and!; congruence. Qed.

(** [g] with other books, at another time. *)
Definition rebook (b : option (Engine St T Net GL Enf I) * option St) (e : Env) g : gateway :=
  g<|gw_governance := b.1|><|gw_store := b.2|><|gw_world := g.(gw_world)<|w_env := e|>|>.

Lemma books_touch o e g : books (touch o e g) = books g.
Proof. done. Qed.
Lemma books_rebook b e g : books (rebook b e g) = b.
Proof. by destruct b. Qed.
Lemma books_world w g : books (g<|gw_world := w|>) = books g.
Proof. done. Qed.
Lemma books_refs f g : books (g<|gw_refs ::= f|>) = books g.
Proof. done. Qed.
Lemma books_writer x g : books (g<|gw_writer := x|>) = books g.
Proof. done. Qed.

Lemma rebook_same g : rebook (books g) g.(gw_world).(w_env) g = g.
Proof. destruct g as [w]. by destruct w. Qed.

Lemma hwp_clock (Q : time -> gateway -> Prop) g : (forall t e, Q t (rebook (books g) e g)) -> hwp clock Q g.
Proof.
  intros HQ. unfold hwp, clock, on_client, on_env. destruct (now _) as [e t]. specialize (HQ t e). destruct g as [w]. by destruct w.
Qed.

Lemma hwp_evaluate r model user tags ct (Q : option go_error -> gateway -> Prop) g :
  (forall v b e, evaluated r model user tags ct v g (rebook b e g) -> Q v (rebook b e g)) ->
  hwp (evaluateGovernance r model user tags ct) Q g.
Proof.
  intros HQ. assert (R : hwp (evaluateGovernance r model user tags ct) (fun v g' => exists b e, g' = rebook b e g) g).
  { unfold evaluateGovernance. apply hwp_bind, hwp_gets. destruct (model_allowed _ _ _).
    { apply hwp_ret. exists (books g), g.(gw_world).(w_env). by rewrite rebook_same. }
    apply hwp_bind, hwp_gets. destruct (gw_governance g) as [en|] eqn:Eg.
    2: { apply hwp_ret. exists (books g), g.(gw_world).(w_env). by rewrite rebook_same. }
    apply hwp_bind, hwp_clock. intros t e. destruct (Evaluate _ _ _ _) as [en' err]. apply hwp_bind, hwp_modify, hwp_ret.
    exists (Some en', g.(gw_store)), e. by destruct g. }
  apply hwp_run in R as (g' & v & Ev & b & e & ->). unfold hwp. rewrite Ev. apply HQ. by exists g, (rebook b e g).
Qed.

Lemma hwp_account ctx input (Q : unit -> gateway -> Prop) g :
  (forall b e, posted ctx input g (rebook b e g) -> Q tt (rebook b e g)) -> hwp (accountUsage ctx input) Q g.
Proof.
  intros HQ. assert (R : hwp (accountUsage ctx input) (fun _ g' => exists b e, g' = rebook b e g) g).
  { unfold accountUsage. apply hwp_bind, hwp_gets. destruct (gw_governance g) as [en|] eqn:Eg.
    - do 3 (apply hwp_bind, hwp_clock; intros ? ?). apply hwp_modify. eexists (Some _, g.(gw_store)), _. destruct g as [w]. by destruct w.
    - apply hwp_bind, hwp_gets. destruct (gw_store g) as [s|] eqn:Es.
      + apply hwp_bind, hwp_clock. intros t e. apply hwp_modify. eexists (None, Some _), e. unfold rebook. cbn.
        destruct g as [w]. destruct w. cbn in *. subst. reflexivity.
      + apply hwp_ret. exists (books g), g.(gw_world).(w_env). by rewrite rebook_same. }
  apply hwp_run in R as (g' & v & Ev & b & e & ->). destruct v. unfold hwp. rewrite Ev. apply HQ. by exists g, (rebook b e g).
Qed.

(** ** Writing on a fresh connection that holds *)

Definition written (status : Z) (out : list output) (flusher : bool) : writer :=
  {| wr_status := Some status; wr_out := out; wr_flusher := flusher; wr_room := None |}.

(** What an error looks like to the caller. *)
Definition shown (err : go_error) : LLMError :=
  match type_assert err with Some e => e | None => NewInternalError "" "" "internal server error" end.
Definition error_written (err : go_error) (flusher : bool) : writer :=
  written (HTTPStatusCode (shown err)) [OJson (JError (shown err).(Message) (shown err).(EType))] flusher.

Lemma hwp_writeError err fl (Q : unit -> gateway -> Prop) g :
  g.(gw_writer) = new_writer fl None -> Q tt (g<|gw_writer := error_written err fl|>) -> hwp (writeError err) Q g.
Proof.
  intros Hw HQ. unfold writeError. apply hwp_bind, hwp_modify, hwp_bind. unfold hwp at 1, write. cbn. rewrite Hw. cbn. apply hwp_ret.
  unfold error_written, shown in HQ. by destruct g.
Qed.

Lemma hwp_writeJSON j fl (Q : unit -> gateway -> Prop) g :
  g.(gw_writer) = new_writer fl None -> Q tt (g<|gw_writer := written 200 [OJson j] fl|>) -> hwp (writeJSON j) Q g.
Proof. intros Hw HQ. unfold writeJSON. apply hwp_bind. unfold hwp at 1, write. cbn. rewrite Hw. cbn. apply hwp_ret. by destruct g. Qed.

Lemma hwp_observe_error p err err' fl (Q : unit -> gateway -> Prop) g :
  g.(gw_writer) = new_writer fl None -> (forall o e, Q tt ((touch o e g)<|gw_writer := error_written err' fl|>)) ->
  hwp (observe_error p err err') Q g.
Proof.
  intros Hw HQ. unfold observe_error. apply hwp_bind, hwp_quiet; [apply quiet_observePost|]. intros o e []. by apply (hwp_writeError _ fl).
Qed.

(** The handler gives the client back. *)
Lemma hwp_with_client m (Q : unit -> gateway -> Prop) g :
  hwp (m g.(gw_client)) (fun _ g' => Q tt (g'<|gw_refs ::= fun n => n - 1|>)) (g<|gw_refs ::= fun n => n + 1|>) -> hwp (with_client m) Q g.
Proof.
  intros Hm. unfold with_client. apply hwp_bind, hwp_gets, hwp_bind, hwp_modify, hwp_finally. eapply hwp_mono; [exact Hm|]. by intros [] g'.
Qed.

Lemma hwp_bill ctx id model ct user tags u start latency (Q : f64 -> gateway -> Prop) g :
  let cost := CalculateCost g.(gw_world).(w_client) model (Some u) in
  (forall b e, posted ctx (account_input id model ct user tags u cost start latency) g (rebook b e g) -> Q cost (rebook b e g)) ->
  hwp (bill ctx id model ct user tags u start latency) Q g.
Proof.
  intros cost HQ. unfold bill. apply hwp_bind. unfold costOf. apply hwp_on_client, wp_gets. fold cost.
  replace (g<|gw_world := g.(gw_world)|>) with g by by destruct g. apply hwp_bind, hwp_account. intros b e Hp. apply hwp_ret. by apply HQ.
Qed.
End Logic.

#[export] Hint Rewrite @books_touch @books_rebook @books_world @books_refs @books_writer : books.

(** The same books, through any number of other changes. *)
Ltac same_books := autorewrite with books; reflexivity.

#[export] Hint Resolve quiet_ret quiet_gets quiet_bind quiet_clock quiet_observe quiet_startSpan quiet_observePost quiet_since : quiet.

(** * What the gateway guarantees

    A request is refused, fails or is answered; only an answer is accounted for,
    once, with the usage it reports and the price of it. *)
From S2P Require Import Semaphore ResilienceManager ClientProofs ClientDemo ClientTheorems ClientBehaviour Stream ApiTypes ApiPayload Gateway.

#[local] Abbreviation result A := (option A * option go_error)%type.

(** A call that gives a value or an error, not neither. *)
Definition definite {A : Type} (res : result A) : Prop := (exists r, res = success r) \/ (exists e, res = fail e).

Lemma run_told_definite {A} n (res : result A) evs : run_told n res evs -> definite res.
Proof. unfold definite. induction 1; eauto. Qed.

Section Completion.
Context {E HttpRequest RT0 P L C : Type}.
Context `{!Network E HttpRequest} `{!RouterI RT0} `{!DistributedLimiter L} `{!CacheI C} `{!Tokenizer} `{!Codec}.
Context `{!RouterSafe RT0} `{!NetworkLaws E HttpRequest}.
#[local] Abbreviation world := (@world E HttpRequest (RT0 * list router_ev) P L C).
Implicit Types w : world.

(** A client in order, without plug-ins. *)
Definition client_ok w : Prop := world_ok w /\ w.(w_client).(cl_pipeline).(plugins) = [].

Lemma client_ok_setup w w' : setup w' = setup w -> sems_ok (manager w') -> client_ok w -> client_ok w'.
Proof. unfold client_ok, world_ok, providers_ok, setup. intros [= E1 E2 E3 E4 E5] Hm [(Hp & _ & Hr) Hn]. rewrite E1, E2, E4. done. Qed.

(** What a call of such a client gives and leaves. *)
Definition answers {A : Type} w (res : result A) w' : Prop := definite res /\ client_ok w' /\ setup w' = setup w.

Lemma answers_view {A} w w' (res : result A) : client_ok w -> definite res -> view w' = view w -> answers w res w'.
Proof.
  intros Hok Hd (Hs & Hm & _)%view_parts. split_and!; [done| |done]. apply (client_ok_setup w); [done| |done].
  rewrite Hm. apply Hok.
Qed.

Lemma after_provider_answers ctx pCtx req res w0 w :
  setup w = setup w0 -> client_ok w -> definite res ->
  wp (after_provider ctx pCtx req res) (fun out w' => answers w0 out.2 w') w.
Proof.
  intros Hs Hok Hd. unfold after_provider. apply wp_bind, wp_no_post_hooks; [apply Hok|]. wp_step. cbn [fst snd].
  apply wp_silent. { repeat case_match; try apply silent_ret. apply silent_storeInCache. }
  intros _ w1 V1. wp_step. destruct (answers_view w w1 res Hok Hd V1) as (H1 & H2 & H3). split_and!; [by destruct res|done|congruence].
Qed.

Lemma complete_answers ctx pCtx req w : client_ok w -> wp (complete ctx pCtx req) (fun out w' => answers w out.2 w') w.
Proof.
  intros Hok. unfold complete. apply wp_silent; [apply silent_rate_limited|]. intros [err|] w1 V1.
  { wp_step. apply answers_view; [done|right; eauto|done]. }
  apply wp_silent; [apply silent_cached_response|]. intros cached w2 V2. assert (V : view w2 = view w) by congruence.
  destruct (answers_view w w2 (fail (A:=ChatResponse) (EText "")) Hok ltac:(right; eauto) V) as (_ & Hok2 & Hs2).
  destruct cached as [resp|].
  - apply wp_silent; [apply silent_validatePricing|]. intros [err|] w3 V3.
    + wp_step. apply answers_view; [done|right; eauto|congruence].
    + destruct (answers_view w2 w3 (success resp) Hok2 ltac:(left; eauto) V3) as (Hd & Hok3 & Hs3).
      apply after_provider_answers; [congruence|done|done].
  - apply wp_bind. eapply wp_mono; [apply route_and_execute_post; apply Hok2|]. intros res w4 (Hs & Hm & _ & evs & _ & Hr).
    apply after_provider_answers; [congruence|by apply (client_ok_setup w2)|by eapply run_told_definite].
Qed.

Lemma ChatCompletion_answers ctx req w : client_ok w -> wp (ChatCompletion ctx (Some req)) (answers w) w.
Proof.
  intros Hok. destruct (validate_request (Some req)) as [err|q] eqn:Ev.
  { unfold ChatCompletion. rewrite Ev. wp_step. apply answers_view; [done|right; eauto|done]. }
  assert (q = req) as -> by (revert Ev; unfold validate_request; repeat case_match; congruence).
  apply wp_no_plugins; [done|apply Hok|]. intros pCtx e pool. eapply wp_mono; [by apply complete_answers|].
  intros out w' (Hd & Hok' & Hs). split_and!; [done|exact Hok'|exact Hs].
Qed.

(** ** Embeddings *)

Lemma answers_trans {A B} w w1 w2 (res : result A) (res' : result B) : answers w res w1 -> answers w1 res' w2 -> answers w res' w2.
Proof. intros (_ & _ & Hs) (Hd & Hok & Hs'). split_and!; [done|done|congruence]. Qed.

Lemma answers_parts {A} w w1 (res : result A) :
  setup w1 = setup w /\ manager w1 = manager w /\ trace w1 = trace w -> client_ok w -> definite res -> answers w res w1.
Proof. intros (Hs & Hm & Ht) Hok Hd. apply answers_view; [done|done|]. unfold view. congruence. Qed.

Lemma embedding_attempt_answers ctx req n d pending w :
  client_ok w -> deployment_ok d -> wp (embedding_attempt ctx req n d pending) (fun out w' => answers w out.1 w') w.
Proof.
  intros Hok Hd. unfold embedding_attempt. wp_step.
  assert (Stop : forall err : go_error, wp (let* _ := report_pending pending (fun _ => err) false in ret (fail (A:=EmbeddingResponse) err, true))
    (fun out w' => answers w out.1 w') w).
  { intros err. apply wp_bind. eapply wp_mono; [apply wp_report_pending|]. cbn beta. intros _ w1 Hw. wp_step. apply answers_parts; [done|done|]. right. by exists err. }
  destruct (cl_providers _ !! _) as [prov|] eqn:Ep; [|apply Stop]. destruct (negb _); [apply Stop|].
  apply wp_bind. eapply wp_mono; [apply executeEmbeddingOnce_post; [by apply (proj1 (proj1 Hok) _ _ Ep)|done|apply Hok]|].
  intros res w1 (Hs & Hm & _ & evs & _ & Htold). assert (Hok1 : client_ok w1) by by apply (client_ok_setup w).
  apply attempt_told_cases in Htold as [(r & -> & _)|(e & -> & _)]; cbn [success fail];
    apply wp_bind; (eapply wp_mono; [apply wp_report_pending|]); cbn beta; intros _ w2 Hw; wp_step;
    (eapply (answers_trans w w1 w2 (fail (A:=unit) (EText ""))); [split_and!; [by right; eexists|done|done]|apply answers_parts; [done|done|]]).
  - left. eexists. reflexivity.
  - right. by exists e.
Qed.

Lemma embedding_loop_answers fuel attempt ctx req n d lastErr w :
  client_ok w -> (forall x, d = Some x -> deployment_ok x) ->
  wp (embedding_loop fuel attempt ctx req n d lastErr) (answers w) w.
Proof.
  revert attempt d lastErr w. induction fuel as [|fuel IH]; intros attempt d lastErr w Hok Hd; cbn [embedding_loop].
  { wp_step. apply answers_view; [done|right; by eexists|done]. }
  apply wp_bind. eapply wp_mono; [apply wp_before_attempt|]. cbn beta. intros stop w1 (Hstop & Hw1).
  destruct stop as [[e|]|]; [|done|].
  { wp_step. apply answers_parts; [done|done|]. right. by eexists. }
  assert (A1 := answers_parts w w1 (fail (A:=EmbeddingResponse) (EText "")) Hw1 Hok ltac:(right; by eexists)). destruct (A1) as (_ & Hok1 & _).
  apply wp_bind. eapply wp_mono; [by apply wp_choose|]. cbn beta. intros chosen w2 [V2 Hc].
  assert (A2 := answers_view w1 w2 (fail (A:=EmbeddingResponse) (EText "")) Hok1 ltac:(right; by eexists) V2). destruct (A2) as (_ & Hok2 & _).
  destruct chosen as [err|[d' pending]].
  { eapply wp_mono; [by apply IH|]. intros res w3 A3. by eapply answers_trans, answers_trans. }
  apply wp_bind. eapply wp_mono; [by apply embedding_attempt_answers|]. intros [res more] w3 A3. cbn [fst] in A3.
  assert (A0 : answers w res w3) by (by eapply answers_trans, answers_trans).
  destruct res as [resp [err|]]; [|by wp_step]. destruct more; [|by wp_step].
  destruct A3 as (_ & Hok3 & _). eapply wp_mono; [apply IH; [done|by intros x [= <-]]|]. intros res w4 A4. by eapply answers_trans.
Qed.

Lemma Embedding_answers ctx req w : client_ok w -> wp (Embedding ctx (Some req)) (answers w) w.
Proof.
  intros Hok. unfold Embedding. destruct (String.eqb _ _).
  { wp_step. apply answers_view; [done|right; by eexists|done]. }
  destruct (EmbeddingRequest_Validate req).
  { wp_step. apply answers_view; [done|right; by eexists|done]. }
  apply wp_silent; [apply silent_rate_limited|]. intros [err|] w1 V1.
  { wp_step. apply answers_view; [done|right; by eexists|done]. }
  assert (A1 := answers_view w w1 (fail (A:=EmbeddingResponse) (EText "")) Hok ltac:(right; by eexists) V1). destruct (A1) as (_ & Hok1 & _).
  wp_step. eapply wp_mono; [by apply embedding_loop_answers|]. intros res w2 A2. by eapply answers_trans.
Qed.
End Completion.

(** ** Requests that are answered in one piece *)

(** The usage that an answer reports, and the model that it is billed for when
    [asked] was asked for: its own, when it has one. *)
Definition body_usage (j : json_body) : option ClientTypes.Usage :=
  match j with
  | JChat r => r.(p_Usage)
  | JCompletion r => r.(co_Usage)
  | JResponse r => r.(re_Usage)
  | JEmbedding r => Some (embedding_usage r.(ep_Usage))
  | _ => None
  end.

(** The usage as it is priced: that of embeddings names no provider. *)
Definition priced_usage (j : json_body) (u : ClientTypes.Usage) : ClientTypes.Usage :=
  match j with JEmbedding _ => u<|us_Provider := ""|> | _ => u end.

Definition body_model (asked : string) (j : json_body) : string :=
  match j with
  | JChat r => or_else r.(p_Model) asked
  | JResponse r => or_else r.(re_Model) asked
  | JEmbedding r => or_else r.(ep_Model) asked
  | _ => asked
  end.

Section Served.
Context {Env Http RT0 P L C St IP Net T GL Enf I MCP : Type}.
Context `{!Network Env Http} `{!RouterI RT0} `{!DistributedLimiter L} `{!CacheI C} `{!Tokenizer} `{!Codec} `{!Json} `{!ApiJson}.
Context `{!AuthStore St} `{!NetLib IP Net} `{!RateLimiter T} `{!DistributedLimiter GL} `{!CasbinEngine Enf} `{!IdempotencyStore I}.
Context `{!ToolManager MCP} `{!RouterSafe RT0} `{!NetworkLaws Env Http}.

#[local] Abbreviation RT := (RT0 * list router_ev)%type.
#[local] Abbreviation gateway := (@gateway Env Http RT P L C St Net T GL Enf I MCP).
#[local] Abbreviation HM := (@HM Env Http RT P L C St Net T GL Enf I MCP).
#[local] Abbreviation ledger := (option (Engine St T Net GL Enf I) * option St)%type.
Implicit Types (g : gateway) (b : ledger).

(** A gateway that is about to answer on a connection that holds. *)
Record ready (fl : bool) g : Prop := {
  rd_client : client_ok g.(gw_world);
  rd_tools : g.(gw_mcp) = None;
  rd_writer : g.(gw_writer) = new_writer fl None;
}.

#[local] Abbreviation cworld := (@world Env Http RT P L C).
#[local] Abbreviation CM := (@M Env Http RT P L C).

(** What the caller is given of a call of the client that is made in [w]. *)
Definition call_gives {A : Type} (call : CM (result A)) (show : go_error -> go_error) (respond : A -> json_body) (w : cworld)
  (out : go_error + json_body) : Prop :=
  match (call w).2 with
  | Some (_, Some err) => out = inl (show err)
  | Some (Some a, None) => out = inr (respond a)
  | _ => False
  end.

Lemma call_failed {A} (call : CM (result A)) show respond w w' o err :
  call w = (w', Some (o, Some err)) -> call_gives call show respond w (inl (show err)).
Proof. unfold call_gives. intros ->. by destruct o. Qed.

Lemma call_answered {A} (call : CM (result A)) show respond w w' a :
  call w = (w', Some (Some a, None)) -> call_gives call show respond w (inr (respond a)).
Proof. unfold call_gives. by intros ->. Qed.

Definition no_client (model : string) : go_error := ELLM (NewInternalError "" model "client not initialized").

(** How a request for [model] ends: governance refuses it, there is no client, the
    call of the client fails, or it is answered.  [gives] is what the call, made with
    the client as it was, gives.  Only an answer is posted to the books, once. *)
Inductive served (fl : bool) (r : request) (requestID callType model user : string) (tags : list string)
  (gives : cworld -> go_error + json_body -> Prop) (g g' : gateway) : Prop :=
| served_refused err :
    evaluated r model user tags callType (Some err) g g' -> g'.(gw_writer) = error_written err fl ->
    served fl r requestID callType model user tags gives g g'
| served_no_client :
    g.(gw_client) = false -> evaluated r model user tags callType None g g' -> g'.(gw_writer) = error_written (no_client model) fl ->
    served fl r requestID callType model user tags gives g g'
| served_failed env err :
    g.(gw_client) = true -> gives (g.(gw_world)<|w_env := env|>) (inl err) ->
    evaluated r model user tags callType None g g' -> g'.(gw_writer) = error_written err fl ->
    served fl r requestID callType model user tags gives g g'
| served_answered env g1 body u start latency :
    g.(gw_client) = true -> gives (g.(gw_world)<|w_env := env|>) (inr body) ->
    evaluated r model user tags callType None g g1 ->
    g'.(gw_writer) = written 200 [OJson body] fl -> body_usage body = Some u ->
    posted r.(hq_ctx)
      (account_input requestID (body_model model body) callType user tags u
         (CalculateCost g.(gw_world).(w_client) (body_model model body) (Some (priced_usage body u))) start latency) g1 g' ->
    served fl r requestID callType model user tags gives g g'.

(** Only the books, the client and what is written count, not the time. *)
Lemma served_books fl r id ct model user tags gives g0 g0' g g' :
  books g = books g0 -> (exists env, g0.(gw_world) = g.(gw_world)<|w_env := env|>) -> g.(gw_client) = g0.(gw_client) ->
  books g' = books g0' -> g'.(gw_writer) = g0'.(gw_writer) ->
  served fl r id ct model user tags gives g0 g0' -> served fl r id ct model user tags gives g g'.
Proof.
  intros Hb [env Hw] Hg Hb' Hwr Hs.
  assert (He : forall e, g0.(gw_world)<|w_env := e|> = g.(gw_world)<|w_env := e|>) by (intros e; by rewrite Hw).
  destruct Hs as [err X Y|Hc X Y|e err Hc G X Y|e g1 body u st la Hc G X Y Z W]; rewrite <- Hwr in Y; rewrite ?He, <- ?Hg in *.
  - eapply served_refused; [|done]. by eapply evaluated_books.
  - eapply served_no_client; [done| |done]. by eapply evaluated_books.
  - eapply served_failed; [done|exact G| |done]. by eapply evaluated_books.
  - eapply (served_answered _ _ _ _ _ _ _ _ _ _ e g1); [done|exact G|by eapply evaluated_books|done|done|].
    rewrite Hw in W. by eapply posted_books.
Qed.

Lemma setup_cost (w w' : @world Env Http RT P L C) model u :
  setup w' = setup w -> CalculateCost w'.(w_client) model u = CalculateCost w.(w_client) model u.
Proof. intros Hs. assert (E : cl_pricing (w_client w') = cl_pricing (w_client w)) by (unfold setup in Hs; congruence). unfold CalculateCost. by rewrite E. Qed.

Lemma wp_self {A} (m : CM A) Q w : wp m Q w -> wp m (fun a w' => Q a w' /\ m w = (w', Some a)) w.
Proof. unfold wp. by destruct (m w) as [w' [a|]]. Qed.

Lemma send_chat_answers ctx req (Q : _ -> gateway -> Prop) g :
  g.(gw_mcp) = None -> client_ok g.(gw_world) ->
  (forall res w', answers g.(gw_world) res w' -> ChatCompletion ctx (Some req) g.(gw_world) = (w', Some res) -> Q (req, res) (g<|gw_world := w'|>)) ->
  hwp (send_chat ctx req) Q g.
Proof.
  intros Hm Hok HQ. unfold send_chat. apply hwp_bind, hwp_gets. rewrite Hm. apply hwp_bind, hwp_on_client.
  eapply wp_mono; [by apply wp_self, ChatCompletion_answers|]. intros res w' [Ha Er]. apply hwp_ret. by apply HQ.
Qed.

(** What a chat request is given: the error as it is shown, or the answer with the
    usage it is billed for. *)
Definition chat_gives (show : string -> go_error -> go_error) (respond : ChatResponse -> json_body * logged_response) (ctx : Ctx) (req : ChatRequest) :
  cworld -> go_error + json_body -> Prop :=
  call_gives (ChatCompletion ctx (Some req)) (show req.(q_Model)) (fun resp => (respond (resp<|p_Usage := Some (chat_usage req resp)|>)).1).

(** The answer that [respond] makes keeps the usage and the model. *)
Definition faithful (respond : ChatResponse -> json_body * logged_response) : Prop :=
  forall resp asked, body_usage (respond resp).1 = resp.(p_Usage) /\ body_model asked (respond resp).1 = or_else resp.(p_Model) asked
    /\ forall u, priced_usage (respond resp).1 u = u.

(** Rest of the run, after governance let the request through. *)
Lemma complete_chat_served fl show respond r req start id payload g0 g (Q : unit -> gateway -> Prop) :
  faithful respond -> evaluated r req.(q_Model) req.(q_User) req.(q_Tags) CallTypeChatCompletion None g0 g ->
  ready fl g -> (exists env, g.(gw_world) = g0.(gw_world)<|w_env := env|>) -> g0.(gw_client) = true ->
  (forall g', g'.(gw_refs) = g.(gw_refs) ->
     served fl r id CallTypeChatCompletion req.(q_Model) req.(q_User) req.(q_Tags) (chat_gives show respond r.(hq_ctx) req) g0 g' -> Q tt g') ->
  hwp (complete_chat show respond r.(hq_ctx) req start id payload) Q g.
Proof.
  intros Hf Hev [Hok Hm Hw] [env Hc] Hcl HQ. unfold complete_chat. apply hwp_bind, send_chat_answers; [done|done|].
  intros res w1 (Hd & Hok1 & Hs1) Er.
  rewrite Hc in Er. destruct Hd as [[resp ->]|[err ->]]; cbn [fail success] in *.
  2: { apply (hwp_observe_error _ _ _ fl); [done|]. intros o e. apply HQ; [done|].
       eapply (served_failed _ _ _ _ _ _ _ _ _ _ env); [done|by eapply call_failed| |done]. by eapply evaluated_books. }
  apply hwp_bind, hwp_quiet; [apply quiet_since|]. intros o e latency. cbv zeta. set (u := chat_usage req resp).
  apply hwp_bind, hwp_bill. intros b2 e2 Hp. cbn in Hp. destruct (Hf (resp<|p_Usage := Some u|>) req.(q_Model)) as (Hu & Hmo & Hpr).
  assert (G := call_answered _ (show req.(q_Model)) (fun resp => (respond (resp<|p_Usage := Some (chat_usage req resp)|>)).1) _ _ _ Er).
  cbn beta in G. fold u in G. destruct (respond (resp<|p_Usage := Some u|>)) as [body logged]. cbn in Hu, Hmo, Hpr.
  apply hwp_bind, hwp_quiet; [apply quiet_observePost|]. intros o3 e3 []. apply (hwp_writeJSON _ fl); [done|]. apply HQ; [done|].
  eapply (served_answered _ _ _ _ _ _ _ _ _ _ env g body u); [done|exact G|exact Hev|done|done|]. rewrite Hmo, Hpr.
  rewrite <- (setup_cost g0.(gw_world) w1); [|etransitivity; [exact Hs1|]; by rewrite Hc]. by eapply posted_books; [| |exact Hp].
Qed.

Lemma serve_chat_served fl show respond stream r req start id payload g (Q : unit -> gateway -> Prop) :
  faithful respond -> ready fl g -> req.(q_Stream) = false ->
  (forall g', g'.(gw_refs) = g.(gw_refs) ->
     served fl r id CallTypeChatCompletion req.(q_Model) req.(q_User) req.(q_Tags) (chat_gives show respond r.(hq_ctx) req) g g' -> Q tt g') ->
  hwp (serve_chat stream (complete_chat show respond) r req start id payload) Q g.
Proof.
  intros Hf [Hok Hm Hw] Hst HQ. unfold serve_chat. apply hwp_bind, hwp_quiet; [apply quiet_startSpan|]. intros o1 e1 p1.
  apply hwp_bind, hwp_quiet; [apply quiet_observe|]. intros o2 e2 []. apply hwp_bind, hwp_evaluate. intros v b e Hev.
  eapply (evaluated_books _ _ _ _ _ _ _ _ g) in Hev; [|done|done].
  destruct v as [err|].
  { apply (hwp_observe_error _ _ _ fl); [done|]. intros o3 e3. apply HQ; [done|]. eapply served_refused; [|done]. by eapply evaluated_books. }
  apply hwp_with_client. change (gw_client (rebook b e (touch o2 e2 (touch o1 e1 g)))) with g.(gw_client). destruct (gw_client g) eqn:Hcl; cbn [negb].
  - rewrite Hst. apply (complete_chat_served fl show respond r req start id p1 g); [done|by eapply evaluated_books|by split|by eexists|done|].
    intros g' Hr Hs. apply HQ; [cbn; rewrite Hr; cbn; lia|].
    eapply served_books; [..|exact Hs]; [done|by exists g.(gw_world).(w_env); destruct g.(gw_world)|done..].
  - apply (hwp_observe_error _ _ _ fl); [done|]. intros o3 e3. apply HQ; [cbn; lia|]. eapply served_no_client; [done| |done]. by eapply evaluated_books.
Qed.

(** The request after it has an identifier, and the identifier. *)
#[local] Abbreviation identified r := (ensureRequestID r).1.
#[local] Abbreviation request_id r := (ensureRequestID r).2.

Lemma ensured_body r : (identified r).(hq_body) = r.(hq_body).
Proof. unfold ensureRequestID. by destruct (negb _). Qed.

Lemma hwp_unit (m : HM unit) (Q : gateway -> Prop) g : hwp m (fun _ => Q) g -> exists g', m g = (g', Val tt) /\ Q g'.
Proof. intros (g' & [] & Em & HQ)%hwp_run. eauto. Qed.

(** C5: Every chat request is refused, fails or is answered, and only an answer is
    accounted for.  For a gateway without a tool manager whose client is in order and
    has no plug-ins, on a connection of the caller that holds: a request to the chat
    endpoint that does not ask for a stream returns, without a panic, and gives the
    client back.  A request that cannot be read gets its error and leaves the books
    alone.  Any other goes to governance once: it gets the error of the refusal; or,
    with no client, that error; or the error that [ChatCompletion] with this request
    gives, as it is shown, with nothing accounted for; or it is answered, with status
    200 and the response that [ChatCompletion] gives, with the usage filled in, and
    then this usage is posted once, for the model of the answer, at the client's
    price. *)
Theorem chat_served fuel fl r g :
  ready fl g -> (forall req, parse_chat g.(gw_maxBodySize) r.(hq_body) = inr req -> req.(q_Stream) = false) ->
  exists g', ChatCompletions fuel r g = (g', Val tt) /\ g'.(gw_refs) = g.(gw_refs)
    /\ match parse_chat g.(gw_maxBodySize) r.(hq_body) with
       | inl err => books g' = books g /\ g'.(gw_writer) = error_written err fl
       | inr req => served fl (identified r) (request_id r) CallTypeChatCompletion req.(q_Model) req.(q_User) req.(q_Tags)
                      (chat_gives upstream_error (fun resp => (JChat resp, LChatResponse resp)) (identified r).(hq_ctx) req) g g'
       end.
Proof.
  intros Hrd Hst. apply hwp_unit. unfold ChatCompletions. apply hwp_bind, hwp_quiet; [apply quiet_clock|]. intros o e start.
  rewrite <- (ensured_body r) in *. destruct (ensureRequestID r) as [r' id]. cbn [fst snd] in *. apply hwp_bind, hwp_gets.
  change (gw_maxBodySize (touch o e g)) with g.(gw_maxBodySize).
  destruct (parse_chat _ _) as [err|req]; [by apply (hwp_writeError _ fl); [apply Hrd|]|].
  apply (serve_chat_served fl); [done|by destruct Hrd; split|by apply Hst|]. intros g' Hr Hs. split; [exact Hr|].
  eapply served_books; [..|exact Hs]; [done|by eexists|done..].
Qed.

(** The responses endpoint is served like the chat endpoint. *)
Theorem responses_served fuel fl r g :
  ready fl g -> (forall req, parse_response g.(gw_maxBodySize) r.(hq_body) = inr req -> req.(q_Stream) = false) ->
  exists g', Responses fuel r g = (g', Val tt) /\ g'.(gw_refs) = g.(gw_refs)
    /\ match parse_response g.(gw_maxBodySize) r.(hq_body) with
       | inl err => books g' = books g /\ g'.(gw_writer) = error_written err fl
       | inr req => served fl (identified r) (request_id r) CallTypeChatCompletion req.(q_Model) req.(q_User) req.(q_Tags)
                      (chat_gives response_error (fun resp => let response := ResponseResponseFromChat resp in (JResponse response, LResponse response))
                         (identified r).(hq_ctx) req) g g'
       end.
Proof.
  intros Hrd Hst. apply hwp_unit. unfold Responses. apply hwp_bind, hwp_quiet; [apply quiet_clock|]. intros o e start.
  rewrite <- (ensured_body r) in *. destruct (ensureRequestID r) as [r' id]. cbn [fst snd] in *. apply hwp_bind, hwp_gets.
  change (gw_maxBodySize (touch o e g)) with g.(gw_maxBodySize).
  destruct (parse_response _ _) as [err|req]; [by apply (hwp_writeError _ fl); [apply Hrd|]|].
  apply (serve_chat_served fl); [done|by destruct Hrd; split|by apply Hst|]. intros g' Hr Hs. split; [exact Hr|].
  eapply served_books; [..|exact Hs]; [done|by eexists|done..].
Qed.

(** The answer of the completions endpoint, with the usage it is billed for. *)
Definition completion_answer (q : ChatRequest) (resp : ChatResponse) : json_body :=
  let resp := CompletionResponseFromChat resp in JCompletion (resp<|co_Usage := Some (completion_usage q resp)|>).

(** A completion is made after the client is there, and its model is that of the
    request. *)
Theorem completions_served fuel fl r g :
  ready fl g -> g.(gw_client) = true ->
  (forall req q, parse_completion g.(gw_maxBodySize) r.(hq_body) = inr (req, q) -> q.(q_Stream) = false /\ q.(q_Model) = req.(cr_Model)) ->
  exists g', Completions fuel r g = (g', Val tt) /\ g'.(gw_refs) = g.(gw_refs)
    /\ match parse_completion g.(gw_maxBodySize) r.(hq_body) with
       | inl err => books g' = books g /\ g'.(gw_writer) = error_written err fl
       | inr (req, q) => served fl (identified r) (request_id r) CallTypeCompletion req.(cr_Model) req.(cr_User) []
           (call_gives (ChatCompletion (identified r).(hq_ctx) (Some q)) (upstream_error req.(cr_Model)) (completion_answer q)) g g'
       end.
Proof.
  intros [Hok Hm Hw] Hc Hst. apply hwp_unit. unfold Completions. apply hwp_bind, hwp_quiet; [apply quiet_clock|]. intros o e start.
  rewrite <- (ensured_body r) in *. destruct (ensureRequestID r) as [r' id]. cbn [fst snd] in *. apply hwp_with_client.
  change (gw_client (touch o e g)) with g.(gw_client). rewrite Hc. cbn [negb]. apply hwp_bind, hwp_gets.
  change (gw_maxBodySize ((touch o e g)<|gw_refs ::= fun n => n + 1|>)) with g.(gw_maxBodySize).
  destruct (parse_completion _ _) as [err|[req q]]; [apply (hwp_writeError _ fl); [done|]; split; [cbn; lia|done]|].
  destruct (Hst req q eq_refl) as [Hs Hmo]. rewrite Hs, Hmo. apply hwp_bind, hwp_evaluate. intros v b e1 Hev.
  eapply (evaluated_books _ _ _ _ _ _ _ _ g) in Hev; [|done|done]. destruct v as [err|].
  { apply (hwp_writeError _ fl); [done|]. split; [cbn; lia|]. eapply served_refused; [|done]. by eapply evaluated_books. }
  apply hwp_bind, hwp_on_client. eapply wp_mono; [by apply wp_self, ChatCompletion_answers|]. intros res w1 [(Hd & Hok1 & Hs1) Er].
  destruct Hd as [[resp ->]|[err ->]]; cbn [fail success].
  2: { apply (hwp_writeError _ fl); [done|]. split; [cbn; lia|].
       eapply (served_failed _ _ _ _ _ _ _ _ _ _ e1); [done|by eapply call_failed| |done]. by eapply evaluated_books. }
  apply hwp_bind, hwp_quiet; [apply quiet_since|]. intros o2 e2 latency. cbv zeta. set (u := completion_usage q _).
  apply hwp_bind, hwp_bill. intros b2 e3 Hp. cbn in Hp. apply (hwp_writeJSON _ fl); [done|]. split; [cbn; lia|].
  eapply (served_answered _ _ _ _ _ _ _ _ _ _ e1 _ (JCompletion _) u); [done|exact (call_answered _ _ (completion_answer q) _ _ _ Er)|exact Hev|done|done|].
  rewrite <- (setup_cost g.(gw_world) w1); [|exact Hs1]. by eapply posted_books; [| |exact Hp].
Qed.

(** An embedding is billed for the model of the answer, at the price without a
    provider. *)
Theorem embeddings_served fl r g :
  ready fl g ->
  exists g', Embeddings r g = (g', Val tt) /\ g'.(gw_refs) = g.(gw_refs)
    /\ match parse_embedding g.(gw_maxBodySize) r.(hq_body) with
       | inl err => books g' = books g /\ g'.(gw_writer) = error_written err fl
       | inr req => served fl (identified r) (request_id r) CallTypeEmbedding req.(er_Model) req.(er_User) []
           (call_gives (Embedding (identified r).(hq_ctx) (Some req)) (upstream_error req.(er_Model)) JEmbedding) g g'
       end.
Proof.
  intros [Hok Hm Hw]. apply hwp_unit. unfold Embeddings. apply hwp_bind, hwp_quiet; [apply quiet_clock|]. intros o e start.
  rewrite <- (ensured_body r) in *. destruct (ensureRequestID r) as [r' id]. cbn [fst snd] in *. apply hwp_bind, hwp_gets.
  change (gw_maxBodySize (touch o e g)) with g.(gw_maxBodySize).
  destruct (parse_embedding _ _) as [err|req]; [by apply (hwp_writeError _ fl)|].
  apply hwp_bind, hwp_quiet; [apply quiet_startSpan|]. intros o1 e1 p1. apply hwp_bind, hwp_quiet; [apply quiet_observe|]. intros o2 e2 [].
  apply hwp_bind, hwp_evaluate. intros v b e3 Hev. eapply (evaluated_books _ _ _ _ _ _ _ _ g) in Hev; [|done|done]. destruct v as [err|].
  { apply (hwp_observe_error _ _ _ fl); [done|]. intros o3 e4. split; [done|]. eapply served_refused; [|done]. by eapply evaluated_books. }
  apply hwp_with_client. destruct (gw_client _) eqn:Hcl; cbn [negb].
  2: { apply (hwp_observe_error _ _ _ fl); [done|]. intros o3 e4. split; [cbn; lia|]. eapply served_no_client; [done| |done]. by eapply evaluated_books. }
  unfold embed. apply hwp_bind, hwp_on_client. eapply wp_mono; [by apply wp_self, Embedding_answers|]. intros res w1 [(Hd & Hok1 & Hs1) Er].
  destruct Hd as [[resp ->]|[err ->]]; cbn [fail success].
  2: { apply (hwp_observe_error _ _ _ fl); [done|]. intros o3 e4. split; [cbn; lia|].
       eapply (served_failed _ _ _ _ _ _ _ _ _ _ e3); [done|by eapply call_failed| |done]. by eapply evaluated_books. }
  apply hwp_bind, hwp_quiet; [apply quiet_since|]. intros o4 e4 latency. cbv zeta. set (u := embedding_usage _).
  apply hwp_bind. unfold costOf. apply hwp_on_client, wp_gets. apply hwp_bind, hwp_account. intros b2 e5 Hp. cbn [touch gw_world w_client] in Hp.
  apply hwp_bind, hwp_quiet; [apply quiet_observePost|]. intros o6 e6 []. apply (hwp_writeJSON _ fl); [done|]. split; [cbn; lia|].
  eapply (served_answered _ _ _ _ _ _ _ _ _ _ e3 _ (JEmbedding resp) u); [done|by eapply call_answered|exact Hev|done|done|].
  rewrite <- (setup_cost g.(gw_world) w1); [|exact Hs1]. cbn [body_model priced_usage].
  eapply posted_books; [| |exact Hp]; same_books.
Qed.
End Served.
