(* ===== verification/GatewayDemo.v ===== *)
(** * A small gateway, and what it shows

    A provider whose bodies are the text of the answer, documents that are the name
    of a model, the in-memory storage with one key.  On it the theorems are applied,
    and the places are run where the gateway does not do what it says. *)
From Stdlib Require Import Ascii.
From S2P Require Import Prelude Float64 Errors ModelName RouterTypes BaseRouter Strategies Semaphore ResilienceManager RedisLimiter AuthTypes AuthStore AuthStoreProofs AuthMiddleware ModelAccess TenantLimiter RedisCache AuthTheorems Governance PluginPipeline ClientTypes Client ClientProofs ClientDemo ClientTheorems Stream ApiTypes ApiPayload Gateway GatewayTheorems.
Import MemoryAuth MemoryIdempotency.

Module Gate.
Definition message (text : string) (calls : list ToolCall) : ChatMessage :=
  {| m_Role := "assistant"; m_Content := text; m_Name := ""; m_ToolCalls := calls; m_ToolCallID := "" |}.

Definition call : ToolCall := {| tc_ID := "c1"; tc_Type := "function"; tc_Function := {| tcf_Name := "now"; tcf_Arguments := "" |} |}.

Definition usage (prompt completion : Z) : ClientTypes.Usage :=
  {| us_PromptTokens := prompt; us_CompletionTokens := completion; us_TotalTokens := prompt + completion; us_Provider := "" |}.

(** The body "tool" asks for a tool, "" has no choices, any other is the text. *)
Definition parse (text : string) : ChatResponse :=
  {| p_ID := "r"; p_Object := ""; p_Created := 0; p_Model := ""; p_SystemFingerprint := "";
     p_Choices := if String.eqb text "" then [] else
       [{| ch_Index := 0; ch_Message := message text (if String.eqb text "tool" then [call] else []);
           ch_FinishReason := if String.eqb text "tool" then "tool_calls" else "stop"; ch_Logprobs := None |}];
     p_Usage := Some (usage 10 5) |}.

Definition provider : Provider Demo.env string :=
  (Demo.provider "east")<|ParseResponse := fun resp => inr (Some (parse resp.(hr_Body).(body_bytes)))|>
    <|SupportEmbedding := true|>
    <|ParseEmbeddingResponse := fun _ => inr (Some {| ep_Object := ""; ep_Data := []; ep_Model := ""; ep_Usage := usage 10 0 |})|>.

#[export] Instance json : Json := {|
  read_members _ := inr ∅;
  write_members _ := inl (EText "");
  read_chat d := inr (match d with
                      | String c model => if Ascii.eqb c "~" then (Demo.request model)<|q_Stream := true|> else Demo.request d
                      | _ => Demo.request d
                      end);
  write_chat _ := inl (EText "");
  read_int _ := inl (EText "");
  read_string s := inr s;
  write_string s := inr s;
  read_strings _ := inl (EText "");
  write_strings _ := inl (EText "");
  read_ints _ := inl (EText "");
  write_ints _ := inl (EText "");
  read_intss _ := inl (EText "");
  write_intss _ := inl (EText "");
  read_messages _ := inl (EText "");
  read_parts _ := inl (EText "");
|}.

Definition input : EmbeddingInput := {| ei_Text := Some "hi"; ei_Texts := None; ei_Tokens := None; ei_TokensList := None |}.

#[export] Instance api_json : ApiJson := {|
  marshal_chunk c := inr (first_delta c);
  marshal_completion_chunk c := inr (firstCompletionText c);
  marshal_event e := inr (e.(rs_Type) +:+ e.(rs_Delta));
  read_completion d := inr {| cr_Model := d; cr_Prompt := {| pr_Text := Some "hi"; pr_Texts := None |}; cr_Stream := false;
    cr_MaxTokens := 0; cr_Temperature := None; cr_TopP := None; cr_N := 0; cr_Stop := None; cr_PresencePenalty := None;
    cr_FrequencyPenalty := None; cr_User := ""; cr_BestOf := 0; cr_Echo := false; cr_Logprobs := 0; cr_Suffix := "" |};
  read_response d := inr {| rr_Model := d; rr_Input := {| ri_Text := Some "hi"; ri_Texts := []; ri_Messages := [] |}; rr_Stream := false;
    rr_MaxOutputTokens := 0; rr_MaxTokens := 0; rr_Temperature := None; rr_TopP := None; rr_User := ""; rr_Tools := [];
    rr_ToolChoice := ""; rr_ResponseFormat := None; rr_StreamOptions := None; rr_Tags := []; rr_Extra := None |};
  read_embedding d := inr {| er_Model := d; er_Input := Some input; er_EncodingFormat := ""; er_User := ""; er_Dimensions := 0 |};
|}.

(** A manager with one tool; it counts the calls. *)
#[export] Instance tools : ToolManager nat := {|
  InjectTools := None;
  ExecuteToolCalls _ calls n :=
    ((n + length calls)%nat,
     map (fun c => {| tr_ToolCallID := c.(tc_ID); tr_ToolName := "now"; tr_Content := "noon"; tr_IsError := false; tr_Duration := 0 |}) calls);
|}.

#[export] Instance storage : AuthStore MemoryStore := memory_auth_store elements.

Definition gateway_type : Type :=
  @gateway Demo.env string (Demo.router * list router_ev) unit unit Demo.store MemoryStore (list string) unit MapRedis.db
    ListCasbin.engine MemoryIdempotencyStore nat.

Definition gateway (prices : Registry) (tools : option nat) (replies : list (go_error + HttpResponse)) : gateway_type :=
  {| gw_world := Demo.world_of ((Demo.client ((["east"] : Demo.router), [] : list router_ev) prices
                                   (defaultConfig<|RetryCount := 0|>))<|cl_providers := {["east" := provider]}|>) replies;
     gw_client := true; gw_refs := 0; gw_governance := Some (demo_engine None); gw_store := None; gw_mcp := tools; gw_obs := None;
     gw_maxBodySize := 64; gw_writer := new_writer true None |}.

Definition bare : Registry := {["gpt-4o" := Demo.price]}.

(** A request whose body is [text], with the key of the storage. *)
Definition ask (text : string) : request :=
  {| hq_ctx := Demo.nobody<|c_auth := Some (keyCtx gov_key None)|>; hq_requestID := "q1"; hq_fresh := ""; hq_header := "";
     hq_http := {| h_RemoteAddr := ""; h_Forwarded := ""; h_XForwardedFor := ""; h_XRealIP := "" |};
     hq_body := {| body_bytes := text; body_error := None |} |}.

Lemma ready_gateway prices replies : ready true (gateway prices None replies).
Proof.
  split; [|done|done]. split; [|done]. split_and!; [|apply map_Forall_empty|done].
  unfold providers_ok. cbn. by apply map_Forall_singleton.
Qed.

(** What the key has spent, and what is written. *)
Definition spent (g : gateway_type) : option f64 :=
  match g.(gw_governance) with
  | Some e => match e.(e_store) with Some s => k_SpentBudget <$> abs s !! "k1" | None => None end
  | None => None
  end.
Definition status (g : gateway_type) : option Z := g.(gw_writer).(wr_status).
End Gate.

#[local] Existing Instances Gate.json Gate.api_json Gate.tools Gate.storage.

(** An answer of ten tokens and five, at a price of one each, costs the key fifteen. *)
Lemma chat_served_witness :
  let g := Gate.gateway Gate.bare None [Demo.answer 200 "hello"] in
  let g1 := (ChatCompletions 0 (Gate.ask "gpt-4o") g).1 in
  served true (Gate.ask "gpt-4o") "q1" CallTypeChatCompletion "gpt-4o" "" []
    (chat_gives upstream_error (fun resp => (JChat resp, LChatResponse resp)) (Gate.ask "gpt-4o").(hq_ctx) (Demo.request "gpt-4o")) g g1
  /\ Gate.status g1 = Some 200 /\ Gate.spent g1 = Some (f64_of_Z 15).
Proof.
  intros g g1. destruct (chat_served 0 true (Gate.ask "gpt-4o") g) as (g' & Er & _ & Hs); [apply Gate.ready_gateway|by intros req [= <-]|].
  split; [|vm_compute; by split]. unfold g1. rewrite Er. exact Hs.
Defined.

(** ** Prices *)

Section Prices.
Context {E HttpRequest RT P L C : Type}.
Implicit Types c : @Client E HttpRequest RT P L C.

(** A model that is asked for with its provider costs nothing.  When a price is
    registered under the name of the model alone, a completion of
    "provider/model" passes the check of the price, which looks for the name without
    the provider; but the cost is looked up under the name of the request, and is
    zero whatever the usage. *)
Theorem prefixed_model_unbilled c reg provider model u :
  let full := provider +:+ "/" +:+ model in
  c.(cl_pricing) = Some reg -> canonical full = model -> is_Some (reg !! model) ->
  reg !! full = None -> reg !! (u.(us_Provider) +:+ "/" +:+ full) = None ->
  is_Some (GetPrice reg (canonical full) u.(us_Provider)) /\ CalculateCost c full (Some u) = fzero.
Proof.
  intros full Hr Hc [p Hp] H1 H2. unfold CalculateCost, GetPrice. rewrite Hr, Hc, Hp, H1, H2. split; [case_match; by eexists|done].
Qed.

(** The price of an embedding at its provider is not used.  A price that is
    registered for the model at a provider passes the check of the price; but the
    usage that the endpoint prices names no provider, so the embedding is billed
    the price of the model alone, and nothing when there is none. *)
Theorem embedding_provider_price_unused c reg model resp :
  c.(cl_pricing) = Some reg -> reg !! ("/" +:+ model) = None ->
  let u := embedding_usage resp.(ep_Usage) in
  CalculateCost c model (Some (priced_usage (JEmbedding resp) u))
  = match reg !! model with
    | Some price => (f64_of_Z u.(us_PromptTokens) ⊠ price.(PInputCostPerToken)) ⊞ (f64_of_Z 0 ⊠ price.(POutputCostPerToken))
    | None => fzero
    end.
Proof.
  intros Hr Hn u. unfold CalculateCost, GetPrice. rewrite Hr. change (us_Provider (priced_usage _ _) +:+ "/" +:+ model) with ("/" +:+ model).
  rewrite Hn. by destruct (reg !! model).
Qed.
End Prices.

(** The same answer, asked for as "east/gpt-4o": it is given, and the key spends
    nothing. *)
Lemma prefixed_model_unbilled_witness :
  let g := Gate.gateway Gate.bare None [Demo.answer 200 "hello"] in
  CalculateCost g.(gw_world).(w_client) "east/gpt-4o" (Some ((Gate.usage 10 5)<|us_Provider := "east"|>)) = fzero
  /\ let g1 := (ChatCompletions 0 (Gate.ask "east/gpt-4o") g).1 in Gate.status g1 = Some 200 /\ Gate.spent g1 = Some fzero.
Proof.
  intros g. split; [|vm_compute; by split].
  apply (prefixed_model_unbilled g.(gw_world).(w_client) Gate.bare "east" "gpt-4o" ((Gate.usage 10 5)<|us_Provider := "east"|>)); first [by vm_compute|by eexists].
Defined.

(** The model has a price at its provider only: the embedding is given for nothing. *)
Lemma embedding_provider_price_unused_witness :
  let reg : Registry := {["east/gpt-4o" := Demo.price]} in
  let resp := {| ep_Object := ""; ep_Data := []; ep_Model := ""; ep_Usage := Gate.usage 10 0 |} in
  let g := Gate.gateway reg None [Demo.answer 200 ""] in
  CalculateCost g.(gw_world).(w_client) "gpt-4o" (Some (priced_usage (JEmbedding resp) (embedding_usage resp.(ep_Usage)))) = fzero
  /\ let g1 := (Embeddings (Gate.ask "gpt-4o") g).1 in Gate.status g1 = Some 200 /\ Gate.spent g1 = Some fzero.
Proof.
  intros reg resp g. split; [|vm_compute; by split].
  rewrite (embedding_provider_price_unused g.(gw_world).(w_client) reg "gpt-4o" resp); by vm_compute.
Defined.

(** ** Tools *)

(** The rounds of a tool conversation are not billed.  The model asks for a tool,
    the tool runs, the model answers: two completions, and the key spends the price
    of the last one. *)
Theorem tool_rounds_unbilled :
  let g := Gate.gateway Gate.bare (Some O) [Demo.answer 200 "tool"; Demo.answer 200 "noon"] in
  let g1 := (ChatCompletions 0 (Gate.ask "gpt-4o") g).1 in
  let d := new_deployment "east" 2 "gpt-4o" in
  let k := ["k1"] in
  g1.(gw_mcp) = Some 1%nat /\ Gate.status g1 = Some 200
  /\ trace g1.(gw_world) = [EvStart k d; EvSuccess k d; EvEnd k d; EvStart k d; EvSuccess k d; EvEnd k d]
  /\ Gate.spent g1 = Some (f64_of_Z 15).
Proof. vm_compute. split_and!; reflexivity. Qed.

(** With a tool manager, a refusal of the provider becomes "service unavailable":
    the executor wraps the error, and the handler looks at its outermost type. *)
Theorem tool_errors_lose_status :
  let run tools := Gate.status (ChatCompletions 0 (Gate.ask "gpt-4o") (Gate.gateway Gate.bare tools [Demo.answer 429 "slow"])).1 in
  run None = Some 429 /\ run (Some O) = Some 503.
Proof. vm_compute. split_and!; reflexivity. Qed.

(** With a tool manager, a response without choices ends the request in a panic: the
    message at the end of the loop reads the first choice. *)
Theorem tool_loop_panics_without_choices :
  let run tools := (ChatCompletions 0 (Gate.ask "gpt-4o") (Gate.gateway Gate.bare tools [Demo.answer 200 ""])).2 in
  run None = Val tt /\ run (Some O) = Panicked.
Proof. vm_compute. split_and!; reflexivity. Qed.
