(* ===== verification/GatewayStreams.v ===== *)
(** * What the gateway guarantees of streams

    A stream that is opened is forwarded chunk by chunk to its end, or to the error
    that ends it; it is accounted for once; what it took is given back; and the
    handler returns. *)
From Stdlib Require Import Ascii.
From S2P Require Import Prelude Float64 Errors ModelName RouterTypes BaseRouter Strategies Semaphore ResilienceManager RedisLimiter AuthTypes AuthStore ModelAccess TenantLimiter RedisCache AuthTheorems Governance PluginPipeline ClientTypes Client ClientProofs ClientDemo ClientTheorems Stream StreamTheorems StreamBalance ApiTypes ApiPayload Gateway GatewayTheorems GatewayDemo.

(** What is on the connection after some writes. *)
Definition send (l : list output) (w : writer) : writer := foldl (fun w o => (Write o w).1) w l.

Lemma send_room l w : w.(wr_room) = None -> (send l w).(wr_room) = None.
Proof. revert w. induction l as [|o l IH]; intros w Hw; [done|]. apply IH. unfold Write. cbn. by rewrite Hw. Qed.

Lemma send_app l l' w : send (l ++ l') w = send l' (send l w).
Proof. apply foldl_app. Qed.

(** On an intact connection all of it arrives, in order. *)
Lemma send_out l w : w.(wr_room) = None -> (send l w).(wr_out) = w.(wr_out) ++ l.
Proof.
  revert w. induction l as [|o l IH]; intros w Hw; [symmetry; apply app_nil_r|].
  change (send (o :: l) w) with (send l (Write o w).1). rewrite IH; unfold Write; cbn; rewrite Hw; [|done]. cbn. by rewrite <- app_assoc.
Qed.

(** One event. *)
Definition event_frame (encoded : go_error + string) : list output :=
  match encoded with inl _ => [] | inr data => [OText "data: "; OText data; OText (newline +:+ newline)] end.

Section Streams.
Context {Env Http RT0 P L C St IP Net T GL Enf I MCP : Type}.
Context `{!Network Env Http} `{!RouterI RT0} `{!DistributedLimiter L} `{!CacheI C} `{!Tokenizer} `{!Codec} `{!Json} `{!ApiJson}.
Context `{!AuthStore St} `{!NetLib IP Net} `{!RateLimiter T} `{!DistributedLimiter GL} `{!CasbinEngine Enf} `{!IdempotencyStore I}.
Context `{!ToolManager MCP} `{!RouterSafe RT0} `{!NetworkLaws Env Http}.

#[local] Abbreviation RT := (RT0 * list router_ev)%type.
#[local] Abbreviation gateway := (@gateway Env Http RT P L C St Net T GL Enf I MCP).
#[local] Abbreviation HM := (@HM Env Http RT P L C St Net T GL Enf I MCP).
#[local] Abbreviation reader := (@StreamReader Env Http).
#[local] Abbreviation CM := (@M Env Http RT P L C).
Implicit Types (g : gateway) (s : reader).

(** ** A read gives a chunk or an error *)

Definition answered {A B : Type} (r : A * (option B * option go_error)) : Prop := r.2.2 = None -> is_Some r.2.1.

Lemma recv_channel_answered chunks s : yields answered (recv_channel chunks s : CM _).
Proof.
  revert s. induction chunks as [|[c|] chunks IH]; intros s; cbn [recv_channel]; [| |apply IH].
  - apply yields_any. intros [s2 u]. by apply yields_ret.
  - apply yields_any. intros [s3 [c3|]]; [|apply IH]. apply yields_any. intros [s4 u]. apply yields_ret. by eexists.
Qed.

Lemma recv_with_answered broken s : (forall e s', yields answered (broken e s' : CM _)) -> yields answered (recv_with broken s : CM _).
Proof.
  intros Hb. unfold recv_with. destruct (s_closed s); [by apply yields_ret|]. destruct (s_pluginStream s); [apply recv_channel_answered|].
  apply yields_any. intros [s1 [chunk| |[err|]]].
  - apply yields_ret. by eexists.
  - by apply yields_ret.
  - apply yields_any. intros _. apply Hb.
  - destruct (negb _); apply yields_any; intros ?; [apply Hb|by apply yields_ret].
Qed.

Lemma recover_answered fuel e s : yields answered (recover fuel e s : CM _).
Proof.
  assert (Stuck : forall e s0, yields answered (end_broken e s0 : CM _)).
  { intros e0 s0. unfold end_broken. do 2 (apply yields_any; intros ?). by apply yields_ret. }
  revert e s. induction fuel as [|fuel IH]; intros e s; cbn [recover]; [apply Stuck|].
  apply yields_any. intros can. destruct (negb can); [apply Stuck|]. apply yields_any. intros [s1 [e1|]]; [apply IH|].
  eapply yields_bind; [apply recv_with_answered, IH|]. intros [s2 [chunk [e2|]]] Ha; [apply IH|]. apply yields_ret. exact Ha.
Qed.

(** ** The loop *)

(** [g] after a loop that sent [l]. *)
Definition after_loop (o : option (bool * list obs_event)) (w : @world Env Http RT P L C) (l : list output) g : gateway :=
  g<|gw_obs := o|><|gw_world := w|><|gw_writer := send l g.(gw_writer)|>.

(** [deliver] writes [frame] on an intact connection, and goes on. *)
Definition delivers (deliver : StreamChunk -> HM bool) (frame : StreamChunk -> list output) : Prop :=
  forall chunk g, g.(gw_writer).(wr_room) = None -> exists o, deliver chunk g = (after_loop o g.(gw_world) (frame chunk) g, Val true).

Lemma after_loop_twice o o' w w' l l' g : after_loop o w l (after_loop o' w' l' g) = after_loop o w (l' ++ l) g.
Proof. unfold after_loop. rewrite send_app. reflexivity. Qed.

Lemma after_loop_world w g : g<|gw_world := w|> = after_loop g.(gw_obs) w [] g.
Proof. by destruct g. Qed.

(** The end of the loop, by the error of the last read. *)
Definition ended (err : go_error) : stream_end := if is_EOF err then AtEOF else Broken err.

(** The loop delivers what reading the stream to its end gives. *)
Lemma forward_spec deliver frame note b u s :
  delivers deliver frame -> forall rx g, g.(gw_writer).(wr_room) = None -> reader_inv b u s g.(gw_world) ->
  exists n s' chunks err o w, (forall fuel, (n <= fuel)%nat ->
      forward fuel deliver note s rx g
      = (after_loop o w (concat (map frame chunks)) g, Val (s', foldl (fun rx c => note c rx) rx chunks, ended err)))
    /\ read_all n s g.(gw_world) = (w, Some (s', (chunks, Some err))) /\ reader_inv b u s' w /\ prices w = prices g.(gw_world).
Proof.
  intros Hd. induction s as [s IH] using closer_ind. intros rx g Hw Hi.
  assert (R := wp_recv_with b u (recover (retries_left s)) s _ (fun err s' w' => wp_recover b u _ err s' w') Hi).
  apply wp_run in R as (w1 & [s1 [chunk err]] & Er & Hi1). cbn [fst] in Hi1.
  assert (Hp1 : prices w1 = prices g.(gw_world)). { pose proof (stable_Recv s g.(gw_world)) as Hs. unfold Recv in Hs. by rewrite Er in Hs. }
  assert (Hc : err = None -> closer s s1) by (intros He; apply (Recv_closer s _ _ _ Er He)).
  assert (Ha : err = None -> is_Some chunk) by (intros He; apply (recv_with_answered _ _ (fun e s' => recover_answered _ e s') _ _ _ Er He)).
  assert (Step : forall fuel, forward (S fuel) deliver note s rx g
    = hbind (fun _ => (after_loop g.(gw_obs) w1 [] g, Val (s1, (chunk, err)))) (fun '(s, got) => match got with
      | (_, Some err) => hret (s, rx, if is_EOF err then AtEOF else Broken err)
      | (None, None) => hpanic
      | (Some chunk, None) => let+ ok := deliver chunk in
          if ok then forward fuel deliver note s (note chunk rx) else hret (s, note chunk rx, Unwritten)
      end) g).
  { intros fuel. cbn [forward]. unfold hbind at 1. unfold on_client at 1, Recv. rewrite Er. by rewrite after_loop_world. }
  destruct err as [err|].
  - exists 1%nat, s1, [], err, g.(gw_obs), w1. split_and!; [|by cbn [read_all]; unfold bind, Recv; rewrite Er|done|done].
    intros [|fuel] Hf; [lia|]. rewrite Step. by destruct chunk.
  - destruct (Ha eq_refl) as [c ->]. destruct (Hd c (after_loop g.(gw_obs) w1 [] g) Hw) as [o1 Ed]. rewrite after_loop_twice in Ed.
    destruct (IH s1 (Hc eq_refl) (note c rx) (after_loop o1 w1 (frame c) g)) as (n & s' & chunks & err & o & w & Hn & He & Hi' & Hp);
      [by apply send_room|done|].
    exists (S n), s', (c :: chunks), err, o, w. split_and!; [|cbn [read_all]; unfold bind, Recv; rewrite Er; cbn in He; by rewrite He|done|by rewrite Hp].
    intros [|fuel] Hf; [lia|]. rewrite Step. unfold hbind. cbn beta iota. rewrite Ed. cbn beta iota. rewrite Hn by lia.
    by rewrite after_loop_twice.
Qed.

(** ** Writing events *)

Lemma write_ok o g : g.(gw_writer).(wr_room) = None -> write o g = (after_loop g.(gw_obs) g.(gw_world) [o] g, Val true).
Proof. intros Hw. unfold write, after_loop, send, Write. cbn. rewrite Hw. by destruct g. Qed.

Lemma send_encoded_ok x g :
  g.(gw_writer).(wr_room) = None -> send_encoded x g = (after_loop g.(gw_obs) g.(gw_world) (event_frame x) g, Val true).
Proof.
  intros Hw. destruct x as [err|data]; [by destruct g|]. cbn [send_encoded event_frame]. unfold write_event.
  unfold hbind. rewrite write_ok by done. cbn [negb]. rewrite write_ok by by apply send_room. cbn [negb].
  rewrite write_ok by by do 2 apply send_room. by rewrite !after_loop_twice.
Qed.

Definition chat_frame (chunk : StreamChunk) : list output := event_frame (marshal_chunk chunk).
Definition end_mark (e : stream_end) : list output := match e with AtEOF => [OText done_marker] | _ => [] end.

Lemma deliver_chat_ok payload : delivers (deliver_chat payload) chat_frame.
Proof.
  intros chunk g Hw. unfold deliver_chat, hbind, observe, hmodify. eexists. by rewrite send_encoded_ok by done.
Qed.

Lemma hwp_mark_done e (Q : unit -> gateway -> Prop) g :
  g.(gw_writer).(wr_room) = None -> Q tt (after_loop g.(gw_obs) g.(gw_world) (end_mark e) g) -> hwp (mark_done e) Q g.
Proof.
  intros Hw HQ. destruct e; cbn [mark_done end_mark] in *; [|apply hwp_ret; by destruct g..].
  apply hwp_bind. unfold hwp at 1. rewrite write_ok by done. by apply hwp_ret.
Qed.

Lemma prices_cost (w w' : @world Env Http RT P L C) model u :
  prices w' = prices w -> CalculateCost w'.(w_client) model u = CalculateCost w.(w_client) model u.
Proof. unfold prices, CalculateCost. by intros [= -> _]. Qed.

(** ** A stream from its opening to its end *)

(** Opening the stream and reading it until an error gives these chunks and this
    error, in the world the handler starts in. *)
Definition stream_gives (ctx : Ctx) (req : ChatRequest) (w : @world Env Http RT P L C) (chunks : list StreamChunk) (err : go_error) : Prop :=
  exists w1 s n w2 s', ChatCompletionStream ctx (Some req) w = (w1, Some (Some s, None))
    /\ read_all n s w1 = (w2, Some (s', (chunks, Some err))).

(** What the handler of a stream leaves: it was not opened, or it was forwarded and
    accounted for. *)
Inductive streamed (ctx : Ctx) (req : ChatRequest) (start : time) (requestID : string) (g g' : gateway) : Prop :=
| not_opened err o :
    (ChatCompletionStream ctx (Some req) g.(gw_world)).2 = Some (o, Some err) ->
    books g' = books g -> g'.(gw_writer) = error_written (upstream_error req.(q_Model) err) true -> streamed ctx req start requestID g g'
| forwarded chunks err latency :
    let rx := foldl (fun rx c => note_received c rx) nothing_received chunks in
    let u := stream_usage req rx.(rx_usage) rx.(rx_content) in
    stream_gives ctx req g.(gw_world) chunks err ->
    g'.(gw_writer) = send (concat (map chat_frame chunks) ++ end_mark (ended err)) (new_writer true None) ->
    posted ctx (account_input requestID req.(q_Model) CallTypeChatCompletion req.(q_User) req.(q_Tags) u
                  (CalculateCost g.(gw_world).(w_client) req.(q_Model) (Some u)) start latency) g g' ->
    streamed ctx req start requestID g g'.

Definition balanced g g' : Prop :=
  (forall x, in_flight x (trace g'.(gw_world)) = in_flight x (trace g.(gw_world)))
  /\ (forall k, in_use (manager g'.(gw_world)) k = in_use (manager g.(gw_world)) k).

Lemma settled_balanced b u g g' : settled b u g.(gw_world) -> settled b u g'.(gw_world) -> balanced g g'.
Proof. intros [A1 A2 A3 A4] [B1 B2 B3 B4]. split; congruence. Qed.

Lemma view_env w (e : Env) : view (w<|w_env := e|> : @world Env Http RT P L C) = view w.
Proof. done. Qed.

Lemma hwp_close_stream b u s (Q : unit -> gateway -> Prop) g :
  reader_inv b u s g.(gw_world) ->
  (forall w, settled b u w -> prices w = prices g.(gw_world) -> Q tt (g<|gw_world := w|>)) -> hwp (close_stream s) Q g.
Proof.
  intros Hi HQ. unfold close_stream. apply hwp_bind, hwp_on_client.
  eapply wp_mono; [apply (wp_stable prices); [apply stable_stream_Close|by apply (wp_stream_Close b u)]|].
  intros r w [[Hs _] Hp]. apply hwp_ret. by apply HQ.
Qed.

(** The end of the handler, after the loop. *)
Lemma finish_stream b u ctx req start id payload s chunks err o w g (Q : gateway -> Prop) :
  g.(gw_writer) = new_writer true None -> reader_inv b u s w -> prices w = prices g.(gw_world) ->
  stream_gives ctx req g.(gw_world) chunks err ->
  let rx := foldl (fun rx c => note_received c rx) nothing_received chunks in
  (forall g', settled b u g'.(gw_world) -> streamed ctx req start id g g' -> Q g') ->
  hwp (let+ s := (let+ _ := mark_done (ended err) in
                  let+ (usage, cost) := bill_stream ctx req CallTypeChatCompletion req.(q_Tags) start id rx in
                  let+ _ := observePost ((bill_payload usage cost payload)<|pl_Response := LText rx.(rx_content)|>) (streamErr (ended err)) in
                  hret s) in
       close_stream s) (fun _ => Q) (after_loop o w (concat (map chat_frame chunks)) g).
Proof.
  intros Hw Hi Hp He rx HQ. apply hwp_bind, hwp_bind, hwp_mark_done; [apply send_room; by rewrite Hw|].
  rewrite after_loop_twice. apply hwp_bind. unfold bill_stream. apply hwp_bind, hwp_quiet; [apply quiet_since|]. intros o1 e1 latency.
  cbv zeta. set (us := stream_usage _ _ _). apply hwp_bind, hwp_bill. intros b2 e2 Hpost. apply hwp_ret.
  apply hwp_bind, hwp_quiet; [apply quiet_observePost|]. intros o3 e3 []. apply hwp_ret.
  apply (hwp_close_stream b u); [eapply inv_core; [..|exact Hi]; done|]. intros w4 Hs4 Hp4. apply HQ; [done|].
  eapply (forwarded _ _ _ _ _ _ chunks err latency); [done|by rewrite <- Hw|].
  fold rx us. rewrite <- (prices_cost g.(gw_world) w) by done. eapply posted_books; [| |exact Hpost]; same_books.
Qed.

(** C14: A stream is forwarded, accounted for once, and gives back what it took.  A
    handler of a chat stream, on a connection of the caller that holds and can be
    flushed, returns, whatever the connections to the providers do.  Either
    [ChatCompletionStream] gives an error: the caller gets that error, and the books
    are as they were.  Or it opens a stream: what the caller gets is one event for each
    chunk that reading the stream until an error gives (none for a chunk that cannot be
    encoded), in order, followed by the end marker when that error is the end of the
    stream and by nothing when it is another; and the usage, the one that these chunks
    report or the estimate from their text, is posted once with its price.  In both
    cases the requests in flight and the permits in use are as they were.  (For a router
    that does not panic and plug-ins whose first stream hook keeps a request.) *)
Theorem chat_stream_served ctx req start id payload g :
  sems_ok (manager g.(gw_world)) -> Forall keeps_stream g.(gw_world).(w_client).(cl_pipeline).(plugins) ->
  g.(gw_writer) = new_writer true None ->
  exists n g', (forall fuel, (n <= fuel)%nat -> handleStreamResponse fuel ctx req start id payload g = (g', Val tt))
    /\ balanced g g' /\ streamed ctx req start id g g'.
Proof.
  intros Hm Hpl Hw. set (b := fun x => in_flight x (trace g.(gw_world))). set (u := in_use (manager g.(gw_world))).
  assert (Hb : settled b u g.(gw_world)) by (split; try done; intros k; by apply in_use_nonneg).
  pose proof (wp_stable prices _ _ _ (stable_ChatCompletionStream ctx (Some req)) (wp_ChatCompletionStream b u ctx (Some req) _ Hb Hpl)) as R.
  apply wp_run in R as (w1 & opened & Er & Ho & Hp1).
  assert (Step : forall fuel, handleStreamResponse fuel ctx req start id payload g
    = (hbind (fun _ => (after_loop g.(gw_obs) w1 [] g, Val opened)) (fun opened => match opened with
       | (_, Some err) => observe_error payload err (upstream_error req.(q_Model) err)
       | (None, None) => hpanic
       | (Some s, None) => let+ s :=
           (let+ (s, rx, e) := forward fuel (deliver_chat payload) note_received s nothing_received in
            let+ _ := mark_done e in
            let+ (usage, cost) := bill_stream ctx req CallTypeChatCompletion req.(q_Tags) start id rx in
            let+ _ := observePost ((bill_payload usage cost payload)<|pl_Response := LText rx.(rx_content)|>) (streamErr e) in
            hret s) in
           close_stream s
       end)) g).
  { intros fuel. unfold handleStreamResponse, with_stream. unfold hbind at 1. unfold on_client at 1. rewrite Er, after_loop_world.
    destruct opened as [[s|] [err|]]; try done. unfold hbind at 1, hgets. cbn beta iota.
    assert (Hf : (after_loop g.(gw_obs) w1 [] g).(gw_writer).(wr_flusher) = true) by exact (f_equal wr_flusher Hw). by rewrite Hf. }
  destruct opened as [[s|] [err|]]; cbn [opening] in Ho; [done| | |done].
  - destruct (forward_spec (deliver_chat payload) chat_frame note_received b u s (deliver_chat_ok payload) nothing_received
      (after_loop g.(gw_obs) w1 [] g)) as (n & s' & chunks & err & o & w2 & Hn & He & Hi & Hp2); [exact (f_equal wr_room Hw)|done|].
    destruct (hwp_unit _ _ _ (finish_stream b u ctx req start id payload s' chunks err o w2 g
      (fun g' => balanced g g' /\ streamed ctx req start id g g') Hw Hi ltac:(by rewrite Hp2)
      ltac:(by exists w1, s, n, w2, s')
      (fun g' Hs Hst => conj (settled_balanced b u g g' Hb Hs) Hst))) as (g' & Eg & Hq).
    exists n, g'. split; [|exact Hq]. intros fuel Hf. rewrite Step. unfold hbind at 1. cbn beta iota. rewrite <- Eg.
    unfold hbind at 1. unfold hbind at 1. rewrite Hn by done. by rewrite after_loop_twice.
  - assert (R : hwp (observe_error payload err (upstream_error req.(q_Model) err))
      (fun _ g' => balanced g g' /\ streamed ctx req start id g g') (after_loop g.(gw_obs) w1 [] g)).
    { apply (hwp_observe_error _ _ _ true); [done|]. intros o e. split; [|by eapply not_opened; rewrite ?Er].
      apply (settled_balanced b u); [done|]. eapply settled_view; [|exact Ho]. reflexivity. }
    apply hwp_unit in R as (g' & Eg & Hq). exists 0%nat, g'. split; [|exact Hq]. intros fuel _. rewrite Step. exact Eg.
Qed.
End Streams.

#[local] Existing Instances Gate.json Gate.api_json Gate.tools Gate.storage.

(** Two chunks and the end: two events and the marker, and the key spends the price
    of the estimate. *)
Lemma chat_stream_served_witness :
  let g := Gate.gateway Gate.bare None [Demo.answer 200 ("a" +:+ newline +:+ "b" +:+ newline +:+ "[DONE]" +:+ newline)] in
  let r := Gate.ask "gpt-4o" in
  let req := Demo.request "gpt-4o" in
  let payload := buildChatObservabilityPayload r req 0 "q1" in
  let g1 := (handleStreamResponse 5 r.(hq_ctx) req 0 "q1" payload g).1 in
  (exists n g', (forall fuel, (n <= fuel)%nat -> handleStreamResponse fuel r.(hq_ctx) req 0 "q1" payload g = (g', Val tt))
     /\ balanced g g' /\ streamed r.(hq_ctx) req 0 "q1" g g')
  /\ g1.(gw_writer).(wr_out)
     = [OText "data: "; OText "a"; OText (newline +:+ newline); OText "data: "; OText "b"; OText (newline +:+ newline); OText done_marker]
  /\ Gate.spent g1 = Some (f64_of_Z 15).
Proof.
  intros g r req payload g1. split; [|vm_compute; by split].
  apply (chat_stream_served r.(hq_ctx) req 0 "q1" payload g); [apply map_Forall_empty|constructor|done].
Defined.

(** * Budgets across requests

    The gateway with its engine over the in-memory storage: an answer that takes a
    key to its budget closes the gateway to the key. *)
From S2P Require Import AuthStoreProofs AuthMiddleware.
Import MemoryAuth MemoryIdempotency.

Section Budget.
Context (ord : gset string -> list string).
Context {Env Http RT P L C IP Net T GL Enf I MCP : Type}.
Context `{!Network Env Http} `{!RouterI RT} `{!DistributedLimiter L} `{!CacheI C} `{!Tokenizer} `{!Codec} `{!Json} `{!ApiJson}.
Context `{!NetLib IP Net} `{!RateLimiter T} `{!DistributedLimiter GL} `{!CasbinEngine Enf} `{!IdempotencyStore I} `{!ToolManager MCP}.
#[local] Instance storage : AuthStore MemoryStore := memory_auth_store ord.

#[local] Abbreviation gateway := (@gateway Env Http RT P L C MemoryStore Net T GL Enf I MCP).
Implicit Types g : gateway.

(** The engine after an answer was posted. *)
Lemma posted_engine ctx input g g' e :
  posted ctx input g g' -> g.(gw_governance) = Some e -> e.(e_config).(g_Enabled) = true ->
  exists t1 t2 t3, g'.(gw_governance) = Some (account t1 t2 t3 e ctx.(c_auth) input).
Proof.
  intros (g0 & g1 & [= E1 _] & [= E2 _] & Er) Hg En. rewrite <- E2. rewrite Hg in E1.
  assert (R : hwp (accountUsage ctx input) (fun _ g1 => exists t1 t2 t3, g1.(gw_governance) = Some (account t1 t2 t3 e ctx.(c_auth) input)) g0).
  { unfold accountUsage. apply hwp_bind, hwp_gets. rewrite E1. do 3 (apply hwp_bind, hwp_clock; intros ? ?). apply hwp_modify.
    unfold Account. rewrite En. cbn. by eexists _, _, _. }
  unfold hwp in R. by rewrite Er in R.
Qed.

(** Over its budget, a key is refused by the handlers' check. *)
Lemma over_budget_closes r model user tags callType g e a k :
  g.(gw_governance) = Some e -> e.(e_config).(g_Enabled) = true ->
  r.(hq_ctx).(c_auth) = Some a -> a.(a_APIKey) = Some k -> Key_IsOverBudget k = true ->
  exists err g', evaluateGovernance r model user tags callType g = (g', Val (Some err))
    /\ g'.(gw_world).(w_client) = g.(gw_world).(w_client) /\ handler_store g' = handler_store g.
Proof.
  intros Hg En Hr Hk Ho.
  assert (R : hwp (evaluateGovernance r model user tags callType) (fun v g' => is_Some v
    /\ g'.(gw_world).(w_client) = g.(gw_world).(w_client) /\ handler_store g' = handler_store g) g).
  { unfold evaluateGovernance. apply hwp_bind, hwp_gets. destruct (model_allowed _ _ _); [apply hwp_ret; by eauto|].
    apply hwp_bind, hwp_gets. rewrite Hg. apply hwp_bind, hwp_clock. intros t env. rewrite Hr.
    set (input := {| i_Request := _; i_Model := _; i_CallType := _; i_EndUserID := _; i_Tags := _ |}).
    destruct (over_budget_refused t e a input k En Hk Ho) as [err Herr]. pose proof (Evaluate_store t e (Some a) input) as Hse.
    destruct (Evaluate t e (Some a) input) as [e1 v]. cbn in Herr, Hse. subst v. apply hwp_bind, hwp_modify, hwp_ret.
    split_and!; [by eexists|done|]. unfold handler_store. cbn. by rewrite Hg. }
  apply hwp_run in R as (g' & v & Er & [err ->] & Hc1 & Hc2). eauto.
Qed.

(** C15: A spent budget closes the gateway.  Over the in-memory storage, with its two
    maps of keys in agreement and governance on: when an answer is posted that is not
    a repetition for the idempotency store, has a positive cost and takes the spend of
    the key of the request to its budget, the record of the key in the storage is over
    its budget.  And in this state, and in every other one in which the record of the
    key is over its budget (that is, until the spend is reset or the key updated), a
    request that was authenticated with the record as it is stored is refused, before
    any provider is called, whatever model, end user, tags and call type it has. *)
Theorem spent_budget_closes_gateway ctx input g g' e s key k :
  posted ctx input g g' -> g.(gw_governance) = Some e -> e.(e_store) = Some s -> keys_ok s ->
  e.(e_config).(g_Enabled) = true -> ctx_key ctx.(c_auth) = Some key -> abs s !! key.(k_ID) = Some k ->
  (forall t, first_time t e input = true) -> (input.(c_Usage).(g_Cost) <=.? fzero) = false ->
  over_budget k.(k_MaxBudget) (k.(k_SpentBudget) ⊞ input.(c_Usage).(g_Cost)) = true ->
  let spent g1 := exists e1 s1 k1, g1.(gw_governance) = Some e1 /\ e1.(e_config).(g_Enabled) = true /\ e1.(e_store) = Some s1
    /\ ms_GetAPIKeyByID key.(k_ID) s1 = inr (Some k1) /\ Key_IsOverBudget k1 = true in
  spent g'
  /\ forall g1 r a model user tags callType, spent g1 -> r.(hq_ctx).(c_auth) = Some a ->
     (forall s1, handler_store g1 = Some s1 -> ms_GetAPIKeyByID key.(k_ID) s1 = inr a.(a_APIKey)) ->
     exists err g2, evaluateGovernance r model user tags callType g1 = (g2, Val (Some err))
       /\ g2.(gw_world).(w_client) = g1.(gw_world).(w_client) /\ handler_store g2 = handler_store g1.
Proof.
  intros Hp Hg Hs W En Ha Hk Hf Hc Ho spent. split.
  - destruct (posted_engine _ _ _ _ _ Hp Hg En) as (t1 & t2 & t3 & Hg').
    destruct (account_overspends ord t1 t2 t3 e ctx.(c_auth) key k input s) as (s' & k' & E1 & E2 & E3 & E4); try done.
    eexists _, s', k'. split_and!; [exact Hg'|exact (eq_trans (f_equal g_Enabled E4) En)|done|done|done].
  - intros g1 r a model user tags callType (e1 & s1 & k1 & G1 & En1 & S1 & K1 & O1) Hr Hst.
    apply (over_budget_closes r model user tags callType g1 e1 a k1); try done.
    specialize (Hst s1). unfold handler_store in Hst. rewrite G1 in Hst. specialize (Hst S1). congruence.
Qed.
End Budget.

#[local] Existing Instances Gate.json Gate.api_json Gate.tools Gate.storage.

(** The key of the storage has a budget of one, and the answer costs fifteen: the
    same question, asked again with the key as it is now, is refused. *)
Lemma spent_budget_closes_gateway_witness :
  let g := Gate.gateway Gate.bare None [Demo.answer 200 "hello"; Demo.answer 200 "again"] in
  let input := account_input "q1" "gpt-4o" CallTypeChatCompletion "" [] (Gate.usage 10 5) (f64_of_Z 15) 0 1 in
  let g' := (accountUsage (Gate.ask "gpt-4o").(hq_ctx) input g).1 in
  let again := (Gate.ask "gpt-4o")<|hq_ctx ::= fun c => c<|c_auth := Some (keyCtx (charge_key "gpt-4o" (f64_of_Z 15) gov_key) None)|>|> in
  exists err g'', evaluateGovernance again "gpt-4o" "" [] CallTypeChatCompletion g' = (g'', Val (Some err))
    /\ g''.(gw_world).(w_client) = g'.(gw_world).(w_client) /\ handler_store g'' = handler_store g'.
Proof.
  intros g input g' again.
  destruct (spent_budget_closes_gateway elements (Gate.ask "gpt-4o").(hq_ctx) input g g' (demo_engine None) gov_store gov_key gov_key)
    as [Hs Hr].
  - by exists g, g'.
  - done.
  - done.
  - apply gov_keys_ok.
  - done.
  - done.
  - by vm_compute.
  - done.
  - by vm_compute.
  - by vm_compute.
  - apply (Hr g' again (keyCtx (charge_key "gpt-4o" (f64_of_Z 15) gov_key) None)); [exact Hs|done|].
    intros s1 E1. vm_compute in E1. injection E1 as <-. by vm_compute.
Defined.
