(* ===== verification/RedisStats.v ===== *)
(** * Statistics and counters in Redis ([routers/redis_stats_store.go], [redis_scripts.go], [round_robin_store.go])

    Each operation is a script that the server runs as one step, at the instant of
    its own clock.  Redis is a parameter: the class [RedisServer] runs a command on a
    key and reads a key, and [RedisServerLaws] says what the documentation says of
    the commands: on the entry of the key, [redis_apply]; on the others, nothing.  A number in a
    script is a float that is written so that it reads back; the keys that scripts
    make from bucket numbers are decimal. *)
From Stdlib Require Import Ascii.
From stdpp Require Import pretty.
From S2P Require Import Prelude Float64 Errors RouterTypes StatsStore BaseRouter Strategies.

(** ** Redis *)

Inductive redis_value := RNum (n : Z) | RList (l : list f64) | RHash (h : gmap string Z).

(** A key with its value and its deadline, as stored. *)
Abbreviation redis_entry := (option (redis_value * option time)).

Definition live (t : time) (e : redis_entry) : redis_entry :=
  match e with
  | Some (_, Some dl) => if t <? dl then e else None
  | _ => e
  end.

(** [LTRIM] is from the first element to [stop]; [EXPIRE] takes seconds. *)
Inductive redis_cmd :=
| LPUSH (x : f64) | LTRIM (stop : Z) | EXPIRE (s : Z) | HINCRBY (f : string) (n : Z) | HSET (f : string) (n : Z)
| INCRBY (n : Z) | SET (n : Z) | DEL.

Definition fits64 (n : Z) : bool := (- two63 <=? n) && (n <? two63).

(** A list that is empty is gone. *)
Definition list_entry (l : list f64) (dl : option time) : redis_entry := match l with [] => None | _ => Some (RList l, dl) end.

(** The entry after a command on a live entry; [None] when the command fails. *)
Definition redis_apply (t : time) (c : redis_cmd) (e : redis_entry) : option redis_entry :=
  match c, e with
  | LPUSH x, None => Some (Some (RList [x], None))
  | LPUSH x, Some (RList l, dl) => Some (Some (RList (x :: l), dl))
  | LTRIM _, None => Some None
  | LTRIM stop, Some (RList l, dl) =>
      let n := if stop <? 0 then Z.of_nat (length l) + stop + 1 else stop + 1 in Some (list_entry (take (Z.to_nat n) l) dl)
  | EXPIRE _, None => Some None
  | EXPIRE s, Some (v, _) => Some (if s <=? 0 then None else Some (v, Some (t + s * Second)))
  | HINCRBY f n, None => Some (Some (RHash {[f := n]}, None))
  | HINCRBY f n, Some (RHash h, dl) =>
      let m := default 0 (h !! f) + n in if fits64 m then Some (Some (RHash (<[f := m]> h), dl)) else None
  | HSET f n, None => Some (Some (RHash {[f := n]}, None))
  | HSET f n, Some (RHash h, dl) => Some (Some (RHash (<[f := n]> h), dl))
  | INCRBY n, None => Some (Some (RNum n, None))
  | INCRBY n, Some (RNum m, dl) => if fits64 (m + n) then Some (Some (RNum (m + n), dl)) else None
  | SET n, _ => Some (Some (RNum n, None))
  | DEL, _ => Some None
  | _, _ => None
  end.

Class RedisServer (R : Type) := {
  rd_run : time -> redis_cmd -> string -> R -> R;
  rd_read : time -> string -> R -> option redis_value;
  rd_scan : time -> string -> R -> list string;
}.

Class RedisServerLaws (R : Type) `{RedisServer R} := {
  rd_entry : R -> string -> redis_entry;
  read_spec t k r : rd_read t k r = fst <$> live t (rd_entry r k);
  run_spec t c k r e : redis_apply t c (live t (rd_entry r k)) = Some e -> rd_entry (rd_run t c k r) k = e;
  run_other t c k r k' : k' <> k -> rd_entry (rd_run t c k r) k' = rd_entry r k';
}.

(** ** The store *)

Record RedisStatsStore := {
  keyPrefix : string;
  rs_maxLatencyListSize : Z;
  usageTTL : duration;
  failureWindowMins : Z;
  failureBucketSecs : Z;
  failureThreshold : f64;
  minRequests : Z;
  cooldownPeriod : duration;
  immediateOn429 : bool;
  singleDeployMinReq : Z;
}.

(** Without options. *)
Definition NewRedisStatsStore : RedisStatsStore :=
  {| keyPrefix := "llmux:router:stats"; rs_maxLatencyListSize := 10; usageTTL := 120 * Second;
     failureWindowMins := defaultFailureWindowMinutes; failureBucketSecs := defaultFailureBucketSeconds;
     failureThreshold := DefaultConfig.(FailureThresholdPercent); minRequests := DefaultConfig.(MinRequestsForThreshold);
     cooldownPeriod := DefaultConfig.(CooldownPeriod); immediateOn429 := DefaultConfig.(ImmediateCooldownOn429);
     singleDeployMinReq := defaultSingleDeploymentFailureMinReq |}.

Section Keys.
Context (st : RedisStatsStore) (ctx : context) (id : string).

Definition deploymentKeyPrefix : string :=
  let scope := TenantScopeFromContext ctx in
  let hashTag := if String.eqb scope "" then id else scope +:+ ":" +:+ id in
  st.(keyPrefix) +:+ ":{" +:+ hashTag +:+ "}".

Definition latencyKey : string := deploymentKeyPrefix +:+ ":latency".
Definition ttftKey : string := deploymentKeyPrefix +:+ ":ttft".
Definition countersKey : string := deploymentKeyPrefix +:+ ":counters".
Definition cooldownKey : string := deploymentKeyPrefix +:+ ":cooldown".
Definition successKeyPrefix : string := deploymentKeyPrefix +:+ ":successes:".
Definition failureKeyPrefix : string := deploymentKeyPrefix +:+ ":failures:".
Definition usageKeyPrefix : string := deploymentKeyPrefix +:+ ":usage:".
End Keys.

Definition failureWindowSize (st : RedisStatsStore) : Z :=
  if st.(failureWindowMins) <=? 0 then defaultFailureWindowMinutes else st.(failureWindowMins).

Definition bucketSeconds (st : RedisStatsStore) : Z :=
  if st.(failureBucketSecs) <=? 0 then defaultFailureBucketSeconds else st.(failureBucketSecs).

Definition bucketTTLSeconds (st : RedisStatsStore) : Z :=
  let windowSeconds := wrap64 (failureWindowSize st * bucketSeconds st) in windowSeconds +! bucketSeconds st.

Definition whole_seconds (d : duration) : Z := int_of_f64 (seconds d).

Definition cooldownTTLSeconds (st : RedisStatsStore) : Z :=
  let cooldownSeconds := whole_seconds st.(cooldownPeriod) in
  if cooldownSeconds <=? 0 then 0 else cooldownSeconds +! 10.

(** The identifier in the key of counters: with a tenant scope, or with a colon of
    its own, what is after the last colon. *)
Fixpoint after_last_colon (s acc : string) : string :=
  match s with
  | EmptyString => acc
  | String c s' => if Ascii.eqb c ":" then after_last_colon s' "" else after_last_colon s' (acc +:+ String c "")
  end.

Definition trim_braces (s : string) : string :=
  let n := String.length s in
  if String.prefix "{" s && (1 <=? n)%nat && String.eqb (String.substring (n - 1) 1 s) "}" then String.substring 1 (n - 2) s else s.

Definition extractDeploymentID (st : RedisStatsStore) (key : string) : string :=
  let start := (String.length st.(keyPrefix) + 1)%nat in
  let suffix := String.length ":counters" in
  if (String.length key <=? start + suffix)%nat then ""
  else after_last_colon (trim_braces (String.substring start (String.length key - suffix - start) key)) "".

(** ** The scripts *)

Section Scripts.
Context {R : Type} `{!RedisServer R}.

(** Commands on a key, in order.  Redis ends a script at a command that fails; here the
    commands after it would run.  A command fails on a key of another type, or when a
    count leaves 64 bits; the laws of a server say nothing of what it does then, and the
    theorems are for keys that only these scripts write and counts that fit. *)
Definition rd_run_all (t : time) (k : string) (cs : list redis_cmd) (r : R) : R := foldl (fun r c => rd_run t c k r) r cs.

Definition rolling (t : time) (k : string) (x : f64) (max_size : Z) (r : R) : R :=
  rd_run_all t k [LPUSH x; LTRIM (max_size - 1); EXPIRE 3600] r.

Definition bucket_key (prefix : string) (bucket : Z) : string := prefix +:+ pretty bucket.

Definition recordSuccessScript (st : RedisStatsStore) (ctx : context) (id : string) (t : time) (latency ttft : f64) (tokens : Z) (r : R) : R :=
  let now := unix t in
  let usage_key := bucket_key (usageKeyPrefix st ctx id) (now / 60) in
  let success_key := bucket_key (successKeyPrefix st ctx id) (now / bucketSeconds st) in
  let r := rolling t (latencyKey st ctx id) latency st.(rs_maxLatencyListSize) r in
  let r := if fzero <.? ttft then rolling t (ttftKey st ctx id) ttft st.(rs_maxLatencyListSize) r else r in
  let r := rd_run_all t (countersKey st ctx id)
             [HINCRBY "total_requests" 1; HINCRBY "success_count" 1; HSET "last_request_time" now; EXPIRE 3600] r in
  let r := rd_run_all t usage_key [HINCRBY "tpm" tokens; HINCRBY "rpm" 1; EXPIRE (whole_seconds st.(usageTTL))] r in
  rd_run_all t success_key [INCRBY 1; EXPIRE (bucketTTLSeconds st)] r.

Definition number_at (t : time) (k : string) (r : R) : Z := match rd_read t k r with Some (RNum n) => n | _ => 0 end.

(** The totals of the last [window] buckets up to [bucket]. *)
Definition window_sum (prefix : string) (t : time) (window bucket : Z) (r : R) : Z :=
  foldl (fun acc i => acc + number_at t (bucket_key prefix (bucket - Z.of_nat i)) r) 0 (seq 0 (Z.to_nat window)).

(** The decision on a cooldown from the totals of the window. *)
Definition script_cooldown (st : RedisStatsStore) (single : bool) (status success failure : Z) : bool :=
  let total := success + failure in
  let immediate := (status =? 401) || (status =? 404) || (status =? 408)
                   || ((status =? 429) && st.(immediateOn429) && negb single) in
  immediate ||
  (if single then (st.(singleDeployMinReq) <=? total) && (failure =? total) && (0 <? total)
   else (st.(minRequests) <=? total) && (0 <? total) && (st.(failureThreshold) <.? (f64_of_Z failure ⊘ f64_of_Z total))).

Definition recordFailureScript (st : RedisStatsStore) (ctx : context) (id : string) (t : time) (timeout single : bool) (status : Z) (r : R) : R :=
  let now := unix t in
  let r := rd_run_all t (countersKey st ctx id)
             [HINCRBY "total_requests" 1; HINCRBY "failure_count" 1; HSET "last_request_time" now; EXPIRE 3600] r in
  let r := if timeout then rolling t (latencyKey st ctx id) (f64_of_Z 1000000) st.(rs_maxLatencyListSize) r else r in
  let bucket := now / bucketSeconds st in
  let r := rd_run_all t (bucket_key (failureKeyPrefix st ctx id) bucket) [INCRBY 1; EXPIRE (bucketTTLSeconds st)] r in
  let total_success := window_sum (successKeyPrefix st ctx id) t (failureWindowSize st) bucket r in
  let total_failure := window_sum (failureKeyPrefix st ctx id) t (failureWindowSize st) bucket r in
  let cooldown_seconds := whole_seconds st.(cooldownPeriod) in
  if script_cooldown st single status total_success total_failure && (0 <? cooldown_seconds)
  then rd_run_all t (cooldownKey st ctx id) [SET (now + cooldown_seconds); EXPIRE (cooldownTTLSeconds st)] r
  else r.

Definition hash_at (t : time) (k : string) (r : R) : gmap string Z := match rd_read t k r with Some (RHash h) => h | _ => ∅ end.
Definition list_at (t : time) (k : string) (r : R) : list f64 := match rd_read t k r with Some (RList l) => l | _ => [] end.
Definition field (h : gmap string Z) (f : string) : Z := default 0 (h !! f).

Definition incrementActiveRequestsScript (counters_key : string) (t : time) (r : R) : R :=
  rd_run_all t counters_key [HINCRBY "active_requests" 1; EXPIRE 3600] r.

Definition decrementActiveRequestsScript (counters_key : string) (t : time) (r : R) : R :=
  if 0 <? field (hash_at t counters_key r) "active_requests"
  then rd_run_all t counters_key [HINCRBY "active_requests" (-1); EXPIRE 3600] r
  else r.

(** The latencies, the times to the first token, the counters, the usage of the
    minute, and the minute. *)
Definition getStatsScript (st : RedisStatsStore) (ctx : context) (id : string) (t : time) (r : R)
  : list f64 * list f64 * gmap string Z * gmap string Z * Z :=
  let minute := unix t / 60 in
  (list_at t (latencyKey st ctx id) r, list_at t (ttftKey st ctx id) r, hash_at t (countersKey st ctx id) r,
   hash_at t (bucket_key (usageKeyPrefix st ctx id) minute) r, minute).

Definition setCooldownScript (cooldown_key : string) (t : time) (until_timestamp ttl : Z) (r : R) : R :=
  rd_run_all t cooldown_key [SET until_timestamp; EXPIRE ttl] r.

Definition delete_keys (t : time) (ks : list string) (r : R) : R := foldl (fun r k => rd_run t DEL k r) r ks.

Definition deleteStatsScript (keys patterns : list string) (t : time) (r : R) : R :=
  foldl (fun r pattern => delete_keys t (rd_scan t pattern r) r) (delete_keys t keys r) patterns.

(** ** The operations, when the server answers *)

Definition rs_IncrementActiveRequests (st : RedisStatsStore) (ctx : context) (id : string) (t : time) (r : R) : R :=
  incrementActiveRequestsScript (countersKey st ctx id) t r.

Definition rs_DecrementActiveRequests (st : RedisStatsStore) (ctx : context) (id : string) (t : time) (r : R) : R :=
  decrementActiveRequestsScript (countersKey st ctx id) t r.

Definition rs_RecordSuccess (st : RedisStatsStore) (ctx : context) (id : string) (t : time) (m : ResponseMetrics) (r : R) : R :=
  let ttftMs := if 0 <? m.(TimeToFirstToken) then f64_of_Z (milliseconds m.(TimeToFirstToken)) else fzero in
  recordSuccessScript st ctx id t (f64_of_Z (milliseconds m.(Latency))) ttftMs m.(TotalTokens) r.

(** The status is that of the error itself, not of one that it wraps. *)
Definition rs_RecordFailureWithOptions (st : RedisStatsStore) (ctx : context) (id : string) (t : time) (err : go_error) (single : bool) (r : R) : R :=
  let status := match type_assert err with Some e => e.(StatusCode) | None => 0 end in
  recordFailureScript st ctx id t ((status =? 408) || (status =? 504)) single status r.

Definition rs_RecordFailure (st : RedisStatsStore) (ctx : context) (id : string) (t : time) (err : go_error) (r : R) : R :=
  rs_RecordFailureWithOptions st ctx id t err false r.

(** [now] is the caller's clock. *)
Definition rs_SetCooldown (st : RedisStatsStore) (ctx : context) (id : string) (now t : time) (until : time) (r : R) : R :=
  let ttl := time_sub until now in
  if ttl <=? 0 then rd_run t DEL (cooldownKey st ctx id) r
  else setCooldownScript (cooldownKey st ctx id) t (unix until) (whole_seconds ttl +! 10) r.

Definition rs_GetCooldownUntil (st : RedisStatsStore) (ctx : context) (id : string) (t : time) (r : R) : time :=
  match rd_read t (cooldownKey st ctx id) r with Some (RNum n) => n * Second | _ => zero_time end.

(** [t] is the instant of the script, [t'] that of the read of the cooldown. *)
Definition rs_GetStats (st : RedisStatsStore) (ctx : context) (id : string) (t t' : time) (r : R) : store_err + DeploymentStats :=
  let '(latencies, ttfts, counters, usage, minute) := getStatsScript st ctx id t r in
  let cooldown := rs_GetCooldownUntil st ctx id t' r in
  let exists_ := negb (bool_decide (counters = ∅)) || negb (length latencies =? 0)%nat || negb (length ttfts =? 0)%nat
                 || negb (bool_decide (usage = ∅)) || negb (is_zero cooldown) in
  if negb exists_ then inl ErrStatsNotFound
  else inr (zeroStats<|MaxLatencyListSize := st.(rs_maxLatencyListSize)|><|CurrentMinuteKey := pretty minute|>
    <|LatencyHistory := latencies|><|TTFTHistory := ttfts|>
    <|TotalRequests := field counters "total_requests"|><|SuccessCount := field counters "success_count"|>
    <|FailureCount := field counters "failure_count"|><|ActiveRequests := field counters "active_requests"|>
    <|LastRequestTime := if 0 <? field counters "last_request_time" then field counters "last_request_time" * Second else zero_time|>
    <|CurrentMinuteTPM := field usage "tpm"|><|CurrentMinuteRPM := field usage "rpm"|>
    <|AvgLatencyMs := calculateAverageLatency latencies|><|AvgTTFTMs := calculateAverageLatency ttfts|>
    <|CooldownUntil := cooldown|>).

Definition rs_ListDeployments (st : RedisStatsStore) (t : time) (r : R) : list string :=
  keep (fun id => negb (String.eqb id "")) (map (extractDeploymentID st) (rd_scan t (st.(keyPrefix) +:+ ":*:counters") r)).

Definition rs_DeleteStats (st : RedisStatsStore) (ctx : context) (id : string) (t : time) (r : R) : R :=
  deleteStatsScript [latencyKey st ctx id; ttftKey st ctx id; countersKey st ctx id; cooldownKey st ctx id]
    [usageKeyPrefix st ctx id +:+ "*"; successKeyPrefix st ctx id +:+ "*"; failureKeyPrefix st ctx id +:+ "*"] t r.

(** ** The round-robin counters *)

Definition roundRobinKeyPrefix : string := "llmux:rr:".
Definition roundRobinKeyTTL : duration := 24 * Hour.

Definition rr_NextIndex (t : time) (key : string) (modulo : Z) (r : R) : R * option Z :=
  if modulo <=? 0 then (r, None)
  else
    let fullKey := roundRobinKeyPrefix +:+ key in
    let r := rd_run t (INCRBY 1) fullKey r in
    let n := number_at t fullKey r in
    (rd_run t (EXPIRE (roundRobinKeyTTL / Second)) fullKey r, Some ((n - 1) %! modulo)).

Definition rr_Reset (t : time) (key : string) (r : R) : R := rd_run t DEL (roundRobinKeyPrefix +:+ key) r.
End Scripts.

(** * The statistics in Redis refine a log of outcomes

    Buckets with a time to live, kept by scripts at the server, hold the outcomes of
    the window; and the script decides on a cooldown as the router does. *)
From Stdlib Require Import Sorted.

From S2P Require Import FailureWindow.

(** ** Keys *)

#[export] Instance string_append_inj s : Inj eq eq (String.append s).
Proof. intros a b. induction s as [|c s IH]; cbn; [done|]. intros [= E]. by apply IH. Qed.

Section Keys.
Context (st : RedisStatsStore) (ctx : context) (id : string).
#[local] Abbreviation sk b := (bucket_key (successKeyPrefix st ctx id) b).
#[local] Abbreviation fk b := (bucket_key (failureKeyPrefix st ctx id) b).

Lemma bucket_key_inj prefix b b' : bucket_key prefix b = bucket_key prefix b' -> b = b'.
Proof. unfold bucket_key. intros E. by apply (inj (String.append _)), (inj pretty) in E. Qed.

(** The prefix of the keys of successes or of failures. *)
Definition kind_prefix (ok : bool) : string := if ok then successKeyPrefix st ctx id else failureKeyPrefix st ctx id.

Lemma kind_keys ok ok' b b' : bucket_key (kind_prefix ok) b = bucket_key (kind_prefix ok') b' -> ok = ok' /\ b = b'.
Proof.
  intros E. destruct ok, ok'; cbn in E; try (split; [done|by eapply bucket_key_inj]).
  all: unfold bucket_key, successKeyPrefix, failureKeyPrefix in E; rewrite !append_assoc in E; by apply (inj (String.append _)) in E.
Qed.

(** The other keys are none of them. *)
Definition other_key (k : string) : Prop := forall ok b, k <> bucket_key (kind_prefix ok) b.

Lemma other_suffix s :
  (forall (ok : bool) (b : Z), s <> (if ok then ":successes:" else ":failures:") +:+ pretty b) -> other_key (deploymentKeyPrefix st ctx id +:+ s).
Proof.
  intros Hs ok b E. destruct ok; unfold bucket_key, kind_prefix, successKeyPrefix, failureKeyPrefix in E;
    rewrite append_assoc in E; apply (inj (String.append _)) in E; [by apply (Hs true b)|by apply (Hs false b)].
Qed.

Lemma other_keys :
  other_key (latencyKey st ctx id) /\ other_key (ttftKey st ctx id) /\ other_key (countersKey st ctx id) /\ other_key (cooldownKey st ctx id)
  /\ forall b, other_key (bucket_key (usageKeyPrefix st ctx id) b).
Proof.
  split_and!; [apply other_suffix; by intros []..|]. intros b. unfold bucket_key, usageKeyPrefix. rewrite append_assoc.
  apply other_suffix. by intros [] ?.
Qed.
End Keys.

Section Refinement.
Context {R : Type} `{!RedisServer R} `{!RedisServerLaws R}.
Implicit Types r : R.

Lemma run_all_other t k cs r k' : k' <> k -> rd_entry (rd_run_all t k cs r) k' = rd_entry r k'.
Proof. intros Hk. revert r. induction cs as [|c cs IH]; intros r; cbn; [done|]. unfold rd_run_all in IH. by rewrite IH, run_other. Qed.

Lemma rolling_other t k x n r k' : k' <> k -> rd_entry (rolling t k x n r) k' = rd_entry r k'.
Proof. apply run_all_other. Qed.

(** One more in a bucket that is alive or new. *)
Lemma bump_entry t k ttl r n dl :
  0 < ttl -> live t (rd_entry r k) = (if n =? 0 then None else Some (RNum n, dl)) -> 0 <= n < two63 - 1 ->
  rd_entry (rd_run_all t k [INCRBY 1; EXPIRE ttl] r) k = Some (RNum (n + 1), Some (t + ttl * Second)).
Proof.
  intros Ht Hl Hn. cbn. set (r1 := rd_run t (INCRBY 1) k r).
  assert (E1 : exists dl', rd_entry r1 k = Some (RNum (n + 1), dl') /\ (dl' = None \/ (dl' = dl /\ live t (rd_entry r k) = Some (RNum n, dl)))).
  { destruct (Z.eqb_spec n 0) as [->|Hz].
    - exists None. split; [|by left]. apply run_spec. by rewrite Hl.
    - exists dl. split; [|by right]. apply run_spec. rewrite Hl. cbn. unfold fits64.
      replace (- two63 <=? n + 1) with true by (unfold two63 in *; lia). by replace (n + 1 <? two63) with true by lia. }
  destruct E1 as (dl' & E1 & Hdl). apply run_spec.
  assert (El : live t (rd_entry r1 k) = Some (RNum (n + 1), dl')).
  { rewrite E1. cbn. destruct Hdl as [->|[-> Ha]]; [done|]. destruct dl as [d|]; [|done].
    destruct (rd_entry r k) as [[v [d'|]]|]; cbn in Ha; try done. destruct (Z.ltb_spec t d'); [|done]. injection Ha as -> ->.
    by replace (t <? d) with true by lia. }
  rewrite El. cbn. by replace (ttl <=? 0) with false by lia.
Qed.

(** ** Outcomes *)

Inductive rs_event := RsSuccess (m : ResponseMetrics) | RsFailure (err : go_error) (single : bool).
Definition rs_ok (e : rs_event) : bool := match e with RsSuccess _ => true | RsFailure _ _ => false end.

Context (st : RedisStatsStore) (ctx : context) (id : string).
Context (sane : (failureWindowSize st + 1) * bucketSeconds st < two63).

Definition rs_record r (e : time * rs_event) : R :=
  match e.2 with
  | RsSuccess m => rs_RecordSuccess st ctx id e.1 m r
  | RsFailure err single => rs_RecordFailureWithOptions st ctx id e.1 err single r
  end.

Definition bucket_of (t : time) : Z := unix t / bucketSeconds st.

(** The outcomes of one kind in buckets that satisfy a test. *)
Definition outcomes (ok : bool) (f : Z -> bool) (evs : list (time * rs_event)) : Z :=
  count_if (fun e => Bool.eqb (rs_ok e.2) ok && f (bucket_of e.1)) evs.

Lemma outcomes_snoc ok f evs e :
  outcomes ok f (evs ++ [e]) = outcomes ok f evs + Z_of_bool (Bool.eqb (rs_ok e.2) ok && f (bucket_of e.1)).
Proof. unfold outcomes, count_if, keep. rewrite List.filter_app, length_app. cbn. destruct (_ && _); cbn; lia. Qed.

Lemma outcomes_range ok f evs : 0 <= outcomes ok f evs <= Z.of_nat (length evs).
Proof.
  induction evs as [|e evs IH] using rev_ind; [done|]. rewrite outcomes_snoc, length_app. cbn [length]. unfold Z_of_bool. destruct (_ && _); lia.
Qed.

Lemma bucket_seconds_pos : 0 < bucketSeconds st.
Proof. unfold bucketSeconds. destruct (Z.leb_spec (failureBucketSecs st) 0); [done|lia]. Qed.

Lemma window_size_pos : 0 < failureWindowSize st.
Proof. unfold failureWindowSize. destruct (Z.leb_spec (failureWindowMins st) 0); [done|lia]. Qed.

Lemma bucket_ttl : bucketTTLSeconds st = (failureWindowSize st + 1) * bucketSeconds st.
Proof.
  pose proof bucket_seconds_pos. pose proof window_size_pos. unfold bucketTTLSeconds. rewrite (wrap64_id (_ * _)) by (unfold in_i64; nia).
  rewrite wrap64_id by (unfold in_i64; nia). lia.
Qed.

(** The instants of a bucket. *)
Lemma bucket_bounds t b : bucket_of t = b -> b * bucketSeconds st * Second <= t < (b + 1) * bucketSeconds st * Second.
Proof.
  pose proof bucket_seconds_pos as Hb. intros <-. unfold bucket_of, unix, Second.
  pose proof (Z.div_mod t 1000000000 ltac:(lia)). pose proof (Z.mod_pos_bound t 1000000000 ltac:(lia)).
  pose proof (Z.div_mod (t / 1000000000) (bucketSeconds st) ltac:(lia)). pose proof (Z.mod_pos_bound (t / 1000000000) (bucketSeconds st) ltac:(lia)).
  nia.
Qed.

(** What the keys of the buckets hold after some outcomes: their number, alive for
    the time to live after the last one. *)
Definition bucket_holds (evs : list (time * rs_event)) r (ok : bool) (b : Z) : Prop :=
  let n := outcomes ok (Z.eqb b) evs in
  let e := rd_entry r (bucket_key (kind_prefix st ctx id ok) b) in
  if n =? 0 then e = None
  else exists tl, e = Some (RNum n, Some (tl + bucketTTLSeconds st * Second)) /\ bucket_of tl = b.

Lemma bucket_live evs r ok b t :
  bucket_holds evs r ok b -> bucket_of t - failureWindowSize st < b <= bucket_of t ->
  let n := outcomes ok (Z.eqb b) evs in
  exists dl, live t (rd_entry r (bucket_key (kind_prefix st ctx id ok) b)) = if n =? 0 then None else Some (RNum n, dl).
Proof.
  intros Hh Hb n. unfold bucket_holds in Hh. fold n in Hh. destruct (n =? 0); [rewrite Hh; by exists None|].
  destruct Hh as (tl & -> & Htl). eexists. cbn. rewrite bucket_ttl.
  pose proof (bucket_bounds tl b Htl). pose proof (bucket_bounds t _ eq_refl). pose proof bucket_seconds_pos.
  destruct (Z.ltb_spec t (tl + (failureWindowSize st + 1) * bucketSeconds st * Second)); [done|]. exfalso. unfold Second in *. nia.
Qed.

(** ** A record *)

#[local] Abbreviation bk ok b := (bucket_key (kind_prefix st ctx id ok) b).
#[local] Abbreviation one_more := [INCRBY 1; EXPIRE (bucketTTLSeconds st)].

(** The buckets are as they were. *)
Definition buckets_kept r r' : Prop := forall ok b, rd_entry r' (bk ok b) = rd_entry r (bk ok b).

Lemma kept_run_all t k cs r : other_key st ctx id k -> buckets_kept r (rd_run_all t k cs r).
Proof. intros Hk ok b. apply run_all_other. intros E. by apply (Hk ok b). Qed.

Lemma kept_trans r1 r2 r3 : buckets_kept r1 r2 -> buckets_kept r2 r3 -> buckets_kept r1 r3.
Proof. intros H12 H23 ok b. by rewrite H23. Qed.

Lemma kept_if (c : bool) r r1 r2 : buckets_kept r r1 -> buckets_kept r r2 -> buckets_kept r (if c then r1 else r2).
Proof. by destruct c. Qed.

(** One script: the other keys, one more in the bucket of the instant, the other keys. *)
Lemma record_shape r t e :
  exists r1, buckets_kept r r1 /\ buckets_kept (rd_run_all t (bk (rs_ok e) (bucket_of t)) one_more r1) (rs_record r (t, e)).
Proof.
  destruct (other_keys st ctx id) as (Kl & Kt & Kc & Kd & Ku). destruct e as [m|err single]; cbn [rs_ok].
  - eexists. split; [|by intros ok b].
    eapply kept_trans; [|by apply kept_run_all]. eapply kept_trans; [|by apply kept_run_all].
    eapply kept_trans; [by apply (kept_run_all t (latencyKey st ctx id))|].
    apply kept_if; [by apply kept_run_all|done].
  - eexists. split; [|apply kept_if; [by apply kept_run_all|done]].
    eapply kept_trans; [by apply (kept_run_all t (countersKey st ctx id))|].
    apply kept_if; [by apply kept_run_all|done].
Qed.

Lemma bump_holds evs r r1 t e :
  Z.of_nat (length evs) < two63 - 1 -> (forall ok b, bucket_holds evs r ok b) -> buckets_kept r r1 ->
  forall ok b, bucket_holds (evs ++ [(t, e)]) (rd_run_all t (bk (rs_ok e) (bucket_of t)) one_more r1) ok b.
Proof.
  intros Hl Hh Hk ok b. unfold bucket_holds. rewrite outcomes_snoc. cbn [fst snd].
  destruct (Bool.eqb_spec (rs_ok e) ok) as [Eo|No]; [destruct (Z.eqb_spec b (bucket_of t)) as [Eb|Nb]|].
  - subst ok b. cbn [andb Z_of_bool]. pose proof (outcomes_range (rs_ok e) (Z.eqb (bucket_of t)) evs) as Hr.
    destruct (bucket_live evs r (rs_ok e) (bucket_of t) t (Hh _ _)) as (dl & Hd); [pose proof window_size_pos; lia|].
    rewrite <- Hk in Hd. pose proof bucket_seconds_pos. pose proof window_size_pos.
    assert (Ht : 0 < bucketTTLSeconds st) by (rewrite bucket_ttl; nia).
    rewrite (bump_entry _ _ _ _ _ _ Ht Hd) by lia.
    rewrite (proj2 (Z.eqb_neq _ 0)) by lia. by exists t.
  - cbn [andb Z_of_bool]. rewrite Z.add_0_r, run_all_other, Hk; [by apply Hh|]. by intros [_ ?]%kind_keys.
  - cbn [andb Z_of_bool]. rewrite Z.add_0_r, run_all_other, Hk; [by apply Hh|]. intros [? _]%kind_keys. congruence.
Qed.

Lemma holds_kept evs r r' ok b : buckets_kept r r' -> bucket_holds evs r ok b -> bucket_holds evs r' ok b.
Proof. intros Hk. unfold bucket_holds. by rewrite Hk. Qed.

Lemma record_holds evs r t e :
  Z.of_nat (length evs) < two63 - 1 -> (forall ok b, bucket_holds evs r ok b) ->
  forall ok b, bucket_holds (evs ++ [(t, e)]) (rs_record r (t, e)) ok b.
Proof.
  intros Hl Hh ok b. destruct (record_shape r t e) as (r1 & Hk & Hk'). eapply holds_kept; [exact Hk'|]. by eapply bump_holds.
Qed.

(** A server that has no bucket of the deployment. *)
Definition no_buckets r : Prop := forall ok b, rd_entry r (bk ok b) = None.

Definition rs_record_all r (evs : list (time * rs_event)) : R := foldl rs_record r evs.

Lemma record_all_holds evs r : no_buckets r -> Z.of_nat (length evs) < two63 -> forall ok b, bucket_holds evs (rs_record_all r evs) ok b.
Proof.
  intros Hn. unfold rs_record_all. induction evs as [|[t e] evs IH] using rev_ind; intros Hl ok b; [apply Hn|].
  rewrite length_app in Hl. cbn in Hl. rewrite foldl_snoc. apply record_holds; [lia|]. apply IH. lia.
Qed.

(** ** The totals of the window *)

Definition in_redis_window (now : time) (b : Z) : bool := (bucket_of now - failureWindowSize st <? b) && (b <=? bucket_of now).

Lemma outcomes_add ok f g h evs :
  (forall b, Z_of_bool (h b) = Z_of_bool (f b) + Z_of_bool (g b)) -> outcomes ok h evs = outcomes ok f evs + outcomes ok g evs.
Proof.
  intros E. induction evs as [|e evs IH] using rev_ind; [done|]. rewrite !outcomes_snoc, IH. specialize (E (bucket_of e.1)).
  destruct (Bool.eqb _ ok); cbn [andb]; unfold Z_of_bool in *; lia.
Qed.

Lemma outcomes_none ok f evs : (forall b, f b = false) -> outcomes ok f evs = 0.
Proof.
  intros E. induction evs as [|e evs IH] using rev_ind; [done|]. rewrite outcomes_snoc, IH, E. by rewrite andb_false_r.
Qed.

Lemma outcomes_ext ok f g evs : (forall b, f b = g b) -> outcomes ok f evs = outcomes ok g evs.
Proof. intros E. unfold outcomes, count_if, keep. do 2 f_equal. apply List.filter_ext. intros e. by rewrite E. Qed.

Lemma number_at_bucket evs r ok b t :
  bucket_holds evs r ok b -> bucket_of t - failureWindowSize st < b <= bucket_of t -> number_at t (bk ok b) r = outcomes ok (Z.eqb b) evs.
Proof.
  intros Hh Hb. unfold number_at. rewrite read_spec. destruct (bucket_live evs r ok b t Hh Hb) as (dl & ->).
  by destruct (Z.eqb_spec (outcomes ok (Z.eqb b) evs) 0) as [->|].
Qed.

Lemma window_sum_log evs r ok t :
  (forall ok b, bucket_holds evs r ok b) ->
  window_sum (kind_prefix st ctx id ok) t (failureWindowSize st) (bucket_of t) r = outcomes ok (in_redis_window t) evs.
Proof.
  intros Hh. unfold window_sum, in_redis_window. pose proof window_size_pos as Hw.
  assert (G : forall n, Z.of_nat n <= failureWindowSize st ->
    foldl (fun acc i => acc + number_at t (bk ok (bucket_of t - Z.of_nat i)) r) 0 (seq 0 n)
    = outcomes ok (fun b => (bucket_of t - Z.of_nat n <? b) && (b <=? bucket_of t)) evs).
  { induction n as [|n IH]; intros Hn.
    - symmetry. apply outcomes_none. intros b. destruct (Z.ltb_spec (bucket_of t - Z.of_nat 0) b), (Z.leb_spec b (bucket_of t)); try done. lia.
    - rewrite seq_S, foldl_snoc, IH by lia. cbn [Nat.add]. rewrite (number_at_bucket evs r ok _ t) by (apply Hh || lia).
      symmetry. apply outcomes_add. intros b. unfold Z_of_bool.
      destruct (Z.ltb_spec (bucket_of t - Z.of_nat (S n)) b), (Z.ltb_spec (bucket_of t - Z.of_nat n) b), (Z.leb_spec b (bucket_of t)),
        (Z.eqb_spec (bucket_of t - Z.of_nat n) b); cbn; lia. }
  rewrite G by lia. apply outcomes_ext. intros b. rewrite Z2Nat.id by lia. done.
Qed.

(** ** The decision on a cooldown *)

Definition status_of (err : go_error) : Z := match type_assert err with Some e => e.(StatusCode) | None => 0 end.

Lemma cooldown_key_others : cooldownKey st ctx id <> countersKey st ctx id /\ cooldownKey st ctx id <> latencyKey st ctx id.
Proof. split; intros E; by apply (inj (String.append _)) in E. Qed.

Lemma cooldown_entry_set t n ttl r :
  0 < ttl -> rd_entry (rd_run_all t (cooldownKey st ctx id) [SET n; EXPIRE ttl] r) (cooldownKey st ctx id) = Some (RNum n, Some (t + ttl * Second)).
Proof.
  intros Ht. cbn. apply run_spec. rewrite (run_spec t (SET n) _ _ (Some (RNum n, None))) by done. cbn. by replace (ttl <=? 0) with false by lia.
Qed.

(** What a failure after some outcomes leaves under the key of the cooldown. *)
Lemma failure_cooldown_entry evs r t err single (evs' := evs ++ [(t, RsFailure err single)]) (cs := whole_seconds st.(cooldownPeriod)) :
  Z.of_nat (length evs) < two63 - 1 -> (forall ok b, bucket_holds evs r ok b) -> cs + 10 < two63 ->
  rd_entry (rs_RecordFailureWithOptions st ctx id t err single r) (cooldownKey st ctx id)
  = if script_cooldown st single (status_of err) (outcomes true (in_redis_window t) evs') (outcomes false (in_redis_window t) evs') && (0 <? cs)
    then Some (RNum (unix t + cs), Some (t + (cs + 10) * Second)) else rd_entry r (cooldownKey st ctx id).
Proof.
  intros Hl Hh Hcs. destruct (other_keys st ctx id) as (Kl & Kt & Kc & Kd & Ku). destruct cooldown_key_others as [Nc Nl].
  unfold rs_RecordFailureWithOptions. fold (status_of err). unfold recordFailureScript. fold cs.
  match goal with |- context [rd_run_all t (bucket_key _ _) _ ?x] => set (r1 := x) end.
  assert (Hk : buckets_kept r r1).
  { unfold r1. eapply kept_trans; [by apply (kept_run_all t (countersKey st ctx id))|]. apply kept_if; [by apply kept_run_all|done]. }
  assert (Hc : rd_entry r1 (cooldownKey st ctx id) = rd_entry r (cooldownKey st ctx id)).
  { unfold r1. case_match; unfold rolling; by rewrite ?run_all_other. }
  fold (bucket_of t). set (r2 := rd_run_all t (bucket_key (failureKeyPrefix st ctx id) (bucket_of t)) one_more r1).
  pose proof (bump_holds evs r r1 t (RsFailure err single) Hl Hh Hk) as Hh2. cbn [rs_ok kind_prefix] in Hh2. fold r2 evs' in Hh2.
  rewrite (window_sum_log evs' r2 true t Hh2 : window_sum (successKeyPrefix st ctx id) _ _ _ _ = _).
  rewrite (window_sum_log evs' r2 false t Hh2 : window_sum (failureKeyPrefix st ctx id) _ _ _ _ = _).
  destruct (script_cooldown _ _ _ _ _); cbn [andb]; [|by unfold r2; rewrite run_all_other by (apply (Kd false)); rewrite Hc].
  destruct (Z.ltb_spec 0 cs) as [Hp|]; [|by unfold r2; rewrite run_all_other by (apply (Kd false)); rewrite Hc].
  unfold cooldownTTLSeconds. fold cs. replace (cs <=? 0) with false by lia. rewrite wrap64_id by (unfold in_i64; unfold two63 in *; lia).
  apply cooldown_entry_set. lia.
Qed.

(** C26: The buckets in Redis refine the log of outcomes.  From a server that has no
    bucket of the deployment, after any outcomes, at any instants of its clock, the
    totals that a script adds up are the numbers of successes and of failures whose
    bucket is in the window: the times to live lose no outcome of the window, and no
    older one is counted. *)
Theorem redis_window_refines_log r evs ok t :
  no_buckets r -> Z.of_nat (length evs) < 2 ^ 53 ->
  window_sum (kind_prefix st ctx id ok) t (failureWindowSize st) (bucket_of t) (rs_record_all r evs) = outcomes ok (in_redis_window t) evs.
Proof. intros Hn Hl. apply window_sum_log. apply record_all_holds; [done|]. unfold two63. lia. Qed.

(** ** The router's own window *)

Section Local.
Context (cfg : Config).

Definition local_record (s : statsEntry) (e : time * rs_event) : statsEntry :=
  match e.2 with
  | RsSuccess m => successEntry cfg e.1 e.1 m s
  | RsFailure err single => (failureEntry cfg single e.1 e.1 err s).1
  end.

Definition local_all (evs : list (time * rs_event)) : statsEntry := foldl local_record (newStatsEntry cfg) evs.

Definition as_outcome (e : time * rs_event) : outcome_event := (e.1, rs_ok e.2).

Lemma record_window_cong a b now ok :
  a.(FailureBuckets) = b.(FailureBuckets) -> (recordWindow a now ok).(FailureBuckets) = (recordWindow b now ok).(FailureBuckets).
Proof. intros E. unfold recordWindow. rewrite <- E. by repeat (case_match; cbn; rewrite <- ?E). Qed.

Lemma local_record_buckets s e : (local_record s e).(FailureBuckets) = (recordWindow s e.1 (rs_ok e.2)).(FailureBuckets).
Proof.
  destruct e as [t [m|err single]]; unfold local_record; cbn [fst snd rs_ok].
  - unfold successEntry, updateUsageStats, recordWindowSuccess. cbn. by apply record_window_cong.
  - unfold failureEntry, startCooldown, countFailure, recordWindowFailure, penalise. repeat (case_match; cbn); by apply record_window_cong.
Qed.

Lemma local_all_buckets evs : (local_all evs).(FailureBuckets) = (record_all (newStatsEntry cfg) (map as_outcome evs)).(FailureBuckets).
Proof.
  unfold local_all, record_all. induction evs as [|e evs IH] using rev_ind; [done|].
  rewrite map_app, !foldl_app. cbn [foldl map]. rewrite local_record_buckets. by apply record_window_cong.
Qed.

Definition local_totals (evs : list (time * rs_event)) (now : time) : Z * Z := windowTotals (local_all evs) now.

(** The router's decision is a function of the totals of its window. *)
Definition local_cooldown (single : bool) (err : go_error) (totals : Z * Z) : bool :=
  default false (immediateCooldown cfg single <$> errors_As err) ||
  let total := totals.1 +! totals.2 in
  if total =? 0 then false
  else if single then (defaultSingleDeploymentFailureMinReq <=? total) && (totals.2 =? total)
  else if total <? cfg.(MinRequestsForThreshold) then false
  else cfg.(FailureThresholdPercent) <.? (f64_of_Z totals.2 ⊘ f64_of_Z total).

Lemma window_totals_cong a b now : a.(FailureBuckets) = b.(FailureBuckets) -> windowTotals a now = windowTotals b now.
Proof. intros E. unfold windowTotals. by rewrite E. Qed.

Lemma failure_entry_decides single t nowCool err evs :
  (failureEntry cfg single t nowCool err (local_all evs)).2 = local_cooldown single err (local_totals (evs ++ [(t, RsFailure err single)]) t).
Proof.
  unfold failureEntry, local_cooldown, local_totals. destruct (default false _); [done|]. cbn [snd orb]. unfold shouldCooldownByFailureRate.
  match goal with |- (let '(_, _) := windowTotals ?a _ in _) = _ => rewrite (window_totals_cong a (local_all (evs ++ [(t, RsFailure err single)])) t) end.
  - by destruct (windowTotals (local_all _) t) as [s f].
  - transitivity (countFailure t (local_all evs)).(FailureBuckets).
    + destruct (errors_As err); [|done]. unfold penalise. by case_match.
    + unfold local_all at 2. rewrite foldl_snoc, local_record_buckets. by apply record_window_cong.
Qed.

(** The store is set up as the router is. *)
Record set_up_alike : Prop := {
  alike_window : failureWindowSize st = defaultFailureWindowMinutes;
  alike_bucket : bucketSeconds st = defaultFailureBucketSeconds;
  alike_threshold : st.(failureThreshold) = cfg.(FailureThresholdPercent);
  alike_min : st.(minRequests) = cfg.(MinRequestsForThreshold);
  alike_429 : st.(immediateOn429) = cfg.(ImmediateCooldownOn429);
  alike_single : st.(singleDeployMinReq) = defaultSingleDeploymentFailureMinReq;
}.
Context (alike : set_up_alike).

(** Outcomes in the order of one clock, after the epoch. *)
Definition in_order (evs : list (time * rs_event)) : Prop :=
  StronglySorted (fun a b => a.1 <= b.1) evs /\ Forall (fun e => 0 <= e.1) evs.

Lemma minute_of t : 0 <= t -> bucketMinute t = bucket_of t.
Proof.
  intros Ht. unfold bucketMinute, bucket_of. rewrite alike.(alike_bucket). unfold defaultFailureBucketSeconds. apply Z.quot_div_nonneg; [|done].
  unfold unix, Second. by apply Z.div_pos.
Qed.

Lemma minute_mono a b : 0 <= a <= b -> 0 <= bucketMinute a <= bucketMinute b.
Proof.
  intros H. rewrite !minute_of by lia. unfold bucket_of. rewrite alike.(alike_bucket). unfold unix, Second, defaultFailureBucketSeconds.
  split; [do 2 (apply Z.div_pos; [|done]); lia|]. do 2 (apply Z.div_le_mono; [done|]). lia.
Qed.

Lemma in_order_chronological evs : in_order evs -> chronological (map as_outcome evs).
Proof.
  intros [Hs Hp]. split.
  - induction Hs as [|e evs Hs IH Hle]; [constructor|]. inversion_clear Hp as [|? ? He Hp']. constructor; [by apply IH|].
    apply Forall_map. eapply Forall_impl; [exact Hle|]. intros b Hb. by apply minute_mono.
  - apply Forall_map. eapply Forall_impl; [exact Hp|]. intros e He. by apply (minute_mono e.1 e.1).
Qed.

Lemma tally_outcomes ok evs t :
  Forall (fun e => 0 <= e.1 <= t) evs -> tally ok (in_window t) (map as_outcome evs) = outcomes ok (in_redis_window t) evs.
Proof.
  induction evs as [|e evs IH] using rev_ind; [done|]. rewrite Forall_app, Forall_singleton. intros [Hf [He0 Het]].
  assert (E : in_window t (ev_minute (as_outcome e)) = in_redis_window t (bucket_of e.1)).
  { pose proof (minute_mono e.1 t ltac:(lia)). unfold in_window, in_redis_window, ev_minute, as_outcome. cbn [fst].
    rewrite alike.(alike_window), <- !minute_of by lia. apply eq_iff_eq_true. rewrite andb_true_iff, Z.ltb_lt, !Z.leb_le. destruct e as [te k]. cbn [fst] in *. lia. }
  rewrite map_app, outcomes_snoc, <- IH by done. cbn [map]. by rewrite tally_snoc, E.
Qed.

Lemma local_totals_outcomes evs t :
  in_order evs -> Forall (fun e => e.1 <= t) evs -> 0 <= t -> Z.of_nat (length evs) < two63 ->
  local_totals evs t = (outcomes true (in_redis_window t) evs, outcomes false (in_redis_window t) evs).
Proof.
  intros Ho Hle Ht Hl. unfold local_totals. rewrite (window_totals_cong _ _ t (local_all_buckets evs)), window_totals_log.
  - assert (Hf : Forall (fun e => 0 <= e.1 <= t) evs) by (apply Forall_and; split; [apply Ho|done]).
    unfold sliding_totals. cbn [fst snd]. rewrite !tally_outcomes by done.
    pose proof (outcomes_range true (in_redis_window t) evs). pose proof (outcomes_range false (in_redis_window t) evs).
    by rewrite !wrap64_id by (unfold in_i64, two63 in *; lia).
  - by apply in_order_chronological.
  - apply Forall_map. apply Forall_forall. intros [te k] He. unfold ev_minute, as_outcome. cbn [fst].
    destruct Ho as [_ Hp]. rewrite Forall_forall in Hp, Hle. apply minute_mono. specialize (Hp _ He). specialize (Hle _ He). cbn [fst] in *. lia.
  - by apply (minute_mono t t).
Qed.

Lemma decisions_agree single err s f :
  type_assert err = errors_As err -> 0 <= s -> 1 <= f -> s + f < two63 ->
  script_cooldown st single (status_of err) s f = local_cooldown single err (s, f).
Proof.
  intros Ha Hs Hf Hl. unfold script_cooldown, local_cooldown, status_of. rewrite Ha. cbn [fst snd].
  rewrite wrap64_id by (unfold in_i64, two63 in *; lia). destruct alike as [_ _ -> -> -> ->].
  f_equal.
  - destruct (errors_As err) as [e|]; cbn; [|by destruct single, (ImmediateCooldownOn429 cfg)]. unfold immediateCooldown.
    destruct (Z.eqb_spec (StatusCode e) 401), (Z.eqb_spec (StatusCode e) 404), (Z.eqb_spec (StatusCode e) 408), (Z.eqb_spec (StatusCode e) 429),
      (ImmediateCooldownOn429 cfg), single; done.
  - rewrite (proj2 (Z.eqb_neq (s + f) 0)) by lia. rewrite (proj2 (Z.ltb_lt 0 (s + f))) by lia. rewrite !andb_true_r.
    destruct single; [done|]. rewrite Z.ltb_antisym. by destruct (_ <=? _).
Qed.

Lemma outcome_sum evs f : outcomes true f evs + outcomes false f evs <= Z.of_nat (length evs).
Proof.
  induction evs as [|e evs IH] using rev_ind; [done|]. rewrite !outcomes_snoc, length_app. cbn [length]. unfold Z_of_bool.
  destruct (rs_ok e.2), (f (bucket_of e.1)); cbn; lia.
Qed.

(** A failure is in the window of its own instant. *)
Lemma failure_in_window evs t err single : 1 <= outcomes false (in_redis_window t) (evs ++ [(t, RsFailure err single)]).
Proof.
  rewrite outcomes_snoc. pose proof (outcomes_range false (in_redis_window t) evs). cbn [rs_ok snd fst Bool.eqb].
  unfold in_redis_window at 2. pose proof window_size_pos. rewrite (proj2 (Z.ltb_lt _ _)), (proj2 (Z.leb_le _ _)) by lia. cbn. lia.
Qed.

(** C18: The store in Redis decides on cooldowns as the router does on its own.  A store
    that is set up as the router is, fed with the same outcomes in the order of one
    clock, puts the deployment in cooldown after a failure exactly when the router's
    own statistics would, until the whole second in which the period ends; otherwise it
    leaves the cooldown as it was.  This is for an error that is not wrapped and a
    period of at least a second. *)
Theorem redis_decides_like_router r evs t nowCool err single t' (evs' := evs ++ [(t, RsFailure err single)]) (cs := whole_seconds st.(cooldownPeriod)) :
  no_buckets r -> in_order evs' -> Z.of_nat (length evs') < 2 ^ 53 -> type_assert err = errors_As err ->
  1 <= cs < 2 ^ 53 -> t' < t + (cs + 10) * Second ->
  rs_GetCooldownUntil st ctx id t' (rs_record_all r evs')
  = if (failureEntry cfg single t nowCool err (local_all evs)).2 then (unix t + cs) * Second
    else rs_GetCooldownUntil st ctx id t' (rs_record_all r evs).
Proof.
  intros Hn Ho Hl Ha Hcs Ht'. assert (Hl' : Z.of_nat (length evs) < two63 - 1) by (unfold evs' in Hl; rewrite length_app in Hl; cbn in Hl; unfold two63; lia).
  assert (Hlt : Z.of_nat (length evs') < two63) by (unfold two63; lia).
  destruct Ho as [Hs Hp]. pose proof Hs as Hs'. apply StronglySorted_app in Hs' as (Hle & _ & _).
  assert (Ht : 0 <= t) by (unfold evs' in Hp; rewrite Forall_app, Forall_singleton in Hp; apply Hp).
  assert (Hle' : Forall (fun e => e.1 <= t) evs').
  { unfold evs'. rewrite Forall_app, Forall_singleton. split; [|done]. apply Forall_forall. intros e He. by apply (Hle e (t, RsFailure err single) He), list_elem_of_singleton. }
  rewrite failure_entry_decides. fold evs'. rewrite local_totals_outcomes by done.
  set (s := outcomes true (in_redis_window t) evs'). set (f := outcomes false (in_redis_window t) evs').
  assert (Hf : 1 <= f) by apply failure_in_window.
  pose proof (outcome_sum evs' (in_redis_window t)) as Hsum. fold s f in Hsum. pose proof (outcomes_range true (in_redis_window t) evs') as [Hs0 _].
  fold s in Hs0. rewrite <- decisions_agree by (done || lia).
  unfold rs_GetCooldownUntil. rewrite !read_spec. unfold rs_record_all, evs'. rewrite foldl_snoc. cbn [rs_record snd fst].
  fold (rs_record_all r evs). rewrite (failure_cooldown_entry evs) by (done || (apply record_all_holds; done || lia) || (unfold two63; lia)).
  fold evs' s f cs. rewrite (proj2 (Z.ltb_lt 0 cs)), andb_true_r by lia. destruct (script_cooldown _ _ _ _ _); [|done].
  cbn. by rewrite (proj2 (Z.ltb_lt t' _)).
Qed.
End Local.
End Refinement.

(** ** The round-robin counters *)

Section Turns.
Context {R : Type} `{!RedisServer R} `{!RedisServerLaws R}.
Implicit Types r : R.

(** The counter of a key at an instant; one that is not there is at zero. *)
Definition counter_at (t : time) (key : string) r (n : Z) : Prop :=
  exists dl, live t (rd_entry r (roundRobinKeyPrefix +:+ key)) = if n =? 0 then None else Some (RNum n, dl).

Lemma rr_step t key modulo r n t' :
  counter_at t key r n -> 0 <= n < two63 - 1 -> 0 < modulo -> t <= t' < t + roundRobinKeyTTL ->
  (rr_NextIndex t key modulo r).2 = Some (n mod modulo) /\ counter_at t' key (rr_NextIndex t key modulo r).1 (n + 1).
Proof.
  intros (dl & Hd) Hn Hm Ht. set (k := roundRobinKeyPrefix +:+ key) in *.
  pose proof (bump_entry t k (roundRobinKeyTTL / Second) r n dl ltac:(reflexivity) Hd Hn) as Hb.
  change (roundRobinKeyTTL / Second * Second) with roundRobinKeyTTL in Hb.
  assert (Hi : rd_read t k (rd_run t (INCRBY 1) k r) = Some (RNum (n + 1))).
  { rewrite read_spec. destruct (Z.eqb_spec n 0) as [->|Hz].
    - by rewrite (run_spec t (INCRBY 1) k r (Some (RNum 1, None))) by (by rewrite Hd).
    - rewrite (run_spec t (INCRBY 1) k r (Some (RNum (n + 1), dl))).
      + destruct (rd_entry r k) as [[v [d|]]|] eqn:Er; cbn in Hd; try done; [|by simplify_eq].
        destruct (Z.ltb_spec t d); simplify_eq. cbn. by rewrite (proj2 (Z.ltb_lt t d)).
      + rewrite Hd. cbn. unfold fits64. rewrite (proj2 (Z.leb_le _ _)), (proj2 (Z.ltb_lt _ _)) by (unfold two63 in *; lia). done. }
  unfold rr_NextIndex. rewrite (proj2 (Z.leb_gt modulo 0)) by lia. fold k. cbn [fst snd]. split.
  - unfold number_at. rewrite Hi. do 2 f_equal. rewrite Z.add_simpl_r. by rewrite Z.rem_mod_nonneg by lia.
  - exists (Some (t + roundRobinKeyTTL)). fold k. unfold rd_run_all in Hb. cbn [foldl] in Hb. rewrite Hb, (proj2 (Z.eqb_neq _ 0)) by lia. unfold live.
    by rewrite (proj2 (Z.ltb_lt t' _)) by lia.
Qed.

(** The indices that calls at some instants give. *)
Fixpoint turns (key : string) (modulo : Z) (ts : list time) r : list (option Z) :=
  match ts with
  | [] => []
  | t :: ts => let '(r, i) := rr_NextIndex t key modulo r in i :: turns key modulo ts r
  end.

(** Each call is less than a day after the one before it. *)
Inductive within_a_day : list time -> Prop :=
| day_nil : within_a_day []
| day_one t : within_a_day [t]
| day_cons t t' ts : t <= t' < t + roundRobinKeyTTL -> within_a_day (t' :: ts) -> within_a_day (t :: t' :: ts).

(** Instances that share the counter take turns: the calls, from whichever of them,
    give each index in its turn for as long as no day passes without one. *)
Theorem redis_round_robin_turns key modulo ts r n :
  within_a_day ts -> counter_at (hd 0 ts) key r n -> 0 <= n -> n + Z.of_nat (length ts) < two63 -> 0 < modulo ->
  turns key modulo ts r = (fun i => Some ((n + Z.of_nat i) mod modulo)) <$> seq 0 (length ts).
Proof.
  intros Hd. revert r n. induction Hd as [|t|t t' ts Ht Hd IH]; intros r n Hc Hn Hl Hm; [done|..]; cbn in Hl, Hc.
  - cbn. destruct (rr_step t key modulo r n t Hc ltac:(lia) Hm ltac:(unfold roundRobinKeyTTL, Hour, Minute, Second; lia)) as [Hi _].
    destruct (rr_NextIndex _ _ _ _) as [r' i]. cbn in Hi. by rewrite Hi, Z.add_0_r.
  - cbn [turns length seq fmap list_fmap]. destruct (rr_step t key modulo r n t' Hc ltac:(lia) Hm Ht) as [Hi Hc'].
    destruct (rr_NextIndex _ _ _ _) as [r' i]. cbn in Hi, Hc'. rewrite Hi, Z.add_0_r. f_equal.
    change (turns key modulo (t' :: ts) r' = (fun i => Some ((n + Z.of_nat i) mod modulo)) <$> seq 1 (length (t' :: ts))).
    rewrite (IH r' (n + 1) Hc') by (cbn; lia). rewrite <- fmap_S_seq, <- list_fmap_compose.
    apply list_fmap_ext. intros j x _. cbn. do 2 f_equal. lia.
Qed.
End Turns.

(** ** A server *)

Module Map.
Definition server : Type := gmap string (redis_value * option time).

Definition run (t : time) (c : redis_cmd) (k : string) (m : server) : server :=
  match redis_apply t c (live t (m !! k)) with
  | Some (Some e) => <[k := e]> m
  | Some None => delete k m
  | None => m
  end.

#[export] Instance server_ops : RedisServer server := {
  rd_run := run;
  rd_read t k m := fst <$> live t (m !! k);
  rd_scan t pattern m := [];
}.

#[export, refine] Instance server_laws : RedisServerLaws server := { rd_entry m k := m !! k }.
Proof.
  - done.
  - intros t c k m e E. cbn. unfold run. rewrite E. destruct e; [apply lookup_insert_eq|apply lookup_delete_eq].
  - intros t c k m k' Hk. cbn. unfold run. repeat case_match; [by apply (lookup_insert_ne m)|by apply (lookup_delete_ne m)|done].
Defined.
End Map.
#[local] Existing Instances Map.server_ops Map.server_laws.

Definition overloaded : go_error := ELLM (NewServiceUnavailableError "openai" "gpt-4o" "overloaded").
Definition bad_key : LLMError := NewAuthenticationError "openai" "gpt-4o" "invalid api key".

(** Five failures in two minutes. *)
Definition rough_patch : list (time * rs_event) :=
  (fun t => (t, RsFailure overloaded false)) <$> [600 * Second; 601 * Second; 630 * Second; 661 * Second; 662 * Second].

Lemma redis_window_refines_log_witness (st := NewRedisStatsStore) :
  window_sum (kind_prefix st Background "east" false) (900 * Second) (failureWindowSize st) (bucket_of st (900 * Second))
    (rs_record_all st Background "east" (∅ : Map.server) rough_patch) = 2.
Proof.
  rewrite redis_window_refines_log; [vm_compute; reflexivity|done| |vm_compute; reflexivity]. intros ok b. apply lookup_empty.
Defined.

Lemma redis_decides_like_router_witness :
  rs_GetCooldownUntil NewRedisStatsStore Background "east" (700 * Second)
    (rs_record_all NewRedisStatsStore Background "east" (∅ : Map.server) (rough_patch ++ [(663 * Second, RsFailure overloaded false)]))
  = 723 * Second.
Proof.
  rewrite (redis_decides_like_router NewRedisStatsStore Background "east" eq_refl DefaultConfig
    ltac:(by split) (∅ : Map.server) rough_patch (663 * Second) (663 * Second)).
  - vm_compute. reflexivity.
  - intros ok b. apply lookup_empty.
  - split; repeat constructor; vm_compute; discriminate.
  - vm_compute. reflexivity.
  - reflexivity.
  - split; vm_compute; [discriminate|reflexivity].
  - vm_compute. reflexivity.
Defined.

(** ** Where the two differ *)

(** A period of less than a second never puts a deployment in cooldown. *)
Theorem redis_subsecond_never_cools {R : Type} `{!RedisServer R} `{!RedisServerLaws R} st ctx id evs (r : R) t err single :
  (failureWindowSize st + 1) * bucketSeconds st < two63 -> no_buckets st ctx id r -> Z.of_nat (length evs) < 2 ^ 53 ->
  whole_seconds st.(cooldownPeriod) = 0 ->
  let r' := rs_record_all st ctx id r evs in
  rd_entry (rs_RecordFailureWithOptions st ctx id t err single r') (cooldownKey st ctx id) = rd_entry r' (cooldownKey st ctx id).
Proof.
  intros sane Hn Hl Hc r'. rewrite (failure_cooldown_entry st ctx id sane evs) by
    (rewrite ?Hc; done || (apply record_all_holds; done || (unfold two63; lia)) || (unfold two63; lia)).
  by rewrite Hc, andb_false_r.
Qed.

Lemma redis_subsecond_never_cools_witness
  (st := {| keyPrefix := "llmux"; rs_maxLatencyListSize := 10; usageTTL := 120 * Second; failureWindowMins := 5; failureBucketSecs := 60;
            failureThreshold := DefaultConfig.(FailureThresholdPercent); minRequests := 5; cooldownPeriod := 900 * Millisecond;
            immediateOn429 := true; singleDeployMinReq := 5 |}) :
  rd_entry (rs_RecordFailureWithOptions st Background "east" (600 * Second) (ELLM bad_key) false
    (rs_record_all st Background "east" (∅ : Map.server) [])) (cooldownKey st Background "east") = None.
Proof.
  rewrite redis_subsecond_never_cools; [vm_compute; reflexivity|done| |vm_compute; reflexivity|vm_compute; reflexivity].
  intros ok b. apply lookup_empty.
Defined.

(** A wrapped error has no status for the store, and the router unwraps it: a rejected
    key puts the deployment in cooldown with the router's own statistics and not with
    those in Redis. *)
Theorem redis_wrapped_status_lost (err := EWrap "attempt 1" (ELLM bad_key)) :
  (failureEntry DefaultConfig false (600 * Second) (600 * Second) err (newStatsEntry DefaultConfig)).2 = true
  /\ rs_GetCooldownUntil NewRedisStatsStore Background "east" (600 * Second)
       (rs_RecordFailureWithOptions NewRedisStatsStore Background "east" (600 * Second) err false (∅ : Map.server)) = zero_time.
Proof. split; vm_compute; reflexivity. Qed.

(** A cooldown is read back in whole seconds. *)
Theorem redis_cooldown_truncated :
  let r := rs_SetCooldown NewRedisStatsStore Background "east" (600 * Second) (600 * Second) (601 * Second - 1) (∅ : Map.server) in
  rs_GetCooldownUntil NewRedisStatsStore Background "east" (600 * Second) r = 600 * Second.
Proof. vm_compute. reflexivity. Qed.

(** The list of deployments has the end of an identifier with a colon. *)
Theorem redis_colon_cut : extractDeploymentID NewRedisStatsStore (countersKey NewRedisStatsStore Background "azure:gpt-4o") = "gpt-4o".
Proof. vm_compute. reflexivity. Qed.
