(* ===== verification/Directory.v ===== *)
(** * The directory: teams, users, organizations and memberships ([internal/auth/store.go], [memory.go])

    [Directory] is the part of the storage interface that the management endpoints,
    the invitations and the synchronisation on login use; [DirectoryLaws] says what a
    directory promises of memberships.  The in-memory store implements it for users
    whose identifiers have no colon: the key of a membership is the two identifiers
    with a colon between them. *)
From Stdlib Require Import Ascii.
From S2P Require Import Prelude Float64 AuthTypes AuthStore.
Import MemoryAuth.

Definition auth_err_text (e : auth_err) : string := match e with ErrCanceled => "context canceled" | ErrOther msg => msg end.

(** What an endpoint of the management interface answers. *)
Inductive answer (A : Type) := Fails (status : Z) (message : string) | Gives (x : A).
Arguments Fails {A}.
Arguments Gives {A}.

(** Items that are deleted one by one; the ones that fail are left out. *)
Definition delete_each {S : Type} (del : string -> S -> S * option auth_err) (ids : list string) (s : S) : S * list string :=
  foldl (fun '(s, deleted) id => match del id s with (s, Some _) => (s, deleted) | (s, None) => (s, deleted ++ [id]) end) (s, []) ids.

Definition non_empty (x : string) : option string := if String.eqb x "" then None else Some x.

(** ** Entities with no field set *)

Definition zeroUser : User :=
  {| u_ID := ""; u_Alias := None; u_Email := None; u_TeamID := None; u_Teams := []; u_OrganizationID := None; u_Role := "";
     u_MaxBudget := fzero; u_Spend := fzero; u_ModelMaxBudget := None; u_ModelSpend := None; u_BudgetDuration := BudgetDurationNever;
     u_BudgetResetAt := None; u_TPMLimit := None; u_RPMLimit := None; u_MaxParallelRequests := None; u_Models := []; u_IsActive := false;
     u_Metadata := None; u_CreatedAt := None; u_UpdatedAt := None |}.

Definition zeroMembership : TeamMembership :=
  {| tm_UserID := ""; tm_TeamID := ""; tm_Role := ""; tm_Spend := fzero; tm_BudgetID := None; tm_Budget := None; tm_JoinedAt := None |}.

Definition zeroOrgMembership : OrganizationMembership :=
  {| om_UserID := ""; om_OrganizationID := ""; om_UserRole := ""; om_Spend := fzero; om_BudgetID := None; om_Budget := None; om_JoinedAt := None |}.

Definition zeroTeam : Team :=
  {| t_ID := ""; t_Alias := None; t_OrganizationID := None; t_Members := []; t_MaxBudget := fzero; t_SpentBudget := fzero;
     t_ModelMaxBudget := None; t_ModelSpend := None; t_BudgetDuration := BudgetDurationNever; t_BudgetResetAt := None;
     t_TPMLimit := None; t_RPMLimit := None; t_MaxParallelRequests := None; t_ModelTPMLimit := None; t_ModelRPMLimit := None;
     t_Models := []; t_IsActive := false; t_Blocked := false; t_Metadata := None; t_CreatedAt := zero_time; t_UpdatedAt := zero_time |}.
(** ** The interface *)

Class Directory (S : Type) := {
  CreateTeam : Team -> S -> S * option auth_err;
  UpdateTeam : Team -> S -> S * option auth_err;
  DeleteTeam : string -> S -> S * option auth_err;
  ListTeams : TeamFilter -> S -> outcome auth_err (list Team * Z);
  BlockTeam : string -> bool -> S -> S * option auth_err;
  CreateUser : User -> S -> S * option auth_err;
  UpdateUser : User -> S -> S * option auth_err;
  DeleteUser : string -> S -> S * option auth_err;
  ListUsers : UserFilter -> S -> outcome auth_err (list User * Z);
  GetBudget : string -> S -> auth_err + option Budget;
  CreateBudget : Budget -> S -> S * option auth_err;
  UpdateBudget : Budget -> S -> S * option auth_err;
  CreateOrganization : Organization -> S -> S * option auth_err;
  UpdateOrganization : Organization -> S -> S * option auth_err;
  DeleteOrganization : string -> S -> S * option auth_err;
  ListOrganizations : Z -> Z -> S -> outcome auth_err (list Organization * Z);
  GetTeamMembership : string -> string -> S -> auth_err + option TeamMembership;
  CreateTeamMembership : TeamMembership -> S -> S * option auth_err;
  DeleteTeamMembership : string -> string -> S -> S * option auth_err;
  ListTeamMembers : string -> S -> auth_err + list TeamMembership;
  ListUserTeamMemberships : string -> S -> auth_err + list TeamMembership;
  GetOrganizationMembership : string -> string -> S -> auth_err + option OrganizationMembership;
  CreateOrganizationMembership : OrganizationMembership -> S -> S * option auth_err;
  UpdateOrganizationMembership : OrganizationMembership -> S -> S * option auth_err;
  DeleteOrganizationMembership : string -> string -> S -> S * option auth_err;
  ListOrganizationMembers : string -> S -> auth_err + list OrganizationMembership;
}.

(** What a directory promises of memberships in teams: [in_team s u t] says that the
    user is in the team.  [plain] holds of the identifiers that it keeps apart; a
    write that fails changes no membership. *)
Class DirectoryLaws (S : Type) `{AuthStore S} `{Directory S} := {
  dir_ok : S -> Prop;
  plain : string -> Prop;
  in_team : S -> string -> string -> Prop;
  list_user_teams s u l t :
    dir_ok s -> ListUserTeamMemberships u s = inr l -> in_team s u t <-> exists m, m ∈ l /\ m.(tm_TeamID) = t;
  create_membership s m :
    dir_ok s -> plain m.(tm_UserID) ->
    let s' := (CreateTeamMembership m s).1 in
    dir_ok s' /\ forall u t, plain u ->
      in_team s' u t <-> in_team s u t \/ ((CreateTeamMembership m s).2 = None /\ u = m.(tm_UserID) /\ t = m.(tm_TeamID));
  delete_membership s u0 t0 :
    dir_ok s -> plain u0 ->
    let s' := (DeleteTeamMembership u0 t0 s).1 in
    dir_ok s' /\ forall u t, plain u ->
      in_team s' u t <-> in_team s u t /\ ~ ((DeleteTeamMembership u0 t0 s).2 = None /\ u = u0 /\ t = t0);
  create_team_frame s x : dir_ok s -> dir_ok (CreateTeam x s).1 /\ forall u t, in_team (CreateTeam x s).1 u t <-> in_team s u t;
  create_user_frame s x : dir_ok s -> dir_ok (CreateUser x s).1 /\ forall u t, in_team (CreateUser x s).1 u t <-> in_team s u t;
  update_user_frame s x : dir_ok s -> dir_ok (UpdateUser x s).1 /\ forall u t, in_team (UpdateUser x s).1 u t <-> in_team s u t;
  create_org_member_frame s x :
    dir_ok s -> dir_ok (CreateOrganizationMembership x s).1 /\ forall u t, in_team (CreateOrganizationMembership x s).1 u t <-> in_team s u t;
}.

(** ** The in-memory directory *)

Section Memory.
Context (ord : gset string -> list string) (toLower : string -> string).

Definition memory_directory : Directory MemoryStore := {|
  CreateTeam := ms_CreateTeam;
  UpdateTeam := ms_UpdateTeam;
  DeleteTeam := ms_DeleteTeam;
  ListTeams := ms_ListTeams ord;
  BlockTeam := ms_BlockTeam;
  CreateUser := ms_CreateUser;
  UpdateUser := ms_UpdateUser;
  DeleteUser := ms_DeleteUser;
  ListUsers := ms_ListUsers ord toLower;
  GetBudget := ms_GetBudget;
  CreateBudget := ms_CreateBudget;
  UpdateBudget := ms_UpdateBudget;
  CreateOrganization := ms_CreateOrganization;
  UpdateOrganization := ms_UpdateOrganization;
  DeleteOrganization := ms_DeleteOrganization;
  ListOrganizations := ms_ListOrganizations ord;
  GetTeamMembership := ms_GetTeamMembership;
  CreateTeamMembership := ms_CreateTeamMembership;
  DeleteTeamMembership := ms_DeleteTeamMembership;
  ListTeamMembers := ms_ListTeamMembers ord;
  ListUserTeamMemberships := ms_ListUserTeamMemberships ord;
  GetOrganizationMembership := ms_GetOrganizationMembership;
  CreateOrganizationMembership := ms_CreateOrganizationMembership;
  UpdateOrganizationMembership := ms_UpdateOrganizationMembership;
  DeleteOrganizationMembership := ms_DeleteOrganizationMembership;
  ListOrganizationMembers := ms_ListOrganizationMembers ord;
|}.

Fixpoint no_colon (s : string) : bool :=
  match s with EmptyString => true | String c s' => negb (Ascii.eqb c ":") && no_colon s' end.

Lemma membership_key_inj u t u' t' : no_colon u = true -> no_colon u' = true -> membershipKey u t = membershipKey u' t' -> u = u' /\ t = t'.
Proof.
  unfold membershipKey. revert u'. induction u as [|c u IH]; intros [|c' u']; cbn; intros Hu Hu' E.
  - by simplify_eq/=.
  - by simplify_eq/=.
  - by simplify_eq/=.
  - apply andb_true_iff in Hu as [_ Hu]. apply andb_true_iff in Hu' as [_ Hu']. injection E as -> E.
    by destruct (IH u' Hu Hu' E) as [-> ->].
Qed.

(** Every membership is under its key, and its user has no colon. *)
Definition memberships_ok (s : MemoryStore) : Prop :=
  map_Forall (fun k m => k = membershipKey m.(tm_UserID) m.(tm_TeamID) /\ no_colon m.(tm_UserID) = true) s.(teamMemberships).

Definition has_membership (s : MemoryStore) (u t : string) : Prop :=
  exists m, s.(teamMemberships) !! membershipKey u t = Some m /\ m.(tm_UserID) = u /\ m.(tm_TeamID) = t.

Context (ord_spec : forall X, ord X ≡ₚ elements X).

Lemma range_elem {V : Type} (m : gmap string V) v : v ∈ range ord m <-> exists k, m !! k = Some v.
Proof.
  unfold range. rewrite list_elem_of_omap. setoid_rewrite ord_spec. setoid_rewrite elem_of_elements.
  split; [intros (k & _ & E); by exists k|]. intros (k & E). exists k. split; [|done]. by apply elem_of_dom.
Qed.

Lemma memory_list s u l t :
  memberships_ok s -> ms_ListUserTeamMemberships ord u s = inr l -> has_membership s u t <-> exists m, m ∈ l /\ m.(tm_TeamID) = t.
Proof.
  intros Hok [= <-]. unfold has_membership. split.
  - intros (m & E & Hu & Ht). exists m. split; [|done]. apply elem_of_keep. split; [by apply range_elem; eauto|]. by apply String.eqb_eq.
  - intros (m & [Hm Hu%String.eqb_eq]%elem_of_keep & Ht). apply range_elem in Hm as [k E]. destruct (Hok _ _ E) as [-> _].
    exists m. by rewrite <- Hu, <- Ht.
Qed.

Lemma memory_create s m :
  memberships_ok s -> no_colon m.(tm_UserID) = true ->
  let s' := (ms_CreateTeamMembership m s).1 in
  memberships_ok s' /\ forall u t, no_colon u = true -> has_membership s' u t <-> has_membership s u t \/ (u = m.(tm_UserID) /\ t = m.(tm_TeamID)).
Proof.
  intros Hok Hm s'. split; [by apply map_Forall_insert_2|]. intros u t Hu. unfold has_membership. cbn.
  destruct (decide (membershipKey u t = membershipKey (tm_UserID m) (tm_TeamID m))) as [E|E].
  - apply membership_key_inj in E as [-> ->]; [|done..]. rewrite lookup_insert_eq. split; [by right|]. intros _. by exists m.
  - rewrite lookup_insert_ne by done. split; [by left|]. intros [?|[-> ->]]; done.
Qed.

Lemma memory_delete s u0 t0 :
  memberships_ok s -> no_colon u0 = true ->
  let s' := (ms_DeleteTeamMembership u0 t0 s).1 in
  memberships_ok s' /\ forall u t, no_colon u = true -> has_membership s' u t <-> has_membership s u t /\ ~ (u = u0 /\ t = t0).
Proof.
  intros Hok Hm s'. split; [by apply map_Forall_delete|]. intros u t Hu. unfold has_membership. cbn.
  destruct (decide (membershipKey u t = membershipKey u0 t0)) as [E|E].
  - apply membership_key_inj in E as [-> ->]; [|done..]. rewrite lookup_delete_eq. naive_solver.
  - rewrite lookup_delete_ne by done. split; [|naive_solver]. intros H. split; [done|]. by intros [-> ->].
Qed.

#[refine] Definition memory_directory_laws : DirectoryLaws MemoryStore (H := memory_auth_store ord) (H0 := memory_directory) :=
  {| dir_ok := memberships_ok; plain u := no_colon u = true; in_team := has_membership |}.
Proof.
  - apply memory_list.
  - intros s m Hok Hm. destruct (memory_create s m Hok Hm) as [H1 H2]. split; [done|]. intros u t Hu. rewrite (H2 u t Hu). naive_solver.
  - intros s u0 t0 Hok Hu0. destruct (memory_delete s u0 t0 Hok Hu0) as [H1 H2]. split; [done|]. intros u t Hu. rewrite (H2 u t Hu). naive_solver.
  - by intros s x Hok.
  - by intros s x Hok.
  - by intros s x Hok.
  - by intros s x Hok.
Defined.
End Memory.
