(* ===== verification/AuditLog.v ===== *)
(** * The audit log ([internal/auth/audit.go], [audit_memory.go], [internal/api/audit_endpoints.go])

    Who did what to which object: the entries, the logger that makes them, the store in
    memory with its filters, its bubble sort and its pages, and the endpoints on it.  An
    identifier or an instant that a function draws itself is an argument of it. *)
From S2P Require Import Prelude Float64 AuthTypes AuthStore KeyManagement Directory.

(** ** Entries *)

Definition AuditAction := string.
Definition AuditActionLogin : AuditAction := "login".
Definition AuditActionLoginFailed : AuditAction := "login_failed".
Definition AuditObjectType := string.
Definition AuditObjectAPIKey : AuditObjectType := "api_key".
Definition AuditObjectTeam : AuditObjectType := "team".
Definition AuditObjectUser : AuditObjectType := "user".

(** A value of type [any]; maps and slices cannot be compared.  Instants are those of one
    location without the monotonic reading. *)
Inductive value :=
| VNil
| VBool (b : bool)
| VInt (z : Z)
| VFloat (x : f64)
| VString (s : string)
| VTime (t : time)
| VComposite (type_ contents : string).

(** An entry of a difference is the map of what was before and what is after. *)
Record change := { before_ : value; after_ : value }.

Record AuditLog := {
  al_ID : string;
  al_Timestamp : time;
  al_ActorID : string;
  al_ActorType : string;
  al_ActorEmail : string;
  al_ActorIP : string;
  al_Action : AuditAction;
  al_ObjectType : AuditObjectType;
  al_ObjectID : string;
  al_TeamID : option string;
  al_OrganizationID : option string;
  al_BeforeValue : nmap value;
  al_AfterValue : nmap value;
  al_Diff : nmap change;
  al_RequestID : string;
  al_UserAgent : string;
  al_RequestURI : string;
  al_Success : bool;
  al_Error : string;
  al_Metadata : nmap value;
}.

Record AuditLogFilter := {
  af_ActorID : option string;
  af_ActorType : option string;
  af_Action : option AuditAction;
  af_ObjectType : option AuditObjectType;
  af_ObjectID : option string;
  af_TeamID : option string;
  af_OrganizationID : option string;
  af_StartTime : time;
  af_EndTime : time;
  af_Success : option bool;
  af_Limit : Z;
  af_Offset : Z;
}.

Record AuditLogStats := {
  as_TotalEvents : Z;
  as_SuccessCount : Z;
  as_FailureCount : Z;
  as_UniqueActors : Z;
  as_ActionCounts : gmap string Z;
  as_ObjectTypeCounts : gmap string Z;
}.

(** ** The store *)

Class AuditLogStore (S : Type) := {
  CreateAuditLog : string -> time -> AuditLog -> S -> S * option auth_err;
  GetAuditLog : string -> S -> auth_err + option AuditLog;
  ListAuditLogs : AuditLogFilter -> S -> outcome auth_err (list AuditLog * Z);
  GetAuditLogStats : AuditLogFilter -> S -> auth_err + AuditLogStats;
  DeleteAuditLogs : time -> S -> S * (auth_err + Z);
}.

Definition MemoryAuditLogStore := list AuditLog.

Definition NewMemoryAuditLogStore : MemoryAuditLogStore := [].

(** [id] and [now] are used when the entry has none. *)
Definition ma_CreateAuditLog (id : string) (now : time) (log : AuditLog) (s : MemoryAuditLogStore) : MemoryAuditLogStore * option auth_err :=
  let log := if String.eqb log.(al_ID) "" then log<|al_ID := id|> else log in
  let log := if is_zero log.(al_Timestamp) then log<|al_Timestamp := now|> else log in
  (s ++ [log], None).

Definition ma_GetAuditLog (id : string) (s : MemoryAuditLogStore) : auth_err + option AuditLog :=
  inr (List.find (fun log => String.eqb log.(al_ID) id) s).

(** A filter that is set asks for equality. *)
Definition wants {A : Type} (eqb : A -> A -> bool) (f : option A) (x : A) : bool :=
  match f with Some y => eqb x y | None => true end.

Definition wants_some {A : Type} (eqb : A -> A -> bool) (f : option A) (x : option A) : bool :=
  match f with Some y => match x with Some x => eqb x y | None => false end | None => true end.

Definition matchesFilter (f : AuditLogFilter) (log : AuditLog) : bool :=
  negb (negb (is_zero f.(af_StartTime)) && before log.(al_Timestamp) f.(af_StartTime))
  && negb (negb (is_zero f.(af_EndTime)) && after log.(al_Timestamp) f.(af_EndTime))
  && wants String.eqb f.(af_ActorID) log.(al_ActorID) && wants String.eqb f.(af_ActorType) log.(al_ActorType)
  && wants String.eqb f.(af_Action) log.(al_Action)
  && wants String.eqb f.(af_ObjectType) log.(al_ObjectType) && wants String.eqb f.(af_ObjectID) log.(al_ObjectID)
  && wants_some String.eqb f.(af_TeamID) log.(al_TeamID) && wants_some String.eqb f.(af_OrganizationID) log.(al_OrganizationID)
  && wants Bool.eqb f.(af_Success) log.(al_Success).

(** *** The sort, most recent first *)

(** The body of the inner loop at [j]. *)
Definition bubble_at (l : list AuditLog) (j : nat) : list AuditLog :=
  match l !! j, l !! S j with
  | Some a, Some b => if before a.(al_Timestamp) b.(al_Timestamp) then <[j := b]> (<[S j := a]> l) else l
  | _, _ => l
  end.

Definition bubble_pass (n : nat) (l : list AuditLog) : list AuditLog := fold_left bubble_at (seq 0 n) l.

Definition bubble_sort (l : list AuditLog) : list AuditLog :=
  fold_left (fun l i => bubble_pass (length l - i - 1) l) (seq 0 (length l - 1)) l.

(** The slice [l[lo:hi]] panics out of range. *)
Definition slice {E A : Type} (l : list A) (lo hi : Z) : outcome E (list A) :=
  if (0 <=? lo) && (lo <=? hi) && (hi <=? Z.of_nat (length l))
  then Ok (take (Z.to_nat (hi - lo)) (drop (Z.to_nat lo) l)) else Panic.

Definition ma_ListAuditLogs (f : AuditLogFilter) (s : MemoryAuditLogStore) : outcome auth_err (list AuditLog * Z) :=
  let filtered := bubble_sort (keep (matchesFilter f) s) in
  let n := Z.of_nat (length filtered) in
  if n <=? f.(af_Offset) then Ok ([], n)
  else
    let end_ := f.(af_Offset) +! f.(af_Limit) in
    let end_ := if (n <? end_) || (f.(af_Limit) =? 0) then n else end_ in
    let! page := slice filtered f.(af_Offset) end_ in
    Ok (page, n).

(** *** Statistics *)

Definition counted (k : string) (m : gmap string Z) : gmap string Z := <[k := default 0 (m !! k) +! 1]> m.

Record tally := { ty_stats : AuditLogStats; ty_actors : gset string }.

Definition tally_log (t : tally) (log : AuditLog) : tally :=
  {| ty_stats :=
       {| as_TotalEvents := t.(ty_stats).(as_TotalEvents) +! 1;
          as_SuccessCount := if log.(al_Success) then t.(ty_stats).(as_SuccessCount) +! 1 else t.(ty_stats).(as_SuccessCount);
          as_FailureCount := if log.(al_Success) then t.(ty_stats).(as_FailureCount) else t.(ty_stats).(as_FailureCount) +! 1;
          as_UniqueActors := t.(ty_stats).(as_UniqueActors);
          as_ActionCounts := counted log.(al_Action) t.(ty_stats).(as_ActionCounts);
          as_ObjectTypeCounts := counted log.(al_ObjectType) t.(ty_stats).(as_ObjectTypeCounts) |};
     ty_actors := {[ log.(al_ActorID) ]} ∪ t.(ty_actors) |}.

Definition no_tally : tally :=
  {| ty_stats := {| as_TotalEvents := 0; as_SuccessCount := 0; as_FailureCount := 0; as_UniqueActors := 0; as_ActionCounts := ∅; as_ObjectTypeCounts := ∅ |};
     ty_actors := ∅ |}.

Definition ma_GetAuditLogStats (f : AuditLogFilter) (s : MemoryAuditLogStore) : auth_err + AuditLogStats :=
  let t := fold_left tally_log (keep (matchesFilter f) s) no_tally in
  inr t.(ty_stats)<|as_UniqueActors := Z.of_nat (size t.(ty_actors))|>.

Definition ma_DeleteAuditLogs (olderThan : time) (s : MemoryAuditLogStore) : MemoryAuditLogStore * (auth_err + Z) :=
  (keep (fun log => negb (before log.(al_Timestamp) olderThan)) s,
   inr (Z.of_nat (length (keep (fun log => before log.(al_Timestamp) olderThan) s)))).

#[export] Instance memory_audit_log_store : AuditLogStore MemoryAuditLogStore :=
  {| CreateAuditLog := ma_CreateAuditLog; GetAuditLog := ma_GetAuditLog; ListAuditLogs := ma_ListAuditLogs;
     GetAuditLogStats := ma_GetAuditLogStats; DeleteAuditLogs := ma_DeleteAuditLogs |}.

(** ** Differences *)

(** [!=] on two interfaces: a panic when both hold the same type and it cannot be compared. *)
Definition differs (a b : value) : outcome unit bool :=
  match a, b with
  | VNil, VNil => Ok false
  | VBool x, VBool y => Ok (negb (Bool.eqb x y))
  | VInt x, VInt y => Ok (negb (x =? y))
  | VFloat x, VFloat y => Ok (negb (x =.? y)%f64)
  | VString x, VString y => Ok (negb (String.eqb x y))
  | VTime x, VTime y => Ok (negb (x =? y))
  | VComposite t _, VComposite u _ => if String.eqb t u then Panic else Ok true
  | _, _ => Ok true
  end.

(** The comparison of a key panics. *)
Definition uncomparable (before after : gmap string value) (k : string) : bool :=
  match before !! k, after !! k with
  | Some b, Some a => match differs b a with Panic => true | _ => false end
  | _, _ => false
  end.

Definition change_of (b a : option value) : option change :=
  match b, a with
  | Some b, Some a => match differs b a with Ok true => Some {| before_ := b; after_ := a |} | _ => None end
  | None, Some a => Some {| before_ := VNil; after_ := a |}
  | Some b, None => Some {| before_ := b; after_ := VNil |}
  | None, None => None
  end.

Definition calculateDiff (before after : gmap string value) : outcome unit (gmap string change) :=
  if existsb (fun kv => uncomparable before after kv.1) (map_to_list after) then Panic
  else Ok (merge change_of before after).

(** ** The logger *)

Section Logger.
Context {S : Type} `{!AuditLogStore S}.

Record AuditLogger := { lg_store : option S; lg_enabled : bool }.

Definition NewAuditLogger (store : option S) (enabled : bool) : AuditLogger := {| lg_store := store; lg_enabled := enabled |}.

(** [id'] and [now'] are what the store uses for an entry without. *)
Definition Log (id' : string) (now' : time) (log : AuditLog) (al : AuditLogger) : AuditLogger * option auth_err :=
  match al.(lg_store) with
  | Some s => if al.(lg_enabled) then let (s, err) := CreateAuditLog id' now' log s in (al<|lg_store := Some s|>, err) else (al, None)
  | None => (al, None)
  end.

Definition zero_log : AuditLog :=
  {| al_ID := ""; al_Timestamp := zero_time; al_ActorID := ""; al_ActorType := ""; al_ActorEmail := ""; al_ActorIP := ""; al_Action := "";
     al_ObjectType := ""; al_ObjectID := ""; al_TeamID := None; al_OrganizationID := None; al_BeforeValue := None; al_AfterValue := None;
     al_Diff := None; al_RequestID := ""; al_UserAgent := ""; al_RequestURI := ""; al_Success := false; al_Error := ""; al_Metadata := None |}.

Definition actor_log (id : string) (now : time) (actorID actorType : string) (action : AuditAction) (objectType : AuditObjectType)
    (objectID : string) (success : bool) : AuditLog :=
  zero_log<|al_ID := id|><|al_Timestamp := now|><|al_ActorID := actorID|><|al_ActorType := actorType|><|al_Action := action|>
    <|al_ObjectType := objectType|><|al_ObjectID := objectID|><|al_Success := success|>.

Definition LogAction (id : string) (now : time) (actorID actorType : string) (action : AuditAction) (objectType : AuditObjectType)
    (objectID : string) (success : bool) (beforeValue afterValue : nmap value) (al : AuditLogger) : outcome unit (AuditLogger * option auth_err) :=
  if negb al.(lg_enabled) then Ok (al, None)
  else
    let log := (actor_log id now actorID actorType action objectType objectID success)<|al_BeforeValue := beforeValue|><|al_AfterValue := afterValue|> in
    let! log := match beforeValue, afterValue with
                | Some b, Some a => let! d := calculateDiff b a in Ok (log<|al_Diff := Some d|>)
                | _, _ => Ok log
                end in
    Ok (Log id now log al).

Definition LogAPIKeyAction (id : string) (now : time) (actorID actorType : string) (action : AuditAction) (keyID : string) (success : bool)
    (metadata : nmap value) (al : AuditLogger) : AuditLogger * option auth_err :=
  Log id now (actor_log id now actorID actorType action AuditObjectAPIKey keyID success)<|al_Metadata := metadata|> al.

Definition LogTeamAction (id : string) (now : time) (actorID actorType : string) (action : AuditAction) (teamID : string) (orgID : option string)
    (success : bool) (beforeValue afterValue : nmap value) (al : AuditLogger) : AuditLogger * option auth_err :=
  Log id now (actor_log id now actorID actorType action AuditObjectTeam teamID success)
    <|al_OrganizationID := orgID|><|al_BeforeValue := beforeValue|><|al_AfterValue := afterValue|> al.

Definition LogUserAction (id : string) (now : time) (actorID actorType : string) (action : AuditAction) (userID : string) (teamID orgID : option string)
    (success : bool) (beforeValue afterValue : nmap value) (al : AuditLogger) : AuditLogger * option auth_err :=
  Log id now (actor_log id now actorID actorType action AuditObjectUser userID success)
    <|al_TeamID := teamID|><|al_OrganizationID := orgID|><|al_BeforeValue := beforeValue|><|al_AfterValue := afterValue|> al.

Definition LogLoginAttempt (id : string) (now : time) (userID email ip userAgent : string) (success : bool) (errorMsg : string) (al : AuditLogger) :
    AuditLogger * option auth_err :=
  let action := if success then AuditActionLogin else AuditActionLoginFailed in
  Log id now (actor_log id now userID "user" action AuditObjectUser userID success)
    <|al_ActorEmail := email|><|al_ActorIP := ip|><|al_Error := errorMsg|><|al_UserAgent := userAgent|> al.

(** ** Endpoints

    [query] gives a parameter, the empty text when it is not there; [limit] and [offset]
    are what [strconv.Atoi] makes of theirs. *)

Context `{!RFC3339}.

Definition opt_param (s : string) : option string := if String.eqb s "" then None else Some s.

Definition time_param (s : string) (t : time) : time := match KeyManagement.Parse s with Some t => t | None => t end.

Definition h_ListAuditLogs (query : string -> string) (limit offset : option Z) (s : S) : outcome unit (answer (list AuditLog * Z)) :=
  let f := {| af_ActorID := opt_param (query "actor_id"); af_ActorType := opt_param (query "actor_type"); af_Action := opt_param (query "action");
              af_ObjectType := opt_param (query "object_type"); af_ObjectID := opt_param (query "object_id");
              af_TeamID := opt_param (query "team_id"); af_OrganizationID := opt_param (query "organization_id");
              af_StartTime := if String.eqb (query "start_time") "" then zero_time else time_param (query "start_time") zero_time;
              af_EndTime := if String.eqb (query "end_time") "" then zero_time else time_param (query "end_time") zero_time;
              af_Success := if String.eqb (query "success") "" then None else Some (String.eqb (query "success") "true");
              af_Limit := match limit with Some n => if 0 <? n then n else 50 | None => 50 end;
              af_Offset := match offset with Some n => if 0 <=? n then n else 0 | None => 0 end |} in
  match ListAuditLogs f s with
  | Ok (logs, total) => Ok (Gives (logs, total))
  | Err _ => Ok (Fails 500 "failed to list audit logs")
  | Panic => Panic
  end.

Definition h_GetAuditLog (id : string) (s : S) : answer AuditLog :=
  if String.eqb id "" then Fails 400 "id parameter is required"
  else match GetAuditLog id s with
       | inl _ => Fails 500 "failed to get audit log"
       | inr None => Fails 404 "audit log not found"
       | inr (Some log) => Gives log
       end.

(** [now1] and [now2] are the clocks of the two bounds that are not given. *)
Definition h_GetAuditLogStats (now1 now2 : time) (query : string -> string) (s : S) : answer (AuditLogStats * string * string) :=
  let f := {| af_ActorID := opt_param (query "actor_id"); af_ActorType := None; af_Action := opt_param (query "action");
              af_ObjectType := opt_param (query "object_type"); af_ObjectID := None; af_TeamID := None; af_OrganizationID := None;
              af_StartTime := if String.eqb (query "start_time") "" then time_add now1 (- (24 * Hour)) else time_param (query "start_time") zero_time;
              af_EndTime := if String.eqb (query "end_time") "" then now2 else time_param (query "end_time") zero_time;
              af_Success := None; af_Limit := 0; af_Offset := 0 |} in
  match GetAuditLogStats f s with
  | inl _ => Fails 500 "failed to get audit stats"
  | inr stats => Gives (stats, Format f.(af_StartTime), Format f.(af_EndTime))
  end.

(** [-time.Duration(days) * 24 * time.Hour] wraps around. *)
Definition retention (days : Z) : duration := wrap64 (wrap64 (wrap64 (- days) * 24) * Hour).

Definition h_DeleteAuditLogs (now : time) (req : option Z) (s : S) : S * answer (Z * string) :=
  match req with
  | None => (s, Fails 400 "invalid request body")
  | Some days =>
      if days <=? 0 then (s, Fails 400 "older_than_days must be positive")
      else
        let cutoff := time_add now (retention days) in
        match DeleteAuditLogs cutoff s with
        | (s, inl _) => (s, Fails 500 "failed to delete audit logs")
        | (s, inr deleted) => (s, Gives (deleted, Format cutoff))
        end
  end.
End Logger.

(** * What the audit log shows

    The bubble sort of the store is a stable sort, so paging through a listing shows every
    matching entry once, most recent first; differences are exact; what a retention
    request deletes. *)

(** ** The sort *)

#[local] Abbreviation ts := al_Timestamp.
Implicit Types (a b x y : AuditLog).

(** Most recent first. *)
Definition newest_first : list AuditLog -> Prop := StronglySorted (fun a b => ts b <= ts a).

Definition written_at (t : time) (a : AuditLog) : bool := ts a =? t.

(** A pass, by recursion on the list. *)
Fixpoint bubble (k : nat) (l : list AuditLog) : list AuditLog :=
  match k, l with
  | S k', x :: (y :: t) => if before (ts x) (ts y) then y :: bubble k' (x :: t) else x :: bubble k' (y :: t)
  | _, _ => l
  end.

Lemma bubble_at_cons x l j : bubble_at (x :: l) (S j) = x :: bubble_at l j.
Proof. unfold bubble_at. cbn. destruct (l !! j); [|done]. destruct l as [|? l]; [done|]. cbn. destruct (l !! j); [|done]. by destruct (before _ _). Qed.

Lemma passes_cons x l js : fold_left bubble_at (map S js) (x :: l) = x :: fold_left bubble_at js l.
Proof. revert l. induction js as [|j js IH]; intros l; [done|]. cbn [map fold_left]. by rewrite bubble_at_cons, IH. Qed.

Lemma bubble_short k x : bubble k [x] = [x].
Proof. by destruct k. Qed.

Lemma bubble_at_short j l : (length l <= 1)%nat -> bubble_at l j = l.
Proof. intros Hl. unfold bubble_at. destruct (l !! j); [|done]. rewrite (lookup_ge_None_2 l (S j)) by lia. done. Qed.

Lemma passes_short js l : (length l <= 1)%nat -> fold_left bubble_at js l = l.
Proof. intros Hl. induction js as [|j js IH]; [done|]. cbn. by rewrite bubble_at_short. Qed.

Lemma bubble_pass_eq n l : bubble_pass n l = bubble n l.
Proof.
  unfold bubble_pass. revert l. induction n as [|n IH]; intros l; [by destruct l|].
  cbn [seq fold_left]. destruct l as [|x [|y t]]; [by rewrite passes_short by (cbn; lia)|by rewrite passes_short by (cbn; lia)|].
  rewrite <- seq_shift. cbn [bubble]. change (bubble_at (x :: y :: t) 0) with (if before (ts x) (ts y) then y :: x :: t else x :: y :: t).
  destruct (before (ts x) (ts y)); rewrite passes_cons; by f_equal.
Qed.

(** A pass keeps the entries of an instant in their order. *)
Lemma bubble_stable t k l : keep (written_at t) (bubble k l) = keep (written_at t) l.
Proof.
  unfold keep. revert l. induction k as [|k IH]; intros l; [by destruct l|]. destruct l as [|x [|y l]]; [done..|]. cbn [bubble].
  unfold before. destruct (Z.ltb_spec (ts x) (ts y)) as [Hlt|_]; cbn [List.filter]; rewrite IH; cbn [List.filter]; [|done].
  unfold written_at. destruct (Z.eqb_spec (ts x) t), (Z.eqb_spec (ts y) t); try done. lia.
Qed.

Lemma bubble_perm k l : bubble k l ≡ₚ l.
Proof.
  revert l. induction k as [|k IH]; intros l; [by destruct l|]. destruct l as [|x [|y l]]; [done..|]. cbn [bubble].
  destruct (before _ _); rewrite IH; [apply Permutation_swap|done].
Qed.

(** A pass over a whole prefix moves its least entry to its end. *)
Lemma bubble_prefix pre suf :
  pre <> [] -> exists pre' m, bubble (length pre - 1) (pre ++ suf) = pre' ++ m :: suf /\ pre' ++ [m] ≡ₚ pre /\ Forall (fun a => ts m <= ts a) pre'.
Proof.
  revert pre. induction pre as [pre IH] using (induction_ltof1 _ (@length AuditLog)). intros Hne. destruct pre as [|x pre]; [done|]. clear Hne.
  destruct pre as [|y pre]; [exists [], x; cbn; split; [by destruct suf|split; [done|constructor]]|].
  replace (length (x :: y :: pre) - 1)%nat with (S (length (x :: pre) - 1)) by (cbn; lia). cbn [app bubble]. unfold before.
  destruct (Z.ltb_spec (ts x) (ts y)) as [Hlt|Hge].
  - destruct (IH (x :: pre)) as (pre' & m & E & Pm & F); [unfold ltof; cbn; lia|done|]. cbn [app] in E.
    rewrite E. exists (y :: pre'), m. split; [done|]. split; [cbn; rewrite Pm; apply Permutation_swap|]. constructor; [|done].
    assert (Hx : x ∈ pre' ++ [m]) by (rewrite Pm; left). apply elem_of_app in Hx as [Hx|Hx%list_elem_of_singleton]; [|subst; lia].
    rewrite Forall_forall in F. specialize (F x Hx). lia.
  - destruct (IH (y :: pre)) as (pre' & m & E & Pm & F); [unfold ltof; cbn; lia|done|]. cbn [app] in E.
    change (length (x :: pre)) with (length (y :: pre)). rewrite E. exists (x :: pre'), m. split; [done|]. split; [cbn; by rewrite Pm|]. constructor; [|done].
    assert (Hx : y ∈ pre' ++ [m]) by (rewrite Pm; left). apply elem_of_app in Hx as [Hx|Hx%list_elem_of_singleton]; [|subst; lia].
    rewrite Forall_forall in F. specialize (F y Hx). lia.
Qed.

(** After [i] passes the last [i] entries are the least, in order. *)
Definition settled (i : nat) (l : list AuditLog) : Prop :=
  exists pre suf, l = pre ++ suf /\ length suf = i /\ newest_first suf /\ Forall (fun a => Forall (fun b => ts b <= ts a) suf) pre.

Lemma pass_settles i l : (i < length l)%nat -> settled i l -> settled (S i) (bubble (length l - i - 1) l).
Proof.
  intros Hi (pre & suf & -> & Hlen & Hs & Hf). rewrite length_app in *.
  assert (Hne : pre <> []) by (intros ->; cbn in *; lia). replace (length pre + length suf - i - 1)%nat with (length pre - 1)%nat by lia.
  destruct (bubble_prefix pre suf Hne) as (pre' & m & E & Pm & F). exists pre', (m :: suf). rewrite E. split; [done|]. split; [cbn; lia|].
  rewrite <- Pm in Hf. apply Forall_app in Hf as [Hf1 Hf2]. inversion Hf2 as [|? ? Hm _]; subst. split; [by constructor|].
  rewrite Forall_forall in F, Hf1 |- *. intros a Ha. constructor; auto.
Qed.

Lemma passes_settle n i l :
  (i + n <= length l)%nat -> settled i l ->
  let l' := fold_left (fun l i => bubble_pass (length l - i - 1) l) (seq i n) l in
  settled (i + n) l' /\ l' ≡ₚ l /\ forall t, keep (written_at t) l' = keep (written_at t) l.
Proof.
  revert i l. induction n as [|n IH]; intros i l Hn Hs; cbn [seq fold_left]; [by rewrite Nat.add_0_r|].
  rewrite bubble_pass_eq. pose proof (pass_settles i l ltac:(lia) Hs) as Hs'.
  destruct (IH (S i) (bubble (length l - i - 1) l)) as (H1 & H2 & H3); [rewrite bubble_perm; lia|done|].
  rewrite Nat.add_succ_r. split; [done|]. split; [by rewrite H2, bubble_perm|]. intros t. by rewrite H3, bubble_stable.
Qed.

(** The bubble sort puts the most recent first and keeps the order within an instant. *)
Lemma bubble_sort_spec l :
  newest_first (bubble_sort l) /\ bubble_sort l ≡ₚ l /\ forall t, keep (written_at t) (bubble_sort l) = keep (written_at t) l.
Proof.
  unfold bubble_sort. destruct (passes_settle (length l - 1) 0 l) as ((pre & suf & E & Hlen & Hs & Hf) & Hp & Hk); [lia| |].
  { exists l, []. rewrite app_nil_r. split; [done|]. split; [done|]. split; [constructor|]. apply Forall_true. intros. constructor. }
  split; [|done]. rewrite E. pose proof (Permutation_length Hp) as HL. rewrite E, length_app in HL.
  destruct pre as [|x [|y pre]]; [done| |cbn in HL; lia]. inversion Hf; subst. by constructor.
Qed.

(** ** Pages *)

(** The page of a listing from an offset. *)
Definition page_of (f : AuditLogFilter) (s : MemoryAuditLogStore) (offset : Z) : outcome auth_err (list AuditLog * Z) :=
  ma_ListAuditLogs f<|af_Offset := offset|> s.

Lemma matches_offset f o log : matchesFilter f<|af_Offset := o|> log = matchesFilter f log.
Proof. done. Qed.

Lemma keep_matches_offset f o s : keep (matchesFilter f<|af_Offset := o|>) s = keep (matchesFilter f) s.
Proof. done. Qed.

Lemma page_of_eq f s o :
  0 < f.(af_Limit) -> 0 <= o -> o + f.(af_Limit) < two63 ->
  let L := bubble_sort (keep (matchesFilter f) s) in
  page_of f s o = Ok (take (Z.to_nat f.(af_Limit)) (drop (Z.to_nat o) L), Z.of_nat (length L)).
Proof.
  intros Hl Ho Hb L. unfold page_of, ma_ListAuditLogs. rewrite keep_matches_offset. fold L. cbn [af_Offset af_Limit].
  destruct (Z.leb_spec (Z.of_nat (length L)) o) as [He|He].
  { change (af_Offset f<|af_Offset := o|>) with o. destruct (Z.leb_spec (Z.of_nat (length L)) o); [|lia].
    rewrite drop_ge by lia. by rewrite take_nil. }
  change (af_Offset f<|af_Offset := o|>) with o. change (af_Limit f<|af_Offset := o|>) with (af_Limit f).
  destruct (Z.leb_spec (Z.of_nat (length L)) o) as [|_]; [lia|]. rewrite wrap64_id by (unfold in_i64, two63 in *; lia).
  replace (af_Limit f =? 0) with false by lia. rewrite orb_false_r. unfold slice.
  destruct (Z.ltb_spec (Z.of_nat (length L)) (o + af_Limit f)) as [Hg|Hg].
  - replace (0 <=? o) with true by lia. replace (o <=? Z.of_nat (length L)) with true by lia. rewrite Z.leb_refl. cbn.
    do 2 f_equal. rewrite !take_ge by (rewrite length_drop; lia). done.
  - replace (0 <=? o) with true by lia. replace (o <=? o + af_Limit f) with true by lia. replace (o + af_Limit f <=? Z.of_nat (length L)) with true by lia. cbn.
    do 2 f_equal. f_equal. lia.
Qed.

Lemma chunks_cover {A} (n k : nat) (L : list A) :
  (length L <= n * k)%nat -> concat (map (fun i => take k (drop (i * k) L)) (seq 0 n)) = L.
Proof.
  revert L. induction n as [|n IH]; intros L Hn; [by destruct L; [|cbn in Hn; lia]|].
  cbn [seq map concat Nat.mul]. rewrite drop_0, <- seq_shift, map_map. transitivity (take k L ++ drop k L); [|apply take_drop]. f_equal.
  transitivity (concat (map (fun i => take k (drop (i * k) (drop k L))) (seq 0 n))); [|apply IH; rewrite length_drop; lia]. f_equal. apply map_ext. intros i. by rewrite drop_drop.
Qed.

Lemma keep_keep {A} (p q : A -> bool) (l : list A) : keep p (keep q l) = keep (fun (x : A) => p x && q x) l.
Proof. unfold keep. induction l as [|x l IH]; [done|]. cbn. destruct (q x); cbn; destruct (p x); cbn; by rewrite ?IH. Qed.

(** C25: Paging through the audit log shows every entry once, most recent first.  The pages
    of a listing, one limit after the other, joined are a list with the entries of the log
    that match the filter, most recent first, and those of the same instant in the order
    in which they were written; every page tells how many there are. *)
Theorem audit_pages f s n :
  0 < f.(af_Limit) -> Z.of_nat (length s) <= Z.of_nat n * f.(af_Limit) -> (Z.of_nat n + 1) * f.(af_Limit) < two63 ->
  exists L pages,
    (forall i : nat, (i < n)%nat -> exists p, pages !! i = Some p /\ page_of f s (Z.of_nat i * f.(af_Limit)) = Ok (p, Z.of_nat (length L)))
    /\ length pages = n /\ concat pages = L /\ newest_first L
    /\ L ≡ₚ keep (matchesFilter f) s
    /\ (forall t, keep (written_at t) L = keep (fun a => written_at t a && matchesFilter f a) s).
Proof.
  intros Hl Hn Hb. set (L := bubble_sort (keep (matchesFilter f) s)). set (k := Z.to_nat f.(af_Limit)).
  destruct (bubble_sort_spec (keep (matchesFilter f) s)) as (S1 & S2 & S3). fold L in S1, S2, S3.
  exists L, (map (fun i => take k (drop (i * k) L)) (seq 0 n)). split; [|split; [by rewrite length_map, length_seq|split; [|split; [done|split; [done|]]]]].
  - intros i Hi. eexists. split.
    + rewrite list_lookup_fmap, lookup_seq_lt by done. reflexivity.
    + rewrite page_of_eq by nia. fold L. by rewrite Z2Nat.inj_mul, Nat2Z.id by lia.
  - apply chunks_cover. rewrite S2. assert (length (keep (matchesFilter f) s) <= length s)%nat by apply List.filter_length_le. subst k. nia.
  - intros t. by rewrite S3, keep_keep.
Qed.

(** ** Statistics *)

(** The number of matching entries that a test holds of, as 64 bits. *)
Definition number (p : AuditLog -> bool) (l : list AuditLog) : Z := wrap64 (count_if p l).

Lemma number_snoc p l x : number p (l ++ [x]) = if p x then number p l +! 1 else number p l.
Proof.
  unfold number, count_if, keep. rewrite List.filter_app, length_app. cbn. destruct (p x); cbn.
  - rewrite wrap64_add_l. f_equal. lia.
  - by rewrite Nat.add_0_r.
Qed.

Lemma counted_lookup k k' m : counted k m !! k' = if String.eqb k k' then Some (default 0 (m !! k) +! 1) else m !! k'.
Proof. unfold counted. destruct (String.eqb_spec k k') as [<-|Hne]; [by rewrite lookup_insert_eq|by rewrite lookup_insert_ne]. Qed.

(** What the loop has counted after some entries. *)
Record tally_ok (t : tally) (l : list AuditLog) : Prop := {
  ok_total : t.(ty_stats).(as_TotalEvents) = number (fun _ => true) l;
  ok_success : t.(ty_stats).(as_SuccessCount) = number al_Success l;
  ok_failure : t.(ty_stats).(as_FailureCount) = number (fun a => negb a.(al_Success)) l;
  ok_actions : forall k, default 0 (t.(ty_stats).(as_ActionCounts) !! k) = number (fun a => String.eqb a.(al_Action) k) l;
  ok_objects : forall k, default 0 (t.(ty_stats).(as_ObjectTypeCounts) !! k) = number (fun a => String.eqb a.(al_ObjectType) k) l;
  ok_actors : t.(ty_actors) = list_to_set (al_ActorID <$> l);
}.

Lemma tally_log_ok t l x : tally_ok t l -> tally_ok (tally_log t x) (l ++ [x]).
Proof.
  intros [H1 H2 H3 H4 H5 H6]. split; intros; rewrite ?number_snoc; cbn [tally_log ty_stats ty_actors as_TotalEvents as_SuccessCount as_FailureCount as_ActionCounts as_ObjectTypeCounts].
  - by rewrite H1.
  - rewrite H2. by destruct (al_Success x).
  - rewrite H3. by destruct (al_Success x).
  - rewrite counted_lookup. destruct (String.eqb_spec (al_Action x) k) as [E|]; [cbn; by rewrite H4, E|apply H4].
  - rewrite counted_lookup. destruct (String.eqb_spec (al_ObjectType x) k) as [E|]; [cbn; by rewrite H5, E|apply H5].
  - rewrite H6, fmap_app, list_to_set_app_L. cbn. set_solver.
Qed.

(** The statistics are about the entries that a listing with the same filter shows: their
    number, how many of them succeeded and failed, how many there are of each action and
    type of object, and how many actors they have. *)
Theorem audit_stats_exact f s stats :
  ma_GetAuditLogStats f s = inr stats ->
  let l := keep (matchesFilter f) s in
  stats.(as_TotalEvents) = number (fun _ => true) l /\ stats.(as_SuccessCount) = number al_Success l
  /\ stats.(as_FailureCount) = number (fun a => negb a.(al_Success)) l
  /\ (forall k, default 0 (stats.(as_ActionCounts) !! k) = number (fun a => String.eqb a.(al_Action) k) l)
  /\ (forall k, default 0 (stats.(as_ObjectTypeCounts) !! k) = number (fun a => String.eqb a.(al_ObjectType) k) l)
  /\ stats.(as_UniqueActors) = Z.of_nat (size (list_to_set (C := gset string) (al_ActorID <$> l))).
Proof.
  intros E l. injection E as <-.
  assert (T : forall seen rest t, tally_ok t seen -> tally_ok (fold_left tally_log rest t) (seen ++ rest)).
  { intros seen rest. revert seen. induction rest as [|x rest IH]; intros seen t Ht; cbn; [by rewrite app_nil_r|].
    replace (seen ++ x :: rest) with ((seen ++ [x]) ++ rest) by by rewrite <- app_assoc. apply IH. by apply tally_log_ok. }
  destruct (T [] l no_tally) as [H1 H2 H3 H4 H5 H6]; [split; done|]. cbn [app] in *. repeat split; auto. cbn. by rewrite <- H6.
Qed.

(** ** Differences *)

(** The difference names exactly the keys whose values differ, with both values, and is
    made whenever no key has two maps or two slices of the same type. *)
Theorem diff_exact (b a : gmap string value) :
  (forall k, uncomparable b a k = false) ->
  exists d, calculateDiff b a = Ok d
    /\ forall k, match b !! k, a !! k with
                 | None, None => d !! k = None
                 | Some x, Some y => (differs x y = Ok true /\ d !! k = Some {| before_ := x; after_ := y |}) \/ (differs x y = Ok false /\ d !! k = None)
                 | x, y => d !! k = Some {| before_ := default VNil x; after_ := default VNil y |}
                 end.
Proof.
  intros Hc. unfold calculateDiff. destruct (existsb _ _) eqn:E.
  { apply existsb_exists in E as ([k v] & _ & Hk). cbn in Hk. by rewrite Hc in Hk. }
  eexists. split; [done|]. intros k. rewrite lookup_merge. specialize (Hc k). unfold uncomparable in Hc.
  destruct (b !! k) as [x|], (a !! k) as [y|]; cbn; try done.
  destruct (differs x y) as [[]| |] eqn:D; [by left|by right| |done]. by destruct x, y; cbn in D; try destruct (String.eqb _ _).
Qed.

(** Two maps under the same key: recording an update of a record with a map or a slice in
    it panics. *)
Example update_of_map_panics :
  let v c := Some {[ "metadata" := VComposite "map[string]any" c ]} in
  LogAction (S := MemoryAuditLogStore) "id" 0 "admin" "user" "update" AuditObjectTeam "t" true (v "{}") (v "{}") (NewAuditLogger (Some []) true) = Panic.
Proof. vm_compute. reflexivity. Qed.

(** ** Retention *)

(** Within three hundred years a request to delete old entries deletes those that are at
    least that old and no others. *)
Theorem retention_exact `{!RFC3339} now days s :
  0 < days <= 106751 ->
  let s' := (h_DeleteAuditLogs (S := MemoryAuditLogStore) now (Some days) s).1 in
  s' = keep (fun a => now - days * 24 * Hour <=? a.(al_Timestamp)) s.
Proof.
  intros Hd s'. subst s'. unfold h_DeleteAuditLogs. replace (days <=? 0) with false by lia. cbn [DeleteAuditLogs memory_audit_log_store fst ma_DeleteAuditLogs].
  assert (R : retention days = - (days * 24 * Hour)).
  { unfold retention, Hour, Minute, Second. rewrite (wrap64_id (- days)), (wrap64_id (- days * 24)), wrap64_id; unfold in_i64, two63; lia. }
  rewrite R. unfold time_add, before, keep. apply List.filter_ext. intros a. lia.
Qed.

(** A request to delete what is older than 106752 days deletes everything: the length of
    the time is more than a duration holds. *)
Theorem long_retention_deletes_all `{!RFC3339} now s :
  Forall (fun a => a.(al_Timestamp) <= now) s -> (h_DeleteAuditLogs (S := MemoryAuditLogStore) now (Some 106752) s).1 = [].
Proof.
  intros Hs. unfold h_DeleteAuditLogs. cbn [Z.leb Z.compare DeleteAuditLogs memory_audit_log_store fst ma_DeleteAuditLogs].
  change (retention 106752) with 9223371273709551616. unfold time_add, before, keep.
  induction Hs as [|a s Ha _ IH]; [done|]. cbn. destruct (Z.ltb_spec (al_Timestamp a) (now + 9223371273709551616)); [done|lia].
Qed.

(** Three entries in pages of two. *)
Lemma audit_pages_witness :
  let log id t := zero_log<|al_ID := id|><|al_Timestamp := t|><|al_Success := true|> in
  let s := [log "a" 5; log "b" 7; log "c" 5] in
  let f := {| af_ActorID := None; af_ActorType := None; af_Action := None; af_ObjectType := None; af_ObjectID := None; af_TeamID := None;
              af_OrganizationID := None; af_StartTime := zero_time; af_EndTime := zero_time; af_Success := Some true; af_Limit := 2; af_Offset := 0 |} in
  exists L pages, concat pages = L /\ newest_first L /\ L ≡ₚ keep (matchesFilter f) s /\ length pages = 2%nat.
Proof.
  intros log s f. destruct (audit_pages f s 2) as (L & pages & _ & Hn & Hc & Hs & Hp & _); [vm_compute; reflexivity|vm_compute; discriminate|vm_compute; reflexivity|].
  exists L, pages. done.
Defined.
