(* ===== verification/UserTeamSync.v ===== *)
(** * Synchronisation on login ([internal/auth/user_team_sync.go])

    [SyncUserTeams] brings the role, the teams and the organization of a user in line
    with the claims of a token.  Each reading of the clock is a parameter; [ord] is
    the order in which the runtime visits a map. *)
From S2P Require Import Prelude Float64 AuthTypes AuthStore Directory.

Record UserTeamSyncConfig := {
  Enabled : bool;
  AutoCreateUsers : bool;
  AutoCreateTeams : bool;
  RemoveFromUnlistedTeams : bool;
  SyncUserRole : bool;
  DefaultRole : string;
  DefaultOrganizationID : string;
}.

Record SyncRequest := {
  sr_UserID : string;
  sr_Email : option string;
  sr_Role : string;
  sr_TeamIDs : list string;
  sr_OrganizationID : option string;
}.

Record SyncResult := {
  UserCreated : bool;
  UserUpdated : bool;
  res_UserID : string;
  TeamsAdded : list string;
  TeamsRemoved : list string;
  TeamsCreated : list string;
  RoleUpdated : bool;
  OldRole : string;
  NewRole : string;
  Warnings : list string;
}.

Definition emptyResult : SyncResult :=
  {| UserCreated := false; UserUpdated := false; res_UserID := ""; TeamsAdded := []; TeamsRemoved := []; TeamsCreated := [];
     RoleUpdated := false; OldRole := ""; NewRole := ""; Warnings := [] |}.

(** [SyncError], or an error of the store. *)
Inductive sync_err := ErrUserNotFound | ErrTeamNotFound | SyncStore (e : auth_err).

Definition sync_err_text (e : sync_err) : string :=
  match e with
  | ErrUserNotFound => "user not found and auto-create is disabled"
  | ErrTeamNotFound => "team not found and auto-create is disabled"
  | SyncStore e => auth_err_text e
  end.

Definition UserRoleInternalUser := "internal_user".

Definition warn (msg : string) (res : SyncResult) : SyncResult := res<|Warnings ::= fun w => w ++ [msg]|>.

Section Syncer.
Context {S : Type} `{!AuthStore S} `{!Directory S} (config : UserTeamSyncConfig) (ord : gset string -> list string).
Implicit Types (s : S) (res : SyncResult).

Definition getDefaultRole (jwtRole : string) : string :=
  if negb (String.eqb jwtRole "") then jwtRole
  else if negb (String.eqb config.(DefaultRole) "") then config.(DefaultRole)
  else UserRoleInternalUser.

Definition new_user (now : time) (req : SyncRequest) : User :=
  let user := zeroUser<|u_ID := req.(sr_UserID)|><|u_Email := req.(sr_Email)|><|u_Role := getDefaultRole req.(sr_Role)|>
                      <|u_IsActive := true|><|u_CreatedAt := Some now|><|u_UpdatedAt := Some now|> in
  match req.(sr_OrganizationID) with
  | Some org => user<|u_OrganizationID := Some org|>
  | None => if negb (String.eqb config.(DefaultOrganizationID) "") then user<|u_OrganizationID := Some config.(DefaultOrganizationID)|> else user
  end.

Definition ensureUser (now : time) (req : SyncRequest) s res : S * SyncResult * (sync_err + User) :=
  match GetUser req.(sr_UserID) s with
  | inl e => (s, res, inl (SyncStore e))
  | inr (Some user) => (s, res, inr user)
  | inr None =>
      if negb config.(AutoCreateUsers) then (s, res, inl ErrUserNotFound)
      else
        let user := new_user now req in
        match CreateUser user s with
        | (s, Some e) => (s, res, inl (SyncStore e))
        | (s, None) => (s, res<|UserCreated := true|>, inr user)
        end
  end.

(** The user is changed in place. *)
Definition syncUserRole (now : time) (user : User) (newRole : string) s res : S * SyncResult * User :=
  if String.eqb user.(u_Role) newRole then (s, res, user)
  else
    let oldRole := user.(u_Role) in
    let user := user<|u_Role := newRole|><|u_UpdatedAt := Some now|> in
    match UpdateUser user s with
    | (s, Some e) => (s, warn ("failed to update role: " +:+ auth_err_text e) res, user)
    | (s, None) => (s, res<|RoleUpdated := true|><|OldRole := oldRole|><|NewRole := newRole|><|UserUpdated := true|>, user)
    end.

Definition ensureTeam (now : time) (teamID : string) s res : S * SyncResult * option sync_err :=
  match GetTeam teamID s with
  | inl e => (s, res, Some (SyncStore e))
  | inr (Some _) => (s, res, None)
  | inr None =>
      if negb config.(AutoCreateTeams) then (s, res, Some ErrTeamNotFound)
      else
        let team := zeroTeam<|t_ID := teamID|><|t_IsActive := true|><|t_CreatedAt := now|><|t_UpdatedAt := now|> in
        match CreateTeam team s with
        | (s, Some e) => (s, res, Some (SyncStore e))
        | (s, None) => (s, res<|TeamsCreated ::= fun l => l ++ [teamID]|>, None)
        end
  end.

(** One team of the claims; [clk] has the two readings of the clock of each. *)
Definition add_team (clk : nat -> time * time) (userID : string) (current : gset string) (acc : S * SyncResult) (p : nat * string) : S * SyncResult :=
  let '(s, res) := acc in
  let '(i, teamID) := p in
  if bool_decide (teamID ∈ current) then acc
  else
    match ensureTeam (clk i).1 teamID s res with
    | (s, res, Some e) => (s, warn ("failed to ensure team " +:+ teamID +:+ ": " +:+ sync_err_text e) res)
    | (s, res, None) =>
        let membership := zeroMembership<|tm_UserID := userID|><|tm_TeamID := teamID|><|tm_Role := "member"|><|tm_JoinedAt := Some (clk i).2|> in
        match CreateTeamMembership membership s with
        | (s, Some e) => (s, warn ("failed to add to team " +:+ teamID +:+ ": " +:+ auth_err_text e) res)
        | (s, None) => (s, res<|TeamsAdded ::= fun l => l ++ [teamID]|>)
        end
    end.

Definition remove_team (userID : string) (jwtTeamSet : gset string) (acc : S * SyncResult) (teamID : string) : S * SyncResult :=
  let '(s, res) := acc in
  if bool_decide (teamID ∈ jwtTeamSet) then acc
  else
    match DeleteTeamMembership userID teamID s with
    | (s, Some e) => (s, warn ("failed to remove from team " +:+ teamID +:+ ": " +:+ auth_err_text e) res)
    | (s, None) => (s, res<|TeamsRemoved ::= fun l => l ++ [teamID]|>)
    end.

Definition syncTeamMemberships (clk : nat -> time * time) (userID : string) (jwtTeamIDs : list string) s res : S * SyncResult :=
  match ListUserTeamMemberships userID s with
  | inl e => (s, warn ("failed to get current memberships: " +:+ auth_err_text e) res)
  | inr currentMemberships =>
      let currentTeamIDs : gset string := list_to_set (tm_TeamID <$> currentMemberships) in
      let jwtTeamSet : gset string := list_to_set jwtTeamIDs in
      let '(s, res) := foldl (add_team clk userID currentTeamIDs) (s, res) (imap pair jwtTeamIDs) in
      if config.(RemoveFromUnlistedTeams) then foldl (remove_team userID jwtTeamSet) (s, res) (ord currentTeamIDs) else (s, res)
  end.

Definition syncOrganizationMembership (now : time) (userID orgID : string) s res : S * SyncResult :=
  match GetOrganizationMembership userID orgID s with
  | inl _ => (s, res)
  | inr (Some _) => (s, res)
  | inr None =>
      let m := zeroOrgMembership<|om_UserID := userID|><|om_OrganizationID := orgID|><|om_UserRole := "member"|><|om_JoinedAt := Some now|> in
      match CreateOrganizationMembership m s with
      | (s, Some e) => (s, warn ("failed to add to organization: " +:+ auth_err_text e) res)
      | (s, None) => (s, res)
      end
  end.

Record sync_clock := { at_user : time; at_role : time; at_team : nat -> time * time; at_org : time }.

(** The result is returned with the error too. *)
Definition SyncUserTeams (clk : sync_clock) (req : SyncRequest) s : S * SyncResult * option sync_err :=
  if negb config.(Enabled) then (s, emptyResult, None)
  else
    match ensureUser clk.(at_user) req s emptyResult with
    | (s, res, inl e) => (s, res, Some e)
    | (s, res, inr user) =>
        let res := res<|res_UserID := user.(u_ID)|> in
        let '(s, res, user) :=
          if config.(SyncUserRole) && negb (String.eqb req.(sr_Role) "") then syncUserRole clk.(at_role) user req.(sr_Role) s res else (s, res, user) in
        let '(s, res) := match req.(sr_TeamIDs) with [] => (s, res) | ids => syncTeamMemberships clk.(at_team) user.(u_ID) ids s res end in
        let '(s, res) :=
          match req.(sr_OrganizationID) with
          | Some orgID => if String.eqb orgID "" then (s, res) else syncOrganizationMembership clk.(at_org) user.(u_ID) orgID s res
          | None => (s, res)
          end in
        (s, res, None)
    end.
End Syncer.

(** * The synchronisation reconciles a user with the claims

    The teams that the result reports as added and removed are exactly the changes of
    the memberships; and when there is no warning the user is in the teams of the
    claims, with or without the ones of before as the configuration says. *)

Section Reconcile.
Context {S : Type} `{!AuthStore S} `{!Directory S} `{!DirectoryLaws S}.
Context (config : UserTeamSyncConfig) (ord : gset string -> list string) (ord_spec : forall X, ord X ≡ₚ elements X).
Implicit Types (s : S) (res : SyncResult).

(** Memberships after some additions and removals of one user. *)
Definition changed (user : string) (added removed : list string) s s' : Prop :=
  dir_ok s' /\ forall u t, plain u -> in_team s' u t <-> (in_team s u t /\ ~ (u = user /\ t ∈ removed)) \/ (u = user /\ t ∈ added).

Lemma changed_none user s : dir_ok s -> changed user [] [] s s.
Proof. intros Hok. split; [done|]. intros u t _. set_solver. Qed.

Lemma changed_frame user a r s s1 s2 : changed user a r s s1 -> dir_ok s2 -> (forall u t, in_team s2 u t <-> in_team s1 u t) -> changed user a r s s2.
Proof. intros [_ Hc] Hok Hf. split; [done|]. intros u t Hu. by rewrite Hf, Hc. Qed.

Lemma ensureTeam_frame now t s res :
  dir_ok s ->
  let '(s', res', err) := ensureTeam config now t s res in
  dir_ok s' /\ (forall u t, in_team s' u t <-> in_team s u t)
  /\ TeamsAdded res' = TeamsAdded res /\ TeamsRemoved res' = TeamsRemoved res /\ Warnings res' = Warnings res.
Proof.
  intros Hok. unfold ensureTeam. destruct (GetTeam t s) as [e|[team|]]; [done..|]. destruct (negb _); [done|].
  match goal with |- context [CreateTeam ?x s] => pose proof (create_team_frame s x Hok) as [H1 H2]; destruct (CreateTeam x s) as [s' [e|]] end; done.
Qed.

Section Phases.
Context (user : string) (Huser : plain user).

(** ** The additions *)

Record adding s0 (cur : gset string) (visited : list string) (acc : S * SyncResult) : Prop := {
  adding_changed : changed user acc.2.(TeamsAdded) [] s0 acc.1;
  adding_removed : acc.2.(TeamsRemoved) = [];
  adding_new : forall t, t ∈ acc.2.(TeamsAdded) -> t ∈ visited /\ t ∉ cur;
  adding_all : acc.2.(Warnings) = [] -> forall t, t ∈ visited -> t ∈ cur \/ t ∈ acc.2.(TeamsAdded);
}.

Lemma warned msg res : Warnings (warn msg res) <> [].
Proof. cbn. by destruct (Warnings res). Qed.

(** A failure leaves a warning, and the memberships as they were. *)
Lemma adding_warned s0 cur visited s res s' res' msg t :
  adding s0 cur visited (s, res) -> dir_ok s' -> (forall u t, plain u -> in_team s' u t <-> in_team s u t) ->
  TeamsAdded res' = TeamsAdded res -> TeamsRemoved res' = TeamsRemoved res ->
  adding s0 cur (visited ++ [t]) (s', warn msg res').
Proof.
  intros [[_ Hc] Hr Hn _] Hok Hf Ha Hr'. cbn in *. split; cbn.
  - split; [done|]. intros u t' Hu. by rewrite Ha, Hf, Hc.
  - congruence.
  - rewrite Ha. set_solver.
  - intros Hw. by destruct (warned msg res').
Qed.

Lemma add_team_adding clk s0 cur visited acc p : adding s0 cur visited acc -> adding s0 cur (visited ++ [p.2]) (add_team config clk user cur acc p).
Proof.
  destruct acc as [s res], p as [i t]. intros Ha. unfold add_team. cbn [snd]. destruct (bool_decide_reflect (t ∈ cur)) as [Hin|Hin].
  { destruct Ha as [Hc Hr Hn Hw]. split; [done|done|set_solver|]. intros E x. specialize (Hw E x). set_solver. }
  pose proof (ensureTeam_frame (clk i).1 t s res (proj1 Ha.(adding_changed _ _ _ _))) as He.
  destruct (ensureTeam config (clk i).1 t s res) as [[s1 res1] [e|]]; destruct He as (Hok1 & Hf1 & Ea & Er & Ew).
  { eapply adding_warned; eauto. }
  match goal with |- context [CreateTeamMembership ?m s1] => set (m0 := m); pose proof (create_membership s1 m0 Hok1 Huser) as [Hok2 Hf2]; cbn in Hok2, Hf2 end.
  destruct (CreateTeamMembership m0 s1) as [s2 [e|]]; cbn [fst snd] in Hok2, Hf2.
  { eapply adding_warned; [exact Ha|done| |done..]. intros u x Hu. rewrite Hf2, Hf1 by done. naive_solver. }
  destruct Ha as [[_ Hc] Hr Hn Hw]. cbn in *. split; cbn; rewrite ?Ea, ?Er, ?Ew.
  - split; [done|]. intros u x Hu. rewrite Hf2, Hf1, Hc by done. set_solver.
  - done.
  - set_solver.
  - intros E x. specialize (Hw E x). set_solver.
Qed.

Lemma add_teams_adding clk s0 cur l visited acc :
  adding s0 cur visited acc -> adding s0 cur (visited ++ (snd <$> l)) (foldl (add_team config clk user cur) acc l).
Proof.
  revert visited acc. induction l as [|p l IH]; intros visited acc Ha; cbn; [by rewrite app_nil_r|].
  rewrite cons_middle, app_assoc. by apply IH, add_team_adding.
Qed.

(** ** The removals *)

Record removing s0 (added : list string) (was_quiet : Prop) (jwt : gset string) (visited : list string) (acc : S * SyncResult) : Prop := {
  removing_changed : changed user added acc.2.(TeamsRemoved) s0 acc.1;
  removing_added : acc.2.(TeamsAdded) = added;
  removing_old : forall t, t ∈ acc.2.(TeamsRemoved) -> t ∈ visited /\ t ∉ jwt;
  removing_all : acc.2.(Warnings) = [] -> was_quiet /\ forall t, t ∈ visited -> t ∈ jwt \/ t ∈ acc.2.(TeamsRemoved);
}.

Lemma remove_team_removing s0 added q jwt visited acc t :
  (forall x, x ∈ added -> x ∈ jwt) -> removing s0 added q jwt visited acc -> removing s0 added q jwt (visited ++ [t]) (remove_team user jwt acc t).
Proof.
  intros Hj. destruct acc as [s res]. intros [[Hok Hc] Ha Ho Hw]. cbn in *. destruct (bool_decide_reflect (t ∈ jwt)) as [Hin|Hin].
  { split; cbn; [done|done|set_solver|]. intros E. destruct (Hw E) as [Hq Hall]. split; [done|]. intros x. specialize (Hall x). set_solver. }
  pose proof (delete_membership s user t Hok Huser) as [Hok' Hf]. cbn in Hok', Hf.
  destruct (DeleteTeamMembership user t s) as [s' [e|]]; cbn [fst snd] in Hok', Hf; split; cbn.
  - split; [done|]. intros u x Hu. rewrite Hf, Hc by done. naive_solver.
  - done.
  - set_solver.
  - intros E. by destruct (warned ("failed to remove from team " +:+ t +:+ ": " +:+ auth_err_text e) res).
  - split; [done|]. intros u x Hu. rewrite Hf, Hc by done. rewrite elem_of_app, list_elem_of_singleton. specialize (Hj x). clear -Hj Hin. naive_solver.
  - done.
  - set_solver.
  - intros E. destruct (Hw E) as [Hq Hall]. split; [done|]. intros x. specialize (Hall x). set_solver.
Qed.

Lemma remove_teams_removing s0 added q jwt l visited acc :
  (forall x, x ∈ added -> x ∈ jwt) -> removing s0 added q jwt visited acc ->
  removing s0 added q jwt (visited ++ l) (foldl (remove_team user jwt) acc l).
Proof.
  intros Hj. revert visited acc. induction l as [|t l IH]; intros visited acc Ha; cbn; [by rewrite app_nil_r|].
  rewrite cons_middle, app_assoc. by apply IH, remove_team_removing.
Qed.

(** ** The memberships *)

(** What a synchronisation with some teams does. *)
Record reconciled s (ids : list string) s' res' : Prop := {
  rec_changed : changed user res'.(TeamsAdded) res'.(TeamsRemoved) s s';
  rec_added t : t ∈ res'.(TeamsAdded) -> t ∈ ids;
  rec_removed t : t ∈ res'.(TeamsRemoved) -> t ∉ ids;
  rec_keep : config.(RemoveFromUnlistedTeams) = false -> res'.(TeamsRemoved) = [];
  rec_exact : res'.(Warnings) = [] -> forall t, in_team s' user t <-> t ∈ ids \/ (config.(RemoveFromUnlistedTeams) = false /\ in_team s user t);
}.

Lemma sync_teams_reconciled clk ids s res :
  dir_ok s -> TeamsAdded res = [] -> TeamsRemoved res = [] ->
  let '(s', res') := syncTeamMemberships config ord clk user ids s res in reconciled s ids s' res'.
Proof.
  intros Hok Ea Er. unfold syncTeamMemberships. destruct (ListUserTeamMemberships user s) as [e|l] eqn:El.
  { split; cbn; rewrite ?Ea, ?Er; [by apply changed_none|set_solver|set_solver|done|]. intros Hw. by destruct (warned ("failed to get current memberships: " +:+ auth_err_text e) res). }
  set (cur := list_to_set (tm_TeamID <$> l) : gset string).
  assert (Hcur : forall t, t ∈ cur <-> in_team s user t).
  { intros t. rewrite (list_user_teams s user l t Hok El). unfold cur. rewrite elem_of_list_to_set, list_elem_of_fmap. naive_solver. }
  assert (Hids : snd <$> imap pair ids = ids) by (rewrite fmap_imap; etrans; [apply (imap_const id)|apply list_fmap_id]).
  assert (A : adding s cur (snd <$> imap pair ids) (foldl (add_team config clk user cur) (s, res) (imap pair ids))).
  { apply (add_teams_adding clk s cur _ [] (s, res)). split; cbn; rewrite ?Ea; [by apply changed_none|done|set_solver..]. }
  rewrite Hids in A. destruct (foldl _ _ _) as [s1 res1]. destruct A as [Hc Hr Hn Hw]. cbn in *.
  destruct (RemoveFromUnlistedTeams config) eqn:Ef.
  - assert (B : removing s (TeamsAdded res1) (Warnings res1 = []) (list_to_set ids) (ord cur)
                  (foldl (remove_team user (list_to_set ids)) (s1, res1) (ord cur))).
    { apply (remove_teams_removing s _ _ _ _ []); [set_solver|]. split; cbn; rewrite ?Hr; [done|done|set_solver|]. split; [done|set_solver]. }
    destruct (foldl _ _ _) as [s2 res2]. destruct B as [Hc2 Ha2 Ho2 Hw2]. cbn in *. rewrite <- Ha2 in *.
    split; [done|intros t Ht; by apply Hn|set_solver|congruence|]. intros E t. destruct (Hw2 E) as [Hq Hall]. specialize (Hw Hq t).
    destruct Hc2 as [_ Hm]. rewrite (Hm user t Huser). specialize (Hall t). rewrite ord_spec, elem_of_elements, Hcur in Hall.
    specialize (Ho2 t). specialize (Hn t). rewrite Hcur in Hw, Hn. rewrite elem_of_list_to_set in Hall, Ho2.
    assert (D : t ∈ TeamsRemoved res2 \/ t ∉ TeamsRemoved res2) by (destruct (decide (t ∈ TeamsRemoved res2)); auto).
    clear -Hall Ho2 Hn Hw D Ef. intuition congruence.
  - split; rewrite ?Hr; [done|intros t Ht; by apply Hn|set_solver|done|]. intros E t. specialize (Hw E t).
    destruct Hc as [_ Hm]. rewrite (Hm user t Huser). specialize (Hn t). rewrite Hcur in Hw, Hn. set_solver.
Qed.
End Phases.

(** ** The rest of the synchronisation changes no team *)

(** The same memberships, and the same report of teams; warnings are only added. *)
Record same_teams s res s' res' : Prop := {
  same_ok : dir_ok s -> dir_ok s';
  same_in u t : dir_ok s -> in_team s' u t <-> in_team s u t;
  same_added : TeamsAdded res' = TeamsAdded res;
  same_removed : TeamsRemoved res' = TeamsRemoved res;
  same_quiet : Warnings res' = [] -> Warnings res = [];
}.

Lemma same_teams_refl s res : same_teams s res s res.
Proof. by split. Qed.

Lemma same_teams_warned s s' res msg : (dir_ok s -> dir_ok s' /\ forall u t, in_team s' u t <-> in_team s u t) -> same_teams s res s' (warn msg res).
Proof. intros H. split; [by intros [? _]%H|intros u t [_ Hi]%H; apply Hi|done|done|]. intros E. by destruct (warned msg res). Qed.

Lemma ensureUser_same now req s res : let '(s', res', r) := ensureUser config now req s res in same_teams s res s' res'.
Proof.
  unfold ensureUser. destruct (GetUser _ _) as [e|[u|]]; [apply same_teams_refl..|]. destruct (negb _); [apply same_teams_refl|].
  pose proof (create_user_frame s (new_user config now req)) as Hf. destruct (CreateUser _ _) as [s' [e|]]; (split; [by intros [? _]%Hf|intros u t [_ Hi]%Hf; apply Hi|done..]).
Qed.

Lemma syncUserRole_same now user role s res :
  let '(s', res', user') := syncUserRole now user role s res in same_teams s res s' res' /\ user'.(u_ID) = user.(u_ID) /\ res_UserID res' = res_UserID res.
Proof.
  unfold syncUserRole. destruct (String.eqb _ _); [split; [apply same_teams_refl|done]|].
  match goal with |- context [UpdateUser ?x s] => pose proof (update_user_frame s x) as Hf; destruct (UpdateUser x s) as [s' [e|]] end.
  - split; [by apply same_teams_warned|done].
  - split; [|done]. split; [by intros [? _]%Hf|intros u t [_ Hi]%Hf; apply Hi|done..].
Qed.

Lemma syncOrg_same now user org s res :
  let '(s', res') := syncOrganizationMembership now user org s res in same_teams s res s' res' /\ res_UserID res' = res_UserID res.
Proof.
  unfold syncOrganizationMembership. destruct (GetOrganizationMembership _ _ _) as [e|[m|]]; [split; [apply same_teams_refl|done]..|].
  match goal with |- context [CreateOrganizationMembership ?x s] => pose proof (create_org_member_frame s x) as Hf; destruct (CreateOrganizationMembership x s) as [s' [e|]] end.
  - split; [by apply same_teams_warned|done].
  - split; [|done]. split; [by intros [? _]%Hf|intros u t [_ Hi]%Hf; apply Hi|done..].
Qed.

Lemma changed_same user a r s0 s1 s2 s3 res1 res2 res0 res3 :
  dir_ok s0 -> same_teams s0 res0 s1 res1 -> changed user a r s1 s2 -> same_teams s2 res2 s3 res3 -> changed user a r s0 s3.
Proof.
  intros Hok H1 [Hok2 Hc] H3. split; [by apply H3|]. intros u t Hu. rewrite (same_in _ _ _ _ H3), (Hc u t Hu), (same_in _ _ _ _ H1); done.
Qed.

Lemma syncTeams_user clk user ids s res : res_UserID (syncTeamMemberships config ord clk user ids s res).2 = res_UserID res.
Proof.
  unfold syncTeamMemberships. destruct (ListUserTeamMemberships _ _) as [e|l]; [done|]. set (cur := list_to_set _ : gset string).
  assert (A : forall l acc, res_UserID (foldl (add_team config clk user cur) acc l).2 = res_UserID acc.2).
  { induction l0 as [|[i t] l0 IH]; intros [s' res']; [done|]. cbn [foldl]. rewrite IH. unfold add_team, ensureTeam. repeat (case_match; simplify_eq/=); done. }
  specialize (A (imap pair ids) (s, res)). destruct (foldl _ _ _) as [s1 res1]. cbn in A. rewrite <- A.
  destruct (RemoveFromUnlistedTeams config); [|done]. generalize (ord cur). intros k. revert s1 res1 A.
  induction k as [|t k IH]; intros s1 res1 A; [done|]. cbn [foldl]. unfold remove_team at 2. repeat (case_match; simplify_eq/=); by rewrite IH.
Qed.

(** The whole synchronisation: the teams, between parts that change none. *)
Lemma sync_shape clk req s s' res :
  config.(Enabled) = true -> SyncUserTeams config ord clk req s = (s', res, None) ->
  exists s1 res1 s2 res2, same_teams s emptyResult s1 res1 /\ same_teams s2 res2 s' res
    /\ (s2, res2) = match req.(sr_TeamIDs) with [] => (s1, res1) | ids => syncTeamMemberships config ord clk.(at_team) (res_UserID res) ids s1 res1 end.
Proof.
  intros En. unfold SyncUserTeams. rewrite En. cbn [negb].
  pose proof (ensureUser_same (at_user clk) req s emptyResult) as Hu. destruct (ensureUser config _ req s emptyResult) as [[s1 res1] [e|user]]; [done|].
  set (res1' := res1<|res_UserID := u_ID user|>).
  assert (Hr : exists s2 res2 user2, (if SyncUserRole config && negb (String.eqb (sr_Role req) "") then syncUserRole (at_role clk) user (sr_Role req) s1 res1' else (s1, res1', user))
                = (s2, res2, user2) /\ same_teams s emptyResult s2 res2 /\ u_ID user2 = u_ID user /\ res_UserID res2 = u_ID user).
  { assert (Hu' : same_teams s emptyResult s1 res1') by (destruct Hu; by split).
    destruct (SyncUserRole config && _); [|by exists s1, res1', user].
    pose proof (syncUserRole_same (at_role clk) user (sr_Role req) s1 res1') as Hs. destruct (syncUserRole _ _ _ _ _) as [[s2 res2] user2].
    destruct Hs as (Hs & Hid & Hres). exists s2, res2, user2. split; [done|]. split; [|done].
    destruct Hu', Hs. split; [auto|intros u t Hok; rewrite same_in1, same_in0; auto|congruence|congruence|auto]. }
  destruct Hr as (s2 & res2 & user2 & -> & Hsame & Hid & Hres).
  set (teams := match sr_TeamIDs req with [] => (s2, res2) | _ => _ end).
  assert (Ht : res_UserID teams.2 = u_ID user) by (unfold teams; destruct (sr_TeamIDs req); [done|]; by rewrite syncTeams_user).
  destruct teams as [s3 res3] eqn:Et. cbn in Ht.
  assert (Ho : exists s4 res4, (match sr_OrganizationID req with Some orgID => if String.eqb orgID "" then (s3, res3) else syncOrganizationMembership (at_org clk) (u_ID user2) orgID s3 res3 | None => (s3, res3) end)
                = (s4, res4) /\ same_teams s3 res3 s4 res4 /\ res_UserID res4 = res_UserID res3).
  { destruct (sr_OrganizationID req) as [org|]; [|exists s3, res3; auto using same_teams_refl]. destruct (String.eqb org ""); [exists s3, res3; auto using same_teams_refl|].
    pose proof (syncOrg_same (at_org clk) (u_ID user2) org s3 res3) as Hs. destruct (syncOrganizationMembership _ _ _ _ _) as [s4 res4]. by exists s4, res4. }
  destruct Ho as (s4 & res4 & -> & Hsame' & Hres'). intros [= <- <-].
  exists s2, res2, s3, res3. split; [done|]. split; [done|]. rewrite Hres', Ht, <- Hid. by unfold teams in Et.
Qed.

(** C23: A login reconciles the teams of the user with the claims of the token.  When the
    synchronisation is on and ends without an error (the user was found or made), for a
    storage in order and a user whose identifier has no colon: if the token claims teams,
    then, whatever else failed on the way, the memberships change exactly as the result
    reports, for this user alone, and a team of the claims is never taken away; and when
    there is no warning the user is in the teams of the claims, and in those of before
    too unless the configuration removes them.  If the token claims no team, no
    membership changes, also when the configuration removes unlisted ones. *)
Theorem sync_reconciles clk req s s' res :
  config.(Enabled) = true -> dir_ok s ->
  SyncUserTeams config ord clk req s = (s', res, None) -> plain (res_UserID res) ->
  match req.(sr_TeamIDs) with
  | [] => res.(TeamsAdded) = [] /\ res.(TeamsRemoved) = [] /\ forall u t, in_team s' u t <-> in_team s u t
  | ids => reconciled (res_UserID res) s ids s' res
  end.
Proof.
  intros En Hok Hs Hp. destruct (sync_shape clk req s s' res En Hs) as (s1 & res1 & s2 & res2 & H1 & H3 & E).
  destruct (sr_TeamIDs req) as [|id ids].
  { injection E as -> ->. split_and!; [by rewrite (same_added _ _ _ _ H3), (same_added _ _ _ _ H1)|by rewrite (same_removed _ _ _ _ H3), (same_removed _ _ _ _ H1)|].
    intros u t. rewrite (same_in _ _ _ _ H3), (same_in _ _ _ _ H1) by (done || by apply H1). done. }
  pose proof (same_ok _ _ _ _ H1 Hok) as Hok1.
  pose proof (sync_teams_reconciled _ Hp clk.(at_team) (id :: ids) s1 res1 Hok1 (same_added _ _ _ _ H1) (same_removed _ _ _ _ H1)) as Hr.
  rewrite <- E in Hr. destruct Hr as [Hc Ha Hr Hk Hx]. pose proof H3 as [_ Hin3 Ea Er Hq]. split; rewrite ?Ea, ?Er; try done.
  - by eapply changed_same.
  - intros Hw t. rewrite Hin3 by apply Hc. rewrite (Hx (Hq Hw)), (same_in _ _ _ _ H1) by done. done.
Qed.

(** A token without teams takes none away: with [RemoveFromUnlistedTeams] too, a
    user whose last team is gone from the claims keeps every membership. *)
Theorem empty_claim_keeps_teams clk req s s' res :
  dir_ok s -> req.(sr_TeamIDs) = [] -> SyncUserTeams config ord clk req s = (s', res, None) ->
  forall u t, in_team s' u t <-> in_team s u t.
Proof.
  intros Hok Hne Hs u t. destruct (Enabled config) eqn:En; [|unfold SyncUserTeams in Hs; rewrite En in Hs; by injection Hs as <- _].
  destruct (sync_shape clk req s s' res En Hs) as (s1 & res1 & s2 & res2 & H1 & H3 & E). rewrite Hne in E. injection E as -> ->.
  rewrite (same_in _ _ _ _ H3), (same_in _ _ _ _ H1) by (done || by apply H1). done.
Qed.
End Reconcile.

(** ** In memory *)

Import MemoryAuth.
Section InMemory.
Context (ord : gset string -> list string) (toLower : string -> string).
#[local] Existing Instances memory_auth_store memory_directory memory_directory_laws.
#[local] Instance store_here : AuthStore MemoryStore := memory_auth_store ord.
#[local] Instance directory_here : Directory MemoryStore := memory_directory ord toLower.

Lemma quiet_role now user role (s : MemoryStore) res : Warnings res = [] -> Warnings (syncUserRole now user role s res).1.2 = [].
Proof. intros Hw. unfold syncUserRole. cbn. by destruct (String.eqb _ _). Qed.

Lemma quiet_org now user org (s : MemoryStore) res : Warnings res = [] -> Warnings (syncOrganizationMembership now user org s res).2 = [].
Proof. intros Hw. unfold syncOrganizationMembership. cbn. by destruct (_ !! _). Qed.

Lemma quiet_adds config clk user cur l (acc : MemoryStore * SyncResult) :
  config.(AutoCreateTeams) = true -> Warnings acc.2 = [] -> Warnings (foldl (add_team config clk user cur) acc l).2 = [].
Proof.
  intros Ht. revert acc. induction l as [|[i t] l IH]; intros [s res] Hw; [done|]. cbn [foldl]. apply IH.
  unfold add_team, ensureTeam. cbn. rewrite Ht. cbn. by repeat case_match; simplify_eq/=.
Qed.

Lemma quiet_removes user jwt l (acc : MemoryStore * SyncResult) : Warnings acc.2 = [] -> Warnings (foldl (remove_team user jwt) acc l).2 = [].
Proof.
  revert acc. induction l as [|t l IH]; intros [s res] Hw; [done|]. cbn [foldl]. apply IH. unfold remove_team. cbn. by repeat case_match; simplify_eq/=.
Qed.

Lemma quiet_teams config clk user ids (s : MemoryStore) res :
  config.(AutoCreateTeams) = true -> Warnings res = [] -> Warnings (syncTeamMemberships config ord clk user ids s res).2 = [].
Proof.
  intros Ht Hw. unfold syncTeamMemberships. cbn [ListUserTeamMemberships directory_here memory_directory]. unfold ms_ListUserTeamMemberships.
  set (cur := list_to_set _ : gset string). pose proof (quiet_adds config clk user cur (imap pair ids) (s, res) Ht Hw) as Ha.
  destruct (foldl _ _ _) as [s1 res1]. destruct (RemoveFromUnlistedTeams config); [by apply quiet_removes|done].
Qed.

Lemma quiet_user config now req (s : MemoryStore) res :
  config.(AutoCreateUsers) = true -> exists s' res' user, ensureUser config now req s res = (s', res', inr user) /\ Warnings res' = Warnings res.
Proof.
  intros Hu. unfold ensureUser. cbn. unfold ms_GetUser. destruct (users s !! sr_UserID req) as [user|]; [by eexists _, _, _|].
  rewrite Hu. by eexists _, _, _.
Qed.

(** Nothing fails: a login returns its result, without a warning. *)
Lemma memory_sync_succeeds config clk req (s : MemoryStore) :
  config.(AutoCreateUsers) = true -> config.(AutoCreateTeams) = true ->
  exists s' res, SyncUserTeams config ord clk req s = (s', res, None) /\ res.(Warnings) = [].
Proof.
  intros Hu Ht. unfold SyncUserTeams. destruct (Enabled config); cbn [negb]; [|by eexists _, _].
  destruct (quiet_user config (at_user clk) req s emptyResult Hu) as (s1 & res1 & user & -> & Hw).
  set (res1' := res1<|res_UserID := u_ID user|>). set (role := if SyncUserRole config && _ then _ else _).
  assert (Hr : Warnings role.1.2 = []) by (unfold role; case_match; [by apply quiet_role|done]). destruct role as [[s2 res2] user2]. cbn in Hr.
  set (teams := match sr_TeamIDs req with [] => _ | _ => _ end).
  assert (Hte : Warnings teams.2 = []) by (unfold teams; case_match; [done|by apply quiet_teams]). destruct teams as [s3 res3]. cbn in Hte.
  set (org := match sr_OrganizationID req with Some _ => _ | None => _ end).
  assert (Ho : Warnings org.2 = []) by (unfold org; repeat case_match; [done|by apply quiet_org|done]). destruct org as [s4 res4]. by eexists _, _.
Qed.
End InMemory.
