(* ===== verification/Sso.v ===== *)
(** * Single sign-on ([internal/auth/oidc.go], [oidc_identity.go], [session.go], [session_middleware.go])

    The claims of a verified token become an identity; a session keeps one in a
    sealed cookie; and two middlewares turn them into an authentication context.  The
    verifier of tokens is a library: [verify] gives the claims of a token and its
    subject, or nothing.  The cipher, its text form and JSON are a class with the
    property that opening gives what was sealed. *)
From Stdlib Require Import Ascii.
From S2P Require Import Prelude Float64 AuthTypes AuthStore ModelName KeyUtils ModelAccess AuthMiddleware Directory UserTeamSync.

(** ** Claims *)

Inductive claim := ClString (s : string) | ClList (l : list claim) | ClOther.
Abbreviation claims := (gmap string claim).

Record OIDCConfig := {
  RoleClaim : string;
  RolesMap : gmap string string;
  UseRoleHierarchy : bool;
  TeamIDJWTField : string;
  TeamIDsJWTField : string;
  TeamAliasMap : gmap string string;
  OrgIDJWTField : string;
  OrgAliasMap : gmap string string;
  UserIDJWTField : string;
  UserEmailJWTField : string;
  UserAllowedEmailDomain : string;
  EndUserIDJWTField : string;
  oc_DefaultRole : string;
  DefaultTeamID : string;
}.

Definition UserRoleProxyAdminViewer := "proxy_admin_viewer".
Definition UserRoleInternalUserViewer := "internal_user_viewer".
Definition UserRoleTeam := "team".

(** From the highest to the lowest. *)
Definition roleHierarchy : list string :=
  [UserRoleProxyAdmin; UserRoleProxyAdminViewer; UserRoleOrgAdmin; UserRoleInternalUser; UserRoleInternalUserViewer; UserRoleTeam].

Fixpoint index_in (role : string) (l : list string) : nat :=
  match l with [] => 0 | r :: l' => if String.eqb r role then 0 else S (index_in role l') end.

Definition roleHierarchyIndex (role : string) : nat := index_in role roleHierarchy.

Definition extractStringClaim (cs : claims) (field : string) : string :=
  if String.eqb field "" then ""
  else match cs !! field with Some (ClString s) => s | _ => "" end.

Record userInfo := { ui_UserID : string; ui_Email : string }.

Definition extractUserInfo (cfg : OIDCConfig) (cs : claims) (subject : string) : userInfo :=
  let uid :=
    if negb (String.eqb cfg.(UserIDJWTField) "") then
      let uid := extractStringClaim cs cfg.(UserIDJWTField) in if negb (String.eqb uid "") then uid else subject
    else subject in
  let emailField := if String.eqb cfg.(UserEmailJWTField) "" then "email" else cfg.(UserEmailJWTField) in
  let email := extractStringClaim cs emailField in
  {| ui_UserID := if String.eqb uid "" && negb (String.eqb email "") then email else uid; ui_Email := email |}.

Definition getHighestPriorityRole (roles : list string) : string :=
  match roles with
  | [] => UserRoleInternalUser
  | highest :: rest =>
      foldl (fun highest role => if (roleHierarchyIndex role <? roleHierarchyIndex highest)%nat then role else highest) highest rest
  end.

(** The strings in a claim that is a string or a list. *)
Definition claim_strings (c : claim) : list string :=
  match c with
  | ClString s => [s]
  | ClList l => omap (fun g => match g with ClString s => Some s | _ => None end) l
  | ClOther => []
  end.

Definition default_role (cfg : OIDCConfig) : string := if String.eqb cfg.(oc_DefaultRole) "" then UserRoleInternalUser else cfg.(oc_DefaultRole).

(** The roles that the configuration gives to the groups of a claim. *)
Definition matched_roles (cfg : OIDCConfig) (c : claim) : list string := omap (fun g => cfg.(RolesMap) !! g) (claim_strings c).

Definition extractRole (cfg : OIDCConfig) (cs : claims) : string :=
  let roleClaim := if String.eqb cfg.(RoleClaim) "" then "groups" else cfg.(RoleClaim) in
  match cs !! roleClaim with
  | None => default_role cfg
  | Some val =>
      match matched_roles cfg val with
      | [] => default_role cfg
      | first :: rest => if cfg.(UseRoleHierarchy) && (1 <? length (first :: rest))%nat then getHighestPriorityRole (first :: rest) else first
      end
  end.

Definition alias (m : gmap string string) (x : string) : string := default x (m !! x).

Definition extractTeamIDs (cfg : OIDCConfig) (cs : claims) : list string :=
  let one := if negb (String.eqb cfg.(TeamIDJWTField) "") then
               let teamID := extractStringClaim cs cfg.(TeamIDJWTField) in
               if negb (String.eqb teamID "") then [alias cfg.(TeamAliasMap) teamID] else []
             else [] in
  let many := if negb (String.eqb cfg.(TeamIDsJWTField) "") then
                match cs !! cfg.(TeamIDsJWTField) with Some val => alias cfg.(TeamAliasMap) <$> claim_strings val | None => [] end
              else [] in
  one ++ many.

Definition extractOrgID (cfg : OIDCConfig) (cs : claims) : string :=
  if String.eqb cfg.(OrgIDJWTField) "" then ""
  else
    let orgID := extractStringClaim cs cfg.(OrgIDJWTField) in
    if String.eqb orgID "" then "" else alias cfg.(OrgAliasMap) orgID.

Definition strPtr (s : string) : option string := if String.eqb s "" then None else Some s.

Record OIDCIdentity := {
  id_UserID : string;
  id_Email : string;
  id_Role : string;
  id_TeamIDs : list string;
  id_OrgID : string;
  id_EndUserID : string;
  id_SSOUserID : string;
  id_User : User;
}.

Definition ExtractOIDCIdentity (cfg : OIDCConfig) (cs : claims) (subject : string) : OIDCIdentity :=
  let info := extractUserInfo cfg cs subject in
  let role := extractRole cfg cs in
  let teamIDs := extractTeamIDs cfg cs in
  let orgID := extractOrgID cfg cs in
  let user := zeroUser<|u_ID := info.(ui_UserID)|><|u_Email := strPtr info.(ui_Email)|><|u_Role := role|><|u_Teams := teamIDs|>
                      <|u_OrganizationID := strPtr orgID|> in
  let user := match teamIDs with
              | t :: _ => user<|u_TeamID := strPtr t|>
              | [] => if negb (String.eqb cfg.(DefaultTeamID) "") then user<|u_TeamID := strPtr cfg.(DefaultTeamID)|> else user
              end in
  {| id_UserID := info.(ui_UserID); id_Email := info.(ui_Email); id_Role := role; id_TeamIDs := teamIDs; id_OrgID := orgID;
     id_EndUserID := extractStringClaim cs cfg.(EndUserIDJWTField); id_SSOUserID := subject; id_User := user |}.

(** [strings.HasSuffix] *)
Definition has_suffix (s suffix : string) : bool :=
  let n := String.length s in let k := String.length suffix in
  (k <=? n)%nat && String.eqb (String.substring (n - k) k s) suffix.

(** [toLower] is [strings.ToLower]. *)
Definition IsEmailDomainAllowed (toLower : string -> string) (cfg : OIDCConfig) (email : string) : bool :=
  if String.eqb cfg.(UserAllowedEmailDomain) "" || String.eqb email "" then true
  else has_suffix (toLower email) ("@" +:+ toLower (TrimSpace cfg.(UserAllowedEmailDomain))).

(** [strings.Split] at dots. *)
Fixpoint split_dots (s part : string) : list string :=
  match s with
  | EmptyString => [part]
  | String c s' => if Ascii.eqb c "." then part :: split_dots s' "" else split_dots s' (part +:+ String c "")
  end.

Definition knownAPIKeyPrefixes : list string := ["sk-"; "pk-"; "api-"; "key-"; "ak-"; "test-"].

Definition isLikelyJWT (token : string) : bool :=
  if existsb (fun p => String.prefix p token) knownAPIKeyPrefixes then false
  else
    let parts := split_dots token "" in
    if negb (length parts =? 3)%nat then false else negb (existsb (fun p => String.eqb p "") parts).

(** The context of an identity. *)
Definition identity_ctx (i : OIDCIdentity) : AuthContext :=
  {| a_APIKey := None; a_Team := None; a_User := Some i.(id_User); a_RequestID := ""; a_UserRole := i.(id_Role);
     a_EndUserID := i.(id_EndUserID); a_SSOUserID := i.(id_SSOUserID); a_JWTTeamIDs := i.(id_TeamIDs); a_JWTOrgID := i.(id_OrgID) |}.

(** [http.Error] *)
Definition http_error (status : Z) (msg : string) : reply := {| rp_status := status; rp_message := msg; rp_type := "" |}.

(** What the verifier says of a token: nothing, or its subject and its claims, if they parse. *)
Abbreviation verdict := (option (string * option claims)).

(** The steps of both middlewares up to the identity: [None] passes the request on. *)
Definition oidc_identity (toLower : string -> string) (cfg : OIDCConfig) (verify : string -> verdict) (r : Request) : outcome reply (option OIDCIdentity) :=
  match r.(r_AuthCtx) with
  | Some _ => Ok None
  | None =>
      match strip_bearer r.(r_Authorization) with
      | None => Ok None
      | Some rawToken =>
          if negb (isLikelyJWT rawToken) then Ok None
          else
            match verify rawToken with
            | None => Err (http_error 401 "invalid or expired token")
            | Some (_, None) => Err (http_error 500 "failed to parse claims")
            | Some (subject, Some cs) =>
                let identity := ExtractOIDCIdentity cfg cs subject in
                if negb (IsEmailDomainAllowed toLower cfg identity.(id_Email))
                then Err (http_error 403 ("email domain not allowed: expected @" +:+ cfg.(UserAllowedEmailDomain)))
                else Ok (Some identity)
            end
      end
  end.

Definition OIDCMiddleware (toLower : string -> string) (cfg : OIDCConfig) (verify : string -> verdict) (r : Request) : outcome reply Request :=
  let! who := oidc_identity toLower cfg verify r in
  Ok (match who with Some i => r<|r_AuthCtx := Some (identity_ctx i)|> | None => r end).

Section WithSync.
Context {S : Type} `{!AuthStore S} `{!Directory S}.

Definition sync_request (i : OIDCIdentity) : SyncRequest :=
  {| sr_UserID := i.(id_UserID); sr_Email := strPtr i.(id_Email); sr_Role := i.(id_Role); sr_TeamIDs := i.(id_TeamIDs);
     sr_OrganizationID := strPtr i.(id_OrgID) |}.

(** The result of the synchronisation is dropped. *)
Definition OIDCMiddlewareWithSync (toLower : string -> string) (cfg : OIDCConfig) (verify : string -> verdict)
  (syncer : option UserTeamSyncConfig) (ord : gset string -> list string) (clk : sync_clock) (r : Request) (s : S) : S * outcome reply Request :=
  match oidc_identity toLower cfg verify r with
  | Err e => (s, Err e)
  | Panic => (s, Panic)
  | Ok None => (s, Ok r)
  | Ok (Some i) =>
      let s := match syncer with Some config => (SyncUserTeams config ord clk (sync_request i) s).1.1 | None => s end in
      (s, Ok r<|r_AuthCtx := Some (identity_ctx i)|>)
  end.
End WithSync.

(** ** Sessions *)

Record Session := {
  se_UserID : string;
  se_Email : string;
  se_Role : string;
  se_TeamID : string;
  se_TeamIDs : list string;
  se_OrganizationID : string;
  se_EndUserID : string;
  se_SSOUserID : string;
  se_IssuedAt : time;
  se_ExpiresAt : time;
}.

Record OIDCState := {
  os_State : string;
  os_Nonce : string;
  os_CodeVerifier : string;
  os_Redirect : string;
  os_ExpiresAt : time;
}.

(** AES-GCM under the hash of a secret, unpadded URL base64, and JSON. *)
Class Sealing := {
  aead_Seal : string -> string -> string -> string;
  aead_Open : string -> string -> string -> option string;
  NonceSize : nat;
  rawURL_Encode : string -> string;
  rawURL_Decode : string -> option string;
  session_json : Session -> option string;
  session_parse : string -> option Session;
  state_json : OIDCState -> option string;
  state_parse : string -> option OIDCState;
}.

Class SealingLaws `{Sealing} : Prop := {
  open_seal secret nonce p : aead_Open secret nonce (aead_Seal secret nonce p) = Some p;
  base64_roundtrip x : rawURL_Decode (rawURL_Encode x) = Some x;
  base64_visible x : x <> "" -> TrimSpace (rawURL_Encode x) <> "";
  nonce_size_pos : (0 < NonceSize)%nat;
  session_json_roundtrip se p : session_json se = Some p -> session_parse p = Some se;
  state_json_roundtrip st p : state_json st = Some p -> state_parse p = Some st;
}.

Inductive session_err := ErrSessionNotFound | ErrSessionExpired | ErrSessionInvalid | ErrEncode.
Inductive SameSite := LaxMode | StrictMode | NoneMode.

Record SessionManagerConfig := {
  sc_Secret : string;
  sc_CookieName : string;
  sc_StateCookieName : string;
  sc_CookieDomain : string;
  sc_CookiePath : string;
  sc_CookieSecure : bool;
  sc_CookieSameSite : string;
  sc_TTL : duration;
  sc_StateTTL : duration;
}.

(** The codec is the secret. *)
Record SessionManager := {
  sm_secret : string;
  cookieName : string;
  stateCookieName : string;
  sm_domain : string;
  sm_path : string;
  secure : bool;
  sameSite : SameSite;
  ttl : duration;
  stateTTL : duration;
}.

Record cookie := {
  c_Name : string;
  c_Value : string;
  c_Path : string;
  c_Domain : string;
  c_Secure : bool;
  c_SameSite : SameSite;
  c_Expires : option time;
  c_MaxAge : Z;
}.

Definition parseSameSite (toLower : string -> string) (value : string) : SameSite :=
  let v := toLower (TrimSpace value) in
  if String.eqb v "strict" then StrictMode else if String.eqb v "none" then NoneMode else LaxMode.

Definition or_default (s d : string) : string := if String.eqb s "" then d else s.

Definition NewSessionManager (toLower : string -> string) (cfg : SessionManagerConfig) : option SessionManager :=
  if String.eqb (TrimSpace cfg.(sc_Secret)) "" then None
  else Some {| sm_secret := cfg.(sc_Secret);
               cookieName := or_default (TrimSpace cfg.(sc_CookieName)) "llmux_session";
               stateCookieName := or_default (TrimSpace cfg.(sc_StateCookieName)) "llmux_oidc_state";
               sm_domain := TrimSpace cfg.(sc_CookieDomain);
               sm_path := or_default (TrimSpace cfg.(sc_CookiePath)) "/";
               secure := cfg.(sc_CookieSecure);
               sameSite := parseSameSite toLower cfg.(sc_CookieSameSite);
               ttl := if cfg.(sc_TTL) <=? 0 then 12 * Hour else cfg.(sc_TTL);
               stateTTL := if cfg.(sc_StateTTL) <=? 0 then 10 * Minute else cfg.(sc_StateTTL) |}.

Section Sessions.
Context `{!Sealing}.

(** [encode] and [decode] of the codec; [nonce] is what the random source gives. *)
Definition codec_encode (secret nonce : string) (payload : option string) : option string :=
  p ← payload; Some (rawURL_Encode (nonce +:+ aead_Seal secret nonce p)).

Definition codec_decode (secret token : string) : option string :=
  if String.eqb (TrimSpace token) "" then None
  else
    raw ← rawURL_Decode token;
    if (String.length raw <? NonceSize)%nat then None
    else aead_Open secret (String.substring 0 NonceSize raw) (String.substring NonceSize (String.length raw - NonceSize) raw).

(** [now] is the clock of [time.Until]. *)
Definition buildCookie (m : SessionManager) (now : time) (name value : string) (expiresAt : time) : cookie :=
  let age := int_of_f64 (seconds (time_sub expiresAt now)) in
  {| c_Name := name; c_Value := value; c_Path := m.(sm_path); c_Domain := m.(sm_domain); c_Secure := m.(secure); c_SameSite := m.(sameSite);
     c_Expires := if is_zero expiresAt then None else Some expiresAt;
     c_MaxAge := if is_zero expiresAt then 0 else if age <? 0 then -1 else age |}.

Definition stamped (m : SessionManager) (now : time) (se : Session) : Session :=
  let se := if is_zero se.(se_IssuedAt) then se<|se_IssuedAt := now|> else se in
  if is_zero se.(se_ExpiresAt) then se<|se_ExpiresAt := time_add now m.(ttl)|> else se.

(** [now] and [now'] are the clocks of the stamps and of the cookie. *)
Definition SetSession (m : SessionManager) (now now' : time) (nonce : string) (se : Session) : option cookie :=
  let se := stamped m now se in
  value ← codec_encode m.(sm_secret) nonce (session_json se);
  Some (buildCookie m now' m.(cookieName) value se.(se_ExpiresAt)).

(** [None] is a request without the cookie. *)
Definition GetSession (m : SessionManager) (now : time) (value : option string) : session_err + Session :=
  match value with
  | None => inl ErrSessionNotFound
  | Some v =>
      match codec_decode m.(sm_secret) v ≫= session_parse with
      | None => inl ErrSessionInvalid
      | Some se =>
          if is_zero se.(se_ExpiresAt) then inl ErrSessionInvalid
          else if se.(se_ExpiresAt) <? now then inl ErrSessionExpired
          else inr se
      end
  end.

Definition ClearSession (m : SessionManager) (now : time) : cookie :=
  let c := buildCookie m now m.(cookieName) "" zero_time in
  {| c_Name := c.(c_Name); c_Value := c.(c_Value); c_Path := c.(c_Path); c_Domain := c.(c_Domain); c_Secure := c.(c_Secure);
     c_SameSite := c.(c_SameSite); c_Expires := c.(c_Expires); c_MaxAge := -1 |}.

Definition SetState (m : SessionManager) (now now' : time) (nonce : string) (st : OIDCState) : option cookie :=
  let st := if is_zero st.(os_ExpiresAt) then st<|os_ExpiresAt := time_add now m.(stateTTL)|> else st in
  value ← codec_encode m.(sm_secret) nonce (state_json st);
  Some (buildCookie m now' m.(stateCookieName) value st.(os_ExpiresAt)).

(** The errors of a state have the names of those of a session here. *)
Definition GetState (m : SessionManager) (now : time) (value : option string) : session_err + OIDCState :=
  match value with
  | None => inl ErrSessionNotFound
  | Some v =>
      match codec_decode m.(sm_secret) v ≫= state_parse with
      | None => inl ErrSessionInvalid
      | Some st =>
          if is_zero st.(os_ExpiresAt) then inl ErrSessionInvalid
          else if st.(os_ExpiresAt) <? now then inl ErrSessionExpired
          else inr st
      end
  end.

Definition session_user (se : Session) : User :=
  let user := zeroUser<|u_ID := se.(se_UserID)|><|u_Email := strPtr se.(se_Email)|><|u_Role := se.(se_Role)|><|u_Teams := se.(se_TeamIDs)|>
                      <|u_OrganizationID := strPtr se.(se_OrganizationID)|> in
  if negb (String.eqb se.(se_TeamID) "") then user<|u_TeamID := strPtr se.(se_TeamID)|> else user.

Definition session_ctx (se : Session) : AuthContext :=
  {| a_APIKey := None; a_Team := None; a_User := Some (session_user se); a_RequestID := ""; a_UserRole := se.(se_Role);
     a_EndUserID := se.(se_EndUserID); a_SSOUserID := se.(se_SSOUserID); a_JWTTeamIDs := se.(se_TeamIDs); a_JWTOrgID := se.(se_OrganizationID) |}.

(** The request for the next handler, and the cookie that the reply clears.  A request
    always goes on. *)
Definition SessionMiddleware (m : SessionManager) (now nowClear : time) (value : option string) (r : Request) : Request * option cookie :=
  match r.(r_AuthCtx) with
  | Some _ => (r, None)
  | None =>
      if negb (String.eqb (TrimSpace r.(r_Authorization)) "") then (r, None)
      else
        match GetSession m now value with
        | inl ErrSessionExpired | inl ErrSessionInvalid => (r, Some (ClearSession m nowClear))
        | inl _ => (r, None)
        | inr se => if String.eqb se.(se_UserID) "" then (r, None) else (r<|r_AuthCtx := Some (session_ctx se)|>, None)
        end
  end.
End Sessions.
