(* ===== verification/ServerStack.v ===== *)
(** * The middlewares of the server ([cmd/server/middleware.go], [cors.go])

    The server runs a request through cross-origin rules, the session, the token,
    the API key, the model, and the gate of the management endpoints, in this order.
    The policy engine is one object that the authentication and the gate share.  What
    is not modelled of the stack (panic recovery, metrics, the request identifier)
    passes every request on. *)
From S2P Require Import Prelude Float64 AuthTypes AuthStore ModelName KeyUtils ModelAccess AuthMiddleware Directory UserTeamSync Sso.

(** ** Cross-origin rules *)

Record CORSOrigins := { Allowlist : list string; Denylist : list string }.

Record CORSConfig := {
  cors_Enabled : bool;
  AllowAllOrigins : bool;
  AllowCredentials : bool;
  AllowMethods : list string;
  AllowHeaders : list string;
  ExposeHeaders : list string;
  cors_MaxAge : duration;
  DataOrigins : CORSOrigins;
  AdminOrigins : CORSOrigins;
  AdminPathPrefixes : list string;
}.

Definition isAdminPath (path : string) (prefixes : list string) : bool := existsb (fun p => String.prefix p path) prefixes.

Definition isOriginDenied (origin : string) (denylist : list string) : bool := existsb (fun d => String.eqb d "*" || String.eqb d origin) denylist.

Definition isOriginAllowed (origin : string) (policy : CORSOrigins) (allowAll : bool) : bool :=
  if isOriginDenied origin policy.(Denylist) then false
  else if allowAll then true
  else existsb (String.eqb origin) policy.(Allowlist).

Abbreviation headers := (list (string * string)).

(** The request goes on, or it is answered without a body. *)
Inductive cors_verdict := CorsPass (h : headers) | CorsReply (status : Z) (h : headers).

Definition header_if (c : bool) (k v : string) : headers := if c then [(k, v)] else [].

(** [whole_secs] is the number of seconds as text. *)
Definition corsMiddleware (whole_secs : duration -> string) (cfg : CORSConfig) (origin method path : string) : cors_verdict :=
  if negb cfg.(cors_Enabled) then CorsPass []
  else if String.eqb origin "" then CorsPass []
  else
    let policy := if isAdminPath path cfg.(AdminPathPrefixes) then cfg.(AdminOrigins) else cfg.(DataOrigins) in
    if negb (isOriginAllowed origin policy cfg.(AllowAllOrigins)) then CorsReply 403 []
    else
      let all := cfg.(AllowAllOrigins) && negb cfg.(AllowCredentials) in
      let h := header_if (negb all) "Vary" "Origin"
               ++ [("Access-Control-Allow-Origin", if all then "*" else origin)]
               ++ header_if cfg.(AllowCredentials) "Access-Control-Allow-Credentials" "true"
               ++ header_if (negb (String.eqb (String.concat ", " cfg.(AllowMethods)) "")) "Access-Control-Allow-Methods" (String.concat ", " cfg.(AllowMethods))
               ++ header_if (negb (String.eqb (String.concat ", " cfg.(AllowHeaders)) "")) "Access-Control-Allow-Headers" (String.concat ", " cfg.(AllowHeaders))
               ++ header_if (negb (String.eqb (String.concat ", " cfg.(ExposeHeaders)) "")) "Access-Control-Expose-Headers" (String.concat ", " cfg.(ExposeHeaders))
               ++ header_if (0 <? cfg.(cors_MaxAge)) "Access-Control-Max-Age" (whole_secs cfg.(cors_MaxAge)) in
      if String.eqb method "OPTIONS" then CorsReply 204 h else CorsPass h.

(** ** The gate of the management endpoints *)

Definition managementPrefixes : list string :=
  ["/key/"; "/team/"; "/user/"; "/organization/"; "/spend/"; "/audit/"; "/global/"; "/invitation/"; "/control/"; "/mcp/"].

Definition isManagementPath (path : string) : bool :=
  if String.eqb path "" then false else existsb (fun p => String.prefix p path) managementPrefixes.

(** The message is in the language of the request; here it is the English one. *)
Definition writeAuthzError (status : Z) (message typ : string) : reply := {| rp_status := status; rp_message := message; rp_type := typ |}.

(** A request with the parts of it that the middlewares of this file read. *)
Record ServerRequest := {
  sv_req : Request;
  sv_origin : string;
  sv_cookie : option string;
  sv_bootstrap : string;
}.

Record ServerConfig := {
  auth_enabled : bool;
  BootstrapToken : string;
  cors : CORSConfig;
}.

Section Gate.
Context {E : Type} `{!CasbinEngine E}.

(** The fixed rules. *)
Definition legacy_gate (a : AuthContext) : outcome reply unit :=
  let denied := Err (writeAuthzError 403 "management permission required" "permission_error") in
  match a.(a_User) with
  | Some _ =>
      if String.eqb a.(a_UserRole) UserRoleProxyAdmin || String.eqb a.(a_UserRole) UserRoleProxyAdminViewer then Ok tt else denied
  | None =>
      match a.(a_APIKey) with
      | Some k => if String.eqb k.(k_KeyType) KeyTypeManagement then Ok tt else denied
      | None => denied
      end
  end.

(** The subject of a context is given its role, and stays in it. *)
Definition gate_subject (a : AuthContext) (e : E) : E * string :=
  match a.(a_APIKey), a.(a_User) with
  | Some k, _ => (AddRoleForUser (KeySub k.(k_ID)) (RoleSub k.(k_KeyType)) e, KeySub k.(k_ID))
  | None, Some u => (AddRoleForUser (UserSub u.(u_ID)) (RoleSub a.(a_UserRole)) e, UserSub u.(u_ID))
  | None, None => (e, "")
  end.

Definition managementAuthzMiddleware (cfg : ServerConfig) (enforcer : option E) (sr : ServerRequest) : option E * outcome reply unit :=
  let r := sr.(sv_req) in
  if negb cfg.(auth_enabled) || negb (isManagementPath r.(r_Path)) then (enforcer, Ok tt)
  else
    let bootstrapToken := TrimSpace cfg.(BootstrapToken) in
    if negb (String.eqb bootstrapToken "") && String.eqb sr.(sv_bootstrap) bootstrapToken then (enforcer, Ok tt)
    else
      match r.(r_AuthCtx) with
      | None => (enforcer, Err (writeAuthzError 401 "authentication required" "authentication_error"))
      | Some a =>
          match enforcer with
          | Some e =>
              let '(e, sub) := gate_subject a e in
              (Some e,
               if negb (String.eqb sub "")
               then match Enforce sub (PathObj r.(r_Path)) (ActionMethod r.(r_Method)) e with Some true => Ok tt | _ => legacy_gate a end
               else legacy_gate a)
          | None => (None, legacy_gate a)
          end
      end.

Definition maxManagementBodyBytes : Z := Z.shiftl 1 20.

Definition managementBodyLimitMiddleware (r : Request) : outcome reply Request :=
  if negb (isManagementPath r.(r_Path)) then Ok r
  else
    let limit := Z.to_nat (maxManagementBodyBytes + 1) in
    let '(body, failed) := if (limit <=? String.length r.(r_Body))%nat then (String.substring 0 limit r.(r_Body), false) else (r.(r_Body), r.(r_BodyFails)) in
    if failed then Err (writeAuthzError 400 "invalid request body" "request_error")
    else if maxManagementBodyBytes <? Z.of_nat (String.length body) then Err (writeAuthzError 413 "request body too large" "request_error")
    else Ok r<|r_Body := body|><|r_BodyFails := false|>.
End Gate.

(** ** The stack *)

Section Stack.
Context {S E : Type} `{!AuthStore S} `{!Directory S} `{!CasbinEngine E} `{!Crypto} `{!Sealing}.

(** Token verification, when it is configured. *)
Record oidc_setup := { oidc_cfg : OIDCConfig; oidc_verify : string -> verdict; oidc_syncer : option UserTeamSyncConfig }.

(** What the environment gives to one request. *)
Record instants := { t_session : time; t_clear : time; t_sync : sync_clock; t_expiry : time; t_used : time }.

(** A stage that may answer instead. *)
Definition stage {A : Type} (m : Middleware S E) (o : outcome reply A) (k : A -> Middleware S E * outcome reply Request) : Middleware S E * outcome reply Request :=
  match o with Ok x => k x | Err e => (m, Err e) | Panic => (m, Panic) end.

Definition set_enforcer (m : Middleware S E) (e : option E) : Middleware S E := match e with Some e => with_enforcer m e | None => m end.

(** The gate and the limit on the body, the inner part of the stack. *)
Definition gated (cfg : ServerConfig) (sr : ServerRequest) (m : Middleware S E) (r : Request) : Middleware S E * outcome reply Request :=
  let '(e, verdict) := managementAuthzMiddleware cfg m.(m_enforcer) (sr<|sv_req := r|>) in
  let m := set_enforcer m e in
  stage m verdict (fun _ => (m, managementBodyLimitMiddleware r)).

(** The two middlewares of API keys are there when authentication is enabled. *)
Definition keyed (cfg : ServerConfig) (parseModel : string -> option string) (t : instants) (sr : ServerRequest) (m : Middleware S E) (r : Request)
  : Middleware S E * outcome reply Request :=
  if cfg.(auth_enabled) then
    let '(m, o) := Authenticate t.(t_expiry) t.(t_used) m r in
    stage m o (fun r =>
    let '(m, o) := ModelAccessMiddleware parseModel m r in
    stage m o (gated cfg sr m))
  else gated cfg sr m r.

Definition signed_on (toLower : string -> string) (cfg : ServerConfig) (oidc : option oidc_setup) (ord : gset string -> list string)
  (parseModel : string -> option string) (t : instants) (sr : ServerRequest) (m : Middleware S E) (r : Request) : Middleware S E * outcome reply Request :=
  match oidc with
  | Some o =>
      if cfg.(auth_enabled) then
        let '(s, out) := OIDCMiddlewareWithSync toLower o.(oidc_cfg) o.(oidc_verify) o.(oidc_syncer) ord t.(t_sync) r m.(m_store) in
        let m := with_store m s in stage m out (keyed cfg parseModel t sr m)
      else keyed cfg parseModel t sr m r
  | None => keyed cfg parseModel t sr m r
  end.

(** The request that the handler gets, or the reply. *)
Definition buildMiddlewareStack (toLower : string -> string) (whole_secs : duration -> string) (cfg : ServerConfig) (sessions : option SessionManager)
  (oidc : option oidc_setup) (ord : gset string -> list string) (parseModel : string -> option string) (t : instants) (sr : ServerRequest)
  (m : Middleware S E) : Middleware S E * outcome reply Request :=
  let r := sr.(sv_req) in
  match corsMiddleware whole_secs cfg.(cors) sr.(sv_origin) r.(r_Method) r.(r_Path) with
  | CorsReply status _ => (m, Err {| rp_status := status; rp_message := ""; rp_type := "" |})
  | CorsPass _ =>
      let r := match sessions with Some sm => (SessionMiddleware sm t.(t_session) t.(t_clear) sr.(sv_cookie) r).1 | None => r end in
      signed_on toLower cfg oidc ord parseModel t sr m r
  end.
End Stack.
