(* ===== verification/ServerTheorems.v ===== *)
(** * Who reaches the management endpoints

    A request gets through the stack to a management endpoint only with a session, a
    verified token or an API key, and with an administrator (or a viewer) behind it; and where the
    gate differs from what the documentation says of it. *)
From S2P Require Import Prelude Float64 AuthTypes AuthStore ModelName KeyUtils ModelAccess AuthMiddleware Directory UserTeamSync Sso ServerStack.

(** ** Identities *)

Lemma highest_fold l r0 :
  let f := fun highest role => if (roleHierarchyIndex role <? roleHierarchyIndex highest)%nat then role else highest in
  foldl f r0 l ∈ r0 :: l /\ forall x, x ∈ r0 :: l -> (roleHierarchyIndex (foldl f r0 l) <= roleHierarchyIndex x)%nat.
Proof.
  intros f. revert r0. induction l as [|r l IH]; intros r0; cbn [foldl]; [split; [left|by intros x ->%list_elem_of_singleton]|].
  destruct (IH (f r0 r)) as [Hin Hle]. assert (Hf : f r0 r = r0 \/ f r0 r = r) by (unfold f; destruct (_ <? _)%nat; auto).
  assert (Hm : (roleHierarchyIndex (f r0 r) <= roleHierarchyIndex r0)%nat /\ (roleHierarchyIndex (f r0 r) <= roleHierarchyIndex r)%nat).
  { unfold f. destruct (Nat.ltb_spec (roleHierarchyIndex r) (roleHierarchyIndex r0)); lia. }
  split; [apply elem_of_cons in Hin as [->|Hin]; [destruct Hf as [->| ->]; [left|right; left]|by do 2 right]|]. intros x Hx. specialize (Hle (f r0 r) ltac:(left)) as H0.
  apply elem_of_cons in Hx as [->|Hx]; [lia|]. apply elem_of_cons in Hx as [->|Hx]; [lia|]. apply Hle. by right.
Qed.

(** A role comes from the configuration.  The role of an identity is the default
    one, or the one that the configuration gives to a group in the claim; with the
    hierarchy it is the highest of those, and without it the first. *)
Theorem role_from_groups cfg cs (roleClaim := if String.eqb cfg.(RoleClaim) "" then "groups" else cfg.(RoleClaim)) :
  let matched := match cs !! roleClaim with Some c => matched_roles cfg c | None => [] end in
  match matched with
  | [] => extractRole cfg cs = default_role cfg
  | first :: _ =>
      extractRole cfg cs ∈ matched
      /\ if cfg.(UseRoleHierarchy) then forall x, x ∈ matched -> (roleHierarchyIndex (extractRole cfg cs) <= roleHierarchyIndex x)%nat
         else extractRole cfg cs = first
  end.
Proof.
  cbn zeta. unfold extractRole. fold roleClaim. destruct (cs !! roleClaim) as [c|]; [|done].
  destruct (matched_roles cfg c) as [|first rest]; [done|]. destruct (UseRoleHierarchy cfg); cbn [andb]; [|split; [left|done]].
  destruct rest as [|second rest]; cbn [length Nat.ltb Nat.leb].
  - split; [left|]. by intros x ->%list_elem_of_singleton.
  - unfold getHighestPriorityRole. by destruct (highest_fold (second :: rest) first).
Qed.

(** A token without the claim of the address is from every domain. *)
Theorem missing_email_allowed toLower cfg : IsEmailDomainAllowed toLower cfg "" = true.
Proof. unfold IsEmailDomainAllowed. by rewrite orb_true_r. Qed.

(** ** Sessions *)

Section Sessions.
Context `{!Sealing} `{!SealingLaws}.

Lemma substring_app_l a b : String.substring 0 (String.length a) (a +:+ b) = a.
Proof. induction a as [|c a IH]; [by destruct b|]. change (String c (String.substring 0 (String.length a) (a +:+ b)) = String c a). by rewrite IH. Qed.

Lemma substring_all b : String.substring 0 (String.length b) b = b.
Proof. induction b as [|c b IH]; cbn; [done|]. by rewrite IH. Qed.

Lemma substring_app_r a b : String.substring (String.length a) (String.length b) (a +:+ b) = b.
Proof. induction a as [|c a IH]; [apply substring_all|exact IH]. Qed.

Lemma codec_roundtrip secret nonce p token :
  String.length nonce = NonceSize -> codec_encode secret nonce (Some p) = Some token -> codec_decode secret token = Some p.
Proof.
  intros Hn [= <-]. unfold codec_decode. set (c := aead_Seal secret nonce p).
  assert (Hne : nonce +:+ c <> "") by (destruct nonce; [pose proof nonce_size_pos; cbn in Hn; lia|done]).
  destruct (String.eqb_spec (TrimSpace (rawURL_Encode (nonce +:+ c))) "") as [E|_]; [by destruct (base64_visible _ Hne)|].
  rewrite base64_roundtrip. cbn [mbind option_bind]. rewrite length_string_app, <- Hn.
  rewrite (proj2 (Nat.ltb_ge _ _)) by lia. rewrite Nat.add_comm, Nat.add_sub, substring_app_l, substring_app_r. apply open_seal.
Qed.

(** A session survives its cookie.  The value that [Set] puts in the cookie gives
    the session back, with its stamps, at every instant up to its expiry, and after
    it is refused as expired. *)
Theorem session_roundtrip m now now' nonce se c t :
  String.length nonce = NonceSize -> SetSession m now now' nonce se = Some c -> is_zero (stamped m now se).(se_ExpiresAt) = false ->
  GetSession m t (Some c.(c_Value)) =
    if (stamped m now se).(se_ExpiresAt) <? t then inl ErrSessionExpired else inr (stamped m now se).
Proof.
  intros Hn Hs Hz. unfold SetSession in Hs. set (se' := stamped m now se) in *.
  destruct (session_json se') as [p|] eqn:Ej; [|done]. destruct (codec_encode _ _ _) as [v|] eqn:Ec; [|done]. cbn in Hs. injection Hs as <-. cbn.
  rewrite (codec_roundtrip _ _ _ _ Hn Ec). cbn. rewrite (session_json_roundtrip _ _ Ej). by rewrite Hz.
Qed.
End Sessions.

(** ** The gate *)

Section Gate.
Context {S E : Type} `{!AuthStore S} `{!Directory S} `{!CasbinEngine E} `{!Crypto} `{!Sealing}.
Context (toLower : string -> string) (whole_secs : duration -> string) (ord : gset string -> list string) (parseModel : string -> option string).
Implicit Types (m : Middleware S E) (cfg : ServerConfig).

(** Authentication is on for the path, and the request brings no context of its own. *)
Record guarded cfg m (sr : ServerRequest) : Prop := {
  guarded_on : cfg.(auth_enabled) = true;
  guarded_enabled : m.(m_enabled) = true;
  guarded_path : isManagementPath sr.(sv_req).(r_Path) = true;
  guarded_noskip : sr.(sv_req).(r_Path) ∉ m.(m_skipPaths);
  guarded_fresh : sr.(sv_req).(r_AuthCtx) = None;
}.

(** Where a context comes from. *)
Inductive credential (sessions : option SessionManager) (oidc : option oidc_setup) (t : instants) (sr : ServerRequest) (m : Middleware S E) : AuthContext -> Prop :=
| by_session sm se :
    sessions = Some sm -> GetSession sm t.(t_session) sr.(sv_cookie) = inr se -> se.(se_UserID) <> "" ->
    credential sessions oidc t sr m (session_ctx se)
| by_token o token subject cs :
    oidc = Some o -> strip_bearer sr.(sv_req).(r_Authorization) = Some token -> o.(oidc_verify) token = Some (subject, Some cs) ->
    IsEmailDomainAllowed toLower o.(oidc_cfg) (ExtractOIDCIdentity o.(oidc_cfg) cs subject).(id_Email) = true ->
    credential sessions oidc t sr m (identity_ctx (ExtractOIDCIdentity o.(oidc_cfg) cs subject))
| by_key key team :
    lookup_key t.(t_expiry) m sr.(sv_req).(r_Authorization) = Ok key -> lookup_team m key = Ok team ->
    credential sessions oidc t sr m (keyCtx key team).

(** Whom the fixed rules let through: a user who is an administrator or has the view-only
    role of one, whatever the method of the request, or, with no user, a management key. *)
Definition admin_or_viewer (a : AuthContext) : Prop :=
  match a.(a_User) with
  | Some _ => a.(a_UserRole) = UserRoleProxyAdmin \/ a.(a_UserRole) = UserRoleProxyAdminViewer
  | None => exists k, a.(a_APIKey) = Some k /\ k.(k_KeyType) = KeyTypeManagement
  end.

Lemma legacy_gate_ok a : legacy_gate a = Ok tt <-> admin_or_viewer a.
Proof.
  unfold legacy_gate, admin_or_viewer. destruct (a_User a).
  - destruct (String.eqb_spec (a_UserRole a) UserRoleProxyAdmin), (String.eqb_spec (a_UserRole a) UserRoleProxyAdminViewer); naive_solver.
  - destruct (a_APIKey a) as [k|]; [|naive_solver]. destruct (String.eqb_spec (k_KeyType k) KeyTypeManagement); naive_solver.
Qed.

Definition bootstrapped cfg (sr : ServerRequest) : Prop := TrimSpace cfg.(BootstrapToken) <> "" /\ sr.(sv_bootstrap) = TrimSpace cfg.(BootstrapToken).

(** The gate without a policy engine. *)
Lemma gate_ok cfg (sr : ServerRequest) :
  cfg.(auth_enabled) = true -> isManagementPath sr.(sv_req).(r_Path) = true ->
  (managementAuthzMiddleware (E := E) cfg None sr).2 = Ok tt <-> bootstrapped cfg sr \/ exists a, sr.(sv_req).(r_AuthCtx) = Some a /\ admin_or_viewer a.
Proof.
  intros En Hp. unfold managementAuthzMiddleware. rewrite En, Hp. cbn [negb orb]. unfold bootstrapped.
  destruct (String.eqb_spec (TrimSpace (BootstrapToken cfg)) ""), (String.eqb_spec (sv_bootstrap sr) (TrimSpace (BootstrapToken cfg))); cbn [negb andb];
    [| |naive_solver|]; (destruct (r_AuthCtx (sv_req sr)) as [a|]; cbn; [rewrite legacy_gate_ok|]; naive_solver).
Qed.

Lemma gated_through cfg sr m m' r r' :
  cfg.(auth_enabled) = true -> isManagementPath r.(r_Path) = true -> m.(m_enforcer) = None -> gated cfg sr m r = (m', Ok r') ->
  r'.(r_AuthCtx) = r.(r_AuthCtx) /\ (bootstrapped cfg sr \/ exists a, r.(r_AuthCtx) = Some a /\ admin_or_viewer a).
Proof.
  intros En Hp He. unfold gated. rewrite He. pose proof (gate_ok cfg (sr<|sv_req := r|>) En Hp) as Hg.
  destruct (managementAuthzMiddleware cfg None _) as [e [[]|er|]]; cbn [stage]; try done. intros [= _ Hb]. split.
  - unfold managementBodyLimitMiddleware in Hb. rewrite Hp in Hb. cbn [negb] in Hb. destruct (_ <=? _)%nat; repeat (case_match; try done); by injection Hb as <-.
  - exact (proj1 Hg eq_refl).
Qed.

(** ** Up to the gate *)

Lemma management_no_model r : isManagementPath r.(r_Path) = true -> isModelAccessRequest r = false.
Proof.
  intros Hp. unfold isModelAccessRequest. destruct (existsb _ _) eqn:Ex; [|by rewrite andb_false_r].
  apply existsb_exists in Ex as (p & Hin & Ep%String.eqb_eq). exfalso. rewrite Ep in Hp. cbn in Hin. by destruct Hin as [<-|[<-|[<-|[<-|[]]]]].
Qed.

Lemma model_access_skipped m r : isManagementPath r.(r_Path) = true -> ModelAccessMiddleware parseModel m r = (m, Ok r).
Proof. intros Hp. unfold ModelAccessMiddleware. rewrite (management_no_model r Hp). cbn [negb]. by repeat case_match. Qed.

Lemma authenticate_context t1 t2 m r m' r' :
  m.(m_enabled) = true -> r.(r_Path) ∉ m.(m_skipPaths) -> m.(m_enforcer) = None -> Authenticate t1 t2 m r = (m', Ok r') ->
  m'.(m_enforcer) = None /\ r'.(r_Path) = r.(r_Path) /\
  match r.(r_AuthCtx) with
  | Some _ => r' = r
  | None => exists key team, lookup_key t1 m r.(r_Authorization) = Ok key /\ lookup_team m key = Ok team /\ r' = r<|r_AuthCtx := Some (keyCtx key team)|>
  end.
Proof.
  intros En Sk He. unfold Authenticate. rewrite En, (bool_decide_eq_false_2 _ Sk). cbn [negb].
  destruct (r_AuthCtx r) as [a|]; [by intros [= <- <-]|]. destruct (lookup_key t1 m _) as [key|e|] eqn:L; cbn; try done.
  destruct (lookup_team m key) as [team|e|] eqn:T; cbn; try done. unfold check_permission. rewrite He.
  set (perm := if String.eqb (k_KeyType key) KeyTypeReadOnly then _ else _). destruct perm as [[]|e|]; try done.
  intros [= <- <-]. split; [by destruct (shouldUpdateLastUsed _ _ _)|]. split; [done|]. by exists key, team.
Qed.

Lemma session_context sm t1 t2 v r :
  r.(r_AuthCtx) = None ->
  let r' := (SessionMiddleware sm t1 t2 v r).1 in
  r' = r \/ exists se, GetSession sm t1 v = inr se /\ se.(se_UserID) <> "" /\ r' = r<|r_AuthCtx := Some (session_ctx se)|>.
Proof.
  intros Hr. unfold SessionMiddleware. rewrite Hr. destruct (negb _); [by left|]. destruct (GetSession sm t1 v) as [[]|se]; try by left.
  destruct (String.eqb_spec (se_UserID se) ""); [by left|]. right. by exists se.
Qed.

Lemma oidc_context (o : oidc_setup) clk r (s s' : S) r' :
  OIDCMiddlewareWithSync toLower o.(oidc_cfg) o.(oidc_verify) o.(oidc_syncer) ord clk r s = (s', Ok r') ->
  (s' = s /\ r' = r) \/ (r.(r_AuthCtx) = None /\ exists token subject cs, strip_bearer r.(r_Authorization) = Some token
    /\ o.(oidc_verify) token = Some (subject, Some cs)
    /\ IsEmailDomainAllowed toLower o.(oidc_cfg) (ExtractOIDCIdentity o.(oidc_cfg) cs subject).(id_Email) = true
    /\ r' = r<|r_AuthCtx := Some (identity_ctx (ExtractOIDCIdentity o.(oidc_cfg) cs subject))|>).
Proof.
  unfold OIDCMiddlewareWithSync, oidc_identity. destruct (r_AuthCtx r); [intros [= <- <-]; by left|].
  destruct (strip_bearer _) as [token|] eqn:Et; [|intros [= <- <-]; by left]. destruct (negb (isLikelyJWT token)); [intros [= <- <-]; by left|].
  destruct (oidc_verify o token) as [[subject [cs|]]|] eqn:Ev; [|done..]. destruct (IsEmailDomainAllowed _ _ _) eqn:Ed; cbn [negb]; [|done].
  intros [= _ <-]. right. split; [done|]. by exists token, subject, cs.
Qed.

Lemma with_same_store m : with_store m m.(m_store) = m.
Proof. by destruct m. Qed.

(** From a request with a context, or with the credentials of a key, through the gate. *)
Lemma keyed_through cfg t sr m m' r r' :
  cfg.(auth_enabled) = true -> m.(m_enabled) = true -> isManagementPath r.(r_Path) = true -> r.(r_Path) ∉ m.(m_skipPaths) -> m.(m_enforcer) = None ->
  keyed cfg parseModel t sr m r = (m', Ok r') ->
  exists a, r'.(r_AuthCtx) = Some a /\ (bootstrapped cfg sr \/ admin_or_viewer a)
    /\ (r.(r_AuthCtx) = Some a \/ (r.(r_AuthCtx) = None /\ exists key team, a = keyCtx key team
         /\ lookup_key t.(t_expiry) m r.(r_Authorization) = Ok key /\ lookup_team m key = Ok team)).
Proof.
  intros En Hen Hp Hs He. unfold keyed. rewrite En. destruct (Authenticate _ _ m r) as [m1 [r1|e|]] eqn:Ea; cbn [stage]; try done.
  apply authenticate_context in Ea as (He1 & Hp1 & Hr1); [|done..]. rewrite <- Hp1 in Hp. rewrite model_access_skipped by done. cbn [stage].
  intros Hg. apply gated_through in Hg as (Ec & Hg); [|done..]. rewrite Ec.
  destruct (r_AuthCtx r) as [a|] eqn:Er.
  - subst r1. rewrite Er in *. exists a. split; [done|]. split; [|by left]. destruct Hg as [Hb|(a' & [= <-] & Hd)]; auto.
  - destruct Hr1 as (key & team & L & T & ->). exists (keyCtx key team). split; [done|]. split; [destruct Hg as [Hb|(a' & [= <-] & Hd)]; auto|].
    right. split; [done|]. by exists key, team.
Qed.

(** C4: The gate of the management endpoints.  With authentication on, for a path that is
    not skipped, no policy engine, and a request that comes in without a context: a
    request that reaches a management endpoint carries a context that comes from a
    session that is valid, from a token that the verifier accepts, or from an API key in
    service; and, in addition to that, it has behind it a user who is an administrator or
    has the view-only role [proxy_admin_viewer], which the gate lets through for every
    method, writes included, or a management key, or it carries the bootstrap token.  So
    the bootstrap token alone does not give access, as the README says it does. *)
Theorem management_gate cfg sessions oidc t sr m m' r' :
  guarded cfg m sr -> m.(m_enforcer) = None ->
  buildMiddlewareStack toLower whole_secs cfg sessions oidc ord parseModel t sr m = (m', Ok r') ->
  exists a, r'.(r_AuthCtx) = Some a /\ credential sessions oidc t sr m a /\ (admin_or_viewer a \/ bootstrapped cfg sr).
Proof.
  intros [En Hen Hp Hs Hf] He. unfold buildMiddlewareStack. destruct (corsMiddleware _ _ _ _ _); [|done].
  set (r := sv_req sr) in *. set (r1 := match sessions with Some sm => _ | None => r end).
  assert (H1 : r1 = r \/ exists a, credential sessions oidc t sr m a /\ r1 = r<|r_AuthCtx := Some a|>).
  { unfold r1. destruct sessions as [sm|] eqn:Es; [|by left]. destruct (session_context sm (t_session t) (t_clear t) (sv_cookie sr) r Hf) as [->|(se & Hg & Hu & ->)]; [by left|].
    right. exists (session_ctx se). split; [|done]. by eapply by_session. }
  assert (K : forall r2, (r2 = r \/ exists a, credential sessions oidc t sr m a /\ r2 = r<|r_AuthCtx := Some a|>) ->
    forall mm, m_enabled mm = true -> m_skipPaths mm = m_skipPaths m -> m_enforcer mm = None -> (r2 = r -> mm = m) ->
    keyed cfg parseModel t sr mm r2 = (m', Ok r') ->
    exists a, r'.(r_AuthCtx) = Some a /\ credential sessions oidc t sr m a /\ (admin_or_viewer a \/ bootstrapped cfg sr)).
  { intros r2 H2 mm Hmm Hsk Hee Heq Hk. assert (P2 : r_Path r2 = r_Path r) by (by destruct H2 as [->|(a & _ & ->)]).
    apply keyed_through in Hk as (a & Ha & Hg & Hc); [|done|done|by rewrite P2|by rewrite P2, Hsk|done].
    exists a. split; [done|]. split; [|tauto]. destruct H2 as [->|(a2 & Hcred & ->)].
    - rewrite (Heq eq_refl) in *. destruct Hc as [Hc|(_ & key & team & -> & L & T)]; [congruence|by apply by_key].
    - destruct Hc as [[= <-]|[Hc _]]; done. }
  unfold signed_on. destruct oidc as [o|] eqn:Eo; [|by apply K]. rewrite En.
  destruct (OIDCMiddlewareWithSync _ _ _ _ _ _ r1 _) as [s' [r2|e|]] eqn:Ei; cbn [stage]; try done.
  apply oidc_context in Ei as [[-> ->]|(Hn & token & subject & cs & Et & Ev & Ed & ->)].
  - rewrite with_same_store. by apply K.
  - destruct H1 as [->|(a & _ & ->)]; [|done]. apply K; [|done..|].
    + right. eexists. split; [|done]. by eapply by_token.
    + intros Hc. apply (f_equal r_AuthCtx) in Hc. cbn in Hc. congruence.
Qed.

(** The bootstrap token does not open the management endpoints.  A request without
    an API key, a token or a session is refused with 401 before the gate looks at the
    bootstrap token, whichever it presents. *)
Theorem bootstrap_needs_credentials cfg sessions oidc t sr m :
  guarded cfg m sr -> sr.(sv_origin) = "" -> sr.(sv_req).(r_Authorization) = "" -> sr.(sv_cookie) = None ->
  exists e, (buildMiddlewareStack toLower whole_secs cfg sessions oidc ord parseModel t sr m).2 = Err e /\ e.(rp_status) = 401.
Proof.
  intros [En Hen Hp Hs Hf] Ho Ha Hc. unfold buildMiddlewareStack.
  assert (Hcors : corsMiddleware whole_secs (cors cfg) (sv_origin sr) (r_Method (sv_req sr)) (r_Path (sv_req sr)) = CorsPass []).
  { unfold corsMiddleware. rewrite Ho. by destruct (negb _). }
  rewrite Hcors. set (r := sv_req sr) in *.
  assert (H1 : match sessions with Some sm => (SessionMiddleware sm (t_session t) (t_clear t) (sv_cookie sr) r).1 | None => r end = r).
  { destruct sessions as [sm|]; [|done]. unfold SessionMiddleware. rewrite Hf, Ha, Hc. done. }
  rewrite H1. unfold signed_on, OIDCMiddlewareWithSync, oidc_identity. rewrite En, Hf, Ha. cbn [strip_bearer].
  assert (K : exists e, (keyed cfg parseModel t sr m r).2 = Err e /\ rp_status e = 401).
  { unfold keyed. rewrite En. unfold Authenticate. rewrite Hen, (bool_decide_eq_false_2 _ Hs), Hf. cbn [negb].
    unfold lookup_key. rewrite Ha. by eexists. }
  destruct oidc as [o|]; [|done]. cbn. by rewrite with_same_store.
Qed.

(** A viewer may write.  The role [proxy_admin_viewer], which the types describe as
    view-only and the policies restrict to [GET] and [HEAD], passes the gate with every
    method, with a policy engine and without. *)
Theorem viewer_may_write cfg (enforcer : option E) sr a u :
  sr.(sv_req).(r_AuthCtx) = Some a -> a.(a_User) = Some u -> a.(a_UserRole) = UserRoleProxyAdminViewer ->
  (managementAuthzMiddleware cfg enforcer sr).2 = Ok tt.
Proof.
  intros Hc Hu Hr. assert (Hl : legacy_gate a = Ok tt) by (unfold legacy_gate; by rewrite Hu, Hr).
  unfold managementAuthzMiddleware. destruct (_ || _); [done|]. destruct (_ && _); [done|]. rewrite Hc. destruct enforcer as [e|]; [|done].
  destruct (gate_subject a e) as [e' sub]. cbn. by repeat case_match.
Qed.

(** A role outlives its user's demotion.  Once a user has passed the gate as an
    administrator, the policy engine keeps the role, and the user passes again
    whatever the role of a later session or token. *)
Theorem role_outlives_demotion `{!CasbinLaws E} cfg (e : E) sr sr' a a' u u' :
  {| p_sub := RoleSub UserRoleProxyAdmin; p_obj := "*"; p_act := "*" |} ∈ policies e ->
  sr.(sv_req).(r_AuthCtx) = Some a -> a.(a_APIKey) = None -> a.(a_User) = Some u -> a.(a_UserRole) = UserRoleProxyAdmin ->
  cfg.(auth_enabled) = true -> isManagementPath sr.(sv_req).(r_Path) = true -> sr.(sv_bootstrap) = "" ->
  sr'.(sv_req).(r_AuthCtx) = Some a' -> a'.(a_APIKey) = None -> a'.(a_User) = Some u' -> u'.(u_ID) = u.(u_ID) ->
  exists e', (managementAuthzMiddleware cfg (Some e) sr).1 = Some e' /\ (managementAuthzMiddleware cfg (Some e') sr').2 = Ok tt.
Proof.
  intros Hpol Hc Hk Hu Hr En Hp Hb Hc' Hk' Hu' Hid. unfold managementAuthzMiddleware at 1. rewrite En, Hp, Hb, Hc. cbn [negb orb].
  assert (Hbt : negb (String.eqb (TrimSpace (BootstrapToken cfg)) "") && String.eqb "" (TrimSpace (BootstrapToken cfg)) = false).
  { destruct (String.eqb_spec (TrimSpace (BootstrapToken cfg)) "") as [->|]; [done|]. destruct (String.eqb_spec "" (TrimSpace (BootstrapToken cfg))); [congruence|done]. }
  rewrite Hbt. unfold gate_subject at 1. rewrite Hk, Hu, Hr. eexists. split; [done|].
  unfold managementAuthzMiddleware. destruct (_ || _); [done|]. destruct (_ && _); [done|]. rewrite Hc'. unfold gate_subject. rewrite Hk', Hu', Hid. cbn [snd].
  set (e2 := AddRoleForUser _ _ (AddRoleForUser _ _ e)). change (String.eqb (UserSub (u_ID u)) "") with false. cbn [negb]. unfold Enforce. rewrite Enforce_spec.
  assert (Hx : existsb (matcher (has_role e2) keyMatch (UserSub (u_ID u)) (PathObj (r_Path (sv_req sr'))) (ActionMethod (r_Method (sv_req sr')))) (policies e2) = true).
  { apply existsb_exists. exists {| p_sub := RoleSub UserRoleProxyAdmin; p_obj := "*"; p_act := "*" |}. split.
    - apply list_elem_of_In. unfold e2, AddRoleForUser. by rewrite !Grouping_policies.
    - unfold matcher, e2, AddRoleForUser. cbn. by rewrite role_mono, !orb_true_r by apply role_add. }
  rewrite Hx. by case_match.
Qed.
End Gate.

(** * A server with single sign-on, for the theorems on it

    A store in memory, a verifier that knows one token, a cipher that hides nothing,
    and the policies by default. *)
From S2P Require Import AuthStoreProofs AuthTheorems UserTeamSync.
Import MemoryAuth.

(** ** Logins *)

Definition ascii_lower (s : string) : string := s.

#[local] Instance demo_auth : AuthStore MemoryStore := memory_auth_store elements.
#[local] Instance demo_directory : Directory MemoryStore := memory_directory elements ascii_lower.
#[local] Instance demo_laws : DirectoryLaws MemoryStore := memory_directory_laws elements ascii_lower (fun X => reflexivity _).

Definition strict_sync : UserTeamSyncConfig :=
  {| Enabled := true; AutoCreateUsers := true; AutoCreateTeams := true; RemoveFromUnlistedTeams := true; SyncUserRole := true;
     DefaultRole := ""; DefaultOrganizationID := "" |}.

Definition still : sync_clock := {| at_user := 5; at_role := 5; at_team := fun _ => (5, 5); at_org := 5 |}.

Definition login (teams : list string) : SyncRequest :=
  {| sr_UserID := "ada"; sr_Email := None; sr_Role := "internal_user"; sr_TeamIDs := teams; sr_OrganizationID := None |}.

(** Ada is in one team. *)
Definition in_red : MemoryStore := (SyncUserTeams strict_sync elements still (login ["red"]) NewMemoryStore).1.1.

Lemma in_red_ok : memberships_ok in_red.
Proof. apply map_Forall_to_list. vm_compute. by repeat constructor. Qed.

Lemma sync_reconciles_witness :
  let '(s', res, _) := SyncUserTeams strict_sync elements still (login ["blue"]) in_red in
  forall t, has_membership s' "ada" t <-> t = "blue".
Proof.
  pose proof (sync_reconciles strict_sync elements (fun X => reflexivity _) still (login ["blue"]) in_red
    (SyncUserTeams strict_sync elements still (login ["blue"]) in_red).1.1 (SyncUserTeams strict_sync elements still (login ["blue"]) in_red).1.2
    eq_refl in_red_ok ltac:(vm_compute; reflexivity) ltac:(vm_compute; reflexivity)) as Hr.
  destruct (SyncUserTeams strict_sync elements still (login ["blue"]) in_red) as [[s' res] e] eqn:Es.
  assert (Hw : res.(Warnings) = [] /\ res.(res_UserID) = "ada") by (vm_compute in Es; by injection Es as _ <- _). destruct Hw as [Hw Hu].
  intros t. cbn in Hr. rewrite Hu in Hr. destruct (rec_exact _ _ _ _ _ _ Hr Hw t) as [H1 H2].
  split; [intros Hm; destruct (H1 Hm) as [Hin|[Hc _]]; [by apply list_elem_of_singleton|discriminate Hc]|].
  intros ->. apply H2. left. apply list_elem_of_singleton. reflexivity.
Defined.

Lemma empty_claim_keeps_teams_witness : has_membership (SyncUserTeams strict_sync elements still (login []) in_red).1.1 "ada" "red".
Proof.
  pose proof (empty_claim_keeps_teams strict_sync elements still (login []) in_red (SyncUserTeams strict_sync elements still (login []) in_red).1.1
    (SyncUserTeams strict_sync elements still (login []) in_red).1.2 in_red_ok eq_refl ltac:(vm_compute; reflexivity) "ada" "red") as [_ H].
  apply H. eexists. split; [vm_compute; reflexivity|]. split; reflexivity.
Defined.

(** ** Sessions *)

#[local] Instance session_eq_dec : EqDecision Session.
Proof. solve_decision. Defined.
#[local] Instance state_eq_dec : EqDecision OIDCState.
Proof. solve_decision. Defined.

Definition grace : Session :=
  {| se_UserID := "grace"; se_Email := ""; se_Role := UserRoleProxyAdmin; se_TeamID := ""; se_TeamIDs := []; se_OrganizationID := "";
     se_EndUserID := ""; se_SSOUserID := ""; se_IssuedAt := 1; se_ExpiresAt := 100 |}.

Definition no_state : OIDCState := {| os_State := "s"; os_Nonce := "n"; os_CodeVerifier := ""; os_Redirect := ""; os_ExpiresAt := 100 |}.

(** A cipher that hides nothing, and the text of one session and of one state. *)
#[local] Instance plain_sealing : Sealing := {|
  aead_Seal _ _ p := p;
  aead_Open _ _ c := Some c;
  NonceSize := 1;
  rawURL_Encode x := "b" +:+ x +:+ "e";
  rawURL_Decode y := Some (String.substring 1 (String.length y - 2) y);
  session_json se := if decide (se = grace) then Some "grace" else None;
  session_parse p := if String.eqb p "grace" then Some grace else None;
  state_json st := if decide (st = no_state) then Some "state" else None;
  state_parse p := if String.eqb p "state" then Some no_state else None;
|}.

Lemma plain_visible x : TrimSpace ("b" +:+ x +:+ "e") <> "".
Proof.
  rewrite TrimSpace_trimmed_eq; [discriminate|]. unfold trimmed. rewrite !explode_app, !reverse_app. split; by vm_compute.
Qed.

Lemma plain_decode x : rawURL_Decode (rawURL_Encode x) = Some x.
Proof.
  cbn [rawURL_Decode rawURL_Encode plain_sealing]. rewrite !length_string_app. change (String.length "b") with 1%nat. change (String.length "e") with 1%nat.
  replace (1 + (String.length x + 1) - 2)%nat with (String.length x) by lia.
  change (Some (String.substring 0 (String.length x) (x +:+ "e")) = Some x). by rewrite substring_app_l.
Qed.

#[local] Instance plain_sealing_laws : SealingLaws.
Proof.
  split; [done|apply plain_decode|intros x _; apply plain_visible|cbn; lia|..].
  - intros se p. cbn. destruct (decide (se = grace)) as [->|]; [|done]. by intros [= <-].
  - intros st p. cbn. destruct (decide (st = no_state)) as [->|]; [|done]. by intros [= <-].
Qed.

Definition sessions : SessionManager :=
  {| sm_secret := "secret"; cookieName := "llmux_session"; stateCookieName := "llmux_oidc_state"; sm_domain := ""; sm_path := "/"; secure := true;
     sameSite := LaxMode; ttl := 12 * Hour; stateTTL := 10 * Minute |}.

Lemma session_roundtrip_witness :
  exists c, SetSession sessions 1 1 "n" grace = Some c /\ GetSession sessions 50 (Some c.(c_Value)) = inr grace
    /\ GetSession sessions 101 (Some c.(c_Value)) = inl ErrSessionExpired.
Proof.
  eexists. split; [vm_compute; reflexivity|]. split.
  - rewrite (session_roundtrip sessions 1 1 "n" grace _ 50); [vm_compute; reflexivity|reflexivity|vm_compute; reflexivity|vm_compute; reflexivity].
  - rewrite (session_roundtrip sessions 1 1 "n" grace _ 101); [vm_compute; reflexivity|reflexivity|vm_compute; reflexivity|vm_compute; reflexivity].
Defined.

(** ** The stack *)

#[local] Existing Instance demo_crypto.

Definition open_origins : CORSOrigins := {| Allowlist := []; Denylist := [] |}.
Definition server_cfg : ServerConfig :=
  {| auth_enabled := true; BootstrapToken := "boot";
     cors := {| cors_Enabled := false; AllowAllOrigins := false; AllowCredentials := false; AllowMethods := []; AllowHeaders := [];
                ExposeHeaders := []; cors_MaxAge := 0; DataOrigins := open_origins; AdminOrigins := open_origins; AdminPathPrefixes := [] |} |}.

Definition at_gate (method : string) (a : option AuthContext) : Request :=
  {| r_Method := method; r_Path := "/key/generate"; r_Authorization := ""; r_AuthCtx := a; r_Body := "{}"; r_BodyFails := false |}.

Definition knocking (cookie : option string) (bootstrap : string) (a : option AuthContext) : ServerRequest :=
  {| sv_req := at_gate "POST" a; sv_origin := ""; sv_cookie := cookie; sv_bootstrap := bootstrap |}.

Definition demo_instants : instants := {| t_session := 50; t_clear := 50; t_sync := still; t_expiry := 50; t_used := 50 |}.

Lemma demo_guarded cookie bootstrap : guarded server_cfg (demo_mw None) (knocking cookie bootstrap None).
Proof. split; [done..| |done]. cbn. set_solver. Qed.

(** Grace comes with her session. *)
Definition grace_cookie : option string := c_Value <$> SetSession sessions 1 1 "n" grace.

Lemma management_gate_witness :
  exists m' r', buildMiddlewareStack ascii_lower (fun _ => "") server_cfg (Some sessions) None elements (fun _ => None) demo_instants
    (knocking grace_cookie "" None) (demo_mw None) = (m', Ok r')
  /\ exists a, r'.(r_AuthCtx) = Some a
    /\ credential ascii_lower (Some sessions) None demo_instants (knocking grace_cookie "" None) (demo_mw None) a
    /\ (admin_or_viewer a \/ bootstrapped server_cfg (knocking grace_cookie "" None)).
Proof.
  eexists _, _. split; [vm_compute; reflexivity|].
  eapply (management_gate ascii_lower (fun _ => "") elements (fun _ => None)); [apply demo_guarded|reflexivity|vm_compute; reflexivity].
Defined.

Lemma bootstrap_needs_credentials_witness :
  exists e, (buildMiddlewareStack ascii_lower (fun _ => "") server_cfg (Some sessions) None elements (fun _ => None) demo_instants
    (knocking None "boot" None) (demo_mw None)).2 = Err e /\ e.(rp_status) = 401.
Proof. apply (bootstrap_needs_credentials ascii_lower (fun _ => "") elements (fun _ => None)); [apply demo_guarded|reflexivity..]. Defined.

Definition viewer_ctx : AuthContext := session_ctx (grace<|se_Role := UserRoleProxyAdminViewer|>).

Lemma viewer_may_write_witness :
  (managementAuthzMiddleware server_cfg (Some (AddDefaultPolicies ListCasbin.empty)) (knocking None "" (Some viewer_ctx))).2 = Ok tt.
Proof. eapply (viewer_may_write server_cfg (Some (AddDefaultPolicies ListCasbin.empty)) _ viewer_ctx); reflexivity. Defined.

Definition demoted_ctx : AuthContext := session_ctx (grace<|se_Role := UserRoleInternalUser|>).

Lemma role_outlives_demotion_witness :
  exists e', (managementAuthzMiddleware server_cfg (Some (AddDefaultPolicies ListCasbin.empty)) (knocking None "" (Some (session_ctx grace)))).1 = Some e'
    /\ (managementAuthzMiddleware server_cfg (Some e') (knocking None "" (Some demoted_ctx))).2 = Ok tt.
Proof.
  apply (role_outlives_demotion server_cfg (AddDefaultPolicies ListCasbin.empty) (knocking None "" (Some (session_ctx grace)))
    (knocking None "" (Some demoted_ctx)) (session_ctx grace) demoted_ctx (session_user grace) (session_user (grace<|se_Role := UserRoleInternalUser|>)));
    [|reflexivity..]. vm_compute. repeat constructor.
Defined.
