(* ===== verification/Config.v ===== *)
(** * Configuration ([internal/config/config.go], [manager.go])

    The settings of the gateway, their defaults, what [Validate] accepts, how a file is
    read (environment variables, then YAML over the defaults, then validation), and the
    manager that reloads it.  YAML, the hash and the parsing of addresses are
    libraries and parameters.  The settings of the log integrations, which nothing
    here reads, are left out. *)
From Stdlib Require Import Ascii.
From stdpp Require Import pretty.
From S2P Require Import Prelude Float64 Errors ModelName Utf8 TenantLimiter ServerStack.

#[local] Abbreviation explode := String.list_ascii_of_string.
#[local] Abbreviation implode := String.string_of_list_ascii.

Record DeploymentConfig := { Mode : string }.

Record VaultConfig := {
  vault_Enabled : bool;
  vault_Address : string;
  vault_AuthMethod : string;
  vault_RoleID : string;
  vault_SecretID : string;
  vault_CACert : string;
  vault_ClientCert : string;
  vault_ClientKey : string;
}.

Record MCPClientConfig := {
  mcpc_ID : string;
  mcpc_Name : string;
  mcpc_Type : string;
  mcpc_URL : string;
  mcpc_Command : string;
  mcpc_Args : list string;
  mcpc_Envs : list string;
  mcpc_Headers : gmap string string;
  mcpc_ToolsToExecute : list string;
  mcpc_ConnectionTimeout : duration;
  mcpc_ExecutionTimeout : duration;
}.

Record MCPConfig := {
  mcp_Enabled : bool;
  mcp_Clients : list MCPClientConfig;
  mcp_DefaultConnectionTimeout : duration;
  mcp_DefaultExecutionTimeout : duration;
}.

Record MemoryCacheConfig := {
  mem_MaxSize : Z;
  mem_DefaultTTL : duration;
  mem_MaxItemSize : Z;
  mem_CleanupInterval : duration;
}.

Record RedisCacheConfig := {
  redis_Addr : string;
  redis_Password : string;
  redis_DB : Z;
  redis_ClusterAddrs : list string;
  redis_SentinelAddrs : list string;
  redis_SentinelMaster : string;
  redis_DialTimeout : duration;
  redis_ReadTimeout : duration;
  redis_WriteTimeout : duration;
  redis_PoolSize : Z;
  redis_MinIdleConns : Z;
  redis_MaxRetries : Z;
}.

Record CacheConfig := {
  cache_Enabled : bool;
  cache_Type : string;
  cache_Namespace : string;
  cache_TTL : duration;
  cache_Memory : MemoryCacheConfig;
  cache_Redis : RedisCacheConfig;
}.

Record HealthCheckConfig := {
  health_Enabled : bool;
  health_Interval : duration;
  health_Timeout : duration;
}.

Record AuthSessionConfig := {
  session_Enabled : bool;
  session_Secret : string;
  session_CookieName : string;
  session_StateCookieName : string;
  session_CookieDomain : string;
  session_CookiePath : string;
  session_CookieSecure : bool;
  session_CookieSameSite : string;
  session_TTL : duration;
  session_StateTTL : duration;
}.

Record CasbinConfig := { casbin_Enabled : bool; casbin_ModelPath : string; casbin_PolicyPath : string }.

Record UserTeamSyncConfig := {
  sync_Enabled : bool;
  sync_AutoCreateUsers : bool;
  sync_AutoCreateTeams : bool;
  sync_RemoveFromUnlistedTeams : bool;
  sync_SyncUserRole : bool;
  sync_DefaultRole : string;
  sync_DefaultOrganizationID : string;
}.

Record ClaimMapping := {
  claim_RoleClaim : string;
  claim_Roles : gmap string string;
  claim_UseRoleHierarchy : bool;
  claim_TeamIDJWTField : string;
  claim_TeamIDsJWTField : string;
  claim_TeamAliasMap : gmap string string;
  claim_OrgIDJWTField : string;
  claim_OrgAliasMap : gmap string string;
  claim_UserIDJWTField : string;
  claim_UserEmailJWTField : string;
  claim_EndUserIDJWTField : string;
  claim_DefaultRole : string;
  claim_DefaultTeamID : string;
}.

Record OIDCConfig := {
  oidc_IssuerURL : string;
  oidc_ClientID : string;
  oidc_ClientSecret : string;
  oidc_RedirectURL : string;
  oidc_ClaimMapping : ClaimMapping;
  oidc_UserIDUpsert : bool;
  oidc_TeamIDUpsert : bool;
  oidc_UserAllowedEmailDomain : string;
  oidc_UserInfoEnabled : bool;
  oidc_UserInfoCacheTTL : Z;
  oidc_UserTeamSync : UserTeamSyncConfig;
}.

Record AuthConfig := {
  auth_Enabled : bool;
  auth_SkipPaths : list string;
  auth_LastUsedUpdateInterval : duration;
  auth_BootstrapToken : string;
  auth_OIDC : OIDCConfig;
  auth_Session : AuthSessionConfig;
  auth_Casbin : CasbinConfig;
}.

Record DatabaseConfig := {
  db_Enabled : bool;
  db_Host : string;
  db_Port : Z;
  db_User : string;
  db_Password : string;
  db_Database : string;
  db_SSLMode : string;
  db_MaxOpenConns : Z;
  db_MaxIdleConns : Z;
  db_ConnLifetime : duration;
}.

Record ServerConfig := {
  server_Port : Z;
  server_AdminPort : Z;
  server_ReadTimeout : duration;
  server_WriteTimeout : duration;
  server_IdleTimeout : duration;
}.

Record StreamConfig := { RecoveryMode : string; MaxAccumulatedBytes : Z }.

Record ProviderConfig := {
  provider_Name : string;
  provider_Type : string;
  provider_APIKey : string;
  provider_BaseURL : string;
  provider_AllowPrivateBaseURL : bool;
  provider_Models : list string;
  provider_MaxConcurrent : Z;
  provider_Timeout : duration;
  provider_Headers : gmap string string;
}.

Record RoutingConfig := {
  routing_DefaultProvider : string;
  routing_Strategy : string;
  routing_FallbackEnabled : bool;
  routing_RetryCount : Z;
  routing_RetryBackoff : duration;
  routing_RetryMaxBackoff : duration;
  routing_RetryJitter : f64;
  routing_CooldownPeriod : duration;
  routing_Distributed : bool;
  routing_EWMAAlpha : f64;
}.

Record RateLimitConfig := {
  rate_Enabled : bool;
  rate_RequestsPerMinute : Z;
  rate_TokensPerMinute : Z;
  rate_BurstSize : Z;
  rate_WindowSize : duration;
  rate_KeyStrategy : string;
  rate_FailOpen : bool;
  rate_TrustedProxyCIDRs : list string;
  rate_Distributed : bool;
}.

Record GovernanceConfig := {
  gov_Enabled : bool;
  gov_AsyncAccounting : bool;
  gov_IdempotencyWindow : duration;
  gov_AuditEnabled : bool;
}.

Record LoggingConfig := { log_Level : string; log_Format : string }.
Record MetricsConfig := { metrics_Enabled : bool; metrics_Path : string }.

Record TracingConfig := {
  tracing_Enabled : bool;
  tracing_Endpoint : string;
  tracing_ServiceName : string;
  tracing_SampleRate : f64;
  tracing_Insecure : bool;
}.

Record Config := {
  cfg_Server : ServerConfig;
  cfg_Deployment : DeploymentConfig;
  cfg_Providers : list ProviderConfig;
  cfg_Routing : RoutingConfig;
  cfg_Stream : StreamConfig;
  cfg_RateLimit : RateLimitConfig;
  cfg_Governance : GovernanceConfig;
  cfg_Logging : LoggingConfig;
  cfg_Metrics : MetricsConfig;
  cfg_Tracing : TracingConfig;
  cfg_CORS : CORSConfig;
  cfg_Auth : AuthConfig;
  cfg_Database : DatabaseConfig;
  cfg_Cache : CacheConfig;
  cfg_HealthCheck : HealthCheckConfig;
  cfg_MCP : MCPConfig;
  cfg_Vault : VaultConfig;
  cfg_PricingFile : string;
}.

Record Warning := { w_Code : string; w_Message : string }.

Definition WarningCacheWithoutAuth := "cache_without_auth".

Definition Warnings (c : Config) : list Warning :=
  if c.(cfg_Cache).(cache_Enabled) && negb c.(cfg_Auth).(auth_Enabled) then
    [{| w_Code := WarningCacheWithoutAuth;
        w_Message := "cache.enabled=true with auth.enabled=false disables tenant_id isolation; "
                     +:+ "this is OK for single-tenant/trusted deployments, but unsafe for multi-tenant or untrusted callers" |}]
  else [].

(** ** Defaults *)

Definition no_claims : ClaimMapping :=
  {| claim_RoleClaim := ""; claim_Roles := ∅; claim_UseRoleHierarchy := false; claim_TeamIDJWTField := ""; claim_TeamIDsJWTField := "";
     claim_TeamAliasMap := ∅; claim_OrgIDJWTField := ""; claim_OrgAliasMap := ∅; claim_UserIDJWTField := "";
     claim_UserEmailJWTField := ""; claim_EndUserIDJWTField := ""; claim_DefaultRole := ""; claim_DefaultTeamID := "" |}.

Definition no_sync : UserTeamSyncConfig :=
  {| sync_Enabled := false; sync_AutoCreateUsers := false; sync_AutoCreateTeams := false; sync_RemoveFromUnlistedTeams := false;
     sync_SyncUserRole := false; sync_DefaultRole := ""; sync_DefaultOrganizationID := "" |}.

Definition no_oidc : OIDCConfig :=
  {| oidc_IssuerURL := ""; oidc_ClientID := ""; oidc_ClientSecret := ""; oidc_RedirectURL := ""; oidc_ClaimMapping := no_claims;
     oidc_UserIDUpsert := false; oidc_TeamIDUpsert := false; oidc_UserAllowedEmailDomain := ""; oidc_UserInfoEnabled := false;
     oidc_UserInfoCacheTTL := 0; oidc_UserTeamSync := no_sync |}.

Definition DefaultConfig : Config :=
  {| cfg_Server := {| server_Port := 8080; server_AdminPort := 0; server_ReadTimeout := 30 * Second; server_WriteTimeout := 120 * Second;
                  server_IdleTimeout := 60 * Second |};
     cfg_Deployment := {| Mode := "standalone" |};
     cfg_Providers := [];
     cfg_Routing := {| routing_DefaultProvider := ""; routing_Strategy := "simple-shuffle"; routing_FallbackEnabled := true;
                   routing_RetryCount := 3; routing_RetryBackoff := 100 * Millisecond; routing_RetryMaxBackoff := 5 * Second;
                   routing_RetryJitter := f64_lit 1 5; routing_CooldownPeriod := 60 * Second; routing_Distributed := false;
                   routing_EWMAAlpha := f64_lit 1 10 |};
     cfg_Stream := {| RecoveryMode := "retry"; MaxAccumulatedBytes := 1048576 |};
     cfg_RateLimit := {| rate_Enabled := false; rate_RequestsPerMinute := 60; rate_TokensPerMinute := 100000; rate_BurstSize := 10;
                     rate_WindowSize := Minute; rate_KeyStrategy := "api_key"; rate_FailOpen := true; rate_TrustedProxyCIDRs := [];
                     rate_Distributed := false |};
     cfg_Governance := {| gov_Enabled := true; gov_AsyncAccounting := true; gov_IdempotencyWindow := 10 * Minute; gov_AuditEnabled := true |};
     cfg_Logging := {| log_Level := "info"; log_Format := "json" |};
     cfg_Metrics := {| metrics_Enabled := true; metrics_Path := "/metrics" |};
     cfg_Tracing := {| tracing_Enabled := false; tracing_Endpoint := "localhost:4317"; tracing_ServiceName := "llmux";
                   tracing_SampleRate := f64_of_Z 1; tracing_Insecure := true |};
     cfg_CORS := {| cors_Enabled := false; AllowAllOrigins := false; AllowCredentials := false;
                AllowMethods := ["GET"; "POST"; "PUT"; "PATCH"; "DELETE"; "OPTIONS"];
                AllowHeaders := ["Content-Type"; "Authorization"; "X-Requested-With"]; ExposeHeaders := [];
                cors_MaxAge := 10 * Minute; DataOrigins := {| Allowlist := []; Denylist := [] |};
                AdminOrigins := {| Allowlist := []; Denylist := [] |};
                AdminPathPrefixes := ["/key/"; "/team/"; "/user/"; "/organization/"; "/spend/"; "/audit/"; "/global/"; "/invitation/";
                                      "/control/"; "/metrics"; "/auth/"; "/api/auth/"] |};
     cfg_Auth := {| auth_Enabled := true;
                auth_SkipPaths := ["/health/live"; "/health/ready"; "/auth/oidc/login"; "/auth/oidc/callback"; "/auth/me"; "/auth/logout";
                                   "/api/auth/oidc/login"; "/api/auth/oidc/callback"; "/api/auth/me"; "/api/auth/logout"];
                auth_LastUsedUpdateInterval := Minute; auth_BootstrapToken := ""; auth_OIDC := no_oidc;
                auth_Session := {| session_Enabled := false; session_Secret := ""; session_CookieName := "llmux_session";
                                   session_StateCookieName := "llmux_oidc_state"; session_CookieDomain := ""; session_CookiePath := "/";
                                   session_CookieSecure := false; session_CookieSameSite := "lax"; session_TTL := 12 * Hour;
                                   session_StateTTL := 10 * Minute |};
                auth_Casbin := {| casbin_Enabled := false; casbin_ModelPath := ""; casbin_PolicyPath := "" |} |};
     cfg_Database := {| db_Enabled := false; db_Host := "localhost"; db_Port := 5432; db_User := ""; db_Password := ""; db_Database := "llmux";
                    db_SSLMode := "disable"; db_MaxOpenConns := 25; db_MaxIdleConns := 5; db_ConnLifetime := 5 * Minute |};
     cfg_Cache := {| cache_Enabled := false; cache_Type := "local"; cache_Namespace := "llmux"; cache_TTL := Hour;
                 cache_Memory := {| mem_MaxSize := 1000; mem_DefaultTTL := 10 * Minute; mem_MaxItemSize := 1048576;
                                    mem_CleanupInterval := Minute |};
                 cache_Redis := {| redis_Addr := "localhost:6379"; redis_Password := ""; redis_DB := 0; redis_ClusterAddrs := [];
                                   redis_SentinelAddrs := []; redis_SentinelMaster := ""; redis_DialTimeout := 5 * Second;
                                   redis_ReadTimeout := 3 * Second; redis_WriteTimeout := 3 * Second; redis_PoolSize := 10;
                                   redis_MinIdleConns := 2; redis_MaxRetries := 3 |} |};
     cfg_HealthCheck := {| health_Enabled := false; health_Interval := 30 * Second; health_Timeout := 10 * Second |};
     cfg_MCP := {| mcp_Enabled := false; mcp_Clients := []; mcp_DefaultConnectionTimeout := 30 * Second;
               mcp_DefaultExecutionTimeout := 60 * Second |};
     cfg_Vault := {| vault_Enabled := false; vault_Address := ""; vault_AuthMethod := ""; vault_RoleID := ""; vault_SecretID := "";
                 vault_CACert := ""; vault_ClientCert := ""; vault_ClientKey := "" |};
     cfg_PricingFile := "" |}.

(** ** Validation *)

(** [if cond { return err }] in sequence: the first condition that holds gives the
    error. *)
Fixpoint first_failed (checks : list (bool * string)) : option go_error :=
  match checks with
  | [] => None
  | (bad, msg) :: checks' => if bad then Some (EText msg) else first_failed checks'
  end.

Definition only_if (b : bool) (checks : list (bool * string)) : list (bool * string) := if b then checks else [].

Definition blank (s : string) : bool := String.eqb s "".
Definition bad_port (p : Z) : bool := (p <=? 0) || (65535 <? p).

Definition hasRedisConfig (cfg : RedisCacheConfig) : bool :=
  negb (blank cfg.(redis_Addr)) || match cfg.(redis_ClusterAddrs) with [] => false | _ => true end.

Definition containsWildcard (values : list string) : bool := existsb (String.eqb "*") values.

Section Validation.
(** [strings.ToLower], the table of printable runes and the network library. *)
Context (toLower : string -> string) (IsPrint : N -> bool) {IP Net : Type} `{!NetLib IP Net}.

Definition normalizeDeploymentMode (mode : string) : go_error + string :=
  let normalized := toLower (TrimSpace mode) in
  if blank normalized then inr "standalone"
  else if String.eqb normalized "standalone" || String.eqb normalized "distributed" || String.eqb normalized "development"
  then inr normalized
  else inl (EText "deployment.mode must be one of: standalone, distributed, development").

Definition isValidIPOrCIDR (value : string) : bool :=
  let value := TrimSpace value in
  if blank value then false
  else if existsb (Ascii.eqb "/"%char) (explode value) then bool_decide (is_Some (net_ParseCIDR value))
  else bool_decide (is_Some (net_ParseIP value)).

Definition isValidSameSite (value : string) : bool :=
  existsb (String.eqb (toLower (TrimSpace value))) [""; "lax"; "strict"; "none"].

Definition provider_checks (i : nat) (p : ProviderConfig) : list (bool * string) :=
  let at_i := "provider[" +:+ pretty i +:+ "]" in
  let named := at_i +:+ " " +:+ Quote IsPrint p.(provider_Name) in
  [(blank p.(provider_Name), at_i +:+ ": name is required");
   (blank p.(provider_Type), at_i +:+ ": type is required");
   (blank p.(provider_APIKey), named +:+ ": api_key is required");
   (match p.(provider_Models) with [] => true | _ => false end, named +:+ ": at least one model must be configured");
   (p.(provider_Timeout) <? 0, named +:+ ": timeout cannot be negative");
   (p.(provider_MaxConcurrent) <? 0, named +:+ ": max_concurrent cannot be negative")].

Definition server_checks (c : Config) : list (bool * string) :=
  let port := c.(cfg_Server).(server_Port) in
  let admin := c.(cfg_Server).(server_AdminPort) in
  [(bad_port port, "invalid server port: " +:+ pretty port)]
  ++ only_if (negb (admin =? 0))
       [(bad_port admin, "invalid admin port: " +:+ pretty admin);
        (admin =? port, "admin port must differ from server port: " +:+ pretty admin)].

Definition routing_checks (r : RoutingConfig) : list (bool * string) :=
  [(r.(routing_RetryCount) <? 0, "routing.retry_count cannot be negative");
   (r.(routing_RetryBackoff) <? 0, "routing.retry_backoff cannot be negative");
   (r.(routing_RetryMaxBackoff) <? 0, "routing.retry_max_backoff cannot be negative");
   ((r.(routing_RetryJitter) <.? fzero) || (f64_of_Z 1 <.? r.(routing_RetryJitter)), "routing.retry_jitter must be between 0 and 1");
   (r.(routing_CooldownPeriod) <? 0, "routing.cooldown_period cannot be negative")].

Definition misc_checks (c : Config) : list (bool * string) :=
  [(c.(cfg_HealthCheck).(health_Interval) <? 0, "healthcheck.interval cannot be negative");
   (c.(cfg_HealthCheck).(health_Timeout) <? 0, "healthcheck.timeout cannot be negative");
   (negb (existsb (String.eqb c.(cfg_Stream).(RecoveryMode)) [""; "off"; "append"; "retry"]), "stream.recovery_mode must be one of: off, append, retry");
   (c.(cfg_Stream).(MaxAccumulatedBytes) <? 0, "stream.max_accumulated_bytes cannot be negative");
   (c.(cfg_CORS).(cors_MaxAge) <? 0, "cors.max_age cannot be negative");
   (c.(cfg_Governance).(gov_IdempotencyWindow) <? 0, "governance.idempotency_window cannot be negative")]
  ++ only_if (negb c.(cfg_CORS).(AllowAllOrigins))
       [(containsWildcard c.(cfg_CORS).(DataOrigins).(Allowlist), "cors.data_origins.allowlist cannot include wildcard when allow_all_origins is false");
        (containsWildcard c.(cfg_CORS).(AdminOrigins).(Allowlist), "cors.admin_origins.allowlist cannot include wildcard when allow_all_origins is false")]
  ++ imap (fun i value => (negb (isValidIPOrCIDR value), "rate_limit.trusted_proxy_cidrs[" +:+ pretty i +:+ "] must be a valid IP or CIDR"))
       c.(cfg_RateLimit).(rate_TrustedProxyCIDRs).

Definition database_checks (d : DatabaseConfig) : list (bool * string) :=
  only_if d.(db_Enabled)
    [(blank d.(db_Host), "database.host is required when database is enabled");
     (bad_port d.(db_Port), "database.port must be between 1 and 65535");
     (blank d.(db_User), "database.user is required when database is enabled");
     (blank d.(db_Database), "database.database is required when database is enabled");
     (blank d.(db_SSLMode), "database.ssl_mode is required when database is enabled");
     (d.(db_MaxOpenConns) <? 0, "database.max_open_conns cannot be negative");
     (d.(db_MaxIdleConns) <? 0, "database.max_idle_conns cannot be negative");
     (d.(db_ConnLifetime) <? 0, "database.conn_lifetime cannot be negative")].

Definition distributed_checks (mode : string) (c : Config) : list (bool * string) :=
  let redis := hasRedisConfig c.(cfg_Cache).(cache_Redis) in
  let rate := c.(cfg_RateLimit) in
  only_if (String.eqb mode "distributed")
    [(negb c.(cfg_Database).(db_Enabled), "deployment.mode=distributed requires database.enabled=true for auth and usage storage");
     (negb c.(cfg_Routing).(routing_Distributed), "deployment.mode=distributed requires routing.distributed=true for shared routing stats");
     (c.(cfg_Routing).(routing_Distributed) && negb redis,
      "deployment.mode=distributed requires cache.redis.addr or cache.redis.cluster_addrs for routing stats");
     (rate.(rate_Enabled) && negb rate.(rate_Distributed),
      "deployment.mode=distributed requires rate_limit.distributed=true when rate_limit.enabled");
     (rate.(rate_Enabled) && rate.(rate_Distributed) && negb redis,
      "deployment.mode=distributed requires cache.redis.addr or cache.redis.cluster_addrs for rate limiting")].

Definition session_checks (s : AuthSessionConfig) : list (bool * string) :=
  only_if s.(session_Enabled)
    [(blank (TrimSpace s.(session_Secret)), "auth.session.secret is required when auth.session.enabled is true");
     (s.(session_TTL) <? 0, "auth.session.ttl cannot be negative");
     (s.(session_StateTTL) <? 0, "auth.session.state_ttl cannot be negative");
     (negb (isValidSameSite s.(session_CookieSameSite)), "auth.session.cookie_same_site must be one of: lax, strict, none")].

Definition Validate (c : Config) : option go_error :=
  match normalizeDeploymentMode c.(cfg_Deployment).(Mode) with
  | inl err => Some err
  | inr mode =>
      first_failed
        ([(negb (String.eqb mode "development") && negb c.(cfg_Auth).(auth_Enabled),
           "auth.enabled must be true when deployment.mode is " +:+ mode +:+ " (set deployment.mode=development to run unauthenticated)")]
         ++ server_checks c
         ++ [(match c.(cfg_Providers) with [] => true | _ => false end, "at least one provider must be configured")]
         ++ concat (imap provider_checks c.(cfg_Providers))
         ++ routing_checks c.(cfg_Routing)
         ++ misc_checks c
         ++ database_checks c.(cfg_Database)
         ++ distributed_checks mode c
         ++ session_checks c.(cfg_Auth).(auth_Session))
  end.

(** ** Reading a file *)

(** [os.Expand]: [shell_name] gives the name after a dollar and how many bytes it
    takes. *)
Definition is_special (c : ascii) : bool :=
  let n := N_of_ascii c in existsb (Ascii.eqb c) ["*"%char; "#"%char; "$"%char; "@"%char; "!"%char; "?"%char; "-"%char] || ((48 <=? n) && (n <=? 57))%N.

Definition is_alphanum (c : ascii) : bool :=
  let n := N_of_ascii c in
  Ascii.eqb c "_"%char || ((48 <=? n) && (n <=? 57))%N || ((97 <=? n) && (n <=? 122))%N || ((65 <=? n) && (n <=? 90))%N.

(** Up to the first byte that satisfies [stop]. *)
Fixpoint scan (stop : ascii -> bool) (l : list ascii) : list ascii :=
  match l with
  | [] => []
  | c :: l' => if stop c then [] else c :: scan stop l'
  end.

Definition shell_name (l : list ascii) : list ascii * nat :=
  match l with
  | [] => ([], 0%nat)
  | c :: l' =>
      if Ascii.eqb c "{"%char then
        match l' with
        | s :: b :: _ =>
            if is_special s && Ascii.eqb b "}"%char then ([s], 3%nat)
            else
              let name := scan (Ascii.eqb "}"%char) l' in
              if (length name <? length l')%nat then (name, length name + 2)%nat else ([], 1%nat)
        | _ => if bool_decide (l' = ["}"%char]) then ([], 2%nat) else ([], 1%nat)
        end
      else if is_special c then ([c], 1%nat)
      else let name := scan (fun c => negb (is_alphanum c)) l in (name, length name)
  end.

(** Each turn takes a byte at least; the length is enough fuel. *)
Fixpoint expand_from (fuel : nat) (mapping : string -> string) (l : list ascii) : list ascii :=
  match fuel, l with
  | S fuel', c :: l' =>
      if Ascii.eqb c "$"%char && negb (bool_decide (l' = [])) then
        let '(name, w) := shell_name l' in
        let out := match name, w with
                   | [], O => [c]
                   | [], S _ => []
                   | _, _ => explode (mapping (implode name))
                   end in
        out ++ expand_from fuel' mapping (drop w l')
      else c :: expand_from fuel' mapping l'
  | _, _ => []
  end.

Definition Expand (s : string) (mapping : string -> string) : string :=
  implode (expand_from (String.length s) mapping (explode s)).

(** The name up to the first colon, and the default after it. *)
Fixpoint cut_colon (l : list ascii) : list ascii * list ascii :=
  match l with
  | [] => ([], [])
  | c :: l' => if Ascii.eqb c ":"%char then ([], l') else let '(a, b) := cut_colon l' in (c :: a, b)
  end.

(** [lookupEnv] is the environment. *)
Definition env_value (lookupEnv : string -> option string) (key : string) : string :=
  let '(name, def) := cut_colon (explode key) in
  match lookupEnv (implode name) with
  | Some val => if blank val then implode def else val
  | None => implode def
  end.

(** [readFile] is the file system, [unmarshal] reads YAML into a configuration that
    has values already. *)
Section Files.
Context (readFile : string -> go_error + string) (lookupEnv : string -> option string) (unmarshal : string -> Config -> go_error + Config).

Definition LoadFromFile (path : string) : go_error + Config :=
  match readFile path with
  | inl err => inl (EWrap "read config file" err)
  | inr data =>
      match unmarshal (Expand data (env_value lookupEnv)) DefaultConfig with
      | inl err => inl (EWrap "parse config" err)
      | inr cfg => match Validate cfg with Some err => inl (EWrap "validate config" err) | None => inr cfg end
      end
  end.

End Files.

End Validation.

(** ** The manager

    [load] is [LoadFromFile] at the time of the call, [checksum] the hash of the YAML
    form.  The listeners get the new configuration after it is in place; what they
    were told is recorded. *)
Record Manager := {
  mgr_config : Config;
  mgr_path : string;
  mgr_checksum : string;
  mgr_loadedAt : time;
  mgr_reloadCount : Z;
  mgr_listeners : nat;
  mgr_told : list (nat * Config);
}.

Record ConfigStatus := { cs_Path : string; cs_Checksum : string; cs_LoadedAt : time; cs_ReloadCount : Z }.

Section Manager.
Context (load : string -> go_error + Config) (checksum : Config -> go_error + string).

Definition storeConfig (now : time) (cfg : Config) (m : Manager) : Manager * option go_error :=
  match checksum cfg with
  | inl err => (m, Some err)
  | inr sum =>
      ({| mgr_config := cfg; mgr_path := m.(mgr_path); mgr_checksum := sum; mgr_loadedAt := now; mgr_reloadCount := wrapu64 (m.(mgr_reloadCount) + 1);
          mgr_listeners := m.(mgr_listeners); mgr_told := m.(mgr_told) |}, None)
  end.

Definition NewManager (now : time) (path : string) : go_error + Manager :=
  match load path with
  | inl err => inl err
  | inr cfg =>
      let m := {| mgr_config := cfg; mgr_path := path; mgr_checksum := ""; mgr_loadedAt := 0; mgr_reloadCount := 0; mgr_listeners := 0; mgr_told := [] |} in
      match storeConfig now cfg m with
      | (_, Some err) => inl err
      | (m, None) => inr m
      end
  end.

Definition OnChange (m : Manager) : Manager := m<|mgr_listeners ::= S|>.

Definition Reload (now : time) (m : Manager) : Manager * option go_error :=
  match load m.(mgr_path) with
  | inl err => (m, Some err)
  | inr cfg =>
      match storeConfig now cfg m with
      | (m, Some err) => (m, Some err)
      | (m, None) => (m<|mgr_told ::= fun l => l ++ map (fun i => (i, cfg)) (seq 0 m.(mgr_listeners))|>, None)
      end
  end.

Definition Status (m : Manager) : ConfigStatus :=
  {| cs_Path := m.(mgr_path); cs_Checksum := m.(mgr_checksum); cs_LoadedAt := m.(mgr_loadedAt); cs_ReloadCount := m.(mgr_reloadCount) |}.

End Manager.
