(* ===== verification/Mcp.v ===== *)
(** * The tool manager ([internal/mcp/manager.go], [transport.go], [tools.go], [config.go], [convert.go], [handler.go])

    The connections to tool servers, the tools they offer, the filters on them, and the
    running of the calls that a model asks for.  The library of the protocol with what lies
    behind it is the class [McpLib]: an operation takes the environment and gives it back
    changed.  A method that holds the lock of the manager is one step; a method that gives
    it up for the network is taken as a whole, without another method in between. *)
From stdpp Require Import pretty.
From S2P Require Import Prelude Float64 Errors ModelName AuthTypes PluginPipeline Utf8 ClientTypes Gateway Directory.
From S2P Require Config.

(** ** Configuration *)

Definition ConnectionType := string.
Definition ConnectionTypeHTTP : ConnectionType := "http".
Definition ConnectionTypeSTDIO : ConnectionType := "stdio".
Definition ConnectionTypeSSE : ConnectionType := "sse".
Definition ConnectionTypeInProcess : ConnectionType := "inprocess".

Record ClientConfig := {
  mc_ID : string;
  mc_Name : string;
  mc_Type : ConnectionType;
  mc_URL : string;
  mc_Command : string;
  mc_Args : list string;
  mc_Envs : list string;
  mc_Headers : gmap string string;
  mc_ToolsToExecute : list string;
  mc_ConnectionTimeout : duration;
  mc_ExecutionTimeout : duration;
}.

Record McpConfig := {
  mm_Enabled : bool;
  mm_Clients : list ClientConfig;
  mm_DefaultConnectionTimeout : duration;
  mm_DefaultExecutionTimeout : duration;
}.

Definition from_client (c : Config.MCPClientConfig) : ClientConfig :=
  {| mc_ID := c.(Config.mcpc_ID); mc_Name := c.(Config.mcpc_Name); mc_Type := c.(Config.mcpc_Type); mc_URL := c.(Config.mcpc_URL);
     mc_Command := c.(Config.mcpc_Command); mc_Args := c.(Config.mcpc_Args); mc_Envs := c.(Config.mcpc_Envs); mc_Headers := c.(Config.mcpc_Headers);
     mc_ToolsToExecute := c.(Config.mcpc_ToolsToExecute); mc_ConnectionTimeout := c.(Config.mcpc_ConnectionTimeout);
     mc_ExecutionTimeout := c.(Config.mcpc_ExecutionTimeout) |}.

Definition FromConfig (cfg : Config.MCPConfig) : McpConfig :=
  {| mm_Enabled := cfg.(Config.mcp_Enabled); mm_Clients := map from_client cfg.(Config.mcp_Clients);
     mm_DefaultConnectionTimeout := or_default_of_zero cfg.(Config.mcp_DefaultConnectionTimeout) (30 * Second);
     mm_DefaultExecutionTimeout := or_default_of_zero cfg.(Config.mcp_DefaultExecutionTimeout) (60 * Second) |}.

Definition client_Validate (c : ClientConfig) : option go_error :=
  let fails s := Some (EText s) in
  let timeouts :=
    if c.(mc_ConnectionTimeout) <? 0 then fails "connection_timeout cannot be negative"
    else if c.(mc_ExecutionTimeout) <? 0 then fails "execution_timeout cannot be negative" else None in
  if String.eqb c.(mc_ID) "" then fails "id is required"
  else if String.eqb c.(mc_Name) "" then fails "name is required"
  else if String.eqb c.(mc_Type) ConnectionTypeHTTP || String.eqb c.(mc_Type) ConnectionTypeSSE then
    if String.eqb c.(mc_URL) "" then fails ("url is required for " +:+ c.(mc_Type) +:+ " connection") else timeouts
  else if String.eqb c.(mc_Type) ConnectionTypeSTDIO then
    if String.eqb c.(mc_Command) "" then fails "command is required for stdio connection" else timeouts
  else if String.eqb c.(mc_Type) ConnectionTypeInProcess then timeouts
  else if String.eqb c.(mc_Type) "" then fails "type is required"
  else fails ("unknown connection type: " +:+ c.(mc_Type)).

Definition GetConnectionTimeout (c : ClientConfig) (defaultTimeout : duration) : duration :=
  if 0 <? c.(mc_ConnectionTimeout) then c.(mc_ConnectionTimeout) else defaultTimeout.

Definition GetExecutionTimeout (c : ClientConfig) (defaultTimeout : duration) : duration :=
  if 0 <? c.(mc_ExecutionTimeout) then c.(mc_ExecutionTimeout) else defaultTimeout.

(** ** The library *)

(** [InputSchema] is the JSON of its properties, none of them being [None], and the names required. *)
Record McpTool := {
  mt_Name : string;
  mt_Description : string;
  mt_Properties : option string;
  mt_Required : list string;
}.

Inductive content :=
| TextContent (text : string)
| ImageContent (MIMEType : string)
| AudioContent (MIMEType : string)
| EmbeddedResource (type_ : string)
| OtherContent (json : go_error + string).

Record CallToolResult := { ctr_Content : list content; ctr_IsError : bool }.

Class McpLib (Conn Args E : Type) := {
  NewStreamableHTTP : string -> gmap string string -> E -> E * (go_error + Conn);
  NewSSE : string -> gmap string string -> E -> E * (go_error + Conn);
  NewStdio : string -> list string -> list string -> E -> E * Conn;
  Getenv : E -> string -> string;
  conn_Start : duration -> Conn -> E -> E * option go_error;
  conn_Initialize : duration -> Conn -> E -> E * option go_error;
  conn_ListTools : duration -> Conn -> E -> E * (go_error + list McpTool);
  conn_CallTool : duration -> string -> Args -> Conn -> E -> E * (go_error + option CallToolResult);
  conn_Close : Conn -> E -> E * option go_error;
  lib_now : E -> E * time;
  read_args : string -> go_error + Args;
  write_params : option string -> list string -> go_error + string;
}.

Section Manager.
Context {Conn Args E : Type} `{!McpLib Conn Args E}.
(** The printable runes, and the order in which a map is gone through. *)
Context (IsPrint : N -> bool) (order : forall A : Type, gmap string A -> list (string * A)).

Record McpClient := {
  mcl_ID : string;
  mcl_Name : string;
  mcl_Config : ClientConfig;
  mcl_Conn : option Conn;
  mcl_Tools : gmap string Tool;
  mcl_URL : string;
  mcl_CommandString : string;
  mcl_ConnectedAt : time;
  mcl_cancel : bool;
}.

Record MCPManager := { mgr_clients : gmap string McpClient; mgr_config : McpConfig }.

(** ** Tools *)

(** The object type without properties. *)
Definition default_params : string :=
  let q s := String (Ascii.ascii_of_nat 34) s +:+ String (Ascii.ascii_of_nat 34) "" in
  "{" +:+ q "type" +:+ ":" +:+ q "object" +:+ "," +:+ q "properties" +:+ ":{}}".

Definition convertMCPTool (t : McpTool) : Tool :=
  {| tool_Type := "function";
     tool_Function := {| tf_Name := t.(mt_Name); tf_Description := t.(mt_Description);
                         tf_Parameters := match write_params t.(mt_Properties) t.(mt_Required) with
                                          | inr s => s
                                          | inl _ => default_params
                                          end |} |}.

Definition contains (l : list string) (x : string) : bool := existsb (String.eqb x) l.

(** A filter of the context is [None] when it is not set. *)
Definition shouldIncludeClient (clientID : string) (includeClients : option (list string)) : bool :=
  match includeClients with
  | None => true
  | Some l => if (length l =? 0)%nat then false else if contains l "*" then true else contains l clientID
  end.

Definition shouldSkipToolForConfig (toolName : string) (cfg : ClientConfig) : bool :=
  if (length cfg.(mc_ToolsToExecute) =? 0)%nat then true
  else if contains cfg.(mc_ToolsToExecute) "*" then false
  else negb (contains cfg.(mc_ToolsToExecute) toolName).

Definition shouldSkipToolForRequest (clientID toolName : string) (includeTools : option (list string)) : bool :=
  match includeTools with
  | None => false
  | Some l =>
      if (length l =? 0)%nat then true
      else if contains l (clientID +:+ "/*") then false
      else negb (contains l (clientID +:+ "/" +:+ toolName))
  end.

Definition client_tools (id : string) (includeTools : option (list string)) (c : McpClient) : list Tool :=
  map snd (keep (fun nt => negb (shouldSkipToolForConfig nt.1 c.(mcl_Config)) && negb (shouldSkipToolForRequest id nt.1 includeTools))
                (order _ c.(mcl_Tools))).

Definition GetAvailableTools (includeClients includeTools : option (list string)) (m : MCPManager) : list Tool :=
  concat (map (fun ic => match ic.2.(mcl_Conn) with
                         | None => []
                         | Some _ => if shouldIncludeClient ic.1 includeClients then client_tools ic.1 includeTools ic.2 else []
                         end) (order _ m.(mgr_clients))).

(** The loop over the tools, with the names that are there. *)
Definition inject_one (st : list Tool * gset string) (t : Tool) : list Tool * gset string :=
  let name := t.(tool_Function).(tf_Name) in
  if bool_decide (name ∈ st.2) then st else (st.1 ++ [t], {[name]} ∪ st.2).

Definition mcp_InjectTools (includeClients includeTools : option (list string)) (req : ChatRequest) (m : MCPManager) : ChatRequest :=
  let mcpTools := GetAvailableTools includeClients includeTools m in
  if (length mcpTools =? 0)%nat then req
  else
    let existing := list_to_set (map (fun t => t.(tool_Function).(tf_Name)) req.(q_Tools)) in
    req<|q_Tools := (fold_left inject_one mcpTools (req.(q_Tools), existing)).1|>.

(** ** Running a call *)

Definition executed (toolName : string) : string := "Tool '" +:+ toolName +:+ "' executed successfully".

Definition content_text (c : content) : string :=
  match c with
  | TextContent text => text
  | ImageContent m => "[Image: " +:+ m +:+ "]"
  | AudioContent m => "[Audio: " +:+ m +:+ "]"
  | EmbeddedResource t => "[Resource: " +:+ t +:+ "]"
  | OtherContent (inr data) => data
  | OtherContent (inl _) => ""
  end.

Definition extractTextFromResponse (resp : option CallToolResult) (toolName : string) : string :=
  match resp with
  | None => executed toolName
  | Some r => let result := String.concat "" (map content_text r.(ctr_Content)) in
              if (0 <? String.length result)%nat then TrimSpace result else executed toolName
  end.

(** [conn] is the connection of the client, which is not nil. *)
Definition executeToolOnClient (timeout : duration) (conn : Conn) (call : ToolCall) (e : E) : E * (go_error + ToolExecutionResult) :=
  match read_args call.(tc_Function).(tcf_Arguments) with
  | inl err => (e, inl (EWrap "failed to parse arguments" err))
  | inr args =>
      let (e, resp) := conn_CallTool timeout call.(tc_Function).(tcf_Name) args conn e in
      match resp with
      | inl err => (e, inl (EWrap "tool call failed" err))
      | inr resp =>
          (e, inr {| tr_ToolCallID := call.(tc_ID); tr_ToolName := call.(tc_Function).(tcf_Name);
                     tr_Content := extractTextFromResponse resp call.(tc_Function).(tcf_Name);
                     tr_IsError := match resp with Some r => r.(ctr_IsError) | None => false end; tr_Duration := 0 |})
      end
  end.

(** The first client in the order of the map that has the tool. *)
Definition findClientForTool (toolName : string) (m : MCPManager) : option McpClient :=
  snd <$> List.find (fun ic => match ic.2.(mcl_Tools) !! toolName with Some _ => true | None => false end) (order _ m.(mgr_clients)).

Definition failed_result (call : ToolCall) (err : go_error) (d : duration) : ToolExecutionResult :=
  {| tr_ToolCallID := call.(tc_ID); tr_ToolName := call.(tc_Function).(tcf_Name); tr_Content := "Error: " +:+ error_text err; tr_IsError := true;
     tr_Duration := d |}.

Definition ExecuteToolCall (call : ToolCall) (m : MCPManager) (e : E) : E * (go_error + ToolExecutionResult) :=
  let toolName := call.(tc_Function).(tcf_Name) in
  if String.eqb toolName "" then (e, inl (EText "tool call missing function name"))
  else
    let (e, start) := lib_now e in
    match findClientForTool toolName m with
    | None => (e, inl (EText ("tool " +:+ Quote IsPrint toolName +:+ " not found in any MCP client")))
    | Some client =>
        match client.(mcl_Conn) with
        | None => (e, inl (EText ("client " +:+ Quote IsPrint client.(mcl_Name) +:+ " not connected")))
        | Some conn =>
            let timeout := GetExecutionTimeout client.(mcl_Config) m.(mgr_config).(mm_DefaultExecutionTimeout) in
            let (e, result) := executeToolOnClient timeout conn call e in
            let (e, stop) := lib_now e in
            match result with
            | inl err => (e, inr (failed_result call err (time_sub stop start)))
            | inr result => (e, inr result<|tr_Duration := time_sub stop start|>)
            end
        end
    end.

(** What the goroutine of a call writes at its index. *)
Definition run_call (call : ToolCall) (m : MCPManager) (e : E) : E * ToolExecutionResult :=
  match ExecuteToolCall call m e with
  | (e, inl err) => (e, failed_result call err 0)
  | (e, inr result) => (e, result)
  end.

Definition zero_result : ToolExecutionResult := {| tr_ToolCallID := ""; tr_ToolName := ""; tr_Content := ""; tr_IsError := false; tr_Duration := 0 |}.

(** The goroutines reach the network in the order of [schedule], a list of indices. *)
Definition mcp_ExecuteToolCalls (schedule : list nat) (calls : list ToolCall) (m : MCPManager) (e : E) : E * list ToolExecutionResult :=
  fold_left (fun st i => match calls !! i with
                         | Some call => let (e, r) := run_call call m st.1 in (e, <[i := r]> st.2)
                         | None => st
                         end) schedule (e, replicate (length calls) zero_result).

(** ** Connections *)

Definition createHTTPConnection (cfg : ClientConfig) (e : E) : E * (go_error + Conn) :=
  match NewStreamableHTTP cfg.(mc_URL) cfg.(mc_Headers) e with
  | (e, inl err) => (e, inl (EWrap "failed to create HTTP transport" err))
  | (e, inr conn) => (e, inr conn)
  end.

Definition createSTDIOConnection (cfg : ClientConfig) (e : E) : E * (go_error + Conn) :=
  match List.find (fun env => String.eqb (Getenv e env) "") cfg.(mc_Envs) with
  | Some env => (e, inl (EText ("environment variable " +:+ env +:+ " not set")))
  | None => let (e, conn) := NewStdio cfg.(mc_Command) cfg.(mc_Envs) cfg.(mc_Args) e in (e, inr conn)
  end.

Definition createSSEConnection (cfg : ClientConfig) (e : E) : E * (go_error + Conn) :=
  match NewSSE cfg.(mc_URL) cfg.(mc_Headers) e with
  | (e, inl err) => (e, inl (EWrap "failed to create SSE transport" err))
  | (e, inr conn) => (e, inr conn)
  end.

Definition refreshClientTools (timeout : duration) (c : McpClient) (e : E) : E * McpClient * option go_error :=
  match c.(mcl_Conn) with
  | None => (e, c, Some (EText "client not connected"))
  | Some conn =>
      match conn_ListTools timeout conn e with
      | (e, inl err) => (e, c, Some (EWrap "failed to list tools" err))
      | (e, inr tools) => (e, c<|mcl_Tools := fold_left (fun m t => <[t.(mt_Name) := convertMCPTool t]> m) tools ∅|>, None)
      end
  end.

(** The client as it is left, also when the connection fails. *)
Definition connectClient (m : MCPManager) (c : McpClient) (e : E) : E * McpClient * option go_error :=
  let cfg := c.(mcl_Config) in
  let open conn url command c e :=
    let timeout := GetConnectionTimeout cfg m.(mgr_config).(mm_DefaultConnectionTimeout) in
    match conn_Start timeout conn e with
    | (e, Some err) => (e, c, Some (EWrap "failed to start transport" err))
    | (e, None) =>
        match conn_Initialize timeout conn e with
        | (e, Some err) => (e, c, Some (EWrap "failed to initialize" err))
        | (e, None) =>
            let (e, now) := lib_now e in
            let c := c<|mcl_Conn := Some conn|><|mcl_URL := url|><|mcl_CommandString := command|><|mcl_ConnectedAt := now|> in
            let '(e, c, _) := refreshClientTools timeout c e in (e, c, None)
        end
    end in
  if String.eqb cfg.(mc_Type) ConnectionTypeHTTP then
    match createHTTPConnection cfg e with
    | (e, inl err) => (e, c, Some err)
    | (e, inr conn) => open conn cfg.(mc_URL) "" c e
    end
  else if String.eqb cfg.(mc_Type) ConnectionTypeSTDIO then
    match createSTDIOConnection cfg e with
    | (e, inl err) => (e, c, Some err)
    | (e, inr conn) => open conn "" (cfg.(mc_Command) +:+ " " +:+ String.concat " " cfg.(mc_Args)) c e
    end
  else if String.eqb cfg.(mc_Type) ConnectionTypeSSE then
    match createSSEConnection cfg e with
    | (e, inl err) => (e, c<|mcl_cancel := false|>, Some err)
    | (e, inr conn) => open conn cfg.(mc_URL) "" c<|mcl_cancel := true|> e
    end
  else (e, c, Some (EText ("unsupported connection type: " +:+ cfg.(mc_Type)))).

Definition cleanupClient (c : McpClient) (e : E) : E * McpClient :=
  let e := match c.(mcl_Conn) with Some conn => (conn_Close conn e).1 | None => e end in
  (e, c<|mcl_cancel := false|><|mcl_Conn := None|><|mcl_Tools := ∅|>).

(** ** Operations *)

Definition new_client (cfg : ClientConfig) : McpClient :=
  {| mcl_ID := cfg.(mc_ID); mcl_Name := cfg.(mc_Name); mcl_Config := cfg; mcl_Conn := None; mcl_Tools := ∅; mcl_URL := ""; mcl_CommandString := "";
     mcl_ConnectedAt := zero_time; mcl_cancel := false |}.

Definition AddClient (cfg : ClientConfig) (m : MCPManager) (e : E) : E * MCPManager * option go_error :=
  match client_Validate cfg with
  | Some err => (e, m, Some (EWrap "invalid config" err))
  | None =>
      match m.(mgr_clients) !! cfg.(mc_ID) with
      | Some _ => (e, m, Some (EText ("client " +:+ Quote IsPrint cfg.(mc_ID) +:+ " already exists")))
      | None =>
          match connectClient m (new_client cfg) e with
          | (e, _, Some err) => (e, m<|mgr_clients ::= delete cfg.(mc_ID)|>, Some (EWrap "failed to connect" err))
          | (e, c, None) => (e, m<|mgr_clients ::= <[cfg.(mc_ID) := c]>|>, None)
          end
      end
  end.

Definition not_found (id : string) : go_error := EText ("client " +:+ Quote IsPrint id +:+ " not found").

Definition RemoveClient (id : string) (m : MCPManager) (e : E) : E * MCPManager * option go_error :=
  match m.(mgr_clients) !! id with
  | None => (e, m, Some (not_found id))
  | Some c => let (e, _) := cleanupClient c e in (e, m<|mgr_clients ::= delete id|>, None)
  end.

Definition ReconnectClient (id : string) (m : MCPManager) (e : E) : E * MCPManager * option go_error :=
  match m.(mgr_clients) !! id with
  | None => (e, m, Some (not_found id))
  | Some c =>
      let (e, c) := cleanupClient c e in
      let '(e, c, err) := connectClient m c e in
      let m := m<|mgr_clients ::= <[id := c]>|> in
      (e, m, match err with Some err => Some (EWrap "failed to reconnect" err) | None => None end)
  end.

Definition Close (m : MCPManager) (e : E) : E * MCPManager :=
  (fold_left (fun e ic => (cleanupClient ic.2 e).1) (order _ m.(mgr_clients)) e, m<|mgr_clients := ∅|>).

Record ClientInfo := {
  ci_ID : string;
  ci_Name : string;
  ci_Type : ConnectionType;
  ci_State : string;
  ci_Tools : list string;
  ci_ToolCount : Z;
  ci_ConnectedAt : option time;
}.

Definition StateConnected := "connected".
Definition StateDisconnected := "disconnected".

Definition buildClientInfo (c : McpClient) : ClientInfo :=
  {| ci_ID := c.(mcl_ID); ci_Name := c.(mcl_Name); ci_Type := c.(mcl_Config).(mc_Type);
     ci_State := match c.(mcl_Conn) with Some _ => StateConnected | None => StateDisconnected end;
     ci_Tools := map fst (order _ c.(mcl_Tools)); ci_ToolCount := Z.of_nat (size c.(mcl_Tools));
     ci_ConnectedAt := if is_zero c.(mcl_ConnectedAt) then None else Some c.(mcl_ConnectedAt) |}.

Definition GetClients (m : MCPManager) : list ClientInfo := map (fun ic => buildClientInfo ic.2) (order _ m.(mgr_clients)).

Definition GetClient (id : string) (m : MCPManager) : go_error + ClientInfo :=
  match m.(mgr_clients) !! id with Some c => inr (buildClientInfo c) | None => inl (not_found id) end.

(** *** The manager of a configuration *)

Fixpoint validate_clients (i : nat) (seen : gset string) (cs : list ClientConfig) : option go_error :=
  match cs with
  | [] => None
  | c :: cs =>
      match client_Validate c with
      | Some err => Some (EWrap ("clients[" +:+ pretty i +:+ "]") err)
      | None => if bool_decide (c.(mc_ID) ∈ seen)
                then Some (EText ("clients[" +:+ pretty i +:+ "]: duplicate id " +:+ Quote IsPrint c.(mc_ID)))
                else validate_clients (S i) ({[c.(mc_ID)]} ∪ seen) cs
      end
  end.

Definition config_Validate (c : McpConfig) : option go_error :=
  if c.(mm_Enabled) then validate_clients 0 ∅ c.(mm_Clients) else None.

Definition NewManager (cfg : McpConfig) (e : E) : E * (go_error + MCPManager) :=
  match config_Validate cfg with
  | Some err => (e, inl (EWrap "invalid config" err))
  | None =>
      let st := fold_left (fun st c => (AddClient c st.2 st.1).1) cfg.(mm_Clients) (e, {| mgr_clients := ∅; mgr_config := cfg |}) in
      (st.1, inr st.2)
  end.

(** ** Endpoints

    [id] is the part of the path; a body is the configuration as decoded, or the error. *)

Definition h_ListClients (m : MCPManager) : list ClientInfo * Z := (GetClients m, Z.of_nat (length (GetClients m))).

Definition h_GetClient (id : string) (m : MCPManager) : answer ClientInfo :=
  if String.eqb id "" then Fails 400 "id is required"
  else match GetClient id m with inl err => Fails 404 (error_text err) | inr info => Gives info end.

Definition h_AddClient (body : go_error + ClientConfig) (m : MCPManager) (e : E) : E * MCPManager * answer string :=
  match body with
  | inl err => (e, m, Fails 400 ("invalid JSON: " +:+ error_text err))
  | inr cfg => match AddClient cfg m e with
               | (e, m, Some err) => (e, m, Fails 500 (error_text err))
               | (e, m, None) => (e, m, Gives cfg.(mc_ID))
               end
  end.

Definition h_RemoveClient (id : string) (m : MCPManager) (e : E) : E * MCPManager * answer unit :=
  if String.eqb id "" then (e, m, Fails 400 "id is required")
  else match RemoveClient id m e with
       | (e, m, Some err) => (e, m, Fails 404 (error_text err))
       | (e, m, None) => (e, m, Gives tt)
       end.

Definition h_ReconnectClient (id : string) (m : MCPManager) (e : E) : E * MCPManager * answer string :=
  if String.eqb id "" then (e, m, Fails 400 "id is required")
  else match ReconnectClient id m e with
       | (e, m, Some err) => (e, m, Fails 500 (error_text err))
       | (e, m, None) => (e, m, Gives id)
       end.

Definition h_ListTools (includeClients includeTools : option (list string)) (m : MCPManager) : list string * Z :=
  let tools := GetAvailableTools includeClients includeTools m in
  (map (fun t => t.(tool_Function).(tf_Name)) tools, Z.of_nat (length tools)).

(** ** The manager of the gateway

    The handlers set no filters.  The goroutines of the calls are scheduled by [schedule],
    which may look at everything. *)
Definition mcp_tool_manager (schedule : list ToolCall -> MCPManager * E -> list nat) : ToolManager (MCPManager * E) :=
  {| InjectTools := Some (fun _ req me => (me, mcp_InjectTools None None req me.1));
     ExecuteToolCalls _ calls me := let (e, rs) := mcp_ExecuteToolCalls (schedule calls me) calls me.1 me.2 in ((me.1, e), rs) |}.
End Manager.

(** * What the tool manager promises

    The invariant of its clients, that a tool which is offered can be called, and that
    every call of a model is answered once, in order, however the goroutines run. *)
From S2P Require Import ApiTypes.

Section Manager.
Context {Conn Args E : Type} `{!McpLib Conn Args E} (IsPrint : N -> bool) (order : forall A : Type, gmap string A -> list (string * A)).
(** A map is gone through once. *)
Context (order_perm : forall (A : Type) (m : gmap string A), order A m ≡ₚ map_to_list m).
#[local] Abbreviation Client := (@McpClient Conn).
#[local] Abbreviation Mgr := (@MCPManager Conn).
Implicit Types (c : Client) (m : Mgr) (e : E).

Lemma elem_of_order {A} (m : gmap string A) (k : string) (v : A) : (k, v) ∈ order A m <-> m !! k = Some v.
Proof. by rewrite order_perm, elem_of_map_to_list. Qed.

(** ** The clients *)

Definition tool_name (t : Tool) : string := t.(tool_Function).(tf_Name).

Definition tools_ok (ts : gmap string Tool) : Prop := map_Forall (fun n t => tool_name t = n) ts.

Record client_ok (id : string) (c : Client) : Prop := {
  ok_id : c.(mcl_ID) = id;
  ok_config_id : c.(mcl_Config).(mc_ID) = id;
  ok_config : client_Validate c.(mcl_Config) = None;
  ok_tools : tools_ok c.(mcl_Tools);
  ok_offline : c.(mcl_Conn) = None -> c.(mcl_Tools) = ∅;
}.

Definition manager_ok m : Prop := map_Forall client_ok m.(mgr_clients).

Lemma listed_tools_ok tools ts : tools_ok ts -> tools_ok (fold_left (fun (acc : gmap string Tool) t => <[t.(mt_Name) := convertMCPTool t]> acc) tools ts).
Proof. revert ts. induction tools as [|t tools IH]; intros ts Hts; [done|]. cbn. apply IH. by apply map_Forall_insert_2. Qed.

Lemma refresh_ok id timeout c e :
  client_ok id c -> c.(mcl_Conn) <> None ->
  client_ok id (refreshClientTools timeout c e).1.2 /\ (refreshClientTools timeout c e).1.2.(mcl_Conn) <> None.
Proof.
  intros [H1 H2 H3 H4 H5] Hc. unfold refreshClientTools. destruct (mcl_Conn c) as [conn|] eqn:Ec; [|done].
  destruct (conn_ListTools timeout conn e) as [e' [err|tools]]; cbn; [split; [by split; rewrite ?Ec|by rewrite Ec]|].
  split; [split; cbn; try done|by rewrite Ec]; [by apply listed_tools_ok|by rewrite Ec].
Qed.

(** A client that is not connected stays so when the connection fails. *)
Lemma connect_ok m id c e :
  client_ok id c -> c.(mcl_Conn) = None ->
  let '(_, c', err) := connectClient m c e in client_ok id c' /\ (c'.(mcl_Conn) = None <-> err <> None).
Proof.
  intros Ok Hc. unfold connectClient.
  assert (Open : forall conn url command (c0 : Client) e0, client_ok id c0 -> c0.(mcl_Conn) = None ->
    let timeout := GetConnectionTimeout c.(mcl_Config) m.(mgr_config).(mm_DefaultConnectionTimeout) in
    let '(_, c', err) :=
      match conn_Start timeout conn e0 with
      | (e1, Some err) => (e1, c0, Some (EWrap "failed to start transport" err))
      | (e1, None) =>
          match conn_Initialize timeout conn e1 with
          | (e2, Some err) => (e2, c0, Some (EWrap "failed to initialize" err))
          | (e2, None) =>
              let (e3, now) := lib_now e2 in
              let c1 := c0<|mcl_Conn := Some conn|><|mcl_URL := url|><|mcl_CommandString := command|><|mcl_ConnectedAt := now|> in
              let '(e4, c2, _) := refreshClientTools timeout c1 e3 in (e4, c2, None)
          end
      end in client_ok id c' /\ (c'.(mcl_Conn) = None <-> err <> None)).
  { intros conn url command c0 e0 Ok0 Hc0 timeout. destruct (conn_Start timeout conn e0) as [e1 [err|]]; [by split|].
    destruct (conn_Initialize timeout conn e1) as [e2 [err|]]; [by split|]. destruct (lib_now e2) as [e3 now].
    cbv beta zeta. set (c1 := c0<|mcl_Conn := Some conn|><|mcl_URL := url|><|mcl_CommandString := command|><|mcl_ConnectedAt := now|>).
    assert (Ok1 : client_ok id c1) by (destruct Ok0; by split).
    destruct (refresh_ok id timeout c1 e3 Ok1) as [R1 R2]; [done|].
    destruct (refreshClientTools timeout c1 e3) as [[e4 c2] err2]. cbn in R1, R2. split; [done|]. split; [done|intros Hx; by destruct (Hx eq_refl)]. }
  destruct (String.eqb _ ConnectionTypeHTTP); [destruct (createHTTPConnection _ e) as [e' [err|conn]]; [by split|by apply Open]|].
  destruct (String.eqb _ ConnectionTypeSTDIO); [destruct (createSTDIOConnection _ e) as [e' [err|conn]]; [by split|by apply Open]|].
  destruct (String.eqb _ ConnectionTypeSSE); [|by split].
  destruct (createSSEConnection _ e) as [e' [err|conn]].
  - split; [destruct Ok; by split|done].
  - apply Open; [destruct Ok; by split|done].
Qed.

Lemma cleanup_ok id c e : client_ok id c -> client_ok id (cleanupClient c e).2 /\ (cleanupClient c e).2.(mcl_Conn) = None.
Proof. intros [H1 H2 H3 H4 H5]. split; [split; cbn; done|done]. Qed.

(** ** Operations *)

Inductive mcp_step : Mgr -> Mgr -> Prop :=
| step_add cfg m e : mcp_step m (AddClient IsPrint cfg m e).1.2
| step_remove id m e : mcp_step m (RemoveClient IsPrint id m e).1.2
| step_reconnect id m e : mcp_step m (ReconnectClient IsPrint id m e).1.2
| step_close m e : mcp_step m (Close order m e).2.

Lemma add_ok cfg m e : manager_ok m -> manager_ok (AddClient IsPrint cfg m e).1.2.
Proof.
  intros Hm. unfold AddClient. destruct (client_Validate cfg) eqn:V; [done|]. destruct (mgr_clients m !! mc_ID cfg); [done|].
  pose proof (connect_ok m (mc_ID cfg) (new_client cfg) e) as C.
  destruct (connectClient m (new_client cfg) e) as [[e' c'] err]. destruct C as [Ok _]; [by split|done|].
  destruct err; cbn; [by apply map_Forall_delete|by apply map_Forall_insert_2].
Qed.

Lemma mcp_step_ok m m' : mcp_step m m' -> manager_ok m -> manager_ok m'.
Proof.
  intros [cfg m0 e|id m0 e|id m0 e|m0 e] Hm.
  - by apply add_ok.
  - unfold RemoveClient. destruct (_ !! id); [|done]. destruct (cleanupClient _ _). cbn. by apply map_Forall_delete.
  - unfold ReconnectClient. destruct (mgr_clients m0 !! id) as [c|] eqn:Ec; [|done].
    destruct (cleanup_ok id c e) as [Ok Hc]; [by apply (Hm id)|]. destruct (cleanupClient c e) as [e1 c1]. cbn in Ok, Hc.
    pose proof (connect_ok m0 id c1 e1 Ok Hc) as C. destruct (connectClient m0 c1 e1) as [[e2 c2] err]. destruct C as [Ok2 _].
    cbn. by apply map_Forall_insert_2.
  - apply map_Forall_empty.
Qed.

Lemma new_manager_ok cfg e m : (NewManager IsPrint cfg e).2 = inr m -> manager_ok m.
Proof.
  unfold NewManager. destruct (config_Validate IsPrint cfg); [done|]. cbn. intros [= <-].
  assert (G : forall cs st, manager_ok st.2 -> manager_ok (fold_left (fun st cfg => (AddClient IsPrint cfg st.2 st.1).1) cs st).2).
  { induction cs as [|c cs IH]; intros st Hst; [done|]. cbn. apply IH. by apply add_ok. }
  apply G. apply map_Forall_empty.
Qed.

(** The managers that a configuration and any operations lead to. *)
Definition reachable_manager m : Prop := exists cfg e m0, (NewManager IsPrint cfg e).2 = inr m0 /\ rtc mcp_step m0 m.

Lemma reachable_manager_ok m : reachable_manager m -> manager_ok m.
Proof.
  intros (cfg & e & m0 & H0 & Hr). apply (rtc_invariant mcp_step manager_ok m0); [apply mcp_step_ok|by apply (new_manager_ok cfg e)|done].
Qed.

(** ** What is offered *)

(** A connected client has the tool and no filter hides it. *)
Definition offered (ic it : option (list string)) m (t : Tool) : Prop :=
  exists id c, m.(mgr_clients) !! id = Some c /\ c.(mcl_Conn) <> None /\ c.(mcl_Tools) !! tool_name t = Some t
    /\ shouldIncludeClient id ic = true /\ shouldSkipToolForConfig (tool_name t) c.(mcl_Config) = false
    /\ shouldSkipToolForRequest id (tool_name t) it = false.

Lemma available_offered ic it m t : manager_ok m -> t ∈ GetAvailableTools order ic it m <-> offered ic it m t.
Proof.
  intros Hm. unfold GetAvailableTools. rewrite list_elem_of_In, in_concat. setoid_rewrite in_map_iff. split.
  - intros (l & ([id c] & <- & Hic) & Ht). cbn in Ht. apply list_elem_of_In, elem_of_order in Hic. destruct (mcl_Conn c) eqn:Ec; [|done].
    destruct (shouldIncludeClient id ic) eqn:Ei; [|done]. unfold client_tools in Ht. apply in_map_iff in Ht as ([n t'] & <- & Ht).
    apply list_elem_of_In, elem_of_keep in Ht as [Hn Hf]. apply elem_of_order in Hn. cbn in *.
    pose proof (ok_tools id c (Hm id c Hic) n t' Hn) as En. cbn in En. rewrite <- En in *.
    apply andb_true_iff in Hf as [F1%negb_true_iff F2%negb_true_iff]. exists id, c. repeat split; try done. by rewrite Ec.
  - intros (id & c & Hic & Hc & Ht & Hi & Hs1 & Hs2). eexists. split.
    + exists (id, c). split; [reflexivity|]. by apply list_elem_of_In, elem_of_order.
    + cbn. destruct (mcl_Conn c); [|done]. rewrite Hi. unfold client_tools. apply in_map_iff. exists (tool_name t, t). split; [done|].
      apply list_elem_of_In, elem_of_keep. split; [by apply elem_of_order|]. cbn. by rewrite Hs1, Hs2.
Qed.

(** What the loop of [InjectTools] adds. *)
Lemma inject_spec tools own (names : gset string) :
  (forall n, n ∈ names <-> n ∈ map tool_name own) ->
  exists added, (fold_left inject_one tools (own, names)).1 = own ++ added
    /\ (forall t, t ∈ added -> t ∈ tools)
    /\ NoDup (map tool_name added) /\ (forall t, t ∈ added -> tool_name t ∉ map tool_name own)
    /\ (forall t, t ∈ tools -> tool_name t ∈ map tool_name (own ++ added)).
Proof.
  revert own names. induction tools as [|t tools IH]; intros own names Hn; cbn [fold_left].
  { exists []. rewrite app_nil_r. repeat split; [done| |set_solver..]. constructor. }
  unfold inject_one at 2. cbn [fst snd]. fold (tool_name t). case_bool_decide as Hin.
  - destruct (IH own names Hn) as (added & Ef & H1 & H2 & H3 & H4). exists added. rewrite Ef. split; [done|]. split; [set_solver|]. split; [done|]. split; [done|].
    intros t' [->|Ht']%elem_of_cons; [|by apply H4]. rewrite map_app, elem_of_app. left. by apply Hn.
  - destruct (IH (own ++ [t]) ({[tool_name t]} ∪ names)) as (added & Ef & H1 & H2 & H3 & H4).
    { intros n. rewrite map_app, elem_of_app, elem_of_union, Hn. cbn. set_solver. }
    exists (t :: added). rewrite Ef, <- app_assoc. split; [done|]. split; [set_solver|]. split; [|split].
    + cbn. constructor; [|done]. intros (t' & Et & Ht')%list_elem_of_fmap. apply (H3 t' Ht'). rewrite map_app, elem_of_app. right. cbn. rewrite <- Et. set_solver.
    + intros t' [->|Ht']%elem_of_cons; [by rewrite <- Hn|]. intros Hx. apply (H3 t' Ht'). rewrite map_app, elem_of_app. by left.
    + intros t' [->|Ht']%elem_of_cons; [rewrite !map_app, !elem_of_app; right; cbn; set_solver|]. specialize (H4 t' Ht'). by rewrite <- app_assoc in H4.
Qed.

(** ** Calls *)

Lemma find_connected toolName m c :
  manager_ok m -> findClientForTool order toolName m = Some c ->
  exists id conn, m.(mgr_clients) !! id = Some c /\ c.(mcl_Conn) = Some conn /\ is_Some (c.(mcl_Tools) !! toolName).
Proof.
  intros Hm. unfold findClientForTool. destruct (List.find _ _) as [[id c']|] eqn:F; [|done]. cbn. intros [= ->].
  apply find_some in F as [Hin Ht]. apply list_elem_of_In, elem_of_order in Hin. cbn in Ht.
  destruct (mcl_Tools c !! toolName) eqn:Et; [|done]. exists id. destruct (mcl_Conn c) as [conn|] eqn:Ec; [by exists conn|].
  rewrite (ok_offline id c (Hm id c Hin) Ec) in Et. by rewrite lookup_empty in Et.
Qed.

Lemma find_offered ic it m t : offered ic it m t -> findClientForTool order (tool_name t) m <> None.
Proof.
  intros (id & c & Hic & _ & Ht & _) Hf. unfold findClientForTool in Hf. destruct (List.find _ _) eqn:F; [done|].
  pose proof (find_none _ _ F (id, c)) as N. cbn in N. rewrite Ht in N. enough (true = false) by done. apply N. by apply list_elem_of_In, elem_of_order.
Qed.

(** What the caller gets of a server's reply. *)
Definition tool_reply (call : ToolCall) (reply : go_error + option CallToolResult) (d : duration) : ToolExecutionResult :=
  match reply with
  | inl err => failed_result call (EWrap "tool call failed" err) d
  | inr resp => {| tr_ToolCallID := call.(tc_ID); tr_ToolName := call.(tc_Function).(tcf_Name);
                   tr_Content := extractTextFromResponse resp call.(tc_Function).(tcf_Name);
                   tr_IsError := match resp with Some r => r.(ctr_IsError) | None => false end; tr_Duration := d |}
  end.

(** The call went to a connected server that has the tool: the network is as that
    server's [CallTool] left it, and the result is its reply. *)
Definition reached (call : ToolCall) (args : Args) m (e : E) : Prop :=
  exists id c conn, m.(mgr_clients) !! id = Some c /\ c.(mcl_Conn) = Some conn /\ is_Some (c.(mcl_Tools) !! call.(tc_Function).(tcf_Name))
    /\ let '(e1, start) := lib_now e in
       let '(e2, reply) := conn_CallTool (GetExecutionTimeout c.(mcl_Config) m.(mgr_config).(mm_DefaultExecutionTimeout))
                             call.(tc_Function).(tcf_Name) args conn e1 in
       let '(e3, stop) := lib_now e2 in
       ExecuteToolCall IsPrint order call m e = (e3, inr (tool_reply call reply (time_sub stop start))).

Lemma call_reaches call args m e :
  manager_ok m -> call.(tc_Function).(tcf_Name) <> "" -> findClientForTool order call.(tc_Function).(tcf_Name) m <> None ->
  read_args call.(tc_Function).(tcf_Arguments) = inr args -> reached call args m e.
Proof.
  intros Hm Hn Hf Ha. unfold reached, ExecuteToolCall. destruct (String.eqb_spec (tcf_Name (tc_Function call)) ""); [done|].
  destruct (findClientForTool order _ m) as [c|] eqn:F; [|done].
  destruct (find_connected _ _ _ Hm F) as (id & conn & Hc & Hconn & Ht). exists id, c, conn. split_and!; [done..|].
  destruct (lib_now e) as [e1 start]. rewrite Hconn. unfold executeToolOnClient. rewrite Ha.
  destruct (conn_CallTool _ _ args conn e1) as [e2 [err|resp]]; by destruct (lib_now e2).
Qed.

(** C17: The tools that are offered can be called.  Into a request the manager puts, behind
    the tools of the request and nothing else changed, tools of connected clients that no
    filter hides, each name once and none that the request has; every tool that is so is
    then there by its name.  And a call of one that was put in, if it has a name and its
    arguments parse, goes to a connected server that has a tool of that name: its
    [CallTool] is called once with the arguments, and its reply, or its error, is the
    result. *)
Theorem offered_tools_run ic it req m :
  reachable_manager m ->
  exists added, mcp_InjectTools order ic it req m = req<|q_Tools := req.(q_Tools) ++ added|>
    /\ NoDup (map tool_name added) /\ (forall t, t ∈ added -> tool_name t ∉ map tool_name req.(q_Tools))
    /\ (forall t, t ∈ added -> offered ic it m t)
    /\ (forall t, offered ic it m t -> tool_name t ∈ map tool_name (req.(q_Tools) ++ added))
    /\ (forall t call args e, t ∈ added -> tool_name t <> "" -> call.(tc_Function).(tcf_Name) = tool_name t ->
         read_args call.(tc_Function).(tcf_Arguments) = inr args -> reached call args m e).
Proof.
  intros Hm%reachable_manager_ok. unfold mcp_InjectTools.
  destruct (inject_spec (GetAvailableTools order ic it m) req.(q_Tools) (list_to_set (map tool_name req.(q_Tools)))) as (added & Ef & H1 & H2 & H3 & H4).
  { intros n. by rewrite elem_of_list_to_set. }
  assert (Off : forall t, t ∈ added -> offered ic it m t) by (intros t Ht; by apply available_offered, H1).
  exists added. split; [|split; [done|split; [done|split; [done|split]]]].
  - change (map (fun t => t.(tool_Function).(tf_Name)) req.(q_Tools)) with (map tool_name req.(q_Tools)). rewrite Ef.
    destruct (Nat.eqb_spec (length (GetAvailableTools order ic it m)) 0) as [Z0|]; [|done].
    destruct (GetAvailableTools order ic it m); [|done]. assert (added = []) as -> by (destruct added as [|t added]; [done|]; exfalso; specialize (H1 t); set_solver).
    rewrite app_nil_r. by destruct req.
  - intros t Ht. by apply H4, available_offered.
  - intros t call args e Ht Hn Hc Ha. apply call_reaches; [done|by rewrite Hc| |done]. rewrite Hc. by eapply find_offered, Off.
Qed.

(** *** Calls side by side *)

(** A call without a name, of a tool that no client has, or with arguments that do not parse. *)
Definition hopeless m (call : ToolCall) : Prop :=
  call.(tc_Function).(tcf_Name) = "" \/ findClientForTool order call.(tc_Function).(tcf_Name) m = None
  \/ exists err, read_args call.(tc_Function).(tcf_Arguments) = inl err.

Record answers m (call : ToolCall) (r : ToolExecutionResult) : Prop := {
  ans_id : r.(tr_ToolCallID) = call.(tc_ID);
  ans_name : r.(tr_ToolName) = call.(tc_Function).(tcf_Name);
  ans_error : hopeless m call -> r.(tr_IsError) = true /\ exists text, r.(tr_Content) = "Error: " +:+ text;
}.

Lemma failed_answers m call err d : answers m call (failed_result call err d).
Proof. split; [done|done|]. intros _. split; [done|by eexists]. Qed.

Lemma run_call_answers call m e : answers m call (run_call IsPrint order call m e).2.
Proof.
  clear order_perm. unfold run_call, ExecuteToolCall. destruct (String.eqb_spec (tcf_Name (tc_Function call)) ""); [apply failed_answers|].
  destruct (lib_now e) as [e1 start]. destruct (findClientForTool order _ m) as [c|] eqn:Ef; [|apply failed_answers].
  destruct (mcl_Conn c) as [conn|]; [|apply failed_answers].
  unfold executeToolOnClient. destruct (read_args _) as [err|args] eqn:Ea; [destruct (lib_now e1); apply failed_answers|].
  destruct (conn_CallTool _ _ args conn e1) as [e2 [err|resp]]; destruct (lib_now e2); [apply failed_answers|].
  split; [done|done|]. intros [|[|[err Hr]]]; [done|congruence|congruence].
Qed.

Lemma schedule_answers calls m sch (seen : list nat) e (rs : list ToolExecutionResult) :
  length rs = length calls -> (forall i call, i ∈ seen -> calls !! i = Some call -> exists r, rs !! i = Some r /\ answers m call r) ->
  let rs' := (fold_left (fun st i => match calls !! i with
                         | Some call => let (e, r) := run_call IsPrint order call m st.1 in (e, <[i := r]> st.2)
                         | None => st
                         end) sch (e, rs)).2 in
  length rs' = length calls /\ forall i call, i ∈ seen ++ sch -> calls !! i = Some call -> exists r, rs' !! i = Some r /\ answers m call r.
Proof.
  clear order_perm. revert seen e rs. induction sch as [|j sch IH]; intros seen e rs Hl Hs; cbn [fold_left]; [by rewrite app_nil_r|].
  replace (seen ++ j :: sch) with ((seen ++ [j]) ++ sch) by by rewrite <- app_assoc. cbn [fst snd]. destruct (calls !! j) as [cj|] eqn:Ej.
  - pose proof (run_call_answers cj m e) as A. destruct (run_call IsPrint order cj m e) as [e1 r]. cbn in A.
    apply IH; [by rewrite length_insert|]. intros i call Hi Hc. destruct (decide (i = j)) as [->|Hij].
    + exists r. rewrite list_lookup_insert_eq by (rewrite Hl; by apply lookup_lt_Some in Ej). by simplify_eq.
    + rewrite list_lookup_insert_ne by done. apply Hs; [|done]. set_solver.
  - apply IH; [done|]. intros i call Hi Hc. apply Hs; [|done]. apply elem_of_app in Hi as [|Hi%list_elem_of_singleton]; [done|]. congruence.
Qed.

End Manager.

(** ** A manager with two servers *)

Module Workshop.
(** The environment has the calls that reached a server, by connection and tool. *)
Definition Env := list (string * string).

#[local] Instance lib : McpLib string string Env := {|
  NewStreamableHTTP url _ e := (e, inr url);
  NewSSE url _ e := (e, inr url);
  NewStdio command _ _ e := (e, command);
  Getenv _ _ := "set";
  conn_Start _ _ e := (e, None);
  conn_Initialize _ _ e := (e, None);
  conn_ListTools _ conn e :=
    (e, inr [{| mt_Name := "search"; mt_Description := conn; mt_Properties := None; mt_Required := [] |};
             {| mt_Name := "erase"; mt_Description := conn; mt_Properties := None; mt_Required := [] |}]);
  conn_CallTool _ name _ conn e := (e ++ [(conn, name)], inr (Some {| ctr_Content := [TextContent "done"]; ctr_IsError := false |}));
  conn_Close _ e := (e, None);
  lib_now e := (e, 0);
  read_args s := inr s;
  write_params _ _ := inr "{}";
|}.

Definition order (A : Type) (m : gmap string A) : list (string * A) := map_to_list m.
Definition printable (c : N) : bool := true.

Definition server (id url : string) (tools : list string) : ClientConfig :=
  {| mc_ID := id; mc_Name := id; mc_Type := "http"; mc_URL := url; mc_Command := ""; mc_Args := []; mc_Envs := []; mc_Headers := ∅;
     mc_ToolsToExecute := tools; mc_ConnectionTimeout := 0; mc_ExecutionTimeout := 0 |}.

Definition cfg : McpConfig :=
  {| mm_Enabled := true; mm_Clients := [server "a" "http://a" ["search"]; server "b" "http://b" ["search"]];
     mm_DefaultConnectionTimeout := 30 * Second; mm_DefaultExecutionTimeout := 60 * Second |}.

Definition manager : MCPManager :=
  match (NewManager printable cfg []).2 with inr m => m | inl _ => {| mgr_clients := ∅; mgr_config := cfg |} end.

Definition call (id name : string) : ToolCall := {| tc_ID := id; tc_Type := "function"; tc_Function := {| tcf_Name := name; tcf_Arguments := "{}" |} |}.

(** A tool that the configuration of its server does not expose is offered to nobody, and
    a call of it runs all the same. *)
Example hidden_tool_runs :
  map tool_name (GetAvailableTools order None None manager) = ["search"; "search"]
  /\ (ExecuteToolCall printable order (call "1" "erase") manager []).1 <> [].
Proof. vm_compute. split; [reflexivity|discriminate]. Qed.

(** With a filter for the second server its tool is offered, and the call goes to the first. *)
Example call_goes_elsewhere :
  map (fun t => t.(tool_Function).(tf_Description)) (GetAvailableTools order (Some ["b"]) None manager) = ["http://b"]
  /\ (ExecuteToolCall printable order (call "1" "search") manager []).1 = [("http://a", "search")].
Proof. vm_compute. split; reflexivity. Qed.

Definition req : ChatRequest :=
  {| q_Model := "m"; q_Messages := []; q_Stream := false; q_MaxTokens := 0; q_Temperature := None; q_TopP := None; q_N := 0; q_Stop := [];
     q_PresencePenalty := None; q_FrequencyPenalty := None; q_User := ""; q_Tools := []; q_ToolChoice := ""; q_ResponseFormat := None;
     q_StreamOptions := None; q_Tags := []; q_Extra := None |}.

Lemma offered_tools_run_witness :
  exists added, (mcp_InjectTools order None None req manager).(q_Tools) = added /\ NoDup (map tool_name added)
    /\ (forall t, offered None None manager t -> tool_name t ∈ map tool_name added)
    /\ reached printable order (call "1" "search") "{}" manager [].
Proof.
  destruct (offered_tools_run printable order (fun A m => Permutation_refl (map_to_list m)) None None req manager)
    as (added & Ei & Hn & _ & _ & Ho & Hr).
  - exists cfg, [], manager. split; [reflexivity|apply rtc_refl].
  - exists added. rewrite Ei. split; [reflexivity|]. split; [exact Hn|]. split; [exact Ho|].
    assert (Et : map tool_name added = ["search"]) by (rewrite <- (f_equal q_Tools Ei : _ = added); vm_compute; reflexivity).
    destruct added as [|t added]; [discriminate Et|]. injection Et as Et _.
    apply (Hr t); [by left|by rewrite Et|by rewrite Et|reflexivity].
Defined.

End Workshop.
