(* ===== verification/ClientSetup.v ===== *)
(** * Setting a client up ([client.go], [options.go], [cmd/server/main.go], [cache_options.go], [oidc.go], [session.go], [governance.go])

    Options over the default settings, the constructor of the client, and the options
    that the server makes from its configuration.  The factories of the providers, the
    connection to Redis, the caches and the loading of a price file are parameters.
    Logging and the pools of connections are left out. *)
From Stdlib Require Import Ascii.
From S2P Require Import Config.
From S2P Require Import Prelude Float64 Errors ModelName RouterTypes StatsStore BaseRouter Strategies Factory Semaphore ResilienceManager RedisLimiter TenantLimiter AuthTypes AuthStore Sso UserTeamSync Governance PluginPipeline ClientTypes Client.

(** [provider.Config]: [TokenSource] is the path of a secret. *)
Record ProviderSettings := {
  ps_Name : string;
  ps_Type : string;
  ps_APIKey : string;
  ps_TokenSource : option string;
  ps_BaseURL : string;
  ps_AllowPrivateBaseURL : bool;
  ps_Models : list string;
  ps_MaxConcurrent : Z;
  ps_Timeout : duration;
  ps_Headers : gmap string string;
}.

Section Setup.
Context {E HttpRequest RT P L C S R : Type}.
Context `{!Network E HttpRequest} `{!RouterI RT} `{!DistributedLimiter L} `{!CacheI C} `{!Tokenizer} `{!Codec}.

#[local] Abbreviation Prov := (Provider E HttpRequest).
#[local] Abbreviation PW := (Context * P)%type.
#[local] Abbreviation Client := (@Client E HttpRequest RT P L C).
#[local] Abbreviation Plug := (Plugin PW ChatRequest ChatResponse StreamChunk).

(** ** Options *)

(** The rest of [ClientConfig]: what the constructor builds the client from. *)
Record Options := {
  o_config : ClientConfig;
  o_Providers : list ProviderSettings;
  o_ProviderInstances : list (string * Prov * list string);
  o_Router : option RT;
  o_StatsStore : option S;
  o_RoundRobinStore : option R;
  o_Cache : option C;
  o_CacheTypeLabel : string;
  o_Timeout : duration;
  o_FallbackReporter : bool;
  o_Plugins : list Plug;
  o_PluginConfig : option PipelineConfig;
  o_RateLimiter : option L;
  o_RateLimiterConfig : RateLimiterConfig;
}.

Definition no_limits : RateLimiterConfig :=
  {| rl_Enabled := false; rl_RPMLimit := 0; rl_TPMLimit := 0; rl_WindowSize := 0; rl_KeyStrategy := ""; rl_FailOpen := false |}.

Definition default_options : Options :=
  {| o_config := defaultConfig; o_Providers := []; o_ProviderInstances := []; o_Router := None; o_StatsStore := None;
     o_RoundRobinStore := None; o_Cache := None; o_CacheTypeLabel := "unknown"; o_Timeout := 30 * Second; o_FallbackReporter := false;
     o_Plugins := []; o_PluginConfig := None; o_RateLimiter := None; o_RateLimiterConfig := no_limits |}.

Definition Option_ := Options -> Options.

Definition WithProvider (cfg : ProviderSettings) : Option_ := fun o => o<|o_Providers ::= fun l => l ++ [cfg]|>.
Definition WithProviderInstance (name : string) (prov : Prov) (models : list string) : Option_ :=
  fun o => o<|o_ProviderInstances ::= fun l => l ++ [(name, prov, models)]|>.
Definition WithRouter (r : RT) : Option_ := fun o => o<|o_Router := Some r|>.
Definition WithRouterStrategy (strategy : Strategy) : Option_ := fun o => o<|o_config ::= fun c => c<|RouterStrategy := strategy|>|>.
Definition WithDefaultProvider (p : string) : Option_ := fun o => o<|o_config ::= fun c => c<|cc_DefaultProvider := p|>|>.
Definition WithFallback (enabled : bool) : Option_ := fun o => o<|o_config ::= fun c => c<|FallbackEnabled := enabled|>|>.
Definition WithRetry (count : Z) (backoff : duration) : Option_ :=
  fun o => o<|o_config ::= fun c => c<|RetryCount := count|><|RetryBackoff := backoff|>|>.
Definition WithRetryMaxBackoff (d : duration) : Option_ := fun o => o<|o_config ::= fun c => c<|RetryMaxBackoff := d|>|>.
Definition WithRetryJitter (jitter : f64) : Option_ := fun o => o<|o_config ::= fun c => c<|RetryJitter := jitter|>|>.
Definition WithFallbackReporter : Option_ := fun o => o<|o_FallbackReporter := true|>.
Definition WithCooldown (d : duration) : Option_ := fun o => o<|o_config ::= fun c => c<|cc_CooldownPeriod := d|>|>.
Definition WithEWMAAlpha (alpha : f64) : Option_ := fun o => o<|o_config ::= fun c => c<|cc_EWMAAlpha := alpha|>|>.
Definition WithCache (cache : C) : Option_ := fun o => o<|o_config ::= fun c => c<|CacheEnabled := true|>|><|o_Cache := Some cache|>.
Definition WithCacheTTL (ttl : duration) : Option_ := fun o => o<|o_config ::= fun c => c<|CacheTTL := ttl|>|>.
Definition WithCacheTypeLabel (label : string) : Option_ := fun o => o<|o_CacheTypeLabel := label|>.
Definition WithTimeout (d : duration) : Option_ := fun o => o<|o_Timeout := d|>.
Definition WithPlugin (p : Plug) : Option_ := fun o => o<|o_Plugins ::= fun l => l ++ [p]|>.
Definition WithPluginConfig (config : PipelineConfig) : Option_ := fun o => o<|o_PluginConfig := Some config|>.
Definition WithPricingFile (path : string) : Option_ := fun o => o<|o_config ::= fun c => c<|cc_PricingFile := path|>|>.
Definition WithRateLimiter (limiter : L) : Option_ := fun o => o<|o_RateLimiter := Some limiter|>.
Definition WithRateLimiterConfig (config : RateLimiterConfig) : Option_ := fun o => o<|o_RateLimiterConfig := config|>.
Definition WithStatsStore (store : S) : Option_ := fun o => o<|o_StatsStore := Some store|>.
Definition WithRoundRobinStore (store : R) : Option_ := fun o => o<|o_RoundRobinStore := Some store|>.
Definition WithStreamRecoveryMode (mode : string) : Option_ := fun o => o<|o_config ::= fun c => c<|StreamRecoveryMode := mode|>|>.
Definition WithStreamRecoveryMaxAccumulatedBytes (maxBytes : Z) : Option_ :=
  fun o => o<|o_config ::= fun c => c<|StreamRecoveryMaxAccumulatedBytes := maxBytes|>|>.

(** ** The constructor *)

Section New.
(** The factories by type and their names in the order of the map; the price table
    with what the loading of a file gives; the router that [createRouter] makes; the
    order of the table of deployments; the plug-in of the metrics, when it could be
    made. *)
Context (factories : gmap string (ProviderSettings -> go_error + Prov)) (available : list string).
Context (prices : Registry) (loadPrices : string -> Registry -> go_error + Registry).
Context (newRouter : ClientConfig -> option S -> option R -> RT) (ord : gset string -> list string) (otelPlugin : option Plug).

Definition go_list (l : list string) : string := "[" +:+ String.concat " " l +:+ "]".

Definition addProviderFromConfig (cfg : ProviderSettings) (c : Client) : Client * option go_error :=
  match factories !! cfg.(ps_Type) with
  | None => (c, Some (EText ("unknown provider type: " +:+ cfg.(ps_Type) +:+ " (available: " +:+ go_list available +:+ ")")))
  | Some factory =>
      match factory cfg with
      | inl err => (c, Some err)
      | inr prov => (addProviderInstanceWithConfig false cfg.(ps_Name) prov cfg.(ps_Models) cfg.(ps_MaxConcurrent) c, None)
      end
  end.

Fixpoint addProviders (cfgs : list ProviderSettings) (c : Client) : go_error + Client :=
  match cfgs with
  | [] => inr c
  | cfg :: cfgs' =>
      match addProviderFromConfig cfg c with
      | (_, Some err) => inl (EWrap ("add provider " +:+ cfg.(ps_Name)) err)
      | (c, None) => addProviders cfgs' c
      end
  end.

Definition addInstances (insts : list (string * Prov * list string)) (c : Client) : Client :=
  foldl (fun c '(name, prov, models) => addProviderInstanceWithConfig false name prov models 0 c) c insts.

(** The plug-ins of the user, in order; one that is refused ends the construction. *)
Fixpoint registerPlugins (show : plugin_error -> go_error) (ps : list Plug) (p : Pipeline PW ChatRequest ChatResponse StreamChunk) :
  go_error + Pipeline PW ChatRequest ChatResponse StreamChunk :=
  match ps with
  | [] => inr p
  | x :: ps' =>
      match Register (Some x) p with
      | (_, Some err) => inl (EWrap ("register plugin " +:+ x.(Name)) (show err))
      | (p, None) => registerPlugins show ps' p
      end
  end.

Definition new_pipeline (o : Options) : Pipeline PW ChatRequest ChatResponse StreamChunk :=
  let p := NewPipeline (default DefaultPipelineConfig o.(o_PluginConfig)) in
  match otelPlugin with Some x => (Register (Some x) p).1 | None => p end.

(** The client before its providers; the router is not set yet, and the one that is
    made below stands for it. *)
Definition bare_client (o : Options) (rt : RT) (pricing : Registry) : Client :=
  {| cl_providers := ∅; cl_deployments := ∅; cl_router := rt; cl_cache := None; cl_config := o.(o_config);
     cl_pricing := Some pricing; cl_pipeline := NewPipeline DefaultPipelineConfig; cl_ctxPool := []; cl_fallbackReporter := o.(o_FallbackReporter);
     cl_rateLimiter := None; cl_rateLimiterConfig := o.(o_RateLimiterConfig); cl_resilienceManager := NewManager DefaultManagerConfig |}.

Definition registerDeployments (c : Client) : Client :=
  c<|cl_router ::= fun rt => foldl (fun rt d => r_AddDeployment d rt) rt (concat (MemoryAuth.range ord c.(cl_deployments)))|>.

Definition New (show : plugin_error -> go_error) (opts : list Option_) : go_error + Client :=
  let o := foldl (fun o opt => opt o) default_options opts in
  let file := o.(o_config).(cc_PricingFile) in
  match (if String.eqb file "" then inr prices else loadPrices file prices) with
  | inl err => inl (EWrap "load pricing file" err)
  | inr pricing =>
      let rt := default (newRouter o.(o_config) o.(o_StatsStore) o.(o_RoundRobinStore)) o.(o_Router) in
      match addProviders o.(o_Providers) (bare_client o rt pricing) with
      | inl err => inl err
      | inr c =>
          let c := registerDeployments (addInstances o.(o_ProviderInstances) c) in
          let c := if o.(o_config).(CacheEnabled) then c<|cl_cache := o.(o_Cache)|> else c in
          let c := c<|cl_rateLimiter := o.(o_RateLimiter)|> in
          match registerPlugins show o.(o_Plugins) (new_pipeline o) with
          | inl err => inl err
          | inr p => inr (c<|cl_pipeline := p|>)
          end
      end
  end.

End New.

(** ** From the configuration of the server *)

Definition mapStreamRecoveryMode (mode : string) : string :=
  if String.eqb mode "off" then StreamRecoveryOff else if String.eqb mode "append" then StreamRecoveryAppend else StreamRecoveryRetry.

Definition mapKeyStrategy (strategy : string) : string :=
  if String.eqb strategy "user" then RateLimitKeyByUser
  else if String.eqb strategy "model" then RateLimitKeyByModel
  else if String.eqb strategy "api_key_model" then RateLimitKeyByAPIKeyAndModel
  else RateLimitKeyByAPIKey.

Definition one_of (s : string) (l : list string) : bool := existsb (String.eqb s) l.

Definition mapRoutingStrategy (s : string) : Strategy :=
  if one_of s ["shuffle"; "random"] then StrategySimpleShuffle
  else if one_of s ["round-robin"; "roundrobin"] then StrategyRoundRobin
  else if one_of s ["lowest-latency"; "latency"] then StrategyLowestLatency
  else if one_of s ["least-busy"; "leastbusy"] then StrategyLeastBusy
  else if one_of s ["lowest-tpm-rpm"; "tpm-rpm"] then StrategyLowestTPMRPM
  else if one_of s ["lowest-cost"; "cost"] then StrategyLowestCost
  else StrategySimpleShuffle.

Definition opt_if (b : bool) (o : Option_) : list Option_ := if b then [o] else [].

Definition buildRoutingOptions (cfg : Config.Config) : list Option_ :=
  let r := cfg.(cfg_Routing) in
  [WithRouterStrategy (mapRoutingStrategy r.(routing_Strategy))]
  ++ opt_if (negb (String.eqb r.(routing_DefaultProvider) "")) (WithDefaultProvider r.(routing_DefaultProvider))
  ++ opt_if (0 <? r.(routing_CooldownPeriod)) (WithCooldown r.(routing_CooldownPeriod))
  ++ opt_if (fzero <.? r.(routing_EWMAAlpha)) (WithEWMAAlpha r.(routing_EWMAAlpha))
  ++ opt_if (0 <? cfg.(cfg_Server).(server_WriteTimeout)) (WithTimeout cfg.(cfg_Server).(server_WriteTimeout))
  ++ [WithRetry r.(routing_RetryCount) r.(routing_RetryBackoff); WithRetryMaxBackoff r.(routing_RetryMaxBackoff);
      WithRetryJitter r.(routing_RetryJitter); WithFallback r.(routing_FallbackEnabled)].

(** Whether a secret is named by a path: [strings.Contains(key, "://")]. *)
Fixpoint has_scheme (s : string) : bool :=
  String.prefix "://" s || match s with EmptyString => false | String _ s' => has_scheme s' end.

Definition provider_settings (p : Config.ProviderConfig) : ProviderSettings :=
  {| ps_Name := p.(provider_Name); ps_Type := p.(provider_Type); ps_APIKey := p.(provider_APIKey);
     ps_TokenSource := if has_scheme p.(provider_APIKey) then Some p.(provider_APIKey) else None;
     ps_BaseURL := p.(provider_BaseURL); ps_AllowPrivateBaseURL := p.(provider_AllowPrivateBaseURL); ps_Models := p.(provider_Models);
     ps_MaxConcurrent := p.(provider_MaxConcurrent); ps_Timeout := p.(provider_Timeout); ps_Headers := p.(provider_Headers) |}.

(** The addresses of Redis and whether they are a cluster; [None] when there are
    none. *)
Definition newRedisUniversalClient (cfg : RedisCacheConfig) : option (list string * bool) :=
  match cfg.(redis_ClusterAddrs) with
  | [] => if String.eqb cfg.(redis_Addr) "" then None else Some ([cfg.(redis_Addr)], false)
  | addrs => Some (addrs, true)
  end.

(** What the Redis cache is built from. *)
Record RedisSettings := { rc_redis : RedisCacheConfig; rc_Namespace : string; rc_DefaultTTL : duration }.

Definition buildRedisCacheConfig (cfg : CacheConfig) : RedisSettings :=
  {| rc_redis := cfg.(cache_Redis); rc_Namespace := cfg.(cache_Namespace);
     rc_DefaultTTL := if 0 <? cfg.(cache_TTL) then cfg.(cache_TTL) else Hour |}.

(** The constructors of the caches. *)
Class CacheMaker := {
  make_memory : MemoryCacheConfig -> C;
  make_redis : RedisSettings -> go_error + C;
  make_dual : MemoryCacheConfig -> RedisSettings -> duration -> duration -> go_error + C;
}.

(** A connection to Redis that answers, and the stores over it. *)
Class RedisMaker := {
  connect : list string -> RedisCacheConfig -> bool;
  make_stats : list string -> S;
  make_counters : list string -> R;
  make_limiter : list string -> L;
}.

Section Server.
Context (toLower : string -> string) `{!CacheMaker} `{!RedisMaker}.

Definition cache_instance (cfg : CacheConfig) (cacheType : string) : go_error + C :=
  if one_of cacheType ["local"; "memory"] then inr (make_memory cfg.(cache_Memory))
  else if String.eqb cacheType "redis" then make_redis (buildRedisCacheConfig cfg)
  else if String.eqb cacheType "dual" then
    make_dual cfg.(cache_Memory) (buildRedisCacheConfig cfg)
      (if 0 <? cfg.(cache_Memory).(mem_DefaultTTL) then cfg.(cache_Memory).(mem_DefaultTTL) else 5 * Minute)
      (if 0 <? cfg.(cache_TTL) then cfg.(cache_TTL) else Hour)
  else inl (EText ("unsupported cache type: " +:+ cfg.(cache_Type))).

Definition buildCacheOptions (cfg : CacheConfig) : go_error + list Option_ :=
  if negb cfg.(cache_Enabled) then inr []
  else
    let t := toLower cfg.(cache_Type) in
    let cacheType := if String.eqb t "" then "local" else t in
    match cache_instance cfg cacheType with
    | inl err => inl err
    | inr cache => inr ([WithCache cache; WithCacheTypeLabel cacheType] ++ opt_if (0 <? cfg.(cache_TTL)) (WithCacheTTL cfg.(cache_TTL)))
    end.

(** The addresses when Redis is configured and answers. *)
Definition live_redis (cfg : RedisCacheConfig) : option (list string) :=
  match newRedisUniversalClient cfg with
  | Some (addrs, _) => if connect addrs cfg then Some addrs else None
  | None => None
  end.

Definition routing_store_options (cfg : Config.Config) : list Option_ :=
  if cfg.(cfg_Routing).(routing_Distributed) then
    match live_redis cfg.(cfg_Cache).(cache_Redis) with
    | Some addrs => [WithStatsStore (make_stats addrs); WithRoundRobinStore (make_counters addrs)]
    | None => []
    end
  else [].

Definition rate_limit_options (cfg : Config.Config) : list Option_ :=
  let rate := cfg.(cfg_RateLimit) in
  (if rate.(rate_Enabled) && rate.(rate_Distributed) then
     match live_redis cfg.(cfg_Cache).(cache_Redis) with Some addrs => [WithRateLimiter (make_limiter addrs)] | None => [] end
   else [])
  ++ opt_if rate.(rate_Enabled)
       (WithRateLimiterConfig
          {| rl_Enabled := rate.(rate_Enabled); rl_RPMLimit := rate.(rate_RequestsPerMinute); rl_TPMLimit := rate.(rate_TokensPerMinute);
             rl_WindowSize := if rate.(rate_WindowSize) =? 0 then Minute else rate.(rate_WindowSize);
             rl_KeyStrategy := mapKeyStrategy rate.(rate_KeyStrategy); rl_FailOpen := rate.(rate_FailOpen) |}).

(** [reports] is whether there is an observability manager. *)
Definition buildClientOptions (reports : bool) (cfg : Config.Config) : list Option_ :=
  map (fun p => WithProvider (provider_settings p)) cfg.(cfg_Providers)
  ++ buildRoutingOptions cfg
  ++ opt_if reports WithFallbackReporter
  ++ opt_if (negb (String.eqb cfg.(cfg_PricingFile) "")) (WithPricingFile cfg.(cfg_PricingFile))
  ++ opt_if (negb (String.eqb cfg.(cfg_Stream).(RecoveryMode) "")) (WithStreamRecoveryMode (mapStreamRecoveryMode cfg.(cfg_Stream).(RecoveryMode)))
  ++ [WithStreamRecoveryMaxAccumulatedBytes cfg.(cfg_Stream).(MaxAccumulatedBytes)]
  ++ match buildCacheOptions cfg.(cfg_Cache) with inr opts => opts | inl _ => [] end
  ++ routing_store_options cfg
  ++ rate_limit_options cfg.

End Server.

End Setup.

(** ** Single sign-on, sessions and governance *)

Definition mapOIDCConfig (cfg : Config.OIDCConfig) : Sso.OIDCConfig :=
  let m := cfg.(oidc_ClaimMapping) in
  {| RoleClaim := m.(claim_RoleClaim); RolesMap := m.(claim_Roles); UseRoleHierarchy := m.(claim_UseRoleHierarchy);
     TeamIDJWTField := m.(claim_TeamIDJWTField); TeamIDsJWTField := m.(claim_TeamIDsJWTField); TeamAliasMap := m.(claim_TeamAliasMap);
     OrgIDJWTField := m.(claim_OrgIDJWTField); OrgAliasMap := m.(claim_OrgAliasMap); UserIDJWTField := m.(claim_UserIDJWTField);
     UserEmailJWTField := m.(claim_UserEmailJWTField); UserAllowedEmailDomain := cfg.(oidc_UserAllowedEmailDomain);
     EndUserIDJWTField := m.(claim_EndUserIDJWTField); oc_DefaultRole := m.(claim_DefaultRole); DefaultTeamID := m.(claim_DefaultTeamID) |}.

(** [inr None] when sessions are off; no secret is an error. *)
Definition buildSessionManager (toLower : string -> string) (cfg : Config.Config) : go_error + option SessionManager :=
  let s := cfg.(cfg_Auth).(auth_Session) in
  if negb s.(session_Enabled) then inr None
  else
    match NewSessionManager toLower
            {| sc_Secret := s.(session_Secret); sc_CookieName := s.(session_CookieName); sc_StateCookieName := s.(session_StateCookieName);
               sc_CookieDomain := s.(session_CookieDomain); sc_CookiePath := s.(session_CookiePath); sc_CookieSecure := s.(session_CookieSecure);
               sc_CookieSameSite := s.(session_CookieSameSite); sc_TTL := s.(session_TTL); sc_StateTTL := s.(session_StateTTL) |} with
    | Some m => inr (Some m)
    | None => inl (EWrap "init session manager" (EText "session secret is required"))
    end.

(** Where the keys of accounted requests are kept. *)
Inductive idempotency_kind := NoIdempotency | InRedis (addrs : list string) | InMemory.

Definition idempotency_of (cfg : Config.Config) : idempotency_kind :=
  if 0 <? cfg.(cfg_Governance).(gov_IdempotencyWindow) then
    if String.eqb cfg.(cfg_Deployment).(Mode) "distributed" then
      match newRedisUniversalClient cfg.(cfg_Cache).(cache_Redis) with Some (addrs, _) => InRedis addrs | None => InMemory end
    else InMemory
  else NoIdempotency.

(** * What a configuration that is accepted gives

    [Validate] accepts exactly the configurations in which nothing is wrong; a client
    that is built from one answers every request and has a deployment for every model
    of every provider; reloading never puts another kind in place; and where the
    configuration does not do what it says. *)

From S2P Require Import Cooldown ServerStack ClientProofs ClientDemo ClientTheorems GatewayTheorems.

#[local] Abbreviation explode := String.list_ascii_of_string.
#[local] Abbreviation implode := String.string_of_list_ascii.

(** ** Validation *)

Lemma first_failed_none checks : first_failed checks = None <-> Forall (fun c => c.1 = false) checks.
Proof.
  induction checks as [|[b msg] checks IH]; cbn; [by split|]. rewrite Forall_cons, <- IH. cbn. destruct b; naive_solver.
Qed.

Lemma only_if_forall {P : bool * string -> Prop} b l : Forall P (only_if b l) <-> (b = true -> Forall P l).
Proof. destruct b; cbn; [naive_solver|]. split; [done|constructor]. Qed.

Section Validate.
Context (toLower : string -> string) (IsPrint : N -> bool) {IP Net : Type} `{!NetLib IP Net}.
Implicit Types c : Config.Config.

Definition valid c : Prop := Validate toLower IsPrint c = None.

(** The groups of checks, in a configuration that passes. *)
Lemma valid_groups c : valid c -> exists mode, normalizeDeploymentMode toLower c.(cfg_Deployment).(Mode) = inr mode
  /\ (mode = "development" \/ c.(cfg_Auth).(auth_Enabled) = true)
  /\ Forall (fun k => k.1 = false) (server_checks c) /\ c.(cfg_Providers) <> []
  /\ Forall (fun k => k.1 = false) (concat (imap (provider_checks IsPrint) c.(cfg_Providers)))
  /\ Forall (fun k => k.1 = false) (routing_checks c.(cfg_Routing))
  /\ Forall (fun k => k.1 = false) (misc_checks c) /\ Forall (fun k => k.1 = false) (database_checks c.(cfg_Database))
  /\ Forall (fun k => k.1 = false) (distributed_checks mode c) /\ Forall (fun k => k.1 = false) (session_checks toLower c.(cfg_Auth).(auth_Session)).
Proof.
  unfold valid, Validate. destruct (normalizeDeploymentMode _ _) as [|mode]; [done|]. rewrite first_failed_none, !Forall_app, !Forall_singleton.
  cbn [fst]. intros (Ha & H1 & Hp & H2 & H3 & H4 & H5 & H6 & H7). exists mode. split_and!; try done.
  - apply andb_false_iff in Ha as [Ha|Ha]; apply negb_false_iff in Ha; [left; by apply String.eqb_eq|by right].
  - by destruct (cfg_Providers c).
Qed.

Lemma valid_provider c p : valid c -> p ∈ c.(cfg_Providers) ->
  p.(provider_Name) <> "" /\ p.(provider_Models) <> [] /\ 0 <= p.(provider_Timeout) /\ 0 <= p.(provider_MaxConcurrent).
Proof.
  intros (mode & _ & _ & _ & _ & Hp & _)%valid_groups Hin. apply list_elem_of_lookup in Hin as [i Hi].
  rewrite Forall_concat, Forall_forall in Hp.
  assert (H : Forall (fun k => k.1 = false) (provider_checks IsPrint i p)) by (apply Hp, list_elem_of_lookup; exists i; by rewrite list_lookup_imap, Hi).
  unfold provider_checks in H. rewrite !Forall_cons in H. destruct H as (Hn & _ & _ & Hm & Ht & Hc & _).
  cbn [fst] in *. split_and!; [by apply String.eqb_neq|by destruct (provider_Models p)|lia|lia].
Qed.

Lemma valid_retries c : valid c -> 0 <= c.(cfg_Routing).(routing_RetryCount).
Proof. intros (mode & _ & _ & _ & _ & _ & Hr & _)%valid_groups. apply Forall_cons in Hr as [Hr _]. cbn in Hr. lia. Qed.

(** Sessions that are accepted can be set up. *)
Lemma valid_session c : valid c -> exists m, buildSessionManager toLower c = inr m /\ (is_Some m <-> c.(cfg_Auth).(auth_Session).(session_Enabled) = true).
Proof.
  intros (mode & _ & _ & _ & _ & _ & _ & _ & _ & _ & Hs)%valid_groups. unfold session_checks in Hs. rewrite only_if_forall in Hs.
  unfold buildSessionManager. destruct (session_Enabled _); cbn [negb]; [|exists None; split; [done|split; [intros [? ?]; done|done]]].
  specialize (Hs eq_refl). apply Forall_cons in Hs as [Hs _]. cbn [fst] in Hs. unfold NewSessionManager. cbn [sc_Secret].
  unfold blank in Hs. rewrite Hs. eexists. split; [done|]. split; [done|]. eauto.
Qed.

(** In distributed mode the shared stores have an address. *)
Lemma valid_distributed c : valid c -> normalizeDeploymentMode toLower c.(cfg_Deployment).(Mode) = inr "distributed" ->
  c.(cfg_Database).(db_Enabled) = true /\ c.(cfg_Routing).(routing_Distributed) = true
  /\ is_Some (newRedisUniversalClient c.(cfg_Cache).(cache_Redis))
  /\ (c.(cfg_RateLimit).(rate_Enabled) = true -> c.(cfg_RateLimit).(rate_Distributed) = true).
Proof.
  intros (mode & Hm & _ & _ & _ & _ & _ & _ & _ & Hd & _)%valid_groups Hdis. rewrite Hm in Hdis. injection Hdis as ->.
  unfold distributed_checks in Hd. rewrite only_if_forall in Hd. specialize (Hd eq_refl). rewrite !Forall_cons in Hd. cbn [fst] in Hd.
  destruct Hd as (H1 & H2 & H3 & H4 & _). apply negb_false_iff in H1, H2. rewrite H2 in H3. cbn in H3. apply negb_false_iff in H3.
  split_and!; [done|done| |].
  - unfold hasRedisConfig, newRedisUniversalClient, blank in *. destruct (redis_ClusterAddrs _); [|eauto].
    destruct (String.eqb _ ""); [done|eauto].
  - intros He. rewrite He in H4. by apply negb_false_iff in H4.
Qed.

End Validate.

(** ** The client of a configuration *)

Section Built.
Context {E HttpRequest RT P L C S R : Type}.
Context `{!Network E HttpRequest} `{!RouterI RT} `{!DistributedLimiter L} `{!CacheI C} `{!Tokenizer} `{!Codec}.
#[local] Abbreviation Options := (@Options E HttpRequest RT P L C S R).
#[local] Abbreviation Client := (@Client E HttpRequest RT P L C).
Implicit Types (o : Options) (opts : list (Options -> Options)) (c : Client).

Definition apply_all opts o : Options := foldl (fun o opt => opt o) o opts.

Definition keeps {A : Type} (f : Options -> A) (opt : Options -> Options) : Prop := forall o, f (opt o) = f o.

Lemma apply_keeps {A} (f : Options -> A) opts o : Forall (keeps f) opts -> f (apply_all opts o) = f o.
Proof. intros Hk. revert o. induction Hk as [|opt opts Ho _ IH]; intros o; [done|]. unfold apply_all in *. cbn. by rewrite IH. Qed.

Lemma apply_app opts opts' o : apply_all (opts ++ opts') o = apply_all opts' (apply_all opts o).
Proof. apply foldl_app. Qed.

Lemma apply_providers ps o :
  (apply_all (map (fun p => WithProvider (provider_settings p)) ps) o).(o_Providers) = o.(o_Providers) ++ map provider_settings ps.
Proof.
  revert o. induction ps as [|p ps IH]; intros o; [by rewrite app_nil_r|]. unfold apply_all in *. cbn. rewrite IH. cbn.
  by rewrite <- app_assoc.
Qed.

(** Every option of a list but those it changes leaves a field alone. *)
Ltac kept :=
  repeat match goal with
  | |- Forall _ (_ ++ _) => apply Forall_app; split
  | |- Forall _ (_ :: _) => constructor
  | |- Forall _ [] => constructor
  | |- Forall _ (opt_if ?b _) => destruct b; cbn [opt_if]
  | |- Forall _ (match ?x with _ => _ end) => destruct x
  | |- keeps _ _ => intros ?; reflexivity
  end.

(** The providers and their deployments, as they are added. *)
Definition client_frame c := (c.(cl_config), c.(cl_router), c.(cl_pipeline), c.(cl_cache)).

Definition deployed (c : Client) (d : Deployment) : Prop := d ∈ default [] (c.(cl_deployments) !! d.(ModelName)).

Lemma deployed_added c name n m : deployed (c<|cl_deployments ::= append_at m (new_deployment name n m)|>) (new_deployment name n m).
Proof. unfold deployed. cbn. rewrite lookup_append_at, decide_True by done. apply elem_of_app. right. by apply list_elem_of_singleton. Qed.

Lemma deployed_later c m x d : deployed c d -> deployed (c<|cl_deployments ::= append_at m x|>) d.
Proof. unfold deployed. cbn. rewrite lookup_append_at. intros Hd. apply elem_of_app. by left. Qed.

(** [r] is whether the client has a router yet: while it has none, adding leaves the
    rest alone. *)
Lemma add_instance_spec name prov models n c (c' := addProviderInstanceWithConfig false name prov models n c) :
  client_frame c' = client_frame c /\ c'.(cl_providers) = <[name := prov]> c.(cl_providers)
  /\ c'.(cl_resilienceManager) = (if 0 <? n then SetSemaphore name n c.(cl_resilienceManager) else c.(cl_resilienceManager))
  /\ (forall d, deployed c d -> deployed c' d) /\ (forall m, m ∈ models -> deployed c' (new_deployment name n m)).
Proof.
  unfold addProviderInstanceWithConfig in c'. cbv zeta in c'. set (c0 := if 0 <? n then _ else _) in c'.
  assert (Hc0 : client_frame c' = client_frame c0 /\ c'.(cl_providers) = c0.(cl_providers)
    /\ c'.(cl_resilienceManager) = c0.(cl_resilienceManager)
    /\ (forall d, deployed c0 d -> deployed c' d) /\ (forall m, m ∈ models -> deployed c' (new_deployment name n m))).
  { subst c'. clearbody c0. revert c0. induction models as [|m models IH]; intros c0; cbn [foldl].
    { split_and!; [done..|]. intros m Hm. by apply elem_of_nil in Hm. }
    destruct (IH (c0<|cl_deployments ::= append_at m (new_deployment name n m)|>)) as (G1 & G2 & G3 & G4 & G5).
    split_and!; [exact G1|exact G2|exact G3| |].
    - intros d Hd. apply G4. by apply deployed_later.
    - intros m' [->|Hm]%elem_of_cons; [|by apply G5]. apply G4, deployed_added. }
  destruct Hc0 as (G1 & G2 & G3 & G4 & G5). rewrite G1, G2, G3. subst c0. split_and!; [|..|exact G5].
  - by destruct (0 <? n).
  - by destruct (0 <? n).
  - by destruct (0 <? n).
  - intros d Hd. apply G4. by destruct (0 <? n).
Qed.

Lemma set_semaphore_ok name n m : sems_ok m -> 0 < n < two63 -> sems_ok (SetSemaphore name n m).
Proof.
  intros Hm Hn. unfold SetSemaphore. apply sems_ok_insert; [done|done|..]; unfold NewSemaphore; cbn; destruct (Z.leb_spec n 0); lia.
Qed.

Section Adding.
Context (factories : gmap string (ProviderSettings -> go_error + Provider E HttpRequest)) (available : list string).

Definition factories_ok : Prop := forall ty f cfg prov, factories !! ty = Some f -> f cfg = inr prov -> provider_ok prov.

Lemma add_providers_spec cfgs c c' :
  factories_ok -> Forall (fun p => p.(ps_MaxConcurrent) < two63) cfgs -> addProviders factories available cfgs c = inr c' ->
  client_frame c' = client_frame c
  /\ (map_Forall (fun _ => provider_ok) c.(cl_providers) -> map_Forall (fun _ => provider_ok) c'.(cl_providers))
  /\ (sems_ok c.(cl_resilienceManager) -> sems_ok c'.(cl_resilienceManager))
  /\ (forall d, deployed c d -> deployed c' d)
  /\ (forall p m, p ∈ cfgs -> m ∈ p.(ps_Models) -> deployed c' (new_deployment p.(ps_Name) p.(ps_MaxConcurrent) m)).
Proof.
  intros Hf Hn. revert c. induction Hn as [|p cfgs Hp _ IH]; intros c; cbn [addProviders].
  { intros [= <-]. split_and!; [done..|]. intros p m Hp. by apply elem_of_nil in Hp. }
  unfold addProviderFromConfig. destruct (factories !! ps_Type p) as [f|] eqn:Ef; [|done]. destruct (f p) as [|prov] eqn:Eq; [done|].
  intros Ha. destruct (add_instance_spec p.(ps_Name) prov p.(ps_Models) p.(ps_MaxConcurrent) c) as (A1 & A2 & A3 & A4 & A5).
  apply IH in Ha as (B1 & B2 & B3 & B4 & B5). split_and!.
  - congruence.
  - intros Hc. apply B2. rewrite A2. apply map_Forall_insert_2; [by eapply Hf|done].
  - intros Hc. apply B3. rewrite A3. destruct (Z.ltb_spec 0 p.(ps_MaxConcurrent)); [by apply set_semaphore_ok|done].
  - intros d Hd. by apply B4, A4.
  - intros q m [->|Hq]%elem_of_cons Hm; [by apply B4, A5|by apply B5].
Qed.

End Adding.

Section New.
Context (factories : gmap string (ProviderSettings -> go_error + Provider E HttpRequest)) (available : list string).
Context (prices : Registry) (loadPrices : string -> Registry -> go_error + Registry).
Context (newRouter : ClientConfig -> option S -> option R -> RT) (ord : gset string -> list string) (show : plugin_error -> go_error).
Context (toLower : string -> string) `{!CacheMaker (C:=C)} `{!RedisMaker (L:=L) (S:=S) (R:=R)} (reports : bool) (cfg : Config.Config).

(** The client of the server, without the plug-in of the metrics. *)
Definition configured : go_error + Client :=
  New factories available prices loadPrices newRouter ord None show (buildClientOptions toLower reports cfg).

(** What the constructor reads of the options besides the stores. *)
Definition core o := (o.(o_ProviderInstances), o.(o_Router), o.(o_Plugins), o.(o_PluginConfig)).
Definition retried o := (o.(o_Providers), o.(o_config).(RetryCount)).
Definition seen o := (core o, retried o).

Lemma cache_options_keep : Forall (keeps seen) (match buildCacheOptions toLower cfg.(cfg_Cache) with inr opts => opts | inl _ => [] end).
Proof.
  unfold buildCacheOptions. destruct (negb _); [constructor|]. destruct (cache_instance _ _); [constructor|]. kept.
Qed.

Lemma store_options_keep : Forall (keeps seen) (routing_store_options cfg ++ rate_limit_options cfg).
Proof.
  unfold routing_store_options, rate_limit_options. destruct (live_redis _); destruct (routing_Distributed _); destruct (_ && _); kept.
Qed.

(** The options after the providers, with the retries in the middle. *)
Definition before_retries : list (Options -> Options) :=
  let r := cfg.(cfg_Routing) in
  [WithRouterStrategy (mapRoutingStrategy r.(routing_Strategy))]
  ++ opt_if (negb (String.eqb r.(routing_DefaultProvider) "")) (WithDefaultProvider r.(routing_DefaultProvider))
  ++ opt_if (0 <? r.(routing_CooldownPeriod)) (WithCooldown r.(routing_CooldownPeriod))
  ++ opt_if (fzero <.? r.(routing_EWMAAlpha)) (WithEWMAAlpha r.(routing_EWMAAlpha))
  ++ opt_if (0 <? cfg.(cfg_Server).(server_WriteTimeout)) (WithTimeout cfg.(cfg_Server).(server_WriteTimeout)).

Lemma built_options : exists after : list (Options -> Options), Forall (keeps seen) before_retries /\ Forall (keeps seen) after
  /\ buildClientOptions toLower reports cfg = map (fun p => WithProvider (provider_settings p)) cfg.(cfg_Providers) ++ before_retries
       ++ WithRetry cfg.(cfg_Routing).(routing_RetryCount) cfg.(cfg_Routing).(routing_RetryBackoff) :: after.
Proof.
  eexists. split; [unfold before_retries; kept|]. split; [|unfold buildClientOptions, buildRoutingOptions, before_retries; cbv zeta;
    rewrite <- !app_assoc; cbn [app]; reflexivity].
  pose proof cache_options_keep as K1. pose proof store_options_keep as K2. apply Forall_app in K2 as [K2 K3].
  do 3 (constructor; [by intros o|]). do 3 (apply Forall_app; split; [kept|]).
  constructor; [by intros o|]. by rewrite !Forall_app.
Qed.

Lemma configured_options (o := apply_all (buildClientOptions toLower reports cfg) default_options) :
  o.(o_Providers) = map provider_settings cfg.(cfg_Providers) /\ core o = ([], None, [], None)
  /\ o.(o_config).(RetryCount) = cfg.(cfg_Routing).(routing_RetryCount).
Proof.
  destruct built_options as (after & Hb & Ha & E1). subst o. rewrite E1, !apply_app. cbn [apply_all foldl].
  change (foldl (fun o opt => opt o) ?o after) with (apply_all after o).
  generalize (apply_providers cfg.(cfg_Providers) default_options).
  assert (K : Forall (keeps core) (map (fun p => WithProvider (provider_settings p)) cfg.(cfg_Providers))) by (apply Forall_map, Forall_forall; by intros p _ o).
  generalize (apply_keeps core _ default_options K). clear K. generalize (apply_all (map (fun p => WithProvider (provider_settings p)) cfg.(cfg_Providers)) default_options).
  intros o1 Hc1 Hp1. pose proof (apply_keeps seen _ o1 Hb) as H2. set (o3 := WithRetry _ _ _).
  pose proof (apply_keeps seen _ o3 Ha) as H3. 
  pose proof (f_equal fst H2) as Hc2. pose proof (f_equal (fun x => x.2.1) H2) as Hp2. pose proof (f_equal fst H3) as Hc3.
  pose proof (f_equal (fun x => x.2.1) H3) as Hp3. pose proof (f_equal (fun x => x.2.2) H3) as Hr3. cbn [seen retried fst snd] in *.
  split_and!; [rewrite Hp3; change (o_Providers o3) with (o_Providers (apply_all before_retries o1)); by rewrite Hp2, Hp1|rewrite Hc3; change (core o3) with (core (apply_all before_retries o1)); by rewrite Hc2, Hc1|by rewrite Hr3].
Qed.

(** What the constructor makes of an accepted configuration. *)
Lemma configured_spec c :
  factories_ok factories -> Forall (fun p => p.(provider_MaxConcurrent) < two63) cfg.(cfg_Providers) -> configured = inr c ->
  map_Forall (fun _ => provider_ok) c.(cl_providers) /\ sems_ok c.(cl_resilienceManager)
  /\ c.(cl_config).(RetryCount) = cfg.(cfg_Routing).(routing_RetryCount) /\ c.(cl_pipeline).(plugins) = []
  /\ (forall p m, p ∈ cfg.(cfg_Providers) -> m ∈ p.(provider_Models) -> deployed c (new_deployment p.(provider_Name) p.(provider_MaxConcurrent) m)).
Proof.
  intros Hf Hn. unfold configured, New. fold (apply_all (buildClientOptions toLower reports cfg) default_options).
  destruct configured_options as (Hp & Hc & Hr). injection Hc as Hi Hrt Hpl Hpc. rewrite Hp, Hi, Hrt, Hpl. cbn [default].
  destruct (if String.eqb _ "" then _ else _) as [|pricing]; [done|]. destruct (addProviders _ _ _ _) as [|c1] eqn:Ea; [done|].
  apply add_providers_spec in Ea as (B1 & B2 & B3 & _ & B5); [|done|by apply Forall_map].
  cbn [registerPlugins]. intros [= <-]. cbn [addInstances foldl]. unfold registerDeployments.
  injection B1 as Bc _ _ _. destruct (CacheEnabled _); cbn.
  all: split_and!; [apply B2, map_Forall_empty|apply B3, map_Forall_empty|by rewrite Bc|unfold new_pipeline; by destruct (o_PluginConfig _)|].
  all: intros p m Hin Hm; apply (B5 (provider_settings p) m); [apply list_elem_of_fmap; by exists p|done].
Qed.
End New.
End Built.

Section Answers.
Context {E HttpRequest RT0 P L C S R : Type}.
Context `{!Network E HttpRequest} `{!RouterI RT0} `{!DistributedLimiter L} `{!CacheI C} `{!Tokenizer} `{!Codec}.
Context `{!RouterSafe RT0} `{!NetworkLaws E HttpRequest}.
Context (factories : gmap string (ProviderSettings -> go_error + Provider E HttpRequest)) (available : list string).
Context (prices : Registry) (loadPrices : string -> Registry -> go_error + Registry).
Context (newRouter : ClientConfig -> option S -> option R -> RT0 * list router_ev) (ord : gset string -> list string) (show : plugin_error -> go_error).
Context (toLower : string -> string) (IsPrint : N -> bool) {IP Net : Type} `{!NetLib IP Net}.
Context `{!CacheMaker (C:=C)} `{!RedisMaker (L:=L) (S:=S) (R:=R)} (reports : bool).

(** C6: The client of an accepted configuration is complete and answers.  When
    [Validate] accepts a configuration and the client of it is built, every model of
    every provider has its deployment, and every chat completion returns a response or
    an error, whatever the network does: the settings under which a completion returns
    neither are refused. *)
Theorem configured_client_answers cfg (w : @world E HttpRequest (RT0 * list router_ev) P L C) :
  valid toLower IsPrint cfg -> factories_ok factories -> Forall (fun p => p.(provider_MaxConcurrent) < two63) cfg.(cfg_Providers) ->
  configured factories available prices loadPrices newRouter ord show toLower reports cfg = inr w.(w_client) ->
  (forall p m, p ∈ cfg.(cfg_Providers) -> m ∈ p.(provider_Models) ->
     deployed w.(w_client) (new_deployment p.(provider_Name) p.(provider_MaxConcurrent) m))
  /\ (forall ctx req, exists w' res, ChatCompletion ctx (Some req) w = (w', Some res) /\ definite res).
Proof.
  intros Hv Hf Hn Hc. destruct (configured_spec _ _ _ _ _ _ _ _ _ _ _ Hf Hn Hc) as (H1 & H2 & H3 & H4 & H5). split; [done|].
  intros ctx req. pose proof (ChatCompletion_answers ctx req w) as Ha. unfold wp in Ha.
  destruct (ChatCompletion ctx (Some req) w) as [w' [res|]].
  - exists w', res. split; [done|]. apply Ha. split; [|done]. split_and!; [done|done|]. rewrite H3. by eapply valid_retries.
  - exfalso. apply Ha. split; [|done]. split_and!; [done|done|]. rewrite H3. by eapply valid_retries.
Qed.

End Answers.

(** ** Reloading *)

Section Reloading.
Context (toLower : string -> string) (IsPrint : N -> bool) {IP Net : Type} `{!NetLib IP Net}.
Context (checksum : Config.Config -> go_error + string).

(** Reading the file at some instant: the file, the environment and the parser are
    what they are then. *)
Definition reads (load : string -> go_error + Config.Config) : Prop :=
  exists readFile lookupEnv unmarshal, forall path, load path = LoadFromFile toLower IsPrint readFile lookupEnv unmarshal path.

Definition reload_all (evs : list (time * (string -> go_error + Config.Config))) (m : Config.Manager) : Config.Manager :=
  foldl (fun m ev => (Reload ev.2 checksum ev.1 m).1) m evs.

Definition manager_ok (m : Config.Manager) : Prop :=
  valid toLower IsPrint m.(mgr_config) /\ checksum m.(mgr_config) = inr m.(mgr_checksum)
  /\ Forall (fun told => valid toLower IsPrint told.2) m.(mgr_told).

Lemma loaded_valid load path cfg : reads load -> load path = inr cfg -> valid toLower IsPrint cfg.
Proof.
  intros (readFile & env & um & Hl). rewrite Hl. unfold LoadFromFile, valid. destruct (readFile path); [done|].
  destruct (um _ _) as [|c]; [done|]. destruct (Validate toLower IsPrint c) eqn:Ev; [done|]. by intros [= <-].
Qed.

(** A reload that fails changes nothing; one that succeeds puts what the file has in
    place, tells every listener of it and counts. *)
Lemma reload_cases load now m m' err : Reload load checksum now m = (m', err) ->
  match err with
  | Some _ => m' = m
  | None => exists cfg sum, load m.(mgr_path) = inr cfg /\ checksum cfg = inr sum
      /\ m'.(mgr_config) = cfg /\ m'.(mgr_checksum) = sum /\ m'.(mgr_path) = m.(mgr_path) /\ m'.(mgr_loadedAt) = now
      /\ m'.(mgr_reloadCount) = wrapu64 (m.(mgr_reloadCount) + 1) /\ m'.(mgr_listeners) = m.(mgr_listeners)
      /\ m'.(mgr_told) = m.(mgr_told) ++ map (fun i => (i, cfg)) (seq 0 m.(mgr_listeners))
  end.
Proof.
  unfold Reload, storeConfig. destruct (load _) as [e|cfg] eqn:El; [by intros [= <- <-]|].
  destruct (checksum cfg) as [e|sum] eqn:Ec; [by intros [= <- <-]|]. intros [= <- <-]. exists cfg, sum. done.
Qed.

(** C27: Reloading keeps a valid configuration in place.  From a manager that was
    created, after any number of reloads, whatever the file, the environment and the
    parser were at each of them, the current configuration is one that [Validate]
    accepts and the checksum is its own, and so is every configuration that a listener
    was told of; a reload that fails leaves everything as it was. *)
Theorem reload_keeps_valid load t path m evs :
  reads load -> Forall (fun ev => reads ev.2) evs -> Config.NewManager load checksum t path = inr m ->
  manager_ok (reload_all evs m)
  /\ (forall now load' err, (Reload load' checksum now (reload_all evs m)).2 = Some err ->
        (Reload load' checksum now (reload_all evs m)).1 = reload_all evs m).
Proof.
  intros Hl He Hm. split.
  - assert (Hok : manager_ok m).
    { unfold Config.NewManager, storeConfig in Hm. destruct (load path) as [|cfg] eqn:El; [done|]. destruct (checksum cfg) as [|sum] eqn:Ec; [done|].
      injection Hm as <-. split_and!; [by eapply loaded_valid|done|constructor]. }
    clear Hm Hl. revert m Hok. induction He as [|[now ld] evs Hev _ IH]; intros m Hok; [done|]. cbn. apply IH. cbn [fst snd] in *.
    destruct (Reload ld checksum now m) as [m' [err|]] eqn:Er; apply reload_cases in Er; [by subst|]. cbn [fst].
    destruct Er as (cfg & sum & Hld & Hs & Hc & Hsum & _ & _ & _ & _ & Ht). assert (Hv : valid toLower IsPrint cfg) by by eapply loaded_valid.
    unfold manager_ok. rewrite Hc, Hsum, Ht. split_and!; [done|done|]. apply Forall_app. split; [apply Hok|]. apply Forall_map, Forall_forall. by intros i _.
  - intros now ld err. destruct (Reload ld checksum now _) as [m' err'] eqn:Er. cbn. intros ->. by apply reload_cases in Er.
Qed.

End Reloading.

(** ** Environment variables *)

Lemma expand_fuel n n' f l : (length l <= n)%nat -> (length l <= n')%nat -> expand_from n f l = expand_from n' f l.
Proof.
  revert n' l. induction n as [|n IH]; intros n' l Hn Hn'; [by destruct l, n'; cbn in *; try lia|].
  destruct l as [|c l]; [by destruct n'|]. destruct n' as [|n']; [cbn in Hn'; lia|]. cbn in Hn, Hn'. cbn [expand_from].
  destruct (Ascii.eqb c "$" && negb (bool_decide (l = []))).
  - destruct (shell_name l) as [name w]. f_equal. apply IH; rewrite length_drop; lia.
  - f_equal. apply IH; lia.
Qed.

Lemma expand_cons f c l : Ascii.eqb c "$" = false ->
  expand_from (length (c :: l)) f (c :: l) = c :: expand_from (length l) f l.
Proof. intros Hc. cbn [length expand_from]. by rewrite Hc. Qed.

Lemma expand_name n f l name w : shell_name l = (name, w) -> name <> [] ->
  expand_from (S n) f ("$"%char :: l) = explode (f (implode name)) ++ expand_from n f (drop w l).
Proof. intros Hs Hne. cbn [expand_from]. destruct l as [|c l]; [by injection Hs as <-|].
  change (Ascii.eqb "$" "$") with true. rewrite bool_decide_false by done. cbn [negb andb]. rewrite Hs. by destruct name.
Qed.

Lemma scan_stops stop l k c : Forall (fun c => stop c = false) l -> stop c = true -> scan stop (l ++ c :: k) = l.
Proof. intros Hl Hc. induction Hl as [|x l Hx _ IH]; cbn; [by rewrite Hc|]. by rewrite Hx, IH. Qed.

Lemma shell_braces name k : name <> [] -> Forall (fun c => Ascii.eqb "}" c = false) name ->
  shell_name ("{"%char :: name ++ "}"%char :: k) = (name, length name + 2)%nat.
Proof.
  intros Hne Hn. assert (Hs : scan (Ascii.eqb "}"%char) (name ++ "}"%char :: k) = name) by by apply scan_stops.
  assert (Hlen : (length name <? length (name ++ "}"%char :: k))%nat = true) by (apply Nat.ltb_lt; rewrite length_app; cbn; lia).
  unfold shell_name. cbn [Ascii.eqb eqb andb]. rewrite Hs, Hlen. destruct name as [|s [|b name]]; [done| |].
  - cbn [app]. cbn [Ascii.eqb eqb andb]. rewrite andb_true_r. by destruct (is_special s).
  - cbn [app]. apply Forall_cons in Hn as [_ Hn]. apply Forall_cons in Hn as [Hb _]. rewrite Ascii.eqb_sym in Hb. by rewrite Hb, andb_false_r.
Qed.

(** A variable in braces is replaced by its value.  Text without a dollar is kept,
    and a name in braces after it is replaced by the value of the variable, or by what
    follows its colon when the variable is unset or empty; the rest of the file goes on
    the same way. *)
Theorem variables_expanded lookupEnv pre name post :
  Forall (fun c => Ascii.eqb c "$" = false) (explode pre) ->
  name <> "" -> Forall (fun c => Ascii.eqb "}" c = false) (explode name) ->
  Expand (pre +:+ "${" +:+ name +:+ "}" +:+ post) (env_value lookupEnv)
  = pre +:+ env_value lookupEnv name +:+ Expand post (env_value lookupEnv).
Proof.
  intros Hpre Hne Hn. unfold Expand. set (f := env_value lookupEnv).
  assert (Hlen : forall s, String.length s = length (explode s)) by (intros s; by induction s; cbn; f_equal).
  assert (Hex : forall l, Forall (fun c => Ascii.eqb c "$" = false) l ->
    let k := l ++ "$"%char :: "{"%char :: explode name ++ "}"%char :: explode post in
    expand_from (length k) f k = l ++ explode (f name) ++ expand_from (length (explode post)) f (explode post)).
  { intros l Hl. induction Hl as [|c l Hc _ IH]; cbv zeta in *; cbn [app]; [|rewrite expand_cons by done; f_equal; exact IH].
    assert (Hd : drop (length (explode name) + 2) ("{"%char :: explode name ++ "}"%char :: explode post) = explode post).
    { rewrite Nat.add_comm. cbn [Nat.add drop].
      replace (S (length (explode name))) with (length (explode name ++ ["}"%char])) by (rewrite length_app; cbn; lia).
      replace (explode name ++ "}"%char :: explode post) with ((explode name ++ ["}"%char]) ++ explode post) by (by rewrite <- app_assoc).
      apply drop_app_length. }
    cbn [length]. rewrite (expand_name _ _ _ (explode name) (length (explode name) + 2)); [|apply shell_braces; [by destruct name|done]|by destruct name].
    rewrite Hd, implode_explode. f_equal. apply expand_fuel; [rewrite length_app; cbn; lia|lia]. }
  rewrite !Hlen, !explode_app. specialize (Hex _ Hpre). cbv zeta in Hex. change (explode "${") with ["$"%char; "{"%char].
  change (explode "}") with ["}"%char]. cbn [app]. rewrite Hex, !implode_app, !implode_explode. done.
Qed.

(** ** A configuration, and what to watch for *)

Module Sample.
Definition toLower (s : string) : string := implode (map lower (explode s)).
Definition ascii_only (_ : N) : bool := false.

Definition supplier (name key : string) : Config.ProviderConfig :=
  {| provider_Name := name; provider_Type := "demo"; provider_APIKey := key; provider_BaseURL := ""; provider_AllowPrivateBaseURL := false;
     provider_Models := ["gpt-4o"]; provider_MaxConcurrent := 2; provider_Timeout := 0; provider_Headers := ∅ |}.

Definition with_providers (ps : list Config.ProviderConfig) : Config.Config := Config.DefaultConfig<|cfg_Providers := ps|>.
Definition file : Config.Config := with_providers [supplier "east" "k1"; supplier "west" "k2"].

#[export] Instance caches : CacheMaker (C:=Demo.store) := {| make_memory _ := ∅; make_redis _ := inr ∅; make_dual _ _ _ _ := inr ∅ |}.
#[export] Instance redis : RedisMaker (L:=unit) (S:=unit) (R:=unit) := {| connect _ _ := true; make_stats _ := tt; make_counters _ := tt; make_limiter _ := tt |}.

Definition factories : gmap string (ProviderSettings -> go_error + Provider Demo.env string) :=
  {[ "demo" := fun cfg => inr (Demo.provider cfg.(ps_Name)) ]}.

Abbreviation client cfg :=
  (configured (P:=unit) factories ["demo"] ∅ (fun _ r => inr r) (fun _ _ _ => ([] : Demo.router, [] : list router_ev)) elements
     (fun _ => EText "plugin") toLower true cfg).

Lemma factories_fine : factories_ok factories.
Proof. intros ty f cfg prov Hf Hp. unfold factories in Hf. apply lookup_singleton_Some in Hf as [_ <-]. injection Hp as <-. done. Qed.

Definition checksum (c : Config.Config) : go_error + string := inr c.(cfg_Deployment).(Mode).
Definition load (path : string) : go_error + Config.Config :=
  LoadFromFile toLower ascii_only (fun _ => inr "x") (fun _ => None) (fun _ _ => inr file) path.
End Sample.

#[local] Existing Instances Sample.caches Sample.redis.

Definition built {A : Type} (r : go_error + A) : bool := match r with inr _ => true | inl _ => false end.

Lemma sample_valid : valid Sample.toLower Sample.ascii_only Sample.file.
Proof. unfold valid. vm_compute. reflexivity. Qed.

Lemma sample_sizes : Forall (fun p => p.(provider_MaxConcurrent) < two63) Sample.file.(cfg_Providers).
Proof. repeat constructor. Qed.

Lemma sample_provider : Sample.supplier "west" "k2" ∈ Sample.file.(cfg_Providers).
Proof. right. left. Qed.

Lemma sample_built : built (Sample.client Sample.file) = true.
Proof. vm_compute. reflexivity. Qed.

Lemma configured_client_answers_witness : exists c, Sample.client Sample.file = inr c
  /\ deployed c (new_deployment "west" 2 "gpt-4o")
  /\ exists w' res, ChatCompletion Demo.nobody (Some (Demo.request "gpt-4o")) (Demo.world_of c [Demo.answer 200 "hi"]) = (w', Some res) /\ definite res.
Proof.
  pose proof sample_built as Hb. destruct (Sample.client Sample.file) as [|c] eqn:Ec; [discriminate Hb|]. exists c. split; [done|]. clear Hb.
  destruct (configured_client_answers Sample.factories ["demo"] ∅ (fun _ r => inr r) (fun _ _ _ => ([] : Demo.router, [] : list router_ev)) elements
    (fun _ => EText "plugin") Sample.toLower Sample.ascii_only true Sample.file (Demo.world_of c [Demo.answer 200 "hi"]) sample_valid Sample.factories_fine sample_sizes Ec) as [H1 H2].
  split; [|apply H2]. apply (H1 (Sample.supplier "west" "k2") "gpt-4o"); [apply sample_provider|left].
Defined.

Lemma reload_keeps_valid_witness : exists m, Config.NewManager Sample.load Sample.checksum 0 "config.yaml" = inr m
  /\ manager_ok Sample.toLower Sample.ascii_only Sample.checksum (reload_all Sample.checksum [(5, Sample.load)] m).
Proof.
  assert (Hb : built (Config.NewManager Sample.load Sample.checksum 0 "config.yaml") = true) by (vm_compute; reflexivity).
  destruct (Config.NewManager Sample.load Sample.checksum 0 "config.yaml") as [|m] eqn:Em; [discriminate Hb|]. exists m. split; [done|].
  assert (Hr : reads Sample.toLower Sample.ascii_only Sample.load) by (eexists _, _, _; reflexivity).
  apply (reload_keeps_valid Sample.toLower Sample.ascii_only Sample.checksum Sample.load 0 "config.yaml"); [exact Hr|repeat constructor; exact Hr|exact Em].
Defined.

Lemma variables_expanded_witness :
  Expand ("key: " +:+ "${" +:+ "KEY:none" +:+ "}" +:+ " # end") (env_value (fun _ => None)) = "key: none # end".
Proof. rewrite (variables_expanded (fun _ => None) "key: " "KEY:none" " # end"); [reflexivity|repeat constructor|done|repeat constructor]. Defined.

(** A dollar in a secret is taken for a variable, without braces too. *)
Theorem dollar_in_secret_lost : Expand "password: pa$$word" (env_value (fun _ => None)) = "password: paword"
  /\ Expand "password: pa$word" (env_value (fun _ => None)) = "password: pa".
Proof. done. Qed.

(** The strategy that filters by tags cannot be configured. *)
Theorem tag_based_unavailable s : mapRoutingStrategy s <> StrategyTagBased.
Proof. unfold mapRoutingStrategy. repeat case_match; done. Qed.

(** The mode is compared without regard to case when the configuration is checked, and
    with it when the store of accounted requests is chosen: a distributed gateway
    keeps them in memory. *)
Definition spelled : Config.Config :=
  Sample.file<|cfg_Deployment := {| Mode := "Distributed" |}|>
    <|cfg_Routing ::= fun r => r<|routing_Distributed := true|>|>
    <|cfg_Database ::= fun d => d<|db_Enabled := true|><|db_User := "llmux"|>|>.

Theorem distributed_spelling_keeps_memory : valid Sample.toLower Sample.ascii_only spelled
  /\ normalizeDeploymentMode Sample.toLower spelled.(cfg_Deployment).(Mode) = inr "distributed" /\ idempotency_of spelled = InMemory.
Proof. by vm_compute. Qed.

(** Two providers may have one name: both have their deployments, with one identifier,
    and all of them go to the second. *)
Theorem duplicate_provider_shadowed (cfg := Sample.with_providers [Sample.supplier "east" "k1"; Sample.supplier "east" "k2"]) :
  valid Sample.toLower Sample.ascii_only cfg
  /\ match Sample.client cfg with
     | inr c => size c.(cl_providers) = 1%nat /\ map ID (default [] (c.(cl_deployments) !! "gpt-4o")) = ["east-gpt-4o"; "east-gpt-4o"]
     | inl _ => False
     end.
Proof. by vm_compute. Qed.
