(* ===== verification/ProviderBase.v ===== *)
(** * What the providers share ([pkg/provider], and the parts that are the same in each provider)

    Tokens, the check of base URLs, requests as [net/http] makes them, the reading of
    answers in the format of OpenAI, and the classification of error answers.  The JSON
    library is the class [ProviderJson].  The order in which a map of headers is gone
    through, and the reading of a secret, are parameters. *)
From Stdlib Require Import Ascii.
From S2P Require Import Prelude Float64 Errors ModelName Utf8 Url AuthTypes PluginPipeline ClientTypes ApiTypes ClientSetup.

#[local] Abbreviation explode := String.list_ascii_of_string.
#[local] Abbreviation implode := String.string_of_list_ascii.

(** ** JSON values *)

(** A value of type [any]. *)
#[warnings="-register-all"]
Inductive json :=
| JNull
| JBool (b : bool)
| JNumber (x : f64)
| JString (s : string)
| JArray (l : list json)
| JObject (m : gmap string json).

(** Assertions of the dynamic type. *)
Definition as_string (v : option json) : option string := match v with Some (JString s) => Some s | _ => None end.
Definition as_object (v : option json) : option (gmap string json) := match v with Some (JObject m) => Some m | _ => None end.
Definition as_array (v : option json) : option (list json) := match v with Some (JArray l) => Some l | _ => None end.
Definition is_string (v : option json) (s : string) : bool := match v with Some (JString t) => String.eqb t s | _ => false end.

(** Reading into the types that the providers use beside those of [Json], and writing
    from them.  The error answer is its message; a nil object is an empty one; an
    embedding request is written with the text for its input. *)
Class ProviderJson := {
  decode_value : string -> go_error + json;
  encode_value : json -> go_error + string;
  decode_object : string -> go_error + gmap string json;
  decode_objects : string -> go_error + list (gmap string json);
  decode_error : string -> go_error + string;
  decode_chat : string -> go_error + ChatResponse;
  decode_chunk : string -> go_error + StreamChunk;
  decode_embeddings : string -> go_error + EmbeddingResponse;
  encode_embedding : EmbeddingRequest -> string -> go_error + string;
}.

(** ** Requests *)

Record Request := {
  hq_URL : URL;
  hq_Header : gmap string string;
  hq_Body : string;
}.

Definition token_char (c : ascii) : bool := letter c || digit c || is_among "!#$%&'*+-.^_`|~" c.

Fixpoint canonical_from (upper : bool) (l : list ascii) : list ascii :=
  match l with
  | [] => []
  | c :: l' =>
      (if upper && between 97 122 c then ascii_of_N (code c - 32) else if upper then c else lower_ascii c)
      :: canonical_from (Ascii.eqb c "-") l'
  end.

(** [http.CanonicalHeaderKey] *)
Definition CanonicalHeaderKey (k : string) : string :=
  if forallb token_char (explode k) then implode (canonical_from true (explode k)) else k.

Definition Header_Set (k v : string) (r : Request) : Request := r<|hq_Header ::= <[CanonicalHeaderKey k := v]>|>.
Definition Header_SetAll (kvs : list (string * string)) (r : Request) : Request := fold_left (fun r kv => Header_Set kv.1 kv.2 r) kvs r.

(** [http.NewRequestWithContext] of a POST; an empty port is removed. *)
Definition removeEmptyPort (host : string) : string :=
  match cut_last ":" (explode host) with
  | Some (h, port) => if contains "]" port then host else match port with [] => implode h | _ => host end
  | None => host
  end.

Definition NewRequest (IsPrint : N -> bool) (url body : string) : go_error + Request :=
  match Parse IsPrint url with
  | inl err => inl err
  | inr u => inr {| hq_URL := u<|u_Host ::= removeEmptyPort|>; hq_Header := ∅; hq_Body := body |}
  end.

(** ** Base URLs *)

Section BaseURL.
Context (unicode : string -> string) (IsPrint : N -> bool).

Definition isPrivateOrLoopbackHost (host : string) : bool :=
  let h := ToLower unicode (TrimSpace host) in
  if String.eqb h "localhost" || HasSuffix ".localhost" h then true
  else match ParseIP h with
       | None => false
       | Some ip =>
           if IsLoopback ip || IsPrivate ip || IsLinkLocalUnicast ip || IsLinkLocalMulticast ip || IsUnspecified ip then true
           else negb (IsGlobalUnicast ip)
       end.

(** [None] when the URL is accepted. *)
Definition ValidateBaseURL (raw : string) (allowPrivate : bool) : option go_error :=
  match Parse IsPrint (TrimSpace raw) with
  | inl err => Some (EWrap "invalid base_url" err)
  | inr u =>
      let q := Quote IsPrint in
      if negb (String.eqb u.(u_Scheme) "http") && negb (String.eqb u.(u_Scheme) "https")
      then Some (EText ("invalid base_url scheme " +:+ q u.(u_Scheme) +:+ " (must be http or https)"))
      else if String.eqb (Hostname u) "" then Some (EText ("invalid base_url host " +:+ q u.(u_Host)))
      else if match u.(u_User) with Some _ => true | None => false end then Some (EText "base_url must not contain userinfo")
      else if negb (String.eqb u.(u_RawQuery) "") then Some (EText "base_url must not contain query")
      else if negb (String.eqb u.(u_Fragment) "") then Some (EText "base_url must not contain fragment")
      else if negb allowPrivate && isPrivateOrLoopbackHost (Hostname u)
      then Some (EText ("base_url host " +:+ q (Hostname u) +:+ " is private/loopback (set allow_private_base_url to override)"))
      else None
  end.
End BaseURL.

(** ** Tokens *)

Section Tokens.
Context {E : Type}.

(** [TokenSource.Token] *)
Definition TokenSource : Type := E -> E * (go_error + string).

Definition StaticTokenSource (token : string) : TokenSource := fun e => (e, inr token).

Definition GetToken (ts : option TokenSource) (apiKey : string) (e : E) : E * (go_error + string) :=
  match ts with Some ts => ts e | None => (e, inr apiKey) end.

(** The end of every [BuildRequest]: the token, or its error. *)
Definition with_token (ts : option TokenSource) (apiKey : string) (k : string -> Request) (e : E) : E * (go_error + Request) :=
  match GetToken ts apiKey e with
  | (e, inl err) => (e, inl (EWrap "get token" err))
  | (e, inr token) => (e, inr (k token))
  end.
End Tokens.
Arguments TokenSource : clear implicits.

(** ** Answers in the format of OpenAI *)

Section Answers.
Context `{!ProviderJson}.

(** The body of an answer, read into a type. *)
Definition read_answer {A : Type} (decode : string -> go_error + A) (resp : HttpResponse) : go_error + option A :=
  match ReadLimitedBody resp.(hr_Body) DefaultMaxResponseBodyBytes with
  | (_, Some err) => inl (EWrap "read response" err)
  | (body, None) => match decode body with inl err => inl (EWrap "unmarshal response" err) | inr r => inr (Some r) end
  end.

(** A line of a stream: nothing for an empty line and for the end marker. *)
Definition read_chunk (data : string) : go_error + option StreamChunk :=
  let trimmed := TrimSpace data in
  if String.eqb trimmed "" || String.eqb trimmed "[DONE]" then inr None
  else
    let trimmed := TrimPrefix "data: " trimmed in
    if String.eqb trimmed "[DONE]" then inr None
    else match decode_chunk trimmed with inl err => inl (EWrap "unmarshal chunk" err) | inr c => inr (Some c) end.

(** The error for an answer that is none: its class by its status. *)
Definition map_error (provider : string) (statusCode : Z) (body : string) : go_error :=
  let message := match decode_error body with
                 | inr m => if String.eqb m "" then "unknown error" else m
                 | inl _ => "unknown error"
                 end in
  let kind :=
    if statusCode =? 401 then NewAuthenticationError
    else if statusCode =? 429 then NewRateLimitError
    else if statusCode =? 400 then NewInvalidRequestError
    else if statusCode =? 404 then NewNotFoundError
    else if (statusCode =? 408) || (statusCode =? 504) then NewTimeoutError
    else if (statusCode =? 503) || (statusCode =? 502) then NewServiceUnavailableError
    else NewInternalError in
  ELLM (kind provider "" message).

End Answers.

(** The marshalled requests; a nil pointer is null. *)
Section Marshal.
Context `{!Json} `{!ProviderJson}.

Definition marshal_chat (req : option ChatRequest) : go_error + string :=
  match req with None => inr "null" | Some req => ChatRequest_MarshalJSON req end.

Definition marshal_embedding (req : EmbeddingRequest) : go_error + string :=
  match req.(er_Input) with
  | None => encode_embedding req "null"
  | Some input =>
      match EmbeddingInput_MarshalJSON input with
      | inl err => inl (EWrap "json: error calling MarshalJSON for type *types.EmbeddingInput" err)
      | inr raw => encode_embedding req raw
      end
  end.
End Marshal.

(** A request to a path below a base URL. *)
Definition join_request (IsPrint : N -> bool) (baseURL : string) (elems : list string) (body : string) : go_error + Request :=
  match Parse IsPrint (TrimSuffix "/" baseURL) with
  | inl err => inl (EWrap "parse base url" err)
  | inr base =>
      let base := base<|u_Path ::= fun path => path_Join (TrimSuffix "/" path :: elems)|> in
      match NewRequest IsPrint (URL_String IsPrint base) body with
      | inl err => inl (EWrap "create request" err)
      | inr r => inr r
      end
  end.
