(* ===== verification/OpenAILike.v ===== *)
(** * Providers that speak the API of OpenAI ([providers/openailike])

    The provider with its options, and the making and the reading of its messages. *)
From Stdlib Require Import Ascii.
From S2P Require Import Prelude Float64 Errors ModelName Utf8 Url AuthTypes PluginPipeline ClientTypes ApiTypes ClientSetup ProviderBase.

Record Info := {
  info_Name : string;
  info_DefaultBaseURL : string;
  info_APIKeyHeader : string;
  info_APIKeyPrefix : string;
  info_ChatEndpoint : string;
  info_EmbeddingEndpoint : string;
  info_SupportsStreaming : bool;
  info_SupportsEmbedding : bool;
  info_ExtraHeaders : gmap string string;
  info_ModelPrefixes : list string;
}.

Section OpenAILike.
Context {E : Type} `{!Json} `{!ProviderJson}.
Context (unicode : string -> string) (IsPrint : N -> bool) (order : gmap string string -> list (string * string)).
Context (secret : string -> TokenSource E).

Record LikeProvider := {
  lk_info : Info;
  lk_apiKey : string;
  lk_tokenSource : option (TokenSource E);
  lk_baseURL : string;
  lk_models : list string;
  lk_headers : gmap string string;
}.

(** ** Options *)

Definition WithAPIKey (key : string) (p : LikeProvider) : LikeProvider := p<|lk_apiKey := key|>.
Definition WithTokenSource (ts : TokenSource E) (p : LikeProvider) : LikeProvider := p<|lk_tokenSource := Some ts|>.
Definition WithBaseURL (url : string) (p : LikeProvider) : LikeProvider := if String.eqb url "" then p else p<|lk_baseURL := url|>.
Definition WithModels (models : list string) (p : LikeProvider) : LikeProvider := p<|lk_models := models|>.
Definition WithHeader (key value : string) (p : LikeProvider) : LikeProvider := p<|lk_headers ::= <[key := value]>|>.

Definition New (info : Info) (opts : list (LikeProvider -> LikeProvider)) : LikeProvider :=
  fold_left (fun p opt => opt p) opts
    {| lk_info := info; lk_apiKey := ""; lk_tokenSource := None; lk_baseURL := info.(info_DefaultBaseURL); lk_models := []; lk_headers := ∅ |}.

Definition NewFromConfig (info : Info) (cfg : ProviderSettings) : go_error + LikeProvider :=
  let opts := [WithAPIKey cfg.(ps_APIKey); WithBaseURL cfg.(ps_BaseURL); WithModels cfg.(ps_Models)]
              ++ match cfg.(ps_TokenSource) with Some path => [WithTokenSource (secret path)] | None => [] end in
  let p := New info opts in
  if String.eqb (TrimSpace p.(lk_baseURL)) ""
  then inl (EText ("base_url is required for provider " +:+ Quote IsPrint info.(info_Name)))
  else match ValidateBaseURL unicode IsPrint p.(lk_baseURL) cfg.(ps_AllowPrivateBaseURL) with
       | Some err => inl (EWrap ("invalid base_url for provider " +:+ Quote IsPrint info.(info_Name)) err)
       | None => inr (p<|lk_headers ::= fun headers => cfg.(ps_Headers) ∪ headers|>)
       end.

Definition SupportsModel (model : string) (p : LikeProvider) : bool :=
  existsb (String.eqb model) p.(lk_models) || existsb (fun prefix => HasPrefix prefix model) p.(lk_info).(info_ModelPrefixes).

(** ** Requests *)

Definition or_default (s d : string) : string := if String.eqb s "" then d else s.

(** The headers of a request with its token. *)
Definition authorize (p : LikeProvider) (r : Request) (token : string) : Request :=
  let header := or_default p.(lk_info).(info_APIKeyHeader) "Authorization" in
  let prefix := if String.eqb p.(lk_info).(info_APIKeyPrefix) "" && String.eqb header "Authorization" then "Bearer " else p.(lk_info).(info_APIKeyPrefix) in
  Header_SetAll (order p.(lk_headers))
    (Header_SetAll (order p.(lk_info).(info_ExtraHeaders))
       (Header_Set header (prefix +:+ token) (Header_Set "Content-Type" "application/json" r))).

Definition send_to (p : LikeProvider) (endpoint : string) (body : string) (e : E) : E * (go_error + Request) :=
  match join_request IsPrint p.(lk_baseURL) [TrimPrefix "/" endpoint] body with
  | inl err => (e, inl err)
  | inr r => with_token p.(lk_tokenSource) p.(lk_apiKey) (authorize p r) e
  end.

Definition BuildRequest (p : LikeProvider) (req : option ChatRequest) (e : E) : E * (go_error + Request) :=
  match marshal_chat req with
  | inl err => (e, inl (EWrap "marshal request" err))
  | inr body => send_to p (or_default p.(lk_info).(info_ChatEndpoint) "/chat/completions") body e
  end.

Definition BuildEmbeddingRequest (p : LikeProvider) (req : EmbeddingRequest) (e : E) : E * (go_error + Request) :=
  match EmbeddingRequest_Validate req with
  | Some err => (e, inl (EWrap "invalid embedding request" err))
  | None =>
      match marshal_embedding req with
      | inl err => (e, inl (EWrap "marshal request" err))
      | inr body => send_to p (or_default p.(lk_info).(info_EmbeddingEndpoint) "/embeddings") body e
      end
  end.

(** ** Answers *)

Definition ParseResponse (resp : HttpResponse) : go_error + option ChatResponse := read_answer decode_chat resp.
Definition ParseEmbeddingResponse (resp : HttpResponse) : go_error + option EmbeddingResponse := read_answer decode_embeddings resp.
Definition ParseStreamChunk (data : string) : go_error + option StreamChunk := read_chunk data.
Definition MapError (p : LikeProvider) (statusCode : Z) (body : string) : go_error := map_error p.(lk_info).(info_Name) statusCode body.

(** The provider as the client sees it. *)
Definition provider (p : LikeProvider) : Provider E Request :=
  {| prov_Name := p.(lk_info).(info_Name); SupportedModels := p.(lk_models); ClientTypes.BuildRequest := fun _ => BuildRequest p;
     ClientTypes.ParseResponse := ParseResponse; ClientTypes.ParseStreamChunk := ParseStreamChunk; ClientTypes.MapError := MapError p;
     SupportEmbedding := p.(lk_info).(info_SupportsEmbedding); ClientTypes.BuildEmbeddingRequest := fun _ => BuildEmbeddingRequest p;
     ClientTypes.ParseEmbeddingResponse := ParseEmbeddingResponse |}.

End OpenAILike.
Arguments LikeProvider : clear implicits.
