(* ===== verification/OpenAI.v ===== *)
(** * The provider for OpenAI ([providers/openai]) *)
From Stdlib Require Import Ascii.
From S2P Require Import Prelude Float64 Errors ModelName Utf8 Url AuthTypes PluginPipeline ClientTypes ApiTypes ClientSetup ProviderBase.

Definition ProviderName := "openai".
Definition DefaultBaseURL := "https://api.openai.com/v1".

Section OpenAI.
Context {E : Type} `{!Json} `{!ProviderJson}.
Context (unicode : string -> string) (IsPrint : N -> bool) (order : gmap string string -> list (string * string)).
Context (secret : string -> TokenSource E).

Record OpenAIProvider := {
  oa_apiKey : string;
  oa_tokenSource : option (TokenSource E);
  oa_baseURL : string;
  oa_models : list string;
  oa_headers : gmap string string;
}.

Definition WithAPIKey (key : string) (p : OpenAIProvider) : OpenAIProvider := p<|oa_apiKey := key|>.
Definition WithTokenSource (ts : TokenSource E) (p : OpenAIProvider) : OpenAIProvider := p<|oa_tokenSource := Some ts|>.
Definition WithBaseURL (url : string) (p : OpenAIProvider) : OpenAIProvider := if String.eqb url "" then p else p<|oa_baseURL := url|>.
Definition WithModels (models : list string) (p : OpenAIProvider) : OpenAIProvider := p<|oa_models := models|>.
Definition WithHeader (key value : string) (p : OpenAIProvider) : OpenAIProvider := p<|oa_headers ::= <[key := value]>|>.

Definition New (opts : list (OpenAIProvider -> OpenAIProvider)) : OpenAIProvider :=
  fold_left (fun p opt => opt p) opts
    {| oa_apiKey := ""; oa_tokenSource := None; oa_baseURL := DefaultBaseURL; oa_models := []; oa_headers := ∅ |}.

Definition NewFromConfig (cfg : ProviderSettings) : go_error + OpenAIProvider :=
  let opts := [WithAPIKey cfg.(ps_APIKey); WithBaseURL cfg.(ps_BaseURL); WithModels cfg.(ps_Models)]
              ++ match cfg.(ps_TokenSource) with Some path => [WithTokenSource (secret path)] | None => [] end in
  let p := New opts in
  match ValidateBaseURL unicode IsPrint p.(oa_baseURL) cfg.(ps_AllowPrivateBaseURL) with
  | Some err => inl (EWrap "invalid base_url" err)
  | None => inr (p<|oa_headers ::= fun headers => cfg.(ps_Headers) ∪ headers|>)
  end.

Definition SupportsModel (model : string) (p : OpenAIProvider) : bool :=
  existsb (String.eqb model) p.(oa_models) || HasPrefix "gpt-" model || HasPrefix "o1-" model.

Definition authorize (p : OpenAIProvider) (r : Request) (token : string) : Request :=
  Header_SetAll (order p.(oa_headers)) (Header_Set "Authorization" ("Bearer " +:+ token) (Header_Set "Content-Type" "application/json" r)).

Definition send_to (p : OpenAIProvider) (elems : list string) (body : string) (e : E) : E * (go_error + Request) :=
  match join_request IsPrint p.(oa_baseURL) elems body with
  | inl err => (e, inl err)
  | inr r => with_token p.(oa_tokenSource) p.(oa_apiKey) (authorize p r) e
  end.

Definition BuildRequest (p : OpenAIProvider) (req : option ChatRequest) (e : E) : E * (go_error + Request) :=
  match marshal_chat req with
  | inl err => (e, inl (EWrap "marshal request" err))
  | inr body => send_to p ["chat"; "completions"] body e
  end.

Definition BuildEmbeddingRequest (p : OpenAIProvider) (req : EmbeddingRequest) (e : E) : E * (go_error + Request) :=
  match EmbeddingRequest_Validate req with
  | Some err => (e, inl (EWrap "invalid embedding request" err))
  | None =>
      match marshal_embedding req with
      | inl err => (e, inl (EWrap "marshal request" err))
      | inr body => send_to p ["embeddings"] body e
      end
  end.

Definition ParseResponse (resp : HttpResponse) : go_error + option ChatResponse := read_answer decode_chat resp.
Definition ParseEmbeddingResponse (resp : HttpResponse) : go_error + option EmbeddingResponse := read_answer decode_embeddings resp.
Definition ParseStreamChunk (data : string) : go_error + option StreamChunk := read_chunk data.
Definition MapError (statusCode : Z) (body : string) : go_error := map_error ProviderName statusCode body.

(** The provider as the client sees it. *)
Definition provider (p : OpenAIProvider) : Provider E Request :=
  {| prov_Name := ProviderName; SupportedModels := p.(oa_models); ClientTypes.BuildRequest := fun _ => BuildRequest p;
     ClientTypes.ParseResponse := ParseResponse; ClientTypes.ParseStreamChunk := ParseStreamChunk; ClientTypes.MapError := MapError;
     SupportEmbedding := true; ClientTypes.BuildEmbeddingRequest := fun _ => BuildEmbeddingRequest p;
     ClientTypes.ParseEmbeddingResponse := ParseEmbeddingResponse |}.

End OpenAI.
Arguments OpenAIProvider : clear implicits.
