(* ===== verification/Anthropic.v ===== *)
(** * The provider for Anthropic ([providers/anthropic])

    The translation of chat requests to the Messages API, and of its answers, its
    stream events and its errors back.  The structures of that API are read and written
    by the JSON library, the class [MessagesJson]. *)
From Stdlib Require Import Ascii.
From S2P Require Import Prelude Float64 Errors ModelName Utf8 Url AuthTypes PluginPipeline ClientTypes ApiTypes ClientSetup ProviderBase.

Definition ProviderName := "anthropic".
Definition DefaultBaseURL := "https://api.anthropic.com".
Definition DefaultAPIVersion := "2023-06-01".
Definition DefaultMaxTokens : Z := 4096.

(** ** The Messages API *)

Record contentBlock := {
  cb_Type : string;
  cb_Text : string;
  cb_ID : string;
  cb_Name : string;
  cb_Input : json;
  cb_ToolUseID : string;
  cb_Content : string;
}.

Definition block (type : string) : contentBlock :=
  {| cb_Type := type; cb_Text := ""; cb_ID := ""; cb_Name := ""; cb_Input := JNull; cb_ToolUseID := ""; cb_Content := "" |}.

(** The content of a message is a text or a list of blocks. *)
Inductive message_content :=
| CText (s : string)
| CBlocks (bs : list contentBlock).

Record anthropicMessage := { am_Role : string; am_Content : message_content }.

Record thinkingConfig := { th_Type : string; th_BudgetTokens : Z }.

Record inputSchema := {
  is_Type : string;
  is_Properties : gmap string json;
  is_Required : list string;
}.

Record anthropicTool := { at_Name : string; at_Description : string; at_InputSchema : inputSchema }.

Record toolChoice := { tch_Type : string; tch_Name : string; tch_DisableParallelToolUse : bool }.

Record anthropicRequest := {
  ar_Model : string;
  ar_Messages : list anthropicMessage;
  ar_MaxTokens : Z;
  ar_System : string;
  ar_Temperature : option f64;
  ar_TopP : option f64;
  ar_TopK : option Z;
  ar_StopSequences : list string;
  ar_Stream : bool;
  ar_Metadata : option string;
  ar_Tools : list anthropicTool;
  ar_ToolChoice : option toolChoice;
  ar_Thinking : option thinkingConfig;
}.

Record anthropicResponse := {
  ap_ID : string;
  ap_Type : string;
  ap_Role : string;
  ap_Content : list contentBlock;
  ap_Model : string;
  ap_StopReason : string;
  ap_StopSequence : string;
  ap_InputTokens : Z;
  ap_OutputTokens : Z;
}.

Class MessagesJson := {
  decode_thinking : string -> go_error + thinkingConfig;
  decode_message : string -> go_error + anthropicResponse;
  encode_message : anthropicRequest -> go_error + string;
}.

Definition mapStopReason (reason : string) : string :=
  if String.eqb reason "end_turn" then "stop"
  else if String.eqb reason "max_tokens" then "length"
  else if String.eqb reason "stop_sequence" then "stop"
  else if String.eqb reason "tool_use" then "tool_calls"
  else reason.

Section Anthropic.
Context {E : Type} `{!Json} `{!ProviderJson} `{!MessagesJson}.
Context (IsPrint : N -> bool) (order : gmap string string -> list (string * string)) (secret : string -> TokenSource E).

Record AnthropicProvider := {
  an_apiKey : string;
  an_tokenSource : option (TokenSource E);
  an_baseURL : string;
  an_apiVersion : string;
  an_models : list string;
  an_headers : gmap string string;
}.

Definition WithAPIKey (key : string) (p : AnthropicProvider) : AnthropicProvider := p<|an_apiKey := key|>.
Definition WithTokenSource (ts : TokenSource E) (p : AnthropicProvider) : AnthropicProvider := p<|an_tokenSource := Some ts|>.
Definition WithBaseURL (url : string) (p : AnthropicProvider) : AnthropicProvider := if String.eqb url "" then p else p<|an_baseURL := url|>.
Definition WithModels (models : list string) (p : AnthropicProvider) : AnthropicProvider := p<|an_models := models|>.
Definition WithAPIVersion (version : string) (p : AnthropicProvider) : AnthropicProvider :=
  if String.eqb version "" then p else p<|an_apiVersion := version|>.
Definition WithHeader (key value : string) (p : AnthropicProvider) : AnthropicProvider := p<|an_headers ::= <[key := value]>|>.

Definition New (opts : list (AnthropicProvider -> AnthropicProvider)) : AnthropicProvider :=
  fold_left (fun p opt => opt p) opts
    {| an_apiKey := ""; an_tokenSource := None; an_baseURL := DefaultBaseURL; an_apiVersion := DefaultAPIVersion; an_models := [];
       an_headers := ∅ |}.

(** There is no error that it returns. *)
Definition NewFromConfig (cfg : ProviderSettings) : AnthropicProvider :=
  let opts := [WithAPIKey cfg.(ps_APIKey); WithBaseURL cfg.(ps_BaseURL); WithModels cfg.(ps_Models)]
              ++ match cfg.(ps_TokenSource) with Some path => [WithTokenSource (secret path)] | None => [] end in
  (New opts)<|an_headers ::= fun headers => cfg.(ps_Headers) ∪ headers|>.

Definition SupportsModel (model : string) (p : AnthropicProvider) : bool :=
  existsb (String.eqb model) p.(an_models) || HasPrefix "claude-" model.

(** ** Requests *)

(** The text parts of a list of parts that a system message is made of. *)
Definition system_text (parts : list (gmap string json)) : string :=
  fold_left (fun s c => match as_string (c !! "text") with Some t => s +:+ t | None => s end) parts "".

Definition text_blocks (parts : list (gmap string json)) : list contentBlock :=
  omap (fun c => if is_string (c !! "type") "text" then (fun t => (block "text")<|cb_Text := t|>) <$> as_string (c !! "text") else None) parts.

(** A call of a tool; arguments that are no JSON are kept as a text. *)
Definition tool_use (tc : ToolCall) : contentBlock :=
  let input := match decode_value tc.(tc_Function).(tcf_Arguments) with
               | inr v => v
               | inl _ => JString tc.(tc_Function).(tcf_Arguments)
               end in
  (block "tool_use")<|cb_ID := tc.(tc_ID)|><|cb_Name := tc.(tc_Function).(tcf_Name)|><|cb_Input := input|>.

Definition tool_result (msg : ChatMessage) : contentBlock :=
  let content := match read_string msg.(m_Content) with inr s => s | inl _ => msg.(m_Content) end in
  (block "tool_result")<|cb_ToolUseID := msg.(m_ToolCallID)|><|cb_Content := content|>.

(** The loop of [transformMessages]: the messages so far and the system prompt. *)
Fixpoint transform_from (result : list anthropicMessage) (systemPrompt : string) (messages : list ChatMessage) :
    go_error + list anthropicMessage * string :=
  match messages with
  | [] => inr (result, systemPrompt)
  | msg :: messages' =>
      let add role content := transform_from (result ++ [{| am_Role := role; am_Content := content |}]) systemPrompt messages' in
      if String.eqb msg.(m_Role) "system" then
        match read_string msg.(m_Content) with
        | inr content => transform_from result content messages'
        | inl _ =>
            match decode_objects msg.(m_Content) with
            | inr parts => transform_from result (systemPrompt +:+ system_text parts) messages'
            | inl _ => transform_from result systemPrompt messages'
            end
        end
      else if String.eqb msg.(m_Role) "assistant" && negb (bool_decide (length msg.(m_ToolCalls) = 0%nat)) then
        add "assistant" (CBlocks (map tool_use msg.(m_ToolCalls)))
      else if String.eqb msg.(m_Role) "tool" then add "user" (CBlocks [tool_result msg])
      else match read_string msg.(m_Content) with
           | inr content => add msg.(m_Role) (CText content)
           | inl _ =>
               match decode_objects msg.(m_Content) with
               | inl _ => inl (EText "invalid message content format")
               | inr parts => add msg.(m_Role) (CBlocks (text_blocks parts))
               end
           end
  end.

Definition transformMessages (messages : list ChatMessage) : go_error + list anthropicMessage * string := transform_from [] "" messages.

(** The parameters of a tool; text that is no JSON counts as none. *)
Definition transform_tool (tool : Tool) : anthropicTool :=
  let fn := tool.(tool_Function) in
  let params := if String.eqb fn.(tf_Parameters) "" then ∅
                else match decode_object fn.(tf_Parameters) with inr m => m | inl _ => ∅ end in
  {| at_Name := fn.(tf_Name); at_Description := fn.(tf_Description);
     at_InputSchema :=
       {| is_Type := "object"; is_Properties := default ∅ (as_object (params !! "properties"));
          is_Required := omap (fun r => as_string (Some r)) (default [] (as_array (params !! "required"))) |} |}.

Definition transformTools (tools : list Tool) : list anthropicTool :=
  map transform_tool (List.filter (fun tool => String.eqb tool.(tool_Type) "function") tools).

Definition choice (type name : string) : toolChoice := {| tch_Type := type; tch_Name := name; tch_DisableParallelToolUse := false |}.

Definition transformToolChoice (raw : string) : go_error + option toolChoice :=
  match read_string raw with
  | inr str =>
      inr (if String.eqb str "auto" then Some (choice "auto" "")
           else if String.eqb str "required" then Some (choice "any" "")
           else if String.eqb str "none" then Some (choice "none" "")
           else None)
  | inl _ =>
      match decode_object raw with
      | inl err => inl err
      | inr obj => inr (choice "tool" <$> (as_object (obj !! "function") ≫= fun fn => as_string (fn !! "name")))
      end
  end.

Definition transformRequest (req : ChatRequest) : go_error + anthropicRequest :=
  match transformMessages req.(q_Messages) with
  | inl err => inl err
  | inr (messages, systemPrompt) =>
      inr {| ar_Model := req.(q_Model); ar_Messages := messages;
             ar_MaxTokens := if 0 <? req.(q_MaxTokens) then req.(q_MaxTokens) else DefaultMaxTokens;
             ar_System := systemPrompt; ar_Temperature := req.(q_Temperature); ar_TopP := req.(q_TopP); ar_TopK := None;
             ar_StopSequences := req.(q_Stop); ar_Stream := req.(q_Stream);
             ar_Metadata := if String.eqb req.(q_User) "" then None else Some req.(q_User);
             ar_Tools := transformTools req.(q_Tools);
             ar_ToolChoice := if String.eqb req.(q_ToolChoice) "" then None
                              else match transformToolChoice req.(q_ToolChoice) with inr tc => tc | inl _ => None end;
             ar_Thinking := match default ∅ req.(q_Extra) !! "thinking" with
                            | Some raw =>
                                if String.eqb raw "" then None
                                else match decode_thinking raw with
                                     | inr thinking => if String.eqb thinking.(th_Type) "" then None else Some thinking
                                     | inl _ => None
                                     end
                            | None => None
                            end |}
  end.

Definition authorize (p : AnthropicProvider) (r : Request) (token : string) : Request :=
  Header_SetAll (order p.(an_headers))
    (Header_Set "anthropic-version" p.(an_apiVersion) (Header_Set "x-api-key" token (Header_Set "Content-Type" "application/json" r))).

Definition BuildRequest (p : AnthropicProvider) (req : ChatRequest) (e : E) : E * (go_error + Request) :=
  match transformRequest req with
  | inl err => (e, inl (EWrap "transform request" err))
  | inr anthropicReq =>
      match encode_message anthropicReq with
      | inl err => (e, inl (EWrap "marshal request" err))
      | inr body =>
          match NewRequest IsPrint (TrimSuffix "/" p.(an_baseURL) +:+ "/v1/messages") body with
          | inl err => (e, inl (EWrap "create request" err))
          | inr r => with_token p.(an_tokenSource) p.(an_apiKey) (authorize p r) e
          end
      end
  end.

(** ** Answers *)

Definition is_text (b : contentBlock) : bool := String.eqb b.(cb_Type) "text".
Definition is_tool_use (b : contentBlock) : bool := String.eqb b.(cb_Type) "tool_use".

Definition answer_text (blocks : list contentBlock) : string :=
  fold_left (fun s b => if is_text b then s +:+ b.(cb_Text) else s) blocks "".

Definition tool_call (b : contentBlock) : ToolCall :=
  {| tc_ID := b.(cb_ID); tc_Type := "function";
     tc_Function := {| tcf_Name := b.(cb_Name); tcf_Arguments := match encode_value b.(cb_Input) with inr s => s | inl _ => "{}" end |} |}.

Definition transformResponse (resp : anthropicResponse) : ChatResponse :=
  let message := {| m_Role := "assistant"; m_Content := Quote IsPrint (answer_text resp.(ap_Content)); m_Name := "";
                    m_ToolCalls := map tool_call (List.filter is_tool_use resp.(ap_Content)); m_ToolCallID := "" |} in
  {| p_ID := resp.(ap_ID); p_Object := "chat.completion"; p_Created := 0; p_Model := resp.(ap_Model);
     p_Choices := [{| ch_Index := 0; ch_Message := message; ch_FinishReason := mapStopReason resp.(ap_StopReason); ch_Logprobs := None |}];
     p_Usage := Some {| us_PromptTokens := resp.(ap_InputTokens); us_CompletionTokens := resp.(ap_OutputTokens);
                        us_TotalTokens := wrap64 (resp.(ap_InputTokens) + resp.(ap_OutputTokens)); us_Provider := "" |};
     p_SystemFingerprint := "" |}.

Definition ParseResponse (resp : HttpResponse) : go_error + option ChatResponse :=
  match read_answer decode_message resp with
  | inl err => inl err
  | inr r => inr (transformResponse <$> r)
  end.

(** ** Streams *)

Definition stream_chunk (id model role content finish : string) : StreamChunk :=
  {| k_ChunkID := id; k_Object := "chat.completion.chunk"; k_Created := 0; k_Model := model;
     k_Choices := [{| sc_Index := 0; sc_Delta := {| dl_Role := role; dl_Content := content; dl_ToolCalls := [] |}; sc_FinishReason := finish |}];
     k_Usage := None; k_SystemFingerprint := "" |}.

(** What an event gives: most give nothing. *)
Definition event_chunk (event : gmap string json) : option StreamChunk :=
  match as_string (event !! "type") with
  | None => None
  | Some eventType =>
      if String.eqb eventType "content_block_delta" then
        match as_object (event !! "delta") with
        | None => None
        | Some delta =>
            if is_string (delta !! "type") "text_delta" then (fun text => stream_chunk "" "" "" text "") <$> as_string (delta !! "text")
            else None
        end
      else if String.eqb eventType "message_start" then
        (fun msg => stream_chunk (default "" (as_string (msg !! "id"))) (default "" (as_string (msg !! "model"))) "assistant" "" "")
        <$> as_object (event !! "message")
      else if String.eqb eventType "message_delta" then
        match as_object (event !! "delta") with
        | None => None
        | Some delta =>
            match as_string (delta !! "stop_reason") with
            | Some stopReason => if String.eqb stopReason "" then None else Some (stream_chunk "" "" "" "" (mapStopReason stopReason))
            | None => None
            end
        end
      else None
  end.

(** There is no error that it returns. *)
Definition ParseStreamChunk (data : string) : option StreamChunk :=
  let trimmed := TrimSpace data in
  if String.eqb trimmed "" then None
  else if HasPrefix "event:" trimmed then None
  else
    let trimmed := TrimPrefix "data: " trimmed in
    if String.eqb trimmed "[DONE]" then None
    else match decode_object trimmed with inl _ => None | inr event => event_chunk event end.

Definition MapError (statusCode : Z) (body : string) : go_error := map_error ProviderName statusCode body.

(** ** Embeddings *)

Definition no_embedding : go_error := ELLM (NewInvalidRequestError ProviderName "" "embedding not supported by anthropic").
Definition BuildEmbeddingRequest (req : EmbeddingRequest) (e : E) : E * (go_error + Request) := (e, inl no_embedding).
Definition ParseEmbeddingResponse (resp : HttpResponse) : go_error + option EmbeddingResponse := inl no_embedding.

(** The provider as the client sees it; a nil request, which the client never passes,
    panics, and [panics] is whatever that does. *)
Definition provider (panics : E -> E * (go_error + Request)) (p : AnthropicProvider) : Provider E Request :=
  {| prov_Name := ProviderName; SupportedModels := p.(an_models);
     ClientTypes.BuildRequest := fun _ req => match req with Some req => BuildRequest p req | None => panics end;
     ClientTypes.ParseResponse := ParseResponse; ClientTypes.ParseStreamChunk := fun data => inr (ParseStreamChunk data);
     ClientTypes.MapError := MapError; SupportEmbedding := false; ClientTypes.BuildEmbeddingRequest := fun _ => BuildEmbeddingRequest;
     ClientTypes.ParseEmbeddingResponse := ParseEmbeddingResponse |}.

End Anthropic.
Arguments AnthropicProvider : clear implicits.
