(* ===== verification/ProviderTheorems.v ===== *)
(** * What the check of base URLs keeps out *)
From Stdlib Require Import Ascii.
From stdpp Require Import pretty.
From S2P Require Import Prelude Float64 Errors ModelName Utf8 Url AuthTypes PluginPipeline ClientTypes ApiTypes ClientSetup ProviderBase.
From S2P Require OpenAI OpenAILike.

#[local] Abbreviation explode := String.list_ascii_of_string.
#[local] Abbreviation implode := String.string_of_list_ascii.

(** ** Dotted addresses *)

Definition dotted (a b c d : N) : string := pretty a +:+ "." +:+ pretty b +:+ "." +:+ pretty c +:+ "." +:+ pretty d.

(** The addresses that are no public ones: this host, the private ranges, the local
    link, loopback, multicast and broadcast. *)
Definition reserved (a b c d : N) : bool :=
  (a =? 127)%N || (a =? 10)%N || ((a =? 172)%N && (16 <=? b)%N && (b <=? 31)%N) || ((a =? 192)%N && (b =? 168)%N)
  || ((a =? 169)%N && (b =? 254)%N) || ((224 <=? a)%N && (a <=? 239)%N)
  || ((a =? 0)%N && (b =? 0)%N && (c =? 0)%N && (d =? 0)%N) || ((a =? 255)%N && (b =? 255)%N && (c =? 255)%N && (d =? 255)%N).

Definition octet_text (n : N) : list ascii := explode (pretty n).

(** The text of a byte: digits, at least one, that are read back. *)
Definition octet_good (n : N) : bool :=
  let t := octet_text n in
  forallb digit t && negb (bool_decide (t = [])) && match octet t with Some m => (m =? n)%N | None => false end.

(** A check of every number below a bound. *)
Lemma check_below (bound : nat) (P : N -> bool) : forallb (fun k => P (N.of_nat k)) (seq 0 bound) = true ->
  forall n, (n < N.of_nat bound)%N -> P n = true.
Proof.
  intros H n Hn. rewrite <- (N2Nat.id n). apply (proj1 (forallb_forall _ _) H (N.to_nat n)). apply in_seq. lia.
Qed.

Lemma octet_ok n : (n < 256)%N -> octet_good n = true.
Proof. revert n. apply (check_below 256). vm_compute. reflexivity. Qed.

Lemma octet_read n : (n < 256)%N -> octet (octet_text n) = Some n.
Proof.
  intros Hn. pose proof (octet_ok n Hn) as H. unfold octet_good in H. apply andb_true_iff in H as [_ H].
  destruct (octet (octet_text n)); [|done]. by apply N.eqb_eq in H as ->.
Qed.

Lemma octet_digits n : (n < 256)%N -> exists c l, octet_text n = c :: l /\ Forall (fun c => digit c = true) (c :: l).
Proof.
  intros Hn. pose proof (octet_ok n Hn) as H. unfold octet_good in H. rewrite !andb_true_iff in H. destruct H as [[H1 H2] _].
  destruct (octet_text n) as [|c l] eqn:E; [done|]. exists c, l. split; [done|]. apply Forall_forall. intros x Hx.
  rewrite forallb_forall in H1. apply H1. by apply list_elem_of_In.
Qed.

Lemma digit_not c x : digit c = true -> In x [".";":";"%"]%char -> Ascii.eqb c x = false.
Proof.
  intros Hc Hx. enough (E : forallb (fun x => implb (digit c) (negb (Ascii.eqb c x))) [".";":";"%"]%char = true).
  { rewrite forallb_forall in E. specialize (E _ Hx). rewrite Hc in E. by apply negb_true_iff in E. }
  clear Hc Hx x. revert c. apply check_ascii. vm_compute. reflexivity.
Qed.

Lemma cut_app c x y : Forall (fun a => Ascii.eqb a c = false) x -> cut c (x ++ c :: y) = Some (x, y).
Proof. intros Hx. induction Hx as [|a x Ha _ IH]; cbn; [by rewrite Ascii.eqb_refl|]. by rewrite Ha, IH. Qed.

Lemma cut_none c x : Forall (fun a => Ascii.eqb a c = false) x -> cut c x = None.
Proof. intros Hx. induction Hx as [|a x Ha _ IH]; cbn; [done|]. by rewrite Ha, IH. Qed.

Lemma split_cons n c x y : Forall (fun a => Ascii.eqb a c = false) x -> split_from (S n) c (x ++ c :: y) = x :: split_from n c y.
Proof. intros Hx. cbn [split_from]. by rewrite cut_app. Qed.

Lemma split_one n c x : Forall (fun a => Ascii.eqb a c = false) x -> split_from n c x = [x].
Proof. intros Hx. destruct n; cbn; [done|]. by rewrite cut_none. Qed.

(** A text between digits has no space at its ends. *)
Lemma no_space ps c l : digit c = true ->
  forallb (fun p => match p with x :: _ => negb (digit x) | [] => false end) ps = true -> strip_any ps (c :: l) = None.
Proof.
  intros Hx H. apply strip_any_None. intros p k Hp E. rewrite forallb_forall in H. apply list_elem_of_In, H in Hp.
  destruct p as [|x p]; [done|]. injection E as <- _. by rewrite Hx in Hp.
Qed.

Section Dotted.
Context (a b c d : N) (Ha : (a < 256)%N) (Hb : (b < 256)%N) (Hc : (c < 256)%N) (Hd : (d < 256)%N).

Lemma no_dot n : (n < 256)%N -> Forall (fun a => Ascii.eqb a "." = false) (octet_text n).
Proof.
  intros Hn. destruct (octet_digits n Hn) as (x & l & -> & H). eapply Forall_impl; [exact H|]. cbn. intros y Hy.
  apply (digit_not y); [done|]. by left.
Qed.

Lemma explode_dotted :
  explode (dotted a b c d) = octet_text a ++ "."%char :: octet_text b ++ "."%char :: octet_text c ++ "."%char :: octet_text d.
Proof. unfold dotted. by rewrite !explode_app. Qed.

Lemma dotted_split : split_on "." (explode (dotted a b c d)) = [octet_text a; octet_text b; octet_text c; octet_text d].
Proof.
  unfold split_on. rewrite explode_dotted.
  assert (Hlen : exists n, length (octet_text a ++ "."%char :: octet_text b ++ "."%char :: octet_text c ++ "."%char :: octet_text d) = S (S (S n))).
  { exists (length (octet_text a) + length (octet_text b) + length (octet_text c) + length (octet_text d))%nat.
    rewrite !length_app. cbn [length]. rewrite !length_app. cbn [length]. rewrite !length_app. cbn [length]. lia. }
  destruct Hlen as [n ->]. rewrite !split_cons, split_one by by apply no_dot. done.
Qed.

Lemma parse_dotted : parseIPv4 (explode (dotted a b c d)) = Some [a; b; c; d].
Proof. unfold parseIPv4. rewrite dotted_split. by rewrite !octet_read. Qed.

Lemma find_dot n l (Hn : (n < 256)%N) :
  List.find (fun c => Ascii.eqb c "." || Ascii.eqb c ":" || Ascii.eqb c "%") (octet_text n ++ "."%char :: l) = Some "."%char.
Proof.
  destruct (octet_digits n Hn) as (x & k & -> & H). induction H as [|y r Hy _ IH]; [done|]. cbn -[Ascii.eqb].
  rewrite !(digit_not y) by (done || cbn; tauto). exact IH.
Qed.

Lemma ParseIP_dotted : ParseIP (dotted a b c d) = Some (v4_prefix ++ [a; b; c; d]).
Proof. unfold ParseIP, ParseAddr. rewrite parse_dotted. rewrite explode_dotted, find_dot by done. done. Qed.

Lemma dotted_chars : Forall (fun c => digit c || Ascii.eqb c "." = true) (explode (dotted a b c d)).
Proof.
  assert (Ho : forall n, (n < 256)%N -> Forall (fun c => digit c || Ascii.eqb c "." = true) (octet_text n)).
  { intros n Hn. destruct (octet_digits n Hn) as (x & l & -> & H). eapply Forall_impl; [exact H|]. cbn. intros y ->. done. }
  rewrite explode_dotted. repeat (apply Forall_app; split; [by apply Ho|]; constructor; [done|]). by apply Ho.
Qed.

Lemma dotted_lower unicode : ToLower unicode (dotted a b c d) = dotted a b c d.
Proof.
  unfold ToLower. assert (Hl : Forall (fun x => between 0 127 x = true /\ lower_ascii x = x) (explode (dotted a b c d))).
  { eapply Forall_impl; [exact dotted_chars|]. cbn. intros x Hx.
    enough (E : implb (digit x || Ascii.eqb x ".") (between 0 127 x && Ascii.eqb (lower_ascii x) x) = true).
    { rewrite Hx in E. cbn in E. apply andb_true_iff in E as [E1 E2]. by apply Ascii.eqb_eq in E2. }
    clear Hx. revert x. apply check_ascii. vm_compute. reflexivity. }
  assert (is_ascii (explode (dotted a b c d)) = true) as ->.
  { unfold is_ascii. apply forallb_forall. intros x Hx. rewrite Forall_forall in Hl. apply Hl. by apply list_elem_of_In. }
  rewrite <- (implode_explode (dotted a b c d)) at 2. f_equal. rewrite <- map_id. apply map_ext_in. intros x Hx.
  rewrite Forall_forall in Hl. apply Hl. by apply list_elem_of_In.
Qed.

Lemma dotted_ends : exists x l y r,
  explode (dotted a b c d) = x :: l /\ digit x = true /\ reverse (explode (dotted a b c d)) = y :: r /\ digit y = true.
Proof.
  rewrite explode_dotted. destruct (octet_digits a Ha) as (x & l & -> & H). destruct (octet_digits d Hd) as (x' & l' & -> & H').
  destruct (reverse (x' :: l')) as [|y r] eqn:E; [apply (f_equal length) in E; by rewrite length_reverse in E|].
  rewrite !app_comm_cons, !app_assoc, reverse_app, reverse_cons, E. cbn [app]. do 4 eexists. split_and!; [done|by inversion H|done|].
  rewrite Forall_forall in H'. apply H'. apply elem_of_reverse. rewrite E. left.
Qed.

Lemma dotted_trimmed : TrimSpace (dotted a b c d) = dotted a b c d.
Proof.
  apply TrimSpace_trimmed_eq. unfold trimmed. destruct dotted_ends as (x & l & y & r & -> & Hx & -> & Hy).
  split; (apply no_space; [done|vm_compute; reflexivity]).
Qed.

Lemma dotted_no_name unicode : let h := ToLower unicode (dotted a b c d) in String.eqb h "localhost" || HasSuffix ".localhost" h = false.
Proof.
  cbv zeta. rewrite dotted_lower. destruct dotted_ends as (x & l & y & r & El & Hx & Er & Hy). apply orb_false_iff. split.
  - apply String.eqb_neq. intros E. rewrite E in El. injection El as <- _. done.
  - unfold HasSuffix. rewrite Er. change (reverse (explode ".localhost")) with (explode "tsohlacol."). cbn [String.list_ascii_of_string strip_prefix].
    destruct (Ascii.eqb_spec "t" y) as [<-|]; done.
Qed.

End Dotted.

(** ** What is kept out *)

Lemma land_f0 k n : (n < 256)%N -> (k < 16)%N -> (N.land n 0xf0 =? k * 16)%N = (k * 16 <=? n)%N && (n <=? k * 16 + 15)%N.
Proof.
  intros Hn Hk. apply eqb_prop. revert n Hn. apply (check_below 256). revert k Hk.
  refine (check_below 16 (fun k => forallb _ (seq 0 256)) _). vm_compute. reflexivity.
Qed.

Lemma four_bytes (a b c d a' b' c' d' : N) :
  bool_decide (v4_prefix ++ [a; b; c; d] = v4_prefix ++ [a'; b'; c'; d']) = (a =? a')%N && (b =? b')%N && (c =? c')%N && (d =? d')%N.
Proof.
  apply eq_true_iff_eq. rewrite bool_decide_eq_true, !andb_true_iff, !N.eqb_eq. split.
  - intros H. by injection H as -> -> -> ->.
  - by intros [[[-> ->] ->] ->].
Qed.

Lemma private_dotted unicode a b c d : (a < 256)%N -> (b < 256)%N -> (c < 256)%N -> (d < 256)%N ->
  isPrivateOrLoopbackHost unicode (dotted a b c d) = reserved a b c d.
Proof.
  intros Ha Hb Hc Hd. unfold isPrivateOrLoopbackHost. rewrite dotted_trimmed, dotted_no_name, dotted_lower, ParseIP_dotted by done.
  unfold IsGlobalUnicast, IsUnspecified, IsLoopback, IsPrivate, IsLinkLocalUnicast, IsLinkLocalMulticast, IsMulticast.
  change (To4 (v4_prefix ++ [a; b; c; d])) with (Some [a; b; c; d]). cbn [byte nth].
  change (repeat 0%N 4) with [0; 0; 0; 0]%N. change (repeat 255%N 4) with [255; 255; 255; 255]%N. rewrite !four_bytes.
  rewrite (bool_decide_false (_ = repeat 0%N 16)) by done.
  pose proof (land_f0 1 b Hb eq_refl) as E1. change (1 * 16)%N with 16%N in E1. rewrite E1.
  pose proof (land_f0 14 a Ha eq_refl) as E2. change (14 * 16)%N with 0xe0%N in E2. rewrite !E2. clear E1 E2.
  unfold reserved. clear. match goal with |- (if ?x then true else ?y) = ?z => change (x || y = z) end.
  apply eq_true_iff_eq. rewrite !orb_false_r, !negb_andb, !negb_orb, !negb_involutive, !orb_true_iff, !andb_true_iff, !N.eqb_eq, !N.leb_le.
  change (16 + 15)%N with 31%N. change (224 + 15)%N with 239%N.
  assert (Hm : a = 224%N -> (224 <= a <= 239)%N) by lia. tauto.
Qed.

Lemma accepted_url unicode IsPrint raw : ValidateBaseURL unicode IsPrint raw false = None ->
  exists u, Parse IsPrint (TrimSpace raw) = inr u
    /\ (u.(u_Scheme) = "http" \/ u.(u_Scheme) = "https") /\ Hostname u <> ""
    /\ u.(u_User) = None /\ u.(u_RawQuery) = "" /\ u.(u_Fragment) = "" /\ isPrivateOrLoopbackHost unicode (Hostname u) = false.
Proof.
  unfold ValidateBaseURL. destruct (Parse IsPrint (TrimSpace raw)) as [err|u]; [done|]. intros H. exists u. split; [done|].
  destruct (negb _ && negb _) eqn:Es in H; [done|]. destruct (String.eqb_spec (Hostname u) "") as [|Hh]; [done|].
  destruct u.(u_User); [done|]. destruct (String.eqb_spec u.(u_RawQuery) "") as [Hq|]; [|done].
  destruct (String.eqb_spec u.(u_Fragment) "") as [Hf|]; [|done]. cbn [negb andb] in H.
  destruct (isPrivateOrLoopbackHost unicode (Hostname u)); [done|]. split_and!; try done.
  apply andb_false_iff in Es as [Es|Es]; apply negb_false_iff, String.eqb_eq in Es; tauto.
Qed.

(** C19: A base URL that is accepted is a public one.  A provider for OpenAI, or for
    anything that speaks its API, that is made from a configuration without the
    permission for private hosts, has a base URL with the scheme http or https and a
    host, without userinfo, query or fragment; the host is neither localhost nor a name
    below it, and no dotted address of the private ranges, of loopback, of the local
    link, of multicast, of this host or of the broadcast, and every other dotted address
    passes the check of hosts. *)
Theorem base_url_public {E : Type} unicode IsPrint (secret : string -> TokenSource E) cfg baseURL :
  cfg.(ps_AllowPrivateBaseURL) = false ->
  (exists p, OpenAI.NewFromConfig unicode IsPrint secret cfg = inr p /\ p.(OpenAI.oa_baseURL) = baseURL)
  \/ (exists info p, OpenAILike.NewFromConfig unicode IsPrint secret info cfg = inr p /\ p.(OpenAILike.lk_baseURL) = baseURL) ->
  exists u, Parse IsPrint (TrimSpace baseURL) = inr u
    /\ (u.(u_Scheme) = "http" \/ u.(u_Scheme) = "https") /\ Hostname u <> ""
    /\ u.(u_User) = None /\ u.(u_RawQuery) = "" /\ u.(u_Fragment) = ""
    /\ (let h := ToLower unicode (TrimSpace (Hostname u)) in h <> "localhost" /\ HasSuffix ".localhost" h = false)
    /\ (forall a b c d, (a < 256)%N -> (b < 256)%N -> (c < 256)%N -> (d < 256)%N -> Hostname u = dotted a b c d -> reserved a b c d = false)
    /\ (forall a b c d, (a < 256)%N -> (b < 256)%N -> (c < 256)%N -> (d < 256)%N ->
          isPrivateOrLoopbackHost unicode (dotted a b c d) = reserved a b c d).
Proof.
  intros Hp Hc. assert (Hv : ValidateBaseURL unicode IsPrint baseURL false = None).
  { destruct Hc as [(p & Hn & <-)|(info & p & Hn & <-)].
    - unfold OpenAI.NewFromConfig in Hn. rewrite Hp in Hn. destruct (ValidateBaseURL _ _ _ _) eqn:Ev; [done|]. by injection Hn as <-.
    - unfold OpenAILike.NewFromConfig in Hn. rewrite Hp in Hn. destruct (String.eqb (TrimSpace _) ""); [done|].
      destruct (ValidateBaseURL _ _ _ _) eqn:Ev; [done|]. by injection Hn as <-. }
  destruct (accepted_url _ _ _ Hv) as (u & Hu & Hs & Hh & Huser & Hq & Hf & Hpriv). exists u. split_and!; try done.
  - pose proof Hpriv as H. unfold isPrivateOrLoopbackHost in H. cbv zeta in *. destruct (_ || _) eqn:Eo; [done|].
    apply orb_false_iff in Eo as [E1 E2]. split; [by apply String.eqb_neq|done].
  - intros a b c d Ha Hb Hd' Hd Hw. rewrite <- (private_dotted unicode a b c d), <- Hw by done. done.
  - intros a b c d Ha Hb Hd' Hd. by apply private_dotted.
Qed.

(** * Conversations with Anthropic

    What a client gets from an answer, whole or streamed, and what becomes of it when
    the client sends it back with the next request. *)

From S2P Require Import Anthropic.

(** What the JSON library promises: a value that was read can be written and read
    again; the input of a block of an answer is such a value; a string literal for plain
    text is read as what it stands for. *)
Class MessagesLaws `{!Json} `{!ProviderJson} `{!MessagesJson} : Prop := {
  value_read_back s v : decode_value s = inr v -> exists s', encode_value v = inr s' /\ decode_value s' = inr v;
  inputs_read body m : decode_message body = inr m -> Forall (fun b => exists s, decode_value s = inr b.(cb_Input)) m.(ap_Content);
  literal_read s t : json_literal s = Some t -> forallb plain_char (explode t) = true -> read_string s = inr t;
}.

Section Conversation.
Context `{!Json} `{!ProviderJson} `{!MessagesJson} `{!MessagesLaws}.
Context (IsPrint : N -> bool).

(** ** The next request *)

Lemma transform_app result sys pre post res' sys' :
  transform_from result sys pre = inr (res', sys') -> transform_from result sys (pre ++ post) = transform_from res' sys' post.
Proof.
  revert result sys. induction pre as [|msg pre IH]; intros result sys; cbn [transform_from app]; [by intros [= <- <-]|].
  intros Ht. repeat case_match; try done; by apply IH.
Qed.

(** The message of an answer. *)
Definition answer (m : anthropicResponse) : ChatMessage :=
  match (transformResponse IsPrint m).(p_Choices) with
  | c :: _ => c.(ch_Message)
  | [] => {| m_Role := ""; m_Content := ""; m_Name := ""; m_ToolCalls := []; m_ToolCallID := "" |}
  end.

(** A call of a tool, and nothing else. *)
Definition bare (b : contentBlock) : contentBlock :=
  (block "tool_use")<|cb_ID := b.(cb_ID)|><|cb_Name := b.(cb_Name)|><|cb_Input := b.(cb_Input)|>.

Definition tool_uses (m : anthropicResponse) : list contentBlock := List.filter is_tool_use m.(ap_Content).

Lemma call_round_trip b s : decode_value s = inr b.(cb_Input) -> tool_use (tool_call b) = bare b.
Proof. intros Hs. destruct (value_read_back _ _ Hs) as (s' & He & Hd). unfold tool_use, tool_call. cbn. by rewrite He, Hd. Qed.

Lemma calls_round_trip body m : decode_message body = inr m -> map tool_use (map tool_call (tool_uses m)) = map bare (tool_uses m).
Proof.
  intros Hm. rewrite map_map. apply map_ext_in. intros b Hb. apply filter_In in Hb as [Hb _].
  pose proof (inputs_read _ _ Hm) as Hf. rewrite Forall_forall in Hf. destruct (Hf b) as [s Hs]; [by apply list_elem_of_In|].
  by eapply call_round_trip.
Qed.

(** C20: A conversation goes on from where it was.  When the answer of Anthropic to the
    messages so far is appended to them and sent again, the new request has the old
    messages and the old system prompt, and then one message of the assistant: with
    the calls of tools of the answer, each with its id, its name and its input, in
    their order; or, if the answer has no calls, with its text, when that is plain. *)
Theorem conversation_continues pre res sys body m :
  decode_message body = inr m -> transformMessages pre = inr (res, sys) ->
  (tool_uses m = [] -> forallb plain_char (explode (answer_text m.(ap_Content))) = true) ->
  transformMessages (pre ++ [answer m])
  = inr (res ++ [{| am_Role := "assistant";
                    am_Content := match tool_uses m with
                                  | [] => CText (answer_text m.(ap_Content))
                                  | calls => CBlocks (map bare calls)
                                  end |}], sys).
Proof.
  intros Hm Hpre Htext. unfold transformMessages. rewrite (transform_app _ _ _ _ _ _ Hpre). cbn -[List.filter].
  fold (tool_uses m). rewrite (calls_round_trip _ _ Hm). destruct (tool_uses m) as [|b bs]; [|done].
  cbn. rewrite (literal_read _ (answer_text m.(ap_Content))); [done| |by apply Htext]. by apply plain_quote_json, Htext.
Qed.

(** ** Streams *)

(** The events of a stream that have content: its start, a piece of the text, the
    reason of the end. *)
Inductive sse_event :=
| EvStart (id model : string)
| EvText (text : string)
| EvFinish (reason : string).

(** The object of an event; it may have more members. *)
Definition carries (obj : gmap string json) (ev : sse_event) : Prop :=
  let typed t := obj !! "type" = Some (JString t) in
  let delta := as_object (obj !! "delta") in
  match ev with
  | EvStart id model => typed "message_start" /\ exists msg, as_object (obj !! "message") = Some msg
      /\ msg !! "id" = Some (JString id) /\ msg !! "model" = Some (JString model)
  | EvText text => typed "content_block_delta" /\ exists d, delta = Some d
      /\ d !! "type" = Some (JString "text_delta") /\ d !! "text" = Some (JString text)
  | EvFinish reason => typed "message_delta" /\ reason <> "" /\ exists d, delta = Some d /\ d !! "stop_reason" = Some (JString reason)
  end.

(** Any other object: not of the three types, a delta that is not of text (of the input
    of a tool, of thinking, a signature), or a [message_delta] without a reason. *)
Definition without_content (obj : gmap string json) : Prop :=
  forall t, obj !! "type" = Some (JString t) ->
    t <> "message_start"
    /\ (t = "content_block_delta" -> forall d, as_object (obj !! "delta") = Some d -> d !! "type" <> Some (JString "text_delta"))
    /\ (t = "message_delta" -> forall d r, as_object (obj !! "delta") = Some d -> d !! "stop_reason" = Some (JString r) -> r = "").

(** A line with an event, with any space around it, or any line without content: a
    blank one, the name of an event, the end marker, what is no JSON object, or an
    object without content. *)
Definition line_of (line : string) (ev : option sse_event) : Prop :=
  match ev with
  | Some ev => exists s obj, TrimSpace line = "data: " +:+ s /\ s <> "[DONE]" /\ decode_object s = inr obj /\ carries obj ev
  | None => TrimSpace line = "" \/ HasPrefix "event:" (TrimSpace line) = true \/ TrimPrefix "data: " (TrimSpace line) = "[DONE]"
      \/ (forall obj, decode_object (TrimPrefix "data: " (TrimSpace line)) = inr obj -> without_content obj)
  end.

Definition chunk_of (ev : sse_event) : StreamChunk :=
  match ev with
  | EvStart id model => stream_chunk id model "assistant" "" ""
  | EvText text => stream_chunk "" "" "" text ""
  | EvFinish reason => stream_chunk "" "" "" "" (mapStopReason reason)
  end.

Lemma event_chunk_of obj ev : carries obj ev -> event_chunk obj = Some (chunk_of ev).
Proof.
  destruct ev as [id model|text|reason]; cbn.
  - intros (Ht & msg & Hm & Hi & Ho). unfold event_chunk. rewrite Ht. cbn. rewrite Hm. cbn. by rewrite Hi, Ho.
  - intros (Ht & d & Hd & Hy & Hx). unfold event_chunk. rewrite Ht. cbn. rewrite Hd, Hy. cbn. by rewrite Hx.
  - intros (Ht & Hr & d & Hd & Hs). unfold event_chunk. rewrite Ht. cbn. rewrite Hd, Hs. cbn.
    by destruct (String.eqb_spec reason "").
Qed.

Lemma as_string_inv v s : as_string v = Some s -> v = Some (JString s).
Proof. destruct v as [[]|]; cbn; congruence. Qed.

Lemma event_chunk_none obj : without_content obj -> event_chunk obj = None.
Proof.
  intros Hw. unfold event_chunk. destruct (as_string (obj !! "type")) as [t|] eqn:Et; [|done]. apply as_string_inv in Et.
  destruct (Hw t Et) as (N1 & N2 & N3). destruct (String.eqb_spec t "content_block_delta") as [Ec|_].
  { destruct (as_object (obj !! "delta")) as [d|] eqn:Ed; [|done]. specialize (N2 Ec d eq_refl). unfold is_string.
    destruct (d !! "type") as [[]|]; try done. by destruct (String.eqb_spec s "text_delta") as [->|]. }
  destruct (String.eqb_spec t "message_start"); [done|]. destruct (String.eqb_spec t "message_delta") as [Em|]; [|done].
  destruct (as_object (obj !! "delta")) as [d|] eqn:Ed; [|done]. destruct (as_string (d !! "stop_reason")) as [r|] eqn:Er; [|done].
  apply as_string_inv in Er. by rewrite (N3 Em d r eq_refl Er).
Qed.

Lemma data_prefix s : TrimPrefix "data: " ("data: " +:+ s) = s.
Proof. unfold TrimPrefix. cbn. apply implode_explode. Qed.

Lemma parse_line line ev : line_of line ev -> ParseStreamChunk line = chunk_of <$> ev.
Proof.
  unfold ParseStreamChunk. destruct ev as [ev|]; cbn [line_of fmap option_fmap option_map].
  - intros (s & obj & Hl & Hs & Hd & Hc). rewrite Hl.
    change (String.eqb ("data: " +:+ s) "") with false. cbn iota.
    change (HasPrefix "event:" ("data: " +:+ s)) with false. cbn iota. rewrite data_prefix.
    destruct (String.eqb_spec s "[DONE]"); [done|]. rewrite Hd. by apply event_chunk_of.
  - intros Hn. destruct (String.eqb_spec (TrimSpace line) ""); [done|]. destruct (HasPrefix _ _) eqn:Hp; [done|]. cbv zeta.
    destruct (String.eqb_spec (TrimPrefix "data: " (TrimSpace line)) "[DONE]"); [done|].
    destruct Hn as [?|[?|[?|Hn]]]; [done|congruence|done|]. destruct (decode_object _) as [err|obj]; [done|]. by apply event_chunk_none, Hn.
Qed.

(** What a client makes of a stream: the text, the ids, and the reason of the end. *)
Definition choices (lines : list string) : list StreamChoice := concat (map k_Choices (omap ParseStreamChunk lines)).
Definition joined (texts : list string) : string := fold_right String.append "" texts.
Definition streamed_text (lines : list string) : string := joined (map (fun c => c.(sc_Delta).(dl_Content)) (choices lines)).
Definition streamed_finish (lines : list string) : string := joined (map sc_FinishReason (choices lines)).

Definition ev_text (ev : option sse_event) : string := match ev with Some (EvText t) => t | _ => "" end.

(** A stream of an answer: its start, pieces that make up its text, the reason of its
    end, in this order, with lines without content anywhere before, between and after. *)
Definition streams (evs : list (option sse_event)) (m : anthropicResponse) : Prop :=
  exists pre mid tail, evs = pre ++ Some (EvStart m.(ap_ID) m.(ap_Model)) :: mid ++ Some (EvFinish m.(ap_StopReason)) :: tail
  /\ Forall (fun ev => ev = None) pre /\ Forall (fun ev => ev = None) tail
  /\ Forall (fun ev => match ev with None | Some (EvText _) => True | _ => False end) mid
  /\ joined (map ev_text mid) = answer_text m.(ap_Content).

Lemma chunks_of lines evs : Forall2 line_of lines evs -> omap ParseStreamChunk lines = map chunk_of (omap id evs).
Proof.
  intros Hls. induction Hls as [|line ev lines evs Hl _ IH]; [done|]. cbn. rewrite (parse_line _ _ Hl). destruct ev; cbn; by rewrite IH.
Qed.

Lemma joined_app l k : joined (l ++ k) = joined l +:+ joined k.
Proof. induction l as [|s l IH]; [done|]. change (s +:+ joined (l ++ k) = (s +:+ joined l) +:+ joined k). by rewrite IH, append_assoc. Qed.

Definition choices_of (evs : list (option sse_event)) : list StreamChoice := concat (map k_Choices (map chunk_of (omap id evs))).

Lemma middle_choices mid : Forall (fun ev => match ev with None | Some (EvText _) => True | _ => False end) mid ->
  joined (map (fun c => c.(sc_Delta).(dl_Content)) (choices_of mid)) = joined (map ev_text mid)
  /\ joined (map sc_FinishReason (choices_of mid)) = "".
Proof.
  unfold choices_of. intros Hmid. induction Hmid as [|ev mid Hev _ [IH1 IH2]]; [done|]. destruct ev as [[|text|]|]; [done| |done|exact (conj IH1 IH2)].
  split; [exact (f_equal (String.append text) IH1)|exact IH2].
Qed.

Lemma silent_none (evs : list (option sse_event)) : Forall (fun ev => ev = None) evs -> omap id evs = [].
Proof. intros Hs. induction Hs as [|ev evs -> _ IH]; [done|]. exact IH. Qed.

(** C21: A streamed answer is the answer.  The lines of a stream of Anthropic that have,
    in order, the start of an answer, pieces that make up its text and the reason of its
    end, with any lines without content before, between and after them (blank lines,
    names of events, pings, deltas of thinking, of signatures and of the input of tools,
    a [message_delta] without a reason, types that are not known, what is no JSON), are
    read without an error: the first chunk has the id, the model and the role of the
    answer, the texts of the chunks joined are the text that the whole answer is given
    with, and the reason for the end is the same. *)
Theorem streamed_answer lines evs m :
  Forall2 line_of lines evs -> streams evs m ->
  head (omap ParseStreamChunk lines) = Some (stream_chunk m.(ap_ID) m.(ap_Model) "assistant" "" "")
  /\ map (fun c => c.(ch_Message).(m_Content)) (transformResponse IsPrint m).(p_Choices) = [Quote IsPrint (streamed_text lines)]
  /\ map ch_FinishReason (transformResponse IsPrint m).(p_Choices) = [streamed_finish lines].
Proof.
  intros Hl (pre & mid & tail & -> & Hpre & Htail & Hmid & Htext). destruct (middle_choices _ Hmid) as [Ht1 Ht2].
  unfold streamed_text, streamed_finish, choices. rewrite (chunks_of _ _ Hl).
  assert (E : omap id (pre ++ Some (EvStart (ap_ID m) (ap_Model m)) :: mid ++ Some (EvFinish (ap_StopReason m)) :: tail)
    = EvStart (ap_ID m) (ap_Model m) :: omap id mid ++ [EvFinish (ap_StopReason m)]).
  { rewrite omap_app, (silent_none pre Hpre). cbn. rewrite omap_app. cbn. by rewrite (silent_none tail Htail). }
  rewrite E. split; [done|].
  assert (Ec : concat (map k_Choices (map chunk_of (EvStart (ap_ID m) (ap_Model m) :: omap id mid ++ [EvFinish (ap_StopReason m)])))
    = k_Choices (chunk_of (EvStart (ap_ID m) (ap_Model m))) ++ choices_of mid ++ k_Choices (chunk_of (EvFinish (ap_StopReason m)))).
  { unfold choices_of. rewrite map_cons, map_cons, map_app, map_app. cbn [concat]. by rewrite concat_app. }
  rewrite Ec, !map_app, !joined_app, Ht1, Ht2, Htext. split.
  - cbn -[Quote]. by rewrite !append_nil_r.
  - cbn. by rewrite !append_nil_r.
Qed.

End Conversation.

(** ** An answer *)

Module Weather.
Definition ascii_only (_ : N) : bool := false.

(** JSON text, with single quotes for the double ones. *)
Definition js (s : string) : string := implode (map (fun c => if Ascii.eqb c "'" then quote_mark else c) (explode s)).

Definition oslo : gmap string json := {[ "city" := JString "Oslo" ]}.
Definition call : contentBlock := (block "tool_use")<|cb_ID := "t1"|><|cb_Name := "weather"|><|cb_Input := JObject oslo|>.
Definition text (s : string) : contentBlock := (block "text")<|cb_Text := s|>.

Definition message (blocks : list contentBlock) (stop : string) : anthropicResponse :=
  {| ap_ID := "msg_1"; ap_Type := "message"; ap_Role := "assistant"; ap_Content := blocks; ap_Model := "claude-3-opus"; ap_StopReason := stop;
     ap_StopSequence := ""; ap_InputTokens := 9; ap_OutputTokens := 4 |}.
Definition asks : anthropicResponse := message [text "Let me look."; call] "tool_use".
Definition tells : anthropicResponse := message [text "Rain "; text "in Oslo."] "end_turn".

(** A library that knows these texts. *)
Definition table {A : Type} (l : list (string * A)) (s : string) : go_error + A :=
  match List.find (fun p => String.eqb p.1 s) l with Some p => inr p.2 | None => inl (EText "json") end.

Definition typed (t : string) (more : list (string * json)) : gmap string json := list_to_map (("type", JString t) :: more).
Definition obj (l : list (string * json)) : json := JObject (list_to_map l).

Definition events : list (string * option sse_event * gmap string json) :=
  [(js "{'type':'message_start','message':{'id':'msg_1','model':'claude-3-opus'}}", Some (EvStart "msg_1" "claude-3-opus"),
    typed "message_start" [("message", obj [("id", JString "msg_1"); ("model", JString "claude-3-opus")])]);
   (js "{'type':'content_block_start'}", None, typed "content_block_start" []);
   (js "{'type':'content_block_delta','delta':{'type':'text_delta','text':'Rain '}}", Some (EvText "Rain "),
    typed "content_block_delta" [("delta", obj [("type", JString "text_delta"); ("text", JString "Rain ")])]);
   (js "{'type':'content_block_delta','delta':{'type':'thinking_delta','thinking':'hm'}}", None,
    typed "content_block_delta" [("delta", obj [("type", JString "thinking_delta"); ("thinking", JString "hm")])]);
   (js "{'type':'content_block_delta','delta':{'type':'text_delta','text':'in Oslo.'}}", Some (EvText "in Oslo."),
    typed "content_block_delta" [("delta", obj [("type", JString "text_delta"); ("text", JString "in Oslo.")])]);
   (js "{'type':'message_delta','delta':{'stop_reason':'end_turn'}}", Some (EvFinish "end_turn"),
    typed "message_delta" [("delta", obj [("stop_reason", JString "end_turn")])]);
   (js "{'type':'message_stop'}", None, typed "message_stop" [])].

#[export] Instance json_types : Json :=
  let no {A B : Type} (_ : A) : go_error + B := inl (EText "json") in
  {| read_members := no; write_members := no; read_chat := no; write_chat := no; read_int := no;
     read_string := fun s => match json_literal s with Some t => inr t | None => inl (EText "json") end;
     write_string := no; read_strings := no; write_strings := no; read_ints := no; write_ints := no; read_intss := no; write_intss := no;
     read_messages := no; read_parts := no |}.

#[export] Instance provider_json : ProviderJson :=
  let no {A B : Type} (_ : A) : go_error + B := inl (EText "json") in
  {| decode_value := table [("null", JNull); (js "{'city':'Oslo'}", JObject oslo)];
     encode_value := fun v => match v with
                              | JNull => inr "null"
                              | JObject m => if is_string (m !! "city") "Oslo" then inr (js "{'city':'Oslo'}") else inl (EText "json")
                              | _ => inl (EText "json")
                              end;
     decode_object := table (map (fun e => (e.1.1, e.2)) events); decode_objects := no; decode_error := no; decode_chat := no;
     decode_chunk := no; decode_embeddings := no; encode_embedding := fun _ _ => inl (EText "json") |}.

#[export] Instance messages_json : MessagesJson :=
  {| decode_thinking _ := inl (EText "json"); decode_message := table [("asks", asks); ("tells", tells)]; encode_message _ := inl (EText "json") |}.

Lemma table_In {A : Type} (l : list (string * A)) s v : table l s = inr v -> In (s, v) l.
Proof.
  unfold table. destruct (List.find _ l) as [[k x]|] eqn:Ef; [|done]. intros [= <-]. apply find_some in Ef as [Hi He].
  by apply String.eqb_eq in He as <-.
Qed.

#[export] Instance laws : MessagesLaws.
Proof.
  constructor.
  - intros s v Hs. apply table_In in Hs. destruct Hs as [[= <- <-]|[[= <- <-]|[]]].
    + exists "null". done.
    + exists (js "{'city':'Oslo'}"). done.
  - intros body m Hm. apply table_In in Hm.
    assert (H1 : exists s, decode_value s = inr JNull) by by exists "null".
    assert (H2 : exists s, decode_value s = inr (JObject oslo)) by by exists (js "{'city':'Oslo'}").
    destruct Hm as [[= <- <-]|[[= <- <-]|[]]]; repeat constructor; done.
  - intros s t Hs _. cbn. by rewrite Hs.
Qed.

Definition question : ChatMessage := {| m_Role := "user"; m_Content := js "'Weather?'"; m_Name := ""; m_ToolCalls := []; m_ToolCallID := "" |}.
Definition lines : list string := "event: message_start" :: map (fun e => "data: " +:+ e.1.1) events.
End Weather.

#[local] Existing Instances Weather.json_types Weather.provider_json Weather.messages_json Weather.laws.

Lemma conversation_continues_witness :
  transformMessages ([Weather.question] ++ [answer Weather.ascii_only Weather.asks])
  = inr ([{| am_Role := "user"; am_Content := CText "Weather?" |}; {| am_Role := "assistant"; am_Content := CBlocks [Weather.call] |}], "").
Proof.
  refine (conversation_continues Weather.ascii_only [Weather.question] [{| am_Role := "user"; am_Content := CText "Weather?" |}] "" "asks" Weather.asks _ _ _).
  - reflexivity.
  - vm_compute. reflexivity.
  - intros H. discriminate H.
Defined.

(** The text beside the calls of an answer does not come back. *)
Example text_beside_calls_lost :
  answer_text Weather.asks.(ap_Content) = "Let me look."
  /\ transformMessages [answer Weather.ascii_only Weather.asks]
     = inr ([{| am_Role := "assistant"; am_Content := CBlocks [Weather.call] |}], "").
Proof. split; vm_compute; reflexivity. Qed.

(** The thinking, the events without content and the name of an event are passed over. *)
Lemma weather_lines : Forall2 line_of Weather.lines (None :: map (fun e => e.1.2) Weather.events).
Proof.
  assert (D : forall line s ev obj, TrimSpace line = "data: " +:+ s -> String.eqb s "[DONE]" = false -> decode_object s = inr obj -> carries obj ev ->
    line_of line (Some ev)) by (intros line s ev obj H1 H2%String.eqb_neq H3 H4; by exists s, obj).
  assert (N : forall line s obj, TrimPrefix "data: " (TrimSpace line) = s -> decode_object s = inr obj -> without_content obj -> line_of line None).
  { intros line s obj H1 H2 H3. right; right; right. intros o. rewrite H1, H2. by intros [= <-]. }
  assert (W : forall t, t <> "message_start" -> t <> "content_block_delta" -> t <> "message_delta" -> without_content (Weather.typed t []))
    by (intros t H1 H2 H3 t' [= <-]; done).
  unfold Weather.lines, Weather.events. cbn [map fst snd]. constructor; [right; left; vm_compute; reflexivity|].
  repeat lazymatch goal with |- Forall2 _ _ _ => constructor end; lazymatch goal with
    | |- line_of _ (Some _) => eapply D; [vm_compute; reflexivity|vm_compute; reflexivity|vm_compute; reflexivity|]; cbn;
        split_and?; try reflexivity; try discriminate; eexists; split_and!; reflexivity
    | |- line_of _ None => eapply N; [vm_compute; reflexivity|vm_compute; reflexivity|]
    end.
  - by apply W.
  - intros t [= <-]. split_and!; [done| |done]. intros _ d [= <-]. done.
  - by apply W.
Qed.

Lemma weather_stream : streams (None :: map (fun e => e.1.2) Weather.events) Weather.tells.
Proof.
  exists [None], [None; Some (EvText "Rain "); None; Some (EvText "in Oslo.")], [None].
  split_and!; [done|repeat constructor..|done].
Qed.

Lemma streamed_answer_witness :
  head (omap ParseStreamChunk Weather.lines) = Some (stream_chunk "msg_1" "claude-3-opus" "assistant" "" "")
  /\ streamed_text Weather.lines = "Rain in Oslo." /\ streamed_finish Weather.lines = "stop".
Proof.
  destruct (streamed_answer Weather.ascii_only _ _ _ weather_lines weather_stream) as (H1 & _ & H3).
  split; [exact H1|]. split; [vm_compute; reflexivity|]. exact (f_equal (List.hd "") (eq_sym H3)).
Defined.

(** A text with a control character is given to the client as what is no JSON. *)
Example control_character_unreadable :
  json_literal (answer Weather.ascii_only (Weather.message [Weather.text (String (ascii_of_nat 7) "")] "end_turn")).(m_Content) = None.
Proof. vm_compute. reflexivity. Qed.
