(* ===== verification/BuiltinProviders.v ===== *)
(** * The built-in providers ([providers/registry.go], [litellm_compat.go], and the packages of the OpenAI-like providers)

    What each OpenAI-like provider is configured with, and the registry of factories.
    The factories of the providers for Azure, Gemini, Bedrock, Vertex AI and Zhipu are
    parameters. *)
From Stdlib Require Import Ascii.
From S2P Require Import Prelude Float64 Errors ModelName Utf8 Url AuthTypes PluginPipeline ClientTypes Client ClientProofs ApiTypes ClientSetup ProviderBase ProviderTheorems OpenAILike.
From S2P Require OpenAI Anthropic ClientSetup ProviderTheorems.

(** ** The OpenAI-like providers *)

(** A provider with streaming and nothing else. *)
Definition plain_info (name baseURL : string) : Info :=
  {| info_Name := name; info_DefaultBaseURL := baseURL; info_APIKeyHeader := ""; info_APIKeyPrefix := ""; info_ChatEndpoint := "";
     info_EmbeddingEndpoint := ""; info_SupportsStreaming := true; info_SupportsEmbedding := false; info_ExtraHeaders := ∅;
     info_ModelPrefixes := [] |}.

Definition ai21_info : Info :=
  (plain_info "ai21" "https://api.ai21.com/studio/v1")<|info_ModelPrefixes := ["jamba-"; "j2-"]|>.
Definition anyscale_info : Info :=
  (plain_info "anyscale" "https://api.endpoints.anyscale.com/v1")<|info_ModelPrefixes := ["meta-llama/"; "mistralai/"; "codellama/"]|>.
Definition baichuan_info : Info :=
  (plain_info "baichuan" "https://api.baichuan-ai.com/v1")<|info_ModelPrefixes := ["Baichuan"]|>.
Definition cerebras_info : Info :=
  (plain_info "cerebras" "https://api.cerebras.ai/v1")<|info_ModelPrefixes := ["llama3.1-"]|>.
Definition cloudflare_info : Info :=
  (plain_info "cloudflare" "https://api.cloudflare.com/client/v4/accounts/{account_id}/ai/v1")<|info_ModelPrefixes := ["@cf/"; "@hf/"]|>.
Definition cohere_info : Info :=
  (plain_info "cohere" "https://api.cohere.ai/v2")<|info_ChatEndpoint := "/chat"|><|info_ModelPrefixes := ["command-"]|>.
Definition databricks_info : Info :=
  (plain_info "databricks" "")<|info_ChatEndpoint := "/serving-endpoints/{endpoint}/invocations"|><|info_ModelPrefixes := ["databricks-"]|>.
Definition deepinfra_info : Info :=
  (plain_info "deepinfra" "https://api.deepinfra.com/v1/openai")<|info_ModelPrefixes := ["meta-llama/"; "mistralai/"; "Qwen/"; "microsoft/"]|>.
Definition deepseek_info : Info := (plain_info "deepseek" "https://api.deepseek.com")<|info_ModelPrefixes := ["deepseek"]|>.
Definition fireworks_info : Info :=
  (plain_info "fireworks" "https://api.fireworks.ai/inference/v1")<|info_SupportsEmbedding := true|><|info_ModelPrefixes := ["accounts/fireworks/models/"]|>.
Definition github_info : Info :=
  (plain_info "github" "https://models.inference.ai.azure.com")<|info_ModelPrefixes := ["gpt-"; "o1-"; "Phi-"; "Llama-"; "Mistral-"]|>.
Definition groq_info : Info :=
  (plain_info "groq" "https://api.groq.com/openai/v1")<|info_ModelPrefixes := ["llama"; "mixtral"; "gemma"]|>.
Definition huggingface_info : Info :=
  (plain_info "huggingface" "https://api-inference.huggingface.co/v1")<|info_ModelPrefixes := ["meta-llama/"; "mistralai/"; "Qwen/"; "microsoft/"]|>.
Definition hunyuan_info : Info :=
  (plain_info "hunyuan" "https://api.hunyuan.cloud.tencent.com/v1")<|info_ModelPrefixes := ["hunyuan-"]|>.
Definition hyperbolic_info : Info :=
  (plain_info "hyperbolic" "https://api.hyperbolic.xyz/v1")<|info_ModelPrefixes := ["meta-llama/"; "Qwen/"; "deepseek-ai/"]|>.
Definition lambda_info : Info :=
  (plain_info "lambda" "https://api.lambdalabs.com/v1")<|info_ModelPrefixes := ["llama"; "hermes"]|>.
Definition lmstudio_info : Info := (plain_info "lmstudio" "http://localhost:1234/v1").
Definition minimax_info : Info := (plain_info "minimax" "https://api.minimax.chat/v1")<|info_ModelPrefixes := ["abab"]|>.
Definition mistral_info : Info :=
  (plain_info "mistral" "https://api.mistral.ai/v1")<|info_ModelPrefixes := ["mistral-"; "open-mistral"; "open-mixtral"; "codestral"]|>.
Definition moonshot_info : Info :=
  (plain_info "moonshot" "https://api.moonshot.cn/v1")<|info_ModelPrefixes := ["moonshot-"]|>.
Definition novita_info : Info :=
  (plain_info "novita" "https://api.novita.ai/v3/openai")<|info_ModelPrefixes := ["meta-llama/"; "mistralai/"; "Qwen/"]|>.
Definition nvidia_info : Info :=
  (plain_info "nvidia" "https://integrate.api.nvidia.com/v1")<|info_ModelPrefixes := ["nvidia/"; "meta/"; "mistralai/"]|>.
Definition ollama_info : Info :=
  (plain_info "ollama" "http://localhost:11434/v1")<|info_SupportsEmbedding := true|><|info_ModelPrefixes := ["llama"; "mistral"; "qwen"; "gemma"; "phi"]|>.
Definition openrouter_info : Info :=
  (plain_info "openrouter" "https://openrouter.ai/api/v1")<|info_ModelPrefixes := ["openai/"; "anthropic/"; "google/"; "meta-llama/"; "mistralai/"]|>.
Definition perplexity_info : Info :=
  (plain_info "perplexity" "https://api.perplexity.ai")<|info_ModelPrefixes := ["llama-3.1-sonar"; "pplx-"]|>.
Definition qwen_info : Info :=
  (plain_info "qwen" "https://dashscope.aliyuncs.com/compatible-mode/v1")<|info_ModelPrefixes := ["qwen-"]|>.
Definition replicate_info : Info :=
  (plain_info "replicate" "https://api.replicate.com/v1")<|info_ModelPrefixes := ["meta/"; "mistralai/"]|>.
Definition sambanova_info : Info :=
  (plain_info "sambanova" "https://api.sambanova.ai/v1")<|info_ModelPrefixes := ["Meta-Llama-"; "Qwen"]|>.
Definition siliconflow_info : Info :=
  (plain_info "siliconflow" "https://api.siliconflow.cn/v1")<|info_ModelPrefixes := ["Qwen/"; "deepseek-ai/"; "THUDM/"; "01-ai/"]|>.
Definition snowflake_info : Info :=
  (plain_info "snowflake" "")<|info_ModelPrefixes := ["snowflake-arctic"; "llama"; "mistral"]|>.
Definition stepfun_info : Info := (plain_info "stepfun" "https://api.stepfun.com/v1")<|info_ModelPrefixes := ["step-"]|>.
Definition together_info : Info :=
  (plain_info "together" "https://api.together.xyz/v1")<|info_SupportsEmbedding := true|><|info_ModelPrefixes := ["meta-llama/"; "mistralai/"; "Qwen/"; "codellama/"; "deepseek-ai/"]|>.
Definition vllm_info : Info := (plain_info "vllm" "http://localhost:8000/v1").
Definition volcengine_info : Info :=
  (plain_info "volcengine" "https://ark.cn-beijing.volces.com/api/v3")<|info_ModelPrefixes := ["doubao-"; "skylark-"]|>.
Definition watsonx_info : Info :=
  (plain_info "watsonx" "https://us-south.ml.cloud.ibm.com/ml/v1")<|info_ModelPrefixes := ["ibm/"; "meta-llama/"; "mistralai/"]|>.
Definition xai_info : Info := (plain_info "xai" "https://api.x.ai/v1")<|info_ModelPrefixes := ["grok-"]|>.
Definition yi_info : Info := (plain_info "yi" "https://api.lingyiwanwu.com/v1")<|info_ModelPrefixes := ["yi-"]|>.

Definition openai_like_info : Info := (plain_info "openai_like" "")<|info_SupportsEmbedding := true|>.

(** The names and base URLs of [litellmOpenAICompatDefaults]; nothing else is set. *)
Definition litellmOpenAICompatDefaults : list (string * string) :=
  [("aiml", "https://api.aimlapi.com/v1");
   ("aiohttp_openai", "https://api.openai.com/v1");
   ("amazon_nova", "https://api.nova.amazon.com/v1");
   ("azure_ai", "");
   ("baseten", "");
   ("bytez", "https://api.bytez.com/models/v2");
   ("clarifai", "https://api.clarifai.com/v2/ext/openai/v1");
   ("codestral", "https://codestral.mistral.ai/v1");
   ("cometapi", "https://api.cometapi.com/v1");
   ("compactifai", "https://api.compactif.ai/v1");
   ("dashscope", "https://dashscope.aliyuncs.com/compatible-mode/v1");
   ("datarobot", "");
   ("empower", "");
   ("friendliai", "");
   ("galadriel", "");
   ("gigachat", "");
   ("github_copilot", "https://api.githubcopilot.com");
   ("gradient_ai", "https://inference.do-ai.run");
   ("infinity", "");
   ("jina_ai", "https://api.jina.ai/v1");
   ("lemonade", "http://localhost:8000");
   ("llamafile", "http://127.0.0.1:8080/v1");
   ("meta_llama", "https://api.llama.com/v1");
   ("morph", "");
   ("nebius", "");
   ("nlp_cloud", "");
   ("nscale", "https://inference.api.nscale.com/v1");
   ("oobabooga", "");
   ("ovhcloud", "https://oai.endpoints.kepler.ai.cloud.ovh.net/v1");
   ("parallel_ai", "https://api.parallel.ai");
   ("predibase", "");
   ("ragflow", "http://localhost:9380");
   ("sagemaker", "");
   ("sap", "");
   ("triton", "");
   ("voyage", "https://api.voyageai.com/v1");
   ("xinference", "");
   ("zai", "https://api.z.ai")].

(** Streaming and embeddings are switched on. *)
Definition compat_info (name baseURL : string) : Info := (plain_info name baseURL)<|info_SupportsEmbedding := true|>.

(** The OpenAI-like types of [RegisterBuiltins]. *)
Definition builtin_infos : list (string * Info) :=
  [("cohere", cohere_info); ("mistral", mistral_info); ("groq", groq_info); ("cerebras", cerebras_info);
   ("sambanova", sambanova_info); ("fireworks", fireworks_info); ("together", together_info);
   ("openrouter", openrouter_info); ("deepinfra", deepinfra_info); ("huggingface", huggingface_info);
   ("replicate", replicate_info); ("anyscale", anyscale_info); ("deepseek", deepseek_info); ("perplexity", perplexity_info);
   ("xai", xai_info); ("ai21", ai21_info); ("hyperbolic", hyperbolic_info); ("lambda", lambda_info);
   ("novita", novita_info); ("nvidia", nvidia_info); ("qwen", qwen_info); ("moonshot", moonshot_info);
   ("baichuan", baichuan_info); ("hunyuan", hunyuan_info); ("volcengine", volcengine_info);
   ("siliconflow", siliconflow_info); ("yi", yi_info); ("stepfun", stepfun_info); ("minimax", minimax_info);
   ("ollama", ollama_info); ("lmstudio", lmstudio_info); ("vllm", vllm_info); ("databricks", databricks_info);
   ("snowflake", snowflake_info); ("watsonx", watsonx_info); ("cloudflare", cloudflare_info); ("github", github_info);
   ("openai_like", openai_like_info); ("lm_studio", lmstudio_info); ("together_ai", together_info);
   ("fireworks_ai", fireworks_info); ("lambda_ai", lambda_info); ("nvidia_nim", nvidia_info); ("hosted_vllm", vllm_info)].

(** ** The registry *)

Section Registry.
Context {E : Type} `{!Json} `{!ProviderJson} `{!Anthropic.MessagesJson}.
Context (unicode : string -> string) (IsPrint : N -> bool) (order : gmap string string -> list (string * string)).
Context (secret : string -> TokenSource E) (panics : E -> E * (go_error + Request)).

#[local] Abbreviation Factory := (ProviderSettings -> go_error + Provider E Request).

(** The factories that are not modelled, by the name of their package. *)
Context (azure gemini bedrock vertexai zhipu : Factory).

Definition like_factory (info : Info) : Factory := fun cfg =>
  match NewFromConfig unicode IsPrint secret info cfg with
  | inl err => inl err
  | inr p => inr (provider IsPrint order p)
  end.

Definition openai_factory : Factory := fun cfg =>
  match OpenAI.NewFromConfig unicode IsPrint secret cfg with
  | inl err => inl err
  | inr p => inr (OpenAI.provider IsPrint order p)
  end.

Definition anthropic_factory : Factory := fun cfg => inr (Anthropic.provider IsPrint order panics (Anthropic.NewFromConfig secret cfg)).

Definition Register (providerType : string) (factory : Factory) (registry : gmap string Factory) : gmap string Factory :=
  <[providerType := factory]> registry.

(** [fmt.Errorf] with the names in the order of [List]. *)
Definition Create (listed : gmap string Factory -> string) (cfg : ProviderSettings) (registry : gmap string Factory) :
    go_error + Provider E Request :=
  match registry !! cfg.(ps_Type) with
  | None => inl (EText ("unknown provider type: " +:+ cfg.(ps_Type) +:+ " (available: " +:+ listed registry +:+ ")"))
  | Some factory => factory cfg
  end.

(** A compatible provider does not replace one that is registered. *)
Definition registerLiteLLMOpenAICompat (registry : gmap string Factory) : gmap string Factory :=
  fold_left (fun r nb => match r !! nb.1 with Some _ => r | None => Register nb.1 (like_factory (compat_info nb.1 nb.2)) r end)
    litellmOpenAICompatDefaults registry.

Definition RegisterBuiltins : gmap string Factory :=
  let own := [("openai", openai_factory); ("anthropic", anthropic_factory); ("azure", azure); ("gemini", gemini); ("bedrock", bedrock);
              ("vertexai", vertexai); ("vertex_ai", vertexai); ("zhipu", zhipu)] in
  let like := map (fun ti => (ti.1, like_factory ti.2)) builtin_infos in
  registerLiteLLMOpenAICompat (fold_left (fun r tf => Register tf.1 tf.2 r) (own ++ like) ∅).

End Registry.

(** ** Which types there are *)

(** A factory of the registry by what it makes. *)
Inductive kind := KOpenAI | KAnthropic | KAzure | KGemini | KBedrock | KVertexAI | KZhipu | KLike (info : Info).

Definition kind_registry : gmap string kind :=
  let own := [("openai", KOpenAI); ("anthropic", KAnthropic); ("azure", KAzure); ("gemini", KGemini); ("bedrock", KBedrock);
              ("vertexai", KVertexAI); ("vertex_ai", KVertexAI); ("zhipu", KZhipu)] in
  let like := map (fun ti => (ti.1, KLike ti.2)) builtin_infos in
  fold_left (fun r nb => match r !! nb.1 with Some _ => r | None => <[nb.1 := KLike (compat_info nb.1 nb.2)]> r end)
    litellmOpenAICompatDefaults (fold_left (fun r tf => <[tf.1 := tf.2]> r) (own ++ like) ∅).

(** The types whose own base URL is on the same machine, and those that have none. *)
Definition local_types : list string := ["ollama"; "lmstudio"; "lm_studio"; "vllm"; "hosted_vllm"; "lemonade"; "llamafile"; "ragflow"].
Definition unset_types : list string :=
  ["openai_like"; "databricks"; "snowflake"; "azure_ai"; "baseten"; "datarobot"; "empower"; "friendliai"; "galadriel"; "gigachat"; "infinity"; "morph"; "nebius";
   "nlp_cloud"; "oobabooga"; "predibase"; "sagemaker"; "sap"; "triton"; "xinference"].

Definition listed (ty : string) (l : list string) : bool := existsb (String.eqb ty) l.

Section Types.
Context {E : Type} `{!Json} `{!ProviderJson} `{!Anthropic.MessagesJson}.
Context (unicode : string -> string) (IsPrint : N -> bool) (order : gmap string string -> list (string * string)).
Context (secret : string -> TokenSource E) (panics : E -> E * (go_error + Request)).
Context (azure gemini bedrock vertexai zhipu : ProviderSettings -> go_error + Provider E Request).

#[local] Abbreviation builtins := (RegisterBuiltins unicode IsPrint order secret panics azure gemini bedrock vertexai zhipu).

Definition factory_of (k : kind) : ProviderSettings -> go_error + Provider E Request :=
  match k with
  | KOpenAI => openai_factory unicode IsPrint order secret
  | KAnthropic => anthropic_factory IsPrint order secret panics
  | KAzure => azure | KGemini => gemini | KBedrock => bedrock | KVertexAI => vertexai | KZhipu => zhipu
  | KLike info => like_factory unicode IsPrint order secret info
  end.

Lemma register_kinds l (m : gmap string kind) :
  fold_left (fun r tf => Register tf.1 tf.2 r) (map (fun tk => (tk.1, factory_of tk.2)) l) (factory_of <$> m)
  = factory_of <$> fold_left (fun r tk => <[tk.1 := tk.2]> r) l m.
Proof. revert m. induction l as [|[t k] l IH]; intros m; [done|]. cbn. unfold Register. by rewrite <- fmap_insert, IH. Qed.

Lemma compat_kinds l (m : gmap string kind) :
  fold_left (fun r nb => match r !! nb.1 with Some _ => r | None => Register nb.1 (like_factory unicode IsPrint order secret (compat_info nb.1 nb.2)) r end)
    l (factory_of <$> m)
  = factory_of <$> fold_left (fun r nb => match r !! nb.1 with Some _ => r | None => <[nb.1 := KLike (compat_info nb.1 nb.2)]> r end) l m.
Proof.
  revert m. induction l as [|[n b] l IH]; intros m; [done|]. cbn [fold_left fst snd]. rewrite lookup_fmap.
  destruct (m !! n); cbn [fmap option_fmap option_map]; [apply IH|]. rewrite <- IH. unfold Register. by rewrite fmap_insert.
Qed.

Lemma builtins_kinds : builtins = factory_of <$> kind_registry.
Proof.
  unfold RegisterBuiltins, kind_registry, registerLiteLLMOpenAICompat. cbv zeta. rewrite <- compat_kinds, <- register_kinds, fmap_empty, map_app, map_map.
  reflexivity.
Qed.

Definition makes_ok (f : ProviderSettings -> go_error + Provider E Request) : Prop := forall cfg prov, f cfg = inr prov -> provider_ok prov.

Lemma read_answer_some {A : Type} (decode : string -> go_error + A) resp : read_answer decode resp <> inr None.
Proof. unfold read_answer. destruct (ReadLimitedBody _ _) as [body [err|]]; [done|]. by destruct (decode body). Qed.

Lemma like_ok info : makes_ok (like_factory unicode IsPrint order secret info).
Proof.
  intros cfg prov. unfold like_factory. destruct (NewFromConfig _ _ _ _ _); [done|]. intros [= <-]. split; intros resp; apply read_answer_some.
Qed.

Lemma openai_ok : makes_ok (openai_factory unicode IsPrint order secret).
Proof.
  intros cfg prov. unfold openai_factory. destruct (OpenAI.NewFromConfig _ _ _ _); [done|]. intros [= <-]. split; intros resp; apply read_answer_some.
Qed.

Lemma anthropic_ok : makes_ok (anthropic_factory IsPrint order secret panics).
Proof.
  intros cfg prov [= <-]. split; intros resp; [|done]. cbn. unfold Anthropic.ParseResponse.
  pose proof (read_answer_some Anthropic.decode_message resp) as Hs. by destruct (read_answer _ resp) as [|[m|]].
Qed.

(** Whether a factory makes a provider without a base URL of the configuration. *)
Definition ready (k : kind) : bool :=
  match k with
  | KLike info =>
      negb (String.eqb (TrimSpace info.(info_DefaultBaseURL)) "")
      && match ValidateBaseURL unicode IsPrint info.(info_DefaultBaseURL) false with None => true | Some _ => false end
  | _ => true
  end.

Definition modelled (k : kind) : bool := match k with KOpenAI | KAnthropic | KLike _ => true | _ => false end.

Lemma ready_types : forallb (fun tk => Bool.eqb (ready tk.2) (negb (listed tk.1 (local_types ++ unset_types)))) (map_to_list kind_registry) = true.
Proof. vm_compute. reflexivity. Qed.

Lemma forallb_lookup {A : Type} (f : string * A -> bool) (m : gmap string A) : forallb f (map_to_list m) = true ->
  forall k x, m !! k = Some x -> f (k, x) = true.
Proof. intros Hf k x Hx. rewrite forallb_forall in Hf. by apply Hf, list_elem_of_In, elem_of_map_to_list. Qed.

Lemma ready_type ty k : kind_registry !! ty = Some k -> ready k = negb (listed ty (local_types ++ unset_types)).
Proof. intros Hk. apply eqb_prop. exact (forallb_lookup _ _ ready_types ty k Hk). Qed.

Lemma factory_ready k cfg : modelled k = true -> cfg.(ps_BaseURL) = "" -> cfg.(ps_AllowPrivateBaseURL) = false ->
  if ready k then exists prov, factory_of k cfg = inr prov /\ prov.(SupportedModels) = cfg.(ps_Models) else exists err, factory_of k cfg = inl err.
Proof.
  intros Hm Hb Ha. destruct k as [| | | | | | |info]; try done; cbn [factory_of ready].
  - unfold openai_factory, OpenAI.NewFromConfig. rewrite Hb, Ha.
    destruct cfg.(ps_TokenSource); cbn [app fold_left OpenAI.New]; (destruct (ValidateBaseURL _ _ _ _) eqn:Ev; [vm_compute in Ev; done|]; eexists; split; reflexivity).
  - eexists. split; [done|]. cbn. by destruct cfg.(ps_TokenSource).
  - unfold like_factory, NewFromConfig. rewrite Hb, Ha.
    destruct cfg.(ps_TokenSource);
      (match goal with |- context [lk_baseURL ?p] => assert (lk_baseURL p = info.(info_DefaultBaseURL)) as -> by reflexivity end;
       destruct (String.eqb (TrimSpace info.(info_DefaultBaseURL)) ""); cbn [negb andb]; [by eexists|];
       destruct (ValidateBaseURL _ _ _ _); [by eexists|]; eexists; split; reflexivity).
Qed.

End Types.

(** Every built-in type makes providers that answer.  If the factories for Azure,
    Gemini, Bedrock, Vertex AI and Zhipu make providers that give a response whenever
    they give no error, so does every factory of the registry.  A configuration without
    a base URL and without the permission for private hosts is accepted by the types
    for OpenAI, for Anthropic and for what speaks the API of OpenAI, with the models of
    the configuration, except by the types that have no base URL of their own and by
    those whose own base URL is on the same machine, which refuse it. *)
Theorem builtin_types {E : Type} `{!Json} `{!ProviderJson} `{!Anthropic.MessagesJson} unicode IsPrint order (secret : string -> TokenSource E) panics
    azure gemini bedrock vertexai zhipu :
  makes_ok azure -> makes_ok gemini -> makes_ok bedrock -> makes_ok vertexai -> makes_ok zhipu ->
  let registry := RegisterBuiltins unicode IsPrint order secret panics azure gemini bedrock vertexai zhipu in
  ClientSetup.factories_ok registry
  /\ forall names cfg k, kind_registry !! cfg.(ps_Type) = Some k -> modelled k = true ->
       cfg.(ps_BaseURL) = "" -> cfg.(ps_AllowPrivateBaseURL) = false ->
       if listed cfg.(ps_Type) (local_types ++ unset_types)
       then exists err, Create names cfg registry = inl err
       else exists prov, Create names cfg registry = inr prov /\ prov.(SupportedModels) = cfg.(ps_Models).
Proof.
  intros Haz Hge Hbe Hve Hzh registry. unfold registry. rewrite builtins_kinds. split.
  - intros ty f cfg prov Hf Hp. rewrite lookup_fmap in Hf. destruct (kind_registry !! ty) as [k|]; [|done]. injection Hf as <-.
    destruct k; [eapply openai_ok|eapply anthropic_ok|eapply Haz|eapply Hge|eapply Hbe|eapply Hve|eapply Hzh|eapply like_ok]; exact Hp.
  - intros names cfg k Hk Hm Hb Ha. unfold Create. rewrite lookup_fmap, Hk. cbn [fmap option_fmap option_map].
    pose proof (factory_ready unicode IsPrint order secret panics azure gemini bedrock vertexai zhipu k cfg Hm Hb Ha) as Hr.
    rewrite (ready_type unicode IsPrint _ _ Hk) in Hr. by destruct (listed _ _).
Qed.

(** ** Examples *)

#[local] Existing Instances ProviderTheorems.Weather.json_types ProviderTheorems.Weather.provider_json ProviderTheorems.Weather.messages_json.

Module Samples.
Definition settings (ty baseURL : string) : ProviderSettings :=
  {| ps_Name := "main"; ps_Type := ty; ps_APIKey := "k"; ps_TokenSource := None; ps_BaseURL := baseURL; ps_AllowPrivateBaseURL := false;
     ps_Models := ["m"]; ps_MaxConcurrent := 1; ps_Timeout := 0; ps_Headers := ∅ |}.
Definition none (_ : ProviderSettings) : go_error + Provider unit Request := inl (EText "not here").
Definition secret (_ : string) : TokenSource unit := StaticTokenSource "t".
Definition panics (e : unit) : unit * (go_error + Request) := (e, inl (EText "nil")).
Definition ascii_only (_ : N) : bool := false.
Definition same (s : string) : string := s.
End Samples.

Lemma builtin_types_witness :
  let registry := RegisterBuiltins Samples.same Samples.ascii_only map_to_list Samples.secret Samples.panics
                    Samples.none Samples.none Samples.none Samples.none Samples.none in
  ClientSetup.factories_ok registry
  /\ (exists prov, Create (fun _ => "") (Samples.settings "groq" "") registry = inr prov /\ prov.(SupportedModels) = ["m"])
  /\ (exists err, Create (fun _ => "") (Samples.settings "ollama" "") registry = inl err).
Proof.
  intros registry. assert (Hn : makes_ok Samples.none) by by intros cfg prov.
  destruct (builtin_types Samples.same Samples.ascii_only map_to_list Samples.secret Samples.panics
              Samples.none Samples.none Samples.none Samples.none Samples.none Hn Hn Hn Hn Hn) as [H1 H2].
  split; [exact H1|]. split.
  - refine (H2 (fun _ => "") (Samples.settings "groq" "") (KLike groq_info) _ eq_refl eq_refl eq_refl). vm_compute. reflexivity.
  - refine (H2 (fun _ => "") (Samples.settings "ollama" "") (KLike ollama_info) _ eq_refl eq_refl eq_refl). vm_compute. reflexivity.
Defined.

Definition base_of {E : Type} (r : go_error + OpenAI.OpenAIProvider E) : string := match r with inr p => p.(OpenAI.oa_baseURL) | inl _ => "" end.

Lemma base_url_public_witness :
  exists u, Parse Samples.ascii_only "http://8.8.4.4:8080/v1" = inr u /\ Hostname u = dotted 8 8 4 4 /\ reserved 8 8 4 4 = false.
Proof.
  assert (Hc : exists p, OpenAI.NewFromConfig Samples.same Samples.ascii_only Samples.secret (Samples.settings "openai" "http://8.8.4.4:8080/v1") = inr p
                 /\ p.(OpenAI.oa_baseURL) = "http://8.8.4.4:8080/v1").
  { eexists. split; [vm_compute; reflexivity|reflexivity]. }
  destruct (base_url_public Samples.same Samples.ascii_only Samples.secret (Samples.settings "openai" "http://8.8.4.4:8080/v1") _ eq_refl (or_introl Hc))
    as (u & Hu & _ & _ & _ & _ & _ & _ & Hr & _).
  assert (Hh : Hostname u = dotted 8 8 4 4) by (vm_compute in Hu; injection Hu as <-; vm_compute; reflexivity).
  exists u. split; [|split; [exact Hh|exact (Hr 8%N 8%N 4%N 4%N eq_refl eq_refl eq_refl eq_refl Hh)]]. rewrite <- Hu. vm_compute. reflexivity.
Defined.

(** Names and addresses of the same machine that are accepted: a final dot, a zone, a
    number below one's own network. *)
Example local_hosts_accepted :
  map (fun raw => ValidateBaseURL Samples.same Samples.ascii_only raw false)
    ["http://localhost./v1"; "http://[::1%25lo]/v1"; "http://0.0.0.1/v1"; "http://2130706433/v1"] = [None; None; None; None].
Proof. vm_compute. reflexivity. Qed.

(** The provider for Anthropic takes any base URL. *)
Example anthropic_unchecked :
  (Anthropic.NewFromConfig Samples.secret (Samples.settings "anthropic" "http://127.0.0.1:8080")).(Anthropic.an_baseURL) = "http://127.0.0.1:8080"
  /\ ValidateBaseURL Samples.same Samples.ascii_only "http://127.0.0.1:8080" false <> None.
Proof. split; [reflexivity|vm_compute; discriminate]. Qed.

(** ** Errors *)

(** What an error answer becomes: an error of the provider, with the message of the
    answer if there is one; the deployment is put in cooldown by every status but 400,
    and the error may be tried again for five of them. *)
Theorem upstream_errors_mapped `{!ProviderJson} name status body :
  exists e, map_error name status body = ELLM e /\ e.(EProvider) = name
  /\ (forall m, decode_error body = inr m -> m <> "" -> e.(Message) = m)
  /\ IsCooldownRequired e.(StatusCode) = negb (status =? 400)
  /\ (e.(Retryable) = true <-> status ∈ [429; 408; 504; 503; 502]).
Proof.
  unfold map_error. eexists. split; [done|]. cbv zeta.
  destruct (Z.eqb_spec status 401), (Z.eqb_spec status 429), (Z.eqb_spec status 400), (Z.eqb_spec status 404), (Z.eqb_spec status 408),
    (Z.eqb_spec status 504), (Z.eqb_spec status 503), (Z.eqb_spec status 502); try lia; subst; cbn;
    (split; [done|]; split; [intros m -> Hm; by destruct (String.eqb_spec m "")|]; split; [done|]; set_solver).
Qed.
