(* ===== verification/ImageSize.v ===== *)
(** * The size of images ([internal/tokenizer/tokenizer.go], the part on images)

    Images are given as base64 text; their size is read from the headers of the PNG,
    GIF, JPEG and WebP formats.  Reading a byte that is not there panics: such a result
    is [None]. *)
From Stdlib Require Import Ascii SpecFloat.
From S2P Require Import Prelude Float64 Float64Round Errors ModelName Utf8 Url.

#[local] Abbreviation explode := String.list_ascii_of_string.
#[local] Abbreviation implode := String.string_of_list_ascii.

Definition baseImageTokenCount : Z := 85.
Definition defaultImageWidth : Z := 300.
Definition defaultImageHeight : Z := 300.
Definition maxShortSideHighRes : Z := 768.
Definition maxLongSideHighRes : Z := 2000.
Definition maxTileWidth : Z := 512.
Definition maxTileHeight : Z := 512.

(** ** Bytes *)

Definition len (data : list ascii) : Z := Z.of_nat (length data).

(** [data[i]] *)
Definition at_ (data : list ascii) (i : Z) : option Z :=
  if 0 <=? i then (fun c => Z.of_N (code c)) <$> data !! Z.to_nat i else None.

(** [string(data[i:j])] *)
Definition slice (data : list ascii) (i j : Z) : option string :=
  if (0 <=? i) && (i <=? j) && (j <=? len data) then Some (implode (take (Z.to_nat (j - i)) (drop (Z.to_nat i) data))) else None.

(** Numbers of two and four bytes from an index on. *)
Definition be16 (data : list ascii) (i : Z) : option Z :=
  match at_ data i, at_ data (i + 1) with Some a, Some b => Some (a * 256 + b) | _, _ => None end.
Definition le16 (data : list ascii) (i : Z) : option Z :=
  match at_ data i, at_ data (i + 1) with Some a, Some b => Some (a + b * 256) | _, _ => None end.
Definition be32 (data : list ascii) (i : Z) : option Z :=
  match be16 data i, be16 data (i + 2) with Some a, Some b => Some (a * 65536 + b) | _, _ => None end.
Definition le32 (data : list ascii) (i : Z) : option Z :=
  match le16 data i, le16 data (i + 2) with Some a, Some b => Some (a + b * 65536) | _, _ => None end.
Definition le24 (data : list ascii) (i : Z) : option Z :=
  match le16 data i, at_ data (i + 2) with Some a, Some b => Some (a + b * 65536) | _, _ => None end.

#[local] Notation "'get' x := m 'in' k" := (match m with Some x => k | None => None end)
  (at level 10, x name, m at level 100, k at level 200).

(** ** Formats *)

(** What is read: a panic, or perhaps a size. *)
Definition reading : Type := option (option (Z * Z)).

(** The first index from [i] on that has no 0xff. *)
Fixpoint skip_ff (fuel : nat) (data : list ascii) (i : Z) : option Z :=
  match fuel with
  | O => None
  | S fuel' =>
      if i <? len data then get b := at_ data i in if b =? 0xff then skip_ff fuel' data (i + 1) else Some i
      else Some i
  end.

Definition start_of_frame (marker : Z) : bool :=
  (0xc0 <=? marker) && (marker <=? 0xcf) && negb (marker =? 0xc4) && negb (marker =? 0xc8) && negb (marker =? 0xcc).

(** The loop of [parseJPEGDimensions]. *)
Fixpoint jpeg_from (fuel : nat) (data : list ascii) (i : Z) : reading :=
  match fuel with
  | O => None
  | S fuel' =>
      if negb (i + 1 <? len data) then Some None
      else
        get b := at_ data i in
        if negb (b =? 0xff) then jpeg_from fuel' data (i + 1)
        else
          get j := skip_ff fuel data i in
          if len data <=? j then Some None
          else
            get marker := at_ data j in
            let i := j + 1 in
            if (marker =? 0xd9) || (marker =? 0xda) then Some None
            else if len data <=? i + 1 then Some None
            else
              get segmentLen := be16 data i in
              if (segmentLen <? 2) || (len data <? i + segmentLen) then Some None
              else if start_of_frame marker then
                if len data <? i + 7 then Some None
                else get height := be16 data (i + 3) in get width := be16 data (i + 5) in Some (Some (width, height))
              else jpeg_from fuel' data (i + segmentLen)
  end.

(** Every turn moves on, so one turn for each byte is enough. *)
Definition parseJPEGDimensions (data : list ascii) : reading :=
  if len data <? 4 then Some None else jpeg_from (S (length data)) data 2.

Definition parseWebPDimensions (data : list ascii) : reading :=
  if len data <? 30 then Some None
  else
    get kind := slice data 12 16 in
    if String.eqb kind "VP8X" then
      get width := le24 data 24 in get height := le24 data 27 in Some (Some (width + 1, height + 1))
    else if String.eqb kind "VP8 " then
      get width := le16 data 26 in get height := le16 data 28 in Some (Some (Z.land width 0x3fff, Z.land height 0x3fff))
    else if String.eqb kind "VP8L" then
      get bits := le32 data 21 in Some (Some (Z.land bits 0x3fff + 1, Z.land (Z.shiftr bits 14) 0x3fff + 1))
    else Some None.

Definition parseImageDimensions (data : list ascii) : reading :=
  if len data <? 10 then Some None
  else
    get b0 := at_ data 0 in get b1 := at_ data 1 in get b2 := at_ data 2 in get b3 := at_ data 3 in
    get head := slice data 0 4 in get b5 := at_ data 5 in
    if (b0 =? 0x89) && (b1 =? 0x50) && (b2 =? 0x4e) && (b3 =? 0x47) then
      if len data <? 24 then Some None
      else get width := be32 data 16 in get height := be32 data 20 in Some (Some (width, height))
    else if String.eqb head "GIF8" && (b5 =? 97) then
      get width := le16 data 6 in get height := le16 data 8 in Some (Some (width, height))
    else if (b0 =? 0xff) && (b1 =? 0xd8) && (b2 =? 0xff) then parseJPEGDimensions data
    else if 12 <=? len data then
      get form := slice data 8 12 in
      if String.eqb head "RIFF" && String.eqb form "WEBP" then parseWebPDimensions data else Some None
    else Some None.

(** ** Base64 ([base64.StdEncoding]) *)

Definition base64_value (c : ascii) : option N :=
  if between 65 90 c then Some (code c - 65)%N
  else if between 97 122 c then Some (code c - 71)%N
  else if digit c then Some (code c + 4)%N
  else if Ascii.eqb c "+" then Some 62%N
  else if Ascii.eqb c "/" then Some 63%N
  else None.

Definition byte_at (n shift : N) : ascii := ascii_of_N (N.modulo (N.shiftr n shift) 256).

(** Groups of four; the last one may end in padding. *)
Fixpoint base64_groups (l : list ascii) : option (list ascii) :=
  match l with
  | [] => Some []
  | a :: b :: c :: d :: l' =>
      match base64_value a, base64_value b, base64_value c, base64_value d with
      | Some x, Some y, Some z, Some w =>
          let n := (((x * 64 + y) * 64 + z) * 64 + w)%N in
          match base64_groups l' with Some t => Some (byte_at n 16 :: byte_at n 8 :: byte_at n 0 :: t) | None => None end
      | Some x, Some y, Some z, None =>
          let n := (((x * 64 + y) * 64 + z) * 64)%N in
          if Ascii.eqb d "=" && bool_decide (l' = []) then Some [byte_at n 16; byte_at n 8] else None
      | Some x, Some y, None, None =>
          let n := ((x * 64 + y) * 4096)%N in
          if Ascii.eqb c "=" && Ascii.eqb d "=" && bool_decide (l' = []) then Some [byte_at n 16] else None
      | _, _, _, _ => None
      end
  | _ => None
  end.

(** Line ends are skipped. *)
Definition base64_decode (s : string) : option (list ascii) :=
  base64_groups (List.filter (fun c => negb (code c =? 10)%N && negb (code c =? 13)%N) (explode s)).

(** ** Sizes and tokens *)

(** [None] for an error: an address, or text that is not in base64. *)
Definition loadImageData (data : string) : option (list ascii) :=
  if HasPrefix "http://" data || HasPrefix "https://" data then None
  else if HasPrefix "data:" data then
    match cut "," (explode data) with Some (_, rest) => base64_decode (implode rest) | None => None end
  else base64_decode data.

Definition getImageDimensions (data : string) : option (Z * Z) :=
  match loadImageData data with
  | None | Some [] => Some (defaultImageWidth, defaultImageHeight)
  | Some raw => match parseImageDimensions raw with
                | None => None
                | Some size => Some (default (defaultImageWidth, defaultImageHeight) size)
                end
  end.

Definition resizeImageHighRes (width height : Z) : Z * Z :=
  if (width <=? maxShortSideHighRes) && (height <=? maxShortSideHighRes) then (width, height)
  else if (width =? 0) || (height =? 0) then (width, height)
  else
    let aspectRatio := (f64_of_Z width ⊘ f64_of_Z height) in
    if width <=? height then
      let resizedWidth := maxShortSideHighRes in
      let resizedHeight := int_of_f64 (f64_of_Z resizedWidth ⊘ aspectRatio) in
      if maxLongSideHighRes <? resizedHeight then (int_of_f64 (f64_of_Z maxLongSideHighRes ⊠ aspectRatio), maxLongSideHighRes)
      else (resizedWidth, resizedHeight)
    else
      let resizedHeight := maxShortSideHighRes in
      let resizedWidth := int_of_f64 (f64_of_Z resizedHeight ⊠ aspectRatio) in
      if maxLongSideHighRes <? resizedWidth then (maxLongSideHighRes, int_of_f64 (f64_of_Z maxLongSideHighRes ⊘ aspectRatio))
      else (resizedWidth, resizedHeight).

Definition calculateTilesNeeded (resizedWidth resizedHeight tileWidth tileHeight : Z) : Z :=
  if (tileWidth <=? 0) || (tileHeight <=? 0) then 0
  else
    let tilesAcross := (resizedWidth + tileWidth - 1) /! tileWidth in
    let tilesDown := (resizedHeight + tileHeight - 1) /! tileHeight in
    if (tilesAcross =? 0) || (tilesDown =? 0) then 0 else tilesAcross * tilesDown.

Definition calculateImageTokens (data detail : string) : option Z :=
  if String.eqb data "" then Some 0
  else if negb (String.eqb detail "high") then Some baseImageTokenCount
  else
    get size := getImageDimensions data in
    let (w, h) := resizeImageHighRes size.1 size.2 in
    Some (baseImageTokenCount + baseImageTokenCount * 2 * calculateTilesNeeded w h maxTileWidth maxTileHeight).

(** * Images are counted safely

    The size of an image is read without leaving its bytes, and the count of tokens is
    bounded whatever the size says. *)

(** ** Reading in range *)

Lemma at_in data i : 0 <= i < len data -> exists b, at_ data i = Some b /\ 0 <= b < 256.
Proof.
  intros Hi. unfold at_. rewrite (proj2 (Z.leb_le 0 i)) by lia.
  destruct (lookup_lt_is_Some_2 data (Z.to_nat i)) as [c ->]; [unfold len in Hi; lia|]. cbn. eexists. split; [done|].
  unfold code. pose proof (N_ascii_bounded c). lia.
Qed.

Lemma slice_in data i j : 0 <= i <= j -> j <= len data -> is_Some (slice data i j).
Proof. intros Hi Hj. unfold slice. rewrite !(proj2 (Z.leb_le _ _)) by lia. by eexists. Qed.

Lemma be16_in data i : 0 <= i -> i + 1 < len data -> exists n, be16 data i = Some n /\ 0 <= n < 65536.
Proof.
  intros Hi Hl. destruct (at_in data i) as (a & Ea & Ha); [lia|]. destruct (at_in data (i + 1)) as (b & Eb & Hb); [lia|].
  unfold be16. rewrite Ea, Eb. eexists. split; [done|]. lia.
Qed.

Lemma le16_in data i : 0 <= i -> i + 1 < len data -> exists n, le16 data i = Some n /\ 0 <= n < 65536.
Proof.
  intros Hi Hl. destruct (at_in data i) as (a & Ea & Ha); [lia|]. destruct (at_in data (i + 1)) as (b & Eb & Hb); [lia|].
  unfold le16. rewrite Ea, Eb. eexists. split; [done|]. lia.
Qed.

Lemma be32_in data i : 0 <= i -> i + 3 < len data -> exists n, be32 data i = Some n /\ 0 <= n < 2 ^ 32.
Proof.
  intros Hi Hl. destruct (be16_in data i) as (a & Ea & Ha); [lia..|]. destruct (be16_in data (i + 2)) as (b & Eb & Hb); [lia..|].
  unfold be32. rewrite Ea, Eb. eexists. split; [done|]. lia.
Qed.

Lemma le32_in data i : 0 <= i -> i + 3 < len data -> exists n, le32 data i = Some n /\ 0 <= n < 2 ^ 32.
Proof.
  intros Hi Hl. destruct (le16_in data i) as (a & Ea & Ha); [lia..|]. destruct (le16_in data (i + 2)) as (b & Eb & Hb); [lia..|].
  unfold le32. rewrite Ea, Eb. eexists. split; [done|]. lia.
Qed.

Lemma le24_in data i : 0 <= i -> i + 2 < len data -> exists n, le24 data i = Some n /\ 0 <= n < 2 ^ 24.
Proof.
  intros Hi Hl. destruct (le16_in data i) as (a & Ea & Ha); [lia..|]. destruct (at_in data (i + 2)) as (b & Eb & Hb); [lia..|].
  unfold le24. rewrite Ea, Eb. eexists. split; [done|]. lia.
Qed.

Lemma skip_ff_in fuel data i : (0 < fuel)%nat -> 0 <= i -> len data - i < Z.of_nat fuel -> exists j, skip_ff fuel data i = Some j /\ i <= j.
Proof.
  revert i. induction fuel as [|fuel IH]; intros i Hp Hi Hf; [lia|].
  cbn [skip_ff]. destruct (Z.ltb_spec i (len data)) as [Hl|Hl]; [|exists i; split; [done|lia]].
  destruct (at_in data i) as (b & -> & _); [lia|]. destruct (b =? 0xff); [|exists i; split; [done|lia]].
  destruct (IH (i + 1)) as (j & -> & Hj); [lia..|]. exists j. split; [done|lia].
Qed.

(** A reading that neither panics nor gives a size out of range. *)
Definition sound (r : reading) : Prop :=
  exists size, r = Some size /\ match size with Some (w, h) => 0 <= w < 2 ^ 32 /\ 0 <= h < 2 ^ 32 | None => True end.

Lemma sound_none : sound (Some None).
Proof. by exists None. Qed.

Lemma sound_size w h : 0 <= w < 2 ^ 32 -> 0 <= h < 2 ^ 32 -> sound (Some (Some (w, h))).
Proof. intros Hw Hh. by exists (Some (w, h)). Qed.

#[local] Hint Resolve sound_none : core.

(** The bytes read in turn; each case moves on, so the fuel is enough. *)
Lemma jpeg_sound fuel data i : (0 < fuel)%nat -> 0 <= i -> len data - i < Z.of_nat fuel -> sound (jpeg_from fuel data i).
Proof.
  revert i. induction fuel as [|fuel IH]; intros i Hp Hi Hf; [lia|]. cbn [jpeg_from].
  destruct (Z.ltb_spec (i + 1) (len data)) as [Hl|]; [|done]. cbn [negb].
  destruct (at_in data i) as (b & -> & _); [lia|]. destruct (b =? 0xff); cbn [negb]; [|apply IH; lia].
  destruct (skip_ff_in (S fuel) data i) as (j & -> & Hj); [lia..|]. destruct (Z.leb_spec (len data) j) as [|Hjl]; [done|].
  destruct (at_in data j) as (marker & -> & _); [lia|]. destruct (_ || _); [done|].
  destruct (Z.leb_spec (len data) (j + 1 + 1)) as [|Hs]; [done|].
  destruct (be16_in data (j + 1)) as (seg & -> & Hseg); [lia..|].
  destruct (Z.ltb_spec seg 2), (Z.ltb_spec (len data) (j + 1 + seg)); cbn [orb]; [done..|].
  destruct (start_of_frame marker); [|apply IH; lia]. destruct (Z.ltb_spec (len data) (j + 1 + 7)) as [|H7]; [done|].
  destruct (be16_in data (j + 1 + 3)) as (h & -> & Hh); [lia..|]. destruct (be16_in data (j + 1 + 5)) as (w & -> & Hw); [lia..|].
  apply sound_size; lia.
Qed.

Lemma land_mask z : 0 <= Z.land z 0x3fff < 2 ^ 14.
Proof. change 0x3fff with (Z.ones 14). rewrite Z.land_ones by lia. apply Z.mod_pos_bound. lia. Qed.

Lemma webp_sound data : sound (parseWebPDimensions data).
Proof.
  unfold parseWebPDimensions. destruct (Z.ltb_spec (len data) 30) as [|Hl]; [done|].
  destruct (slice_in data 12 16) as [kind ->]; [lia..|]. destruct (String.eqb kind "VP8X").
  { destruct (le24_in data 24) as (w & -> & Hw); [lia..|]. destruct (le24_in data 27) as (h & -> & Hh); [lia..|]. apply sound_size; lia. }
  destruct (String.eqb kind "VP8 ").
  { destruct (le16_in data 26) as (w & -> & _); [lia..|]. destruct (le16_in data 28) as (h & -> & _); [lia..|].
    pose proof (land_mask w). pose proof (land_mask h). apply sound_size; lia. }
  destruct (String.eqb kind "VP8L"); [|done]. destruct (le32_in data 21) as (bits & -> & _); [lia..|].
  pose proof (land_mask bits). pose proof (land_mask (Z.shiftr bits 14)). apply sound_size; lia.
Qed.

Lemma dimensions_sound data : sound (parseImageDimensions data).
Proof.
  unfold parseImageDimensions. destruct (Z.ltb_spec (len data) 10) as [|Hl]; [done|].
  destruct (at_in data 0) as (b0 & -> & _); [lia|]. destruct (at_in data 1) as (b1 & -> & _); [lia|].
  destruct (at_in data 2) as (b2 & -> & _); [lia|]. destruct (at_in data 3) as (b3 & -> & _); [lia|].
  destruct (slice_in data 0 4) as [head ->]; [lia..|]. destruct (at_in data 5) as (b5 & -> & _); [lia|].
  destruct (_ && _ && _ && _).
  { destruct (Z.ltb_spec (len data) 24) as [|H24]; [done|].
    destruct (be32_in data 16) as (w & -> & Hw); [lia..|]. destruct (be32_in data 20) as (h & -> & Hh); [lia..|]. by apply sound_size. }
  destruct (String.eqb head "GIF8" && _).
  { destruct (le16_in data 6) as (w & -> & Hw); [lia..|]. destruct (le16_in data 8) as (h & -> & Hh); [lia..|]. apply sound_size; lia. }
  destruct (_ && _ && _).
  { unfold parseJPEGDimensions. destruct (Z.ltb_spec (len data) 4); [done|]. apply jpeg_sound; unfold len; lia. }
  destruct (Z.leb_spec 12 (len data)) as [H12|]; [|done]. destruct (slice_in data 8 12) as [form ->]; [lia..|].
  destruct (_ && _); [apply webp_sound|done].
Qed.

(** ** Quotients and products of sizes *)

(** The bounds of a quotient by an integer above and by a power of two below. *)
Lemma quotient_exp mx ex my ey b : 0 <= b -> -1074 <= ex -> -1074 <= ey ->
  scaled (Z.pos mx) ex <= scaled (Z.pos my * 2 ^ b) ey -> Zdigits2 (Z.pos mx) + ex - (Zdigits2 (Z.pos my) + ey) <= b + 1.
Proof.
  intros Hb Hx Hy Hle. unfold scaled in Hle.
  pose proof (Zdigits2_bounds (Z.pos mx) eq_refl) as [Lx _]. pose proof (Zdigits2_bounds (Z.pos my) eq_refl) as [_ Uy].
  pose proof (Zdigits2_pos (Z.pos mx) eq_refl). pose proof (Zdigits2_pos (Z.pos my) eq_refl).
  set (dx := Zdigits2 (Z.pos mx)) in *. set (dy := Zdigits2 (Z.pos my)) in *. apply Z.nlt_ge. intros Hc.
  assert (Hlt : Z.pos my * 2 ^ b * 2 ^ (ey + 4000) < 2 ^ (dy + b + (ey + 4000))).
  { rewrite (Z.pow_add_r 2 (dy + b)), (Z.pow_add_r 2 dy b) by lia. pose proof (pow2_pos b Hb). pose proof (pow2_pos (ey + 4000) ltac:(lia)). nia. }
  assert (Hge : 2 ^ (dx - 1 + (ex + 4000)) <= Z.pos mx * 2 ^ (ex + 4000)).
  { rewrite (Z.pow_add_r 2 (dx - 1)) by lia. pose proof (pow2_pos (ex + 4000) ltac:(lia)). nia. }
  assert (2 ^ (dy + b + (ey + 4000)) <= 2 ^ (dx - 1 + (ex + 4000))) by (apply Z.pow_le_mono_r; lia). lia.
Qed.

Lemma scaled_mul m n e : scaled (m * n) e = m * scaled n e.
Proof. unfold scaled. ring. Qed.

(** A quotient is at most an integer that the exact one does not exceed. *)
Lemma fdiv_le_Z mx ex my ey c : valid (S754_finite false mx ex) -> valid (S754_finite false my ey) -> 0 < c <= 2 ^ 50 ->
  scaled (Z.pos mx) ex <= c * scaled (Z.pos my) ey -> fle (S754_finite false mx ex ⊘ S754_finite false my ey) (f64_of_Z c).
Proof.
  intros Vx Vy Hc Hle. destruct (f64_of_Z_exact c) as [Fc Ec]; [lia|].
  destruct (fdiv_rounds_pos mx ex my ey Vx Vy) as (q & e & s & r & R & D & Hr & Hq & Hs & Es & He & Hf).
  apply valid_exp in Vx as Ex, Vy as Ey. apply (rounds_hi _ _ _ R); [apply f64_of_Z_valid|done|]. rewrite Ec.
  assert (Hd : Zdigits2 (Z.pos mx) + ex - (Zdigits2 (Z.pos my) + ey) <= 51).
  { apply (quotient_exp mx ex my ey 50); [lia..|]. etrans; [exact Hle|]. rewrite (Z.mul_comm (Z.pos my)), scaled_mul.
    apply Z.mul_le_mono_nonneg_r; [|lia]. pose proof (scaled_pos (Z.pos my) ey ltac:(lia) eq_refl). lia. }
  assert (Hneg : e <= 0) by (rewrite fexp_eq in Hf; lia).
  replace (scaled c 0) with (scaled (c * 2 ^ (- e)) e) by (rewrite <- scaled_shift by lia; f_equal; lia). apply scaled_le; [lia|].
  assert (Z.pos mx * 2 ^ s <= Z.pos my * (c * 2 ^ (- e))).
  { replace ex with (ey + e + s) in Hle by lia. rewrite scaled_shift in Hle by lia.
    replace (c * scaled (Z.pos my) ey) with (scaled (Z.pos my * (c * 2 ^ (- e))) (ey + e)) in Hle; [by apply scaled_le in Hle; [|lia]|].
    replace ey with (ey + e + - e) at 2 by lia. rewrite (scaled_shift (Z.pos my)) by lia. rewrite <- scaled_mul. f_equal. ring. }
  destruct (Z.eqb_spec r 0); nia.
Qed.

(** The float [2^-k]. *)
Definition half_pow (k : Z) : f64 := S754_finite false (2 ^ 52) (- k - 52).

Lemma half_pow_valid k : 0 <= k <= 40 -> valid (half_pow k) /\ value (half_pow k) = scaled 1 (- k).
Proof.
  intros Hk. split.
  - apply bounded_grid. split; [|lia]. unfold grid. split_and!; lia.
  - cbn [value half_pow]. replace (- k) with (- k - 52 + 52) at 2 by lia. rewrite (scaled_shift 1) by lia. done.
Qed.

(** A quotient is at least a power of two that does not exceed the exact one. *)
Lemma fdiv_ge_pow mx ex my ey k b : valid (S754_finite false mx ex) -> valid (S754_finite false my ey) -> 0 <= k -> 0 <= b -> k + b <= 40 ->
  scaled (Z.pos my) ey <= scaled (Z.pos mx * 2 ^ k) ex -> scaled (Z.pos mx) ex <= scaled (Z.pos my * 2 ^ b) ey ->
  fle (half_pow k) (S754_finite false mx ex ⊘ S754_finite false my ey).
Proof.
  intros Vx Vy Hk Hb Hkb Hge Hle. destruct (half_pow_valid k) as [Vk Ek]; [lia|].
  destruct (fdiv_rounds_pos mx ex my ey Vx Vy) as (q & e & s & r & R & D & Hr & Hq & Hs & Es & He & Hf).
  apply valid_exp in Vx as Ex, Vy as Ey. apply (rounds_lo _ _ _ R); [done|done|]. rewrite Ek.
  pose proof (quotient_exp mx ex my ey b Hb ltac:(lia) ltac:(lia) Hle) as Hd. assert (Hneg : e <= - k) by (rewrite fexp_eq in Hf; lia).
  replace (scaled 1 (- k)) with (scaled (1 * 2 ^ (- k - e)) e) by (rewrite <- scaled_shift by lia; f_equal; lia). apply scaled_le; [lia|].
  assert (Z.pos my * 2 ^ (- k - e) <= Z.pos mx * 2 ^ s).
  { replace ex with (ey + e + s) in Hge by lia. rewrite scaled_shift in Hge by lia.
    replace (scaled (Z.pos my) ey) with (scaled (Z.pos my * 2 ^ (- k - e) * 2 ^ k) (ey + e)) in Hge.
    2:{ rewrite <- Z.mul_assoc, <- Z.pow_add_r by lia. rewrite <- scaled_shift by lia. f_equal. lia. }
    apply scaled_le in Hge; [|lia]. pose proof (pow2_pos k Hk). nia. }
  nia.
Qed.

Lemma fmul_le_Z mx ex my ey c : valid (S754_finite false mx ex) -> valid (S754_finite false my ey) -> 0 <= c < 2 ^ 53 ->
  scaled (Z.pos mx) ex * scaled (Z.pos my) ey <= scaled c 0 * 2 ^ 4000 -> fle (S754_finite false mx ex ⊠ S754_finite false my ey) (f64_of_Z c).
Proof.
  intros Vx Vy Hc Hle. destruct (f64_of_Z_exact c) as [Fc Ec]; [lia|].
  apply (rounds_hi _ _ _ (fmul_rounds_pos mx ex my ey Vx Vy)); [apply f64_of_Z_valid|done|]. rewrite Ec.
  apply valid_exp in Vx as Ex, Vy as Ey. unfold scaled in *.
  assert (E : 2 ^ (ex + 4000) * 2 ^ (ey + 4000) = 2 ^ (ex + ey + 4000) * 2 ^ 4000) by (rewrite <- !Z.pow_add_r by lia; f_equal; lia).
  change (0 + 4000) with 4000 in *. rewrite Pos2Z.inj_mul. apply (Z.mul_le_mono_pos_r _ _ (2 ^ 4000)); [apply pow2_pos; lia|].
  rewrite <- !Z.mul_assoc in *. rewrite <- E. etrans; [|exact Hle]. apply Z.eq_le_incl. ring.
Qed.

(** A number that lies between zero and an integer is truncated to one that does. *)
Lemma int_below r n : valid r -> nonneg r -> 0 <= n < 2 ^ 53 -> fle r (f64_of_Z n) -> 0 <= int_of_f64 r <= n.
Proof.
  intros Vr Nr Hn Hle. destruct (f64_of_Z_exact n) as [Fn En]; [lia|]. destruct (good_below r (f64_of_Z n)) as (_ & Fr & _); [done..|].
  apply (fle_value r) in Hle; [|done|apply f64_of_Z_valid|done|done]. rewrite En in Hle.
  apply nonneg_cases in Nr as [[s ->]|[->|(m & e & ->)]]; [change (int_of_f64 (S754_zero s)) with 0; lia|done|]. cbn [value] in Hle. apply valid_exp in Vr as He.
  unfold scaled in Hle. unfold int_of_f64. cbv zeta.
  assert (Hv : 0 <= (if 0 <=? e then Z.pos m * 2 ^ e else Z.pos m / 2 ^ (- e)) <= n).
  { destruct (Z.leb_spec 0 e) as [H0|H0].
    - rewrite Z.pow_add_r in Hle by lia. pose proof (pow2_pos 4000 ltac:(lia)). pose proof (pow2_pos e H0). nia.
    - pose proof (pow2_pos (- e) ltac:(lia)). split; [apply Z.div_pos; lia|]. apply Z.div_le_upper_bound; [lia|].
      assert (E : 2 ^ (0 + 4000) = 2 ^ (- e) * 2 ^ (e + 4000)) by (rewrite <- Z.pow_add_r by lia; f_equal; lia).
      rewrite E in Hle. pose proof (pow2_pos (e + 4000) ltac:(lia)). nia. }
  clear Hle En. set (v := if 0 <=? e then _ else _) in *. change (if false then - v else v) with v.
  rewrite (proj2 (Z.leb_le (- two63) v)), (proj2 (Z.ltb_lt v two63)) by (unfold two63; lia). exact Hv.
Qed.

(** A positive integer as a float. *)
Lemma float_of z : 0 < z < 2 ^ 53 -> exists m e, f64_of_Z z = S754_finite false m e /\ valid (S754_finite false m e) /\ scaled (Z.pos m) e = scaled z 0.
Proof.
  intros Hz. destruct (f64_of_Z_exact z) as [Fz Ez]; [lia|]. pose proof (f64_of_Z_valid z) as Vz. pose proof (f64_of_Z_nonneg z ltac:(lia)) as Nz.
  pose proof (scaled_pos z 0 ltac:(lia) ltac:(lia)). apply nonneg_cases in Nz as [[s E]|[E|(m & e & E)]]; rewrite E in *; [cbn in Ez; lia|done|].
  by exists m, e.
Qed.

(** A float between a power of two and an integer is a positive one. *)
Lemma float_between r k c : 0 <= k <= 40 -> 0 <= c < 2 ^ 53 -> valid r -> fle (half_pow k) r -> fle r (f64_of_Z c) ->
  exists m e, r = S754_finite false m e /\ scaled 1 (- k) <= scaled (Z.pos m) e <= scaled c 0.
Proof.
  intros Hk Hc Vr Hlo Hhi. destruct (half_pow_valid k Hk) as [Vk Ek]. destruct (f64_of_Z_exact c) as [Fc Ec]; [lia|].
  pose proof (scaled_pos 1 (- k) ltac:(lia) ltac:(lia)) as Hpos.
  assert (Nr : nonneg r). { eapply fle_trans; [|exact Hlo]. apply fle_value; [done..|]. rewrite Ek. cbn. lia. }
  destruct (good_below r (f64_of_Z c)) as (_ & Fr & _); [done..|].
  apply (fle_value (half_pow k)) in Hlo; [|done..]. apply (fle_value r) in Hhi; [|done|apply f64_of_Z_valid|done|done].
  apply nonneg_cases in Nr as [[s ->]|[->|(m & e & ->)]]; [cbn in *; lia|done|]. exists m, e. cbn [value] in *. split; [done|lia].
Qed.

Lemma scaled_mono a b : a <= b -> scaled a 0 <= scaled b 0.
Proof. intros H. by apply scaled_le. Qed.

Lemma scaled_unit k : 0 <= k <= 40 -> scaled (2 ^ k) (- k) = scaled 1 0.
Proof. intros Hk. replace (2 ^ k) with (1 * 2 ^ k) by lia. rewrite <- scaled_shift by lia. f_equal. lia. Qed.

(** The ratio of a size: what it is multiplied by, and what is divided by it. *)
Section Ratio.
Context (w h : Z) (Hw : 0 < w < 2 ^ 32) (Hh : 0 < h < 2 ^ 32).

Lemma ratio_small : w <= h -> exists m e, f64_of_Z w ⊘ f64_of_Z h = S754_finite false m e /\ valid (S754_finite false m e)
  /\ scaled 1 (- 32) <= scaled (Z.pos m) e <= scaled 1 0.
Proof.
  intros Hle. destruct (float_of w) as (mx & ex & Ew & Vw & Sw); [lia|]. destruct (float_of h) as (my & ey & Eh & Vh & Sh); [lia|]. rewrite Ew, Eh.
  pose proof (scaled_mono _ _ Hle) as Hs.
  destruct (float_between (S754_finite false mx ex ⊘ S754_finite false my ey) 32 1) as (m & e & E & Hb); [lia|lia|..].
  - destruct (fdiv_rounds_pos mx ex my ey Vw Vh) as (? & ? & ? & ? & R & _). apply (rounds_valid _ _ _ R).
  - apply (fdiv_ge_pow mx ex my ey 32 0); [done|done|lia|lia|lia| |].
    + rewrite (Z.mul_comm (Z.pos mx)), scaled_mul, Sw, Sh, <- scaled_mul. apply scaled_mono. lia.
    + rewrite Z.mul_1_r. lia.
  - apply fdiv_le_Z; [done|done|lia|]. lia.
  - exists m, e. split; [done|]. split; [|done]. rewrite <- E.
    destruct (fdiv_rounds_pos mx ex my ey Vw Vh) as (? & ? & ? & ? & R & _). apply (rounds_valid _ _ _ R).
Qed.

Lemma ratio_large : h < w -> exists m e, f64_of_Z w ⊘ f64_of_Z h = S754_finite false m e /\ valid (S754_finite false m e)
  /\ scaled 1 0 <= scaled (Z.pos m) e <= scaled (2 ^ 32) 0.
Proof.
  intros Hlt. destruct (float_of w) as (mx & ex & Ew & Vw & Sw); [lia|]. destruct (float_of h) as (my & ey & Eh & Vh & Sh); [lia|]. rewrite Ew, Eh.
  destruct (float_between (S754_finite false mx ex ⊘ S754_finite false my ey) 0 (2 ^ 32)) as (m & e & E & Hb); [lia|lia|..].
  - destruct (fdiv_rounds_pos mx ex my ey Vw Vh) as (? & ? & ? & ? & R & _). apply (rounds_valid _ _ _ R).
  - apply (fdiv_ge_pow mx ex my ey 0 32); [done|done|lia|lia|lia| |].
    + rewrite Z.mul_1_r, Sw, Sh. apply scaled_mono. lia.
    + rewrite (Z.mul_comm (Z.pos my)), scaled_mul, Sw, Sh, <- scaled_mul. apply scaled_mono. lia.
  - apply fdiv_le_Z; [done|done|lia|]. rewrite Sw, Sh, <- scaled_mul. apply scaled_mono. lia.
  - exists m, e. split; [done|]. split; [|done]. rewrite <- E.
    destruct (fdiv_rounds_pos mx ex my ey Vw Vh) as (? & ? & ? & ? & R & _). apply (rounds_valid _ _ _ R).
Qed.
End Ratio.

(** An integer times, or through, a ratio within bounds. *)
Lemma times_ratio n m e c d : 0 < n < 2 ^ 20 -> 0 < c <= 2 ^ 32 -> valid (S754_finite false m e) -> scaled (Z.pos m) e <= scaled c 0 -> d = n * c ->
  0 <= int_of_f64 (f64_of_Z n ⊠ S754_finite false m e) <= d.
Proof.
  intros Hn Hc V Hm ->. destruct (float_of n) as (mx & ex & En & Vn & Sn); [lia|].
  destruct (fmul_nonneg_num (f64_of_Z n) (S754_finite false m e)) as [Vp Np]; [apply f64_of_Z_valid|done|by rewrite En|done|apply f64_of_Z_nonneg; lia|by apply nonneg_cases; right; right; exists m, e|].
  apply int_below; [done|done|nia|]. rewrite En. apply fmul_le_Z; [done|done|nia|]. rewrite Sn.
  assert (E : scaled (n * c) 0 * 2 ^ 4000 = scaled n 0 * scaled c 0) by (unfold scaled; change (0 + 4000) with 4000; ring).
  rewrite E. apply Z.mul_le_mono_nonneg_l; [|done]. unfold scaled. pose proof (Z.pow_nonneg 2 (0 + 4000) ltac:(done)). nia.
Qed.

Lemma through_ratio n m e c : 0 < n < 2 ^ 20 -> 0 < c <= 2 ^ 50 -> valid (S754_finite false m e) -> scaled n 0 <= c * scaled (Z.pos m) e ->
  0 <= int_of_f64 (f64_of_Z n ⊘ S754_finite false m e) <= c.
Proof.
  intros Hn Hc V Hm. destruct (float_of n) as (mx & ex & En & Vn & Sn); [lia|].
  destruct (fdiv_nonneg (f64_of_Z n) (S754_finite false m e)) as [Vp Np]; [apply f64_of_Z_valid|done|by rewrite En|done|apply f64_of_Z_nonneg; lia| |].
  - apply not_fle_flt; [done|done|]. apply not_true_iff_false. intros H%fle_value; try done. cbn [value] in H.
    apply valid_exp in V. pose proof (scaled_pos (Z.pos m) e ltac:(lia) eq_refl). change (value fzero) with 0 in H. lia.
  - apply int_below; [done|done|lia|]. rewrite En. apply fdiv_le_Z; [done|done|lia|]. by rewrite Sn.
Qed.

Lemma shrink_small m e : valid (S754_finite false m e) -> scaled 1 (- 32) <= scaled (Z.pos m) e <= scaled 1 0 ->
  0 <= int_of_f64 (f64_of_Z 768 ⊘ S754_finite false m e) /\ 0 <= int_of_f64 (f64_of_Z 2000 ⊠ S754_finite false m e) <= 2000.
Proof.
  intros V Hm. split; [|apply (times_ratio 2000 m e 1); [lia|lia|done|lia|done]].
  enough (0 <= int_of_f64 (f64_of_Z 768 ⊘ S754_finite false m e) <= 768 * 2 ^ 32) by lia.
  apply through_ratio; [lia|lia|done|]. replace 768 with (768 * 1) at 1 by lia. rewrite scaled_mul, <- (scaled_unit 32) by lia.
  replace (2 ^ 32) with (2 ^ 32 * 1) at 1 by lia. rewrite scaled_mul, <- Z.mul_assoc. apply Z.mul_le_mono_nonneg_l; [lia|].
  apply Z.mul_le_mono_nonneg_l; [lia|]. apply Hm.
Qed.

Lemma shrink_large m e : valid (S754_finite false m e) -> scaled 1 0 <= scaled (Z.pos m) e <= scaled (2 ^ 32) 0 ->
  0 <= int_of_f64 (f64_of_Z 768 ⊠ S754_finite false m e) /\ 0 <= int_of_f64 (f64_of_Z 2000 ⊘ S754_finite false m e) <= 2000.
Proof.
  intros V Hm. split.
  - enough (0 <= int_of_f64 (f64_of_Z 768 ⊠ S754_finite false m e) <= 768 * 2 ^ 32) by lia.
    apply (times_ratio 768 m e (2 ^ 32)); [lia|lia|done|apply Hm|done].
  - apply through_ratio; [lia|lia|done|]. replace 2000 with (2000 * 1) at 1 by lia. rewrite scaled_mul.
    apply Z.mul_le_mono_nonneg_l; [lia|]. apply Hm.
Qed.

(** A side of a resized image is none, or both are of bounded length. *)
Lemma resized_sides w h : 0 <= w < 2 ^ 32 -> 0 <= h < 2 ^ 32 ->
  let size := resizeImageHighRes w h in
  (0 <= size.1 /\ 0 <= size.2) /\ (size.1 = 0 \/ size.2 = 0 \/ (size.1 <= 2000 /\ size.2 <= 2000)).
Proof.
  intros Hw Hh. unfold resizeImageHighRes, maxShortSideHighRes, maxLongSideHighRes.
  destruct ((w <=? 768) && (h <=? 768)) eqn:Es; [cbn; lia|].
  destruct (Z.eqb_spec w 0) as [->|Hw0]; [cbn; lia|]. destruct (Z.eqb_spec h 0) as [->|Hh0]; [cbn; lia|]. cbn [orb]. cbv zeta.
  destruct (Z.leb_spec w h) as [Hle|Hlt].
  - destruct (ratio_small w h) as (m & e & -> & V & Hm); [lia..|]. destruct (shrink_small m e V Hm) as [H1 H2].
    destruct (Z.ltb_spec 2000 (int_of_f64 (f64_of_Z 768 ⊘ S754_finite false m e))); cbn [fst snd]; lia.
  - destruct (ratio_large w h) as (m & e & -> & V & Hm); [lia..|]. destruct (shrink_large m e V Hm) as [H1 H2].
    destruct (Z.ltb_spec 2000 (int_of_f64 (f64_of_Z 768 ⊠ S754_finite false m e))); cbn [fst snd]; lia.
Qed.

Lemma tiles_bounded w h : (0 <= w /\ 0 <= h) -> (w = 0 \/ h = 0 \/ (w <= 2000 /\ h <= 2000)) -> 0 <= calculateTilesNeeded w h maxTileWidth maxTileHeight <= 16.
Proof.
  intros [Hw Hh] Hb. unfold calculateTilesNeeded, maxTileWidth, maxTileHeight. cbn [Z.leb orb].
  change ((512 <=? 0) || (512 <=? 0)) with false. cbv iota zeta. rewrite !Z.quot_div_nonneg by lia.
  assert (Ht : forall x, 0 <= x <= 2000 -> 0 <= (x + 512 - 1) / 512 <= 4).
  { intros x Hx. split; [apply Z.div_pos; lia|]. apply Z.lt_succ_r. apply Z.div_lt_upper_bound; lia. }
  destruct Hb as [->|[->|[Hw2 Hh2]]].
  - by change ((0 + 512 - 1) / 512) with 0.
  - change ((0 + 512 - 1) / 512) with 0. rewrite orb_true_r. lia.
  - pose proof (Ht w ltac:(lia)). pose proof (Ht h ltac:(lia)). destruct (_ || _); [lia|]. nia.
Qed.

(** An image is counted without a panic, and with a bounded number of tokens.
    Whatever text stands for an image and whatever detail is asked for, the text is
    decoded, the headers of its format are read within its bytes, and the count is
    between 0 and 2805. *)
Theorem image_tokens_bounded data detail : exists n, calculateImageTokens data detail = Some n /\ 0 <= n <= 2805.
Proof.
  unfold calculateImageTokens, baseImageTokenCount. destruct (String.eqb data ""); [exists 0; split; [done|lia]|].
  destruct (negb (String.eqb detail "high")); [exists 85; split; [done|lia]|].
  assert (Hd : exists w h, getImageDimensions data = Some (w, h) /\ 0 <= w < 2 ^ 32 /\ 0 <= h < 2 ^ 32).
  { unfold getImageDimensions, defaultImageWidth, defaultImageHeight.
    destruct (loadImageData data) as [[|c raw]|]; [exists 300, 300; split; [done|lia]| |exists 300, 300; split; [done|lia]].
    destruct (dimensions_sound (c :: raw)) as ([[w h]|] & -> & Hs); cbn [default]; [by exists w, h|exists 300, 300; split; [done|lia]]. }
  destruct Hd as (w & h & -> & Hw & Hh). cbn [fst snd]. pose proof (resized_sides w h Hw Hh) as Hr. cbv zeta in Hr.
  destruct (resizeImageHighRes w h) as [w' h']. cbn [fst snd] in Hr. destruct Hr as [H1 H2].
  pose proof (tiles_bounded w' h' H1 H2). eexists. split; [done|]. lia.
Qed.

(** A picture of one pixel, and one that says it is 70000 pixels high. *)
Example png_counts :
  map (fun s => calculateImageTokens s "high")
    ["data:image/png;base64,iVBORw0KGgoAAAANSUhEUgAAAAEAAAABCAYAAAAfFcSJ"; "iVBORw0KGgoAAAANSUhEUgAAAAEAARFwCAYAAAAfFcSJ"; "https://a.b/c.png"; "@@"]
  = [Some 255; Some 85; Some 255; Some 255].
Proof. vm_compute. reflexivity. Qed.
