(* ===== verification/TokenCount.v ===== *)
(** * Counting tokens ([internal/tokenizer/tokenizer.go])

    The estimates that the client uses for routing, rate limits and usage.  The library
    that splits a text into tokens is a parameter: [GetEncoding] and [EncodingForModel]
    look an encoding up, and [Encode] counts.  The estimates work with encodings that
    are loaded: within one estimate the count of a text depends on the model and the
    text.  No sum of counts is as large as the sums of the lengths of the texts, which
    fit in memory, so they are numbers without bounds.  A panic is [None]. *)
From Stdlib Require Import Ascii SpecFloat.
From S2P Require Import Prelude Float64 Errors ModelName Utf8 Url AuthTypes PluginPipeline ClientTypes ApiTypes ClientSetup ProviderBase ImageSize Anthropic ProviderTheorems.

#[local] Abbreviation explode := String.list_ascii_of_string.
#[local] Abbreviation implode := String.string_of_list_ascii.

Definition replyPrimerTokenCount : Z := 3.
Definition functionDefinitionTokenCount : Z := 9.
Definition toolChoiceNoneTokenCount : Z := 1.
Definition toolChoiceObjectTokenCount : Z := 7.
Definition systemMessageToolAdjustment : Z := 4.

Definition normalizeModelName (model : string) : string :=
  match cut_last "/" (explode model) with
  | Some (_, (_ :: _) as name) => implode name
  | _ => model
  end.

(** ** Encodings *)

Section Encodings.
Context {Enc : Type} (GetEncoding EncodingForModel : string -> option Enc) (Encode : Enc -> string -> list Z).

(** The encodings that were found, and the result of the one attempt for the default. *)
Record Encodings := { encodingCache : gmap string Enc; defaultEnc : option (option Enc) }.

Definition no_encodings : Encodings := {| encodingCache := ∅; defaultEnc := None |}.

Definition getDefaultEncoding (s : Encodings) : Encodings * option Enc :=
  match s.(defaultEnc) with
  | Some enc => (s, enc)
  | None => let enc := GetEncoding "cl100k_base" in (s<|defaultEnc := Some enc|>, enc)
  end.

(** Whether one text is in another. *)
Fixpoint occurs (p l : list ascii) : bool :=
  match strip_prefix p l with
  | Some _ => true
  | None => match l with [] => false | _ :: l' => occurs p l' end
  end.
Definition Contains (s sub : string) : bool := occurs (explode sub) (explode s).

Definition getEncoding (model : string) (s : Encodings) : Encodings * option Enc :=
  let base := normalizeModelName model in
  match s.(encodingCache) !! base with
  | Some enc => (s, Some enc)
  | None =>
      match (if Contains base "gpt-4o" then GetEncoding "o200k_base" else None) with
      | Some enc => (s<|encodingCache ::= <[base := enc]>|>, Some enc)
      | None =>
          let (s, enc) := match EncodingForModel base with Some enc => (s, Some enc) | None => getDefaultEncoding s end in
          (match enc with Some enc => s<|encodingCache ::= <[base := enc]>|> | None => s end, enc)
      end
  end.

Definition CountTextTokens (model text : string) (s : Encodings) : Encodings * Z :=
  if String.eqb text "" then (s, 0)
  else match getEncoding model s with
       | (s, None) => (s, Z.of_nat (String.length text) / 4)
       | (s, Some enc) => (s, Z.of_nat (length (Encode enc text)))
       end.

(** *** The cache keeps to what the library says *)

(** The encoding for a name without the cache. *)
Definition encoding_for (base : string) : option Enc :=
  match (if Contains base "gpt-4o" then GetEncoding "o200k_base" else None) with
  | Some enc => Some enc
  | None => match EncodingForModel base with Some enc => Some enc | None => GetEncoding "cl100k_base" end
  end.

Definition encodings_ok (s : Encodings) : Prop :=
  (forall base enc, s.(encodingCache) !! base = Some enc -> encoding_for base = Some enc)
  /\ (forall enc, s.(defaultEnc) = Some enc -> enc = GetEncoding "cl100k_base").

Definition tokens_in (model text : string) : Z :=
  if String.eqb text "" then 0
  else match encoding_for (normalizeModelName model) with
       | None => Z.of_nat (String.length text) / 4
       | Some enc => Z.of_nat (length (Encode enc text))
       end.

Lemma ok_cached s base enc : encodings_ok s -> encoding_for base = Some enc -> encodings_ok (s<|encodingCache ::= <[base := enc]>|>).
Proof.
  intros [H1 H2] He. split; [|exact H2]. intros b e. cbn. rewrite lookup_insert_Some. intros [[<- <-]|[_ Hb]]; [done|by apply H1].
Qed.

Lemma default_ok s : encodings_ok s -> encodings_ok (getDefaultEncoding s).1 /\ (getDefaultEncoding s).2 = GetEncoding "cl100k_base".
Proof.
  intros [H1 H2]. unfold getDefaultEncoding. destruct s.(defaultEnc) as [enc|] eqn:E; cbn; [split; [by split; [|rewrite E]|by apply H2]|].
  split; [|done]. split; [exact H1|]. by intros enc [= <-].
Qed.

Lemma get_encoding_ok model s : encodings_ok s ->
  encodings_ok (getEncoding model s).1 /\ (getEncoding model s).2 = encoding_for (normalizeModelName model).
Proof.
  intros Hok. unfold getEncoding. set (base := normalizeModelName model).
  destruct (s.(encodingCache) !! base) as [enc|] eqn:Ec; [split; [done|]; symmetry; by apply Hok|].
  assert (He : encoding_for base = encoding_for base) by done. unfold encoding_for at 2 in He.
  destruct (if Contains base "gpt-4o" then GetEncoding "o200k_base" else None) as [enc|]; [by split; [apply ok_cached|]|].
  destruct (EncodingForModel base) as [enc|]; [by split; [apply ok_cached|]|].
  destruct (default_ok s Hok) as [Hd Er]. destruct (getDefaultEncoding s) as [s' [enc|]]; cbn [fst snd] in *; rewrite <- Er in He; [|done].
  by split; [apply ok_cached|].
Qed.

(** Counting with the cache is counting without it. *)
Lemma count_text_ok model text s : encodings_ok s ->
  encodings_ok (CountTextTokens model text s).1 /\ (CountTextTokens model text s).2 = tokens_in model text.
Proof.
  intros Hok. unfold CountTextTokens, tokens_in. destruct (String.eqb text ""); [done|].
  destruct (get_encoding_ok model s Hok) as [Hs Er]. destruct (getEncoding model s) as [s' [enc|]]; cbn [fst snd] in *; by rewrite <- Er.
Qed.

Lemma tokens_nonneg model text : 0 <= tokens_in model text.
Proof. unfold tokens_in. repeat case_match; [lia|lia|apply Z.div_pos; lia]. Qed.
End Encodings.
Arguments Encodings : clear implicits.

(** ** Messages *)

Section Counting.
Context `{!Json} `{!ProviderJson}.
(** [countTokens] is [CountTextTokens] for the model; [order] is the order in which a map
    is gone through, [IsPrint] and [format_v] are of the formatting library. *)
Context (count : string -> string -> Z) (order : gmap string json -> list (string * json)) (IsPrint : N -> bool) (format_v : json -> string).

Record messageCountParams := {
  tokensPerMessage : Z;
  tokensPerName : Z;
  countTokens : string -> Z;
}.

Definition newMessageCountParams (model : string) : messageCountParams :=
  let old := String.eqb (normalizeModelName model) "gpt-3.5-turbo-0301" in
  {| tokensPerMessage := if old then 4 else 3; tokensPerName := if old then -1 else 1; countTokens := count model |}.

Implicit Types params : messageCountParams.

(** *** Contents *)

(** [json.Unmarshal] into a slice of any values. *)
Definition decode_array (raw : string) : go_error + list json :=
  match decode_value raw with
  | inr (JArray l) => inr l
  | inr JNull => inr []
  | inr _ => inl (EText "json: cannot unmarshal into Go value of type []interface {}")
  | inl err => inl err
  end.

(** The sum of counts, any of which may panic. *)
Definition plus (a b : option Z) : option Z := match a, b with Some a, Some b => Some (a + b) | _, _ => None end.
Definition sum {A : Type} (f : A -> option Z) (l : list A) : option Z := fold_left (fun t x => plus t (f x)) l (Some 0).

Definition countImageTokens (item : gmap string json) : option Z :=
  let '(url, detail) :=
    match item !! "image_url" with
    | Some (JString s) => (s, "auto")
    | Some (JObject m) => (default "" (as_string (m !! "url")), default "auto" (as_string (m !! "detail")))
    | _ => ("", "auto")
    end in
  calculateImageTokens url detail.

Definition marshalled params (v : json) : Z := match encode_value v with inr raw => params.(countTokens) raw | inl _ => 0 end.

Definition skipFields : list string := ["type"; "id"; "tool_use_id"; "cache_control"; "is_error"].

(** An item that is no image and no use of a tool. *)
Definition count_plain params (item : gmap string json) (itemType : string) : Z :=
  let text := params.(countTokens) <$> as_string (item !! "text") in
  let input := params.(countTokens) <$> as_string (item !! "input_text") in
  let rest := match text with Some n => if String.eqb itemType "" then n else marshalled params (JObject item) | None => marshalled params (JObject item) end in
  if String.eqb itemType "text" then
    match text, input with Some n, _ => n | None, Some n => n | None, None => rest end
  else if String.eqb itemType "input_text" then
    match input, text with Some n, _ => n | None, Some n => n | None, None => rest end
  else rest.

(** [countContentList] and [countAnthropicContentTokens] call each other on smaller
    values; the fuel is the depth of the value. *)
Fixpoint countContentList (fuel : nat) params (content : list json) : option Z :=
  match fuel with
  | O => None
  | S fuel' =>
      sum (fun item =>
             match item with
             | JString s => Some (params.(countTokens) s)
             | JObject m =>
                 let itemType := default "" (as_string (m !! "type")) in
                 if String.eqb itemType "image_url" then countImageTokens m
                 else if String.eqb itemType "tool_use" || String.eqb itemType "tool_result" then
                   sum (fun kv =>
                          if existsb (String.eqb kv.1) skipFields then Some 0
                          else match kv.2 with
                               | JString s => Some (params.(countTokens) s)
                               | JArray l => countContentList fuel' params l
                               | JObject _ => Some (marshalled params kv.2)
                               | _ => Some 0
                               end) (order m)
                 else Some (count_plain params m itemType)
             | _ => Some (marshalled params item)
             end) content
  end.

Fixpoint json_depth (v : json) : nat :=
  match v with
  | JArray l => S (foldr (fun x n => Nat.max (json_depth x) n) O l)
  | JObject m => S (map_fold (fun _ x n => Nat.max (json_depth x) n) O m)
  | _ => 1%nat
  end.

Definition countContentTokens params (raw : string) : option Z :=
  if String.eqb raw "" then Some 0
  else match read_string raw with
       | inr content => Some (params.(countTokens) content)
       | inl _ =>
           match decode_array raw with
           | inr parts => countContentList (json_depth (JArray parts)) params parts
           | inl _ => Some (params.(countTokens) raw)
           end
       end.

Definition count_if_set params (s : string) : Z := if String.eqb s "" then 0 else params.(countTokens) s.

Definition countToolCallsTokens params (calls : list ToolCall) : Z :=
  fold_left (fun t call => t + count_if_set params call.(tc_Function).(tcf_Arguments)) calls 0.

Definition countMessageTokens params (msg : ChatMessage) : option Z :=
  plus (Some (params.(tokensPerMessage) + count_if_set params msg.(m_Role)
              + (if String.eqb msg.(m_Name) "" then 0 else params.(countTokens) msg.(m_Name) + params.(tokensPerName))))
       (plus (countContentTokens params msg.(m_Content))
             (Some (countToolCallsTokens params msg.(m_ToolCalls) + count_if_set params msg.(m_ToolCallID)))).

(** *** Tools *)

Definition newline : string := String (ascii_of_nat 10) "".
Definition Join (sep : string) (lines : list string) : string := implode (join (explode sep) (map (fun l => explode l) lines)).
Definition indentation (n : nat) : string := implode (repeat " "%char n).

Definition formatEnum (values : list json) : string :=
  Join " | " (map (fun v => match v with JString s => Quote IsPrint s | _ => format_v v end) values).

(** The members in the order of their names, each written with [ft]. *)
Definition format_members (ft : gmap string json -> nat -> string) (parameters : gmap string json) (indent : nat) : string :=
  let properties := default ∅ (as_object (parameters !! "properties")) in
  let required := omap (fun v => as_string (Some v)) (default [] (as_array (parameters !! "required"))) in
  let member key :=
    let props := default ∅ (as_object (properties !! key)) in
    match as_string (props !! "description") with
    | Some d => if String.eqb d "" then [] else [indentation indent +:+ "// " +:+ d]
    | None => []
    end
    ++ [indentation indent +:+ key +:+ (if existsb (String.eqb key) required then "" else "?") +:+ ": " +:+ ft props indent +:+ ","] in
  if bool_decide (properties = ∅) then ""
  else Join newline (concat (map member (sort_slice_stable String.ltb (map fst (order properties))))).

(** [formatType]; the fuel is the depth of the value. *)
Fixpoint formatType (fuel : nat) (props : gmap string json) (indent : nat) : string :=
  match fuel with
  | O => "any"
  | S fuel' =>
      let typ := default "" (as_string (props !! "type")) in
      let or_enum s := match as_array (props !! "enum") with Some (v :: vs) => formatEnum (v :: vs) | _ => s end in
      if String.eqb typ "string" then or_enum "string"
      else if String.eqb typ "array" then formatType fuel' (default ∅ (as_object (props !! "items"))) indent +:+ "[]"
      else if String.eqb typ "object" then "{" +:+ newline +:+ format_members (formatType fuel') props (indent + 2) +:+ newline +:+ "}"
      else if String.eqb typ "integer" || String.eqb typ "number" then or_enum "number"
      else if String.eqb typ "boolean" then "boolean"
      else if String.eqb typ "null" then "null"
      else "any"
  end.

Definition formatObjectParameters (parameters : gmap string json) (indent : nat) : string :=
  format_members (formatType (json_depth (JObject parameters))) parameters indent.

Definition formatFunctionDefinitions (tools : list Tool) : string :=
  let define tool :=
    let function := tool.(tool_Function) in
    let parameters := if String.eqb function.(tf_Parameters) "" then ∅
                      else match decode_object function.(tf_Parameters) with inr m => m | inl _ => ∅ end in
    let properties := default ∅ (as_object (parameters !! "properties")) in
    (if String.eqb function.(tf_Description) "" then [] else ["// " +:+ function.(tf_Description)])
    ++ (if bool_decide (properties = ∅) then ["type " +:+ function.(tf_Name) +:+ " = () => any;"]
        else ["type " +:+ function.(tf_Name) +:+ " = (_: {"; formatObjectParameters parameters 0; "}) => any;"])
    ++ [""] in
  match tools with
  | [] => ""
  | _ => Join newline (["namespace functions {"; ""] ++ concat (map define tools) ++ ["} // namespace functions"])
  end.

Definition countToolChoiceTokens params (toolChoice : string) : Z :=
  if String.eqb toolChoice "" then 0
  else match read_string toolChoice with
       | inr choice => if String.eqb choice "none" then toolChoiceNoneTokenCount else 0
       | inl _ =>
           match decode_object toolChoice with
           | inl _ => 0
           | inr obj =>
               let name := default "" (as_object (obj !! "function") ≫= fun fn => as_string (fn !! "name")) in
               if String.eqb name "" then 0 else toolChoiceObjectTokenCount + params.(countTokens) name
           end
       end.

Definition hasSystemMessage (messages : list ChatMessage) : bool := existsb (fun msg => String.eqb msg.(m_Role) "system") messages.

Definition countExtraTokens params (messages : list ChatMessage) (tools : list Tool) (toolChoice : string) : Z :=
  let defined :=
    match tools with
    | [] => 0
    | _ => count_if_set params (formatFunctionDefinitions tools) + functionDefinitionTokenCount
           - (if hasSystemMessage messages then systemMessageToolAdjustment else 0)
    end in
  replyPrimerTokenCount + defined + countToolChoiceTokens params toolChoice.

(** ** Estimates *)

Definition countChatTokens (model : string) (messages : list ChatMessage) (tools : list Tool) (toolChoice : string) (countResponseTokens : bool) : option Z :=
  let params := newMessageCountParams model in
  plus (sum (countMessageTokens params) messages)
       (Some (if countResponseTokens then 0 else countExtraTokens params messages tools toolChoice)).

Definition EstimatePrompt (model : string) (req : option ChatRequest) : option Z :=
  match req with
  | None => Some 0
  | Some req => countChatTokens model req.(q_Messages) req.(q_Tools) req.(q_ToolChoice) false
  end.

Definition EstimateEmbedding (model : string) (req : EmbeddingRequest) : Z :=
  match req.(er_Input) with
  | None => 0
  | Some input =>
      match input.(ei_Text), default [] input.(ei_Texts), default [] input.(ei_Tokens), default [] input.(ei_TokensList) with
      | Some text, _, _, _ => count model text
      | None, (_ :: _) as texts, _, _ => fold_left (fun t text => t + count model text) texts 0
      | None, [], (_ :: _) as tokens, _ => Z.of_nat (length tokens)
      | None, [], [], lists => fold_left (fun t tokens => t + Z.of_nat (length tokens)) lists 0
      end
  end.

Definition EstimateCompletion (model : string) (resp : ChatResponse) (fallbackText : string) : option Z :=
  match resp.(p_Choices) with
  | [] => Some (count model fallbackText)
  | choices =>
      match countChatTokens model (map ch_Message choices) [] "" true with
      | None => None
      | Some total => Some (if 0 <? total then total else count model fallbackText)
      end
  end.

Definition EstimateCompletionFromText (model text : string) : option Z :=
  if String.eqb text "" then Some 0
  else match write_string text with
       | inl _ => Some (count model text)
       | inr raw =>
           countChatTokens model [{| m_Role := "assistant"; m_Content := raw; m_Name := ""; m_ToolCalls := []; m_ToolCallID := "" |}] [] "" true
       end.

(** ** Depth is enough fuel *)

Lemma depth_positive v : (0 < json_depth v)%nat.
Proof. destruct v; cbn; lia. Qed.

Lemma depth_element l v : v ∈ l -> (json_depth v < json_depth (JArray l))%nat.
Proof.
  induction l as [|x l IH]; intros Hv; [by apply elem_of_nil in Hv|].
  apply elem_of_cons in Hv as [->|Hv]; [cbn; lia|]. specialize (IH Hv). cbn in *. lia.
Qed.

Lemma depth_member (m : gmap string json) k v : m !! k = Some v -> (json_depth v < json_depth (JObject m))%nat.
Proof.
  cbn. revert k v. induction m as [|i x m Hi Hf IH] using map_first_key_ind; intros k v Hk; [by rewrite lookup_empty in Hk|].
  rewrite map_fold_insert_first_key by done. apply lookup_insert_Some in Hk as [[<- <-]|[Hne Hk]]; [lia|]. pose proof (IH _ _ Hk). lia.
Qed.

Lemma depth_default (m : gmap string json) k k' v : m !! k' = Some v ->
  (json_depth (JObject (default ∅ (as_object (m !! k)))) < json_depth (JObject m))%nat.
Proof.
  intros Hv. pose proof (depth_member m k' v Hv). pose proof (depth_positive v).
  assert (E : json_depth (JObject ∅) = 1%nat) by reflexivity.
  destruct (m !! k) as [[| | | | |x]|] eqn:Ek; cbn [as_object default]; rewrite ?E; try lia. exact (depth_member m k _ Ek).
Qed.

Lemma members_enough ft ft' (parameters : gmap string json) indent :
  (forall props i, (json_depth (JObject props) < json_depth (JObject parameters))%nat -> ft props i = ft' props i) ->
  format_members ft parameters indent = format_members ft' parameters indent.
Proof.
  intros Hft. unfold format_members. set (properties := default ∅ (as_object (parameters !! "properties"))).
  destruct (bool_decide (properties = ∅)) eqn:Ep; [done|]. apply bool_decide_eq_false in Ep. do 2 f_equal. apply map_ext. intros key.
  rewrite Hft; [done|]. unfold properties in *. destruct (parameters !! "properties") as [[| | | | |m]|] eqn:Em; cbn [as_object default] in *; try done.
  pose proof (depth_member _ _ _ Em) as Hd.
  destruct (map_choose m Ep) as (k & x & Hk). pose proof (depth_default m key k x Hk) as Hx. change (id m) with m. lia.
Qed.

(** Any fuel from the depth on gives the same text. *)
Lemma format_enough n n' props indent : (json_depth (JObject props) <= n)%nat -> (json_depth (JObject props) <= n')%nat ->
  formatType n props indent = formatType n' props indent.
Proof.
  revert n' props indent. induction n as [|n IH]; intros n' props indent Hn Hn'; [pose proof (depth_positive (JObject props)); lia|].
  destruct n' as [|n']; [pose proof (depth_positive (JObject props)); lia|]. cbn [formatType].
  set (typ := default "" (as_string (props !! "type"))).
  assert (Ht : typ <> "" -> exists v, props !! "type" = Some v) by (unfold typ; destruct (props !! "type") as [v|]; [by exists v|done]).
  destruct (String.eqb typ "string"); [done|]. destruct (String.eqb_spec typ "array") as [E|_].
  { f_equal. destruct Ht as [v Hv]; [by rewrite E|]. pose proof (depth_default props "items" _ _ Hv). apply IH; lia. }
  destruct (String.eqb_spec typ "object"); [|done]. f_equal. f_equal. f_equal. apply members_enough. intros props' i Hd. apply IH; lia.
Qed.

(** ** Estimates are made, and are not negative *)

Context (count_nonneg : forall model text, 0 <= count model text) (order_perm : forall m, order m ≡ₚ map_to_list m).

Definition at_least (lo : Z) (r : option Z) : Prop := exists n, r = Some n /\ lo <= n.

Lemma at_least_plus a b x y : at_least a x -> at_least b y -> at_least (a + b) (plus x y).
Proof. intros (n & -> & Hn) (m & -> & Hm). exists (n + m). split; [done|lia]. Qed.

Lemma at_least_some lo n : lo <= n -> at_least lo (Some n).
Proof. intros Hn. by exists n. Qed.

Lemma at_least_weaken lo lo' r : at_least lo r -> lo' <= lo -> at_least lo' r.
Proof. intros (n & -> & Hn) Hl. exists n. split; [done|lia]. Qed.

Lemma at_least_sum {A : Type} (f : A -> option Z) (l : list A) lo : (forall x, x ∈ l -> at_least lo (f x)) ->
  at_least (lo * Z.of_nat (length l)) (sum f l).
Proof.
  intros Hf. unfold sum. assert (G : forall t lo', at_least lo' t ->
    at_least (lo' + lo * Z.of_nat (length l)) (fold_left (fun t x => plus t (f x)) l t)).
  { induction l as [|x l IH]; intros t lo' Ht; [eapply at_least_weaken; [exact Ht|cbn; lia]|]. cbn [fold_left].
    eapply at_least_weaken; [apply IH; [intros y Hy; apply Hf; by right|apply (at_least_plus lo' lo); [done|apply Hf; left]]|].
    cbn [length]. lia. }
  eapply at_least_weaken; [apply (G (Some 0) 0); by apply at_least_some|]. lia.
Qed.

Lemma sum_nonneg {A : Type} (f : A -> option Z) (l : list A) : (forall x, x ∈ l -> at_least 0 (f x)) -> at_least 0 (sum f l).
Proof. intros Hf. eapply at_least_weaken; [by apply (at_least_sum f l 0)|]. lia. Qed.

Section Params.
Context (params : messageCountParams) (tokens_pos : forall text, 0 <= params.(countTokens) text).

Lemma marshalled_pos v : 0 <= marshalled params v.
Proof. unfold marshalled. destruct (encode_value v); [lia|apply tokens_pos]. Qed.

Lemma count_plain_pos item ty : 0 <= count_plain params item ty.
Proof.
  unfold count_plain. pose proof (marshalled_pos (JObject item)).
  repeat case_match; repeat match goal with E : _ <$> ?o = Some _ |- _ => destruct o; cbn in E; [injection E as <-|done] end; auto.
Qed.

Lemma count_if_set_pos s : 0 <= count_if_set params s.
Proof. unfold count_if_set. destruct (String.eqb s ""); [lia|apply tokens_pos]. Qed.

Lemma count_list_pos fuel content : (json_depth (JArray content) <= fuel)%nat -> at_least 0 (countContentList fuel params content).
Proof.
  revert content. induction fuel as [|fuel IH]; intros content Hd; [pose proof (depth_positive (JArray content)); lia|].
  cbn [countContentList]. apply sum_nonneg. intros item Hi. pose proof (depth_element _ _ Hi) as Hid.
  destruct item as [|b|x|s|l|m]; try (apply at_least_some; first [apply marshalled_pos|apply tokens_pos]). cbv zeta.
  destruct (String.eqb _ "image_url").
  { unfold countImageTokens. destruct (match m !! "image_url" with Some (JString s) => _ | Some (JObject o) => _ | _ => _ end) as [url detail].
    destruct (image_tokens_bounded url detail) as (n & -> & Hn). apply at_least_some. lia. }
  destruct (_ || _); [|apply at_least_some, count_plain_pos]. apply sum_nonneg. intros [k v] Hkv. cbn [fst snd].
  destruct (existsb _ skipFields); [by apply at_least_some|]. rewrite order_perm in Hkv. apply elem_of_map_to_list in Hkv.
  pose proof (depth_member _ _ _ Hkv). destruct v as [|b|x|s|l|o]; try (apply at_least_some; first [apply marshalled_pos|apply tokens_pos|lia]).
  apply IH. lia.
Qed.

Lemma count_content_pos raw : at_least 0 (countContentTokens params raw).
Proof.
  unfold countContentTokens. destruct (String.eqb raw ""); [by apply at_least_some|]. destruct (read_string raw); [|apply at_least_some, tokens_pos].
  destruct (decode_array raw) as [|parts]; [apply at_least_some, tokens_pos|]. by apply count_list_pos.
Qed.

Lemma count_calls_pos calls : 0 <= countToolCallsTokens params calls.
Proof.
  unfold countToolCallsTokens. assert (G : forall t, 0 <= t -> 0 <= fold_left (fun t call => t + count_if_set params call.(tc_Function).(tcf_Arguments)) calls t); [|by apply G].
  induction calls as [|c calls IH]; intros t Ht; [done|]. cbn. apply IH. pose proof (count_if_set_pos c.(tc_Function).(tcf_Arguments)). lia.
Qed.

Lemma count_extra_pos messages tools toolChoice : 3 <= countExtraTokens params messages tools toolChoice.
Proof.
  unfold countExtraTokens, replyPrimerTokenCount, functionDefinitionTokenCount, systemMessageToolAdjustment.
  assert (Hc : 0 <= countToolChoiceTokens params toolChoice).
  { unfold countToolChoiceTokens, toolChoiceNoneTokenCount, toolChoiceObjectTokenCount. repeat case_match; try lia.
    match goal with |- context [params.(countTokens) ?n] => pose proof (tokens_pos n) end. lia. }
  pose proof (count_if_set_pos (formatFunctionDefinitions tools)). destruct tools; [lia|]. destruct (hasSystemMessage messages); lia.
Qed.
End Params.

Lemma count_message_pos model msg : at_least 3 (countMessageTokens (newMessageCountParams model) msg).
Proof.
  set (params := newMessageCountParams model). assert (Hp : forall text, 0 <= params.(countTokens) text) by (intros text; apply count_nonneg).
  unfold countMessageTokens.
  eapply at_least_weaken; [apply (at_least_plus 3 0); [apply at_least_some|apply (at_least_plus 0 0); [by apply count_content_pos|apply at_least_some]]|lia].
  - pose proof (count_if_set_pos params Hp msg.(m_Role)). pose proof (Hp msg.(m_Name)).
    assert (Hm : (params.(tokensPerMessage) = 3 /\ params.(tokensPerName) = 1) \/ (params.(tokensPerMessage) = 4 /\ params.(tokensPerName) = -1))
      by (unfold params, newMessageCountParams; cbn; destruct (String.eqb _ _); auto).
    destruct (String.eqb msg.(m_Name) ""); lia.
  - pose proof (count_calls_pos params Hp msg.(m_ToolCalls)). pose proof (count_if_set_pos params Hp msg.(m_ToolCallID)). lia.
Qed.

Lemma count_chat_pos model messages tools toolChoice (response : bool) :
  at_least (3 * Z.of_nat (length messages) + if response then 0 else 3) (countChatTokens model messages tools toolChoice response).
Proof.
  unfold countChatTokens. apply at_least_plus.
  - apply at_least_sum. intros msg _. apply count_message_pos.
  - apply at_least_some. destruct response; [lia|]. apply count_extra_pos. intros text. apply count_nonneg.
Qed.

End Counting.

(** ** The estimates of the client *)

Section Estimates.
Context `{!Json} `{!ProviderJson} (count : string -> string -> Z) (order : gmap string json -> list (string * json)) (IsPrint : N -> bool) (format_v : json -> string).

(** The estimates as the client asks for them; none of them panics. *)
Definition estimates : Tokenizer := {|
  EstimatePromptTokens model req := default 0 (EstimatePrompt count order IsPrint format_v model req);
  EstimateEmbeddingTokens model req := EstimateEmbedding count model req;
  EstimateCompletionTokens model resp text := default 0 (EstimateCompletion count order IsPrint format_v model resp text);
  EstimateCompletionTokensFromText model text := default 0 (EstimateCompletionFromText count order IsPrint format_v model text);
|}.

(** C35: Every estimate is made.  If the count of a text is never negative and a map is
    gone through once, then no chat request and no response makes the estimates panic,
    whatever its contents, images and tools are; a prompt is estimated with at least
    three tokens for each message and three for the reply, and no estimate is negative. *)
Theorem estimates_made : (forall model text, 0 <= count model text) -> (forall m, order m ≡ₚ map_to_list m) ->
  (forall model req, exists n, EstimatePrompt count order IsPrint format_v model (Some req) = Some n /\ 3 * Z.of_nat (length req.(q_Messages)) + 3 <= n)
  /\ (forall model resp text, exists n, EstimateCompletion count order IsPrint format_v model resp text = Some n /\ 0 <= n)
  /\ (forall model text, exists n, EstimateCompletionFromText count order IsPrint format_v model text = Some n /\ 0 <= n)
  /\ (forall model req, 0 <= EstimateEmbedding count model req).
Proof.
  intros Hc Ho. split_and!.
  - intros model req. by apply (count_chat_pos count order IsPrint format_v Hc Ho model _ _ _ false).
  - intros model resp text. unfold EstimateCompletion. destruct resp.(p_Choices) as [|c cs]; [by eexists|].
    destruct (count_chat_pos count order IsPrint format_v Hc Ho model (map ch_Message (c :: cs)) [] "" true) as (n & -> & Hn).
    eexists. split; [done|]. destruct (Z.ltb_spec 0 n); [lia|apply Hc].
  - intros model text. unfold EstimateCompletionFromText. destruct (String.eqb text ""); [by eexists|]. destruct (write_string text) as [|raw]; [by eexists|].
    destruct (count_chat_pos count order IsPrint format_v Hc Ho model
                [{| m_Role := "assistant"; m_Content := raw; m_Name := ""; m_ToolCalls := []; m_ToolCallID := "" |}] [] "" true) as (n & -> & Hn).
    eexists. split; [done|]. cbn in Hn. lia.
  - intros model req. unfold EstimateEmbedding. destruct req.(er_Input) as [input|]; [|done].
    assert (G : forall {A : Type} (f : A -> Z) l t, (forall x, 0 <= f x) -> 0 <= t -> 0 <= fold_left (fun t x => t + f x) l t).
    { intros A f l. induction l as [|x l IH]; intros t Hf Ht; [done|]. cbn. apply IH; [done|]. pose proof (Hf x). lia. }
    destruct input.(ei_Text); [apply Hc|]. destruct (default [] input.(ei_Texts)) as [|x xs]; [|by apply G].
    destruct (default [] input.(ei_Tokens)) as [|y ys]; [|lia]. apply G; lia.
Qed.
End Estimates.

(** ** An estimate *)

#[local] Existing Instances Weather.json_types Weather.provider_json.

Module Sized.
(** Without an encoding a text counts as a quarter of its length. *)
Definition count (model text : string) : Z := tokens_in (Enc:=unit) (fun _ => None) (fun _ => None) (fun _ _ => []) model text.
Definition ask : ChatRequest :=
  {| q_Model := "m"; q_Messages := [{| m_Role := "system"; m_Content := Weather.js "'be brief, and be quick'"; m_Name := ""; m_ToolCalls := []; m_ToolCallID := "" |}; Weather.question];
     q_Stream := false; q_MaxTokens := 0; q_Temperature := None; q_TopP := None; q_N := 0; q_Stop := []; q_PresencePenalty := None;
     q_FrequencyPenalty := None; q_User := ""; q_Tools := []; q_ToolChoice := ""; q_ResponseFormat := None; q_StreamOptions := None;
     q_Tags := []; q_Extra := None |}.
Abbreviation prompt := (EstimatePrompt count map_to_list (fun _ => false) (fun _ => "") "m" (Some ask)).
End Sized.

Lemma estimates_made_witness : Sized.prompt = Some 18 /\ exists n, Sized.prompt = Some n /\ 9 <= n.
Proof.
  split; [vm_compute; reflexivity|].
  refine (proj1 (estimates_made Sized.count map_to_list (fun _ => false) (fun _ => "") _ _) "m" Sized.ask); [intros model text; apply tokens_nonneg|done].
Defined.
