(* ===== verification/Prober.v ===== *)
(** * Health checks ([internal/healthcheck/prober.go])

    A probe sends a small request to every deployment.  A deployment that fails is put
    in cooldown; one that answers is taken out again, but only of a cooldown that the
    prober set.  The prober works on the router of the client it has borrowed; its
    ticker is left out. *)
From S2P Require Import Prelude Float64 Errors RouterTypes StatsStore BaseRouter Strategies PickTheorems Cooldown AuthTypes PluginPipeline ClientTypes Client ClientProofs ClientDemo.

Definition defaultProbeInterval : duration := 30 * Second.
Definition defaultProbeTimeout : duration := 10 * Second.

Record ProbeConfig := {
  probe_Enabled : bool;
  probe_Interval : duration;
  probe_Timeout : duration;
  probe_CooldownPeriod : duration;
}.

Record Prober := {
  pb_cfg : ProbeConfig;
  cooldownByDeployment : gmap string time;
}.

Definition NewProber (cfg : ProbeConfig) : Prober :=
  {| pb_cfg := {| probe_Enabled := cfg.(probe_Enabled);
                  probe_Interval := if cfg.(probe_Interval) <=? 0 then defaultProbeInterval else cfg.(probe_Interval);
                  probe_Timeout := if cfg.(probe_Timeout) <=? 0 then defaultProbeTimeout else cfg.(probe_Timeout);
                  probe_CooldownPeriod := cfg.(probe_CooldownPeriod) |};
     cooldownByDeployment := ∅ |}.

Definition recordCooldown (id : string) (until : time) (p : Prober) : Prober := p<|cooldownByDeployment ::= <[id := until]>|>.
Definition recordedCooldown (id : string) (p : Prober) : option time := p.(cooldownByDeployment) !! id.
Definition clearCooldown (id : string) (p : Prober) : Prober := p<|cooldownByDeployment ::= delete id|>.

Definition buildProbeRequest (model : string) : ChatRequest :=
  {| q_Model := model;
     q_Messages := [{| m_Role := "user"; m_Content := String (Ascii.ascii_of_nat 34) "healthcheck" +:+ String (Ascii.ascii_of_nat 34) "";
                       m_Name := ""; m_ToolCalls := []; m_ToolCallID := "" |}];
     q_Stream := false; q_MaxTokens := 1; q_Temperature := None; q_TopP := None; q_N := 0; q_Stop := []; q_PresencePenalty := None;
     q_FrequencyPenalty := None; q_User := ""; q_Tools := []; q_ToolChoice := ""; q_ResponseFormat := None; q_StreamOptions := None;
     q_Tags := []; q_Extra := None |}.

(** [t.Truncate(time.Second)] *)
Definition truncate_second (t : time) : time := t - t mod Second.

Section Prober.
Context {S E HttpRequest : Type} `{!StatsStore S} `{!Network E HttpRequest}.
Implicit Types (p : Prober) (r : BaseRouter S).

(** [handleFailure]: [now] is the reading of the clock, [order] and [now'] are those of
    the router. *)
Definition handleFailure (order : list string) (now now' : time) (d : Deployment) (p : Prober) (r : BaseRouter S) : Prober * BaseRouter S :=
  if p.(pb_cfg).(probe_CooldownPeriod) <=? 0 then (p, r)
  else
    let current := default zero_time (CooldownUntil <$> GetRouterStats r d.(ID)) in
    let until := truncate_second (time_add now p.(pb_cfg).(probe_CooldownPeriod)) in
    if after current until then (p, r)
    else
      match SetRouterCooldown order now' r d.(ID) until with
      | (r, Some _) => (p, r)
      | (r, None) => (recordCooldown d.(ID) until p, r)
      end.

Definition handleSuccess (order : list string) (now now' : time) (d : Deployment) (p : Prober) (r : BaseRouter S) : Prober * BaseRouter S :=
  if p.(pb_cfg).(probe_CooldownPeriod) <=? 0 then (p, r)
  else
    match GetRouterStats r d.(ID) with
    | None => (clearCooldown d.(ID) p, r)
    | Some st =>
        if negb (before now st.(CooldownUntil)) then (clearCooldown d.(ID) p, r)
        else
          match recordedCooldown d.(ID) p with
          | None => (clearCooldown d.(ID) p, r)
          | Some recorded =>
              if negb (st.(CooldownUntil) =? recorded) then (clearCooldown d.(ID) p, r)
              else
                match SetRouterCooldown order now' r d.(ID) zero_time with
                | (r, Some _) => (p, r)
                | (r, None) => (clearCooldown d.(ID) p, r)
                end
          end
    end.

(** [None] when the deployment answers.  The body of an error is read whole. *)
Definition probeDeployment (ctx : Ctx) (prov : Provider E HttpRequest) (d : Deployment) (e : E) : E * option go_error :=
  match prov.(BuildRequest) ctx (Some (buildProbeRequest d.(ModelName))) e with
  | (e, inl err) => (e, Some err)
  | (e, inr httpReq) =>
      match http_Do httpReq e with
      | (e, inl err) => (e, Some err)
      | (e, inr resp) =>
          if 400 <=? resp.(hr_Status) then
            (e, Some (match resp.(hr_Body).(body_bytes) with
                      | EmptyString => EText "healthcheck probe failed"
                      | body => prov.(MapError) resp.(hr_Status) body
                      end))
          else (e, None)
      end
  end.

(** One probe and its consequence. *)
Definition probe_one (order : list string) (ctx : Ctx) (provider : string -> option (Provider E HttpRequest)) (d : Deployment)
  (s : Prober * BaseRouter S * E) : Prober * BaseRouter S * E :=
  let '(p, r, e) := s in
  match provider d.(ProviderName) with
  | None => s
  | Some prov =>
      match probeDeployment ctx prov d e with
      | (e, Some _) => let '(e, t) := now e in let '(e, t') := now e in let '(p, r) := handleFailure order t t' d p r in (p, r, e)
      | (e, None) => let '(e, t) := now e in let '(e, t') := now e in let '(p, r) := handleSuccess order t t' d p r in (p, r, e)
      end
  end.

(** [runOnce]: the deployments of the client in turn, until the context ends. *)
Fixpoint runOnce (order : list string) (ctx : Ctx) (provider : string -> option (Provider E HttpRequest)) (ds : list Deployment)
  (s : Prober * BaseRouter S * E) : Prober * BaseRouter S * E :=
  match ds with
  | [] => s
  | d :: ds' =>
      match ctx_Err ctx s.2 with
      | Some _ => s
      | None => runOnce order ctx provider ds' (probe_one order ctx provider d s)
      end
  end.

(** ** What probing does to cooldowns *)

(** The cooldown that requests outside a tenant see. *)
Definition cooldown_of (r : BaseRouter S) (id : string) : time := default zero_time (CooldownUntil <$> GetRouterStats r id).

Context `{!StatsStoreLaws S}.

Lemma set_cooldown_read order t r r' id until : SetRouterCooldown order t r id until = (r', None) -> cooldown_of r' id = until.
Proof.
  unfold SetRouterCooldown, cooldown_of, GetRouterStats. destruct (statsStore r) as [store|] eqn:Hs.
  - destruct (SetCooldown Background id until store) as [store' err] eqn:Ec. destruct err; [done|]. intros [= <-].
    destruct (set_cooldown_get _ _ _ _ _ Ec) as (st & Eg & Eu).
    match goal with |- context [recordCooldownMetric ?a ?b ?c ?d ?e] => destruct (recordCooldownMetric_frame a b c d e) as (_ & -> & _ & _) end.
    cbn. by rewrite Eg.
  - intros [= <-]. match goal with |- context [recordCooldownMetric ?a ?b ?c ?d ?e] => destruct (recordCooldownMetric_frame a b c d e) as (H1 & H2 & _ & _) end.
    rewrite H2. cbn. rewrite Hs. unfold localStatsSnapshot. rewrite H1. cbn. by rewrite lookup_insert_eq.
Qed.

Lemma set_cooldown_others order t r r' id id' until :
  SetRouterCooldown order t r id until = (r', None) -> id' <> id -> cooldown_of r' id' = cooldown_of r id'.
Proof.
  unfold SetRouterCooldown, cooldown_of, GetRouterStats. intros E1 Hne. revert E1. destruct (statsStore r) as [store|] eqn:Hs.
  - destruct (SetCooldown Background id until store) as [store' err'] eqn:Ec. destruct err'; [done|]. intros [= <-].
    match goal with |- context [recordCooldownMetric ?a ?b ?c ?d ?e] => destruct (recordCooldownMetric_frame a b c d e) as (H1 & H2 & _ & _) end.
    rewrite H2. cbn. rewrite (set_cooldown_frame _ _ _ _ _ _ Ec Hne). unfold localStatsSnapshot. by rewrite H1.
  - intros [= <-]. match goal with |- context [recordCooldownMetric ?a ?b ?c ?d ?e] => destruct (recordCooldownMetric_frame a b c d e) as (H1 & H2 & _ & _) end.
    rewrite H2. cbn. rewrite Hs. unfold localStatsSnapshot. rewrite H1. cbn. by rewrite lookup_insert_ne.
Qed.

(** A write of a cooldown that fails was made, or not. *)
Class CooldownErrors : Prop := cooldown_error ctx id until (s s' : S) err : SetCooldown ctx id until s = (s', Some err) ->
  (forall id', id' <> id -> GetStats ctx id' s' = GetStats ctx id' s)
  /\ (GetStats ctx id s' = GetStats ctx id s \/ exists st, GetStats ctx id s' = inr st /\ st.(CooldownUntil) = until).

Section Errors.
Context `{!CooldownErrors}.

(** After a write, with or without an error, the cooldown is the one written or the one
    of before, and the others are as they were. *)
Lemma set_cooldown_result order t r r' id until err : SetRouterCooldown order t r id until = (r', err) ->
  (cooldown_of r' id = until \/ cooldown_of r' id = cooldown_of r id)
  /\ forall id', id' <> id -> cooldown_of r' id' = cooldown_of r id'.
Proof.
  destruct err as [err|]; [|intros E1; split; [left; by eapply set_cooldown_read|intros id' Hne; by eapply set_cooldown_others]].
  unfold SetRouterCooldown. destruct (statsStore r) as [store|] eqn:Hs; [|done].
  destruct (SetCooldown Background id until store) as [store' [e|]] eqn:Ec; [|done]. intros [= <- _].
  destruct (cooldown_error _ _ _ _ _ _ Ec) as [Ho Hi]. unfold cooldown_of, GetRouterStats, localStatsSnapshot. cbn. rewrite Hs. split.
  - destruct Hi as [->|(st & -> & Hu)]; [by right|left; exact Hu].
  - intros id' Hne. by rewrite Ho.
Qed.

(** What one probe changes: the cooldown moved on or stayed; or it was the one the prober
    had recorded.  The rest of the router and of the prober's notes stays. *)
Definition probe_effect (id : string) (p : Prober) (r : BaseRouter S) (p' : Prober) (r' : BaseRouter S) : Prop :=
  (recordedCooldown id p <> Some (cooldown_of r id) -> cooldown_of r id <= cooldown_of r' id)
  /\ forall id', id' <> id -> cooldown_of r' id' = cooldown_of r id' /\ recordedCooldown id' p' = recordedCooldown id' p.

Lemma effect_same id p r : probe_effect id p r p r.
Proof. split; [done|by intros id' _]. Qed.

Lemma effect_cleared id p r : probe_effect id p r (clearCooldown id p) r.
Proof. split; [done|]. intros id' Hne. split; [done|]. by apply lookup_delete_ne. Qed.

Lemma failure_effect order t t' d p r :
  let '(p', r') := handleFailure order t t' d p r in probe_effect d.(ID) p r p' r'.
Proof.
  unfold handleFailure. destruct (_ <=? 0); [apply effect_same|].
  fold (cooldown_of r d.(ID)). set (until := truncate_second _). unfold after. destruct (Z.ltb_spec until (cooldown_of r d.(ID))); [apply effect_same|].
  destruct (SetRouterCooldown order t' r d.(ID) until) as [r' err] eqn:Er. destruct (set_cooldown_result _ _ _ _ _ _ _ Er) as [Hi Ho].
  assert (Hle : cooldown_of r d.(ID) <= cooldown_of r' d.(ID)) by lia.
  destruct err; (split; [done|intros id' Hne; split; [by apply Ho|]]); [done|by apply lookup_insert_ne].
Qed.

Lemma success_effect order t t' d p r :
  let '(p', r') := handleSuccess order t t' d p r in probe_effect d.(ID) p r p' r'.
Proof.
  unfold handleSuccess. destruct (_ <=? 0); [apply effect_same|]. pose proof (effect_cleared d.(ID) p r) as Clear.
  destruct (GetRouterStats r d.(ID)) as [st|] eqn:Eg; [|done]. destruct (negb (before _ _)); [done|].
  destruct (recordedCooldown d.(ID) p) as [rec|] eqn:Ec; [|done]. destruct (Z.eqb_spec st.(CooldownUntil) rec) as [Hu|]; cbn [negb]; [|done].
  destruct (SetRouterCooldown order t' r d.(ID) zero_time) as [r' err] eqn:Er. destruct (set_cooldown_result _ _ _ _ _ _ _ Er) as [_ Ho].
  assert (Own : recordedCooldown d.(ID) p = Some (cooldown_of r d.(ID))) by (unfold cooldown_of; rewrite Eg, Ec; cbn; by rewrite Hu).
  destruct err; (split; [done|intros id' Hne; split; [by apply Ho|]]); [done|by apply lookup_delete_ne].
Qed.

Lemma probe_one_effect order ctx provider d p r e p' r' e' : probe_one order ctx provider d (p, r, e) = (p', r', e') ->
  probe_effect d.(ID) p r p' r'.
Proof.
  unfold probe_one. destruct (provider _) as [prov|]; [|intros [= <- <- <-]; apply effect_same].
  destruct (probeDeployment _ _ _ _) as [e1 [err|]]; destruct (now e1) as [e2 t]; destruct (now e2) as [e3 t'].
  - pose proof (failure_effect order t t' d p r) as Hf. destruct (handleFailure _ _ _ _ _ _). by intros [= <- <- <-].
  - pose proof (success_effect order t t' d p r) as Hf. destruct (handleSuccess _ _ _ _ _ _). by intros [= <- <- <-].
Qed.

Lemma run_absent order ctx provider ds p r e p' r' e' id :
  id ∉ map ID ds -> runOnce order ctx provider ds (p, r, e) = (p', r', e') -> cooldown_of r' id = cooldown_of r id.
Proof.
  revert p r e. induction ds as [|d ds IH]; intros p r e Hn; cbn [runOnce]; [by intros [= <- <- <-]|].
  cbn [snd]. destruct (ctx_Err ctx e); [by intros [= <- <- <-]|]. destruct (probe_one order ctx provider d (p, r, e)) as [[p1 r1] e1] eqn:E1.
  apply probe_one_effect in E1 as [_ Hk]. cbn [map] in Hn. apply not_elem_of_cons in Hn as [Hne Hn]. intros Hr. rewrite (IH _ _ _ Hn Hr). by apply Hk.
Qed.

(** C24: A round of probes ends only the cooldowns that the prober began.  In one round
    over the deployments of a client, each with its own identifier, whatever they answer
    and whichever writes of a cooldown fail: the cooldown of a deployment that is not the
    one the prober had noted for it when the round began is not made shorter.  (A failed
    probe replaces a cooldown that is over sooner by the prober's own, which a later round
    may end.) *)
Theorem probe_ends_only_its_own order ctx provider ds p r e p' r' e' id :
  NoDup (map ID ds) -> runOnce order ctx provider ds (p, r, e) = (p', r', e') ->
  recordedCooldown id p <> Some (cooldown_of r id) -> cooldown_of r id <= cooldown_of r' id.
Proof.
  revert p r e. induction ds as [|d ds IH]; intros p r e Hd; cbn [runOnce]; [by intros [= <- <- <-]|].
  cbn [snd]. destruct (ctx_Err ctx e); [by intros [= <- <- <-]|]. apply NoDup_cons in Hd as [Hn Hd].
  destruct (probe_one order ctx provider d (p, r, e)) as [[p1 r1] e1] eqn:E1. apply probe_one_effect in E1 as [He Hk]. intros Hr Hrec.
  destruct (decide (id = d.(ID))) as [->|Hne].
  - rewrite (run_absent _ _ _ _ _ _ _ _ _ _ _ Hn Hr). by apply He.
  - destruct (Hk id Hne) as [Hc Hp]. rewrite <- Hc. apply (IH p1 r1 e1); [done|done|by rewrite Hc, Hp].
Qed.
End Errors.

(** A store that takes every cooldown.  The local statistics and the store in memory always
    do; the store in Redis may fail, so what follows does not cover it. *)
Class TakesCooldowns : Prop := takes_cooldown ctx id until (s : S) : (SetCooldown ctx id until s).2 = None.
Context `{!TakesCooldowns}.

Lemma set_cooldown_taken order t r id until : exists r', SetRouterCooldown order t r id until = (r', None).
Proof.
  unfold SetRouterCooldown. destruct (statsStore r) as [store|]; [|eauto]. pose proof (takes_cooldown Background id until store) as Ht.
  destruct (SetCooldown _ _ _ _) as [s' err]. cbn in Ht. subst err. eauto.
Qed.

(** A deployment that answers again is back in service.  After a probe that failed
    took a deployment out of service, a probe that succeeds before the cooldown is over
    puts it back, when nobody has set another cooldown in between. *)
Theorem probe_recovers order t t' u u' d p r p1 r1 p2 r2 :
  0 < p.(pb_cfg).(probe_CooldownPeriod) -> cooldown_of r d.(ID) <= truncate_second (t + p.(pb_cfg).(probe_CooldownPeriod)) ->
  handleFailure order t t' d p r = (p1, r1) -> u < truncate_second (t + p.(pb_cfg).(probe_CooldownPeriod)) -> handleSuccess order u u' d p1 r1 = (p2, r2) ->
  cooldown_of r1 d.(ID) = truncate_second (t + p.(pb_cfg).(probe_CooldownPeriod)) /\ cooldown_of r2 d.(ID) = zero_time.
Proof.
  intros Hp Hle Hf Hu Hs. set (until := truncate_second _) in *. unfold handleFailure in Hf. rewrite (proj2 (Z.leb_gt _ _)) in Hf by lia.
  fold (cooldown_of r d.(ID)) in Hf. unfold time_add in Hf. fold until in Hf. unfold after in Hf. rewrite (proj2 (Z.ltb_ge _ _)) in Hf by lia.
  destruct (set_cooldown_taken order t' r d.(ID) until) as [r' Er]. rewrite Er in Hf. injection Hf as <- <-.
  pose proof (set_cooldown_read _ _ _ _ _ _ Er) as Hc. split; [done|]. unfold handleSuccess in Hs. cbn [recordCooldown pb_cfg] in Hs.
  change (pb_cfg (recordCooldown d.(ID) until p)) with (pb_cfg p) in Hs. rewrite (proj2 (Z.leb_gt _ _)) in Hs by lia.
  destruct (GetRouterStats r' d.(ID)) as [st|] eqn:Eg; [|injection Hs as _ <-; unfold cooldown_of; by rewrite Eg].
  assert (Hst : st.(CooldownUntil) = until) by (unfold cooldown_of in Hc; by rewrite Eg in Hc). rewrite Hst in Hs.
  unfold before in Hs. rewrite (proj2 (Z.ltb_lt _ _)) in Hs by done. cbn [negb] in Hs.
  assert (Hrec : recordedCooldown d.(ID) (recordCooldown d.(ID) until p) = Some until) by apply lookup_insert_eq. rewrite Hrec, Z.eqb_refl in Hs. cbn [negb] in Hs.
  destruct (set_cooldown_taken order u' r' d.(ID) zero_time) as [r'' Er']. rewrite Er' in Hs. injection Hs as _ <-. by eapply set_cooldown_read.
Qed.

End Prober.

(** ** On the in-memory store *)

Module Clinic.
Import PickTheorems.Fleet.

#[export] Instance memory_takes : TakesCooldowns (S:=MemoryStore.MemoryStatsStore).
Proof. done. Qed.
#[export] Instance memory_errors : CooldownErrors (S:=MemoryStore.MemoryStatsStore).
Proof. done. Qed.

Definition prober : Prober := NewProber {| probe_Enabled := true; probe_Interval := 0; probe_Timeout := 0; probe_CooldownPeriod := 60 * Second |}.
Definition supplier (_ : string) : option (Provider Demo.env string) := Some (Demo.provider "east").
Definition down : Demo.env := {| Demo.clock := noon; Demo.replies := []; Demo.cancelled := false |}.

(** The router has the deployment out for an hour; a probe fails in between. *)
Definition hour_off : BaseRouter store := (SetRouterCooldown [] noon fresh east.(ID) (noon + Hour)).1.

Lemma probe_ends_only_its_own_witness : noon + Hour <= cooldown_of (runOnce [] Demo.nobody supplier [east] (prober, hour_off, down)).1.2 east.(ID).
Proof.
  destruct (runOnce [] Demo.nobody supplier [east] (prober, hour_off, down)) as [[p' r'] e'] eqn:Er.
  apply (probe_ends_only_its_own [] Demo.nobody supplier [east] prober hour_off down p' r' e' east.(ID)); [repeat constructor; apply not_elem_of_nil|exact Er|done].
Defined.

Lemma probe_recovers_witness :
  let '(p1, r1) := handleFailure [] noon noon east prober fresh in
  let '(p2, r2) := handleSuccess [] (noon + Second) (noon + Second) east p1 r1 in
  cooldown_of r1 east.(ID) = noon + 60 * Second /\ cooldown_of r2 east.(ID) = zero_time.
Proof.
  destruct (handleFailure [] noon noon east prober fresh) as [p1 r1] eqn:E1.
  destruct (handleSuccess [] (noon + Second) (noon + Second) east p1 r1) as [p2 r2] eqn:E2.
  apply (probe_recovers [] noon noon (noon + Second) (noon + Second) east prober fresh p1 r1 p2 r2); [done|vm_compute; discriminate|exact E1|vm_compute; reflexivity|exact E2].
Defined.
End Clinic.
