(* ===== verification/Control.v ===== *)
(** * Control of the running gateway ([internal/api/control_endpoints.go])

    The endpoints that show deployments and providers, set and clear cooldowns and reload
    the configuration, over the router, the resilience manager, the manager of the
    configuration and the audit log; and the accessors of the client that they use.  Each
    reading of the clock is an argument. *)
From S2P Require Import Prelude Float64 Errors RouterTypes StatsStore BaseRouter Strategies PickTheorems Cooldown ResilienceManager AuthTypes AuthStore KeyManagement Directory AuditLog PluginPipeline ClientTypes Client ClientProofs ClientDemo ApiTypes ApiPayload Prober.
From S2P Require Config.

(** ** The client ([client.go]) *)

Section Client.
Context {E HttpRequest S P L C : Type} `{!StatsStore S}.
#[local] Abbreviation RT := (BaseRouter S).
#[local] Abbreviation Cl := (@Client E HttpRequest RT P L C).

(** [order] is the order of the map. *)
Definition ListDeployments (order : gmap string (list Deployment) -> list (string * list Deployment)) (c : Cl) : list Deployment :=
  concat (map snd (order c.(cl_deployments))).

Definition client_GetStats (id : string) (c : Cl) : option DeploymentStats := GetRouterStats c.(cl_router) id.

Definition client_SetCooldown (order : list string) (now : time) (id : string) (until : time) (c : Cl) : Cl * option store_err :=
  let (r, err) := SetRouterCooldown order now c.(cl_router) id until in (c<|cl_router := r|>, err).

Definition client_ResilienceStats (now : time) (key : string) (c : Cl) : Cl * ResilienceStats :=
  let (m, st) := Stats now key c.(cl_resilienceManager) in (c<|cl_resilienceManager := m|>, st).

Definition GetProvider (name : string) (c : Cl) : option (Provider E HttpRequest) := c.(cl_providers) !! name.

Definition GetProviders (order : gmap string (Provider E HttpRequest) -> list (string * Provider E HttpRequest)) (c : Cl) : list string :=
  map fst (order c.(cl_providers)).
End Client.

(** ** Who asks *)

Record auditActor := { aa_id : string; aa_kind : string; aa_email : string; aa_teamID : option string; aa_orgID : option string }.

Definition or_else {A : Type} (x y : option A) : option A := match x with Some _ => x | None => y end.

Definition auditActorFromContext (authCtx : option AuthContext) : auditActor :=
  let system := {| aa_id := "system"; aa_kind := "system"; aa_email := ""; aa_teamID := None; aa_orgID := None |} in
  match authCtx with
  | None => system
  | Some a =>
      let actor := match a.(a_User) with
                   | Some u => if String.eqb u.(u_ID) "" then system
                               else {| aa_id := u.(u_ID); aa_kind := "user"; aa_email := default "" u.(u_Email); aa_teamID := u.(u_TeamID); aa_orgID := u.(u_OrganizationID) |}
                   | None => system
                   end in
      let actor := match a.(a_APIKey) with
                   | Some k => if String.eqb actor.(aa_kind) "system" && negb (String.eqb k.(k_ID) "")
                               then {| aa_id := k.(k_ID); aa_kind := "api_key"; aa_email := actor.(aa_email); aa_teamID := k.(k_TeamID); aa_orgID := k.(k_OrganizationID) |}
                               else actor
                   | None => actor
                   end in
      match a.(a_Team) with
      | Some t => actor<|aa_teamID ::= fun x => or_else x (stringPtr t.(t_ID))|><|aa_orgID ::= fun x => or_else x t.(t_OrganizationID)|>
      | None => actor
      end
  end.

(** What the entries take from the HTTP request. *)
Record origin := { og_auth : option AuthContext; og_RemoteAddr : string; og_RequestID : string; og_UserAgent : string; og_RequestURI : string }.

Definition AuditActionUpdate : AuditAction := "update".
Definition AuditActionConfigUpdate : AuditAction := "config_update".
Definition AuditObjectModel : AuditObjectType := "model".
Definition AuditObjectConfig : AuditObjectType := "config".

Section Endpoints.
Context {E HttpRequest S P L C A : Type} `{!StatsStore S} `{!AuditLogStore A}.
#[local] Abbreviation Cl := (@Client E HttpRequest (BaseRouter S) P L C).
#[local] Abbreviation Logger := (@AuditLogger A).

(** [SplitHostPort] is that of [net]. *)
Definition control_log (r : origin) (action : AuditAction) (objectType : AuditObjectType) (objectID : string) (success : bool)
    (beforeValue afterValue metadata : nmap value) (errMsg : string) : AuditLog :=
  let actor := auditActorFromContext r.(og_auth) in
  {| al_ID := ""; al_Timestamp := zero_time; al_ActorID := actor.(aa_id); al_ActorType := actor.(aa_kind); al_ActorEmail := actor.(aa_email);
     al_ActorIP := requesterIP r.(og_RemoteAddr); al_Action := action; al_ObjectType := objectType; al_ObjectID := objectID;
     al_TeamID := actor.(aa_teamID); al_OrganizationID := actor.(aa_orgID); al_BeforeValue := beforeValue; al_AfterValue := afterValue;
     al_Diff := None; al_RequestID := r.(og_RequestID); al_UserAgent := r.(og_UserAgent); al_RequestURI := r.(og_RequestURI); al_Success := success;
     al_Error := errMsg; al_Metadata := metadata |}.

(** The store draws the identifier and the instant; its error is dropped. *)
Definition auditControlAction (id : string) (now : time) (r : origin) (action : AuditAction) (objectType : AuditObjectType) (objectID : string)
    (success : bool) (beforeValue afterValue metadata : nmap value) (errMsg : string) (al : option Logger) : option Logger :=
  match al with
  | None => None
  | Some al => Some (Log id now (control_log r action objectType objectID success beforeValue afterValue metadata errMsg) al).1
  end.

(** ** Deployments and providers *)

Record deploymentControlStatus := { dc_Deployment : Deployment; dc_Stats : option DeploymentStats; dc_CooldownActive : bool }.

Definition cooling (now : time) (st : option DeploymentStats) : bool :=
  match st with Some st => negb (is_zero st.(CooldownUntil)) && before now st.(CooldownUntil) | None => false end.

Definition h_ListDeployments (order : gmap string (list Deployment) -> list (string * list Deployment)) (now : time) (client : option Cl) :
    answer (list deploymentControlStatus) :=
  match client with
  | None => Fails 503 "client not available"
  | Some c => Gives (map (fun d => {| dc_Deployment := d; dc_Stats := client_GetStats d.(ID) c; dc_CooldownActive := cooling now (client_GetStats d.(ID) c) |})
                         (ListDeployments order c))
  end.

Record cooldownRequest := { cq_DeploymentID : string; cq_CooldownSeconds : Z }.

Record cooldownStatus := { cs_DeploymentID : string; cs_CooldownUntil : time; cs_CooldownActive : bool }.

(** [show] is the text of an error of the store; [t1], [t2] and [t3] are the clocks of the
    cooldown, the router and the answer. *)
Definition UpdateDeploymentCooldown (order : gmap string (list Deployment) -> list (string * list Deployment)) (ids : list string) (show : store_err -> string)
    (id : string) (t1 t2 t3 : time) (r : origin) (req : option cooldownRequest) (client : option Cl) (al : option Logger) :
    option Cl * option Logger * answer cooldownStatus :=
  match client with
  | None => (client, al, Fails 503 "client not available")
  | Some c =>
      match req with
      | None => (client, al, Fails 400 "invalid request body")
      | Some req =>
          if String.eqb req.(cq_DeploymentID) "" then (client, al, Fails 400 "deployment_id is required")
          else
            let d := req.(cq_DeploymentID) in
            let seconds := if req.(cq_CooldownSeconds) <? 0 then 0 else req.(cq_CooldownSeconds) in
            if negb (existsb (fun x => String.eqb x.(ID) d) (ListDeployments order c)) then (client, al, Fails 404 "deployment not found")
            else
              let beforeCooldown := default zero_time (CooldownUntil <$> client_GetStats d c) in
              let until := if 0 <? seconds then time_add t1 (wrap64 (seconds * Second)) else zero_time in
              let metadata := Some {["cooldown_seconds" := VInt seconds; "action" := VString (if 0 <? seconds then "set" else "clear")]} in
              match client_SetCooldown ids t2 d until c with
              | (c, Some err) =>
                  (Some c, auditControlAction id t3 r AuditActionUpdate AuditObjectModel d false None None metadata (show err) al,
                   Fails 500 "failed to update cooldown")
              | (c, None) =>
                  let al := auditControlAction id t3 r AuditActionUpdate AuditObjectModel d true
                              (Some {["cooldown_until" := VTime beforeCooldown]}) (Some {["cooldown_until" := VTime until]}) metadata "" al in
                  let st := client_GetStats d c in
                  let shown := match st with Some st => if is_zero st.(CooldownUntil) then until else st.(CooldownUntil) | None => until end in
                  (Some c, al, Gives {| cs_DeploymentID := d; cs_CooldownUntil := shown; cs_CooldownActive := cooling t3 st |})
              end
      end
  end.

Record providerControlStatus := { pc_Provider : string; pc_Models : list string; pc_Resilience : ResilienceStats }.

(** Reading the statistics refills the buckets of the limiter. *)
Fixpoint provider_statuses (now : time) (names : list string) (c : Cl) : Cl * list providerControlStatus :=
  match names with
  | [] => (c, [])
  | name :: names =>
      let models := match GetProvider name c with Some prov => prov.(SupportedModels) | None => [] end in
      let (c, st) := client_ResilienceStats now name c in
      let (c, rest) := provider_statuses now names c in
      (c, {| pc_Provider := name; pc_Models := models; pc_Resilience := st |} :: rest)
  end.

Definition ListProviders (order : gmap string (Provider E HttpRequest) -> list (string * Provider E HttpRequest)) (now : time) (client : option Cl) :
    option Cl * answer (list providerControlStatus) :=
  match client with
  | None => (None, Fails 503 "client not available")
  | Some c => let (c', l) := provider_statuses now (GetProviders order c) c in (Some c', Gives l)
  end.

(** ** The configuration *)

Definition GetConfigStatus (m : option Config.Manager) : answer Config.ConfigStatus :=
  match m with None => Fails 503 "config manager not available" | Some m => Gives (Config.Status m) end.

(** [expected] is the checksum of the body, the empty text when there is none; [None] is a
    body that does not parse. *)
Definition ReloadConfig (load : string -> go_error + Config.Config) (checksum : Config.Config -> go_error + string) (id : string) (t1 t2 : time) (r : origin)
    (expected : option string) (m : option Config.Manager) (al : option Logger) : option Config.Manager * option Logger * answer Config.ConfigStatus :=
  match m with
  | None => (m, al, Fails 503 "config manager not available")
  | Some mgr =>
      match expected with
      | None => (m, al, Fails 400 "invalid request body")
      | Some expected =>
          let previous := (Config.Status mgr).(Config.cs_Checksum) in
          if negb (String.eqb expected "") && negb (String.eqb expected previous) then (m, al, Fails 409 "config checksum mismatch")
          else
            match Config.Reload load checksum t1 mgr with
            | (mgr, Some err) =>
                (Some mgr, auditControlAction id t2 r AuditActionConfigUpdate AuditObjectConfig "gateway" false None None
                             (Some {["previous_checksum" := VString previous]}) (error_text err) al,
                 Fails 500 "failed to reload config")
            | (mgr, None) =>
                let current := (Config.Status mgr).(Config.cs_Checksum) in
                (Some mgr, auditControlAction id t2 r AuditActionConfigUpdate AuditObjectConfig "gateway" true
                             (Some {["checksum" := VString previous]}) (Some {["checksum" := VString current]})
                             (Some {["previous_checksum" := VString previous; "new_checksum" := VString current]}) "" al,
                 Gives (Config.Status mgr))
            end
      end
  end.
End Endpoints.

(** ** What control does and records *)

Section Audited.
Context {E HttpRequest S P L C : Type} `{!StatsStore S} `{!StatsStoreLaws S} `{!TakesCooldowns (S := S)}.
#[local] Abbreviation Cl := (@Client E HttpRequest (BaseRouter S) P L C).
#[local] Abbreviation log_of s := (Some (NewAuditLogger (S := MemoryAuditLogStore) (Some s) true)).

(** The entry about an action of someone, and what it says of the change. *)
Record tells (r : origin) (object : string) (b a : value) (key : string) (entry : AuditLog) : Prop := {
  tells_who : (entry.(al_ActorID), entry.(al_ActorType)) = ((auditActorFromContext r.(og_auth)).(aa_id), (auditActorFromContext r.(og_auth)).(aa_kind));
  tells_what : entry.(al_ObjectID) = object;
  tells_success : entry.(al_Success) = true;
  tells_before : entry.(al_BeforeValue) = Some {[key := b]};
  tells_after : entry.(al_AfterValue) = Some {[key := a]};
}.

(** The cooldown that is asked for. *)
Definition asked_until (t : time) (seconds : Z) : time := if 0 <? seconds then t + seconds * Second else zero_time.

(** Every cooldown that is set by hand is set as asked and recorded.  A request that is
    refused changes neither the client nor the log.  One that is answered is for a
    deployment of the client: its cooldown then ends after the seconds asked for, or is
    cleared when none are asked for, those of the other deployments are what they were,
    and the log has one entry more, which tells who asked, and the old and the new end of
    the cooldown. *)
Theorem cooldown_control_audited order ids show id t1 t2 t3 r req (c : Cl) s cl' al' ans :
  (forall q, req = Some q -> q.(cq_CooldownSeconds) <= 9223372036) ->
  UpdateDeploymentCooldown order ids show id t1 t2 t3 r req (Some c) (log_of s) = (cl', al', ans) ->
  match ans with
  | Fails _ _ => cl' = Some c /\ al' = log_of s
  | Gives st =>
      exists q d c' entry, req = Some q /\ d ∈ ListDeployments order c /\ d.(ID) = q.(cq_DeploymentID) /\ cl' = Some c'
        /\ cooldown_of c'.(cl_router) d.(ID) = asked_until t1 q.(cq_CooldownSeconds)
        /\ (forall other, other <> d.(ID) -> cooldown_of c'.(cl_router) other = cooldown_of c.(cl_router) other)
        /\ al' = log_of (s ++ [entry])
        /\ tells r d.(ID) (VTime (cooldown_of c.(cl_router) d.(ID))) (VTime (asked_until t1 q.(cq_CooldownSeconds))) "cooldown_until" entry
        /\ st.(cs_CooldownUntil) = asked_until t1 q.(cq_CooldownSeconds)
  end.
Proof.
  intros Hq. unfold UpdateDeploymentCooldown. destruct req as [q|]; [|by intros [= <- <- <-]]. specialize (Hq q eq_refl).
  destruct (String.eqb (cq_DeploymentID q) ""); [by intros [= <- <- <-]|].
  destruct (existsb _ _) eqn:Ex; cbn [negb]; [|by intros [= <- <- <-]].
  apply existsb_exists in Ex as (d & Hd & Hid%String.eqb_eq). apply list_elem_of_In in Hd. rewrite <- Hid.
  set (seconds := if cq_CooldownSeconds q <? 0 then 0 else cq_CooldownSeconds q). cbv zeta.
  assert (U : (if 0 <? seconds then time_add t1 (wrap64 (seconds * Second)) else zero_time) = asked_until t1 (cq_CooldownSeconds q)).
  { subst seconds. unfold asked_until, time_add. destruct (Z.ltb_spec (cq_CooldownSeconds q) 0); [by destruct (Z.ltb_spec 0 (cq_CooldownSeconds q)); [lia|]|].
    rewrite wrap64_id; [done|]. unfold in_i64, two63, Second. lia. }
  rewrite U. unfold client_SetCooldown.
  destruct (set_cooldown_taken ids t2 c.(cl_router) d.(ID) (asked_until t1 (cq_CooldownSeconds q))) as [r' Er]. rewrite Er.
  pose proof (set_cooldown_read ids t2 _ r' _ _ Er) as Hread. intros [= <- <- <-].
  eexists q, d, (c<|cl_router := r'|>), _. split; [done|]. split; [done|]. split; [done|]. split; [done|]. split; [done|].
  split; [intros other Hne; by eapply set_cooldown_others|]. split; [reflexivity|]. split; [by split|].
  cbn [cs_CooldownUntil]. unfold client_GetStats. cbn [cl_router]. unfold cooldown_of in Hread.
  change (cl_router c<|cl_router := r'|>) with r'. destruct (GetRouterStats r' (ID d)) as [st|]; cbn in Hread; [|done].
  unfold is_zero. destruct (Z.eqb_spec (CooldownUntil st) zero_time); [done|done].
Qed.
End Audited.

(** ** Reloading *)

(** A reload with the checksum of another configuration than the one in place changes
    nothing; one that succeeds is recorded with both checksums, and one that fails keeps
    the configuration and is recorded with its error. *)
Theorem reload_control_guarded load checksum id t1 t2 r expected m s :
  let log_of l := Some (NewAuditLogger (S := MemoryAuditLogStore) (Some l) true) in
  let '(m', al', ans) := ReloadConfig load checksum id t1 t2 r (Some expected) (Some m) (log_of s) in
  (expected <> "" -> expected <> m.(Config.mgr_checksum) -> m' = Some m /\ al' = log_of s /\ ans = Fails 409 "config checksum mismatch")
  /\ (expected = "" \/ expected = m.(Config.mgr_checksum) ->
      exists entry m1, al' = log_of (s ++ [entry]) /\ m' = Some m1
        /\ match (Config.Reload load checksum t1 m).2 with
           | Some err => m1 = (Config.Reload load checksum t1 m).1 /\ entry.(al_Success) = false /\ entry.(al_Error) = error_text err
           | None => m1 = (Config.Reload load checksum t1 m).1
                     /\ tells r "gateway" (VString m.(Config.mgr_checksum)) (VString m1.(Config.mgr_checksum)) "checksum" entry
           end).
Proof.
  intros log_of. unfold ReloadConfig. change (Config.cs_Checksum (Config.Status m)) with (Config.mgr_checksum m).
  destruct (String.eqb_spec expected "") as [Ee|Ee], (String.eqb_spec expected (Config.mgr_checksum m)) as [Em|Em]; cbn [negb andb].
  2, 1, 3: destruct (Config.Reload load checksum t1 m) as [m1 [err|]] eqn:R; (split; [done|]); intros _; eexists _, m1; (split; [reflexivity|]); (split; [done|]); cbn; by repeat split.
  split; [done|]. intros [|]; done.
Qed.

(** Ten thousand million seconds are more than a duration holds: the cooldown that is
    asked for ends in the past. *)
Example long_cooldown_past : time_add 0 (wrap64 (10000000000 * Second)) < 0.
Proof. vm_compute. reflexivity. Qed.

(** A deployment taken out for a minute by an administrator. *)
Module Desk.
Import PickTheorems.Fleet Prober.Clinic.

Definition desk_client : @Client Demo.env string (BaseRouter store) unit unit Demo.store :=
  (Demo.client fresh ∅ defaultConfig)<|cl_deployments := {["gpt-4o" := [east]]}|>.
Definition who : origin := {| og_auth := None; og_RemoteAddr := "10.0.0.7:4242"; og_RequestID := "r"; og_UserAgent := ""; og_RequestURI := "/control" |}.

Lemma cooldown_control_audited_witness :
  let out := UpdateDeploymentCooldown map_to_list [] (fun _ => "") "entry" noon noon noon who
               (Some {| cq_DeploymentID := east.(ID); cq_CooldownSeconds := 60 |}) (Some desk_client)
               (Some (NewAuditLogger (S := MemoryAuditLogStore) (Some []) true)) in
  exists c' entry, out.1.1 = Some c' /\ cooldown_of c'.(cl_router) east.(ID) = noon + 60 * Second
    /\ out.1.2 = Some (NewAuditLogger (Some [entry]) true) /\ entry.(al_ActorID) = "system".
Proof.
  intros out. destruct out as [[cl' al'] ans] eqn:Eo.
  pose proof (cooldown_control_audited map_to_list [] (fun _ => "") "entry" noon noon noon who
    (Some {| cq_DeploymentID := east.(ID); cq_CooldownSeconds := 60 |}) desk_client [] cl' al' ans) as T.
  assert (exists st, ans = Gives st) as [st ->] by (subst out; vm_compute in Eo; injection Eo as <- <- <-; by eexists).
  destruct T as (q & d & c' & entry & [= <-] & _ & Hd & -> & Hc & _ & -> & [Hw _ _ _ _] & _); [intros q [= <-]; vm_compute; discriminate|exact Eo|].
  exists c', entry. split; [reflexivity|]. cbn in Hd. rewrite Hd in Hc. split; [exact Hc|]. split; [reflexivity|]. by injection Hw.
Defined.
End Desk.
