(* ===== verification/Invitation.v ===== *)
(** * Invitations ([internal/auth/invitation.go], [internal/api/invitation_endpoints.go])

    An invitation is a link with a secret token, a limit on its uses and an expiry; who
    presents the token joins its team and its organization.  [AcceptInvitation] is the
    composition of three steps, between which requests can be interleaved: the call that
    finds the link, the calls that read and make the memberships, and the call that counts
    the use.  The second is up to four calls of the storage, taken as one; none of them
    touches a link. *)
From S2P Require Import Prelude Float64 AuthTypes AuthStore ModelName KeyUtils KeyManagement Directory.
Import MemoryAuth.

Record InvitationLink := {
  i_ID : string;
  i_Token : string;
  i_TeamID : option string;
  i_OrganizationID : option string;
  i_Role : string;
  i_MaxUses : Z;
  i_CurrentUses : Z;
  i_MaxBudget : option f64;
  i_ExpiresAt : option time;
  i_IsActive : bool;
  i_CreatedBy : string;
  i_CreatedAt : time;
  i_UpdatedAt : time;
  i_Description : string;
}.

Definition IsValid (now : time) (i : InvitationLink) : bool :=
  if negb i.(i_IsActive) then false
  else if match i.(i_ExpiresAt) with Some e => after now e | None => false end then false
  else if (0 <? i.(i_MaxUses)) && (i.(i_MaxUses) <=? i.(i_CurrentUses)) then false
  else true.

Record InvitationLinkFilter := {
  if_TeamID : option string;
  if_OrganizationID : option string;
  if_CreatedBy : option string;
  if_IsActive : option bool;
  if_Limit : Z;
  if_Offset : Z;
}.

(** ** The store of links *)

Class InvitationLinkStore (L : Type) := {
  CreateInvitationLink : InvitationLink -> L -> L * option auth_err;
  GetInvitationLink : string -> L -> auth_err + option InvitationLink;
  GetInvitationLinkByToken : string -> L -> auth_err + option InvitationLink;
  UpdateInvitationLink : InvitationLink -> L -> L * option auth_err;
  DeleteInvitationLink : string -> L -> L * option auth_err;
  ListInvitationLinks : InvitationLinkFilter -> L -> auth_err + list InvitationLink;
  IncrementInvitationLinkUses : time -> string -> L -> L * option auth_err;
}.

Module MemoryLinks.
Abbreviation links := (gmap string InvitationLink).

Definition ml_CreateInvitationLink (link : InvitationLink) (l : links) : links * option auth_err := (<[link.(i_ID) := link]> l, None).
Definition ml_GetInvitationLink (id : string) (l : links) : auth_err + option InvitationLink := inr (l !! id).

Definition ml_GetInvitationLinkByToken (ord : gset string -> list string) (tokenHash : string) (l : links) : auth_err + option InvitationLink :=
  inr (head (keep (fun link => String.eqb link.(i_Token) tokenHash) (range ord l))).

Definition ml_UpdateInvitationLink (link : InvitationLink) (l : links) : links * option auth_err :=
  match l !! link.(i_ID) with Some _ => (<[link.(i_ID) := link]> l, None) | None => (l, None) end.

Definition ml_DeleteInvitationLink (id : string) (l : links) : links * option auth_err := (delete id l, None).

Definition listed_link (f : InvitationLinkFilter) (link : InvitationLink) : bool :=
  negb (skip_opt f.(if_TeamID) link.(i_TeamID)) && negb (skip_opt f.(if_OrganizationID) link.(i_OrganizationID))
  && negb (skip_str f.(if_CreatedBy) link.(i_CreatedBy)) && negb (skip_bool f.(if_IsActive) link.(i_IsActive)).

(** An offset past the end is ignored. *)
Definition ml_ListInvitationLinks (ord : gset string -> list string) (f : InvitationLinkFilter) (l : links) : auth_err + list InvitationLink :=
  let results := keep (listed_link f) (range ord l) in
  let results := if (0 <? f.(if_Offset)) && (f.(if_Offset) <? Z.of_nat (length results)) then drop (Z.to_nat f.(if_Offset)) results else results in
  inr (if (0 <? f.(if_Limit)) && (f.(if_Limit) <? Z.of_nat (length results)) then take (Z.to_nat f.(if_Limit)) results else results).

Definition use_once (now : time) (link : InvitationLink) : InvitationLink := link<|i_CurrentUses ::= fun n => n +! 1|><|i_UpdatedAt := now|>.
Definition ml_IncrementInvitationLinkUses (now : time) (id : string) (l : links) : links * option auth_err := (alter (use_once now) id l, None).

Definition memory_links (ord : gset string -> list string) : InvitationLinkStore links := {|
  CreateInvitationLink := ml_CreateInvitationLink;
  GetInvitationLink := ml_GetInvitationLink;
  GetInvitationLinkByToken := ml_GetInvitationLinkByToken ord;
  UpdateInvitationLink := ml_UpdateInvitationLink;
  DeleteInvitationLink := ml_DeleteInvitationLink;
  ListInvitationLinks := ml_ListInvitationLinks ord;
  IncrementInvitationLinkUses := ml_IncrementInvitationLinkUses;
|}.
End MemoryLinks.

(** ** The service *)

Record CreateInvitationRequest := {
  cr_TeamID : option string;
  cr_OrganizationID : option string;
  cr_Role : string;
  cr_MaxUses : Z;
  cr_MaxBudget : option f64;
  cr_ExpiresIn : Z;
  cr_Description : string;
  cr_CreatedBy : string;
}.

Record AcceptInvitationRequest := { ar_Token : string; ar_UserID : string }.

Record AcceptInvitationResult := {
  Success : bool;
  a_TeamID : option string;
  a_OrganizationID : option string;
  a_Role : string;
  Message : string;
}.

Definition refused (msg : string) : AcceptInvitationResult :=
  {| Success := false; a_TeamID := None; a_OrganizationID := None; a_Role := ""; Message := msg |}.

Definition accepted (link : InvitationLink) : AcceptInvitationResult :=
  {| Success := true; a_TeamID := link.(i_TeamID); a_OrganizationID := link.(i_OrganizationID); a_Role := link.(i_Role);
     Message := "invitation accepted successfully" |}.

Section Service.
Context {S L : Type} `{!AuthStore S} `{!Directory S} `{!InvitationLinkStore L} `{!Crypto}.

Definition hashInvitationToken (token : string) : string := HashKey token.

(** [token] is 32 random bytes in hexadecimal, or the random source fails. *)
Definition CreateInvitation (now : time) (uuid : string) (token : option string) (req : CreateInvitationRequest) (l : L)
  : L * (option (InvitationLink * string)) :=
  match token with
  | None => (l, None)
  | Some token =>
      let link :=
        {| i_ID := uuid; i_Token := hashInvitationToken token; i_TeamID := req.(cr_TeamID); i_OrganizationID := req.(cr_OrganizationID);
           i_Role := req.(cr_Role); i_MaxUses := req.(cr_MaxUses); i_CurrentUses := 0; i_MaxBudget := req.(cr_MaxBudget);
           i_ExpiresAt := if 0 <? req.(cr_ExpiresIn) then Some (time_add now (wrap64 (req.(cr_ExpiresIn) * Hour))) else None;
           i_IsActive := true; i_CreatedBy := req.(cr_CreatedBy); i_CreatedAt := now; i_UpdatedAt := now; i_Description := req.(cr_Description) |} in
      match CreateInvitationLink link l with (l, Some _) => (l, None) | (l, None) => (l, Some (link, token)) end
  end.

(** *** Acceptance, step by step *)

(** The link of the token, if it is valid at [now]. *)
Definition accept_find (now : time) (token : string) (l : L) : auth_err + (AcceptInvitationResult + InvitationLink) :=
  match GetInvitationLinkByToken (hashInvitationToken token) l with
  | inl e => inl e
  | inr None => inr (inl (refused "invitation not found"))
  | inr (Some link) =>
      if negb (IsValid now link) then inr (inl (refused "invitation is expired or has reached maximum uses")) else inr (inr link)
  end.

(** An error of the lookup is dropped, and counts as no membership. *)
Definition accept_team (now : time) (userID : string) (link : InvitationLink) (s : S) : S * option auth_err :=
  match link.(i_TeamID) with
  | None => (s, None)
  | Some teamID =>
      match GetTeamMembership userID teamID s with
      | inr (Some _) => (s, None)
      | _ => CreateTeamMembership
               (zeroMembership<|tm_UserID := userID|><|tm_TeamID := teamID|><|tm_Role := link.(i_Role)|><|tm_JoinedAt := Some now|>) s
      end
  end.

Definition accept_org (now : time) (userID : string) (link : InvitationLink) (s : S) : S * option auth_err :=
  match link.(i_OrganizationID) with
  | None => (s, None)
  | Some orgID =>
      match GetOrganizationMembership userID orgID s with
      | inr (Some _) => (s, None)
      | _ => CreateOrganizationMembership
               (zeroOrgMembership<|om_UserID := userID|><|om_OrganizationID := orgID|><|om_UserRole := link.(i_Role)|><|om_JoinedAt := Some now|>) s
      end
  end.

Definition accept_join (nowTeam nowOrg : time) (userID : string) (link : InvitationLink) (s : S) : S * option auth_err :=
  match accept_team nowTeam userID link s with
  | (s, Some e) => (s, Some e)
  | (s, None) => accept_org nowOrg userID link s
  end.

Record accept_clock := { at_check : time; at_team_join : time; at_org_join : time; at_count : time }.

(** A failure to count the use is only logged. *)
Definition AcceptInvitation (c : accept_clock) (req : AcceptInvitationRequest) (s : S) (l : L) : S * L * (auth_err + AcceptInvitationResult) :=
  match accept_find c.(at_check) req.(ar_Token) l with
  | inl e => (s, l, inl e)
  | inr (inl result) => (s, l, inr result)
  | inr (inr link) =>
      match accept_join c.(at_team_join) c.(at_org_join) req.(ar_UserID) link s with
      | (s, Some e) => (s, l, inl e)
      | (s, None) => (s, (IncrementInvitationLinkUses c.(at_count) link.(i_ID) l).1, inr (accepted link))
      end
  end.

(** The link is read, changed and written back. *)
Definition deactivated (now : time) (link : InvitationLink) : InvitationLink := link<|i_IsActive := false|><|i_UpdatedAt := now|>.

Definition DeactivateInvitation (now : time) (id : string) (l : L) : L * option auth_err :=
  match GetInvitationLink id l with
  | inl e => (l, Some e)
  | inr None => (l, None)
  | inr (Some link) => UpdateInvitationLink (deactivated now link) l
  end.

(** ** The endpoints *)

Record CreateInvitationResponse := { cp_link : InvitationLink; cp_token : string }.

(** [req] is the body, [None] when it does not parse; the response has the fields of
    the link and the raw token. *)
Definition invitation_new (now : time) (uuid : string) (token : option string) (auth : option AuthContext) (req : option CreateInvitationRequest) (l : L)
  : L * answer CreateInvitationResponse :=
  match req with
  | None => (l, Fails 400 "invalid request body")
  | Some req =>
      match req.(cr_TeamID), req.(cr_OrganizationID) with
      | None, None => (l, Fails 400 "team_id or organization_id is required")
      | _, _ =>
          let createdBy :=
            match auth with
            | None => "system"
            | Some a =>
                match a.(a_User) ≫= (fun u => non_empty u.(u_ID)), a.(a_APIKey) ≫= (fun k => non_empty k.(k_ID)) with
                | Some id, _ => id
                | None, Some id => id
                | None, None => "system"
                end
            end in
          match CreateInvitation now uuid token (req<|cr_CreatedBy := createdBy|>) l with
          | (l, None) => (l, Fails 500 "failed to create invitation link")
          | (l, Some (link, raw)) => (l, Gives {| cp_link := link; cp_token := raw |})
          end
      end
  end.

Definition invitation_accept (c : accept_clock) (req : option AcceptInvitationRequest) (s : S) (l : L) : S * L * answer AcceptInvitationResult :=
  match req with
  | None => (s, l, Fails 400 "invalid request body")
  | Some req =>
      if String.eqb req.(ar_Token) "" then (s, l, Fails 400 "token is required")
      else if String.eqb req.(ar_UserID) "" then (s, l, Fails 400 "user_id is required")
      else match AcceptInvitation c req s l with
           | (s, l, inl _) => (s, l, Fails 500 "failed to accept invitation")
           | (s, l, inr result) => (s, l, if result.(Success) then Gives result else Fails 400 result.(Message))
           end
  end.

Definition hide_token (link : InvitationLink) : InvitationLink := link<|i_Token := ""|>.

Definition invitation_info (id : string) (l : L) : answer InvitationLink :=
  if String.eqb id "" then Fails 400 "id parameter is required"
  else match GetInvitationLink id l with
       | inl _ => Fails 500 "failed to get invitation link"
       | inr None => Fails 404 "invitation not found"
       | inr (Some link) => Gives (hide_token link)
       end.

(** The parameters of the query; [limit] and [offset] are the results of [strconv.Atoi]. *)
Definition invitation_list (teamID orgID createdBy isActive : string) (limit offset : option Z) (l : L) : answer (list InvitationLink * Z) :=
  let limit := default 0 limit in
  let filter := {| if_TeamID := non_empty teamID; if_OrganizationID := non_empty orgID; if_CreatedBy := non_empty createdBy;
                   if_IsActive := String.eqb "true" <$> non_empty isActive;
                   if_Limit := if limit <=? 0 then 50 else limit; if_Offset := default 0 offset |} in
  match ListInvitationLinks filter l with
  | inl _ => Fails 500 "failed to list invitation links"
  | inr links => Gives (hide_token <$> links, Z.of_nat (length links))
  end.

Definition invitation_deactivate (now : time) (req : option string) (l : L) : L * answer string :=
  match req with
  | None => (l, Fails 400 "invalid request body")
  | Some id =>
      if String.eqb id "" then (l, Fails 400 "id is required")
      else match DeactivateInvitation now id l with
           | (l, Some _) => (l, Fails 500 "failed to deactivate invitation")
           | (l, None) => (l, Gives "deactivated")
           end
  end.

Definition invitation_delete (req : option (list string)) (l : L) : L * answer (list string) :=
  match req with
  | None => (l, Fails 400 "invalid request body")
  | Some [] => (l, Fails 400 "ids is required")
  | Some ids => let '(l, deleted) := delete_each DeleteInvitationLink ids l in (l, Gives deleted)
  end.
End Service.

(** * Invitations and their limit

    Requests that accept invitations interleave between the calls of the stores.  A
    link with a limit is never used more often than the limit and the number of requests
    that are on it at once, less one; with one request at a time that is the limit, and
    with two it can be more. *)

Import MemoryAuth MemoryLinks.

Section Rooms.
Context {S : Type} `{!AuthStore S} `{!Directory S} `{!Crypto} (ord : gset string -> list string) (ord_spec : forall X, ord X ≡ₚ elements X).
#[local] Instance links_here : InvitationLinkStore links := memory_links ord.

(** A request between two calls. *)
Inductive task :=
| Found (link : InvitationLink) (user : string)
| Joined (link : InvitationLink)
| Leaving (link : InvitationLink).

(** The stores, the requests on their way, the acceptances so far, by link, and the
    identifiers of all links ever made. *)
Record room := { r_dir : S; r_links : links; r_tasks : list task; r_wins : list string; r_ids : gset string }.

Inductive step : room -> room -> Prop :=
| step_find s l ts ws ids now token user link :
    accept_find now token l = inr (inr link) ->
    step {| r_dir := s; r_links := l; r_tasks := ts; r_wins := ws; r_ids := ids |}
         {| r_dir := s; r_links := l; r_tasks := ts ++ [Found link user]; r_wins := ws; r_ids := ids |}
| step_join s s' l ts1 ts2 ws ids t1 t2 user link :
    accept_join t1 t2 user link s = (s', None) ->
    step {| r_dir := s; r_links := l; r_tasks := ts1 ++ Found link user :: ts2; r_wins := ws; r_ids := ids |}
         {| r_dir := s'; r_links := l; r_tasks := ts1 ++ Joined link :: ts2; r_wins := ws; r_ids := ids |}
| step_fail s s' l ts1 ts2 ws ids t1 t2 user link e :
    accept_join t1 t2 user link s = (s', Some e) ->
    step {| r_dir := s; r_links := l; r_tasks := ts1 ++ Found link user :: ts2; r_wins := ws; r_ids := ids |}
         {| r_dir := s'; r_links := l; r_tasks := ts1 ++ ts2; r_wins := ws; r_ids := ids |}
| step_count s l ts1 ts2 ws ids now link :
    step {| r_dir := s; r_links := l; r_tasks := ts1 ++ Joined link :: ts2; r_wins := ws; r_ids := ids |}
         {| r_dir := s; r_links := (IncrementInvitationLinkUses now link.(i_ID) l).1; r_tasks := ts1 ++ ts2; r_wins := link.(i_ID) :: ws; r_ids := ids |}
| step_create s l ts ws ids now uuid token req :
    uuid ∉ ids ->
    step {| r_dir := s; r_links := l; r_tasks := ts; r_wins := ws; r_ids := ids |}
         {| r_dir := s; r_links := (CreateInvitation now uuid token req l).1; r_tasks := ts; r_wins := ws; r_ids := {[uuid]} ∪ ids |}
| step_leave s l ts ws ids id link :
    GetInvitationLink id l = inr (Some link) ->
    step {| r_dir := s; r_links := l; r_tasks := ts; r_wins := ws; r_ids := ids |}
         {| r_dir := s; r_links := l; r_tasks := ts ++ [Leaving link]; r_wins := ws; r_ids := ids |}
| step_left s l ts1 ts2 ws ids now link :
    step {| r_dir := s; r_links := l; r_tasks := ts1 ++ Leaving link :: ts2; r_wins := ws; r_ids := ids |}
         {| r_dir := s; r_links := (UpdateInvitationLink (deactivated now link) l).1; r_tasks := ts1 ++ ts2; r_wins := ws; r_ids := ids |}
| step_delete s l ts ws ids id :
    step {| r_dir := s; r_links := l; r_tasks := ts; r_wins := ws; r_ids := ids |}
         {| r_dir := s; r_links := (DeleteInvitationLink id l).1; r_tasks := ts; r_wins := ws; r_ids := ids |}.

Definition on_link (id : string) (t : task) : bool :=
  match t with Found k _ | Joined k => String.eqb k.(i_ID) id | Leaving _ => false end.

(** The requests that are on a link, and the uses of it. *)
Definition busy (id : string) (r : room) : Z := count_if (on_link id) r.(r_tasks).
Definition uses (id : string) (r : room) : Z := count_if (String.eqb id) r.(r_wins).

(** At most [k] requests are on the link at once. *)
Definition step_within (id : string) (k : Z) (r r' : room) : Prop := step r r' /\ busy id r' <= k.

(** ** The invariant of a link *)

Record link_ok (id : string) (limit k : Z) (r : room) : Prop := {
  link_keyed : map_Forall (fun key link => link.(i_ID) = key) r.(r_links);
  link_count link : r.(r_links) !! id = Some link -> link.(i_IsActive) = true -> link.(i_MaxUses) = limit /\ link.(i_CurrentUses) = uses id r;
  link_bound : uses id r + busy id r <= limit + k - 1;
  link_known : id ∈ r.(r_ids);
}.

Lemma count_if_app {A : Type} (f : A -> bool) l1 l2 : count_if f (l1 ++ l2) = count_if f l1 + count_if f l2.
Proof. unfold count_if, keep. rewrite List.filter_app, length_app. lia. Qed.

Lemma count_if_cons {A : Type} (f : A -> bool) x l : count_if f (x :: l) = Z_of_bool (f x) + count_if f l.
Proof. unfold count_if, keep. cbn. destruct (f x); cbn; lia. Qed.

Lemma count_if_nil {A : Type} (f : A -> bool) : count_if f [] = 0.
Proof. done. Qed.

Lemma found_link l now token link :
  map_Forall (fun key link => link.(i_ID) = key) l -> accept_find now token l = inr (inr link) -> l !! link.(i_ID) = Some link /\ IsValid now link = true.
Proof.
  intros Hk. unfold accept_find. cbn [GetInvitationLinkByToken links_here memory_links]. unfold ml_GetInvitationLinkByToken.
  destruct (head _) as [lk|] eqn:Eh; [|done]. destruct (IsValid now lk) eqn:Ev; [|done]. intros [= <-]. split; [|done].
  apply head_Some_elem_of, elem_of_keep in Eh as [Hin _]. apply (range_elem ord ord_spec) in Hin as [key Hl]. by rewrite (Hk _ _ Hl).
Qed.

Lemma valid_below now link : IsValid now link = true -> 0 < link.(i_MaxUses) -> link.(i_IsActive) = true /\ link.(i_CurrentUses) < link.(i_MaxUses).
Proof.
  unfold IsValid. destruct (i_IsActive link); [|done]. cbn [negb]. destruct (match i_ExpiresAt link with Some e => _ | None => _ end); [done|].
  destruct (Z.ltb_spec 0 (i_MaxUses link)), (Z.leb_spec (i_MaxUses link) (i_CurrentUses link)); done || lia.
Qed.

Section Link.
Context (id : string) (limit k : Z) (Hlimit : 0 < limit) (Hk : 0 <= k) (Hmax : limit + k <= two63).

Ltac count := unfold busy, uses in *; cbn [r_tasks r_wins r_links] in *; rewrite ?count_if_app, ?count_if_cons, ?count_if_nil in *; cbn [on_link] in *.

Lemma step_link_ok r r' : link_ok id limit k r -> step_within id k r r' -> link_ok id limit k r'.
Proof.
  intros [Hkey Hc Hb Hi] [Hs Hw]. destruct Hs as [s l ts ws ids now token user link Hf|s s' l ts1 ts2 ws ids t1 t2 user link Hj
    |s s' l ts1 ts2 ws ids t1 t2 user link e Hj|s l ts1 ts2 ws ids now link|s l ts ws ids now uuid token req Hu|s l ts ws ids id' link Hg
    |s l ts1 ts2 ws ids now link|s l ts ws ids id']; cbn [r_links r_ids] in *.
  - destruct (found_link l now token link Hkey Hf) as [Hl Hv]. split; [done|done| |done]. count.
    destruct (String.eqb_spec (i_ID link) id) as [Ei|_]; [|unfold Z_of_bool in *; lia]. rewrite Ei in Hl.
    destruct (i_IsActive link) eqn:Ea; [|unfold IsValid in Hv; by rewrite Ea in Hv]. destruct (Hc link Hl Ea) as [Em Eu].
    destruct (valid_below now link Hv ltac:(lia)). lia.
  - split; [done|done| |done]. count. lia.
  - split; [done|done| |done]. count. unfold Z_of_bool in *. destruct (String.eqb _ _); lia.
  - assert (Huse : uses id {| r_dir := s; r_links := l; r_tasks := ts1 ++ Joined link :: ts2; r_wins := ws; r_ids := ids |} < two63 - 1 \/ i_ID link <> id).
    { destruct (decide (i_ID link = id)) as [E|]; [left|by right]. count. rewrite E, String.eqb_refl in Hb. cbn in Hb.
      pose proof (count_if_nonneg (on_link id) ts1). pose proof (count_if_nonneg (on_link id) ts2). lia. }
    split; cbn; [| | |done].
    + intros key lk. rewrite lookup_alter_Some. intros [(<- & lk' & Hl & ->)|[_ Hl]]; [by apply (Hkey _ _ Hl)|by apply Hkey].
    + intros lk. rewrite lookup_alter_Some. count. pose proof (count_if_nonneg (String.eqb id) ws).
      intros [(Ei & lk' & Hl & ->)|[Ne Hl]] Ha.
      * destruct (Hc lk' Hl Ha) as [Em Eu]. split; [done|]. cbn. rewrite Eu, Ei, String.eqb_refl, wrap64_id; [cbn; lia|].
        destruct Huse as [Huse|]; [|congruence]. unfold in_i64, two63 in *. lia.
      * rewrite (proj2 (String.eqb_neq id (i_ID link))) by congruence. cbn. by apply Hc.
    + count. unfold Z_of_bool in *. rewrite (String.eqb_sym id (i_ID link)). destruct (String.eqb (i_ID link) id); lia.
  - split; cbn; [| | |set_solver]; unfold CreateInvitation; destruct token as [tk|]; cbn; try done.
    + by apply map_Forall_insert_2.
    + intros lk. rewrite lookup_insert_ne by set_solver. apply Hc.
  - split; [done|done| |done]. count. cbn. lia.
  - split; cbn; [| | |done]; unfold ml_UpdateInvitationLink.
    + case_match; [by apply map_Forall_insert_2|exact Hkey].
    + intros lk. case_match; cbn; [|apply Hc]. rewrite lookup_insert_Some. intros [[_ <-]|[_ Hl]]; [done|by apply Hc].
    + count. cbn in Hb. lia.
  - split; cbn; [by apply map_Forall_delete| |done|done]. intros lk. rewrite lookup_delete_Some. intros [_ Hl]. by apply Hc.
Qed.

(** C22: The limit of an invitation, with requests in parallel.  From a room in which
    nothing is on its way, whatever requests to accept, deactivate, delete and create
    invitations are interleaved between the calls of the stores, a link with a
    limit is used at most as often as the limit and the number of requests that are
    on it at once, less one. *)
Theorem invitation_uses_bounded r r' link :
  1 <= k -> r.(r_tasks) = [] -> id ∉ r.(r_wins) -> id ∈ r.(r_ids) -> map_Forall (fun key link => link.(i_ID) = key) r.(r_links) ->
  r.(r_links) !! id = Some link -> link.(i_MaxUses) = limit -> link.(i_CurrentUses) = 0 ->
  rtc (step_within id k) r r' -> uses id r' <= limit + k - 1.
Proof.
  intros H1 Ht Hw Hi Hkey Hl Hm Hu Hr.
  assert (Hz : uses id r = 0).
  { unfold uses, count_if. rewrite (proj2 (keep_nil _ _)); [done|]. intros x Hx. apply String.eqb_neq. congruence. }
  assert (H0 : link_ok id limit k r).
  { split; [done| | |done]; rewrite Hz; [|unfold busy; rewrite Ht, count_if_nil; lia]. intros lk Hl' _. rewrite Hl in Hl'. by injection Hl' as <-. }
  assert (H' : link_ok id limit k r').
  { revert H0. clear Ht Hw Hi Hkey Hl Hz. induction Hr as [|r1 r2 r3 Hs _ IH]; [done|]. intros H0. apply IH. by eapply step_link_ok. }
  pose proof (link_bound _ _ _ _ H'). pose proof (count_if_nonneg (on_link id) r'.(r_tasks)). unfold busy in *. lia.
Qed.
End Link.
End Rooms.

(** ** One request *)

Section Accept.
Context `{!Crypto} (ord : gset string -> list string) (toLower : string -> string) (ord_spec : forall X, ord X ≡ₚ elements X).
#[local] Instance accept_links : InvitationLinkStore links := memory_links ord.
#[local] Instance accept_store : AuthStore MemoryStore := memory_auth_store ord.
#[local] Instance accept_directory : Directory MemoryStore := memory_directory ord toLower.

Lemma team_joined now user link (s : MemoryStore) team :
  memberships_ok s -> no_colon user = true -> link.(i_TeamID) = Some team -> has_membership (accept_team now user link s).1 user team.
Proof.
  intros Hok Hu Ht. unfold accept_team. rewrite Ht. cbn. unfold ms_GetTeamMembership. destruct (teamMemberships s !! membershipKey user team) as [m|] eqn:Em.
  - destruct (Hok _ _ Em) as [Ek Hm]. apply membership_key_inj in Ek as [Eu Et]; [|done..]. by exists m.
  - exists (zeroMembership<|tm_UserID := user|><|tm_TeamID := team|><|tm_Role := i_Role link|><|tm_JoinedAt := Some now|>).
    cbn. by rewrite lookup_insert_eq.
Qed.

(** Accepting an invitation in memory.  A request is answered by success exactly
    when the first link of its token is valid; then the user is in the team of the link
    and the link has one use more, and otherwise nothing changes. *)
Theorem accept_exact c req (s : MemoryStore) (l : links) :
  memberships_ok s -> no_colon req.(ar_UserID) = true -> map_Forall (fun key link => link.(i_ID) = key) l ->
  let '(s', l', result) := AcceptInvitation c req s l in
  match head (keep (fun link => String.eqb link.(i_Token) (hashInvitationToken req.(ar_Token))) (range ord l)) with
  | Some link =>
      if IsValid c.(at_check) link then
        result = inr (accepted link) /\ l' = alter (use_once c.(at_count)) link.(i_ID) l
        /\ forall team, link.(i_TeamID) = Some team -> has_membership s' req.(ar_UserID) team
      else result = inr (refused "invitation is expired or has reached maximum uses") /\ s' = s /\ l' = l
  | None => result = inr (refused "invitation not found") /\ s' = s /\ l' = l
  end.
Proof.
  intros Hok Hu Hk. unfold AcceptInvitation, accept_find. cbn [GetInvitationLinkByToken accept_links memory_links]. unfold ml_GetInvitationLinkByToken.
  destruct (head _) as [link|]; [|done]. destruct (IsValid (at_check c) link); cbn [negb]; [|done].
  assert (Hj : exists s1, accept_join (at_team_join c) (at_org_join c) (ar_UserID req) link s = (s1, None)
                /\ s1.(teamMemberships) = (accept_team (at_team_join c) (ar_UserID req) link s).1.(teamMemberships)).
  { unfold accept_join. assert (Ht : (accept_team (at_team_join c) (ar_UserID req) link s).2 = None) by (unfold accept_team; cbn; by repeat case_match).
    destruct (accept_team _ _ _ _) as [s1 o]. cbn in Ht. subst o. unfold accept_org. cbn. repeat case_match; eexists; split; done. }
  destruct Hj as (s1 & -> & Em). split; [done|]. split; [done|]. intros team Ht. unfold has_membership. rewrite Em. by apply team_joined.
Qed.
End Accept.

(** ** Two at once *)

Module Party.
#[local] Instance crypto : Crypto := {| sha256_hex s := "#" +:+ s; base64url s := s |}.
#[local] Instance party_links : InvitationLinkStore links := memory_links elements.
#[local] Instance party_store : AuthStore MemoryStore := memory_auth_store elements.
#[local] Instance party_directory : Directory MemoryStore := memory_directory elements (fun s => s).

(** An invitation for one. *)
Definition link : InvitationLink :=
  {| i_ID := "inv"; i_Token := "#tok"; i_TeamID := Some "red"; i_OrganizationID := None; i_Role := "member"; i_MaxUses := 1; i_CurrentUses := 0;
     i_MaxBudget := None; i_ExpiresAt := None; i_IsActive := true; i_CreatedBy := "system"; i_CreatedAt := 0; i_UpdatedAt := 0; i_Description := "" |}.

Definition start : room := {| r_dir := NewMemoryStore; r_links := {["inv" := link]}; r_tasks := []; r_wins := []; r_ids := {["inv"]} |}.

Definition joined (users : list string) : MemoryStore := foldl (fun s u => (accept_join 5 5 u link s).1) NewMemoryStore users.
Definition used (n : nat) : links := Nat.iter n (fun l => (IncrementInvitationLinkUses 5 "inv" l).1) {["inv" := link]}.

Definition at_door (s : MemoryStore) (l : links) (ts : list task) (ws : list string) : room :=
  {| r_dir := s; r_links := l; r_tasks := ts; r_wins := ws; r_ids := {["inv"]} |}.

(** Both are let in before either is counted. *)
Lemma both_enter : rtc (step_within elements "inv" 2) start (at_door (joined ["ada"; "eve"]) (used 2) [] ["inv"; "inv"]).
Proof.
  unfold start. fold (at_door NewMemoryStore {["inv" := link]} [] []).
  eapply rtc_l; [split; [eapply (step_find elements _ _ [] [] _ 5 "tok" "ada" link); vm_compute; reflexivity|vm_compute; discriminate]|].
  eapply rtc_l; [split; [eapply (step_find elements _ _ [Found link "ada"] [] _ 5 "tok" "eve" link); vm_compute; reflexivity|vm_compute; discriminate]|].
  eapply rtc_l; [split; [eapply (step_join elements _ (joined ["ada"]) _ [] [Found link "eve"] [] _ 5 5 "ada" link); vm_compute; reflexivity|vm_compute; discriminate]|].
  eapply rtc_l; [split; [eapply (step_join elements _ (joined ["ada"; "eve"]) _ [Joined link] [] [] _ 5 5 "eve" link); vm_compute; reflexivity|vm_compute; discriminate]|].
  eapply rtc_l; [split; [eapply (step_count elements _ _ [] [Joined link] [] _ 5 link)|vm_compute; discriminate]|].
  eapply rtc_l; [split; [eapply (step_count elements _ _ [] [] ["inv"] _ 5 link)|vm_compute; discriminate]|].
  apply rtc_refl.
Qed.

(** An invitation for one lets two in: two requests that both look at the link
    before either is counted both succeed, and both users are in the team. *)
Theorem invitation_overused :
  exists r, rtc (step elements) start r /\ uses "inv" r = 2 /\ link.(i_MaxUses) = 1
    /\ has_membership r.(r_dir) "ada" "red" /\ has_membership r.(r_dir) "eve" "red".
Proof.
  exists (at_door (joined ["ada"; "eve"]) (used 2) [] ["inv"; "inv"]). split.
  - eapply rtc_subrel; [|exact both_enter]. by intros r1 r2 [Hs _].
  - split; [vm_compute; reflexivity|]. split; [done|]. split; eexists; (split; [vm_compute; reflexivity|done]).
Qed.

Lemma invitation_uses_bounded_witness : uses "inv" (at_door (joined ["ada"; "eve"]) (used 2) [] ["inv"; "inv"]) <= 1 + 2 - 1.
Proof.
  apply (invitation_uses_bounded elements (fun X => reflexivity _) "inv" 1 2 ltac:(lia) ltac:(lia) ltac:(unfold two63; lia) start _ link);
    [lia|done|vm_compute; set_solver|vm_compute; set_solver|by apply map_Forall_singleton|done|done|done|exact both_enter].
Defined.

Lemma accept_exact_witness :
  has_membership (AcceptInvitation {| at_check := 5; at_team_join := 5; at_org_join := 5; at_count := 5 |}
    {| ar_Token := "tok"; ar_UserID := "ada" |} NewMemoryStore {["inv" := link]}).1.1 "ada" "red".
Proof.
  pose proof (accept_exact elements (fun s => s) {| at_check := 5; at_team_join := 5; at_org_join := 5; at_count := 5 |}
    {| ar_Token := "tok"; ar_UserID := "ada" |} NewMemoryStore {["inv" := link]}
    ltac:(apply map_Forall_empty) eq_refl ltac:(by apply map_Forall_singleton)) as H.
  destruct (AcceptInvitation _ _ _ _) as [[s' l'] res]. vm_compute (head _) in H. destruct H as (_ & _ & H). by apply H.
Defined.
End Party.
