(* ===== verification/TenantManagement.v ===== *)
(** * Teams, users and organizations ([internal/api/team_endpoints.go], [user_endpoints.go], [organization_endpoints.go])

    The endpoints on tenants, over the directory.  A request is the body as parsed,
    [None] when it does not parse; each reading of the clock is a parameter. *)
From S2P Require Import Prelude Float64 AuthTypes AuthStore KeyManagement Directory UserTeamSync.

Section Endpoints.
Context {S : Type} `{!AuthStore S} `{!Directory S}.
Implicit Types s : S.

(** The limit and the offset of a query: what [strconv.Atoi] gives, [None] on error. *)
Definition page (limit offset : option Z) : Z * Z :=
  let limit := default 0 limit in let offset := default (-1) offset in
  (if limit <=? 0 then 50 else limit, if offset <? 0 then 0 else offset).

(** A list operation that panics is a panic of the endpoint. *)
Definition listing {A : Type} (what : string) (r : outcome auth_err (list A * Z)) : outcome unit (answer (list A * Z)) :=
  match r with
  | Ok (data, total) => Ok (Gives (data, total))
  | Err _ => Ok (Fails 500 ("failed to list " +:+ what))
  | Panic => Panic
  end.

(** ** Teams *)

Record TeamMember := { mb_UserID : string; mb_Role : string }.

Record NewTeamRequest := {
  nt_TeamID : string;
  nt_TeamAlias : option string;
  nt_OrganizationID : option string;
  nt_Members : list TeamMember;
  nt_Models : list string;
  nt_MaxBudget : option f64;
  nt_BudgetDuration : string;
  nt_TPMLimit : option Z;
  nt_RPMLimit : option Z;
  nt_MaxParallelReqs : option Z;
  nt_ModelMaxBudget : nmap f64;
  nt_ModelTPMLimit : nmap Z;
  nt_ModelRPMLimit : nmap Z;
  nt_Metadata : Metadata;
  nt_Blocked : bool;
}.

Definition or_uuid (id uuid : string) : string := if String.eqb id "" then uuid else id.

(** [nowReset] is the clock of the next reset. *)
Definition new_team (now nowReset : time) (uuid : string) (req : NewTeamRequest) : Team :=
  let team :=
    zeroTeam<|t_ID := or_uuid req.(nt_TeamID) uuid|><|t_Alias := req.(nt_TeamAlias)|><|t_OrganizationID := req.(nt_OrganizationID)|>
      <|t_Models := req.(nt_Models)|><|t_TPMLimit := req.(nt_TPMLimit)|><|t_RPMLimit := req.(nt_RPMLimit)|>
      <|t_MaxParallelRequests := req.(nt_MaxParallelReqs)|><|t_ModelMaxBudget := req.(nt_ModelMaxBudget)|>
      <|t_ModelTPMLimit := req.(nt_ModelTPMLimit)|><|t_ModelRPMLimit := req.(nt_ModelRPMLimit)|><|t_Metadata := req.(nt_Metadata)|>
      <|t_IsActive := true|><|t_Blocked := req.(nt_Blocked)|><|t_CreatedAt := now|><|t_UpdatedAt := now|> in
  let team := if_set req.(nt_MaxBudget) (fun x t => t<|t_MaxBudget := x|>) team in
  let team := if negb (String.eqb req.(nt_BudgetDuration) "")
              then team<|t_BudgetDuration := req.(nt_BudgetDuration)|><|t_BudgetResetAt := NextResetTime nowReset req.(nt_BudgetDuration)|> else team in
  team<|t_Members := mb_UserID <$> req.(nt_Members)|>.

(** The roles of the members are not kept. *)
Definition member_of (teamID : string) (m : TeamMember) : TeamMembership := zeroMembership<|tm_UserID := m.(mb_UserID)|><|tm_TeamID := teamID|>.

(** A membership that fails is only logged. *)
Definition NewTeam (now nowReset : time) (uuid : string) (req : option NewTeamRequest) s : S * answer Team :=
  match req with
  | None => (s, Fails 400 "invalid request body")
  | Some req =>
      let team := new_team now nowReset uuid req in
      match CreateTeam team s with
      | (s, Some _) => (s, Fails 500 "failed to create team")
      | (s, None) => (foldl (fun s m => (CreateTeamMembership (member_of team.(t_ID) m) s).1) s req.(nt_Members), Gives team)
      end
  end.

Record UpdateTeamRequest := {
  ut_TeamID : string;
  ut_TeamAlias : option string;
  ut_Models : option (list string);
  ut_MaxBudget : option f64;
  ut_BudgetDuration : option string;
  ut_TPMLimit : option Z;
  ut_RPMLimit : option Z;
  ut_MaxParallelReqs : option Z;
  ut_ModelMaxBudget : nmap f64;
  ut_Metadata : Metadata;
  ut_Blocked : option bool;
}.

Definition updated_team (nowReset now : time) (req : UpdateTeamRequest) (team : Team) : Team :=
  let team := if_set req.(ut_TeamAlias) (fun x t => t<|t_Alias := Some x|>) team in
  let team := if_set req.(ut_Models) (fun x t => t<|t_Models := x|>) team in
  let team := if_set req.(ut_MaxBudget) (fun x t => t<|t_MaxBudget := x|>) team in
  let team := if_set req.(ut_BudgetDuration) (fun x t => t<|t_BudgetDuration := x|><|t_BudgetResetAt := NextResetTime nowReset x|>) team in
  let team := if_set req.(ut_TPMLimit) (fun x t => t<|t_TPMLimit := Some x|>) team in
  let team := if_set req.(ut_RPMLimit) (fun x t => t<|t_RPMLimit := Some x|>) team in
  let team := if_set req.(ut_MaxParallelReqs) (fun x t => t<|t_MaxParallelRequests := Some x|>) team in
  let team := if_set req.(ut_ModelMaxBudget) (fun x t => t<|t_ModelMaxBudget := Some x|>) team in
  let team := if_set req.(ut_Metadata) (fun x t => t<|t_Metadata := mergeMetadata t.(t_Metadata) (Some x)|>) team in
  let team := if_set req.(ut_Blocked) (fun x t => t<|t_Blocked := x|>) team in
  team<|t_UpdatedAt := now|>.

Definition h_UpdateTeam (nowReset now : time) (req : option UpdateTeamRequest) s : S * answer Team :=
  match req with
  | None => (s, Fails 400 "invalid request body")
  | Some req =>
      if String.eqb req.(ut_TeamID) "" then (s, Fails 400 "team_id is required")
      else match GetTeam req.(ut_TeamID) s with
           | inr (Some team) =>
               let team := updated_team nowReset now req team in
               match UpdateTeam team s with
               | (s, Some _) => (s, Fails 500 "failed to update team")
               | (s, None) => (s, Gives team)
               end
           | _ => (s, Fails 404 "team not found")
           end
  end.

(** The endpoints that delete a list of entities. *)
Definition delete_all (required : string) (del : string -> S -> S * option auth_err) (req : option (list string)) s : S * answer (list string) :=
  match req with
  | None => (s, Fails 400 "invalid request body")
  | Some [] => (s, Fails 400 required)
  | Some ids => let '(s, deleted) := delete_each del ids s in (s, Gives deleted)
  end.

Definition h_DeleteTeam := delete_all "team_ids is required" DeleteTeam.

(** A failure to list the members leaves the list empty. *)
Definition GetTeamInfo (teamID : string) s : answer (Team * list TeamMembership) :=
  if String.eqb teamID "" then Fails 400 "team_id parameter is required"
  else match GetTeam teamID s with
       | inl _ => Fails 500 "failed to get team info"
       | inr None => Fails 404 "team not found"
       | inr (Some team) => Gives (team, match ListTeamMembers teamID s with inr members => members | inl _ => [] end)
       end.

Definition h_ListTeams (orgID : string) (limit offset : option Z) s : outcome unit (answer (list Team * Z)) :=
  let '(limit, offset) := page limit offset in
  listing "teams" (ListTeams {| tf_OrganizationID := non_empty orgID; tf_IsActive := None; tf_Blocked := None; tf_Limit := limit; tf_Offset := offset |} s).

Definition block_team (blocked : bool) (req : option string) s : S * answer string :=
  match req with
  | None => (s, Fails 400 "invalid request body")
  | Some teamID =>
      match BlockTeam teamID blocked s with
      | (s, Some _) => (s, Fails 500 (if blocked then "failed to block team" else "failed to unblock team"))
      | (s, None) => (s, Gives (if blocked then "blocked" else "unblocked"))
      end
  end.

Definition h_BlockTeam := block_team true.
Definition UnblockTeam := block_team false.

Definition AddTeamMember (req : option (string * list TeamMember)) s : S * answer (string * list string) :=
  match req with
  | None => (s, Fails 400 "invalid request body")
  | Some (teamID, members) =>
      if String.eqb teamID "" then (s, Fails 400 "team_id is required")
      else
        let '(s, added) := foldl (fun '(s, added) m =>
          match CreateTeamMembership (member_of teamID m) s with (s, Some _) => (s, added) | (s, None) => (s, added ++ [m.(mb_UserID)]) end) (s, []) members in
        (s, Gives (teamID, added))
  end.

Definition DeleteTeamMember (req : option (string * list string)) s : S * answer (string * list string) :=
  match req with
  | None => (s, Fails 400 "invalid request body")
  | Some (teamID, userIDs) =>
      if String.eqb teamID "" then (s, Fails 400 "team_id is required")
      else let '(s, removed) := delete_each (fun u => DeleteTeamMembership u teamID) userIDs s in (s, Gives (teamID, removed))
  end.

(** ** Users *)

Record NewUserRequest := {
  nu_UserID : string;
  nu_UserAlias : option string;
  nu_UserEmail : option string;
  nu_TeamID : option string;
  nu_OrganizationID : option string;
  nu_UserRole : string;
  nu_Models : list string;
  nu_MaxBudget : option f64;
  nu_BudgetDuration : string;
  nu_TPMLimit : option Z;
  nu_RPMLimit : option Z;
  nu_MaxParallelReqs : option Z;
  nu_ModelMaxBudget : nmap f64;
  nu_Metadata : Metadata;
}.

Definition created_user (now nowReset : time) (uuid : string) (req : NewUserRequest) : User :=
  let user :=
    zeroUser<|u_ID := or_uuid req.(nu_UserID) uuid|><|u_Alias := req.(nu_UserAlias)|><|u_Email := req.(nu_UserEmail)|>
      <|u_TeamID := req.(nu_TeamID)|><|u_OrganizationID := req.(nu_OrganizationID)|>
      <|u_Role := if String.eqb req.(nu_UserRole) "" then UserRoleInternalUser else req.(nu_UserRole)|>
      <|u_Models := req.(nu_Models)|><|u_TPMLimit := req.(nu_TPMLimit)|><|u_RPMLimit := req.(nu_RPMLimit)|>
      <|u_MaxParallelRequests := req.(nu_MaxParallelReqs)|><|u_ModelMaxBudget := req.(nu_ModelMaxBudget)|>
      <|u_Metadata := req.(nu_Metadata)|><|u_IsActive := true|><|u_CreatedAt := Some now|><|u_UpdatedAt := Some now|> in
  let user := if_set req.(nu_MaxBudget) (fun x u => u<|u_MaxBudget := x|>) user in
  if negb (String.eqb req.(nu_BudgetDuration) "")
  then user<|u_BudgetDuration := req.(nu_BudgetDuration)|><|u_BudgetResetAt := NextResetTime nowReset req.(nu_BudgetDuration)|> else user.

Definition NewUser (now nowReset : time) (uuid : string) (req : option NewUserRequest) s : S * answer User :=
  match req with
  | None => (s, Fails 400 "invalid request body")
  | Some req =>
      let user := created_user now nowReset uuid req in
      match CreateUser user s with
      | (s, Some _) => (s, Fails 500 "failed to create user")
      | (s, None) => (s, Gives user)
      end
  end.

Record UpdateUserRequest := {
  uu_UserID : string;
  uu_UserAlias : option string;
  uu_UserEmail : option string;
  uu_UserRole : option string;
  uu_Models : option (list string);
  uu_MaxBudget : option f64;
  uu_BudgetDuration : option string;
  uu_TPMLimit : option Z;
  uu_RPMLimit : option Z;
  uu_MaxParallelReqs : option Z;
  uu_ModelMaxBudget : nmap f64;
  uu_Metadata : Metadata;
}.

Definition updated_user (nowReset now : time) (req : UpdateUserRequest) (user : User) : User :=
  let user := if_set req.(uu_UserAlias) (fun x u => u<|u_Alias := Some x|>) user in
  let user := if_set req.(uu_UserEmail) (fun x u => u<|u_Email := Some x|>) user in
  let user := if_set req.(uu_UserRole) (fun x u => u<|u_Role := x|>) user in
  let user := if_set req.(uu_Models) (fun x u => u<|u_Models := x|>) user in
  let user := if_set req.(uu_MaxBudget) (fun x u => u<|u_MaxBudget := x|>) user in
  let user := if_set req.(uu_BudgetDuration) (fun x u => u<|u_BudgetDuration := x|><|u_BudgetResetAt := NextResetTime nowReset x|>) user in
  let user := if_set req.(uu_TPMLimit) (fun x u => u<|u_TPMLimit := Some x|>) user in
  let user := if_set req.(uu_RPMLimit) (fun x u => u<|u_RPMLimit := Some x|>) user in
  let user := if_set req.(uu_MaxParallelReqs) (fun x u => u<|u_MaxParallelRequests := Some x|>) user in
  let user := if_set req.(uu_ModelMaxBudget) (fun x u => u<|u_ModelMaxBudget := Some x|>) user in
  let user := if_set req.(uu_Metadata) (fun x u => u<|u_Metadata := mergeMetadata u.(u_Metadata) (Some x)|>) user in
  user<|u_UpdatedAt := Some now|>.

Definition h_UpdateUser (nowReset now : time) (req : option UpdateUserRequest) s : S * answer User :=
  match req with
  | None => (s, Fails 400 "invalid request body")
  | Some req =>
      if String.eqb req.(uu_UserID) "" then (s, Fails 400 "user_id is required")
      else match GetUser req.(uu_UserID) s with
           | inr (Some user) =>
               let user := updated_user nowReset now req user in
               match UpdateUser user s with
               | (s, Some _) => (s, Fails 500 "failed to update user")
               | (s, None) => (s, Gives user)
               end
           | _ => (s, Fails 404 "user not found")
           end
  end.

Definition h_DeleteUser := delete_all "user_ids is required" DeleteUser.

Definition GetUserInfo (userID : string) s : answer User :=
  if String.eqb userID "" then Fails 400 "user_id parameter is required"
  else match GetUser userID s with
       | inl _ => Fails 500 "failed to get user info"
       | inr None => Fails 404 "user not found"
       | inr (Some user) => Gives user
       end.

Definition h_ListUsers (teamID orgID role search : string) (limit offset : option Z) s : outcome unit (answer (list User * Z)) :=
  let '(limit, offset) := page limit offset in
  listing "users" (ListUsers {| uf_TeamID := non_empty teamID; uf_OrganizationID := non_empty orgID; uf_Role := non_empty role;
                                uf_Search := non_empty search; uf_IsActive := None; uf_Limit := limit; uf_Offset := offset |} s).

(** ** Organizations *)

Record NewOrganizationRequest := {
  no_OrganizationID : string;
  no_OrganizationAlias : string;
  no_Models : list string;
  no_MaxBudget : option f64;
  no_BudgetDuration : string;
  no_TPMLimit : option Z;
  no_RPMLimit : option Z;
  no_ModelMaxBudget : nmap f64;
  no_Metadata : Metadata;
}.

Definition zeroBudget (id : string) (now : time) : Budget :=
  {| b_ID := id; b_MaxBudget := None; b_SoftBudget := None; b_MaxParallelRequests := None; b_TPMLimit := None; b_RPMLimit := None;
     b_ModelMaxBudget := None; b_BudgetDuration := BudgetDurationNever; b_BudgetResetAt := None; b_CreatedAt := now; b_CreatedBy := "";
     b_UpdatedAt := now; b_UpdatedBy := "" |}.

Definition new_org_budget (now nowReset : time) (budgetID : string) (req : NewOrganizationRequest) : Budget :=
  let b := (zeroBudget budgetID now)<|b_MaxBudget := req.(no_MaxBudget)|><|b_TPMLimit := req.(no_TPMLimit)|><|b_RPMLimit := req.(no_RPMLimit)|>
             <|b_ModelMaxBudget := req.(no_ModelMaxBudget)|> in
  if negb (String.eqb req.(no_BudgetDuration) "")
  then b<|b_BudgetDuration := req.(no_BudgetDuration)|><|b_BudgetResetAt := NextResetTime nowReset req.(no_BudgetDuration)|> else b.

Definition new_org (now : time) (uuid : string) (req : NewOrganizationRequest) : Organization :=
  {| o_ID := or_uuid req.(no_OrganizationID) uuid; o_Alias := req.(no_OrganizationAlias); o_BudgetID := None; o_Models := req.(no_Models);
     o_MaxBudget := default fzero req.(no_MaxBudget); o_Spend := fzero; o_ModelSpend := None; o_Metadata := req.(no_Metadata);
     o_CreatedAt := now; o_UpdatedAt := now |}.

(** Whether the request has a parameter of a budget; a duration alone is none. *)
Definition wants_budget (req : NewOrganizationRequest) : bool :=
  bool_decide (is_Some req.(no_MaxBudget)) || bool_decide (is_Some req.(no_TPMLimit)) || bool_decide (is_Some req.(no_RPMLimit)).

Definition NewOrganization (now nowReset : time) (uuid budgetID : string) (req : option NewOrganizationRequest) s : S * answer Organization :=
  match req with
  | None => (s, Fails 400 "invalid request body")
  | Some req =>
      if String.eqb req.(no_OrganizationAlias) "" then (s, Fails 400 "organization_alias is required")
      else
        let org := new_org now uuid req in
        let '(s, org) :=
          if wants_budget req then
            match CreateBudget (new_org_budget now nowReset budgetID req) s with
            | (s, Some _) => (s, None)
            | (s, None) => (s, Some (org<|o_BudgetID := Some budgetID|>))
            end
          else (s, Some org) in
        match org with
        | None => (s, Fails 500 "failed to create organization budget")
        | Some org =>
            match CreateOrganization org s with
            | (s, Some _) => (s, Fails 500 "failed to create organization")
            | (s, None) => (s, Gives org)
            end
        end
  end.

Record UpdateOrganizationRequest := {
  uo_OrganizationID : string;
  uo_OrganizationAlias : option string;
  uo_Models : option (list string);
  uo_MaxBudget : option f64;
  uo_BudgetDuration : option string;
  uo_TPMLimit : option Z;
  uo_RPMLimit : option Z;
  uo_ModelMaxBudget : nmap f64;
  uo_Metadata : Metadata;
}.

Definition updated_org (now : time) (req : UpdateOrganizationRequest) (org : Organization) : Organization :=
  let org := if_set req.(uo_OrganizationAlias) (fun x o => o<|o_Alias := x|>) org in
  let org := if_set req.(uo_Models) (fun x o => o<|o_Models := x|>) org in
  let org := if_set req.(uo_MaxBudget) (fun x o => o<|o_MaxBudget := x|>) org in
  let org := if_set req.(uo_Metadata) (fun x o => o<|o_Metadata := mergeMetadata o.(o_Metadata) (Some x)|>) org in
  org<|o_UpdatedAt := now|>.

Definition updated_org_budget (nowReset now : time) (req : UpdateOrganizationRequest) (b : Budget) : Budget :=
  let b := if_set req.(uo_MaxBudget) (fun x b => b<|b_MaxBudget := Some x|>) b in
  let b := if_set req.(uo_TPMLimit) (fun x b => b<|b_TPMLimit := Some x|>) b in
  let b := if_set req.(uo_RPMLimit) (fun x b => b<|b_RPMLimit := Some x|>) b in
  let b := if_set req.(uo_ModelMaxBudget) (fun x b => b<|b_ModelMaxBudget := Some x|>) b in
  let b := if_set req.(uo_BudgetDuration) (fun x b => b<|b_BudgetDuration := x|><|b_BudgetResetAt := NextResetTime nowReset x|>) b in
  b<|b_UpdatedAt := now|>.

(** The linked budget, if there is one; its failures are only logged. *)
Definition with_linked_budget (id : option string) (f : Budget -> Budget) s : S :=
  match id with
  | None => s
  | Some id => match GetBudget id s with inr (Some b) => (UpdateBudget (f b) s).1 | _ => s end
  end.

Definition h_UpdateOrganization (now nowReset nowBudget : time) (req : option UpdateOrganizationRequest) s : S * answer Organization :=
  match req with
  | None => (s, Fails 400 "invalid request body")
  | Some req =>
      if String.eqb req.(uo_OrganizationID) "" then (s, Fails 400 "organization_id is required")
      else match GetOrganization req.(uo_OrganizationID) s with
           | inr (Some org) =>
               let org := updated_org now req org in
               let s := with_linked_budget org.(o_BudgetID) (updated_org_budget nowReset nowBudget req) s in
               match UpdateOrganization org s with
               | (s, Some _) => (s, Fails 500 "failed to update organization")
               | (s, None) => (s, Gives org)
               end
           | _ => (s, Fails 404 "organization not found")
           end
  end.

Definition h_DeleteOrganization := delete_all "organization_ids is required" DeleteOrganization.

Definition GetOrganizationInfo (orgID : string) s : answer (Organization * option Budget) :=
  if String.eqb orgID "" then Fails 400 "organization_id parameter is required"
  else match GetOrganization orgID s with
       | inl _ => Fails 500 "failed to get organization info"
       | inr None => Fails 404 "organization not found"
       | inr (Some org) => Gives (org, org.(o_BudgetID) ≫= fun id => match GetBudget id s with inr b => b | inl _ => None end)
       end.

Definition h_ListOrganizations (limit offset : option Z) s : outcome unit (answer (list Organization * Z)) :=
  let '(limit, offset) := page limit offset in listing "organizations" (ListOrganizations limit offset s).

(** ** Members of organizations *)

Record OrgMember := { og_UserID : string; og_UserRole : string; og_BudgetID : option string; og_MaxBudget : option f64 }.

(** One member; [uuid] names its budget. *)
Definition add_org_member (now : time) (orgID uuid : string) (member : OrgMember) (acc : S * list OrganizationMembership) : S * list OrganizationMembership :=
  let '(s, added) := acc in
  if String.eqb member.(og_UserID) "" then acc
  else match GetOrganizationMembership member.(og_UserID) orgID s with
  | inr (Some _) => acc
  | _ =>
      let m := zeroOrgMembership<|om_UserID := member.(og_UserID)|><|om_OrganizationID := orgID|>
                 <|om_UserRole := if String.eqb member.(og_UserRole) "" then "member" else member.(og_UserRole)|>
                 <|om_BudgetID := member.(og_BudgetID)|><|om_JoinedAt := Some now|> in
      let '(s, m) :=
        match member.(og_MaxBudget) with
        | None => (s, m)
        | Some x =>
            match CreateBudget ((zeroBudget uuid now)<|b_MaxBudget := Some x|>) s with
            | (s, Some _) => (s, m)
            | (s, None) => (s, m<|om_BudgetID := Some uuid|>)
            end
        end in
      match CreateOrganizationMembership m s with
      | (s, Some _) => (s, added)
      | (s, None) => (s, added ++ [m])
      end
  end.

(** [uuids] are the identifiers generated for the budgets. *)
Definition AddOrganizationMember (now : time) (uuids : nat -> string) (req : option (string * list OrgMember)) s : S * answer (list OrganizationMembership) :=
  match req with
  | None => (s, Fails 400 "invalid request body")
  | Some (orgID, members) =>
      if String.eqb orgID "" then (s, Fails 400 "organization_id is required")
      else if (length members =? 0)%nat then (s, Fails 400 "members is required")
      else match GetOrganization orgID s with
           | inr (Some _) =>
               let '(s, added) := foldl (fun acc p => add_org_member now orgID (uuids p.1) p.2 acc) (s, []) (imap pair members) in (s, Gives added)
           | _ => (s, Fails 404 "organization not found")
           end
  end.

Record OrgMemberUpdateRequest := { om_Org : string; om_User : string; om_Role : option string; om_MaxBudget : option f64 }.

Definition UpdateOrganizationMember (nowBudget : time) (req : option OrgMemberUpdateRequest) s : S * answer OrganizationMembership :=
  match req with
  | None => (s, Fails 400 "invalid request body")
  | Some req =>
      if String.eqb req.(om_Org) "" || String.eqb req.(om_User) "" then (s, Fails 400 "organization_id and user_id are required")
      else match GetOrganizationMembership req.(om_User) req.(om_Org) s with
           | inr (Some m) =>
               let m := if_set req.(om_Role) (fun x m => m<|om_UserRole := x|>) m in
               let s := match req.(om_MaxBudget) with
                        | Some x => with_linked_budget m.(om_BudgetID) (fun b => b<|b_MaxBudget := Some x|><|b_UpdatedAt := nowBudget|>) s
                        | None => s
                        end in
               match UpdateOrganizationMembership m s with
               | (s, Some _) => (s, Fails 500 "failed to update member")
               | (s, None) => (s, Gives m)
               end
           | _ => (s, Fails 404 "membership not found")
           end
  end.

Definition DeleteOrganizationMember (req : option (string * list string)) s : S * answer (list string) :=
  match req with
  | None => (s, Fails 400 "invalid request body")
  | Some (orgID, userIDs) =>
      if String.eqb orgID "" || (length userIDs =? 0)%nat then (s, Fails 400 "organization_id and user_ids are required")
      else let '(s, deleted) := delete_each (fun u => DeleteOrganizationMembership u orgID) userIDs s in (s, Gives deleted)
  end.

Definition h_ListOrganizationMembers (orgID : string) s : answer (list OrganizationMembership * Z) :=
  if String.eqb orgID "" then Fails 400 "organization_id parameter is required"
  else match ListOrganizationMembers orgID s with
       | inl _ => Fails 500 "failed to list members"
       | inr members => Gives (members, Z.of_nat (length members))
       end.
End Endpoints.

(** * Theorems of the tenant endpoints, over the in-memory store

    A team that is created is found, with its members; updates keep what tenants have
    spent; and the pages of the listings do not panic as long as their end fits. *)
From coqutil Require Datatypes.RecordSettersUsingExistingGetters.
From S2P Require Import AuthStoreProofs.
Import MemoryAuth.

Section Tenants.
Context (ord : gset string -> list string) (toLower : string -> string).
#[local] Instance tenant_store : AuthStore MemoryStore := memory_auth_store ord.
#[local] Instance tenant_directory : Directory MemoryStore := memory_directory ord toLower.
Implicit Types s : MemoryStore.

(** Tenants are under their identifiers. *)
Record keyed s : Prop := {
  keyed_teams : map_Forall (fun k t => t.(t_ID) = k) s.(teams);
  keyed_users : map_Forall (fun k u => u.(u_ID) = k) s.(users);
  keyed_orgs : map_Forall (fun k o => o.(o_ID) = k) s.(organizations);
}.

(** ** Spend *)

(** What a tenant has spent, in total and by model, and for how long it is there. *)
Definition team_ledger (t : Team) := (t.(t_SpentBudget), t.(t_ModelSpend), t.(t_Members), t.(t_IsActive), t.(t_CreatedAt)).
Definition user_ledger (u : User) := (u.(u_Spend), u.(u_ModelSpend), u.(u_IsActive), u.(u_CreatedAt)).
Definition org_ledger (o : Organization) := (o.(o_Spend), o.(o_ModelSpend), o.(o_BudgetID), o.(o_CreatedAt)).

Record ledgers_kept s s' : Prop := {
  teams_kept id : team_ledger <$> s'.(teams) !! id = team_ledger <$> s.(teams) !! id;
  users_kept id : user_ledger <$> s'.(users) !! id = user_ledger <$> s.(users) !! id;
  orgs_kept id : org_ledger <$> s'.(organizations) !! id = org_ledger <$> s.(organizations) !! id;
  memberships_kept : s'.(teamMemberships) = s.(teamMemberships) /\ s'.(orgMemberships) = s.(orgMemberships);
}.

Lemma ledgers_refl s : ledgers_kept s s.
Proof. by split. Qed.

Lemma if_set_keeps {A B C : Type} (g : B -> C) (x : option A) (f : A -> B -> B) (b : B) : (forall a b, g (f a b) = g b) -> g (if_set x f b) = g b.
Proof. intros H. destruct x; [apply H|done]. Qed.

(** A record whose last update does not matter, over fields that may be set. *)
Ltac keeps := cbv zeta;
  match goal with |- ?g (@RecordSettersUsingExistingGetters.set _ _ _ _ _ ?y) = ?g ?z => change (g y = g z) end; by rewrite !if_set_keeps by done.

Lemma updated_team_ledger t1 t2 req team : team_ledger (updated_team t1 t2 req team) = team_ledger team /\ (updated_team t1 t2 req team).(t_ID) = team.(t_ID).
Proof. unfold updated_team. split; keeps. Qed.

Lemma updated_user_ledger t1 t2 req user : user_ledger (updated_user t1 t2 req user) = user_ledger user /\ (updated_user t1 t2 req user).(u_ID) = user.(u_ID).
Proof. unfold updated_user. split; keeps. Qed.

Lemma updated_org_ledger t req org : org_ledger (updated_org t req org) = org_ledger org /\ (updated_org t req org).(o_ID) = org.(o_ID).
Proof. unfold updated_org. split; keeps. Qed.

Lemma replaced_kept {V W : Type} (f : V -> W) (m : gmap string V) k v v' : m !! k = Some v -> f v' = f v -> forall id, f <$> <[k := v']> m !! id = f <$> m !! id.
Proof.
  intros Hk Hf id. destruct (decide (id = k)) as [->|Ne]; [by rewrite lookup_insert_eq, Hk; cbn; rewrite Hf|by rewrite lookup_insert_ne].
Qed.

Lemma linked_budget_kept id f s :
  let s' := with_linked_budget id f s in
  s'.(teams) = s.(teams) /\ s'.(users) = s.(users) /\ s'.(organizations) = s.(organizations)
  /\ s'.(teamMemberships) = s.(teamMemberships) /\ s'.(orgMemberships) = s.(orgMemberships).
Proof. unfold with_linked_budget. cbn. by repeat case_match; simplify_eq/=. Qed.

(** The endpoints that update a tenant. *)
Inductive tenant_update :=
| UpTeam (nowReset now : time) (req : option UpdateTeamRequest)
| UpUser (nowReset now : time) (req : option UpdateUserRequest)
| UpOrg (now nowReset nowBudget : time) (req : option UpdateOrganizationRequest).

Definition run_update s (u : tenant_update) : MemoryStore :=
  match u with
  | UpTeam t1 t2 req => (h_UpdateTeam t1 t2 req s).1
  | UpUser t1 t2 req => (h_UpdateUser t1 t2 req s).1
  | UpOrg t1 t2 t3 req => (h_UpdateOrganization t1 t2 t3 req s).1
  end.

Lemma update_kept s u : keyed s -> keyed (run_update s u) /\ ledgers_kept s (run_update s u).
Proof.
  intros [Kt Ku Ko]. assert (K : keyed s) by done. destruct u as [t1 t2 [req|]|t1 t2 [req|]|t1 t2 t3 [req|]]; cbn [run_update]; try (by split; [|apply ledgers_refl]).
  - unfold h_UpdateTeam. destruct (String.eqb _ _); [by split; [|apply ledgers_refl]|].
    change (GetTeam (ut_TeamID req) s) with (inr (teams s !! ut_TeamID req) : auth_err + option Team).
    destruct (teams s !! ut_TeamID req) as [team|] eqn:E; [|by split; [|apply ledgers_refl]].
    destruct (updated_team_ledger t1 t2 req team) as [El Ei]. generalize dependent (updated_team t1 t2 req team). intros team' El Ei. cbn. rewrite Ei, (Kt _ _ E). split; [|split; [|done..]; by eapply replaced_kept].
    split; [|done..]. apply map_Forall_insert_2; [by rewrite Ei, (Kt _ _ E)|done].
  - unfold h_UpdateUser. destruct (String.eqb _ _); [by split; [|apply ledgers_refl]|].
    change (GetUser (uu_UserID req) s) with (inr (users s !! uu_UserID req) : auth_err + option User).
    destruct (users s !! uu_UserID req) as [user|] eqn:E; [|by split; [|apply ledgers_refl]].
    destruct (updated_user_ledger t1 t2 req user) as [El Ei]. generalize dependent (updated_user t1 t2 req user). intros user' El Ei. cbn. rewrite Ei, (Ku _ _ E). split; [|split; [done| |done..]; by eapply replaced_kept].
    split; [done| |done]. apply map_Forall_insert_2; [by rewrite Ei, (Ku _ _ E)|done].
  - unfold h_UpdateOrganization. destruct (String.eqb _ _); [by split; [|apply ledgers_refl]|]. cbn [GetOrganization tenant_store memory_auth_store]. unfold ms_GetOrganization.
    destruct (organizations s !! uo_OrganizationID req) as [org|] eqn:E; [|by split; [|apply ledgers_refl]].
    destruct (updated_org_ledger t1 req org) as [El Ei]. cbn [UpdateOrganization tenant_directory memory_directory]. unfold ms_UpdateOrganization.
    destruct (linked_budget_kept (o_BudgetID (updated_org t1 req org)) (updated_org_budget t2 t3 req) s) as (B1 & B2 & B3 & B4 & B5).
    set (s1 := with_linked_budget _ _ s) in *. clearbody s1. generalize dependent (updated_org t1 req org). intros org' El Ei. cbn. rewrite Ei, (Ko _ _ E). split; split; cbn; rewrite ?B1, ?B2, ?B3, ?B4, ?B5; try done.
    + apply map_Forall_insert_2; [by rewrite Ei, (Ko _ _ E)|done].
    + by eapply replaced_kept.
Qed.

(** Updates keep what tenants have spent.  Whatever requests update teams, users
    and organizations, each of them keeps what it has spent, in total and by model, its
    members, its memberships and whether it is in service. *)
Theorem updates_keep_spend us s : keyed s -> ledgers_kept s (foldl run_update s us).
Proof.
  revert s. induction us as [|u us IH]; intros s K; [apply ledgers_refl|]. cbn [foldl]. destruct (update_kept s u K) as [K' [T1 U1 O1 [M1 N1]]].
  destruct (IH _ K') as [T2 U2 O2 [M2 N2]]. split; [intros id; by rewrite T2|intros id; by rewrite U2|intros id; by rewrite O2|]. by rewrite M2, N2.
Qed.

(** ** A new team *)

Lemma members_created teamID members s :
  memberships_ok s -> Forall (fun m => no_colon m.(mb_UserID) = true) members ->
  let s' := foldl (fun s m => (CreateTeamMembership (member_of teamID m) s).1) s members in
  memberships_ok s' /\ s'.(teams) = s.(teams)
  /\ forall u t, no_colon u = true -> has_membership s' u t <-> has_membership s u t \/ (t = teamID /\ u ∈ (mb_UserID <$> members)).
Proof.
  intros Hok Hm. revert s Hok. induction Hm as [|m members Hm Hms IH]; intros s Hok; cbn [foldl].
  { split; [done|]. split; [done|]. intros u t _. set_solver. }
  destruct (memory_create s (member_of teamID m) Hok Hm) as [Hok1 H1].
  destruct (IH (ms_CreateTeamMembership (member_of teamID m) s).1 Hok1) as (H2 & H3 & H4). split; [exact H2|]. split; [exact H3|].
  intros u t Hu. specialize (H4 u t Hu). rewrite H1 in H4 by done. etrans; [exact H4|]. rewrite fmap_cons, elem_of_cons. cbn. clear. naive_solver.
Qed.

(** A team that is created is found.  After the endpoint has answered with a team,
    its information gives that team, and its members are the users of the request, with
    those who were in a team of that name before; no other membership changes. *)
Theorem created_team_found now nowReset uuid req s s' team :
  memberships_ok s -> Forall (fun m => no_colon m.(mb_UserID) = true) req.(nt_Members) -> or_uuid req.(nt_TeamID) uuid <> "" ->
  NewTeam now nowReset uuid (Some req) s = (s', Gives team) ->
  team.(t_ID) = or_uuid req.(nt_TeamID) uuid
  /\ (exists members, GetTeamInfo team.(t_ID) s' = Gives (team, members))
  /\ forall u t, no_colon u = true ->
       has_membership s' u t <-> has_membership s u t \/ (t = team.(t_ID) /\ u ∈ (mb_UserID <$> req.(nt_Members))).
Proof.
  intros Hok Hm Hne. unfold NewTeam. set (tm := new_team now nowReset uuid req).
  assert (Hid : tm.(t_ID) = or_uuid (nt_TeamID req) uuid).
  { unfold tm, new_team. cbv zeta. cbn [t_ID]. by destruct (nt_MaxBudget req), (negb _). }
  clearbody tm. cbn [CreateTeam tenant_directory memory_directory ms_CreateTeam]. intros [= <- <-].
  set (s1 := s<|teams ::= <[t_ID tm := tm]>|>).
  destruct (members_created (t_ID tm) (nt_Members req) s1 Hok Hm) as (_ & Ht & Hmem). split; [done|]. split.
  - unfold GetTeamInfo. rewrite (proj2 (String.eqb_neq _ _)) by congruence.
    match goal with |- context [GetTeam _ ?x] =>
      change (GetTeam (t_ID tm) x) with (inr (x.(teams) !! t_ID tm) : auth_err + option Team);
      assert (Hl : x.(teams) !! t_ID tm = Some tm) by (transitivity (teams s1 !! t_ID tm); [by apply (f_equal (lookup (t_ID tm))) in Ht|apply lookup_insert_eq])
    end. rewrite Hl. by eexists.
  - intros u t Hu. by rewrite (Hmem u t Hu).
Qed.

(** A team that is created again starts anew: with the identifier of a team that is
    there, the endpoint replaces it, and what it had spent is forgotten. *)
Theorem new_team_forgets_spend now nowReset uuid req s old :
  req.(nt_TeamID) <> "" -> s.(teams) !! req.(nt_TeamID) = Some old ->
  exists team, (NewTeam now nowReset uuid (Some req) s).2 = Gives team /\ team.(t_SpentBudget) = fzero /\ team.(t_ModelSpend) = None
    /\ (NewTeam now nowReset uuid (Some req) s).1.(teams) !! req.(nt_TeamID) = Some team.
Proof.
  intros Hne Hold. unfold NewTeam. set (tm := new_team now nowReset uuid req).
  assert (Hid : tm.(t_ID) = nt_TeamID req /\ tm.(t_SpentBudget) = fzero /\ tm.(t_ModelSpend) = None).
  { unfold tm, new_team, or_uuid. cbv zeta. rewrite (proj2 (String.eqb_neq _ _) Hne). by destruct (nt_MaxBudget req), (negb _). }
  destruct Hid as (Hid & H1 & H2). clearbody tm. exists tm. cbn [CreateTeam tenant_directory memory_directory ms_CreateTeam snd fst]. split; [done|]. split; [done|]. split; [done|].
  assert (Ht : forall ms s0, teams (foldl (fun s m => (CreateTeamMembership (member_of (t_ID tm) m) s).1) s0 ms) = teams s0).
  { induction ms as [|m ms IH]; intros s0; [done|]. cbn [foldl]. by rewrite IH. }
  rewrite Ht. cbn. by rewrite Hid, lookup_insert_eq.
Qed.
End Tenants.

(** ** A store *)

Module Office.
#[local] Instance office_store : AuthStore MemoryStore := memory_auth_store elements.
#[local] Instance office_directory : Directory MemoryStore := memory_directory elements (fun s => s).

Definition red : NewTeamRequest :=
  {| nt_TeamID := "red"; nt_TeamAlias := None; nt_OrganizationID := None; nt_Members := [{| mb_UserID := "ada"; mb_Role := "admin" |}];
     nt_Models := []; nt_MaxBudget := None; nt_BudgetDuration := ""; nt_TPMLimit := None; nt_RPMLimit := None; nt_MaxParallelReqs := None;
     nt_ModelMaxBudget := None; nt_ModelTPMLimit := None; nt_ModelRPMLimit := None; nt_Metadata := None; nt_Blocked := false |}.

Definition spent : MemoryStore := (ms_UpdateTeamSpent "red" (f64_of_Z 7) (NewTeam 1 1 "x" (Some red) NewMemoryStore).1).1.

Lemma spent_keyed : keyed spent.
Proof. split; apply map_Forall_to_list; vm_compute; by repeat constructor. Qed.

Definition raise_budget : UpdateTeamRequest :=
  {| ut_TeamID := "red"; ut_TeamAlias := None; ut_Models := None; ut_MaxBudget := Some (f64_of_Z 9); ut_BudgetDuration := Some "30d";
     ut_TPMLimit := None; ut_RPMLimit := None; ut_MaxParallelReqs := None; ut_ModelMaxBudget := None; ut_Metadata := None; ut_Blocked := None |}.

Lemma updates_keep_spend_witness : ledgers_kept spent (foldl (run_update elements (fun s => s)) spent [UpTeam 5 5 (Some raise_budget)]).
Proof. apply updates_keep_spend. apply spent_keyed. Defined.

Lemma created_team_found_witness :
  exists s' team, NewTeam 1 1 "x" (Some red) NewMemoryStore = (s', Gives team) /\ has_membership s' "ada" "red".
Proof.
  destruct (NewTeam 1 1 "x" (Some red) NewMemoryStore) as [s' [st msg|team]] eqn:E; [vm_compute in E; discriminate E|].
  exists s', team. split; [reflexivity|].
  destruct (created_team_found elements (fun s => s) 1 1 "x" red NewMemoryStore s' team) as (Hid & _ & Hm);
    [apply map_Forall_empty|by repeat constructor|discriminate|exact E|].
  apply Hm; [reflexivity|]. right. rewrite Hid. split; [reflexivity|]. vm_compute. left.
Defined.

Lemma new_team_forgets_spend_witness :
  spent.(teams) !! "red" ≫= (fun t => Some t.(t_SpentBudget)) = Some (f64_of_Z 7)
  /\ exists team, (NewTeam 2 2 "y" (Some red) spent).2 = Gives team /\ team.(t_SpentBudget) = fzero.
Proof.
  split; [vm_compute; reflexivity|]. destruct (spent.(teams) !! "red") as [old|] eqn:E; [|vm_compute in E; discriminate E].
  destruct (new_team_forgets_spend elements (fun s => s) 2 2 "y" red spent old) as (team & H1 & H2 & _); [discriminate|exact E|]. by exists team.
Defined.
End Office.
